(* ===== verification/_CoqProject ===== *)
-Q . S2P
Prelude.v
GoIO.v
WalRecord.v
WalRecordEnc.v
WalRecordSound.v
WalPage.v
WalPageEnc.v
WalFile.v
WalTotal.v
WalTheorems.v
GoStrings.v
GoPath.v
GoSort.v
Timeline.v
Storage.v
History.v
WalReceive.v
WalSegments.v
WalShow.v
WalVerify.v
Delta.v
DeltaManager.v
PagedFile.v
GoFS.v
DeltaMap.v
Backups.v
BackupMeta.v
BackupMark.v
Delete.v
DeleteSpec.v
DeletePg.v
IncPages.v
IncSpec.v
IncTheorems.v
GoFilepath.v
Tablespace.v
Unwrap.v
Fetch.v
FetchSpec.v
FetchTheorems.v
FetchSkip.v
PageVerify.v
TarQueue.v
BundleFiles.v
Packer.v
Composer.v
QueueSpec.v
ComposerSpec.v
ComposerRegular.v
ComposerRating.v
ComposeScan.v
ComposeTheorems.v
Bundle.v
BundleSpec.v
BackupPush.v
PushSpec.v
PushFetch.v
PushRestore.v
PushTheorems.v
PushMark.v
WalArchive.v
WalMetadata.v
WalPush.v
WalPushSpec.v
WalPushTheorems.v
WalFetch.v
GoDecimal.v
MongoModels.v
MongoLayout.v
MongoStorage.v
MongoStages.v
MongoReplay.v
MongoPurge.v
MongoOplog.v
BlobIndex.v
BlobServer.v
BlobSpec.v
BlobRep.v
BlobSteps.v
BlobTheorems.v
