(* ===== verification/Prelude.v ===== *)
(** * WAL-G: a verification library

    WAL-G archives databases: it uploads the write-ahead log of PostgreSQL and
    makes full and incremental backups of its data directory, it archives the
    oplog of MongoDB, and it serves blobs to SQL Server. Everything is kept in a
    storage of named objects. This library models the core of these programs as
    functions and step relations, and proves what they promise. The names are
    those of the Go code; a pointer or a shared object is a value that each
    operation maps to the next, or a cell of a heap where it is aliased; a
    goroutine is a step relation, so that a theorem speaks of every order of
    steps.

    ** The parts, and how they meet

    - Generic files. [Prelude] (results, machine integers, bytes), [GoIO] (readers
      and the fields of the parsers), [GoStrings], [GoPath], [GoFilepath],
      [GoDecimal] (strings, paths and numbers of the Go library), [GoSort]
      ([sort.Slice] as an interface), [GoFS] (files, tar headers, streams that are
      cut or padded), [PagedFile] (random access to a file of pages).
    - The WAL parser, [src/internal/walparser]. [WalRecord] parses a record,
      [WalPage] the pages and the records that cross them ([WalParser] is the
      state), [WalFile] the files and their block locations. [WalRecordEnc],
      [WalPageEnc] are the encoders that the parsers invert, [WalRecordSound] says
      what an accepted record satisfies, [WalTotal] that the loops end,
      [WalTheorems] the results.
    - Names and numbers, [timeline.go], [wal_segment_no.go], [delta_no.go] of
      [src/internal/databases/postgres]: [Timeline]. A file of WAL has a timeline
      and a segment number; sixteen segments share a delta file.
    - Storage, [src/internal/fetch_helper.go]: [Storage] finds an object under the
      extensions of the decompressors. [BackupMeta.ObjectStore] is the interface
      of a storage that is also written; every client is proved against it.
    - WAL in the storage. [History] (timeline history), [WalReceive] (segments
      from a replication connection, uploaded one after the other), [WalSegments], [WalShow], [WalVerify] (what
      the storage has, and what is missing). [WalArchive] (one file into the
      archive: the check of an overwrite and the marks of [src/internal/asm]),
      [WalMetadata], [WalPush] ([bguploader.go] and [HandleWALPush], as steps of
      the main goroutine, the scanner, the dispatcher and the workers;
      [WalPushSpec], [WalPushTheorems]), [WalFetch] (fetching, and waiting for a
      prefetch that other processes make).
    - What changed. While WAL is uploaded its block locations are recorded:
      [Delta] (part files and delta files), [DeltaManager] (the manager and the
      recording reader). A backup reads them: [DeltaMap].
    - Increments of files, [pagefile.go] and [pagefile_new.go]: [IncPages], with
      [IncSpec] and [IncTheorems]; checksums of pages in [PageVerify].
    - Backups in the storage. [Backups] (listing, selection, purging),
      [BackupMeta] (sentinels and metadata), [BackupMark] (permanent backups),
      [Delete] over the interface of a handler, with [DeleteSpec], and [DeletePg]
      for PostgreSQL.
    - Making a backup. [Bundle] walks the data directory and asks a composer for
      each object ([BundleSpec]); [Packer] packs one file; [TarQueue] is the queue
      of archives; [Composer] has the regular and the rating composer as step
      relations. [ComposerSpec.composed] is the contract of a composer, kept by
      both ([ComposerRegular], [ComposerRating] with [QueueSpec], [ComposeScan],
      [BundleFiles]). [BackupPush] is the whole of [backup-push] over files;
      [PushSpec], [PushFetch], [PushRestore], [PushMark] and
      [PushTheorems] are its proofs.
    - Restoring a backup. [Unwrap] writes the entries of archives, [Tablespace]
      makes links, [Fetch] has both recursions over the chain of increments;
      [FetchSpec] is the history of one file through a chain, [FetchTheorems] the
      restores, [FetchSkip] two chains that are not restored.
    - MongoDB, [src/internal/databases/mongo]. [MongoModels] (timestamps, archive
      names, backups), [MongoLayout] (sequences of archives, purging),
      [MongoStorage] (what is written and read), [MongoStages] (the stages of
      archiving and replaying), [MongoOplog] (applying a record); proofs in
      [MongoReplay] and [MongoPurge].
    - SQL Server, [src/internal/databases/sqlserver/blob]. [BlobIndex] (the blocks
      of a blob, on a heap), [BlobServer] (the handlers); [BlobSpec.Blob] is the
      specification and [BlobSpec.Rep] the representation; [BlobRep],
      [BlobSteps] and [BlobTheorems] are the proofs.

    ** What is shown

    - Round trips and refinements: the WAL parser recovers what the encoder laid
      out; an increment applied to an older file gives the file; what a push has
      left, full or an increment of a chain, is what both restores bring back,
      for the files that the program itself wants of a backup; the oplog that is
      archived is the oplog that is replayed; [wal-fetch] leaves the file that was
      archived, whatever steps prefetches take meanwhile; [wal-receive] uploads
      the bytes it was sent; the server of blobs does what a list of blocks means,
      and a restart keeps it. The chains that are restored newest first are those
      of a cluster without tablespaces, and [FetchSkip] shows what happens to
      others.
    - Safety in every interleaving: [wal-push] marks a file only when it, or
      another with the same mark, is in the archive, and does not overwrite other
      bytes; deletions and purges keep
      what permanent and retained backups need; a bulk metadata object has every
      entry; a record is archived when the majority has it; a lease protects its
      blob.
    - Progress: runs of [wal-push] and of the archiving of the oplog end, and the
      loops of the parsers do. A run of a composer ends too: in its contract when
      every file packs, and otherwise in an error of a file that does not, in a
      panic of the rating composer, or waiting for an archive that the failed
      packing has not given back.
    - Invariants: what is accepted is well formed; the bases of a permanent backup
      are permanent wherever a push stops.
    - Behaviour that is not what was meant is stated as a theorem too:
      [FetchSkip.skip_redundant_loses_page], [MongoOplog.nested_ops_lost],
      [MongoPurge.backup_end_lost], [BlobTheorems.put_blob_lost],
      [BlobTheorems.refused_list_changes_blob],
      [WalPushTheorems.wal_push_partial], [WalFetch.late_rename_loses], and the
      second half of [DeleteSpec.findDependantBackups_spec].

    ** Fuel and bounds

    A loop that is not structural takes fuel, and a theorem says how much is
    enough. The parsers' loops take the length of the input and never run out
    ([WalTotal]); [Bundle.walk] needs the height of the directory tree; the two
    restores, the length of the chain; [BackupMark.GetBackupsToMark], the depth of
    the increments ([GetBackupsToMark_ends]); [Delete.findDependantBackups], the
    number of backups, since each is taken once, and no fuel at all when the target
    is an increment of itself; [MongoLayout.walkBack] and
    [MongoStages.fetchArchive], one turn more than there are archives or bytes;
    [BlobIndex.search], the number of blocks, since the interval shrinks;
    [WalFetch.fetchLoop] follows the turns in which the other processes act, and
    ends when the prefetch does or stalls: a hundred looks for each byte of the
    file are enough. [WalReceive.receiveLoop] takes one turn more than there are
    events. Unsigned integers wrap at their
    width ([wrap]); where a theorem needs a bound (LSNs, sizes of files, 2^40
    bytes in a block of a blob and 2^20 blocks in a list) it is a hypothesis.

    ** What is not modelled

    The storages, compressors, the crypter, JSON, BSON, XML tokens, bitmaps and
    the drivers of the databases are code of other projects: parameters with the
    laws their documentation gives. Left out of this program: connections and SQL
    queries, backups streamed over a connection, extraction by several goroutines
    with its retries, prefault, [copy], configuration and commands, the web
    server, of MongoDB the client, statistics and listings, of SQL Server the
    backup and restore commands and the start of the server, and MySQL, Redis,
    Greenplum and FoundationDB, which stream the output of other programs. *)

From Stdlib Require Export ZArith Lia Bool.
From stdpp Require Export base gmap sets list strings.
From stdpp Require relations.
From coqutil Require Byte Word.LittleEndianList.

(** ** Results *)

(** A Go function returning [(T, error)]: a value or an error. *)
Inductive res (E A : Type) : Type :=
| Ok (a : A)
| Err (e : E).
Arguments Ok {E A} a.
Arguments Err {E A} e.

#[export] Instance res_ret E : MRet (res E) := fun A a => Ok a.

#[export] Instance res_bind E : MBind (res E) :=
  fun A B f m => match m with Ok a => f a | Err e => Err e end.

#[export] Instance res_fmap E : FMap (res E) :=
  fun A B f m => match m with Ok a => Ok (f a) | Err e => Err e end.

Definition res_map_err {E F A} (f : E -> F) (m : res E A) : res F A :=
  match m with Ok a => Ok a | Err e => Err (f e) end.

Definition is_ok {E A} (m : res E A) : bool :=
  match m with Ok _ => true | Err _ => false end.

(** ** Runs *)

(** What every step keeps holds after a run. *)
Lemma rtc_invariant {A} (R : A -> A -> Prop) (P : A -> Prop) x y :
  (forall a b, P a -> R a b -> P b) -> relations.rtc R x y -> P x -> P y.
Proof. intros Hpres Hr. induction Hr; eauto. Qed.

(** ** Machine integers *)

(** Unsigned integers are [Z]s in range; arithmetic wraps. *)
Definition wrap (w : Z) (z : Z) : Z := z mod 2 ^ w.
Notation u8 := (wrap 8).
Notation u16 := (wrap 16).
Notation u32 := (wrap 32).
Notation u64 := (wrap 64).

Definition in_width (w : Z) (z : Z) : Prop := (0 <= z < 2 ^ w)%Z.

Lemma wrap_range w z : (0 <= w)%Z -> in_width w (wrap w z).
Proof. intros. unfold in_width, wrap. apply Z.mod_pos_bound. lia. Qed.

Lemma wrap_id w z : in_width w z -> wrap w z = z.
Proof. apply Z.mod_small. Qed.

(** ** Bytes *)

Notation byte := Init.Byte.byte.
#[export] Instance byte_eq_dec : EqDecision byte := Byte.byte_eq_dec.
Notation b2z := coqutil.Byte.byte.unsigned.
Notation z2b := coqutil.Byte.byte.of_Z.

(** Little-endian encodings on [w] bytes, as [encoding/binary] writes them. *)
Notation le_enc := LittleEndianList.le_split.
Notation le_dec := LittleEndianList.le_combine.

Lemma le_enc_length w z : length (le_enc w z) = w.
Proof. apply LittleEndianList.length_le_split. Qed.

(** [z] is an unsigned integer of [w] bytes. *)
Definition fits (w : nat) (z : Z) : bool := (0 <=? z)%Z && (z <? 2 ^ (8 * Z.of_nat w))%Z.

Lemma fits_in_width w z : fits w z = true <-> in_width (8 * Z.of_nat w) z.
Proof. unfold fits, in_width. rewrite andb_true_iff, Z.leb_le, Z.ltb_lt. done. Qed.

Lemma le_dec_enc w z : fits w z = true -> le_dec (le_enc w z) = z.
Proof.
  rewrite fits_in_width. intros Hz. rewrite LittleEndianList.le_combine_split.
  apply Z.mod_small. by rewrite Z.mul_comm.
Qed.

Lemma le_enc_dec bs : le_enc (length bs) (le_dec bs) = bs.
Proof. apply LittleEndianList.split_le_combine. Qed.

Lemma le_dec_range bs : in_width (8 * Z.of_nat (length bs)) (le_dec bs).
Proof. apply LittleEndianList.le_combine_bound. Qed.

Lemma le_dec_fits bs w : length bs = w -> fits w (le_dec bs) = true.
Proof. intros <-. apply fits_in_width, le_dec_range. Qed.

(** ** Hints *)

Create HintDb walg discriminated.
#[export] Hint Resolve wrap_range : walg.
#[export] Hint Rewrite @length_app @le_enc_length @length_take @length_drop
  @length_replicate : walg_len.

(** ** Tactics *)

(** Decide the head [if]/[match] scrutinee of the goal or a hypothesis. *)
Ltac case_bool :=
  match goal with
  | |- context [if ?b then _ else _] => destruct b eqn:?
  | H : context [if ?b then _ else _] |- _ => destruct b eqn:?
  end.

(** Turn boolean comparisons of the code into propositions. *)
Ltac bool_to_prop :=
  repeat match goal with
  | H : _ && _ = true |- _ => apply andb_true_iff in H as [? ?]
  | H : _ || _ = false |- _ => apply orb_false_iff in H as [? ?]
  | H : negb _ = true |- _ => apply negb_true_iff in H
  | H : negb _ = false |- _ => apply negb_false_iff in H
  | H : bool_decide _ = true |- _ => apply bool_decide_eq_true in H
  | H : bool_decide _ = false |- _ => apply bool_decide_eq_false in H
  | H : (_ =? _)%Z = true |- _ => apply Z.eqb_eq in H
  | H : (_ =? _)%Z = false |- _ => apply Z.eqb_neq in H
  | H : (_ <? _)%Z = true |- _ => apply Z.ltb_lt in H
  | H : (_ <? _)%Z = false |- _ => apply Z.ltb_ge in H
  | H : (_ <=? _)%Z = true |- _ => apply Z.leb_le in H
  | H : (_ <=? _)%Z = false |- _ => apply Z.leb_gt in H
  | H : (_ =? _) = true |- _ => apply Nat.eqb_eq in H
  | H : (_ =? _) = false |- _ => apply Nat.eqb_neq in H
  | H : (_ <? _) = true |- _ => apply Nat.ltb_lt in H
  | H : (_ <? _) = false |- _ => apply Nat.ltb_ge in H
  | H : (_ <=? _) = true |- _ => apply Nat.leb_le in H
  | H : (_ <=? _) = false |- _ => apply Nat.leb_gt in H
  end.

Ltac len := autorewrite with walg_len in *; simpl in *; try lia.
