(* ===== verification/GoIO.v ===== *)
(** * Readers

    The part of Go's [io] and [encoding/binary] the parsers use: the
    [io.Reader] interface as a class, its in-memory implementation
    ([bytes.Reader]), [io.ReadFull], [ioutil.ReadAll], and the field parser
    of [src/internal/walparser/parsingutil], with the error values of the
    parsing code. *)

From S2P Require Import Prelude.

(** ** Errors of [src/internal/walparser] and of the increments of page files *)

(** [WithStack] and [Wrapf] are the wrappers of [github.com/pkg/errors]: a
    type assertion on a wrapped error fails, [Cause] looks through them.
    [ForeignError] is an error of a reader that is not of this package. *)
Inductive error :=
| EOF
| ErrUnexpectedEOF
| ErrNoProgress
| WithStack (e : error)
| Wrapf (msg : string) (e : error)
| NotEnoughDataToShrinkError (dataRemained toShrink : nat)
| InconsistentXLogRecordTotalLengthError (totalRecordLength : Z)
| InvalidXLogRecordResourceManagerIDError (resourceManagerID : Z)
| ZeroRecordHeaderError
| InvalidRecordBlockIDError (blockID : Z)
| OutOfOrderBlockIDError (actualBlockID expectedBlockID : Z)
| InconsistentBlockDataStateError (hasData : bool) (dataLength : Z)
| NoPrevRelFileNodeError
| ContinuationNotFoundError
| InconsistentBlockImageHoleStateError (holeOffset holeLength imageLength : Z) (hasHole : bool)
| InconsistentBlockImageLengthError (hasHole isCompressed : bool) (length : Z)
| ZeroPageHeaderError
| InvalidPageHeaderError
| ZeroPageError
| CantSavePartialParserError
| RuntimePanic
| ForeignError
| PartialPageError
| InvalidBlockError (blockNo : Z)
| InvalidIncrementFileHeaderError
| UnknownIncrementFileHeaderError
| UnexpectedTarDataError.

#[export] Instance error_eq_dec : EqDecision error.
Proof. solve_decision. Defined.

(** [errors.Cause] *)
Fixpoint Cause (e : error) : error :=
  match e with
  | WithStack e | Wrapf _ e => Cause e
  | e => e
  end.

(** ** The reader interface *)

(** [Read s n] is [Read(p)] with [len(p) = n]: the bytes stored at the front
    of [p], the error, and the reader afterwards. *)
Class Reader (S : Type) := Read : S -> nat -> list byte * option error * S.

(** What every reader of this code promises: it holds the bytes [avail s],
    a read hands out a prefix of them and moves past it, and only an
    exhausted reader reports an error, [EOF]. *)
Class LawfulReader (S : Type) `{Reader S} := {
  avail : S -> list byte;
  adv : S -> nat -> S;
  read_some s n : avail s <> [] -> 0 < n ->
    Read s n = (take n (avail s), None, adv s (Nat.min n (length (avail s))));
  read_eof s n : avail s = [] -> 0 < n -> Read s n = ([], Some EOF, s);
  avail_adv s k : avail (adv s k) = drop k (avail s);
  adv_adv s j k : adv (adv s j) k = adv s (j + k);
  adv_0 s : adv s 0 = s
}.

#[export] Hint Rewrite @avail_adv @adv_adv @adv_0 : walg_adv.

(** *** [bytes.Reader] *)

(** The unread suffix of the slice. *)
Definition bytesReader := list byte.

#[export] Instance bytesReader_Reader : Reader bytesReader :=
  fun s n => match s with
             | [] => ([], Some EOF, s)
             | _ => (take n s, None, drop n s)
             end.

#[export] Program Instance bytesReader_Lawful : LawfulReader bytesReader :=
  { avail s := s; adv s k := drop k s }.
Next Obligation.
  intros [|b s] n Hs Hn; [done|]. unfold Read, bytesReader_Reader. f_equal.
  destruct (decide (n <= length (b :: s))) as [Hle|Hgt].
  - by rewrite Nat.min_l.
  - rewrite Nat.min_r by lia. by rewrite !drop_ge by lia.
Qed.
Next Obligation. by intros s n -> Hn. Qed.
Next Obligation. done. Qed.
Next Obligation. intros. simpl. apply drop_drop. Qed.
Next Obligation. done. Qed.

(** ** [io.ReadFull] *)

Section ReadFull.
Context {S : Type} `{Reader S}.

(** The loop of [io.ReadAtLeast]: [need] bytes are missing, [acc] are read.
    A reader that returns no byte and no error forever exhausts [fuel]. *)
Fixpoint readAtLeast (fuel : nat) (s : S) (need : nat) (acc : list byte)
  : list byte * option error * S :=
  match need, fuel with
  | 0, _ => (acc, None, s)
  | _, 0 => (acc, Some ErrNoProgress, s)
  | _, Datatypes.S fuel =>
      let '(bs, e, s') := Read s need in
      let acc' := acc ++ bs in
      match e with
      | None => readAtLeast fuel s' (need - length bs) acc'
      | Some e =>
          if length bs =? need then (acc', None, s')
          else if (0 <? length acc') && bool_decide (e = EOF)
               then (acc', Some ErrUnexpectedEOF, s')
               else (acc', Some e, s')
      end
  end.

Definition ReadFull (s : S) (n : nat) : list byte * option error * S :=
  readAtLeast n s n [].

(** [ioutil.ReadAll], reading 512 bytes at a time. *)
Fixpoint ReadAll (fuel : nat) (s : S) : list byte * option error * S :=
  match fuel with
  | 0 => ([], Some ErrNoProgress, s)
  | Datatypes.S fuel =>
      let '(bs, e, s') := Read s 512 in
      match e with
      | None => let '(rest, e', s'') := ReadAll fuel s' in (bs ++ rest, e', s'')
      | Some EOF => (bs, None, s')
      | Some e => (bs, Some e, s')
      end
  end.
End ReadFull.

Section ReadFull_lemmas.
Context {S : Type} `{LawfulReader S}.
Implicit Types s : S.

Lemma ReadFull_ok s n :
  n <= length (avail s) -> ReadFull s n = (take n (avail s), None, adv s n).
Proof.
  intros Hn. unfold ReadFull. destruct n as [|n]; [by rewrite adv_0|]. cbn [readAtLeast].
  rewrite read_some by (try (intros E; rewrite E in Hn; simpl in Hn); lia).
  rewrite Nat.min_l, length_take_le by lia. rewrite Nat.sub_diag. by destruct n.
Qed.

Lemma ReadFull_eof s n :
  0 < n -> avail s = [] -> ReadFull s n = ([], Some EOF, s).
Proof.
  intros Hn Hs. unfold ReadFull. destruct n as [|n]; [lia|]. cbn [readAtLeast].
  by rewrite read_eof by (done || lia).
Qed.

Lemma ReadFull_short s n :
  avail s <> [] -> length (avail s) < n ->
  ReadFull s n = (avail s, Some ErrUnexpectedEOF, adv s (length (avail s))).
Proof.
  intros Hne Hn. unfold ReadFull. destruct n as [|n]; [lia|]. cbn [readAtLeast].
  rewrite read_some by (done || lia). rewrite take_ge, Nat.min_r by lia.
  destruct (_ - _) as [|m] eqn:Hm; [lia|].
  assert (0 < length (avail s)) by (destruct (avail s); [done|simpl; lia]).
  destruct n as [|n]; [lia|]. cbn [readAtLeast].
  rewrite read_eof by (lia || by rewrite avail_adv, drop_all).
  rewrite !app_nil_l, app_nil_r. cbn [length Nat.eqb].
  by rewrite bool_decide_eq_true_2, (proj2 (Nat.ltb_lt _ _)).
Qed.

Lemma ReadAll_ok fuel s :
  length (avail s) < fuel ->
  exists s', ReadAll fuel s = (avail s, None, s') /\ avail s' = [].
Proof.
  revert s. induction fuel as [|fuel IH]; intros s Hf; [lia|].
  cbn [ReadAll]. destruct (decide (avail s = [])) as [E|E].
  - rewrite read_eof by (done || lia). rewrite E. eauto.
  - rewrite read_some by (done || lia).
    assert (0 < length (avail s)) by (destruct (avail s); [done|simpl; lia]).
    destruct (IH (adv s (Nat.min 512 (length (avail s))))) as (s' & -> & Hs').
    { rewrite avail_adv, length_drop. lia. }
    eexists. split; [|exact Hs']. rewrite avail_adv. f_equal. f_equal.
    destruct (decide (512 <= length (avail s))).
    + by rewrite Nat.min_l, take_drop.
    + rewrite Nat.min_r, take_ge, drop_all, app_nil_r by lia. done.
Qed.
End ReadFull_lemmas.

(** ** The parsing monad *)

(** A parser threads the reader and may fail. *)
Definition RM (S A : Type) : Type := S -> res error A * S.

Definition rret {S A} (a : A) : RM S A := fun s => (Ok a, s).
Definition rfail {S A} (e : error) : RM S A := fun s => (Err e, s).
Definition rbind {S A B} (m : RM S A) (f : A -> RM S B) : RM S B :=
  fun s => match m s with
           | (Ok a, s') => f a s'
           | (Err e, s') => (Err e, s')
           end.
(** [if err := c(); err != nil { return err }] *)
Definition rcheck {S} (c : option error) : RM S unit :=
  fun s => match c with Some e => (Err e, s) | None => (Ok tt, s) end.

Declare Scope go_scope.
Delimit Scope go_scope with go.
Notation "x <-- m ;; k" := (rbind m (fun x => k))
  (at level 100, m at next level, right associativity) : go_scope.
Notation "m ;;; k" := (rbind m (fun _ => k))
  (at level 100, right associativity) : go_scope.
Open Scope go_scope.

(** ** [src/internal/walparser/parsingutil/field_to_parse.go] *)

Section FieldToParse.
Context {S : Type} `{Reader S}.

(** [NewFieldToParse(&x, name).ParseFrom(reader)] for an unsigned [x] of
    [w] bytes: [binary.Read] in little-endian order. *)
Definition ParseFrom (name : string) (w : nat) : RM S Z := fun s =>
  let '(bs, e, s') := ReadFull s w in
  match e with
  | None => (Ok (le_dec bs), s')
  | Some e => (Err (Wrapf name e), s')
  end.

(** [ParseMultipleFieldsFromReader]: the fields' values in order, up to the
    first error. *)
Fixpoint ParseMultipleFieldsFromReader (fields : list (string * nat)) : RM S (list Z) :=
  match fields with
  | [] => rret []
  | (name, w) :: fields =>
      x <-- ParseFrom name w ;;
      xs <-- ParseMultipleFieldsFromReader fields ;;
      rret (x :: xs)
  end.

(** [io.ReadFull(reader, make([]byte, n))] with the error wrapped. *)
Definition ReadFullM (n : nat) : RM S (list byte) := fun s =>
  let '(bs, e, s') := ReadFull s n in
  match e with
  | None => (Ok bs, s')
  | Some e => (Err (WithStack e), s')
  end.
End FieldToParse.

Section FieldToParse_lemmas.
Context {S : Type} `{LawfulReader S}.
Implicit Types s : S.

Lemma ParseFrom_ok name w s :
  w <= length (avail s) ->
  ParseFrom name w s = (Ok (le_dec (take w (avail s))), adv s w).
Proof. intros Hw. unfold ParseFrom. by rewrite ReadFull_ok. Qed.

Lemma ParseFrom_enc name w x rest s :
  avail s = le_enc w x ++ rest -> fits w x = true ->
  ParseFrom name w s = (Ok x, adv s w).
Proof.
  intros Hs Hx. rewrite ParseFrom_ok by (rewrite Hs; len).
  rewrite Hs, take_app_length' by len. by rewrite le_dec_enc.
Qed.

Lemma avail_adv_app s w bs rest :
  avail s = bs ++ rest -> length bs = w -> avail (adv s w) = rest.
Proof. intros Hs <-. rewrite avail_adv, Hs. apply drop_app_length. Qed.

Lemma ParseFrom_eof name w s :
  0 < w -> avail s = [] -> ParseFrom name w s = (Err (Wrapf name EOF), s).
Proof. intros. unfold ParseFrom. by rewrite ReadFull_eof. Qed.

Lemma ParseFrom_short name w s :
  avail s <> [] -> length (avail s) < w ->
  ParseFrom name w s =
    (Err (Wrapf name ErrUnexpectedEOF), adv s (length (avail s))).
Proof. intros. unfold ParseFrom. by rewrite ReadFull_short. Qed.

Lemma ReadFullM_app n bs rest s :
  avail s = bs ++ rest -> length bs = n ->
  ReadFullM n s = (Ok bs, adv s n).
Proof.
  intros Hs Hn. unfold ReadFullM. rewrite ReadFull_ok by (rewrite Hs; len).
  by rewrite Hs, take_app_length' by done.
Qed.
End FieldToParse_lemmas.

(** The bytes of a list of fields. *)
Definition enc_fields (fs : list (nat * Z)) : list byte :=
  fs ≫= (fun '(w, x) => le_enc w x).

Lemma ParseMultipleFields_enc {S} `{LawfulReader S} (names : list string) fs rest (s : S) :
  avail s = enc_fields fs ++ rest ->
  length names = length fs ->
  Forall (fun '(w, x) => fits w x = true) fs ->
  ParseMultipleFieldsFromReader (zip names (fs.*1)) s =
    (Ok (fs.*2), adv s (length (enc_fields fs))).
Proof.
  revert names s. induction fs as [|[w x] fs IH]; intros [|n names] s Hs Hl Hf; try done.
  - simpl. by rewrite adv_0.
  - inversion Hf; subst. simpl in *. unfold enc_fields in *. simpl in *.
    rewrite <- app_assoc in Hs. unfold rbind.
    rewrite (ParseFrom_enc _ _ x _ _ Hs) by done.
    rewrite (IH names); [|by eapply avail_adv_app; [exact Hs|len]|lia|done].
    unfold rret. rewrite adv_adv. do 2 f_equal. len.
Qed.
