(* ===== verification/WalRecord.v ===== *)
(** * XLog records

    [src/internal/walparser]: the record, block and image headers with their
    consistency checks, the shrinkable reader, and the record parser of
    [read_xlog_record.go]; then the record encoder the parser inverts. *)

From S2P Require Import Prelude GoIO.
Open Scope Z_scope.

(** ** Data *)

Record RelFileNode := mkRelFileNode { SpcNode : Z; DBNode : Z; RelNode : Z }.

Record BlockLocation := mkBlockLocation { RelationFileNode : RelFileNode; BlockNo : Z }.

Definition NewBlockLocation (spcNode dbNode relNode blockNo : Z) : BlockLocation :=
  mkBlockLocation (mkRelFileNode spcNode dbNode relNode) blockNo.

Definition TerminalLocation : BlockLocation := NewBlockLocation 0 0 0 0.

#[export] Instance RelFileNode_eq_dec : EqDecision RelFileNode.
Proof. solve_decision. Defined.
#[export] Instance BlockLocation_eq_dec : EqDecision BlockLocation.
Proof. solve_decision. Defined.
#[export] Program Instance RelFileNode_countable : Countable RelFileNode :=
  inj_countable' (fun n => (SpcNode n, DBNode n, RelNode n))
                 (fun '(a, b, c) => mkRelFileNode a b c) _.
Next Obligation. by intros []. Qed.

(** [resource_manager_list.go] *)
Definition RmXlogID : Z := 0.
Definition RmNextFreeID : Z := 22.

(** [wal_parser.go], constants *)
Definition WalPageSize : Z := 8192.
Definition BlockSize : Z := 8192.
Definition XLogRecordAlignment : nat := 8.

(** [xlog_record_header.go] *)
Definition XlrInfoMask : Z := 0x0F.
Definition XLogRecordHeaderSize : Z := 24.

Record XLogRecordHeader := mkXLogRecordHeader {
  TotalRecordLength : Z;
  XactID : Z;
  PrevRecordPtr : Z;
  Info : Z;
  ResourceManagerID : Z;
  Crc32Hash : Z
}.

(** [xlog_record_block_image_header.go] *)
Record XLogRecordBlockImageHeader := mkImageHeader {
  ImageLength : Z;
  HoleOffset : Z;
  HoleLength : Z;
  ImageInfo : Z
}.

Definition BkpImageHasHole : Z := 0x01.
Definition BkpImageIsCompressed : Z := 0x02.
Definition BkpImageApply : Z := 0x04.

(** [xlog_record_block_header.go] *)
Record XLogRecordBlockHeader := mkBlockHeader {
  BlockID : Z;
  ForkFlags : Z;
  DataLength : Z;
  ImageHeader : XLogRecordBlockImageHeader;
  Location : BlockLocation
}.

Definition XlrMaxBlockID : Z := 32.
Definition XlrBlockIDDataShort : Z := 255.
Definition XlrBlockIDDataLong : Z := 254.
Definition XlrBlockIDOrigin : Z := 253.
Definition BkpBlockForkMask : Z := 0x0F.
Definition BkpBlockHasImage : Z := 0x10.
Definition BkpBlockHasData : Z := 0x20.
Definition BkpBlockWillInit : Z := 0x40.
Definition BkpBlockSameRel : Z := 0x80.

Record XLogRecordBlock := mkBlock {
  BlockHeader : XLogRecordBlockHeader;
  Image : list byte;
  Data : list byte
}.

Definition XLogSwitch : Z := 0x40.

Record XLogRecord := mkXLogRecord {
  Header : XLogRecordHeader;
  MainDataLen : Z;
  Origin : Z;
  Blocks : list XLogRecordBlock;
  MainData : list byte
}.

#[export] Instance XLogRecordHeader_eq_dec : EqDecision XLogRecordHeader.
Proof. solve_decision. Defined.
#[export] Instance ImageHeader_eq_dec : EqDecision XLogRecordBlockImageHeader.
Proof. solve_decision. Defined.
#[export] Instance BlockHeader_eq_dec : EqDecision XLogRecordBlockHeader.
Proof. solve_decision. Defined.
#[export] Instance XLogRecordBlock_eq_dec : EqDecision XLogRecordBlock.
Proof. solve_decision. Defined.
#[export] Instance XLogRecord_eq_dec : EqDecision XLogRecord.
Proof. solve_decision. Defined.

Definition NewXLogRecord (header : XLogRecordHeader) : XLogRecord :=
  mkXLogRecord header 0 0 [] [].

(** ** Headers and their checks *)

Module XLogRecordHeaderOps.
Definition isZero (h : XLogRecordHeader) : bool :=
  (TotalRecordLength h =? 0) && (XactID h =? 0) && (PrevRecordPtr h =? 0) &&
  (Info h =? 0) && (ResourceManagerID h =? 0) && (Crc32Hash h =? 0).

Definition checkTotalRecordLengthConsistency (h : XLogRecordHeader) : option error :=
  if TotalRecordLength h <? XLogRecordHeaderSize
  then Some (InconsistentXLogRecordTotalLengthError (TotalRecordLength h)) else None.

Definition checkResourceManagerIDValidity (h : XLogRecordHeader) : option error :=
  if RmNextFreeID <=? ResourceManagerID h
  then Some (InvalidXLogRecordResourceManagerIDError (ResourceManagerID h)) else None.

Definition checkConsistency (h : XLogRecordHeader) : option error :=
  match checkTotalRecordLengthConsistency h with
  | Some err => if isZero h then Some ZeroRecordHeaderError else Some err
  | None => checkResourceManagerIDValidity h
  end.
End XLogRecordHeaderOps.

Module ImageHeaderOps.
Definition HasHole (h : XLogRecordBlockImageHeader) : bool :=
  negb (Z.land (ImageInfo h) BkpImageHasHole =? 0).
Definition IsCompressed (h : XLogRecordBlockImageHeader) : bool :=
  negb (Z.land (ImageInfo h) BkpImageIsCompressed =? 0).
Definition ApplyImage (h : XLogRecordBlockImageHeader) : bool :=
  negb (Z.land (ImageInfo h) BkpImageApply =? 0).

Definition checkHoleStateConsistency (h : XLogRecordBlockImageHeader) : option error :=
  if (HasHole h && ((HoleOffset h =? 0) || (HoleLength h =? 0) || (ImageLength h =? BlockSize)))
     || (negb (HasHole h) && (negb (HoleOffset h =? 0) || negb (HoleLength h =? 0)))
  then Some (InconsistentBlockImageHoleStateError (HoleOffset h) (HoleLength h)
               (ImageLength h) (HasHole h))
  else None.

Definition checkLengthConsistency (h : XLogRecordBlockImageHeader) : option error :=
  if (IsCompressed h && (ImageLength h =? BlockSize))
     || (negb (HasHole h) && negb (IsCompressed h) && negb (ImageLength h =? BlockSize))
  then Some (InconsistentBlockImageLengthError (HasHole h) (IsCompressed h) (ImageLength h))
  else None.

Definition checkConsistency (h : XLogRecordBlockImageHeader) : option error :=
  match checkHoleStateConsistency h with
  | Some err => Some err
  | None => checkLengthConsistency h
  end.
End ImageHeaderOps.

Module BlockHeaderOps.
Definition ForkNum (h : XLogRecordBlockHeader) : Z := Z.land (ForkFlags h) BkpBlockForkMask.
Definition HasImage (h : XLogRecordBlockHeader) : bool :=
  negb (Z.land (ForkFlags h) BkpBlockHasImage =? 0).
Definition HasData (h : XLogRecordBlockHeader) : bool :=
  negb (Z.land (ForkFlags h) BkpBlockHasData =? 0).
Definition WillInit (h : XLogRecordBlockHeader) : bool :=
  negb (Z.land (ForkFlags h) BkpBlockWillInit =? 0).
Definition HasSameRel (h : XLogRecordBlockHeader) : bool :=
  negb (Z.land (ForkFlags h) BkpBlockSameRel =? 0).

Definition checkDataStateConsistency (h : XLogRecordBlockHeader) : option error :=
  if (HasData h && (DataLength h =? 0)) || (negb (HasData h) && negb (DataLength h =? 0))
  then Some (InconsistentBlockDataStateError (HasData h) (DataLength h)) else None.
End BlockHeaderOps.
Import BlockHeaderOps.

(** [XLogRecord.IsZero]; a nil slice is the empty list here. *)
Definition IsZero (r : XLogRecord) : bool :=
  XLogRecordHeaderOps.isZero (Header r) && (MainDataLen r =? 0) && (Origin r =? 0) &&
  bool_decide (Blocks r = []) && bool_decide (MainData r = []).

Definition isWALSwitch (r : XLogRecord) : bool :=
  (ResourceManagerID (Header r) =? RmXlogID) &&
  (Z.ldiff (Info (Header r)) XlrInfoMask =? XLogSwitch).

(** ** [ShrinkableReader] *)

(** At most [dataRemained] more bytes may be read from [innerReader]; a
    [Shrink] reserves bytes at the end of them. *)
Record ShrinkableReader (S : Type) := mkShrinkable { innerReader : S; dataRemained : nat }.
Arguments mkShrinkable {S} _ _.
Arguments innerReader {S} _.
Arguments dataRemained {S} _.

#[export] Instance ShrinkableReader_Reader {S} `{Reader S} : Reader (ShrinkableReader S) :=
  fun r n =>
    if (dataRemained r =? 0)%nat then ([], Some EOF, r)
    else
      let '(bs, e, i') := Read (innerReader r) (if (n <=? dataRemained r)%nat then n
                                                else dataRemained r) in
      (bs, e, mkShrinkable i' (dataRemained r - length bs)).

Definition Shrink {S} (n : nat) : RM (ShrinkableReader S) unit := fun r =>
  if (dataRemained r <? n)%nat
  then (Err (NotEnoughDataToShrinkError (dataRemained r) n), r)
  else (Ok tt, mkShrinkable (innerReader r) (dataRemained r - n)).

#[export] Program Instance ShrinkableReader_Lawful {S} `{LawfulReader S} :
    LawfulReader (ShrinkableReader S) :=
  { avail r := take (dataRemained r) (avail (innerReader r));
    adv r k := mkShrinkable (adv (innerReader r) (Nat.min k (dataRemained r)))
                            (dataRemained r - k) }.
Next Obligation.
  intros S ? ? [i d] n; simpl; intros Hne Hn. unfold Read, ShrinkableReader_Reader. simpl.
  destruct d as [|d]; [done|]. cbn [Nat.eqb].
  assert (avail i <> []) as Hi by (intros E; by rewrite E, take_nil in Hne).
  destruct (Nat.leb_spec n (Datatypes.S d)).
  - rewrite read_some, !length_take, take_take, (Nat.min_l n (Datatypes.S d)) by done.
    f_equal. f_equal; [f_equal|]; lia.
  - rewrite read_some, !length_take, take_take, (Nat.min_r n (Datatypes.S d)) by (done || lia).
    f_equal. f_equal; [f_equal|]; lia.
Qed.
Next Obligation.
  intros S ? ? [i d] n; simpl; intros He Hn. unfold Read, ShrinkableReader_Reader. simpl.
  destruct d as [|d]; [done|]. cbn [Nat.eqb].
  assert (avail i = []) as Hi by (destruct (avail i); done).
  rewrite read_eof by (done || case_match; lia). by rewrite Nat.sub_0_r.
Qed.
Next Obligation.
  intros S ? ? [i d] k; simpl. rewrite avail_adv, skipn_firstn_comm.
  destruct (Nat.le_gt_cases k d).
  - by rewrite Nat.min_l.
  - by replace (d - k)%nat with 0%nat by lia.
Qed.
Next Obligation.
  intros S ? ? [i d] j k; simpl. rewrite adv_adv. f_equal; [f_equal; lia|lia].
Qed.
Next Obligation.
  intros S ? ? [i d]; simpl. by rewrite adv_0, Nat.sub_0_r.
Qed.

(** ** Parsing: [read_xlog_record.go] *)

Section Parsing.
Context {S : Type} `{Reader S}.

Definition readXLogRecordHeader : RM S XLogRecordHeader :=
  totalRecordLength <-- ParseFrom "totalRecordLength" 4 ;;
  xactID <-- ParseFrom "xactID" 4 ;;
  prevRecordPtr <-- ParseFrom "prevRecordPtr" 8 ;;
  info <-- ParseFrom "info" 1 ;;
  resourceManagerID <-- ParseFrom "resourceManagerID" 1 ;;
  ParseFrom "padding byte" 1 ;;;
  ParseFrom "padding byte" 1 ;;;
  crc32Hash <-- ParseFrom "crc32Hash" 4 ;;
  let h := mkXLogRecordHeader totalRecordLength xactID prevRecordPtr info
             resourceManagerID crc32Hash in
  rcheck (XLogRecordHeaderOps.checkConsistency h) ;;;
  rret h.

Definition readRelFileNode : RM S RelFileNode :=
  spcNode <-- ParseFrom "spcNode" 4 ;;
  dbNode <-- ParseFrom "dbNode" 4 ;;
  relNode <-- ParseFrom "relNode" 4 ;;
  rret (mkRelFileNode spcNode dbNode relNode).

Definition readXLogRecordBlockImageHeader : RM S XLogRecordBlockImageHeader :=
  imageLength <-- ParseFrom "imageLength" 2 ;;
  holeOffset <-- ParseFrom "imageHoleOffset" 2 ;;
  info <-- ParseFrom "imageInfo" 1 ;;
  let h := mkImageHeader imageLength holeOffset 0 info in
  holeLength <--
    (if ImageHeaderOps.IsCompressed h
     then if ImageHeaderOps.HasHole h then ParseFrom "imageHoleLength" 2 else rret 0
     else rret (u16 (BlockSize - imageLength))) ;;
  let h := mkImageHeader imageLength holeOffset holeLength info in
  rcheck (ImageHeaderOps.checkConsistency h) ;;;
  rret h.

Definition readBlockLocation (blockHasSameRel : bool) (lastRelFileNode : option RelFileNode)
  : RM S BlockLocation :=
  relFileNode <--
    (if blockHasSameRel
     then match lastRelFileNode with
          | None => rfail NoPrevRelFileNodeError
          | Some n => rret n
          end
     else readRelFileNode) ;;
  blockNo <-- ParseFrom "blockNo" 4 ;;
  rret (mkBlockLocation relFileNode blockNo).

(** [readXLogRecordBlockDataAndImages] fills the blocks in order. *)
Fixpoint readXLogRecordBlockDataAndImages (blocks : list XLogRecordBlock)
  : RM S (list XLogRecordBlock) :=
  match blocks with
  | [] => rret []
  | b :: blocks =>
      let h := BlockHeader b in
      image <-- (if HasImage h then ReadFullM (Z.to_nat (ImageLength (ImageHeader h)))
                 else rret (Image b)) ;;
      data <-- (if HasData h then ReadFullM (Z.to_nat (DataLength h))
                else rret (Data b)) ;;
      rest <-- readXLogRecordBlockDataAndImages blocks ;;
      rret (mkBlock h image data :: rest)
  end.

Definition readXLogRecordMainData (mainDataLen : Z) : RM S (list byte) :=
  ReadFullM (Z.to_nat mainDataLen).
End Parsing.

Section BlockHeaderPart.
Context {S : Type} `{Reader S}.

Definition NoImageHeader : XLogRecordBlockImageHeader := mkImageHeader 0 0 0 0.

(** The block header, the new [maxReadBlockID] and the new
    [lastRelFileNode]. *)
Definition readXLogRecordBlockHeader (lastRelFileNode : option RelFileNode)
    (blockID maxReadBlockID : Z)
  : RM (ShrinkableReader S) (XLogRecordBlockHeader * Z * option RelFileNode) :=
  if XlrMaxBlockID <? blockID then rfail (InvalidRecordBlockIDError blockID)
  else if blockID <=? maxReadBlockID
       then rfail (OutOfOrderBlockIDError blockID maxReadBlockID)
  else
    let maxReadBlockID := blockID in
    forkFlags <-- ParseFrom "forkFlags" 1 ;;
    dataLength <-- ParseFrom "dataLength" 2 ;;
    let h := mkBlockHeader blockID forkFlags dataLength NoImageHeader TerminalLocation in
    rcheck (checkDataStateConsistency h) ;;;
    Shrink (Z.to_nat dataLength) ;;;
    imageHeader <--
      (if HasImage h
       then ih <-- readXLogRecordBlockImageHeader ;;
            Shrink (Z.to_nat (ImageLength ih)) ;;;
            rret ih
       else rret NoImageHeader) ;;
    location <-- readBlockLocation (HasSameRel h) lastRelFileNode ;;
    rret (mkBlockHeader blockID forkFlags dataLength imageHeader location,
          maxReadBlockID, Some (RelationFileNode location)).

Definition set_MainDataLen (r : XLogRecord) (n : Z) : XLogRecord :=
  mkXLogRecord (Header r) n (Origin r) (Blocks r) (MainData r).
Definition set_Origin (r : XLogRecord) (o : Z) : XLogRecord :=
  mkXLogRecord (Header r) (MainDataLen r) o (Blocks r) (MainData r).
Definition set_Blocks (r : XLogRecord) (bs : list XLogRecordBlock) : XLogRecord :=
  mkXLogRecord (Header r) (MainDataLen r) (Origin r) bs (MainData r).
Definition set_MainData (r : XLogRecord) (d : list byte) : XLogRecord :=
  mkXLogRecord (Header r) (MainDataLen r) (Origin r) (Blocks r) d.

(** The loop of [readXLogRecordBlockHeaderPart]; one iteration reads at
    least one byte of [dataRemained]. *)
Fixpoint blockHeaderLoop (fuel : nat) (record : XLogRecord)
    (lastRelFileNode : option RelFileNode) (maxReadBlockID : Z)
  : RM (ShrinkableReader S) XLogRecord := fun r =>
  if (dataRemained r =? 0)%nat then (Ok record, r)
  else match fuel with
  | 0%nat => (Err ErrNoProgress, r)
  | Datatypes.S fuel =>
    (blockID <-- ParseFrom "blockId" 1 ;;
     if blockID =? XlrBlockIDDataShort then
       mainDataLen <-- ParseFrom "mainDataLen8" 1 ;;
       Shrink (Z.to_nat mainDataLen) ;;;
       blockHeaderLoop fuel (set_MainDataLen record mainDataLen)
         lastRelFileNode maxReadBlockID
     else if blockID =? XlrBlockIDDataLong then
       mainDataLen <-- ParseFrom "mainDataLen32" 4 ;;
       Shrink (Z.to_nat mainDataLen) ;;;
       blockHeaderLoop fuel (set_MainDataLen record mainDataLen)
         lastRelFileNode maxReadBlockID
     else if blockID =? XlrBlockIDOrigin then
       origin <-- ParseFrom "origin" 2 ;;
       blockHeaderLoop fuel (set_Origin record origin) lastRelFileNode maxReadBlockID
     else
       x <-- readXLogRecordBlockHeader lastRelFileNode blockID maxReadBlockID ;;
       let '(blockHeader, maxReadBlockID, lastRelFileNode) := x in
       blockHeaderLoop fuel
         (set_Blocks record (Blocks record ++ [mkBlock blockHeader [] []]))
         lastRelFileNode maxReadBlockID) r
  end.

Definition readXLogRecordBlockHeaderPart (record : XLogRecord) : RM S XLogRecord := fun s =>
  let n := Z.to_nat (u32 (TotalRecordLength (Header record) - XLogRecordHeaderSize)) in
  let '(x, r) := blockHeaderLoop n record None (-1) (mkShrinkable s n) in
  (x, innerReader r).

Definition readXLogRecordBody (header : XLogRecordHeader) : RM S XLogRecord :=
  record <-- readXLogRecordBlockHeaderPart (NewXLogRecord header) ;;
  blocks <-- readXLogRecordBlockDataAndImages (Blocks record) ;;
  mainData <-- readXLogRecordMainData (MainDataLen record) ;;
  rret (set_MainData (set_Blocks record blocks) mainData).
End BlockHeaderPart.

Definition ParseXLogRecordFromBytes (data : list byte) : res error XLogRecord :=
  fst ((header <-- readXLogRecordHeader ;; readXLogRecordBody header) (data : bytesReader)).
