(* ===== verification/WalRecordEnc.v ===== *)
(** * Encoding XLog records

    The record format as an encoder, and the theorems that relate the parser
    of [WalRecord] to it: parsing inverts encoding, reads nothing behind the
    record, and accepts only consistent records. *)

From S2P Require Import Prelude GoIO WalRecord.
Import BlockHeaderOps.
Open Scope Z_scope.

Definition enc_record_header (h : XLogRecordHeader) : list byte :=
  le_enc 4 (TotalRecordLength h) ++ le_enc 4 (XactID h) ++ le_enc 8 (PrevRecordPtr h) ++
  le_enc 1 (Info h) ++ le_enc 1 (ResourceManagerID h) ++ le_enc 1 0 ++ le_enc 1 0 ++
  le_enc 4 (Crc32Hash h).

Definition enc_image_header (h : XLogRecordBlockImageHeader) : list byte :=
  le_enc 2 (ImageLength h) ++ le_enc 2 (HoleOffset h) ++ le_enc 1 (ImageInfo h) ++
  (if ImageHeaderOps.IsCompressed h && ImageHeaderOps.HasHole h
   then le_enc 2 (HoleLength h) else []).

Definition enc_rel_file_node (n : RelFileNode) : list byte :=
  le_enc 4 (SpcNode n) ++ le_enc 4 (DBNode n) ++ le_enc 4 (RelNode n).

Definition enc_block_location (same : bool) (l : BlockLocation) : list byte :=
  (if same then [] else enc_rel_file_node (RelationFileNode l)) ++ le_enc 4 (BlockNo l).

Definition enc_block_fields (h : XLogRecordBlockHeader) : list byte :=
  le_enc 1 (ForkFlags h) ++ le_enc 2 (DataLength h) ++
  (if HasImage h then enc_image_header (ImageHeader h) else []) ++
  enc_block_location (HasSameRel h) (Location h).

Definition enc_block_header (h : XLogRecordBlockHeader) : list byte :=
  le_enc 1 (BlockID h) ++ enc_block_fields h.

Definition enc_origin (o : Z) : list byte :=
  if o =? 0 then [] else le_enc 1 XlrBlockIDOrigin ++ le_enc 2 o.

Definition enc_main_header (n : Z) : list byte :=
  if n =? 0 then []
  else if n <? 256 then le_enc 1 XlrBlockIDDataShort ++ le_enc 1 n
  else le_enc 1 XlrBlockIDDataLong ++ le_enc 4 n.

Definition enc_block_headers (bs : list XLogRecordBlock) : list byte :=
  bs ≫= fun b => enc_block_header (BlockHeader b).
Definition enc_blocks (bs : list XLogRecordBlock) : list byte :=
  bs ≫= fun b => Image b ++ Data b.

Definition enc_body (r : XLogRecord) : list byte :=
  enc_block_headers (Blocks r) ++ enc_origin (Origin r) ++ enc_main_header (MainDataLen r) ++
  enc_blocks (Blocks r) ++ MainData r.

Definition enc_record (r : XLogRecord) : list byte :=
  enc_record_header (Header r) ++ enc_body r.

(** ** Well-formed records *)

Definition none {A} (o : option A) : bool := match o with None => true | Some _ => false end.

Definition header_ok (h : XLogRecordHeader) : bool :=
  fits 4 (TotalRecordLength h) && fits 4 (XactID h) && fits 8 (PrevRecordPtr h) &&
  fits 1 (Info h) && fits 1 (ResourceManagerID h) && fits 4 (Crc32Hash h) &&
  none (XLogRecordHeaderOps.checkConsistency h).

Definition image_header_ok (h : XLogRecordBlockImageHeader) : bool :=
  fits 2 (ImageLength h) && fits 2 (HoleOffset h) && fits 2 (HoleLength h) &&
  fits 1 (ImageInfo h) && none (ImageHeaderOps.checkConsistency h) &&
  (if ImageHeaderOps.IsCompressed h
   then ImageHeaderOps.HasHole h || (HoleLength h =? 0)
   else HoleLength h =? u16 (BlockSize - ImageLength h)).

Definition node_ok (n : RelFileNode) : bool :=
  fits 4 (SpcNode n) && fits 4 (DBNode n) && fits 4 (RelNode n).
Definition location_ok (l : BlockLocation) : bool :=
  node_ok (RelationFileNode l) && fits 4 (BlockNo l).

Definition block_header_ok (last : option RelFileNode) (maxID : Z) (h : XLogRecordBlockHeader) : bool :=
  fits 1 (BlockID h) && (BlockID h <=? XlrMaxBlockID) && (maxID <? BlockID h) &&
  fits 1 (ForkFlags h) && fits 2 (DataLength h) && none (checkDataStateConsistency h) &&
  (if HasImage h then image_header_ok (ImageHeader h)
   else bool_decide (ImageHeader h = NoImageHeader)) &&
  (if HasSameRel h then bool_decide (last = Some (RelationFileNode (Location h))) else true) &&
  location_ok (Location h).

Definition block_data_ok (b : XLogRecordBlock) : bool :=
  (Z.of_nat (length (Image b)) =?
     if HasImage (BlockHeader b) then ImageLength (ImageHeader (BlockHeader b)) else 0) &&
  (Z.of_nat (length (Data b)) =? DataLength (BlockHeader b)).

Definition block_ok (last : option RelFileNode) (maxID : Z) (b : XLogRecordBlock) : bool :=
  block_header_ok last maxID (BlockHeader b) && block_data_ok b.

Fixpoint blocks_ok (last : option RelFileNode) (maxID : Z) (bs : list XLogRecordBlock) : bool :=
  match bs with
  | [] => true
  | b :: bs =>
      block_ok last maxID b &&
      blocks_ok (Some (RelationFileNode (Location (BlockHeader b)))) (BlockID (BlockHeader b)) bs
  end.

Definition record_ok (r : XLogRecord) : bool :=
  header_ok (Header r) && blocks_ok None (-1) (Blocks r) && fits 2 (Origin r) &&
  fits 4 (MainDataLen r) && (MainDataLen r =? Z.of_nat (length (MainData r))) &&
  (TotalRecordLength (Header r) =? Z.of_nat (length (enc_record r))).

(** ** Parsing steps *)

Section Steps.
Context {S : Type} `{LawfulReader S}.
Implicit Types s : S.

Lemma step_field {B} name w x rest s (f : Z -> RM S B) :
  avail s = le_enc w x ++ rest -> fits w x = true ->
  rbind (ParseFrom name w) f s = f x (adv s w).
Proof. intros Hs Hx. unfold rbind. by rewrite (ParseFrom_enc _ _ _ _ _ Hs Hx). Qed.

Lemma rbind_assoc {A B C} (m : RM S A) (f : A -> RM S B) (g : B -> RM S C) s :
  rbind (rbind m f) g s = rbind m (fun a => rbind (f a) g) s.
Proof. unfold rbind. by destruct (m s) as [[|] ?]. Qed.

Lemma step_check {B} (c : option error) s (f : unit -> RM S B) :
  none c = true -> rbind (rcheck c) f s = f tt s.
Proof. by destruct c. Qed.

Lemma step_readfull {B} n bs rest s (f : list byte -> RM S B) :
  avail s = bs ++ rest -> length bs = n ->
  rbind (ReadFullM n) f s = f bs (adv s (length bs)).
Proof. intros Hs Hn. unfold rbind. rewrite (ReadFullM_app _ _ _ _ Hs Hn). by subst. Qed.
End Steps.

Section ShrinkableSteps.
Context {S : Type} `{LawfulReader S}.
Implicit Types s : S.

Lemma shr_eq s a b d e :
  a = b -> d = e -> mkShrinkable (adv s a) d = mkShrinkable (adv s b) e.
Proof. by intros -> ->. Qed.

Lemma step_field_shr {B} name w x rest s d (f : Z -> RM (ShrinkableReader S) B) :
  avail s = le_enc w x ++ rest -> fits w x = true -> (w <= d)%nat ->
  rbind (ParseFrom name w) f (mkShrinkable s d) = f x (mkShrinkable (adv s w) (d - w)).
Proof.
  intros Hs Hx Hd.
  rewrite (step_field (S := ShrinkableReader S) name w x (take (d - w) rest)); [|simpl|done].
  - simpl. by rewrite Nat.min_l.
  - rewrite Hs, take_app, le_enc_length, take_ge by len. done.
Qed.

Lemma step_shrink {B} n s d (f : unit -> RM (ShrinkableReader S) B) :
  (n <= d)%nat ->
  rbind (Shrink n) f (mkShrinkable s d) = f tt (mkShrinkable s (d - n)).
Proof. intros. unfold rbind, Shrink. simpl. by rewrite (proj2 (Nat.ltb_ge _ _)). Qed.
End ShrinkableSteps.

(** Consume the field at the front of the available bytes. *)
Ltac consume H s w :=
  apply (fun H => avail_adv_app s w _ _ H (le_enc_length _ _)) in H.
Ltac parse_field :=
  match goal with
  | H : avail ?s = le_enc ?w ?x ++ _ |- rbind (ParseFrom _ ?w) _ ?s = _ =>
      erewrite (step_field _ w x _ s _ H) by done; consume H s w
  | H : avail ?s = le_enc ?w ?x ++ _ |- rbind (ParseFrom _ ?w) _ (mkShrinkable ?s _) = _ =>
      erewrite (step_field_shr _ w x _ s _ _ H) by (done || lia); consume H s w
  end.
Ltac norm_app H := rewrite <- ?app_assoc in H.

Section Roundtrip.
Context {S : Type} `{LawfulReader S}.
Implicit Types s : S.

Lemma enc_record_header_length h : length (enc_record_header h) = 24%nat.
Proof. reflexivity. Qed.

Lemma readXLogRecordHeader_enc h rest s :
  header_ok h = true -> avail s = enc_record_header h ++ rest ->
  readXLogRecordHeader s = (Ok h, adv s 24).
Proof.
  unfold header_ok. intros Hok Hs. bool_to_prop.
  unfold enc_record_header in Hs. norm_app Hs. unfold readXLogRecordHeader.
  do 8 parse_field. destruct h. rewrite step_check by done.
  unfold rret. by rewrite !adv_adv.
Qed.

Lemma step_image_header {B} h rest s d (f : _ -> RM (ShrinkableReader S) B) :
  image_header_ok h = true -> avail s = enc_image_header h ++ rest ->
  (length (enc_image_header h) <= d)%nat ->
  rbind readXLogRecordBlockImageHeader f (mkShrinkable s d) =
  f h (mkShrinkable (adv s (length (enc_image_header h))) (d - length (enc_image_header h))).
Proof.
  unfold image_header_ok, enc_image_header. intros Hok Hs Hd. bool_to_prop.
  norm_app Hs. unfold readXLogRecordBlockImageHeader. rewrite !length_app, !le_enc_length in *.
  rewrite !rbind_assoc. parse_field. rewrite rbind_assoc. parse_field.
  rewrite rbind_assoc. parse_field. rewrite rbind_assoc.
  destruct h as [il ho hl ii]; unfold ImageHeaderOps.IsCompressed, ImageHeaderOps.HasHole in *;
    cbn [ImageLength HoleOffset HoleLength ImageInfo] in *.
  destruct (negb (Z.land ii BkpImageIsCompressed =? 0)) eqn:Hc;
    [destruct (negb (Z.land ii BkpImageHasHole =? 0)) eqn:Hh|];
    cbn [andb orb] in *; rewrite ?app_nil_l in Hs; bool_to_prop; subst;
    rewrite ?le_enc_length in *; cbn [length] in *.
  - norm_app Hs. parse_field. rewrite rbind_assoc, step_check by done.
    unfold rbind, rret. rewrite !adv_adv. f_equal. apply shr_eq; lia.
  - unfold rbind at 1, rret at 1. rewrite rbind_assoc, step_check by done.
    unfold rbind, rret. rewrite !adv_adv. f_equal. apply shr_eq; lia.
  - unfold rbind at 1, rret at 1. rewrite rbind_assoc, step_check by done.
    unfold rbind, rret. rewrite !adv_adv. f_equal. apply shr_eq; lia.
Qed.

Lemma enc_rel_file_node_length n : length (enc_rel_file_node n) = 12%nat.
Proof. reflexivity. Qed.

Lemma same_rel_spec (same : bool) (last : option RelFileNode) n :
  (if same then bool_decide (last = Some n) else true) = true -> same = true -> last = Some n.
Proof. intros Hb ->. by case_bool_decide. Qed.

Lemma step_block_location {B} same last l rest s d (f : _ -> RM (ShrinkableReader S) B) :
  location_ok l = true -> (same = true -> last = Some (RelationFileNode l)) ->
  avail s = enc_block_location same l ++ rest ->
  (length (enc_block_location same l) <= d)%nat ->
  rbind (readBlockLocation same last) f (mkShrinkable s d) =
  f l (mkShrinkable (adv s (length (enc_block_location same l)))
                    (d - length (enc_block_location same l))).
Proof.
  unfold location_ok, node_ok, readBlockLocation, enc_block_location.
  intros Hok Hlast Hs Hd. bool_to_prop. norm_app Hs. rewrite rbind_assoc.
  rewrite length_app, le_enc_length in *.
  destruct l as [[sp db re] bno]; destruct same;
    cbn [RelationFileNode BlockNo SpcNode DBNode RelNode length] in *.
  - rewrite Hlast by done. unfold rbind at 1, rret at 1. rewrite rbind_assoc.
    rewrite app_nil_l in Hs. parse_field. done.
  - rewrite enc_rel_file_node_length in *.
    unfold readRelFileNode, enc_rel_file_node in *. norm_app Hs.
    cbn [RelationFileNode BlockNo SpcNode DBNode RelNode length] in *.
    rewrite !rbind_assoc. parse_field. rewrite rbind_assoc. parse_field.
    rewrite rbind_assoc. parse_field. unfold rbind at 1, rret at 1.
    rewrite rbind_assoc. parse_field. unfold rbind, rret. rewrite !adv_adv.
    f_equal. apply shr_eq; lia.
Qed.

Lemma step_block_header {B} last maxID b rest s d (f : _ -> RM (ShrinkableReader S) B) :
  let h := BlockHeader b in let n := length (enc_block_fields h) in
  block_ok last maxID b = true ->
  avail s = enc_block_fields h ++ rest ->
  (n + length (Image b ++ Data b) <= d)%nat ->
  rbind (readXLogRecordBlockHeader last (BlockID h) maxID) f (mkShrinkable s d) =
  f (h, BlockID h, Some (RelationFileNode (Location h)))
    (mkShrinkable (adv s n) (d - n - length (Image b ++ Data b))).
Proof.
  destruct b as [[id ff dl ih loc] img dat]. cbn [BlockHeader Image Data BlockID]. cbv zeta.
  unfold block_ok, block_header_ok, block_data_ok, enc_block_fields, HasImage, HasSameRel, readXLogRecordBlockHeader.
  cbn [BlockHeader Image Data BlockID ForkFlags DataLength ImageHeader Location].
  intros Hok Hs Hd. bool_to_prop. norm_app Hs.
  rewrite (proj2 (Z.ltb_ge _ _)), (proj2 (Z.leb_gt _ _)) by lia. cbv zeta.
  rewrite !length_app, !le_enc_length in *.
  rewrite rbind_assoc. parse_field. rewrite rbind_assoc. parse_field.
  rewrite rbind_assoc, step_check by done.
  rewrite rbind_assoc, step_shrink by lia. rewrite rbind_assoc.
  unfold HasImage, HasSameRel. cbn [ForkFlags].
  destruct (negb (Z.land ff BkpBlockHasImage =? 0)) eqn:Hi; cbv iota in *; bool_to_prop.
  - rewrite rbind_assoc. norm_app Hs.
    rewrite (step_image_header _ _ _ _ _ ltac:(eassumption) Hs) by lia.
    rewrite rbind_assoc, step_shrink by lia. unfold rbind at 1, rret at 1.
    apply (fun H => avail_adv_app _ _ _ _ H eq_refl) in Hs. rewrite rbind_assoc.
    rewrite (step_block_location _ _ loc rest) by
      (done || lia || by eapply same_rel_spec).
    unfold rbind, rret. cbn [Location ImageHeader]. rewrite !adv_adv. f_equal. apply shr_eq; lia.
  - subst. cbn [length] in *.
    unfold rbind at 1, rret at 1. rewrite rbind_assoc, app_nil_l in *.
    rewrite (step_block_location _ _ loc rest) by
      (done || lia || by eapply same_rel_spec).
    unfold rbind, rret. cbn [Location ImageHeader]. rewrite !adv_adv. f_equal. apply shr_eq; lia.
Qed.
End Roundtrip.

Definition strip_block (b : XLogRecordBlock) : XLogRecordBlock := mkBlock (BlockHeader b) [] [].

Fixpoint blocks_end (last : option RelFileNode) (maxID : Z) (bs : list XLogRecordBlock)
  : option RelFileNode * Z :=
  match bs with
  | [] => (last, maxID)
  | b :: bs =>
      blocks_end (Some (RelationFileNode (Location (BlockHeader b)))) (BlockID (BlockHeader b)) bs
  end.

Section Loop.
Context {S : Type} `{LawfulReader S}.
Implicit Types s : S.

Lemma enc_block_fields_length h : (7 <= length (enc_block_fields h))%nat.
Proof.
  unfold enc_block_fields, enc_block_location. rewrite !length_app, !le_enc_length. lia.
Qed.

Lemma block_id_plain last maxID b :
  block_ok last maxID b = true ->
  fits 1 (BlockID (BlockHeader b)) = true /\
  (BlockID (BlockHeader b) =? XlrBlockIDDataShort) = false /\
  (BlockID (BlockHeader b) =? XlrBlockIDDataLong) = false /\
  (BlockID (BlockHeader b) =? XlrBlockIDOrigin) = false.
Proof.
  unfold block_ok, block_header_ok, XlrMaxBlockID, XlrBlockIDDataShort, XlrBlockIDDataLong, XlrBlockIDOrigin.
  intros Hok. bool_to_prop. rewrite !Z.eqb_neq. repeat split; (done || lia).
Qed.

Lemma set_Blocks_twice r b1 b2 : set_Blocks (set_Blocks r b1) b2 = set_Blocks r b2.
Proof. done. Qed.

Lemma loop_blocks bs : forall fuel rec last maxID s tail dt,
  blocks_ok last maxID bs = true ->
  avail s = enc_block_headers bs ++ tail ->
  blockHeaderLoop (length bs + fuel) rec last maxID
    (mkShrinkable s (length (enc_block_headers bs) + length (enc_blocks bs) + dt)) =
  blockHeaderLoop fuel (set_Blocks rec (Blocks rec ++ (strip_block <$> bs)))
    (fst (blocks_end last maxID bs)) (snd (blocks_end last maxID bs))
    (mkShrinkable (adv s (length (enc_block_headers bs))) dt).
Proof.
  induction bs as [|b bs IH]; intros fuel rec last maxID s tail dt Hok Hs.
  - cbn. rewrite app_nil_r, adv_0. by destruct rec.
  - cbn [blocks_ok] in Hok. apply andb_true_iff in Hok as [Hb Hbs].
    destruct (block_id_plain _ _ _ Hb) as (Hid & Hn1 & Hn2 & Hn3).
    cbn [enc_block_headers enc_blocks mbind list_bind] in Hs |- *.
    fold (enc_block_headers bs) (enc_blocks bs) in *.
    unfold enc_block_header in *. norm_app Hs.
    rewrite !(length_app _ (enc_block_headers bs)), (length_app (le_enc 1 _)), le_enc_length.
    rewrite (length_app _ (enc_blocks bs)).
    pose proof (enc_block_fields_length (BlockHeader b)) as Hl.
    remember (length (enc_block_fields (BlockHeader b))) as nf eqn:Hnf.
    cbn [length Nat.add blockHeaderLoop dataRemained].
    rewrite (proj2 (Nat.eqb_neq _ _)) by lia.
    parse_field. rewrite Hn1, Hn2, Hn3.
    rewrite (step_block_header _ _ _ _ _ _ _ Hb Hs) by lia.
    rewrite <- Hnf. apply (fun H => avail_adv_app _ _ _ _ H (eq_sym Hnf)) in Hs.
    pose proof (IH fuel (set_Blocks rec (Blocks rec ++ [strip_block b]))
      (Some (RelationFileNode (Location (BlockHeader b)))) (BlockID (BlockHeader b))
      _ tail dt Hbs Hs) as IH'.
    rewrite set_Blocks_twice in IH'. cbn [set_Blocks Blocks] in IH'.
    rewrite <- app_assoc in IH'. cbn [fmap list_fmap blocks_end].
    etransitivity; [|etransitivity; [exact IH'|]].
    + f_equal. f_equal. lia.
    + f_equal. rewrite !adv_adv. apply shr_eq; lia.
Qed.

Definition steps (n : Z) : nat := if n =? 0 then 0%nat else 1%nat.

Lemma loop_done fuel rec last maxID s :
  blockHeaderLoop fuel rec last maxID (mkShrinkable s 0) = (Ok rec, mkShrinkable s 0).
Proof. by destruct fuel. Qed.

Lemma loop_main fuel rec last maxID s n tail :
  avail s = enc_main_header n ++ tail -> fits 4 n = true -> MainDataLen rec = 0 ->
  (steps n <= fuel)%nat ->
  blockHeaderLoop fuel rec last maxID
    (mkShrinkable s (length (enc_main_header n) + Z.to_nat n)) =
  (Ok (set_MainDataLen rec n), mkShrinkable (adv s (length (enc_main_header n))) 0).
Proof.
  unfold enc_main_header, steps. intros Hs Hn Hrec Hf.
  destruct (n =? 0) eqn:E0; bool_to_prop.
  - subst. cbn. rewrite adv_0, loop_done. by destruct rec; cbn in *; subst.
  - destruct fuel as [|fuel]; [lia|].
    assert (0 < n) by (unfold fits in Hn; bool_to_prop; lia).
    destruct (n <? 256) eqn:E1; bool_to_prop; rewrite length_app, !le_enc_length;
      norm_app Hs; cbn [Nat.add blockHeaderLoop dataRemained];
      rewrite (proj2 (Nat.eqb_neq _ _)) by lia; parse_field; cbn [Z.eqb Pos.eqb
        XlrBlockIDDataShort XlrBlockIDDataLong].
    + assert (fits 1 n = true) by (unfold fits in *; bool_to_prop; apply andb_true_iff;
        rewrite Z.leb_le, Z.ltb_lt; cbn; lia).
      parse_field. rewrite step_shrink by lia.
      replace (_ - _)%nat with 0%nat by lia. by rewrite loop_done, adv_adv.
    + parse_field. rewrite step_shrink by lia.
      replace (_ - _)%nat with 0%nat by lia. by rewrite loop_done, adv_adv.
Qed.

Lemma loop_origin fuel rec last maxID s o n tail :
  avail s = enc_origin o ++ enc_main_header n ++ tail ->
  fits 2 o = true -> fits 4 n = true -> MainDataLen rec = 0 -> Origin rec = 0 ->
  (steps o + steps n <= fuel)%nat ->
  blockHeaderLoop fuel rec last maxID
    (mkShrinkable s (length (enc_origin o) + (length (enc_main_header n) + Z.to_nat n))) =
  (Ok (set_MainDataLen (set_Origin rec o) n),
   mkShrinkable (adv s (length (enc_origin o) + length (enc_main_header n))) 0).
Proof.
  unfold enc_origin, steps at 1. intros Hs Ho Hn Hrec Hro Hf.
  destruct (o =? 0) eqn:E0; bool_to_prop.
  - subst o. cbn [length Nat.add app] in *. erewrite loop_main by (done || lia).
    by destruct rec; cbn in *; subst.
  - destruct fuel as [|fuel]; [lia|]. rewrite length_app, !le_enc_length.
    norm_app Hs. cbn [Nat.add blockHeaderLoop dataRemained].
    rewrite (proj2 (Nat.eqb_neq _ _)) by lia. parse_field.
    cbn [Z.eqb Pos.eqb XlrBlockIDDataShort XlrBlockIDDataLong XlrBlockIDOrigin].
    parse_field. replace (_ - _)%nat with (length (enc_main_header n) + Z.to_nat n)%nat by lia.
    erewrite loop_main by (done || lia). by rewrite !adv_adv.
Qed.

Lemma readBlockDataAndImages_enc bs : forall last maxID s tail,
  blocks_ok last maxID bs = true -> avail s = enc_blocks bs ++ tail ->
  readXLogRecordBlockDataAndImages (strip_block <$> bs) s =
  (Ok bs, adv s (length (enc_blocks bs))).
Proof.
  induction bs as [|b bs IH]; intros last maxID s tail Hok Hs.
  - cbn. by rewrite adv_0.
  - cbn [blocks_ok] in Hok. apply andb_true_iff in Hok as [Hb Hbs].
    unfold block_ok, block_header_ok, block_data_ok in Hb. bool_to_prop.
    cbn [enc_blocks mbind list_bind] in Hs |- *. fold (enc_blocks bs) in *.
    norm_app Hs. rewrite !length_app.
    cbn [fmap list_fmap readXLogRecordBlockDataAndImages strip_block BlockHeader Image Data].
    assert (Hd : HasData (BlockHeader b) = false -> Data b = []).
    { intros E. match goal with H : none (checkDataStateConsistency _) = _ |- _ =>
        unfold checkDataStateConsistency in H; rewrite E in H; cbn in H end.
      destruct (DataLength (BlockHeader b) =? 0) eqn:E0; [|done]. bool_to_prop.
      destruct (Data b); [done|]. cbn in *. lia. }
    destruct b as [h img dat]. cbn [BlockHeader Image Data] in *.
    destruct (HasImage h) eqn:Hi; cbv iota in *; bool_to_prop.
    + erewrite step_readfull by (exact Hs || lia).
      apply (fun H => avail_adv_app _ _ _ _ H eq_refl) in Hs.
      destruct (HasData h).
      * erewrite step_readfull by (exact Hs || lia).
        apply (fun H => avail_adv_app _ _ _ _ H eq_refl) in Hs.
        unfold rbind. erewrite IH by eassumption. unfold rret. by rewrite !adv_adv, Nat.add_assoc.
      * rewrite (Hd eq_refl) in *. cbn [app length] in *. unfold rbind, rret.
        erewrite IH by eassumption. by rewrite !adv_adv, Nat.add_0_r.
    + assert (img = []) as -> by (destruct img; [done|cbn in *; lia]). cbn [app length] in *. unfold rbind at 1, rret at 1.
      destruct (HasData h).
      * erewrite step_readfull by (exact Hs || lia).
        apply (fun H => avail_adv_app _ _ _ _ H eq_refl) in Hs.
        unfold rbind. erewrite IH by eassumption. unfold rret. by rewrite !adv_adv.
      * rewrite (Hd eq_refl) in *. cbn [app length] in *. unfold rbind, rret.
        by erewrite IH by eassumption.
Qed.

Lemma readXLogRecordBody_enc r rest s :
  record_ok r = true -> avail s = enc_body r ++ rest ->
  readXLogRecordBody (Header r) s = (Ok r, adv s (length (enc_body r))).
Proof.
  unfold record_ok, enc_body. intros Hok Hs. bool_to_prop. norm_app Hs.
  destruct r as [h n o bs md]. cbn [Header MainDataLen Origin Blocks MainData] in *.
  unfold readXLogRecordBody, rbind at 1, readXLogRecordBlockHeaderPart.
  cbn [NewXLogRecord Header].
  assert (Hlen : Z.to_nat (u32 (TotalRecordLength h - XLogRecordHeaderSize)) =
    (length (enc_block_headers bs) + length (enc_blocks bs) +
     (length (enc_origin o) + (length (enc_main_header n) + Z.to_nat n)))%nat).
  { match goal with H : TotalRecordLength h = _ |- _ => rename H into Ht end.
    match goal with H : header_ok h = true |- _ => unfold header_ok, fits in H end.
    bool_to_prop. unfold enc_record, enc_body in Ht.
    rewrite !length_app, enc_record_header_length in Ht.
    cbn [Header MainDataLen Origin Blocks MainData] in Ht.
    unfold XLogRecordHeaderSize in *. rewrite wrap_id; [lia|].
    unfold in_width. cbn in *. lia. }
  rewrite Hlen.
  assert (Hf : exists fuel, (length (enc_block_headers bs) + length (enc_blocks bs) +
    (length (enc_origin o) + (length (enc_main_header n) + Z.to_nat n)) = length bs + fuel)%nat /\
    (steps o + steps n <= fuel)%nat).
  { assert (length bs <= length (enc_block_headers bs))%nat as Hb.
    { clear. induction bs as [|b bs IH]; [done|]. cbn. fold (enc_block_headers bs).
      unfold enc_block_header. rewrite !length_app, le_enc_length. lia. }
    exists (length (enc_block_headers bs) + length (enc_blocks bs) +
     (length (enc_origin o) + (length (enc_main_header n) + Z.to_nat n)) - length bs)%nat.
    split; [lia|]. unfold steps, enc_origin, enc_main_header.
    destruct (o =? 0), (n =? 0), (n <? 256); rewrite ?length_app, ?le_enc_length;
      cbn [length]; lia. }
  destruct Hf as (fuel & Hf1 & Hf2). rewrite Hf1 at 1.
  erewrite loop_blocks by eassumption.
  apply (fun H => avail_adv_app _ _ _ _ H eq_refl) in Hs.
  erewrite loop_origin by (cbn; done || exact Hs).
  rewrite app_assoc in Hs.
  apply (fun H => avail_adv_app _ _ _ _ H eq_refl) in Hs. rewrite length_app in Hs.
  cbn [innerReader Blocks set_MainDataLen set_Origin set_Blocks NewXLogRecord app].
  unfold rbind at 1. erewrite readBlockDataAndImages_enc by eassumption.
  apply (fun H => avail_adv_app _ _ _ _ H eq_refl) in Hs.
  unfold readXLogRecordMainData. cbn.
  erewrite step_readfull by (exact Hs || lia).
  unfold rret. rewrite !adv_adv. f_equal. f_equal. rewrite !length_app. lia.
Qed.
End Loop.

Theorem ParseXLogRecordFromBytes_enc r rest :
  record_ok r = true -> ParseXLogRecordFromBytes (enc_record r ++ rest) = Ok r.
Proof.
  intros Hok. unfold ParseXLogRecordFromBytes, rbind.
  rewrite (readXLogRecordHeader_enc (Header r) (enc_body r ++ rest)).
  - by rewrite (readXLogRecordBody_enc r rest) by (done || by rewrite avail_adv).
  - unfold record_ok in Hok. by bool_to_prop.
  - unfold enc_record. by rewrite <- app_assoc.
Qed.
