(* ===== verification/WalRecordSound.v ===== *)
(** * What a parsed record satisfies

    Inversion of the record parser: a record it returns has a consistent
    header, in-order blocks with consistent headers, and payloads of the
    declared lengths. *)

From S2P Require Import Prelude GoIO WalRecord WalRecordEnc.
Import BlockHeaderOps.
Open Scope Z_scope.

(** ** Inversion of the monad *)

Lemma rbind_inv {S A B} (m : RM S A) (f : A -> RM S B) s b s' :
  rbind m f s = (Ok b, s') -> exists a s1, m s = (Ok a, s1) /\ f a s1 = (Ok b, s').
Proof. unfold rbind. destruct (m s) as [[a|e] s1] eqn:E; [eauto|done]. Qed.

Lemma rcheck_inv {S} c (s : S) u s' : rcheck c s = (Ok u, s') -> c = None /\ s' = s.
Proof. destruct c; cbn; [done|]. by intros [= _ <-]. Qed.

Lemma rret_inv {S A} (a b : A) (s s' : S) : rret a s = (Ok b, s') -> b = a /\ s' = s.
Proof. by intros [= -> ->]. Qed.

Section Inversion.
Context {S : Type} `{LawfulReader S}.

Lemma ReadFull_inv s n bs s' :
  ReadFull s n = (bs, None, s') ->
  (n <= length (avail s))%nat /\ bs = take n (avail s) /\ s' = adv s n.
Proof.
  intros Hr. destruct (Nat.le_gt_cases n (length (avail s))) as [Hle|Hgt].
  - rewrite ReadFull_ok in Hr by done. by inversion Hr.
  - destruct (decide (avail s = [])) as [E|E].
    + rewrite ReadFull_eof in Hr by (done || lia). done.
    + rewrite ReadFull_short in Hr by (done || lia). done.
Qed.

Lemma ParseFrom_inv name w s x s' :
  ParseFrom name w s = (Ok x, s') -> fits w x = true /\ s' = adv s w.
Proof.
  unfold ParseFrom. destruct (ReadFull s w) as [[bs [e|]] s1] eqn:E; [done|].
  intros [= <- <-]. apply ReadFull_inv in E as (Hl & -> & ->). split; [|done].
  apply le_dec_fits. rewrite length_take. lia.
Qed.

Lemma ReadFullM_inv n s bs s' :
  ReadFullM n s = (Ok bs, s') -> length bs = n.
Proof.
  unfold ReadFullM. destruct (ReadFull s n) as [[bs0 [e|]] s1] eqn:E; [done|].
  intros [= <- <-]. apply ReadFull_inv in E as (Hl & -> & ->). rewrite length_take. lia.
Qed.
End Inversion.

(** Break a successful run into its steps. *)
Ltac rm_inv :=
  repeat match goal with
  | H : rbind _ _ _ = (Ok _, _) |- _ =>
      apply rbind_inv in H as (? & ? & ? & ?)
  | H : rret _ _ = (Ok _, _) |- _ => apply rret_inv in H as [? ?]; subst
  | H : rfail _ _ = (Ok _, _) |- _ => discriminate H
  | H : rcheck _ _ = (Ok _, _) |- _ => apply rcheck_inv in H as [? ?]; subst
  | H : ParseFrom _ _ _ = (Ok _, _) |- _ => apply ParseFrom_inv in H as [? ?]; subst
  | H : ReadFullM _ _ = (Ok _, _) |- _ => apply ReadFullM_inv in H
  end.

Section Soundness.
Context {S : Type} `{LawfulReader S}.
Implicit Types s : S.

Lemma readXLogRecordHeader_inv s h s' :
  readXLogRecordHeader s = (Ok h, s') -> header_ok h = true.
Proof.
  unfold readXLogRecordHeader. intros Hr. rm_inv. unfold header_ok. cbn.
  rewrite !andb_true_iff. repeat split; try done.
  match goal with H : XLogRecordHeaderOps.checkConsistency _ = None |- _ => by rewrite H end.
Qed.

Lemma readImageHeader_inv s h s' :
  readXLogRecordBlockImageHeader s = (Ok h, s') -> image_header_ok h = true.
Proof.
  unfold readXLogRecordBlockImageHeader. intros Hr. rm_inv.
  unfold image_header_ok. cbn [ImageLength HoleOffset HoleLength ImageInfo].
  unfold ImageHeaderOps.IsCompressed, ImageHeaderOps.HasHole in *. cbn [ImageInfo] in *.
  match goal with H : ImageHeaderOps.checkConsistency _ = None |- _ => rewrite H end.
  rewrite !andb_true_iff.
  destruct (negb _); [destruct (negb _)|]; rm_inv; repeat split; try done.
  all: try apply Z.eqb_refl.
  apply fits_in_width. by apply wrap_range.
Qed.

Lemma readBlockLocation_inv same last s l s' :
  readBlockLocation same last s = (Ok l, s') ->
  (forall n, last = Some n -> node_ok n = true) ->
  location_ok l = true /\
  (if same then bool_decide (last = Some (RelationFileNode l)) else true) = true.
Proof.
  unfold readBlockLocation, readRelFileNode. intros Hr Hlast. rm_inv.
  unfold location_ok, node_ok in *. cbn.
  destruct same; [destruct last as [n|]|]; rm_inv; try done.
  - rewrite (Hlast n eq_refl). split; [done|]. by rewrite bool_decide_eq_true_2.
  - cbn. split; [|done]. by rewrite !andb_true_iff.
Qed.

End Soundness.

Definition last_ok (last : option RelFileNode) : Prop :=
    forall n, last = Some n -> node_ok n = true.

Section LoopSoundness.
Context {S : Type} `{LawfulReader S}.

Lemma readBlockHeader_inv last id maxID (s s' : ShrinkableReader S) h m l :
  readXLogRecordBlockHeader last id maxID s = (Ok (h, m, l), s') ->
  fits 1 id = true -> last_ok last ->
  block_header_ok last maxID h = true /\ m = BlockID h /\
  l = Some (RelationFileNode (Location h)) /\ last_ok l.
Proof.
  unfold readXLogRecordBlockHeader. intros Hr Hid Hlast.
  destruct (_ <? id) eqn:E1; [done|]. destruct (id <=? _) eqn:E2; [done|].
  rm_inv. simplify_eq.
  match goal with H : readBlockLocation _ _ _ = _ |- _ =>
    apply readBlockLocation_inv in H as [Hloc Hsame]; [|exact Hlast] end.
  repeat split.
  2:{ intros n [= <-]. unfold location_ok in Hloc. by bool_to_prop. }
  unfold block_header_ok, HasImage, HasSameRel in *.
  cbn [ForkFlags BlockID DataLength ImageHeader Location] in *.
  match goal with H : checkDataStateConsistency _ = None |- _ =>
    unfold checkDataStateConsistency, HasData in H |- *; cbn [ForkFlags DataLength] in H |- * ;
    rewrite H end.
  rewrite (proj2 (Z.leb_le _ _)), (proj2 (Z.ltb_lt _ _)), Hsame, Hloc by (bool_to_prop; lia).
  rewrite !andb_true_iff. repeat split; try done.
  destruct (negb (Z.land _ BkpBlockHasImage =? 0)); rm_inv.
  - match goal with Hi : readXLogRecordBlockImageHeader _ = _ |- _ =>
      exact (readImageHeader_inv _ _ _ Hi) end.
  - by rewrite bool_decide_eq_true_2.
Qed.

(** *** The header loop *)

Fixpoint headers_ok (last : option RelFileNode) (maxID : Z) (hs : list XLogRecordBlockHeader)
  : bool :=
  match hs with
  | [] => true
  | h :: hs => block_header_ok last maxID h &&
               headers_ok (Some (RelationFileNode (Location h))) (BlockID h) hs
  end.

Fixpoint headers_end (last : option RelFileNode) (maxID : Z) (hs : list XLogRecordBlockHeader)
  : option RelFileNode * Z :=
  match hs with
  | [] => (last, maxID)
  | h :: hs => headers_end (Some (RelationFileNode (Location h))) (BlockID h) hs
  end.

Lemma headers_ok_snoc hs h : forall last maxID,
  headers_ok last maxID (hs ++ [h]) =
  headers_ok last maxID hs &&
  block_header_ok (fst (headers_end last maxID hs)) (snd (headers_end last maxID hs)) h.
Proof.
  induction hs as [|h0 hs IH]; intros; cbn; [by rewrite andb_true_r|].
  by rewrite IH, andb_assoc.
Qed.

Lemma headers_end_snoc hs h : forall last maxID,
  headers_end last maxID (hs ++ [h]) = (Some (RelationFileNode (Location h)), BlockID h).
Proof. induction hs as [|h0 hs IH]; intros; cbn; done. Qed.

(** The loop's invariant on the record built so far. *)
Definition loop_inv (last : option RelFileNode) (maxID : Z) (r : XLogRecord) : Prop :=
  Blocks r = (fun h => mkBlock h [] []) <$> (BlockHeader <$> Blocks r) /\
  headers_ok None (-1) (BlockHeader <$> Blocks r) = true /\
  headers_end None (-1) (BlockHeader <$> Blocks r) = (last, maxID) /\
  last_ok last /\ fits 4 (MainDataLen r) = true /\ fits 2 (Origin r) = true.

Lemma fits_1_4 x : fits 1 x = true -> fits 4 x = true.
Proof. unfold fits. rewrite !andb_true_iff, !Z.leb_le, !Z.ltb_lt. cbn. lia. Qed.

Lemma blockHeaderLoop_inv fuel : forall r last maxID (s s' : ShrinkableReader S) r',
  loop_inv last maxID r ->
  blockHeaderLoop fuel r last maxID s = (Ok r', s') ->
  Header r' = Header r /\ exists last' maxID', loop_inv last' maxID' r'.
Proof.
  induction fuel as [|fuel IH]; intros r last maxID s s' r' Hinv Hr; cbn in Hr;
    destruct (dataRemained s =? 0)%nat; try done.
  1-2: injection Hr as <- <-; eauto.
  rm_inv. destruct Hinv as (I1 & I2 & I3 & I4 & I5 & I6).
  destruct (x =? XlrBlockIDDataShort) eqn:E1;
    [|destruct (x =? XlrBlockIDDataLong) eqn:E2; [|destruct (x =? XlrBlockIDOrigin) eqn:E3]];
    rm_inv.
  1-3: match goal with Hl : blockHeaderLoop _ _ _ _ _ = _ |- _ =>
         eapply IH in Hl as [? ?]; [done|] end;
       repeat split; try done; by apply fits_1_4.
  - match goal with Hx : readXLogRecordBlockHeader _ _ _ _ = (Ok ?p, _) |- _ =>
      destruct p as [[h m] l]; apply readBlockHeader_inv in Hx as (Hblk & -> & -> & ?); try done end.
    match goal with Hl : blockHeaderLoop _ _ _ _ _ = _ |- _ =>
      eapply IH in Hl as [? ?]; [done|] end. unfold loop_inv. cbn.
    rewrite !fmap_app, <- I1. cbn [fmap list_fmap BlockHeader].
    rewrite headers_ok_snoc, headers_end_snoc, I2, I3. cbn.
    by rewrite Hblk.
Qed.

Lemma readBlockDataAndImages_inv hs : forall last maxID (s s' : S) bs,
  headers_ok last maxID hs = true ->
  readXLogRecordBlockDataAndImages ((fun h => mkBlock h [] []) <$> hs) s = (Ok bs, s') ->
  blocks_ok last maxID bs = true.
Proof.
  induction hs as [|h hs IH]; intros last maxID s s' bs Hok Hr; cbn in Hr; rm_inv; [done|].
  cbn in Hok. apply andb_true_iff in Hok as [Hh Hhs]. cbn.
  rewrite (IH _ _ _ _ _ Hhs ltac:(eassumption)), andb_true_r.
  unfold block_ok, block_data_ok. cbn. rewrite Hh. cbn.
  assert (fits 2 (DataLength h) = true /\ none (checkDataStateConsistency h) = true) as [F1 F2].
  { unfold block_header_ok in Hh. by bool_to_prop. }
  assert (HasImage h = true -> 0 <= ImageLength (ImageHeader h)).
  { intros E. unfold block_header_ok in Hh. rewrite E in Hh. unfold image_header_ok, fits in Hh.
    bool_to_prop. lia. }
  unfold fits in F1. bool_to_prop. apply andb_true_iff. rewrite !Z.eqb_eq. split.
  - destruct (HasImage h); rm_inv; [|done]. lia.
  - destruct (HasData h) eqn:E; rm_inv; [lia|].
    unfold checkDataStateConsistency in F2. rewrite E in F2. cbn in F2.
    destruct (DataLength h =? 0) eqn:E0; [by apply Z.eqb_eq in E0|done].
Qed.
End LoopSoundness.

(** Everything [record_ok] asks for but the total length, which the parser
    only bounds. *)
Definition parsed_ok (r : XLogRecord) : bool :=
  header_ok (Header r) && blocks_ok None (-1) (Blocks r) && fits 2 (Origin r) &&
  fits 4 (MainDataLen r) && (MainDataLen r =? Z.of_nat (length (MainData r))).

Lemma readXLogRecordBody_inv {S} `{LawfulReader S} (s s' : S) h r :
  header_ok h = true -> readXLogRecordBody h s = (Ok r, s') ->
  Header r = h /\ parsed_ok r = true.
Proof.
  unfold readXLogRecordBody. intros Hh Hr. rm_inv.
  unfold readXLogRecordBlockHeaderPart in *.
  destruct (blockHeaderLoop _ _ _ _ _) as [y1 y2] eqn:E. simplify_eq.
  apply blockHeaderLoop_inv in E as (Eh & l & m & I1 & I2 & I3 & I4 & I5 & I6).
  2:{ by repeat split. }
  unfold parsed_ok. cbn in *. split; [done|]. rewrite Eh, Hh, I5, I6.
  match goal with H : readXLogRecordBlockDataAndImages _ _ = _ |- _ =>
    rewrite I1 in H; eapply readBlockDataAndImages_inv in H; [rewrite H|done] end.
  cbn. unfold readXLogRecordMainData in *. rm_inv. apply Z.eqb_eq.
  unfold fits in I5. bool_to_prop. lia.
Qed.

Lemma ParseXLogRecordFromBytes_inv data r :
  ParseXLogRecordFromBytes data = Ok r -> parsed_ok r = true.
Proof.
  unfold ParseXLogRecordFromBytes. destruct (rbind _ _ _) as [x s'] eqn:E. cbn. intros ->.
  rm_inv. apply readXLogRecordHeader_inv in H. eapply readXLogRecordBody_inv; eassumption.
Qed.
