(* ===== verification/WalPage.v ===== *)
(** * WAL pages and the WAL parser

    [src/internal/walparser]: the aligned reader, the page reader of
    [read_xlog_page.go] and the parser state machine of [wal_parser.go],
    which reassembles the records that cross page boundaries. *)

From S2P Require Import Prelude GoIO WalRecord.
Open Scope Z_scope.

(** ** [AlignedReader] *)

Record AlignedReader (S : Type) := mkAligned {
  arInner : S;
  alignment : nat;
  alreadyRead : nat
}.
Arguments mkAligned {S} _ _ _.
Arguments arInner {S} _.
Arguments alignment {S} _.
Arguments alreadyRead {S} _.

Definition NewAlignedReader {S} (source : S) (alignment : nat) : AlignedReader S :=
  mkAligned source alignment 0.

#[export] Instance AlignedReader_Reader {S} `{Reader S} : Reader (AlignedReader S) :=
  fun r n =>
    let '(bs, e, i') := Read (arInner r) n in
    (bs, e, mkAligned i' (alignment r) (alreadyRead r + length bs)).

#[export] Program Instance AlignedReader_Lawful {S} `{LawfulReader S} :
    LawfulReader (AlignedReader S) :=
  { avail r := avail (arInner r);
    adv r k := mkAligned (adv (arInner r) (Nat.min k (length (avail (arInner r)))))
                         (alignment r)
                         (alreadyRead r + Nat.min k (length (avail (arInner r)))) }.
Next Obligation.
  intros S ? ? [i a n0] n; simpl; intros Hne Hn. unfold Read, AlignedReader_Reader. simpl.
  rewrite read_some by done. rewrite length_take. f_equal.
  by rewrite <- Nat.min_assoc, Nat.min_id.
Qed.
Next Obligation.
  intros S ? ? [i a n0] n; simpl; intros He Hn. unfold Read, AlignedReader_Reader. simpl.
  rewrite read_eof by done. simpl. by rewrite Nat.add_0_r.
Qed.
Next Obligation.
  intros S ? ? [i a n0] k; simpl. rewrite avail_adv.
  destruct (Nat.le_gt_cases k (length (avail i))).
  - by rewrite Nat.min_l.
  - rewrite Nat.min_r, !drop_ge by lia. done.
Qed.
Next Obligation.
  intros S ? ? [i a n0] j k; simpl. rewrite adv_adv, avail_adv, length_drop.
  f_equal; [f_equal|]; lia.
Qed.
Next Obligation.
  intros S ? ? [i a n0]; simpl. by rewrite adv_0, Nat.add_0_r.
Qed.

(** One [Read] of the padding; a short one is no error. *)
Definition ReadToAlignment {S} `{Reader S} : RM (AlignedReader S) unit := fun r =>
  let paddingLength := (alignment r - alreadyRead r mod alignment r)%nat in
  if (paddingLength =? alignment r)%nat then (Ok tt, r)
  else
    let '(_, e, r') := Read r paddingLength in
    match e with
    | Some e => (Err (WithStack e), r')
    | None => (Ok tt, r')
    end.

(** ** Helpers: [util.go] *)

Definition minUint32 (a b : Z) : Z := if a <? b then a else b.

Definition concatByteSlices (a b : list byte) : list byte := a ++ b.

Definition allZero (data : list byte) : bool :=
  forallb (fun x => bool_decide (x = Byte.x00)) data.

(** ** The page header *)

Definition XlpFirstIsContRecord : Z := 0x0001.
Definition XlpLongHeader : Z := 0x0002.
Definition XlpAllFlags : Z := 0x0007.

Record XLogPageHeader := mkPageHeader {
  Magic : Z;
  PageInfo : Z;
  TimeLineID : Z;
  PageAddress : Z;
  RemainingDataLen : Z
}.

Definition IsLong (h : XLogPageHeader) : bool :=
  negb (Z.land (PageInfo h) XlpLongHeader =? 0).

Definition HasContinuationRecord (h : XLogPageHeader) : bool :=
  negb (Z.land (PageInfo h) XlpFirstIsContRecord =? 0).

Definition hasValidFlags (h : XLogPageHeader) : bool :=
  Z.ldiff (PageInfo h) XlpAllFlags =? 0.

Definition hasConsistentRemainingDataLen (h : XLogPageHeader) : bool :=
  if HasContinuationRecord h
  then negb (RemainingDataLen h =? 0)
  else RemainingDataLen h =? 0.

Definition IsValid (h : XLogPageHeader) : bool :=
  hasValidFlags h && hasConsistentRemainingDataLen h.

Definition isZero (h : XLogPageHeader) : bool :=
  (Magic h =? 0) && (PageInfo h =? 0) && (TimeLineID h =? 0) && (PageAddress h =? 0) &&
  (RemainingDataLen h =? 0).

Record XLogPage := mkPage {
  PHeader : XLogPageHeader;
  PrevRecordTrailingData : list byte;
  Records : list XLogRecord;
  NextRecordHeadingData : list byte
}.

Section PageHeader.
Context {S : Type} `{Reader S}.

Definition readXLogLongPageHeaderData : RM S unit :=
  ParseMultipleFieldsFromReader [("systemID", 8%nat); ("segmentSize", 4%nat);
                                 ("xLogBlockSize", 4%nat)] ;;;
  rret tt.

Definition readXLogPageHeader : RM S XLogPageHeader :=
  magic <-- ParseFrom "magic" 2 ;;
  info <-- ParseFrom "info" 2 ;;
  timeLineID <-- ParseFrom "timeLineID" 4 ;;
  pageAddress <-- ParseFrom "pageAddress" 8 ;;
  remainingDataLen <-- ParseFrom "remainingDataLen" 4 ;;
  let h := mkPageHeader magic info timeLineID pageAddress remainingDataLen in
  if isZero h then rfail ZeroPageHeaderError
  else if negb (IsValid h) then rfail InvalidPageHeaderError
  else (if IsLong h then readXLogLongPageHeaderData else rret tt) ;;;
       rret h.
End PageHeader.

(** ** Reading a page *)

Notation PageReader := (AlignedReader bytesReader).

(** A [Read] whose [EOF] is not an error. *)
Definition ReadSome (n : nat) : RM PageReader (list byte) := fun r =>
  let '(bs, e, r') := Read r n in
  match e with
  | None | Some EOF => (Ok bs, r')
  | Some e => (Err (WithStack e), r')
  end.

(** The record data at the next alignment and whether it is a whole record. *)
Definition tryReadXLogRecordData : RM PageReader (list byte * bool) := fun r =>
  match ReadToAlignment r with
  | (Err err, r) =>
      if bool_decide (Cause err = EOF) then (Ok ([], false), r) else (Err err, r)
  | (Ok _, r) =>
      (headerData <-- ReadSome (Z.to_nat XLogRecordHeaderSize) ;;
       if (Z.of_nat (length headerData) <? XLogRecordHeaderSize) then
         if (0 <? length headerData)%nat && allZero headerData
         then rfail ZeroRecordHeaderError
         else rret (headerData, false)
       else
         match fst (readXLogRecordHeader (headerData : bytesReader)) with
         | Err err => rfail err
         | Ok recordHeader =>
             let contentLength := u32 (TotalRecordLength recordHeader - XLogRecordHeaderSize) in
             recordContent <-- ReadSome (Z.to_nat (minUint32 contentLength WalPageSize)) ;;
             rret (concatByteSlices headerData recordContent,
                   Z.of_nat (length recordContent) =? contentLength)
         end) r
  end.

(** The outcomes of [parsePage]: a page, a page together with a
    [PartialPageError], or no page and an error. *)
Inductive page_result :=
| WholePage (page : XLogPage)
| PartialPage (page : XLogPage)
| NoPage (err : error).

Definition checkPartialPage (pageReader : PageReader) (page : XLogPage) (recordReadingErr : error)
  : page_result :=
  match recordReadingErr with
  | ZeroRecordHeaderError =>
      let '(pageData, err1, _) :=
        ReadAll (S (length (arInner pageReader))) pageReader in
      match err1 with
      | Some err1 => NoPage (WithStack err1)
      | None => if allZero pageData then PartialPage page
                else NoPage (WithStack recordReadingErr)
      end
  | _ => NoPage (WithStack recordReadingErr)
  end.

(** The loop of [readXLogPage]; a whole record takes at least 24 bytes. *)
Fixpoint readXLogPage (fuel : nat) (alignedReader : PageReader) (pageHeader : XLogPageHeader)
    (remainingData : list byte) (pageRecords : list XLogRecord) : page_result :=
  match fuel with
  | 0%nat => NoPage ErrNoProgress
  | S fuel =>
      match tryReadXLogRecordData alignedReader with
      | (Err err, r) =>
          checkPartialPage r (mkPage pageHeader remainingData pageRecords []) err
      | (Ok (recordData, true), r) =>
          match ParseXLogRecordFromBytes recordData with
          | Err err => checkPartialPage r (mkPage pageHeader remainingData pageRecords []) err
          | Ok record =>
              let pageRecords := pageRecords ++ [record] in
              if isWALSwitch record
              then WholePage (mkPage pageHeader remainingData pageRecords [])
              else readXLogPage fuel r pageHeader remainingData pageRecords
          end
      | (Ok (recordData, false), r) =>
          WholePage (mkPage pageHeader remainingData pageRecords recordData)
      end
  end.

(** ** The parser *)

Record WalParser := mkWalParser {
  currentRecordData : list byte;
  hasCurrentRecordBeginning : bool
}.

#[export] Instance WalParser_eq_dec : EqDecision WalParser.
Proof. solve_decision. Defined.

Definition NewWalParser : WalParser := mkWalParser [] false.

Definition setCurrentRecordData (parser : WalParser) (data : list byte) : WalParser :=
  mkWalParser data (0 <? length data)%nat.

Definition Invalidate (parser : WalParser) : WalParser := setCurrentRecordData parser [].

Definition GetCurrentRecordData (parser : WalParser) : list byte := currentRecordData parser.

Definition LoadWalParserFromCurrentRecordHead (currentRecordHead : list byte) : WalParser :=
  mkWalParser currentRecordHead true.

(** [reader] is the [bytes.Reader] on the page that both callers pass. *)
Definition parsePage (parser : WalParser) (reader : bytesReader) : page_result :=
  match readXLogPageHeader (NewAlignedReader reader XLogRecordAlignment) with
  | (Err ZeroPageHeaderError, r) =>
      let '(pageData, err1, _) := ReadAll (S (length (arInner r))) r in
      match err1 with
      | Some err1 => NoPage (WithStack err1)
      | None => if allZero pageData then NoPage ZeroPageError else NoPage ZeroPageHeaderError
      end
  | (Err err, r) => NoPage err
  | (Ok pageHeader, r) =>
      match ReadToAlignment r with
      | (Err err, _) => NoPage err
      | (Ok _, r) =>
          let '(remainingData, err, r) :=
            Read r (Z.to_nat (minUint32 (RemainingDataLen pageHeader) WalPageSize)) in
          if match err with Some e => negb (bool_decide (Cause e = EOF)) | None => false end
          then NoPage (default EOF err)
          else if negb (Z.of_nat (length remainingData) =? RemainingDataLen pageHeader) then
            WholePage (mkPage pageHeader remainingData [] [])
          else
            let continue := readXLogPage (S (length (arInner r))) r pageHeader remainingData [] in
            if hasCurrentRecordBeginning parser then
              match ParseXLogRecordFromBytes
                      (concatByteSlices (currentRecordData parser) remainingData) with
              | Err err => NoPage err
              | Ok record =>
                  if isWALSwitch record then WholePage (mkPage pageHeader remainingData [] [])
                  else continue
              end
            else continue
      end
  end.

(** The record tail to give back, the records, and the error; with a
    [PartialPageError] the values are valid. *)
Definition ParseResult : Type := list byte * list XLogRecord * option error.

Definition finishPage (parser : WalParser) (page : XLogPage) (pageParsingErr : option error)
  : ParseResult * WalParser :=
  let data := concatByteSlices (currentRecordData parser) (PrevRecordTrailingData page) in
  if Z.of_nat (length (PrevRecordTrailingData page)) <? RemainingDataLen (PHeader page) then
    (([], [], pageParsingErr), mkWalParser data (hasCurrentRecordBeginning parser))
  else if negb (hasCurrentRecordBeginning parser) then
    ((data, Records page, pageParsingErr),
     setCurrentRecordData parser (NextRecordHeadingData page))
  else
    match fst (readXLogRecordHeader (data : bytesReader)) with
    | Err err => (([], [], Some err), parser)
    | Ok header =>
        if negb (TotalRecordLength header =? u32 (Z.of_nat (length data))) then
          (([], [], Some ContinuationNotFoundError), parser)
        else match ParseXLogRecordFromBytes data with
        | Err err => (([], [], Some err), parser)
        | Ok currentRecord =>
            (([], currentRecord :: Records page, pageParsingErr),
             setCurrentRecordData parser (NextRecordHeadingData page))
        end
    end.

Definition ParseRecordsFromPage (parser : WalParser) (reader : bytesReader)
  : ParseResult * WalParser :=
  match parsePage parser reader with
  | NoPage err => (([], [], Some err), parser)
  | WholePage page => finishPage parser page None
  | PartialPage page => finishPage parser page (Some PartialPageError)
  end.

(** [Save] into a growing buffer. *)
Definition Save (parser : WalParser) : res error (list byte) :=
  if (0 <? length (currentRecordData parser))%nat && negb (hasCurrentRecordBeginning parser)
  then Err CantSavePartialParserError
  else Ok (le_enc 4 (u32 (Z.of_nat (length (currentRecordData parser)))) ++
           currentRecordData parser).

Definition LoadWalParser {S} `{Reader S} : RM S WalParser :=
  dataLen <-- ParseFrom "record data prefix len" 4 ;;
  data <-- ReadFullM (Z.to_nat dataLen) ;;
  rret (mkWalParser data (0 <? length data)%nat).
