(* ===== verification/WalPageEnc.v ===== *)
(** * Encoding WAL pages

    A page layout (header, rest of the previous record, aligned records, head
    of the next record) and the proof that the page parser recovers it. *)

From S2P Require Import Prelude GoIO WalRecord WalRecordEnc WalPage.
Open Scope Z_scope.

Definition zeros (n : nat) : list byte := replicate n Byte.x00.

(** The padding after [n] bytes. *)
Definition pad (n : nat) : nat := ((8 - n mod 8) mod 8)%nat.

Record LongHeader := mkLong { SystemID : Z; SegmentSize : Z; XLogBlockSize : Z }.

Definition enc_page_header (h : XLogPageHeader) (l : LongHeader) : list byte :=
  le_enc 2 (Magic h) ++ le_enc 2 (PageInfo h) ++ le_enc 4 (TimeLineID h) ++
  le_enc 8 (PageAddress h) ++ le_enc 4 (RemainingDataLen h) ++
  (if IsLong h
   then enc_fields [(8%nat, SystemID l); (4%nat, SegmentSize l); (4%nat, XLogBlockSize l)]
   else []).

Definition page_header_length (h : XLogPageHeader) : nat := if IsLong h then 36%nat else 20%nat.

Fixpoint enc_records (rs : list XLogRecord) (tail : list byte) : list byte :=
  match rs with
  | [] => tail
  | r :: rs => enc_record r ++ zeros (pad (length (enc_record r))) ++ enc_records rs tail
  end.

Record PageSpec := mkPageSpec {
  psHeader : XLogPageHeader;
  psLong : LongHeader;
  psRemaining : list byte;
  psRecords : list XLogRecord;
  psTail : list byte
}.

Definition enc_page (p : PageSpec) : list byte :=
  enc_page_header (psHeader p) (psLong p) ++ zeros (pad (page_header_length (psHeader p))) ++
  psRemaining p ++ zeros (pad (length (psRemaining p))) ++
  enc_records (psRecords p) (psTail p).

Definition page_header_ok (h : XLogPageHeader) (l : LongHeader) : bool :=
  fits 2 (Magic h) && fits 2 (PageInfo h) && fits 4 (TimeLineID h) && fits 8 (PageAddress h) &&
  fits 4 (RemainingDataLen h) && negb (isZero h) && IsValid h &&
  fits 8 (SystemID l) && fits 4 (SegmentSize l) && fits 4 (XLogBlockSize l).

(** A record that fits a page and is no WAL switch. *)
Definition page_record_ok (r : XLogRecord) : bool :=
  record_ok r && (length (enc_record r) <=? Z.to_nat WalPageSize)%nat && negb (isWALSwitch r).

(** [tail] is the head of record [r]: not its whole, and nothing or at least
    one alignment unit of it. *)
Definition head_of (r : XLogRecord) (tail : list byte) : bool :=
  let k := length tail in
  record_ok r && bool_decide (tail = take k (enc_record r)) &&
  (k <? length (enc_record r))%nat && ((k =? 0) || (8 <=? k))%nat &&
  (k <=? Z.to_nat WalPageSize)%nat.

Definition page_ok (p : PageSpec) : bool :=
  page_header_ok (psHeader p) (psLong p) &&
  (RemainingDataLen (psHeader p) =? Z.of_nat (length (psRemaining p))) &&
  (length (psRemaining p) <=? Z.to_nat WalPageSize)%nat &&
  forallb page_record_ok (psRecords p).

(** ** Aligned reads *)

Lemma pad_add n k : (n mod 8 = 0)%nat -> pad (n + k) = pad k.
Proof.
  intros Hn. unfold pad. do 2 f_equal. rewrite Nat.Div0.add_mod, Hn, Nat.add_0_l.
  apply Nat.Div0.mod_mod.
Qed.

Lemma pad_aligns n : ((n + pad n) mod 8 = 0)%nat.
Proof.
  unfold pad. pose proof (Nat.mod_upper_bound n 8 ltac:(lia)).
  pose proof (Nat.div_mod_eq n 8). destruct (decide (n mod 8 = 0)%nat) as [E|E].
  - rewrite E. change ((8 - 0) mod 8)%nat with 0%nat. by rewrite Nat.add_0_r.
  - rewrite (Nat.mod_small (8 - n mod 8)) by lia.
    replace (n + (8 - n mod 8))%nat with ((n / 8 + 1) * 8)%nat by lia.
    apply Nat.Div0.mod_mul.
Qed.

Notation at_ i n := (mkAligned (i : bytesReader) 8 n).

Lemma ReadToAlignment_ok rest n :
  ReadToAlignment (at_ (zeros (pad n) ++ rest) n) = (Ok tt, at_ rest (n + pad n)).
Proof.
  unfold ReadToAlignment, pad. cbn [alignment alreadyRead].
  pose proof (Nat.mod_upper_bound n 8 ltac:(lia)).
  destruct (decide (n mod 8 = 0)%nat) as [E|E].
  - rewrite E. cbn. by rewrite Nat.add_0_r.
  - rewrite (Nat.mod_small (8 - n mod 8)) by lia. rewrite (proj2 (Nat.eqb_neq _ _)) by lia.
    unfold Read, AlignedReader_Reader, Read, bytesReader_Reader. cbn [arInner].
    destruct (8 - n mod 8)%nat as [|m] eqn:Em; [lia|].
    cbn [zeros replicate app]. change (Byte.x00 :: replicate m Byte.x00 ++ rest)
      with (zeros (S m) ++ rest). unfold zeros.
    rewrite take_app_length', drop_app_length' by (by rewrite length_replicate).
    by rewrite length_replicate.
Qed.

Lemma ReadSome_app k bs rest n :
  length bs = k -> ReadSome k (at_ (bs ++ rest) n) = (Ok bs, at_ rest (n + k)).
Proof.
  intros <-. unfold ReadSome, Read, AlignedReader_Reader, Read, bytesReader_Reader.
  cbn [arInner alignment alreadyRead]. destruct (bs ++ rest) eqn:E.
  - apply app_nil in E as [-> ->]. cbn. by rewrite Nat.add_0_r.
  - rewrite <- E. rewrite take_app_length, drop_app_length. done.
Qed.

Lemma ReadSome_short k i n :
  (length i <= k)%nat -> ReadSome k (at_ i n) = (Ok i, at_ [] (n + length i)).
Proof.
  intros Hk. unfold ReadSome, Read, AlignedReader_Reader, Read, bytesReader_Reader.
  cbn [arInner alignment alreadyRead]. destruct i; [done|].
  by rewrite take_ge, drop_ge by done.
Qed.

(** ** Records of a page *)

Lemma record_total r :
  record_ok r = true ->
  header_ok (Header r) = true /\
  TotalRecordLength (Header r) = Z.of_nat (length (enc_record r)) /\
  u32 (TotalRecordLength (Header r) - XLogRecordHeaderSize) = Z.of_nat (length (enc_body r)).
Proof.
  unfold record_ok. intros Hok. bool_to_prop. repeat split; try done.
  assert (length (enc_record r) = 24 + length (enc_body r))%nat.
  { unfold enc_record. by rewrite length_app. }
  unfold XLogRecordHeaderSize. rewrite wrap_id; [lia|].
  match goal with H : header_ok _ = true |- _ => unfold header_ok, fits in H end.
  bool_to_prop. unfold in_width. cbn in *. lia.
Qed.

Lemma header_of_prefix h rest :
  header_ok h = true ->
  fst (readXLogRecordHeader (take 24 (enc_record_header h ++ rest) : bytesReader)) = Ok h.
Proof.
  intros Hh. rewrite take_app_length' by done.
  by rewrite (readXLogRecordHeader_enc h []) by (done || by rewrite app_nil_r).
Qed.

Lemma tryRead_record r X n :
  page_record_ok r = true ->
  tryReadXLogRecordData (at_ (zeros (pad n) ++ enc_record r ++ X) n) =
  (Ok (enc_record r, true), at_ X (n + pad n + length (enc_record r))).
Proof.
  unfold page_record_ok. intros Hok. bool_to_prop.
  match goal with H : record_ok r = true |- _ => destruct (record_total r H) as (Hh & Ht & Hb) end.
  unfold tryReadXLogRecordData. rewrite ReadToAlignment_ok.
  unfold enc_record in *. rewrite length_app, enc_record_header_length in *.
  rewrite <- app_assoc. unfold rbind.
  rewrite (ReadSome_app _ (enc_record_header (Header r))) by done.
  rewrite enc_record_header_length. cbn [Z.ltb Z.compare Z.of_nat].
  change (Z.of_nat 24 <? XLogRecordHeaderSize) with false. cbv iota.
  pose proof (header_of_prefix (Header r) [] Hh) as Hp.
  rewrite app_nil_r, take_ge in Hp by done. rewrite Hp, Hb.
  unfold minUint32. rewrite (proj2 (Z.ltb_lt _ _)) by (unfold WalPageSize in *; lia).
  rewrite Nat2Z.id, ReadSome_app by done. unfold rret, concatByteSlices.
  rewrite Z.eqb_refl. by rewrite !Nat.add_assoc.
Qed.

Lemma allZero_total t rest :
  fits 4 t = true -> t <> 0 -> allZero (le_enc 4 t ++ rest) = false.
Proof.
  intros Hf Ht. unfold allZero. rewrite forallb_app. apply andb_false_iff. left.
  destruct (forallb _ (le_enc 4 t)) eqn:E; [|done]. exfalso. apply Ht.
  rewrite <- (le_dec_enc 4 t Hf).
  assert (forall l, forallb (fun x => bool_decide (x = Byte.x00)) l = true -> le_dec l = 0) as Hz.
  { clear. induction l as [|b l IH]; [done|]. cbn. intros E. bool_to_prop. subst.
    unfold LittleEndianList.le_combine in *. cbn. by rewrite IH. }
  by apply Hz.
Qed.

Lemma tryRead_tail r tail n :
  head_of r tail = true ->
  tryReadXLogRecordData (at_ (zeros (pad n) ++ tail) n) =
  (Ok (tail, false), at_ [] (n + pad n + length tail)).
Proof.
  unfold head_of. intros Hok. bool_to_prop.
  match goal with H : record_ok r = true |- _ => destruct (record_total r H) as (Hh & Ht & Hb) end.
  unfold tryReadXLogRecordData. rewrite ReadToAlignment_ok. unfold rbind.
  assert (Hlen : length (enc_record r) = (24 + length (enc_body r))%nat)
    by (unfold enc_record; by rewrite length_app).
  change (Z.to_nat XLogRecordHeaderSize) with 24%nat.
  destruct (Nat.le_gt_cases 24 (length tail)) as [Hk|Hk].
  - assert (Htail : tail = enc_record_header (Header r) ++ drop 24 tail).
    { rewrite <- (take_drop 24 tail) at 1. f_equal.
      match goal with H : tail = _ |- _ => rewrite H end.
      rewrite take_take, Nat.min_l by done. unfold enc_record. by rewrite take_app_length'. }
    rewrite Htail at 1. rewrite ReadSome_app, enc_record_header_length by done.
    change (Z.of_nat 24 <? XLogRecordHeaderSize) with false. cbv iota.
    pose proof (header_of_prefix (Header r) [] Hh) as Hp.
    rewrite app_nil_r, take_ge in Hp by done. rewrite Hp, Hb.
    rewrite ReadSome_short.
    + unfold rret, concatByteSlices. rewrite <- Htail, length_drop.
      rewrite (proj2 (Z.eqb_neq _ _)) by lia. do 2 f_equal. lia.
    + rewrite length_drop. unfold minUint32, WalPageSize in *. case_bool; lia.
  - rewrite ReadSome_short by lia.
    rewrite (proj2 (Z.ltb_lt _ _)) by (unfold XLogRecordHeaderSize; lia).
    match goal with H : _ || _ = true |- _ => apply orb_true_iff in H as [Hz|Hz] end; bool_to_prop.
    + destruct tail; [|done]. done.
    + replace (allZero tail) with false; [by rewrite andb_false_r|].
      assert (Htail : tail = le_enc 4 (TotalRecordLength (Header r)) ++ drop 4 tail).
      { rewrite <- (take_drop 4 tail) at 1. f_equal.
        match goal with H : tail = _ |- _ => rewrite H end.
        rewrite take_take, Nat.min_l by lia. unfold enc_record, enc_record_header.
        rewrite <- app_assoc. by rewrite take_app_length'. }
      rewrite Htail. symmetry. apply allZero_total.
      * unfold header_ok in Hh. by bool_to_prop.
      * lia.
Qed.

(** The loop reads the whole records of the page. *)
Lemma readXLogPage_records tail rs : forall fuel n h rem acc,
  forallb page_record_ok rs = true ->
  exists n', readXLogPage (length rs + fuel) (at_ (zeros (pad n) ++ enc_records rs tail) n) h rem acc =
    readXLogPage fuel (at_ (zeros (pad n') ++ tail) n') h rem (acc ++ rs).
Proof.
  induction rs as [|r0 rs IH]; intros fuel n h rem acc Hrs.
  - exists n. by rewrite app_nil_r.
  - cbn in Hrs. apply andb_true_iff in Hrs as [Hr0 Hrs].
    cbn [length Nat.add readXLogPage enc_records]. rewrite tryRead_record by done.
    unfold page_record_ok in Hr0. bool_to_prop.
    pose proof (ParseXLogRecordFromBytes_enc r0 [] ltac:(done)) as Hp.
    rewrite app_nil_r in Hp. rewrite Hp.
    match goal with H : isWALSwitch r0 = false |- _ => rewrite H end.
    rewrite <- (pad_add (n + pad n) (length (enc_record r0))) by apply pad_aligns.
    edestruct IH as [n' ->]; [done|]. exists n'. by rewrite <- app_assoc.
Qed.

Lemma readXLogPage_ok r tail rs fuel n h rem acc :
  (length rs < fuel)%nat -> forallb page_record_ok rs = true -> head_of r tail = true ->
  readXLogPage fuel (at_ (zeros (pad n) ++ enc_records rs tail) n) h rem acc =
  WholePage (mkPage h rem (acc ++ rs) tail).
Proof.
  intros Hf Hrs Ht. replace fuel with (length rs + S (fuel - S (length rs)))%nat by lia.
  edestruct readXLogPage_records as [n' ->]; [done|].
  cbn [readXLogPage]. by rewrite (tryRead_tail r).
Qed.

Lemma allZero_zeros k : allZero (zeros k) = true.
Proof. by induction k. Qed.

(** Zeros where a record should start. *)
Lemma readXLogPage_zeros k fuel n h rem acc :
  (0 < k)%nat ->
  readXLogPage (S fuel) (at_ (zeros (pad n) ++ zeros k) n) h rem acc =
  PartialPage (mkPage h rem acc []).
Proof.
  intros Hk. cbn [readXLogPage]. unfold tryReadXLogRecordData. rewrite ReadToAlignment_ok.
  change (Z.to_nat XLogRecordHeaderSize) with 24%nat. unfold rbind.
  assert (forall (r : PageReader) j, arInner r = zeros j ->
    checkPartialPage r (mkPage h rem acc []) ZeroRecordHeaderError =
    PartialPage (mkPage h rem acc [])) as Hc.
  { intros r j Hr. unfold checkPartialPage.
    destruct (ReadAll_ok (S (length (arInner r))) r) as (s' & Hs & _); [cbn; lia|].
    rewrite Hs. cbn [avail AlignedReader_Lawful bytesReader_Lawful]. rewrite Hr.
    by rewrite allZero_zeros. }
  destruct (Nat.le_gt_cases 24 k) as [H24|H24].
  - replace k with (24 + (k - 24))%nat by lia. unfold zeros. rewrite replicate_add.
    rewrite ReadSome_app by done. rewrite length_replicate.
    change (Z.of_nat 24 <? XLogRecordHeaderSize) with false. cbv iota.
    change (fst (readXLogRecordHeader (replicate 24 Byte.x00 : bytesReader)))
      with (Err ZeroRecordHeaderError : res error XLogRecordHeader). cbv iota.
    by apply (Hc _ (k - 24)%nat).
  - rewrite ReadSome_short by (unfold zeros; rewrite length_replicate; lia).
    rewrite allZero_zeros. unfold zeros at 1 2. rewrite length_replicate.
    rewrite (proj2 (Z.ltb_lt _ _)) by (unfold XLogRecordHeaderSize; lia).
    rewrite (proj2 (Nat.ltb_lt _ _)) by done. by apply (Hc _ 0%nat).
Qed.

(** ** A whole page *)

Lemma adv_at k bs rest n :
  length bs = k -> adv (at_ (bs ++ rest) n) k = at_ rest (n + k).
Proof.
  intros <-. cbn. rewrite Nat.min_l by len. by rewrite drop_app_length.
Qed.

Lemma enc_page_header_length h l : length (enc_page_header h l) = page_header_length h.
Proof.
  unfold enc_page_header, page_header_length. rewrite !length_app, !le_enc_length.
  by destruct (IsLong h).
Qed.

Lemma readXLogPageHeader_ok h l rest :
  page_header_ok h l = true ->
  readXLogPageHeader (at_ (enc_page_header h l ++ rest) 0) = (Ok h, at_ rest (page_header_length h)).
Proof.
  unfold page_header_ok. intros Hok. bool_to_prop.
  assert (Hs : avail (at_ (enc_page_header h l ++ rest) 0) = enc_page_header h l ++ rest) by done.
  transitivity (Ok h : res error _, adv (at_ (enc_page_header h l ++ rest) 0) (page_header_length h));
    [|by rewrite (adv_at _ _ rest 0 (enc_page_header_length h l))].
  set (s := at_ (enc_page_header h l ++ rest) 0) in *. clearbody s.
  unfold enc_page_header in Hs. norm_app Hs. unfold readXLogPageHeader.
  do 5 parse_field. destruct h as [mg inf tl addr rem]. unfold page_header_length in *.
  cbn [Magic PageInfo TimeLineID PageAddress RemainingDataLen] in *. cbv zeta.
  match goal with H : isZero _ = false |- _ => rewrite H end.
  match goal with H : IsValid _ = true |- _ => rewrite H end. cbn [negb].
  destruct (IsLong _) eqn:El; cbn [Magic PageInfo TimeLineID PageAddress RemainingDataLen] in *.
  - unfold readXLogLongPageHeaderData. rewrite rbind_assoc. unfold rbind at 1.
    change [("systemID", 8%nat); ("segmentSize", 4%nat); ("xLogBlockSize", 4%nat)] with
      (zip ["systemID"; "segmentSize"; "xLogBlockSize"]
        ([(8%nat, SystemID l); (4%nat, SegmentSize l); (4%nat, XLogBlockSize l)].*1)).
    rewrite (ParseMultipleFields_enc _ _ _ _ Hs) by (done || by repeat constructor).
    unfold rbind, rret. by rewrite !adv_adv.
  - unfold rbind, rret. by rewrite !adv_adv.
Qed.

Lemma enc_records_length rs t : (length rs <= length (enc_records rs t))%nat.
Proof.
  induction rs as [|r0 rs IH]; cbn; [lia|]. rewrite !length_app.
  unfold enc_record at 1. rewrite length_app, enc_record_header_length. lia.
Qed.

(** The page parser on a header, the rest of the previous record and a body
    [X] the record loop turns into [out]. *)
Lemma parsePage_body parser h l rem X out :
  page_header_ok h l = true -> RemainingDataLen h = Z.of_nat (length rem) ->
  (length rem <= Z.to_nat WalPageSize)%nat ->
  (forall n, (n mod 8 = 0)%nat -> readXLogPage (S (length X)) (at_ X (n + length rem)) h rem [] = out) ->
  parsePage parser (enc_page_header h l ++ zeros (pad (page_header_length h)) ++ rem ++ X) =
    if hasCurrentRecordBeginning parser then
      match ParseXLogRecordFromBytes (currentRecordData parser ++ rem) with
      | Err err => NoPage err
      | Ok record => if isWALSwitch record then WholePage (mkPage h rem [] []) else out
      end
    else out.
Proof.
  intros Hh Hr Hl HX. unfold parsePage, NewAlignedReader.
  rewrite readXLogPageHeader_ok by done. rewrite ReadToAlignment_ok.
  assert (Z.to_nat (minUint32 (RemainingDataLen h) WalPageSize) = length rem) as ->.
  { unfold minUint32, WalPageSize in *. case_bool; bool_to_prop; lia. }
  set (n := (page_header_length h + pad (page_header_length h))%nat).
  assert (exists e, Read (at_ (rem ++ X) n) (length rem) =
    (rem, e, at_ X (n + length rem)) /\ (e = None \/ e = Some EOF)) as (e & -> & He).
  { unfold Read, AlignedReader_Reader, Read, bytesReader_Reader. cbn [arInner alignment alreadyRead].
    destruct (rem ++ X) eqn:E.
    - apply app_nil in E as [-> ->]. cbn. rewrite Nat.add_0_r. eauto.
    - rewrite <- E, take_app_length, drop_app_length. eauto. }
  replace (match e with Some e0 => _ | None => _ end) with false by (by destruct He; subst).
  rewrite Hr, Z.eqb_refl. cbn [negb arInner]. by rewrite HX by apply pad_aligns.
Qed.

Lemma parsePage_ok parser p r :
  page_ok p = true -> head_of r (psTail p) = true ->
  parsePage parser (enc_page p) =
    let page := mkPage (psHeader p) (psRemaining p) (psRecords p) (psTail p) in
    if hasCurrentRecordBeginning parser then
      match ParseXLogRecordFromBytes (currentRecordData parser ++ psRemaining p) with
      | Err err => NoPage err
      | Ok record =>
          if isWALSwitch record then WholePage (mkPage (psHeader p) (psRemaining p) [] [])
          else WholePage page
      end
    else WholePage page.
Proof.
  unfold page_ok. intros Hok Ht. bool_to_prop. unfold enc_page.
  apply parsePage_body; try done; try lia. intros n Hn.
  rewrite <- (pad_add n) by done. rewrite (readXLogPage_ok r); [done| |done|done].
  rewrite length_app. pose proof (enc_records_length (psRecords p) (psTail p)). lia.
Qed.

(** The last page written: whole records, then zeros to the end. *)
Definition enc_partial_page (p : PageSpec) (k : nat) : list byte :=
  enc_page (mkPageSpec (psHeader p) (psLong p) (psRemaining p) (psRecords p) (zeros k)).

Lemma parsePage_partial parser p k :
  page_ok p = true -> (0 < k)%nat -> hasCurrentRecordBeginning parser = false ->
  parsePage parser (enc_partial_page p k) =
  PartialPage (mkPage (psHeader p) (psRemaining p) (psRecords p) []).
Proof.
  unfold page_ok. intros Hok Hk Hb. bool_to_prop. unfold enc_partial_page, enc_page.
  cbn [psHeader psLong psRemaining psRecords psTail].
  erewrite parsePage_body; [by rewrite Hb|done|lia|lia|]. intros n Hn.
  rewrite <- (pad_add n) by done. rewrite length_app.
  pose proof (enc_records_length (psRecords p) (zeros k)).
  match goal with |- readXLogPage ?f _ _ _ _ = _ =>
    replace f with (length (psRecords p) + S (f - S (length (psRecords p))))%nat by lia end.
  edestruct readXLogPage_records as [n' ->]; [done|]. by apply readXLogPage_zeros.
Qed.
