(* ===== verification/WalFile.v ===== *)
(** * Block locations and WAL files

    [src/internal/walparser]: the block location codec, the extraction of
    block locations from records and from a WAL file read page by page, and
    the theorems that a parsed file yields exactly the records laid out in
    its pages. *)

From S2P Require Import Prelude GoIO WalRecord WalRecordEnc WalPage WalPageEnc.
Open Scope Z_scope.

(** ** [block_location_reader.go], [block_location_writer.go] *)

Section Locations.
Context {S : Type} `{Reader S}.

Definition ReadNextLocation : RM S BlockLocation :=
  fields <-- ParseMultipleFieldsFromReader
    [("SpcNode", 4%nat); ("DBNode", 4%nat); ("RelNode", 4%nat); ("BlockNo", 4%nat)] ;;
  match fields with
  | [spcNode; dbNode; relNode; blockNo] => rret (NewBlockLocation spcNode dbNode relNode blockNo)
  | _ => rfail ErrNoProgress
  end.

(** The loop of [ReadLocationsFrom]; each location takes 16 bytes. *)
Fixpoint readLocationsLoop (fuel : nat) (locations : list BlockLocation)
  : RM S (list BlockLocation) := fun s =>
  match fuel with
  | 0%nat => (Err ErrNoProgress, s)
  | Datatypes.S fuel =>
      match ReadNextLocation s with
      | (Err err, s) =>
          if bool_decide (Cause err = EOF) then (Ok locations, s) else (Err err, s)
      | (Ok location, s) =>
          if bool_decide (location = TerminalLocation) then (Ok locations, s)
          else readLocationsLoop fuel (locations ++ [location]) s
      end
  end.

Definition ReadLocationsFrom (fuel : nat) : RM S (list BlockLocation) :=
  readLocationsLoop fuel [].
End Locations.

(** Writing to an in-memory buffer, which does not fail. *)
Definition WriteLocation (location : BlockLocation) : list byte :=
  let numbersToWrite :=
    [SpcNode (RelationFileNode location); DBNode (RelationFileNode location);
     RelNode (RelationFileNode location); BlockNo location] in
  numbersToWrite ≫= le_enc 4.

Definition WriteLocationsTo (locations : list BlockLocation) : list byte :=
  locations ≫= WriteLocation.

(** ** [block_locations_util.go], [wal_file_page_reader.go] *)

Definition ExtractBlockLocations (records : list XLogRecord) : list BlockLocation :=
  records ≫= fun record =>
    if IsZero record then []
    else (fun block => Location (BlockHeader block)) <$> Blocks record.

Section WalFile.
Context {S : Type} `{Reader S}.

(** The page and whether the file ended. *)
Definition ReadPageData : RM S (option (list byte)) := fun s =>
  let '(page, e, s') := ReadFull s (Z.to_nat WalPageSize) in
  match e with
  | None => (Ok (Some page), s')
  | Some EOF => (Ok None, s')
  | Some e => (Err (WithStack e), s')
  end.

(** The loop of [ExtractLocationsFromWalFile]; each page takes 8192 bytes.
    Partial and zero pages are not errors. *)
Fixpoint extractLoop (fuel : nat) (parser : WalParser) (locations : list BlockLocation) (s : S)
  : res error (list BlockLocation) * WalParser :=
  match fuel with
  | 0%nat => (Err ErrNoProgress, parser)
  | Datatypes.S fuel =>
      match ReadPageData s with
      | (Err err, _) => (Err err, parser)
      | (Ok None, _) => (Ok locations, parser)
      | (Ok (Some data), s) =>
          let '((_, records, err), parser) := ParseRecordsFromPage parser data in
          match err with
          | None | Some PartialPageError | Some ZeroPageError =>
              extractLoop fuel parser (locations ++ ExtractBlockLocations records) s
          | Some err => (Err err, parser)
          end
      end
  end.

Definition ExtractLocationsFromWalFile (fuel : nat) (parser : WalParser) (walFile : S)
  : res error (list BlockLocation) * WalParser := extractLoop fuel parser [] walFile.
End WalFile.

(** ** Round trips *)

Lemma WriteLocation_fields l :
  WriteLocation l = enc_fields [(4%nat, SpcNode (RelationFileNode l));
    (4%nat, DBNode (RelationFileNode l)); (4%nat, RelNode (RelationFileNode l));
    (4%nat, BlockNo l)].
Proof. reflexivity. Qed.

Lemma WriteLocation_length l : length (WriteLocation l) = 16%nat.
Proof. reflexivity. Qed.

Section LocationLemmas.
Context {S : Type} `{LawfulReader S}.
Implicit Types s : S.

Lemma ReadNextLocation_ok l rest s :
  location_ok l = true -> avail s = WriteLocation l ++ rest ->
  ReadNextLocation s = (Ok l, adv s 16).
Proof.
  unfold location_ok, node_ok. intros Hl Hs. bool_to_prop. rewrite WriteLocation_fields in Hs.
  unfold ReadNextLocation, rbind.
  change [("SpcNode", 4%nat); ("DBNode", 4%nat); ("RelNode", 4%nat); ("BlockNo", 4%nat)] with
    (zip ["SpcNode"; "DBNode"; "RelNode"; "BlockNo"]
      ([(4%nat, SpcNode (RelationFileNode l)); (4%nat, DBNode (RelationFileNode l));
        (4%nat, RelNode (RelationFileNode l)); (4%nat, BlockNo l)].*1)).
  rewrite (ParseMultipleFields_enc _ _ _ _ Hs) by (done || by repeat constructor).
  by destruct l as [[] ?].
Qed.

Lemma readLocationsLoop_ok ls : forall fuel acc rest s,
  (length ls < fuel)%nat ->
  forallb location_ok ls = true -> TerminalLocation ∉ ls ->
  avail s = WriteLocationsTo ls ++ WriteLocation TerminalLocation ++ rest ->
  readLocationsLoop fuel acc s = (Ok (acc ++ ls), adv s (length (WriteLocationsTo ls) + 16)).
Proof.
  induction ls as [|l ls IH]; intros [|fuel] acc rest s Hf Hok Hnt Hs; cbn in Hf; try lia;
    cbn [readLocationsLoop].
  - rewrite (ReadNextLocation_ok TerminalLocation rest) by done.
    rewrite app_nil_r. by case_bool_decide.
  - cbn in Hok. apply andb_true_iff in Hok as [Hl Hls].
    unfold WriteLocationsTo in *. cbn [mbind list_bind] in *. norm_app Hs.
    rewrite (ReadNextLocation_ok l _ _ Hl Hs).
    rewrite bool_decide_eq_false_2 by set_solver.
    apply (fun H => avail_adv_app _ _ _ _ H (WriteLocation_length l)) in Hs.
    rewrite (IH _ _ rest) by (done || lia || set_solver).
    by rewrite <- app_assoc, adv_adv, length_app, WriteLocation_length.
Qed.

(** At the end of the input the locations read so far are returned. *)
Lemma readLocationsLoop_eof ls : forall fuel acc s,
  (length ls < fuel)%nat ->
  forallb location_ok ls = true -> TerminalLocation ∉ ls ->
  avail s = WriteLocationsTo ls ->
  readLocationsLoop fuel acc s = (Ok (acc ++ ls), adv s (length (WriteLocationsTo ls))).
Proof.
  induction ls as [|l ls IH]; intros [|fuel] acc s Hf Hok Hnt Hs; cbn in Hf; try lia;
    cbn [readLocationsLoop].
  - assert (ReadNextLocation s = (Err (Wrapf "SpcNode" EOF), s)) as ->.
    { unfold ReadNextLocation, rbind. cbn [ParseMultipleFieldsFromReader].
      unfold rbind. by rewrite ParseFrom_eof by (done || lia). }
    rewrite app_nil_r, adv_0. by case_bool_decide.
  - cbn in Hok. apply andb_true_iff in Hok as [Hl Hls].
    unfold WriteLocationsTo in *. cbn [mbind list_bind] in *.
    rewrite (ReadNextLocation_ok l _ _ Hl Hs).
    rewrite bool_decide_eq_false_2 by set_solver.
    apply (fun H => avail_adv_app _ _ _ _ H (WriteLocation_length l)) in Hs.
    rewrite IH by (done || lia || set_solver).
    by rewrite <- app_assoc, adv_adv, length_app, WriteLocation_length.
Qed.

Lemma LoadWalParser_Save p bs rest s :
  Save p = Ok bs -> hasCurrentRecordBeginning p = (0 <? length (currentRecordData p))%nat ->
  Z.of_nat (length (currentRecordData p)) < 2 ^ 32 ->
  avail s = bs ++ rest ->
  LoadWalParser s = (Ok p, adv s (length bs)).
Proof.
  unfold Save. intros Hp Hb Hl Hs. case_bool; [done|].
  match type of Hp with Ok ?x = _ => assert (bs = x) as -> by congruence end.
  rewrite wrap_id in * by (unfold in_width; lia). norm_app Hs.
  unfold LoadWalParser.
  assert (fits 4 (Z.of_nat (length (currentRecordData p))) = true)
    by (apply fits_in_width; unfold in_width; cbn; lia).
  parse_field. erewrite step_readfull by (exact Hs || lia).
  unfold rret. rewrite <- Hb, adv_adv. by destruct p.
Qed.
End LocationLemmas.

(** ** Parsing a sequence of pages *)

(** The parser holding the bytes [cur] of an unfinished record. *)
Definition parser_at (cur : list byte) : WalParser := mkWalParser cur (0 <? length cur)%nat.

(** A page whose body is entirely the middle of a long record. *)
Definition middle_ok (p : PageSpec) : bool :=
  page_header_ok (psHeader p) (psLong p) &&
  (Z.of_nat (length (psRemaining p)) <? RemainingDataLen (psHeader p)) &&
  (length (psRemaining p) <=? Z.to_nat WalPageSize)%nat && (0 <? length (psRemaining p))%nat.

Definition enc_middle (p : PageSpec) : list byte :=
  enc_page_header (psHeader p) (psLong p) ++ zeros (pad (page_header_length (psHeader p))) ++
  psRemaining p.

(** [wal_pages cur pages records rest]: from the unfinished record [cur] the
    pages hold [records] and leave [rest] unfinished. *)
Inductive wal_pages : list byte -> list (list byte) -> list XLogRecord -> list byte -> Prop :=
| wp_nil cur : wal_pages cur [] [] cur
| wp_start p r ps rs rest :
    page_ok p = true -> head_of r (psTail p) = true ->
    length (enc_page p) = Z.to_nat WalPageSize ->
    wal_pages (psTail p) ps rs rest ->
    wal_pages [] (enc_page p :: ps) (psRecords p ++ rs) rest
| wp_finish cur p r r' ps rs rest :
    cur <> [] ->
    page_ok p = true -> head_of r (psTail p) = true ->
    length (enc_page p) = Z.to_nat WalPageSize ->
    cur ++ psRemaining p = enc_record r' -> record_ok r' = true -> isWALSwitch r' = false ->
    wal_pages (psTail p) ps rs rest ->
    wal_pages cur (enc_page p :: ps) (r' :: psRecords p ++ rs) rest
| wp_middle cur p ps rs rest :
    middle_ok p = true ->
    length (enc_middle p) = Z.to_nat WalPageSize ->
    cur <> [] ->
    wal_pages (cur ++ psRemaining p) ps rs rest ->
    wal_pages cur (enc_middle p :: ps) rs rest.

Lemma parse_start p r :
  page_ok p = true -> head_of r (psTail p) = true ->
  ParseRecordsFromPage (parser_at []) (enc_page p) =
  ((psRemaining p, psRecords p, None), parser_at (psTail p)).
Proof.
  intros Hp Hr. unfold ParseRecordsFromPage. rewrite (parsePage_ok _ p r) by done.
  unfold page_ok in Hp. bool_to_prop. unfold finishPage. cbn.
  by rewrite (proj2 (Z.ltb_ge _ _)) by lia.
Qed.

Lemma parse_finish cur p r r' :
  cur <> [] -> page_ok p = true -> head_of r (psTail p) = true ->
  cur ++ psRemaining p = enc_record r' -> record_ok r' = true -> isWALSwitch r' = false ->
  ParseRecordsFromPage (parser_at cur) (enc_page p) =
  (([], r' :: psRecords p, None), parser_at (psTail p)).
Proof.
  intros Hc Hp Hr Hcr Hr' Hsw. unfold ParseRecordsFromPage.
  rewrite (parsePage_ok _ p r) by done. unfold page_ok in Hp. bool_to_prop.
  destruct cur as [|b cur]; [done|]. unfold finishPage. cbn -[app].
  unfold concatByteSlices. rewrite Hcr.
  pose proof (ParseXLogRecordFromBytes_enc r' [] Hr') as Hpr. rewrite app_nil_r in Hpr.
  rewrite Hpr, Hsw. cbn -[app]. rewrite Hcr, (proj2 (Z.ltb_ge _ _)) by lia.
  destruct (record_total _ Hr') as (Hh & Ht & _).
  unfold enc_record at 1. rewrite (readXLogRecordHeader_enc (Header r') (enc_body r')) by done.
  cbn [fst]. rewrite wrap_id, Ht, Z.eqb_refl.
  - cbn. by rewrite Hpr.
  - unfold header_ok, fits in Hh. bool_to_prop. unfold in_width. cbn in *. lia.
Qed.

Lemma parse_middle cur p :
  cur <> [] -> middle_ok p = true ->
  ParseRecordsFromPage (parser_at cur) (enc_middle p) =
  (([], [], None), parser_at (cur ++ psRemaining p)).
Proof.
  unfold middle_ok. intros Hc Hp. bool_to_prop.
  unfold ParseRecordsFromPage, parsePage, enc_middle, NewAlignedReader.
  rewrite readXLogPageHeader_ok by done. rewrite ReadToAlignment_ok.
  set (n := (page_header_length (psHeader p) + pad (page_header_length (psHeader p)))%nat).
  assert (Read (at_ (psRemaining p) n)
      (Z.to_nat (minUint32 (RemainingDataLen (psHeader p)) WalPageSize)) =
    (psRemaining p, None, at_ [] (n + length (psRemaining p)))) as ->.
  { unfold Read, AlignedReader_Reader, Read, bytesReader_Reader. cbn [arInner alignment alreadyRead].
    assert (length (psRemaining p) <=
      Z.to_nat (minUint32 (RemainingDataLen (psHeader p)) WalPageSize))%nat as Hm
      by (unfold minUint32, WalPageSize in *; case_bool; bool_to_prop; lia).
    rewrite take_ge, drop_ge by done. destruct (psRemaining p); [cbn in *; lia|done]. }
  cbv iota. rewrite (proj2 (Z.eqb_neq _ _)) by lia. cbn [negb].
  unfold finishPage. cbn [PrevRecordTrailingData PHeader].
  rewrite (proj2 (Z.ltb_lt _ _)) by done.
  unfold parser_at, concatByteSlices. cbn. do 2 f_equal.
  destruct cur as [|b cur]; [done|]. done.
Qed.

Section WalFileLemmas.
Context {S : Type} `{LawfulReader S}.

Lemma ReadPageData_ok page rest (s : S) :
  avail s = page ++ rest -> length page = Z.to_nat WalPageSize ->
  ReadPageData s = (Ok (Some page), adv s (length page)).
Proof.
  intros Hs Hl. unfold ReadPageData. rewrite ReadFull_ok by (rewrite Hs; len).
  by rewrite Hs, take_app_length', Hl by done.
Qed.

Lemma extractLoop_ok cur pages rs rest : wal_pages cur pages rs rest ->
  forall fuel acc (s : S), (length pages < fuel)%nat -> avail s = concat pages ->
  extractLoop fuel (parser_at cur) acc s =
  (Ok (acc ++ ExtractBlockLocations rs), parser_at rest).
Proof.
  assert (Hex : forall a b, ExtractBlockLocations (a ++ b) =
    ExtractBlockLocations a ++ ExtractBlockLocations b).
  { intros. unfold ExtractBlockLocations. apply bind_app. }
  induction 1; intros [|fuel] acc s Hf Hs; cbn in Hf; try lia; cbn [extractLoop concat] in *.
  - unfold ReadPageData. rewrite ReadFull_eof by (done || (unfold WalPageSize; lia)).
    by rewrite app_nil_r.
  - rewrite (ReadPageData_ok _ _ _ Hs) by done. erewrite parse_start by done.
    rewrite IHwal_pages by (lia || by eapply avail_adv_app).
    by rewrite Hex, app_assoc.
  - rewrite (ReadPageData_ok _ _ _ Hs) by done. erewrite parse_finish by done.
    rewrite IHwal_pages by (lia || by eapply avail_adv_app).
    change (r' :: psRecords p ++ rs) with ((r' :: psRecords p) ++ rs).
    by rewrite Hex, app_assoc.
  - rewrite (ReadPageData_ok _ _ _ Hs) by done. rewrite parse_middle by done.
    rewrite IHwal_pages by (lia || by eapply avail_adv_app).
    by rewrite app_nil_r.
Qed.
End WalFileLemmas.
