(* ===== verification/WalTotal.v ===== *)
(** * The parsers' loops end

    The loops of the record parser, the page parser and the file readers are
    modelled with fuel. Here it is shown that the fuel they are given is
    enough: no run ends with [ErrNoProgress]. *)

From S2P Require Import Prelude GoIO WalRecord WalRecordEnc WalRecordSound WalPage WalFile.
Import BlockHeaderOps.
Open Scope Z_scope.

(** [m] never fails for want of fuel. *)
Definition no_fuel {S A} (m : RM S A) : Prop :=
  forall s e s', m s = (Err e, s') -> Cause e <> ErrNoProgress.

(** [m] never gives bytes back to a shrinkable reader. *)
Definition mono {S A} (m : RM (ShrinkableReader S) A) : Prop :=
  forall r x r', m r = (Ok x, r') -> (dataRemained r' <= dataRemained r)%nat.

Create HintDb fuel discriminated.

Section Rules.
Context {S : Type} `{LawfulReader S}.

Lemma nf_bind {A B} (m : RM S A) (f : A -> RM S B) :
  no_fuel m -> (forall a, no_fuel (f a)) -> no_fuel (rbind m f).
Proof.
  intros Hm Hf s e s'. unfold rbind. destruct (m s) as [[a|e0] s1] eqn:E.
  - apply Hf.
  - intros [= <- <-]. by eapply Hm.
Qed.

Lemma nf_ret {A} (a : A) : no_fuel (S:=S) (rret a).
Proof. intros s e s'. done. Qed.

Lemma nf_fail {A} e : Cause e <> ErrNoProgress -> no_fuel (S:=S) (A:=A) (rfail e).
Proof. intros Hc s e' s' [= <- _]. done. Qed.

Lemma nf_check c :
  (forall e, c = Some e -> Cause e <> ErrNoProgress) -> no_fuel (S:=S) (rcheck c).
Proof. intros Hc s e s'. destruct c; [|done]. intros [= <- _]. by apply Hc. Qed.

Lemma ReadFull_no_fuel (s : S) n bs e s' :
  ReadFull s n = (bs, Some e, s') -> e = EOF \/ e = ErrUnexpectedEOF.
Proof.
  destruct (Nat.le_gt_cases n (length (avail s))) as [Hle|Hgt].
  - by rewrite ReadFull_ok by done.
  - destruct (decide (avail s = [])) as [E|E].
    + rewrite ReadFull_eof by (done || lia). intros [= _ <- _]. by left.
    + rewrite ReadFull_short by (done || lia). intros [= _ <- _]. by right.
Qed.

Lemma nf_parse name w : no_fuel (S:=S) (ParseFrom name w).
Proof.
  intros s e s'. unfold ParseFrom. destruct (ReadFull s w) as [[bs [e0|]] s1] eqn:E; [|done].
  intros [= <- _]. cbn. apply ReadFull_no_fuel in E as [-> | ->]; done.
Qed.

Lemma nf_readfull n : no_fuel (S:=S) (ReadFullM n).
Proof.
  intros s e s'. unfold ReadFullM. destruct (ReadFull s n) as [[bs [e0|]] s1] eqn:E; [|done].
  intros [= <- _]. cbn. apply ReadFull_no_fuel in E as [-> | ->]; done.
Qed.
End Rules.

#[export] Hint Resolve nf_bind nf_ret nf_fail nf_check nf_parse nf_readfull : fuel.

(** Break a parser into its steps. *)
Ltac nf :=
  repeat first
  [ apply nf_bind; [|intros]
  | apply nf_ret
  | apply nf_parse
  | apply nf_readfull
  | (apply nf_fail; done)
  | case_bool
  | case_match ].

Section ShrinkRules.
Context {S : Type} `{LawfulReader S}.

Lemma nf_shrink n : no_fuel (Shrink (S:=S) n).
Proof. intros s e s'. unfold Shrink. case_bool; [|done]. by intros [= <- _]. Qed.

Lemma mono_bind {A B} (m : RM (ShrinkableReader S) A) (f : A -> RM (ShrinkableReader S) B) :
  mono m -> (forall a, mono (f a)) -> mono (rbind m f).
Proof.
  intros Hm Hf r x r' Hr. apply rbind_inv in Hr as (a & r1 & H1 & H2).
  apply Hm in H1. apply Hf in H2. lia.
Qed.

Lemma mono_ret {A} (a : A) : mono (S:=S) (rret a).
Proof. intros r x r' Hr. apply rret_inv in Hr as [_ ->]. done. Qed.

Lemma mono_fail {A} e : mono (S:=S) (A:=A) (rfail e).
Proof. intros r x r' Hr. done. Qed.

Lemma mono_check c : mono (S:=S) (rcheck c).
Proof. intros r x r' Hr. apply rcheck_inv in Hr as [_ ->]. done. Qed.

Lemma mono_parse name w : mono (S:=S) (ParseFrom name w).
Proof. intros r x r' Hr. apply ParseFrom_inv in Hr as [_ ->]. cbn. lia. Qed.

Lemma mono_shrink n : mono (Shrink (S:=S) n).
Proof. intros r x r'. unfold Shrink. case_bool; [done|]. intros [= _ <-]. cbn. lia. Qed.
End ShrinkRules.

Ltac mono :=
  repeat first
  [ apply mono_bind; [|intros]
  | apply mono_ret
  | apply mono_parse
  | apply mono_shrink
  | apply mono_check
  | apply mono_fail
  | case_bool
  | case_match ].

(** ** Records *)

(** The consistency checks' errors. *)
Lemma header_check_error h e :
  XLogRecordHeaderOps.checkConsistency h = Some e -> Cause e <> ErrNoProgress.
Proof.
  unfold XLogRecordHeaderOps.checkConsistency,
    XLogRecordHeaderOps.checkTotalRecordLengthConsistency,
    XLogRecordHeaderOps.checkResourceManagerIDValidity.
  repeat case_bool; by intros [= <-].
Qed.

Lemma image_check_error h e :
  ImageHeaderOps.checkConsistency h = Some e -> Cause e <> ErrNoProgress.
Proof.
  unfold ImageHeaderOps.checkConsistency, ImageHeaderOps.checkHoleStateConsistency,
    ImageHeaderOps.checkLengthConsistency.
  repeat case_bool; by intros [= <-].
Qed.

Lemma block_check_error h e :
  checkDataStateConsistency h = Some e -> Cause e <> ErrNoProgress.
Proof. unfold checkDataStateConsistency. case_bool; [|done]. by intros [= <-]. Qed.

Section RecordTotal.
Context {S : Type} `{LawfulReader S}.

Lemma nf_record_header : no_fuel (S:=S) readXLogRecordHeader.
Proof. unfold readXLogRecordHeader. nf. apply nf_check, header_check_error. Qed.

Lemma nf_block_header last id m : no_fuel (readXLogRecordBlockHeader (S:=S) last id m).
Proof.
  unfold readXLogRecordBlockHeader, readXLogRecordBlockImageHeader, readBlockLocation,
    readRelFileNode.
  nf; try apply nf_shrink; apply nf_check; intros; eauto using block_check_error, image_check_error.
Qed.

Lemma mono_block_header last id m : mono (readXLogRecordBlockHeader (S:=S) last id m).
Proof.
  unfold readXLogRecordBlockHeader, readXLogRecordBlockImageHeader, readBlockLocation,
    readRelFileNode. mono.
Qed.

(** [no_fuel] from the states with at most [n] bytes left. *)
Definition no_fuel_at {A} (n : nat) (m : RM (ShrinkableReader S) A) : Prop :=
  forall r e r', (dataRemained r <= n)%nat -> m r = (Err e, r') -> Cause e <> ErrNoProgress.

Lemma nf_at_bind {A B} n (m : RM (ShrinkableReader S) A) (f : A -> RM (ShrinkableReader S) B) :
  no_fuel m -> mono m -> (forall a, no_fuel_at n (f a)) -> no_fuel_at n (rbind m f).
Proof.
  intros Hm Hmono Hf r e r' Hr. unfold rbind. destruct (m r) as [[a|e0] r1] eqn:E.
  - apply Hf. apply Hmono in E. lia.
  - intros [= <- _]. by eapply Hm.
Qed.

Lemma blockHeaderLoop_fuel fuel : forall record last m,
  no_fuel_at fuel (blockHeaderLoop (S:=S) fuel record last m).
Proof.
  induction fuel as [|fuel IH]; intros record last m r e r' Hf; cbn [blockHeaderLoop].
  - by replace (dataRemained r) with 0%nat by lia.
  - case_bool; [done|]. bool_to_prop. unfold rbind at 1.
    destruct (ParseFrom "blockId" 1 r) as [[id|e0] r0] eqn:E0.
    2:{ intros [= <- _]. exact (nf_parse _ _ _ _ _ E0). }
    assert (dataRemained r0 <= fuel)%nat as Hr0.
    { apply ParseFrom_inv in E0 as [_ ->]. cbn. lia. }
    revert Hr0. clear E0. revert r0 e r'. refine (_ : no_fuel_at fuel _).
    repeat case_bool;
      (apply nf_at_bind;
        [first [apply nf_parse | apply nf_block_header]
        |first [apply mono_parse | apply mono_block_header]|intros a]).
    + apply nf_at_bind; [apply nf_shrink|apply mono_shrink|intros _; apply IH].
    + apply nf_at_bind; [apply nf_shrink|apply mono_shrink|intros _; apply IH].
    + apply IH.
    + destruct a as [[bh mx] lst]. apply IH.
Qed.

Lemma nf_data_and_images bs : no_fuel (S:=S) (readXLogRecordBlockDataAndImages bs).
Proof. induction bs as [|b bs IH]; cbn [readXLogRecordBlockDataAndImages]; nf; exact IH. Qed.

Lemma nf_record_body h : no_fuel (S:=S) (readXLogRecordBody h).
Proof.
  unfold readXLogRecordBody, readXLogRecordMainData. nf; [|apply nf_data_and_images].
  intros s e s'. unfold readXLogRecordBlockHeaderPart.
  destruct (blockHeaderLoop _ _ _ _ _) as [x r] eqn:E. intros [= -> _].
  by eapply blockHeaderLoop_fuel in E.
Qed.
End RecordTotal.

Lemma ParseXLogRecordFromBytes_fuel data e :
  ParseXLogRecordFromBytes data = Err e -> Cause e <> ErrNoProgress.
Proof.
  unfold ParseXLogRecordFromBytes. destruct (rbind _ _ _) as [x s'] eqn:E. cbn. intros ->.
  revert E. apply nf_bind; [apply nf_record_header|intros; apply nf_record_body].
Qed.

(** ** Pages *)

Lemma reader_length (r : PageReader) n bs e r' :
  Read r n = (bs, e, r') -> (length bs + length (arInner r') = length (arInner r))%nat.
Proof.
  destruct r as [i a k]. unfold Read, AlignedReader_Reader, Read, bytesReader_Reader. cbn.
  destruct i as [|b i]; intros [= <- _ <-]; cbn [arInner]; [done|].
  by rewrite <- length_app, take_drop.
Qed.

Lemma Read_error (r : PageReader) n bs e r' : Read r n = (bs, Some e, r') -> e = EOF.
Proof.
  destruct r as [i a k]. unfold Read, AlignedReader_Reader, Read, bytesReader_Reader. cbn.
  by destruct i; intros [= _ <- _].
Qed.

Lemma ReadToAlignment_length r x r' :
  ReadToAlignment (S:=bytesReader) r = (x, r') -> (length (arInner r') <= length (arInner r))%nat.
Proof.
  unfold ReadToAlignment. case_bool; [by intros [= _ <-]|].
  destruct (Read r _) as [[bs e] r1] eqn:E. apply reader_length in E.
  destruct e; intros [= _ <-]; lia.
Qed.

Lemma ReadSome_inv n r bs r' :
  ReadSome n r = (Ok bs, r') -> (length bs + length (arInner r') = length (arInner r))%nat.
Proof.
  unfold ReadSome. destruct (Read r n) as [[bs0 e] r1] eqn:E. apply reader_length in E.
  destruct e as [[]|]; intros [= <- <-]; lia.
Qed.

Lemma nf_read_some n : no_fuel (ReadSome n).
Proof.
  intros r e r'. unfold ReadSome. destruct (Read r n) as [[bs0 e0] r1] eqn:E.
  destruct e0 as [e0|]; [|done]. apply Read_error in E as ->. done.
Qed.

Lemma nf_alignment : no_fuel (S:=PageReader) ReadToAlignment.
Proof.
  intros r e r'. unfold ReadToAlignment. case_bool; [done|].
  destruct (Read r _) as [[bs0 e0] r1] eqn:E. destruct e0 as [e0|]; [|done].
  apply Read_error in E as ->. by intros [= <- _].
Qed.

Lemma nf_try_record : no_fuel tryReadXLogRecordData.
Proof.
  intros r e r'. unfold tryReadXLogRecordData.
  destruct (ReadToAlignment r) as [[u|e0] r0] eqn:E0.
  - apply nf_bind; [apply nf_read_some|]. intros hd. nf; try apply nf_read_some.
    apply nf_fail. destruct (readXLogRecordHeader (hd : bytesReader)) as [x s] eqn:Ex.
    match goal with H : fst _ = Err _ |- _ => cbn in H; subst x end.
    exact (nf_record_header _ _ _ Ex).
  - case_bool; [done|]. intros [= <- _]. exact (nf_alignment _ _ _ E0).
Qed.

(** A whole record takes bytes from the page. *)
Lemma tryRead_progress r data r' :
  tryReadXLogRecordData r = (Ok (data, true), r') ->
  (length (arInner r') + 24 <= length (arInner r))%nat.
Proof.
  unfold tryReadXLogRecordData. destruct (ReadToAlignment r) as [[u|e0] r0] eqn:E0.
  2:{ by case_bool. }
  apply ReadToAlignment_length in E0. intros Hr. rm_inv.
  match goal with H : ReadSome _ r0 = _ |- _ => apply ReadSome_inv in H end.
  case_bool.
  - case_bool; rm_inv; simplify_eq.
  - case_match; rm_inv. simplify_eq.
    match goal with H : ReadSome _ _ = _ |- _ => apply ReadSome_inv in H end.
    bool_to_prop. unfold XLogRecordHeaderSize in *. lia.
Qed.

(** A page that is not delivered does not fail for want of fuel. *)
Definition page_fuel_ok (x : page_result) : Prop :=
  forall e, x = NoPage e -> Cause e <> ErrNoProgress.

Lemma checkPartialPage_fuel (r : PageReader) page e :
  Cause e <> ErrNoProgress -> page_fuel_ok (checkPartialPage r page e).
Proof.
  intros He e'. unfold checkPartialPage. destruct e; try (intros [= <-]; done).
  destruct (ReadAll_ok (S (length (arInner r))) r) as (s' & Hs & _); [cbn; lia|].
  rewrite Hs. case_bool; [done|]. by intros [= <-].
Qed.

Lemma readXLogPage_fuel fuel : forall (r : PageReader) h rem acc,
  (length (arInner r) < fuel)%nat -> page_fuel_ok (readXLogPage fuel r h rem acc).
Proof.
  induction fuel as [|fuel IH]; intros r h rem acc Hf; [lia|]. cbn [readXLogPage].
  destruct (tryReadXLogRecordData r) as [[[data [|]]|e0] r0] eqn:E0.
  - destruct (ParseXLogRecordFromBytes data) as [record|e1] eqn:E1.
    + case_bool; [done|]. apply IH. apply tryRead_progress in E0. lia.
    + apply checkPartialPage_fuel. by eapply ParseXLogRecordFromBytes_fuel.
  - done.
  - apply checkPartialPage_fuel. exact (nf_try_record _ _ _ E0).
Qed.

Lemma nf_page_header : no_fuel (S:=PageReader) readXLogPageHeader.
Proof.
  unfold readXLogPageHeader, readXLogLongPageHeaderData.
  nf. all: cbn [ParseMultipleFieldsFromReader]; nf.
Qed.

Lemma parsePage_fuel parser data : page_fuel_ok (parsePage parser data).
Proof.
  unfold parsePage. destruct (readXLogPageHeader _) as [[h|e0] r0] eqn:E0.
  - destruct (ReadToAlignment r0) as [[u|e1] r1] eqn:E1.
    2:{ intros ? [= <-]. exact (nf_alignment _ _ _ E1). }
    destruct (Read r1 _) as [[rem e2] r2] eqn:E2. destruct e2 as [e2|].
    + apply Read_error in E2 as ->. cbv iota. cbn [Cause]. rewrite bool_decide_eq_true_2 by done.
      cbn [negb]. case_bool; [done|]. repeat case_match; try done;
        try (apply readXLogPage_fuel; lia). intros ? [= <-].
      by eapply ParseXLogRecordFromBytes_fuel.
    + cbv iota. case_bool; [done|]. repeat case_match; try done;
        try (apply readXLogPage_fuel; lia). intros ? [= <-].
      by eapply ParseXLogRecordFromBytes_fuel.
  - apply nf_page_header in E0. destruct e0; try (intros ? [= <-]; done).
    destruct (ReadAll_ok (S (length (arInner r0))) r0) as (s' & Hs & _); [cbn; lia|].
    rewrite Hs. case_bool; by intros ? [= <-].
Qed.

Lemma ParseRecordsFromPage_fuel parser data rest rs e parser' :
  ParseRecordsFromPage parser data = ((rest, rs, Some e), parser') -> Cause e <> ErrNoProgress.
Proof.
  unfold ParseRecordsFromPage. pose proof (parsePage_fuel parser data) as Hp.
  assert (forall page e0, (forall e1, e0 = Some e1 -> Cause e1 <> ErrNoProgress) ->
    finishPage parser page e0 = ((rest, rs, Some e), parser') -> Cause e <> ErrNoProgress) as Hfin.
  { intros page e0 He0. unfold finishPage. repeat case_bool;
      try (intros [= _ _ Hee _]; by apply He0).
    destruct (readXLogRecordHeader _) as [[h|e1] s1] eqn:E1; cbn [fst].
    2:{ intros [= _ _ <- _]. exact (nf_record_header _ _ _ E1). }
    case_bool; [by intros [= _ _ <- _]|].
    destruct (ParseXLogRecordFromBytes _) eqn:E2; intros [= _ _ Hee _].
    - by apply He0.
    - rewrite <- Hee. by eapply ParseXLogRecordFromBytes_fuel. }
  destruct (parsePage parser data) as [page|page|e0]; [apply Hfin; done|apply Hfin|].
  - by intros e1 [= <-].
  - intros [= _ _ <- _]. by apply Hp.
Qed.

(** ** Files *)

Section FileTotal.
Context {S : Type} `{LawfulReader S}.

Lemma ParseFrom_inv' name w (s : S) x s' :
  ParseFrom name w s = (Ok x, s') -> (w <= length (avail s))%nat /\ s' = adv s w.
Proof.
  unfold ParseFrom. destruct (ReadFull s w) as [[bs [e|]] s1] eqn:E; [done|].
  intros [= _ <-]. by apply ReadFull_inv in E as (? & _ & ->).
Qed.

Lemma ReadPageData_inv (s : S) x s' :
  ReadPageData s = (x, s') ->
  match x with
  | Ok (Some page) => (length (avail s') + Z.to_nat WalPageSize = length (avail s))%nat
  | Ok None => True
  | Err e => Cause e <> ErrNoProgress
  end.
Proof.
  unfold ReadPageData. destruct (ReadFull s _) as [[page e] s1] eqn:E.
  destruct e as [e|].
  - apply ReadFull_no_fuel in E as [-> | ->]; by intros [= <- _].
  - apply ReadFull_inv in E as (Hl & -> & ->). intros [= <- <-].
    rewrite avail_adv, length_drop. lia.
Qed.

Lemma extractLoop_fuel fuel : forall parser acc (s : S) e parser',
  (length (avail s) < fuel)%nat ->
  extractLoop fuel parser acc s = (Err e, parser') -> Cause e <> ErrNoProgress.
Proof.
  induction fuel as [|fuel IH]; intros parser acc s e parser' Hf; [lia|]. cbn [extractLoop].
  destruct (ReadPageData s) as [x s1] eqn:E. apply ReadPageData_inv in E.
  destruct x as [[page|]|e0]; [|done|by intros [= <- _]].
  assert (length (avail s1) < fuel)%nat by (unfold WalPageSize in *; lia).
  destruct (ParseRecordsFromPage parser page) as [[[rest rs] [e0|]] p1] eqn:Ep; [|by apply IH].
  apply ParseRecordsFromPage_fuel in Ep.
  destruct e0; try (by apply IH); intros [= <- _]; done.
Qed.

Lemma ReadNextLocation_inv (s : S) x s' :
  ReadNextLocation s = (x, s') ->
  match x with
  | Ok _ => s' = adv s 16 /\ (16 <= length (avail s))%nat
  | Err e => Cause e <> ErrNoProgress
  end.
Proof.
  unfold ReadNextLocation. cbn [ParseMultipleFieldsFromReader]. unfold rbind, rret.
  repeat match goal with |- context [ParseFrom ?n ?w ?t] =>
    let E := fresh "E" in destruct (ParseFrom n w t) as [[?|?] ?] eqn:E;
      [apply ParseFrom_inv' in E as (? & ->)
      |apply nf_parse in E; by intros [= <- _]] end.
  intros [= <- <-]. rewrite !adv_adv in *. rewrite !avail_adv, !length_drop in *. split; [done|lia].
Qed.

Lemma readLocationsLoop_fuel fuel : forall acc (s : S) e s',
  (length (avail s) < fuel)%nat ->
  readLocationsLoop fuel acc s = (Err e, s') -> Cause e <> ErrNoProgress.
Proof.
  induction fuel as [|fuel IH]; intros acc s e s' Hf; [lia|]. cbn [readLocationsLoop].
  destruct (ReadNextLocation s) as [[l|e0] s1] eqn:E.
  - case_bool; [done|]. apply IH. apply ReadNextLocation_inv in E as [-> E].
    rewrite avail_adv, length_drop. lia.
  - case_bool; [done|]. intros [= <- _]. by apply ReadNextLocation_inv in E.
Qed.
End FileTotal.
