(* ===== verification/WalTheorems.v ===== *)
(** * The WAL parser: theorems

    What [src/internal/walparser] guarantees: records and whole files of
    records are recovered exactly, whatever is accepted is consistent, a page
    that cannot be parsed leaves the parser as it was, and every loop ends. *)

From S2P Require Import Prelude GoIO WalRecord WalRecordEnc.
From S2P Require Import WalRecordSound WalPage WalPageEnc WalFile WalTotal.
Open Scope Z_scope.

(** ** The parser's state *)

(** A parser that holds the beginning of a record holds some of its bytes. *)
Definition parser_wf (p : WalParser) : Prop :=
  hasCurrentRecordBeginning p = true -> currentRecordData p <> [].

Lemma setCurrentRecordData_wf p d : parser_wf (setCurrentRecordData p d).
Proof. intros H. by destruct d. Qed.

(** The records of a page are results of the record parser. *)
Definition page_sound (x : page_result) : Prop :=
  match x with
  | WholePage page | PartialPage page => Forall (fun r => parsed_ok r = true) (Records page)
  | NoPage _ => True
  end.

Lemma checkPartialPage_sound r page e :
  Forall (fun r => parsed_ok r = true) (Records page) -> page_sound (checkPartialPage r page e).
Proof.
  intros Hp. unfold checkPartialPage. destruct e; try done.
  destruct (ReadAll _ r) as [[bs [e|]] r']; [done|]. by case_bool.
Qed.

Lemma readXLogPage_sound fuel : forall r h rem acc,
  Forall (fun r => parsed_ok r = true) acc -> page_sound (readXLogPage fuel r h rem acc).
Proof.
  induction fuel as [|fuel IH]; intros r h rem acc Ha; [done|]. cbn [readXLogPage].
  destruct (tryReadXLogRecordData r) as [[[data [|]]|e] r']; [|done|by apply checkPartialPage_sound].
  destruct (ParseXLogRecordFromBytes data) as [record|e] eqn:E; [|by apply checkPartialPage_sound].
  apply ParseXLogRecordFromBytes_inv in E.
  assert (Forall (fun r => parsed_ok r = true) (acc ++ [record])) by (apply Forall_app; auto).
  case_bool; [done|]. by apply IH.
Qed.

Lemma parsePage_sound parser data : page_sound (parsePage parser data).
Proof.
  unfold parsePage. destruct (readXLogPageHeader _) as [[h|e0] r0].
  - destruct (ReadToAlignment r0) as [[u|e1] r1]; [|done].
    destruct (Read r1 _) as [[rem e2] r2]. case_bool; [done|]. case_bool; [by constructor|].
    repeat case_match; first [exact I | by constructor | apply readXLogPage_sound; by constructor].
  - destruct e0; try done. destruct (ReadAll _ r0) as [[bs [e|]] r']; [done|]. by case_bool.
Qed.

(** ** Records *)

(** C1: parsing the bytes of a well-formed record, whatever follows them,
    gives back that record: headers, block headers with their optional image
    and relation, and payloads. *)
Theorem record_roundtrip (r : XLogRecord) (rest : list byte) :
  record_ok r = true -> ParseXLogRecordFromBytes (enc_record r ++ rest) = Ok r.
Proof. apply ParseXLogRecordFromBytes_enc. Qed.

(** A heap record with one block and main data, 16320 bytes long. *)
Definition ex_location : BlockLocation := NewBlockLocation 1663 16384 2619 7.
Definition ex_block : XLogRecordBlock :=
  mkBlock (mkBlockHeader 0 0x20 4 NoImageHeader ex_location) [] (zeros 4).
Definition ex_record : XLogRecord :=
  mkXLogRecord (mkXLogRecordHeader 16320 5 4096 0 10 77) 16267 0 [ex_block] (zeros (Z.to_nat 16267)).
(** A short one with a hole in its image. *)
Definition ex_image_block : XLogRecordBlock :=
  mkBlock (mkBlockHeader 3 0x10 0 (mkImageHeader 8 16 8184 1) ex_location) (zeros 8) [].
Definition ex_small_record : XLogRecord :=
  mkXLogRecord (mkXLogRecordHeader 65 5 4096 0 10 77) 3 9 [ex_image_block] (zeros 3).

Lemma record_roundtrip_witness :
  ParseXLogRecordFromBytes (enc_record ex_small_record ++ zeros 5) = Ok ex_small_record.
Proof. apply record_roundtrip. vm_compute. reflexivity. Defined.

(** C34: every record a page yields, alone or completed from the pages before,
    has a consistent header, block ids in increasing order, block headers
    whose flags agree with their lengths, images and holes, and payloads of
    the declared lengths; and the parser's state stays well-formed. *)
Theorem page_records_sound (parser parser' : WalParser) (page rest : list byte)
    (records : list XLogRecord) (err : option error) :
  parser_wf parser ->
  ParseRecordsFromPage parser page = ((rest, records, err), parser') ->
  Forall (fun r => parsed_ok r = true) records /\ parser_wf parser'.
Proof.
  intros Hwf. unfold ParseRecordsFromPage. pose proof (parsePage_sound parser page) as Hs.
  assert (forall p e, Forall (fun r => parsed_ok r = true) (Records p) ->
    finishPage parser p e = ((rest, records, err), parser') ->
    Forall (fun r => parsed_ok r = true) records /\ parser_wf parser') as Hfin.
  { intros p e Hp. unfold finishPage. case_bool.
    { intros [= _ <- _ <-]. split; [done|]. unfold parser_wf. cbn.
      intros Hb. apply Hwf in Hb. by destruct (currentRecordData parser). }
    case_bool; [intros [= _ <- _ <-]; eauto using setCurrentRecordData_wf|].
    destruct (fst _) as [h|e1]; [|by intros [= _ <- _ <-]].
    case_bool; [by intros [= _ <- _ <-]|].
    destruct (ParseXLogRecordFromBytes _) as [r|e1] eqn:E; [|by intros [= _ <- _ <-]].
    apply ParseXLogRecordFromBytes_inv in E.
    intros [= _ <- _ <-]. eauto using setCurrentRecordData_wf. }
  destruct (parsePage parser page); [by eapply Hfin|by eapply Hfin|].
  by intros [= _ <- _ <-].
Qed.

(** The last page of a file: one record, then zeros. *)
Definition ex_header : XLogPageHeader := mkPageHeader 0xD098 0 1 8192 0.
Definition ex_long : LongHeader := mkLong 6789 16777216 8192.
Definition ex_page : PageSpec := mkPageSpec ex_header ex_long [] [ex_small_record; ex_small_record] [].

Lemma page_records_sound_witness :
  Forall (fun r => parsed_ok r = true) [ex_small_record; ex_small_record] /\
  parser_wf NewWalParser.
Proof.
  apply (page_records_sound NewWalParser NewWalParser (enc_partial_page ex_page 800) []
    [ex_small_record; ex_small_record] (Some PartialPageError)).
  - discriminate.
  - vm_compute. reflexivity.
Defined.

(** C40: a page that cannot be parsed yields nothing and leaves the parser as
    it was; only a partial page comes with its records. *)
Theorem ParseRecordsFromPage_error (parser parser' : WalParser) (page rest : list byte)
    (records : list XLogRecord) (err : error) :
  ParseRecordsFromPage parser page = ((rest, records, Some err), parser') ->
  err <> PartialPageError ->
  rest = [] /\ records = [] /\ parser' = parser.
Proof.
  unfold ParseRecordsFromPage. intros Hp Hne. revert Hp.
  assert (forall p e, (e = None \/ e = Some PartialPageError) ->
    finishPage parser p e = ((rest, records, Some err), parser') ->
    rest = [] /\ records = [] /\ parser' = parser) as Hfin.
  { intros p e He. unfold finishPage.
    repeat case_match; intros [= <- <- Hee <-]; try done; destruct He; subst; congruence. }
  destruct (parsePage parser page); [apply Hfin; auto|apply Hfin; auto|].
  by intros [= <- <- _ <-].
Qed.

Lemma ParseRecordsFromPage_error_witness :
  ([] : list byte) = [] /\ ([] : list XLogRecord) = [] /\ parser_at [Byte.x01] = parser_at [Byte.x01].
Proof.
  apply (ParseRecordsFromPage_error (parser_at [Byte.x01]) (parser_at [Byte.x01]) (zeros 8192)
    [] [] ZeroPageError); [vm_compute; reflexivity|discriminate].
Defined.

(** From a parser at a record boundary, a page of whole records followed
    by zeros, as PostgreSQL leaves the last one, yields those records, the
    rest of the previous record, and the partial page error. *)
Theorem ParseRecordsFromPage_partial (p : PageSpec) (k : nat) :
  page_ok p = true -> (0 < k)%nat ->
  ParseRecordsFromPage NewWalParser (enc_partial_page p k) =
    ((psRemaining p, psRecords p, Some PartialPageError), NewWalParser).
Proof.
  intros Hp Hk. unfold ParseRecordsFromPage. rewrite parsePage_partial by done.
  unfold page_ok in Hp. bool_to_prop. unfold finishPage. cbn.
  by rewrite (proj2 (Z.ltb_ge _ _)) by lia.
Qed.

Lemma ParseRecordsFromPage_partial_witness :
  ParseRecordsFromPage NewWalParser (enc_partial_page ex_page 800) =
    (([], [ex_small_record; ex_small_record], Some PartialPageError), NewWalParser).
Proof. apply (ParseRecordsFromPage_partial ex_page 800); [vm_compute; reflexivity|lia]. Defined.

(** ** Files *)

(** C2: the records laid out in the pages of a WAL file, in whole or across
    any number of pages, are exactly those whose block locations are
    extracted, in order, and the parser is left with the unfinished record. *)
Theorem ExtractLocationsFromWalFile_ok {S : Type} `{LawfulReader S}
    (cur : list byte) (pages : list (list byte)) (records : list XLogRecord) (rest : list byte)
    (walFile : S) :
  wal_pages cur pages records rest ->
  avail walFile = concat pages ->
  ExtractLocationsFromWalFile (Datatypes.S (length pages)) (parser_at cur) walFile =
    (Ok (ExtractBlockLocations records), parser_at rest).
Proof.
  intros Hp Hs. unfold ExtractLocationsFromWalFile.
  by rewrite (extractLoop_ok _ _ _ _ Hp) by (done || lia).
Qed.

(** [ex_record] fills two pages: its head in the first, its rest in the other. *)
Definition ex_page1 : PageSpec :=
  mkPageSpec (mkPageHeader 0xD098 2 1 0 0) ex_long [] [] (take 8152 (enc_record ex_record)).
Definition ex_page2 : PageSpec :=
  mkPageSpec (mkPageHeader 0xD098 1 1 8192 8168) ex_long (drop 8152 (enc_record ex_record)) [] [].

Lemma ExtractLocationsFromWalFile_ok_witness :
  ExtractLocationsFromWalFile 3 NewWalParser
    ((enc_page ex_page1 ++ enc_page ex_page2) : bytesReader) = (Ok [ex_location], NewWalParser).
Proof.
  apply (ExtractLocationsFromWalFile_ok [] [enc_page ex_page1; enc_page ex_page2]
    [ex_record] []).
  - apply (wp_start ex_page1 ex_record _ [ex_record]); [vm_compute; reflexivity..|].
    refine (wp_finish _ ex_page2 ex_record ex_record [] [] [] _ _ _ _ _ _ _ _);
      [discriminate| |vm_compute; reflexivity..|constructor].
    vm_compute. reflexivity.
  - cbn [concat]. by rewrite app_nil_r.
Defined.

(** C36: reading a WAL file always ends, with locations or with an error of
    the input: the bytes of the file bound the iterations, and the loops over
    pages, records and block headers inside never need more than they get. *)
Theorem ExtractLocationsFromWalFile_ends {S : Type} `{LawfulReader S}
    (parser : WalParser) (walFile : S) :
  let result :=
    fst (ExtractLocationsFromWalFile (Datatypes.S (length (avail walFile))) parser walFile) in
  (exists locations, result = Ok locations) \/
  (exists e, result = Err e /\ Cause e <> ErrNoProgress).
Proof.
  cbv zeta. unfold ExtractLocationsFromWalFile.
  destruct (extractLoop _ _ _ _) as [[ls|e] p'] eqn:E; cbn; [eauto|].
  right. exists e. split; [done|]. eapply extractLoop_fuel; [|exact E]. lia.
Qed.

(** ** Codecs *)

(** A list of locations written with its terminator is read back, and
    nothing behind the terminator is read; without the terminator the end of
    the input ends the list. *)
Theorem ReadLocationsFrom_WriteLocationsTo {S : Type} `{LawfulReader S}
    (locations : list BlockLocation) (rest : list byte) (s : S) :
  forallb location_ok locations = true -> TerminalLocation ∉ locations ->
  (avail s = WriteLocationsTo (locations ++ [TerminalLocation]) ++ rest ->
   ReadLocationsFrom (Datatypes.S (length locations)) s =
     (Ok locations, adv s (length (WriteLocationsTo (locations ++ [TerminalLocation]))))) /\
  (avail s = WriteLocationsTo locations ->
   ReadLocationsFrom (Datatypes.S (length locations)) s =
     (Ok locations, adv s (length (WriteLocationsTo locations)))).
Proof.
  intros Hok Hnt. unfold ReadLocationsFrom. split; intros Hs.
  - unfold WriteLocationsTo in *. rewrite bind_app in *. cbn [mbind list_bind] in Hs |- *.
    rewrite app_nil_r in *. rewrite <- app_assoc in Hs.
    rewrite (readLocationsLoop_ok locations _ [] rest) by (done || lia).
    by rewrite length_app, WriteLocation_length.
  - by rewrite (readLocationsLoop_eof locations _ []) by (done || lia).
Qed.

Lemma ReadLocationsFrom_WriteLocationsTo_witness :
  let bs := WriteLocationsTo [ex_location; TerminalLocation] ++ [Byte.x07] in
  ReadLocationsFrom 2 (bs : bytesReader) = (Ok [ex_location], [Byte.x07]).
Proof.
  cbv zeta.
  refine (proj1 (ReadLocationsFrom_WriteLocationsTo [ex_location] [Byte.x07]
    ((WriteLocationsTo [ex_location; TerminalLocation] ++ [Byte.x07]) : bytesReader) _ _) _).
  - vm_compute. reflexivity.
  - apply (bool_decide_eq_true_1 _). vm_compute. reflexivity.
  - reflexivity.
Defined.

(** The saved state of a parser loads back to that parser, and saving
    fails exactly when the parser holds bytes of a record whose beginning it
    has not seen. *)
Theorem Save_LoadWalParser {S : Type} `{LawfulReader S} (parser : WalParser) (s : S) (rest : list byte) :
  parser_wf parser ->
  Z.of_nat (length (currentRecordData parser)) < 2 ^ 32 ->
  match Save parser with
  | Ok bs => avail s = bs ++ rest -> LoadWalParser s = (Ok parser, adv s (length bs))
  | Err e => e = CantSavePartialParserError /\
             currentRecordData parser <> [] /\ hasCurrentRecordBeginning parser = false
  end.
Proof.
  intros Hwf Hl. destruct (Save parser) as [bs|e] eqn:Es.
  - intros Hs. apply (LoadWalParser_Save _ _ rest); [done| |done|done].
    unfold Save in Es. unfold parser_wf in Hwf.
    destruct parser as [data []]; cbn in *; destruct data; try done.
    exfalso. by apply Hwf.
  - unfold Save in Es. case_bool; [|done]. bool_to_prop. split; [congruence|].
    split; [|done]. destruct (currentRecordData parser); cbn in *; [lia|done].
Qed.

Lemma Save_LoadWalParser_witness :
  LoadWalParser (le_enc 4 3 ++ zeros 3 ++ [Byte.x01] : bytesReader) =
    (Ok (mkWalParser (zeros 3) true), [Byte.x01]).
Proof.
  refine (Save_LoadWalParser (mkWalParser (zeros 3) true)
    (le_enc 4 3 ++ zeros 3 ++ [Byte.x01] : bytesReader) [Byte.x01] _ _ _).
  - discriminate.
  - reflexivity.
  - reflexivity.
Defined.
