(* ===== verification/GoStrings.v ===== *)
(** * Strings

    The part of Go's [strings], [strconv], [fmt] and [regexp] the file names
    need, on [string] (a sequence of bytes, as in Go): slicing, affixes,
    [ParseUint], the [%08X] verb, lexicographic comparison, and the leftmost
    match of a fixed-length character class. *)

From S2P Require Import Prelude.
Open Scope Z_scope.

Notation "a +s b" := (String.append a b) (at level 60, right associativity) : go_str_scope.
Open Scope go_str_scope.
Notation slen := String.length.
#[global] Arguments String.append !_ _ : simpl nomatch.

(** ** Slicing *)

Fixpoint stake (n : nat) (s : string) : string :=
  match n, s with
  | S n, String c s => String c (stake n s)
  | _, _ => ""
  end.

Fixpoint sdrop (n : nat) (s : string) : string :=
  match n, s with
  | S n, String _ s => sdrop n s
  | _, s => s
  end.

(** [s[a:b]]; [None] is the run-time panic of an index out of range. *)
Definition slice (s : string) (a b : nat) : option string :=
  if ((a <=? b) && (b <=? slen s))%nat then Some (stake (b - a) (sdrop a s)) else None.

Lemma slen_app a b : slen (a +s b) = (slen a + slen b)%nat.
Proof. induction a; cbn; lia. Qed.

Lemma app_assoc_s a b c : (a +s b) +s c = a +s (b +s c).
Proof. induction a; cbn; congruence. Qed.

Lemma app_nil_r_s a : a +s "" = a.
Proof. induction a; cbn; congruence. Qed.

Lemma stake_app n a b : slen a = n -> stake n (a +s b) = a.
Proof. intros <-. induction a; cbn; [by destruct b|congruence]. Qed.

Lemma sdrop_app n a b : slen a = n -> sdrop n (a +s b) = b.
Proof. intros <-. by induction a. Qed.

Lemma stake_sdrop n s : stake n s +s sdrop n s = s.
Proof. revert s. induction n; intros [|c s]; cbn; congruence. Qed.

Lemma sdrop_add n m s : sdrop (n + m) s = sdrop m (sdrop n s).
Proof. revert s. induction n as [|n IH]; intros s; [done|]. destruct s; cbn; [by destruct m|auto]. Qed.

Lemma slen_stake n s : slen (stake n s) = Nat.min n (slen s).
Proof. revert s. induction n; intros [|c s]; cbn; auto. Qed.

Lemma slen_sdrop n s : slen (sdrop n s) = (slen s - n)%nat.
Proof. revert s. induction n; intros [|c s]; cbn; auto. Qed.

Lemma app_inv_s a b c d : slen a = slen c -> a +s b = c +s d -> a = c /\ b = d.
Proof.
  revert c. induction a as [|x a IH]; intros [|y c] Hl E; cbn in *; try done.
  injection E as -> E. injection Hl as Hl. by destruct (IH c Hl E) as [-> ->].
Qed.

(** ** Affixes *)

Definition HasPrefix (s p : string) : bool := String.prefix p s.

Fixpoint HasSuffix (s suf : string) : bool :=
  bool_decide (s = suf) ||
  match s with String _ s => HasSuffix s suf | EmptyString => false end.

(** [strings.TrimSuffix] *)
Fixpoint TrimSuffix (s suf : string) : string :=
  if bool_decide (s = suf) then ""
  else match s with String c s => String c (TrimSuffix s suf) | EmptyString => "" end.

(** [strings.Contains] *)
Fixpoint Contains (s sub : string) : bool :=
  String.prefix sub s ||
  match s with String _ s => Contains s sub | EmptyString => false end.

Lemma TrimSuffix_app s suf : TrimSuffix (s +s suf) suf = s.
Proof.
  induction s as [|c s IH]; cbn.
  - destruct suf; cbn; [done|]. by rewrite bool_decide_eq_true_2.
  - rewrite bool_decide_eq_false_2, IH; [done|].
    intros E. apply (f_equal slen) in E. cbn in E. rewrite slen_app in E. lia.
Qed.

Lemma HasSuffix_app s suf : HasSuffix (s +s suf) suf = true.
Proof.
  induction s as [|c s IH]; cbn [String.append HasSuffix].
  - destruct suf; cbn [HasSuffix]; by rewrite bool_decide_eq_true_2.
  - by rewrite IH, orb_true_r.
Qed.

Lemma HasSuffix_inv s suf : HasSuffix s suf = true -> s = TrimSuffix s suf +s suf.
Proof.
  induction s as [|c s IH]; cbn [HasSuffix TrimSuffix]; intros Hs; case_bool_decide; subst; try done.
  cbn. by rewrite <- IH.
Qed.

Lemma HasPrefix_app p s : HasPrefix (p +s s) p = true.
Proof.
  unfold HasPrefix. induction p as [|c p IH]; cbn; [by destruct s|].
  destruct (Ascii.ascii_dec c c); done.
Qed.

(** [path.Ext]: from the last dot of the last path element. *)
Fixpoint Ext (s : string) : string :=
  match s with
  | "" => ""
  | String c r =>
      match Ext r with
      | "" => if bool_decide (c = Ascii.ascii_of_nat 46) && negb (Contains r "/") then s else ""
      | e => e
      end
  end.

(** [utility.GetFileExtension], [utility.TrimFileExtension] *)
Definition GetFileExtension (filePath : string) : string := sdrop 1 (Ext filePath).
Definition TrimFileExtension (filePath : string) : string :=
  TrimSuffix filePath ("." +s GetFileExtension filePath).

(** ** Hexadecimal numbers *)

Definition hexDigit (d : Z) : Ascii.ascii :=
  Ascii.ascii_of_nat (Z.to_nat (if d <? 10 then 48 + d else 55 + d)).

(** The [w] low hexadecimal digits of [z], upper-case. *)
Fixpoint hexn (w : nat) (z : Z) : string :=
  match w with
  | 0%nat => ""
  | S w => String (hexDigit (z / 16 ^ Z.of_nat w mod 16)) (hexn w z)
  end.

(** The verb [%08X]: at least eight digits. *)
Definition fmt08X (z : Z) : string := hexn (Nat.max 8 (Z.to_nat (Z.log2 z / 4 + 1))) z.

(** [strconv.ParseUint] fails with the first of these that it meets. *)
Inductive NumError := ErrSyntax | ErrRange.

#[export] Instance NumError_eq_dec : EqDecision NumError.
Proof. solve_decision. Defined.

(** The value of an ASCII digit or letter. *)
Definition digitValue (c : Ascii.ascii) : option Z :=
  let n := Z.of_nat (Ascii.nat_of_ascii c) in
  if (48 <=? n) && (n <=? 57) then Some (n - 48)
  else if (97 <=? n) && (n <=? 122) then Some (n - 87)
  else if (65 <=? n) && (n <=? 90) then Some (n - 55)
  else None.

Fixpoint parseUintLoop (base maxVal : Z) (s : string) (n : Z) : res NumError Z :=
  match s with
  | "" => Ok n
  | String c s =>
      match digitValue c with
      | None => Err ErrSyntax
      | Some d =>
          if base <=? d then Err ErrSyntax
          else let n1 := n * base + d in
               if maxVal <? n1 then Err ErrRange else parseUintLoop base maxVal s n1
      end
  end.

Definition ParseUint (s : string) (base bitSize : Z) : res NumError Z :=
  match s with
  | "" => Err ErrSyntax
  | _ => parseUintLoop base (2 ^ bitSize - 1) s 0
  end.

(** Upper case of the hexadecimal letters. *)
Definition hexUpperChar (c : Ascii.ascii) : Ascii.ascii :=
  match digitValue c with
  | Some d => if d <? 16 then hexDigit d else c
  | None => c
  end.

Fixpoint hexUpper (s : string) : string :=
  match s with "" => "" | String c s => String (hexUpperChar c) (hexUpper s) end.

Lemma slen_hexn w z : slen (hexn w z) = w.
Proof. induction w; cbn; congruence. Qed.

Lemma fmt08X_small z : 0 <= z < 2 ^ 32 -> fmt08X z = hexn 8 z.
Proof.
  intros Hz. unfold fmt08X. f_equal. destruct (decide (z = 0)) as [->|Hn]; [done|].
  assert (Z.log2 z < 32) by (apply Z.log2_lt_pow2; lia).
  pose proof (Z.div_lt_upper_bound (Z.log2 z) 4 8 ltac:(lia) ltac:(lia)). lia.
Qed.

(** A statement about all the digits, by computation. *)
Lemma all_digits (P : Z -> Prop) :
  (forall n, (n < 16)%nat -> P (Z.of_nat n)) -> forall d, 0 <= d < 16 -> P d.
Proof. intros HP d Hd. rewrite <- (Z2Nat.id d) by lia. apply HP. lia. Qed.

Ltac digits :=
  apply all_digits; intros n Hn; do 16 (destruct n as [|n]; [reflexivity|]); lia.

Lemma digitValue_hexDigit d : 0 <= d < 16 -> digitValue (hexDigit d) = Some d.
Proof. revert d. digits. Qed.

Lemma hexDigit_compare_all :
  forallb (fun i => forallb (fun j =>
    bool_decide (Ascii.compare (hexDigit (Z.of_nat i)) (hexDigit (Z.of_nat j)) =
                 (Z.of_nat i ?= Z.of_nat j)%Z)) (seq 0 16)) (seq 0 16) = true.
Proof. vm_compute. reflexivity. Qed.

Lemma hexDigit_compare i j :
  0 <= i < 16 -> 0 <= j < 16 -> Ascii.compare (hexDigit i) (hexDigit j) = (i ?= j).
Proof.
  intros Hi Hj. pose proof hexDigit_compare_all as H. rewrite forallb_forall in H.
  specialize (H (Z.to_nat i)). rewrite in_seq, forallb_forall in H.
  specialize (H ltac:(lia) (Z.to_nat j)). rewrite in_seq in H. specialize (H ltac:(lia)).
  apply bool_decide_eq_true in H. by rewrite !Z2Nat.id in H by lia.
Qed.

Lemma digit_split w z :
  0 <= z -> z mod 16 ^ Z.of_nat (S w) =
    (z / 16 ^ Z.of_nat w mod 16) * 16 ^ Z.of_nat w + z mod 16 ^ Z.of_nat w.
Proof.
  intros Hz. rewrite Nat2Z.inj_succ, Z.pow_succ_r, (Z.mul_comm 16) by lia.
  rewrite Z.rem_mul_r by lia. lia.
Qed.

Lemma parseUintLoop_hexn maxVal w z : forall n,
  0 <= z -> 0 <= n -> n * 16 ^ Z.of_nat w + z mod 16 ^ Z.of_nat w <= maxVal ->
  parseUintLoop 16 maxVal (hexn w z) n = Ok (n * 16 ^ Z.of_nat w + z mod 16 ^ Z.of_nat w).
Proof.
  induction w as [|w IH]; intros n Hz Hn Hm.
  - cbn [hexn parseUintLoop]. change (16 ^ Z.of_nat 0) with 1. rewrite Z.mod_1_r. f_equal. lia.
  - cbn [hexn parseUintLoop]. rewrite digitValue_hexDigit by (apply Z.mod_pos_bound; lia).
    pose proof (Z.mod_pos_bound (z / 16 ^ Z.of_nat w) 16 ltac:(lia)) as Hd.
    rewrite digit_split in * by done. set (d := z / 16 ^ Z.of_nat w mod 16) in *.
    rewrite (proj2 (Z.leb_gt 16 d)) by lia. cbv zeta.
    rewrite Nat2Z.inj_succ, Z.pow_succ_r in * by lia.
    pose proof (Z.mod_pos_bound z (16 ^ Z.of_nat w) ltac:(lia)).
    assert (0 < 16 ^ Z.of_nat w) by lia.
    rewrite (proj2 (Z.ltb_ge maxVal _)) by nia.
    rewrite IH by nia. f_equal. lia.
Qed.

Lemma ParseUint_hexn w z :
  (0 < w)%nat -> 0 <= z < 16 ^ Z.of_nat w -> z < 2 ^ 32 -> ParseUint (hexn w z) 16 32 = Ok z.
Proof.
  intros Hw Hz Hm. unfold ParseUint. destruct (hexn w z) eqn:E.
  - apply (f_equal slen) in E. rewrite slen_hexn in E. cbn in E. lia.
  - rewrite <- E, parseUintLoop_hexn; rewrite ?Z.mod_small by lia; try done; lia.
Qed.

Lemma hexn_mod w z k : (w <= k)%nat -> hexn w (z mod 16 ^ Z.of_nat k) = hexn w z.
Proof.
  induction w as [|w IH]; intros Hk; [done|]. cbn [hexn]. rewrite IH by lia. do 2 f_equal.
  replace (Z.of_nat k) with (Z.of_nat w + (1 + Z.of_nat (k - S w))) by lia.
  rewrite !Z.pow_add_r by lia. change (16 ^ 1) with 16.
  rewrite Z.rem_mul_r by lia. rewrite Z.mul_comm, Z.div_add by lia.
  rewrite Z.div_small by (apply Z.mod_pos_bound; lia). rewrite Z.add_0_l.
  rewrite Z.rem_mul_r, Z.mul_comm, Z.mod_add by lia. by rewrite Z.mod_mod.
Qed.

Lemma parseUintLoop_inv maxVal s : forall n r,
  0 <= n -> parseUintLoop 16 maxVal s n = Ok r ->
  n * 16 ^ Z.of_nat (slen s) <= r < (n + 1) * 16 ^ Z.of_nat (slen s) /\
  hexUpper s = hexn (slen s) r /\ (s = "" \/ r <= maxVal).
Proof.
  induction s as [|c s IH]; intros n r Hn.
  - cbn. intros [= <-]. split; [lia|auto].
  - cbn [parseUintLoop hexUpper slen hexn]. unfold hexUpperChar.
    destruct (digitValue c) as [d|] eqn:Ed; [|done].
    assert (0 <= d) as Hd.
    { unfold digitValue in Ed. repeat case_bool; bool_to_prop; simplify_eq; lia. }
    destruct (16 <=? d) eqn:E16; [done|]. cbv zeta. case_bool; [done|]. bool_to_prop. intros Hr.
    rewrite (proj2 (Z.ltb_lt d 16)) by lia.
    apply IH in Hr as (Hb & Hu & Hm); [|lia].
    rewrite Nat2Z.inj_succ, Z.pow_succ_r by lia.
    assert (0 < 16 ^ Z.of_nat (slen s)) by lia.
    assert (r / 16 ^ Z.of_nat (slen s) = n * 16 + d) as Hq.
    { symmetry. apply (Z.div_unique _ _ _ (r - (n * 16 + d) * 16 ^ Z.of_nat (slen s))); lia. }
    split; [nia|]. rewrite Hu, Hq. split.
    + rewrite Z.add_comm, Z.mod_add, Z.mod_small by lia. done.
    + right. destruct Hm as [-> | ]; [|lia]. cbn in *. lia.
Qed.

Lemma ParseUint_inv s r :
  ParseUint s 16 32 = Ok r ->
  0 <= r < 2 ^ 32 /\ r < 16 ^ Z.of_nat (slen s) /\ hexUpper s = hexn (slen s) r.
Proof.
  unfold ParseUint. destruct s as [|c s]; [done|]. intros Hr.
  apply parseUintLoop_inv in Hr as (Hb & Hu & [Hs|Hm]); [done| |lia].
  split; [lia|]. split; [lia|done].
Qed.

(** ** Comparison *)

(** [a < b] on Go strings. *)
Notation sltb := Stdlib.Strings.String.ltb.

Lemma hexn_compare w a b :
  0 <= a -> 0 <= b ->
  String.compare (hexn w a) (hexn w b) = (a mod 16 ^ Z.of_nat w ?= b mod 16 ^ Z.of_nat w).
Proof.
  intros Ha Hb. induction w as [|w IH].
  - cbn [hexn String.compare]. change (16 ^ Z.of_nat 0) with 1. by rewrite !Z.mod_1_r.
  - cbn [hexn String.compare]. rewrite hexDigit_compare by (apply Z.mod_pos_bound; lia).
    rewrite IH, !digit_split by done.
    pose proof (Z.mod_pos_bound a (16 ^ Z.of_nat w) ltac:(lia)).
    pose proof (Z.mod_pos_bound b (16 ^ Z.of_nat w) ltac:(lia)).
    set (da := a / 16 ^ Z.of_nat w mod 16). set (db := b / 16 ^ Z.of_nat w mod 16).
    set (P := 16 ^ Z.of_nat w) in *.
    destruct (Z.compare_spec da db) as [-> | Hlt | Hgt].
    + symmetry. destruct (Z.compare_spec (a mod P) (b mod P));
        [apply Z.compare_eq_iff|apply Z.compare_lt_iff|apply Z.compare_gt_iff]; lia.
    + symmetry. apply Z.compare_lt_iff. nia.
    + symmetry. apply Z.compare_gt_iff. nia.
Qed.

Lemma compare_app a b c d :
  slen a = slen c ->
  String.compare (a +s b) (c +s d) =
    match String.compare a c with Eq => String.compare b d | x => x end.
Proof.
  revert c. induction a as [|x a IH]; intros [|y c] Hl; cbn in *; try done.
  destruct (Ascii.compare x y); [|done|done]. apply IH. lia.
Qed.

(** ** Regular expressions *)

(** The leftmost match of [[class]{n}]. *)
Fixpoint allIn (class : Ascii.ascii -> bool) (s : string) : bool :=
  match s with "" => true | String c s => class c && allIn class s end.

Fixpoint findFixed (class : Ascii.ascii -> bool) (n : nat) (s : string) : option string :=
  if ((n <=? slen s)%nat && allIn class (stake n s)) then Some (stake n s)
  else match s with "" => None | String _ s => findFixed class n s end.

Definition isUpperHex (c : Ascii.ascii) : bool :=
  let n := Z.of_nat (Ascii.nat_of_ascii c) in
  ((48 <=? n) && (n <=? 57)) || ((65 <=? n) && (n <=? 70)).

Lemma isUpperHex_digit d : 0 <= d < 16 -> isUpperHex (hexDigit d) = true.
Proof. revert d. digits. Qed.

Lemma allIn_hexn w z : allIn isUpperHex (hexn w z) = true.
Proof.
  induction w as [|w IH]; [done|]. cbn [hexn allIn]. rewrite IH, isUpperHex_digit; [done|].
  apply Z.mod_pos_bound. lia.
Qed.

Lemma allIn_app class a b : allIn class (a +s b) = allIn class a && allIn class b.
Proof. induction a; cbn; [done|]. by rewrite IHa, andb_assoc. Qed.

Lemma findFixed_prefix class n s rest :
  slen s = n -> allIn class s = true -> findFixed class n (s +s rest) = Some s.
Proof.
  intros Hn Ha. pose proof (stake_app n s rest Hn) as Hs.
  assert (slen (s +s rest) = (n + slen rest)%nat) as Hl by (rewrite slen_app; lia).
  destruct (s +s rest) eqn:E; cbn [findFixed];
    rewrite Hs, Ha, Hl, (proj2 (Nat.leb_le _ _)) by lia; done.
Qed.

Lemma findFixed_inv class n s m :
  findFixed class n s = Some m ->
  slen m = n /\ allIn class m = true /\ exists a b, s = a +s (m +s b).
Proof.
  induction s as [|c s IH]; cbn [findFixed]; case_bool; intros Hm; try done.
  - injection Hm as <-. bool_to_prop. rewrite slen_stake. split; [lia|]. split; [done|].
    exists "", (sdrop n ""). cbn. by rewrite stake_sdrop.
  - injection Hm as <-. bool_to_prop. rewrite slen_stake. split; [lia|]. split; [done|].
    exists "", (sdrop n (String c s)). cbn [String.append]. by rewrite stake_sdrop.
  - destruct (IH Hm) as (? & ? & a & b & ->). split; [done|]. split; [done|].
    by exists (String c a), b.
Qed.
