(* ===== verification/GoPath.v ===== *)
(** * Paths and separators

    What the development uses of Go's [path] and [strings] packages on names
    with slashes and other separators. *)

From S2P Require Import Prelude GoStrings.
Open Scope Z_scope.

Definition slash : Ascii.ascii := Ascii.ascii_of_nat 47.

(** [path.Split]: up to and with the last slash, and what follows it. *)
Fixpoint Split (path : string) : string * string :=
  match path with
  | "" => ("", "")
  | String c rest =>
      let '(dir, file) := Split rest in
      if negb (bool_decide (dir = "")) then (String c dir, file)
      else if bool_decide (c = slash) then (String c "", file)
      else ("", String c file)
  end.

Fixpoint stripSlashes (path : string) : string :=
  match path with
  | "" => ""
  | String c rest =>
      let rest := stripSlashes rest in
      if bool_decide (rest = "") && bool_decide (c = slash) then "" else String c rest
  end.

(** [path.Base] *)
Definition Base (path : string) : string :=
  if bool_decide (path = "") then "."
  else if bool_decide (stripSlashes path = "") then String slash ""
  else snd (Split (stripSlashes path)).

(** [strings.Split(s, sep)] for a one-character separator. *)
Fixpoint splitOn (sep : Ascii.ascii) (s : string) : list string :=
  match s with
  | "" => [""]
  | String c s =>
      if bool_decide (c = sep) then "" :: splitOn sep s
      else match splitOn sep s with
           | l :: ls => String c l :: ls
           | [] => [String c ""]
           end
  end.

(** The elements of a path, [..] resolved against the elements before it;
    the stack holds them in reverse. *)
Fixpoint cleanElements (rooted : bool) (elements stack : list string) : list string :=
  match elements with
  | [] => stack
  | e :: elements =>
      cleanElements rooted elements
        (if bool_decide (e = "") || bool_decide (e = ".") then stack
         else if bool_decide (e = "..") then
           match stack with
           | top :: rest => if bool_decide (top = "..") then e :: stack else rest
           | [] => if rooted then [] else [e]
           end
         else e :: stack)
  end.

(** [path.Clean] *)
Definition Clean (path : string) : string :=
  let rooted := String.prefix "/" path in
  let elements := rev (cleanElements rooted (splitOn slash path) []) in
  let cleaned := (if rooted then "/" else "") +s String.concat "/" elements in
  if bool_decide (cleaned = "") then "." else cleaned.

(** [path.Join(a, b)] *)
Definition Join (a b : string) : string :=
  if bool_decide (a = "") then (if bool_decide (b = "") then "" else Clean b)
  else Clean (a +s "/" +s b).

(** The text before the first occurrence of [sep], all of it if there is none:
    [strings.Split(s, sep)[0]]. *)
Fixpoint before (sep s : string) : string :=
  if String.prefix sep s then ""
  else match s with "" => "" | String c s => String c (before sep s) end.

(** [strings.Trim(s, "/")] *)
Fixpoint trimLeft (s : string) : string :=
  match s with
  | "" => ""
  | String c rest => if bool_decide (c = slash) then trimLeft rest else s
  end.
Definition Trim (s : string) : string := stripSlashes (trimLeft s).

(** ** Lemmas *)

Definition notSlash (c : Ascii.ascii) : bool := negb (bool_decide (c = slash)).
Lemma allIn_impl (P Q : Ascii.ascii -> bool) s :
  (forall c, P c = true -> Q c = true) -> allIn P s = true -> allIn Q s = true.
Proof. intros HPQ. induction s; cbn; intros; [done|]. bool_to_prop. apply andb_true_iff. auto. Qed.

Lemma Split_noslash name : allIn notSlash name = true -> Split name = ("", name).
Proof.
  induction name as [|c s IH]; cbn; intros Hn; [done|]. bool_to_prop. rewrite IH by done.
  unfold notSlash in *. bool_to_prop. by rewrite (bool_decide_eq_false_2 (c = slash)).
Qed.

Lemma Split_app dir name : allIn notSlash name = true ->
  Split (dir +s String slash name) = (dir +s String slash "", name).
Proof.
  intros Hn. induction dir as [|c s IH]; cbn [String.append Split].
  - by rewrite Split_noslash.
  - rewrite IH. by destruct s.
Qed.

Lemma splitOn_cons sep a : splitOn sep a <> [].
Proof. destruct a; cbn; [done|]. case_bool; [done|]. by destruct (splitOn _ _). Qed.

Lemma splitOn_app sep a b : splitOn sep (a +s String sep b) = splitOn sep a ++ splitOn sep b.
Proof.
  induction a as [|c a IH]; cbn [String.append splitOn].
  - by rewrite bool_decide_eq_true_2.
  - case_bool; [by rewrite IH|]. rewrite IH. destruct (splitOn sep a) eqn:E; [|done].
    by apply splitOn_cons in E.
Qed.

Lemma splitOn_noslash s : allIn notSlash s = true -> splitOn slash s = [s].
Proof.
  induction s as [|c s IH]; cbn; intros Hs; [done|]. bool_to_prop. unfold notSlash in *. bool_to_prop.
  rewrite bool_decide_eq_false_2 by done. by rewrite IH.
Qed.

Lemma stripSlashes_app dir name : name <> "" -> allIn notSlash name = true ->
  stripSlashes (dir +s name) = dir +s name.
Proof.
  intros Hne Hn. induction dir as [|c s IH]; cbn [String.append stripSlashes].
  - induction name as [|c s IH]; [done|]. cbn in *. bool_to_prop.
    unfold notSlash in *. bool_to_prop. destruct s as [|c' s'].
    + by rewrite (bool_decide_eq_false_2 (c = slash)), andb_false_r.
    + rewrite IH by done. done.
  - rewrite IH. rewrite (bool_decide_eq_false_2 (s +s name = "")); [done|].
    by destruct s.
Qed.

Lemma Contains_app_r a b sub : Contains b sub = true -> Contains (a +s b) sub = true.
Proof. intros Hb. induction a as [|c a IH]; cbn [String.append Contains]; [done|]. by rewrite IH, orb_true_r. Qed.

