(* ===== verification/GoSort.v ===== *)
(** * Sorting

    [sort.Slice] as an interface: it permutes its argument and, for a strict
    weak order, sorts it; the order of equivalent elements is not specified.
    Insertion sort is an instance. *)

From S2P Require Import Prelude.
From stdpp Require Export sorting.
From Stdlib Require Export Sorting.Sorted.

(** A strict weak order as a boolean [less]. *)
Record StrictWeak {A} (less : A -> A -> bool) : Prop := {
  less_irrefl x : less x x = false;
  less_trans x y z : less x y = true -> less y z = true -> less x z = true;
  nless_trans x y z : less x y = false -> less y z = false -> less x z = false
}.
Arguments less_irrefl {A less} _ _.
Arguments less_trans {A less} _ _ _ _ _ _.
Arguments nless_trans {A less} _ _ _ _ _ _.

(** The same among the elements with [P]: a comparison of names is an order
    only among the names it can read. *)
Record StrictWeakOn {A} (P : A -> Prop) (less : A -> A -> bool) : Prop := {
  on_irrefl x : P x -> less x x = false;
  on_trans x y z : P x -> P y -> P z -> less x y = true -> less y z = true -> less x z = true;
  on_ntrans x y z : P x -> P y -> P z -> less x y = false -> less y z = false -> less x z = false
}.
Arguments on_irrefl {A P less} _ _.
Arguments on_trans {A P less} _ _ _ _.
Arguments on_ntrans {A P less} _ _ _ _.

(** [a] may stand before [b]. *)
Definition not_after {A} (less : A -> A -> bool) (a b : A) : Prop := less b a = false.

Class SortSlice := {
  Slice : forall {A}, (A -> A -> bool) -> list A -> list A;
  Slice_perm {A} (less : A -> A -> bool) l : Slice less l ≡ₚ l;
  Slice_sorted_on {A} (less : A -> A -> bool) l :
    StrictWeakOn (.∈ l) less -> StronglySorted (not_after less) (Slice less l)
}.

Lemma StrictWeak_on {A} (P : A -> Prop) (less : A -> A -> bool) : StrictWeak less -> StrictWeakOn P less.
Proof. intros [Hi Ht Hn]. split; eauto. Qed.

Lemma StrictWeakOn_weaken {A} (P Q : A -> Prop) (less : A -> A -> bool) :
  (forall x, Q x -> P x) -> StrictWeakOn P less -> StrictWeakOn Q less.
Proof. intros HPQ [Hi Ht Hn]. split; eauto. Qed.

Lemma StrictWeakOn_flip {A} (P : A -> Prop) (less : A -> A -> bool) :
  StrictWeakOn P less -> StrictWeakOn P (fun a b => less b a).
Proof. intros [Hi Ht Hn]. split; eauto. Qed.

Lemma StrictWeakOn_asym {A} (P : A -> Prop) (less : A -> A -> bool) x y :
  StrictWeakOn P less -> P x -> P y -> less x y = true -> less y x = false.
Proof.
  intros Hw Hx Hy Hxy. destruct (less y x) eqn:E; [|done].
  by rewrite <- (on_irrefl Hw x Hx), (on_trans Hw x y x).
Qed.

(** What is less than something not greater. *)
Lemma StrictWeakOn_less_le {A} (P : A -> Prop) (less : A -> A -> bool) x y z :
  StrictWeakOn P less -> P x -> P y -> P z -> less x y = true -> less z y = false -> less x z = true.
Proof.
  intros Hw Hx Hy Hz Hxy Hzy. destruct (less x z) eqn:E; [done|].
  by rewrite <- Hxy, (on_ntrans Hw x z y).
Qed.

Lemma StronglySorted_weaken {A} (R S : A -> A -> Prop) l :
  (forall x y, R x y -> S x y) -> StronglySorted R l -> StronglySorted S l.
Proof.
  intros HRS. induction 1 as [|x l Hs IH Hx]; constructor; [done|].
  eapply Forall_impl; [done|]. cbn. auto.
Qed.

(** ** Orders by a key *)

Lemma StrictWeak_key {A} (f : A -> Z) : StrictWeak (fun a b => (f a <? f b)%Z).
Proof.
  split; intros *; rewrite ?Z.ltb_lt, ?Z.ltb_ge; lia.
Qed.

Lemma StrictWeak_key_desc {A} (f : A -> Z) : StrictWeak (fun a b => (f b <? f a)%Z).
Proof.
  split; intros *; rewrite ?Z.ltb_lt, ?Z.ltb_ge; lia.
Qed.

Lemma last_sorted {A} (R : A -> A -> Prop) l x :
  StronglySorted R l -> last l = Some x -> x ∈ l /\ forall y, y ∈ l -> y = x \/ R y x.
Proof.
  intros Hs [l' ->]%last_Some. split; [set_solver|].
  intros y [Hy|Hy%list_elem_of_singleton]%elem_of_app; [right|by left].
  eapply StronglySorted_app_1_elem_of; [done..|set_solver].
Qed.

(** What is in two segments of a sorted list. *)
Lemma sorted_take_drop {A} (R : A -> A -> Prop) k l x y :
  StronglySorted R l -> x ∈ take k l -> y ∈ drop k l -> R x y.
Proof.
  intros Hs. rewrite <- (take_drop k l) in Hs. by eapply StronglySorted_app_1_elem_of.
Qed.

(** ** Filters *)

Lemma filter_all_false {A} (p : A -> bool) l : (forall x, x ∈ l -> p x = false) -> List.filter p l = [].
Proof.
  induction l as [|x l IH]; cbn; intros Hp; [done|]. rewrite Hp by set_solver. apply IH. set_solver.
Qed.

Lemma elem_of_filter_b {A} (p : A -> bool) l x : x ∈ List.filter p l <-> p x = true /\ x ∈ l.
Proof. rewrite !list_elem_of_In, filter_In. tauto. Qed.

Lemma NoDup_filter_b {A} (p : A -> bool) l : NoDup l -> NoDup (List.filter p l).
Proof. rewrite !NoDup_ListNoDup. apply List.NoDup_filter. Qed.

Lemma filter_perm {A} (p : A -> bool) l l' : l ≡ₚ l' -> List.filter p l ≡ₚ List.filter p l'.
Proof.
  induction 1; cbn; repeat case_match; try done; auto using perm_skip, perm_swap. by etrans.
Qed.

Lemma filter_filter_and {A} (p q : A -> bool) l :
  List.filter p (List.filter q l) = List.filter (fun x => q x && p x) l.
Proof.
  induction l as [|x l IH]; cbn; [done|]. destruct (q x); cbn; [destruct (p x)|]; by rewrite IH.
Qed.

Lemma StronglySorted_filter_b {A} (R : A -> A -> Prop) (p : A -> bool) l :
  StronglySorted R l -> StronglySorted R (List.filter p l).
Proof.
  induction 1 as [|x l Hs IH Hx]; cbn; [constructor|]. destruct (p x); [|done].
  constructor; [done|]. rewrite Forall_forall in *. intros y Hy. apply elem_of_filter_b in Hy as [_ Hy]. auto.
Qed.

Lemma elem_of_drop_in {A} k (l : list A) x : x ∈ drop k l -> x ∈ l.
Proof. intros Hx. rewrite <- (take_drop k l). set_solver. Qed.

Section Lemmas.
Context {sorter : SortSlice} {A : Type}.
Implicit Types (less : A -> A -> bool) (l : list A).

Lemma Slice_sorted less l : StrictWeak less -> StronglySorted (not_after less) (Slice less l).
Proof. intros Hw. by apply Slice_sorted_on, StrictWeak_on. Qed.

Lemma Slice_elem less l x : x ∈ Slice less l <-> x ∈ l.
Proof. by rewrite Slice_perm. Qed.

Lemma Slice_length less l : length (Slice less l) = length l.
Proof. by rewrite Slice_perm. Qed.

(** The first element that passes a test is a least one. *)
Lemma StronglySorted_find (R : A -> A -> Prop) (p : A -> bool) l x :
  StronglySorted R l -> List.find p l = Some x ->
  forall y, y ∈ l -> p y = true -> y = x \/ R x y.
Proof.
  induction 1 as [|a l Hs IH Ha]; [done|]. cbn. destruct (p a) eqn:Hp; intros E.
  - simplify_eq. intros y [-> | Hy]%elem_of_cons Hpy; [by left|].
    right. rewrite Forall_forall in Ha. by apply Ha.
  - intros y [-> | Hy]%elem_of_cons Hpy; [congruence|]. by apply IH.
Qed.
End Lemmas.

(** ** Insertion sort *)

Fixpoint insert_sorted {A} (less : A -> A -> bool) (x : A) (l : list A) : list A :=
  match l with
  | [] => [x]
  | y :: l' => if less y x then y :: insert_sorted less x l' else x :: l
  end.

Fixpoint insertion_sort {A} (less : A -> A -> bool) (l : list A) : list A :=
  match l with [] => [] | x :: l => insert_sorted less x (insertion_sort less l) end.

Lemma insert_sorted_perm {A} (less : A -> A -> bool) x l : insert_sorted less x l ≡ₚ x :: l.
Proof.
  induction l as [|y l IH]; cbn; [done|]. destruct (less y x); [|done].
  rewrite IH. apply Permutation_swap.
Qed.

Lemma insertion_sort_perm {A} (less : A -> A -> bool) l : insertion_sort less l ≡ₚ l.
Proof. induction l as [|x l IH]; cbn; [done|]. by rewrite insert_sorted_perm, IH. Qed.

Lemma insert_sorted_sorted {A} (less : A -> A -> bool) x l :
  StrictWeakOn (.∈ x :: l) less -> StronglySorted (not_after less) l ->
  StronglySorted (not_after less) (insert_sorted less x l).
Proof.
  intros Hw Hl. induction Hl as [|y l Hs IH Hy]; cbn; [by repeat constructor|].
  rewrite Forall_forall in Hy. destruct (less y x) eqn:E.
  - constructor; [apply IH; eapply StrictWeakOn_weaken; [|done]; set_solver|].
    apply Forall_forall. intros z Hz. rewrite insert_sorted_perm in Hz.
    apply elem_of_cons in Hz as [-> | Hz]; [|by apply Hy].
    apply (StrictWeakOn_asym _ _ _ _ Hw); set_solver.
  - constructor; [by constructor; [|apply Forall_forall]|]. constructor; [done|].
    apply Forall_forall. intros z Hz. specialize (Hy z Hz). unfold not_after in *.
    apply (on_ntrans Hw z y x); set_solver.
Qed.

(** A sorter for the examples. *)
Program Definition InsertionSort : SortSlice := {| Slice A := @insertion_sort A |}.
Next Obligation. intros. apply insertion_sort_perm. Qed.
Next Obligation.
  intros A less l. induction l as [|x l IH]; cbn; intros Hw; [constructor|].
  apply insert_sorted_sorted.
  - eapply StrictWeakOn_weaken; [|done]. intros y. by rewrite insertion_sort_perm.
  - apply IH. eapply StrictWeakOn_weaken; [|done]. set_solver.
Qed.
