(* ===== verification/Timeline.v ===== *)
(** * WAL file names, segment and delta numbers

    [src/internal/databases/postgres]: [timeline.go], [wal_segment_no.go],
    [delta_no.go] and [wal_delta_util.go], with [StripWalFileName] of
    [src/utility/utility.go]. A WAL file is named by its timeline and its
    segment number; sixteen consecutive segments share a delta file. *)

From S2P Require Import Prelude GoIO GoStrings.
Open Scope Z_scope.

(** ** Errors of the package *)

Inductive pgError :=
| NumError_ (e : NumError)
| NotWalFilenameError (name : string)
| IncorrectLogSegNoError (name : string)
| IncorrectBackupNameError (name : string)
| BytesPerWalSegmentError
| HistoryFileNotFoundError (name : string)
| ArchiveNonExistenceError (name : string)
| ObjectNotFoundError (name : string)
| NoBackupsFoundError
| NoCorrectBackupFoundError
| NoSuchFileError (name : string)
| DeltaFileWriterNotFoundError (name : string)
| CantDiscardWalDataError
| ForbiddenActionError (message : string)
| BackupHasPermanentBackupInFutureError (name : string)
| errNotFound
| StackOverflow
| External (what : string)
| WalParsing (e : GoIO.error)
| Wrapped (message : string) (e : pgError)
| Panic.

#[export] Instance pgError_eq_dec : EqDecision pgError.
Proof. solve_decision. Defined.

(** [errors.Cause] *)
Fixpoint PgCause (e : pgError) : pgError :=
  match e with Wrapped _ e => PgCause e | e => e end.

(** ** The segment size *)

(** The package variables [SetWalSize] assigns at start-up. *)
Class WalConfig := mkWalConfig {
  WalSegmentSize : Z;
  xLogSegmentsPerXLogID : Z
}.

(** [SetWalSize]; it panics on a zero size. *)
Definition SetWalSize (sizeMb : Z) : WalConfig :=
  let size := u64 (sizeMb * 1024 * 1024) in
  mkWalConfig size (0x100000000 / size).

Definition DefaultWalConfig : WalConfig :=
  mkWalConfig (16 * 1024 * 1024) (0x100000000 / (16 * 1024 * 1024)).

Class WalConfigOk (cfg : WalConfig) : Prop := {
  size_pos : 0 < WalSegmentSize;
  per_def : xLogSegmentsPerXLogID = 0x100000000 / WalSegmentSize;
  per_pos : 0 < xLogSegmentsPerXLogID
}.

Lemma SetWalSize_ok sizeMb : 1 <= sizeMb <= 4096 -> WalConfigOk (SetWalSize sizeMb).
Proof.
  intros Hs. unfold SetWalSize. rewrite wrap_id by (unfold in_width; lia). split; cbn.
  - lia.
  - done.
  - apply Z.div_str_pos. lia.
Qed.

Definition WalFileInDelta : Z := 16.
Definition DeltaFilenameSuffix : string := "_delta".
Definition PartFilenameSuffix : string := "_part".
Definition BackupNamePrefix : string := "base_".

(** ** File names *)

Section Names.
Context {cfg : WalConfig}.

Definition formatWALFileName (timeline logSegNo : Z) : string :=
  fmt08X timeline +s fmt08X (logSegNo / xLogSegmentsPerXLogID) +s
  fmt08X (logSegNo mod xLogSegmentsPerXLogID).

(** The slices are in range after the length check. *)
Definition ParseWALFilename (name : string) : res pgError (Z * Z) :=
  if negb (slen name =? 24)%nat then Err (NotWalFilenameError name)
  else
    timelineID ← res_map_err NumError_ (ParseUint (stake 8 name) 0x10 32);
    logSegNoHi ← res_map_err NumError_ (ParseUint (stake 8 (sdrop 8 name)) 0x10 32);
    logSegNoLo ← res_map_err NumError_ (ParseUint (sdrop 16 name) 0x10 32);
    if xLogSegmentsPerXLogID <=? logSegNoLo then Err (IncorrectLogSegNoError name)
    else Ok (timelineID, u64 (logSegNoHi * xLogSegmentsPerXLogID + logSegNoLo)).

(** The first match of [[0-9A-F]{24}]. *)
Definition TryFetchTimelineAndLogSegNo (objectName : string) : option (Z * Z) :=
  match findFixed isUpperHex 24 objectName with
  | Some foundLsn =>
      match ParseWALFilename foundLsn with
      | Ok x => Some x
      | Err _ => None
      end
  | None => None
  end.

Definition isWalFilename (filename : string) : bool := is_ok (ParseWALFilename filename).

Definition GetNextWalFilename (name : string) : res pgError string :=
  '(timelineID, logSegNo) ← ParseWALFilename name;
  Ok (formatWALFileName timelineID (u64 (logSegNo + 1))).

(** The LSN, the decision and the timeline. *)
Definition shouldPrefault (name : string) : res pgError (Z * bool * Z) :=
  '(timelineID, logSegNo) ← ParseWALFilename name;
  if negb (logSegNo mod WalFileInDelta =? 0) then Ok (0, false, 0)
  else
    let logSegNo := u64 (logSegNo + WalFileInDelta) in
    Ok (u64 (logSegNo * WalSegmentSize), true, timelineID).
End Names.

Definition ParseTimelineFromString (timelineString : string) : res pgError Z :=
  res_map_err NumError_ (ParseUint timelineString 16 32).

Definition ParseTimelineFromBackupName (backupName : string) : res pgError Z :=
  if (slen backupName =? 0)%nat then Err (IncorrectBackupNameError backupName)
  else
    let prefixLength := slen BackupNamePrefix in
    match slice backupName prefixLength (prefixLength + 8) with
    | None => Err Panic
    | Some s => ParseTimelineFromString s
    end.

(** [utility.StripWalFileName] *)
Definition StripWalFileName (path : string) : string :=
  match findFixed isUpperHex 24 path with
  | Some foundLsn => foundLsn
  | None => "ZZZZZZZZZZZZZZZZZZZZZZZZ"
  end.

(** ** Segment numbers *)

Module WalSegmentNo.
Section Ops.
Context {cfg : WalConfig}.

Definition newWalSegmentNo (lsn : Z) : Z := lsn / WalSegmentSize.
Definition newWalSegmentNoFromFilename (filename : string) : res pgError Z :=
  '(_, no) ← ParseWALFilename filename; Ok no.
Definition add (walSegmentNo n : Z) : Z := u64 (walSegmentNo + n).
Definition sub (walSegmentNo n : Z) : Z := u64 (walSegmentNo - n).
Definition next (walSegmentNo : Z) : Z := add walSegmentNo 1.
Definition previous (walSegmentNo : Z) : Z := sub walSegmentNo 1.
Definition firstLsn (walSegmentNo : Z) : Z := u64 (walSegmentNo * WalSegmentSize).
Definition getFilename (walSegmentNo timeline : Z) : string :=
  fmt08X timeline +s fmt08X (walSegmentNo / xLogSegmentsPerXLogID) +s
  fmt08X (walSegmentNo mod xLogSegmentsPerXLogID).
End Ops.
End WalSegmentNo.

(** [getWalFilename]: [query] is the answer of the server to [readTimeline]'s
    query, the timeline and [bytes_per_wal_segment]. *)
Definition readTimeline {cfg : WalConfig} (query : res pgError (Z * Z)) : res pgError Z :=
  match query with
  | Ok (timeline, bytesPerWalSegment) =>
      if negb (bytesPerWalSegment =? WalSegmentSize) then Err BytesPerWalSegmentError
      else Ok timeline
  | Err err => Err err
  end.

Definition getWalFilename {cfg : WalConfig} (lsn : Z) (query : res pgError (Z * Z))
  : res pgError (string * Z) :=
  timeline ← readTimeline query;
  let walSegmentNo := WalSegmentNo.newWalSegmentNo (u64 (lsn - 1)) in
  Ok (WalSegmentNo.getFilename walSegmentNo timeline, timeline).

(** ** Delta numbers *)

Module DeltaNo.
Section Ops.
Context {cfg : WalConfig}.

Definition newDeltaNoFromWalSegmentNo (walSegmentNo : Z) : Z :=
  u64 (walSegmentNo - walSegmentNo mod WalFileInDelta).
Definition newDeltaNoFromLsn (lsn : Z) : Z :=
  newDeltaNoFromWalSegmentNo (WalSegmentNo.newWalSegmentNo lsn).
Definition newDeltaNoFromFilename (filename : string) : res pgError Z :=
  '(_, no) ← ParseWALFilename (TrimSuffix filename DeltaFilenameSuffix); Ok no.
Definition add (deltaNo n : Z) : Z := u64 (deltaNo + u64 (n * WalFileInDelta)).
Definition sub (deltaNo n : Z) : Z := u64 (deltaNo - u64 (n * WalFileInDelta)).
Definition next (deltaNo : Z) : Z := add deltaNo 1.
Definition previous (deltaNo : Z) : Z := sub deltaNo 1.
Definition firstWalSegmentNo (deltaNo : Z) : Z := deltaNo.
Definition firstLsn (deltaNo : Z) : Z := WalSegmentNo.firstLsn (firstWalSegmentNo deltaNo).
Definition getFilename (deltaNo timeline : Z) : string :=
  WalSegmentNo.getFilename (firstWalSegmentNo deltaNo) timeline +s DeltaFilenameSuffix.
End Ops.
End DeltaNo.

(** ** [wal_delta_util.go] *)

Definition ToPartFilename (deltaFilename : string) : string := deltaFilename +s PartFilenameSuffix.
Definition toDeltaFilename (walFilename : string) : string := walFilename +s DeltaFilenameSuffix.
Definition partFilenameToDelta (partFilename : string) : string := TrimSuffix partFilename "_part".

Section DeltaUtil.
Context {cfg : WalConfig}.

Definition GetDeltaFilenameFor (walFilename : string) : res pgError string :=
  '(timeline, logSegNo) ← ParseWALFilename walFilename;
  let deltaSegNo := u64 (logSegNo - logSegNo mod WalFileInDelta) in
  Ok (toDeltaFilename (formatWALFileName timeline deltaSegNo)).

(** A name that does not parse is at position zero. *)
Definition GetPositionInDelta (walFilename : string) : Z :=
  match ParseWALFilename walFilename with
  | Ok (_, logSegNo) => logSegNo mod WalFileInDelta
  | Err _ => 0
  end.
End DeltaUtil.

(** ** Lemmas *)

(** A timeline and a segment number a file name can carry. *)
Definition name_ok {cfg : WalConfig} (timeline logSegNo : Z) : bool :=
  (0 <=? timeline) && (timeline <? 2 ^ 32) && (0 <=? logSegNo) &&
  (logSegNo <? xLogSegmentsPerXLogID * 2 ^ 32).

Section NameLemmas.
Context {cfg : WalConfig} {ok : WalConfigOk cfg}.
Notation per := xLogSegmentsPerXLogID.

Lemma per_bound : 0 < per <= 2 ^ 32.
Proof.
  split; [apply per_pos|]. rewrite per_def. pose proof size_pos.
  apply Z.div_le_upper_bound; lia.
Qed.

Lemma name_ok_spec t s :
  name_ok t s = true <-> 0 <= t < 2 ^ 32 /\ 0 <= s < per * 2 ^ 32.
Proof. unfold name_ok. rewrite !andb_true_iff, !Z.leb_le, !Z.ltb_lt. lia. Qed.

Lemma name_parts t s :
  name_ok t s = true ->
  0 <= t < 2 ^ 32 /\ 0 <= s / per < 2 ^ 32 /\ 0 <= s mod per < per /\ s < 2 ^ 64.
Proof.
  rewrite name_ok_spec. intros [Ht Hs]. pose proof per_bound.
  split; [done|]. split; [|split; [apply Z.mod_pos_bound; lia|nia]].
  split; [apply Z.div_pos; lia|apply Z.div_lt_upper_bound; lia].
Qed.

Lemma formatWALFileName_hex t s :
  name_ok t s = true ->
  formatWALFileName t s = hexn 8 t +s hexn 8 (s / per) +s hexn 8 (s mod per).
Proof.
  intros Hok. destruct (name_parts t s Hok) as (? & ? & ? & ?). pose proof per_bound.
  unfold formatWALFileName. by rewrite !fmt08X_small by lia.
Qed.

Lemma formatWALFileName_length t s : name_ok t s = true -> slen (formatWALFileName t s) = 24%nat.
Proof. intros. by rewrite formatWALFileName_hex, !slen_app, !slen_hexn. Qed.

Lemma ParseWALFilename_format t s :
  name_ok t s = true -> ParseWALFilename (formatWALFileName t s) = Ok (t, s).
Proof.
  intros Hok. destruct (name_parts t s Hok) as (? & ? & ? & ?). pose proof per_bound.
  unfold ParseWALFilename. rewrite formatWALFileName_length by done. cbn [negb Nat.eqb].
  rewrite formatWALFileName_hex by done.
  change 16%nat with (8 + 8)%nat.
  rewrite sdrop_add, !sdrop_app, !stake_app by apply slen_hexn. rewrite !ParseUint_hexn by (cbn; lia).
  cbn -[Z.div Z.modulo Z.mul Z.add]. rewrite (proj2 (Z.leb_gt _ _)) by lia.
  rewrite wrap_id.
  - do 2 f_equal. rewrite Z.mul_comm. symmetry. apply Z.div_mod. lia.
  - unfold in_width. pose proof (Z.div_mod s per). lia.
Qed.

Lemma ParseWALFilename_inv name t s :
  ParseWALFilename name = Ok (t, s) ->
  name_ok t s = true /\ formatWALFileName t s = hexUpper name.
Proof.
  unfold ParseWALFilename. case_bool; [done|]. bool_to_prop. pose proof per_bound.
  destruct (ParseUint (stake 8 name) 16 32) as [t0|] eqn:E1; [|done].
  destruct (ParseUint (stake 8 (sdrop 8 name)) 16 32) as [hi|] eqn:E2; [|done].
  destruct (ParseUint (sdrop 16 name) 16 32) as [lo|] eqn:E3; [|done].
  cbn -[Z.mul Z.add wrap]. case_bool; [done|]. bool_to_prop. intros [= <- <-].
  apply ParseUint_inv in E1 as (H1 & _ & U1), E2 as (H2 & _ & U2), E3 as (H3 & _ & U3).
  rewrite ?slen_stake, ?slen_sdrop in *.
  replace (slen name) with 24%nat in * by done. cbn [Nat.min Nat.sub] in *.
  rewrite wrap_id by (unfold in_width; nia).
  assert (name_ok t0 (hi * per + lo) = true) as Hok by (apply name_ok_spec; nia).
  split; [done|]. rewrite formatWALFileName_hex by done.
  rewrite Z.div_add_l, (Z.div_small lo per), Z.add_0_r by lia.
  rewrite Z.add_comm, Z.mod_add, (Z.mod_small lo per) by lia.
  rewrite <- U1, <- U2, <- U3.
  assert (forall a b, hexUpper (a +s b) = hexUpper a +s hexUpper b) as Hu.
  { intros a b. induction a; cbn; congruence. }
  rewrite <- !Hu. f_equal.
  change 16%nat with (8 + 8)%nat. by rewrite sdrop_add, !stake_sdrop.
Qed.

(** Names compare as the pairs they carry. *)
Lemma formatWALFileName_compare t s t' s' :
  name_ok t s = true -> name_ok t' s' = true ->
  String.compare (formatWALFileName t s) (formatWALFileName t' s') =
    match t ?= t' with Eq => s ?= s' | c => c end.
Proof.
  intros H1 H2. rewrite !formatWALFileName_hex by done.
  destruct (name_parts t s H1) as (? & ? & ? & ?), (name_parts t' s' H2) as (? & ? & ? & ?).
  pose proof per_bound.
  rewrite !compare_app by (by rewrite !slen_hexn). rewrite !hexn_compare by lia.
  change (16 ^ Z.of_nat 8) with (2 ^ 32). rewrite !(Z.mod_small _ (2 ^ 32)) by lia.
  destruct (t ?= t') eqn:Et; [|done|done].
  assert (per <> 0) as Hper by lia.
  pose proof (Z.div_mod s per Hper). pose proof (Z.div_mod s' per Hper).
  symmetry. destruct (Z.compare_spec (s / per) (s' / per)) as [E|E|E].
  - destruct (Z.compare_spec (s mod per) (s' mod per)) as [E'|E'|E'];
      [apply Z.compare_eq_iff|apply Z.compare_lt_iff|apply Z.compare_gt_iff];
      rewrite E in *; lia.
  - apply Z.compare_lt_iff.
    pose proof (Z.mul_le_mono_nonneg_l (s / per + 1) (s' / per) per). lia.
  - apply Z.compare_gt_iff.
    pose proof (Z.mul_le_mono_nonneg_l (s' / per + 1) (s / per) per). lia.
Qed.

Lemma StripWalFileName_format t s suffix :
  name_ok t s = true -> StripWalFileName (formatWALFileName t s +s suffix) = formatWALFileName t s.
Proof.
  intros Hok. unfold StripWalFileName. rewrite findFixed_prefix; [done| |].
  - by apply formatWALFileName_length.
  - by rewrite formatWALFileName_hex, !allIn_app, !allIn_hexn.
Qed.

Lemma TryFetch_format t s suffix :
  name_ok t s = true ->
  TryFetchTimelineAndLogSegNo (formatWALFileName t s +s suffix) = Some (t, s).
Proof.
  intros Hok. unfold TryFetchTimelineAndLogSegNo. rewrite findFixed_prefix.
  - by rewrite ParseWALFilename_format.
  - by apply formatWALFileName_length.
  - by rewrite formatWALFileName_hex, !allIn_app, !allIn_hexn.
Qed.

Lemma delta_of_segment s :
  0 <= s < 2 ^ 64 ->
  DeltaNo.newDeltaNoFromWalSegmentNo s = s - s mod 16 /\ 0 <= s mod 16 < 16 /\ s mod 16 <= s.
Proof.
  intros Hs. unfold DeltaNo.newDeltaNoFromWalSegmentNo, WalFileInDelta.
  pose proof (Z.mod_pos_bound s 16). pose proof (Z.mod_le s 16).
  rewrite wrap_id; [lia|]. unfold in_width. lia.
Qed.

Lemma name_ok_delta t s : name_ok t s = true -> name_ok t (s - s mod 16) = true.
Proof.
  rewrite !name_ok_spec. intros [Ht Hs].
  pose proof (Z.mod_pos_bound s 16). pose proof (Z.mod_le s 16). lia.
Qed.
End NameLemmas.

(** ** Theorems *)

(** A WAL file name carries exactly one timeline and segment number:
    formatting is undone by parsing, also behind a suffix such as a
    compressor's extension, and a name that parses is, up to the case of its
    digits, the one that formatting gives. *)
Theorem wal_name_codec {cfg : WalConfig} {ok : WalConfigOk cfg} :
  (forall timeline logSegNo suffix, name_ok timeline logSegNo = true ->
     ParseWALFilename (formatWALFileName timeline logSegNo) = Ok (timeline, logSegNo) /\
     TryFetchTimelineAndLogSegNo (formatWALFileName timeline logSegNo +s suffix) =
       Some (timeline, logSegNo)) /\
  (forall name timeline logSegNo, ParseWALFilename name = Ok (timeline, logSegNo) ->
     name_ok timeline logSegNo = true /\ formatWALFileName timeline logSegNo = hexUpper name).
Proof.
  split; intros; [split; [by apply ParseWALFilename_format|by apply TryFetch_format]|].
  by apply ParseWALFilename_inv.
Qed.

Lemma DefaultWalConfig_ok : WalConfigOk DefaultWalConfig.
Proof. by split. Qed.

Lemma wal_name_codec_witness :
  @ParseWALFilename DefaultWalConfig "0000000A00000001000000FF" = Ok (10, 511) /\
  @formatWALFileName DefaultWalConfig 10 511 = hexUpper "0000000a00000001000000ff".
Proof.
  split.
  - refine (proj1 (proj1 (@wal_name_codec DefaultWalConfig DefaultWalConfig_ok) 10 511 "" _)).
    reflexivity.
  - refine (proj2 (proj2 (@wal_name_codec DefaultWalConfig DefaultWalConfig_ok)
      "0000000a00000001000000ff" 10 511 _)).
    vm_compute. reflexivity.
Defined.

(** The lexicographic order of the names stripped from two objects, which
    deletion and garbage collection compare, is the order of their timelines
    and, on one timeline, of their segment numbers. *)
Theorem wal_name_order {cfg : WalConfig} {ok : WalConfigOk cfg} (t s t' s' : Z) (ext ext' : string) :
  name_ok t s = true -> name_ok t' s' = true ->
  sltb (StripWalFileName (formatWALFileName t s +s ext))
       (StripWalFileName (formatWALFileName t' s' +s ext')) =
    ((t <? t') || ((t =? t') && (s <? s'))).
Proof.
  intros H1 H2. rewrite !StripWalFileName_format by done. unfold Stdlib.Strings.String.ltb.
  rewrite formatWALFileName_compare by done. unfold Z.ltb.
  destruct (Z.compare_spec t t') as [->|E|E].
  - rewrite Z.eqb_refl. by destruct (s ?= s').
  - done.
  - destruct (t =? t') eqn:Et; [apply Z.eqb_eq in Et; lia|]. done.
Qed.

Lemma wal_name_order_witness :
  sltb (StripWalFileName "0000000100000001000000FF.lz4") (StripWalFileName "000000010000000200000000.br")
    = true.
Proof.
  refine (@wal_name_order DefaultWalConfig DefaultWalConfig_ok 1 511 1 512 ".lz4" ".br" _ _);
    reflexivity.
Defined.

(** A segment is found from its delta file and its position: the delta
    file named for a WAL file parses back to the first of sixteen segments,
    the position is the distance to it, and the LSNs of the segment lie
    between the delta's first LSN and that of the next delta. *)
Theorem delta_of_wal_file {cfg : WalConfig} {ok : WalConfigOk cfg} (t s lsn : Z) :
  name_ok t s = true ->
  0 <= lsn -> WalSegmentNo.newWalSegmentNo lsn = s -> (s + 16) * WalSegmentSize < 2 ^ 64 ->
  exists deltaFilename deltaNo,
    GetDeltaFilenameFor (formatWALFileName t s) = Ok deltaFilename /\
    DeltaNo.newDeltaNoFromFilename deltaFilename = Ok deltaNo /\
    DeltaNo.getFilename deltaNo t = deltaFilename /\
    DeltaNo.newDeltaNoFromLsn lsn = deltaNo /\
    s = deltaNo + GetPositionInDelta (formatWALFileName t s) /\
    DeltaNo.firstLsn deltaNo <= lsn < DeltaNo.firstLsn (DeltaNo.next deltaNo).
Proof.
  intros Hok Hl Hs Hw. destruct (name_parts t s Hok) as (? & ? & ? & ?).
  assert (0 <= s) by (apply name_ok_spec in Hok; lia).
  destruct (delta_of_segment s ltac:(lia)) as (Hd & Hm & Hle). pose proof size_pos.
  pose proof (name_ok_delta t s Hok) as Hok'.
  exists (toDeltaFilename (formatWALFileName t (s - s mod 16))), (s - s mod 16).
  unfold GetDeltaFilenameFor, DeltaNo.newDeltaNoFromFilename, GetPositionInDelta, toDeltaFilename.
  rewrite TrimSuffix_app, !ParseWALFilename_format by done. cbn -[Z.modulo Z.sub wrap formatWALFileName].
  unfold WalFileInDelta at 1. rewrite wrap_id by (unfold in_width; lia).
  split; [done|]. split; [done|]. split; [done|].
  split; [unfold DeltaNo.newDeltaNoFromLsn; by rewrite Hs|].
  split; [unfold WalFileInDelta; lia|].
  assert (s * WalSegmentSize <= lsn < (s + 1) * WalSegmentSize) as Hlsn.
  { unfold WalSegmentNo.newWalSegmentNo in Hs. subst s.
    assert (WalSegmentSize <> 0) as Hne by lia.
    pose proof (Z.div_mod lsn WalSegmentSize Hne).
    pose proof (Z.mod_pos_bound lsn WalSegmentSize size_pos). lia. }
  unfold DeltaNo.firstLsn, DeltaNo.next, DeltaNo.add, DeltaNo.firstWalSegmentNo,
    WalSegmentNo.firstLsn, WalFileInDelta. change (u64 (1 * 16)) with 16.
  set (m := s mod 16) in *. clearbody m.
  assert (s - m + 16 < 2 ^ 64) by nia.
  rewrite (wrap_id 64 (s - m + 16)) by (unfold in_width; lia).
  assert (0 <= (s - m) * WalSegmentSize < 2 ^ 64) by nia.
  assert (0 <= (s - m + 16) * WalSegmentSize < 2 ^ 64) by nia.
  rewrite !wrap_id by (unfold in_width; lia). nia.
Qed.

Lemma delta_of_wal_file_witness :
  exists deltaFilename deltaNo,
    @GetDeltaFilenameFor DefaultWalConfig "000000010000000200000013" = Ok deltaFilename /\
    @DeltaNo.newDeltaNoFromFilename DefaultWalConfig deltaFilename = Ok deltaNo /\
    @DeltaNo.getFilename DefaultWalConfig deltaNo 1 = deltaFilename /\
    @DeltaNo.newDeltaNoFromLsn DefaultWalConfig 8908767300 = deltaNo /\
    531 = deltaNo + @GetPositionInDelta DefaultWalConfig "000000010000000200000013" /\
    @DeltaNo.firstLsn DefaultWalConfig deltaNo <= 8908767300
      < @DeltaNo.firstLsn DefaultWalConfig (@DeltaNo.next deltaNo).
Proof.
  refine (@delta_of_wal_file DefaultWalConfig DefaultWalConfig_ok 1 531 8908767300 _ _ _ _);
    [reflexivity|lia|reflexivity|reflexivity].
Defined.
