(* ===== verification/Storage.v ===== *)
(** * Storage and decompression

    [src/internal/fetch_helper.go] and [src/internal/compression]: how an
    object is found under the extensions of the known decompressors, the last
    one used first. The storage ([github.com/wal-g/storages]) and the
    decompressors are parameters. *)

From S2P Require Import Prelude GoStrings Timeline.

(** The operation of [storage.Folder] these components read with. *)
Class StorageFolder (Folder : Type) :=
  ReadObject : Folder -> string -> res pgError (list byte).

(** [compression.Decompressor]: what is written to [dst], and the error. The
    crypter, when one is configured, is part of it. *)
Record Decompressor := mkDecompressor {
  FileExtension : string;
  Decompress : list byte -> list byte * option pgError
}.

(** [TryDownloadFile]: [None] when the object does not exist. *)
Definition TryDownloadFile {Folder} `{StorageFolder Folder} (folder : Folder) (path : string)
  : res pgError (option (list byte)) :=
  match ReadObject folder path with
  | Ok walFileReader => Ok (Some walFileReader)
  | Err err => match PgCause err with ObjectNotFoundError _ => Ok None | _ => Err err end
  end.

Section Download.
Context {Folder : Type} `{StorageFolder Folder}.
(** [compression.Decompressors]. *)
Variable Decompressors : list Decompressor.

Definition FindDecompressor (fileExtension : string) : option Decompressor :=
  List.find (fun d => bool_decide (FileExtension d = fileExtension)) Decompressors.

(** The interface values compare by their dynamic types, which the
    extensions tell apart. *)
Definition convertDecompressorList (decompressors : list Decompressor) (last : Decompressor)
  : list Decompressor :=
  last :: List.filter (fun d => negb (bool_decide (FileExtension d = FileExtension last)))
            decompressors.

(** [cache] is the extension in [.walg_decompressor_cache], if it can be
    read. *)
Definition putCachedDecompressorInFirstPlace (cache : option string)
    (decompressors : list Decompressor) : list Decompressor :=
  match cache ≫= FindDecompressor with
  | None => decompressors
  | Some last =>
      match decompressors with
      | d :: _ => if bool_decide (FileExtension d = FileExtension last) then decompressors
                  else convertDecompressorList decompressors last
      | [] => convertDecompressorList decompressors last
      end
  end.

(** The loop over the decompressors: the stream the returned reader
    delivers, its closing error, and the cache afterwards. *)
Fixpoint downloadLoop (folder : Folder) (fileName : string) (cache : option string)
    (ds : list Decompressor) : res pgError (list byte * option pgError) * option string :=
  match ds with
  | [] => (Err (ArchiveNonExistenceError fileName), cache)
  | decompressor :: ds =>
      match TryDownloadFile folder (fileName +s "." +s FileExtension decompressor) with
      | Err err => (Err err, cache)
      | Ok None => downloadLoop folder fileName cache ds
      | Ok (Some archiveReader) =>
          (Ok (Decompress decompressor archiveReader), Some (FileExtension decompressor))
      end
  end.

Definition DownloadAndDecompressStorageFile (cache : option string) (folder : Folder)
    (fileName : string) : res pgError (list byte * option pgError) * option string :=
  downloadLoop folder fileName cache (putCachedDecompressorInFirstPlace cache Decompressors).

(** ** Lemmas *)

(** The object of [fileName] under the extension of [d]. *)
Definition object_of (folder : Folder) (fileName : string) (d : Decompressor) :=
  TryDownloadFile folder (fileName +s "." +s FileExtension d).

Lemma putCached_elem cache d :
  NoDup (FileExtension <$> Decompressors) ->
  d ∈ putCachedDecompressorInFirstPlace cache Decompressors <-> d ∈ Decompressors.
Proof.
  intros Hnd. unfold putCachedDecompressorInFirstPlace.
  destruct (cache ≫= FindDecompressor) as [last|] eqn:E; [|done].
  assert (last ∈ Decompressors) as Hin.
  { destruct cache as [c|]; [|done]. cbn in E. unfold FindDecompressor in E.
    apply find_some in E as [E _]. by apply list_elem_of_In. }
  assert (d ∈ convertDecompressorList Decompressors last <-> d ∈ Decompressors) as Hc.
  { unfold convertDecompressorList.
    rewrite elem_of_cons, !list_elem_of_In, List.filter_In, negb_true_iff, bool_decide_eq_false.
    split.
    - intros [-> | [? _]]; [by apply list_elem_of_In|done].
    - intros Hd. destruct (decide (FileExtension d = FileExtension last)) as [Heq|]; [|by right].
      left. apply list_elem_of_In in Hd.
      apply list_elem_of_lookup in Hd as [i Hi], Hin as [j Hj].
      assert (i = j) as ->.
      { eapply (NoDup_lookup _ i j (FileExtension d)); [exact Hnd| |];
          rewrite list_lookup_fmap, ?Hi, ?Hj; cbn; congruence. }
      congruence. }
  destruct Decompressors as [|d0 ds]; [done|]. by case_bool_decide.
Qed.

Lemma downloadLoop_spec folder fileName cache ds :
  match downloadLoop folder fileName cache ds with
  | (Ok stream, cache') =>
      exists d content, d ∈ ds /\ object_of folder fileName d = Ok (Some content) /\
        stream = Decompress d content /\ cache' = Some (FileExtension d)
  | (Err err, cache') => cache' = cache /\
      ((exists d, d ∈ ds /\ object_of folder fileName d = Err err) \/
       (err = ArchiveNonExistenceError fileName /\
        forall d, d ∈ ds -> object_of folder fileName d = Ok None))
  end.
Proof.
  unfold object_of. induction ds as [|d ds IH]; cbn [downloadLoop].
  - split; [done|]. right. split; [done|]. intros d Hd. by apply elem_of_nil in Hd.
  - destruct (TryDownloadFile _ _) as [[content|]|err] eqn:E.
    + exists d, content. split; [left|done].
    + destruct (downloadLoop _ _ _ _) as [[stream|err] cache'].
      * destruct IH as (d' & c & Hd & ?). exists d', c. split; [by right|done].
      * destruct IH as (-> & [(d' & Hd & ?) | (-> & Hn)]); split; try done.
        -- left. exists d'. split; [by right|done].
        -- right. split; [done|]. intros d' [-> | Hd]%elem_of_cons; auto.
    + split; [done|]. left. exists d. split; [left|done].
Qed.
End Download.

(** A file is found under any of the known extensions whatever the
    cached extension is: it is reported missing only if no extension has an
    object, an error is the storage's for one of the objects, and otherwise
    the stream decompresses an object of the file with the decompressor of
    its extension, which is cached. *)
Theorem DownloadAndDecompress_spec {Folder} `{StorageFolder Folder} (Decompressors : list Decompressor)
    (cache : option string) (folder : Folder) (fileName : string) :
  NoDup (FileExtension <$> Decompressors) ->
  match DownloadAndDecompressStorageFile Decompressors cache folder fileName with
  | (Ok stream, cache') =>
      exists d content, d ∈ Decompressors /\ object_of folder fileName d = Ok (Some content) /\
        stream = Decompress d content /\ cache' = Some (FileExtension d)
  | (Err err, cache') => cache' = cache /\
      ((exists d, d ∈ Decompressors /\ object_of folder fileName d = Err err) \/
       (err = ArchiveNonExistenceError fileName /\
        forall d, d ∈ Decompressors -> object_of folder fileName d = Ok None))
  end.
Proof.
  intros Hnd. unfold DownloadAndDecompressStorageFile.
  pose proof (downloadLoop_spec folder fileName cache
    (putCachedDecompressorInFirstPlace Decompressors cache Decompressors)) as Hl.
  destruct (downloadLoop _ _ _ _) as [[stream|err] cache'].
  - destruct Hl as (d & c & Hd & ?). rewrite putCached_elem in Hd by done. by exists d, c.
  - destruct Hl as (-> & [(d & Hd & ?) | (-> & Hn)]); split; try done.
    + left. exists d. by rewrite putCached_elem in Hd.
    + right. split; [done|]. intros d Hd. apply Hn. by rewrite putCached_elem.
Qed.

(** A folder with the objects of a map. *)
#[export] Instance gmapFolder : StorageFolder (gmap string (list byte)) :=
  fun folder name => match folder !! name with
                     | Some content => Ok content
                     | None => Err (ObjectNotFoundError name)
                     end.

Definition lz4 : Decompressor := mkDecompressor "lz4" (fun bs => (bs, None)).
Definition lzma : Decompressor := mkDecompressor "lzma" (fun bs => (rev bs, None)).

Lemma DownloadAndDecompress_spec_witness :
  exists d content, d ∈ [lz4; lzma] /\
    object_of ({["x.lz4" := [Byte.x01]]} : gmap string (list byte)) "x" d = Ok (Some content) /\
    ([Byte.x01], None) = Decompress d content /\ Some "lz4" = Some (FileExtension d).
Proof.
  refine (DownloadAndDecompress_spec [lz4; lzma] (Some "lzma")
    ({["x.lz4" := [Byte.x01]]} : gmap string (list byte)) "x" _).
  apply (bool_decide_eq_true_1 _). vm_compute. reflexivity.
Defined.
