(* ===== verification/History.v ===== *)
(** * Timeline history

    [src/internal/databases/postgres]: [timeline_history_record.go], which
    reads the [.history] files of the storage, and [timeline_history.go], the
    history file of the streaming receiver. The LSN parsers of
    [github.com/jackc/pgx] and [pglogrepl] are parameters. *)

From S2P Require Import Prelude GoStrings GoPath GoIO GoSort Timeline Storage.
Open Scope Z_scope.

(** ** Lines *)

(** The token of [bufio.ScanLines] without its end. *)
Fixpoint dropCR (s : string) : string :=
  match s with
  | "" => ""
  | String c "" => if bool_decide (c = Ascii.ascii_of_nat 13) then "" else s
  | String c s => String c (dropCR s)
  end.

(** The text up to the first newline, and what follows it. *)
Fixpoint breakLine (s : string) : string * option string :=
  match s with
  | "" => ("", None)
  | String c s =>
      if bool_decide (c = Ascii.ascii_of_nat 10) then ("", Some s)
      else let '(l, r) := breakLine s in (String c l, r)
  end.

Definition MaxScanTokenSize : Z := 65536.

(** The tokens of a [bufio.Scanner]: it stops before a line that fills its
    buffer. *)
Fixpoint scanLines (fuel : nat) (s : string) : list string :=
  match fuel, s with
  | 0%nat, _ | _, "" => []
  | S fuel, _ =>
      let '(l, r) := breakLine s in
      if MaxScanTokenSize <=? Z.of_nat (slen l) then []
      else dropCR l :: match r with Some r => scanLines fuel r | None => [] end
  end.

Definition ScanText (s : string) : list string := scanLines (slen s) s.

(** ** The rows of a [.history] file *)

Record TimelineHistoryRecord := mkHistoryRecord {
  timeline : Z;
  lsn : Z;
  comment : string
}.

#[export] Instance TimelineHistoryRecord_eq_dec : EqDecision TimelineHistoryRecord.
Proof. solve_decision. Defined.

Definition NewTimelineHistoryRecord (timeline lsn : Z) (comment : string) : TimelineHistoryRecord :=
  mkHistoryRecord timeline lsn comment.

Definition tab : Ascii.ascii := Ascii.ascii_of_nat 9.

Definition isDigit (c : Ascii.ascii) : bool :=
  let n := Z.of_nat (Ascii.nat_of_ascii c) in (48 <=? n) && (n <=? 57).

(** The longest prefix of digits, and what follows it. *)
Fixpoint spanDigits (s : string) : string * string :=
  match s with
  | "" => ("", "")
  | String c r => if isDigit c then let '(d, r) := spanDigits r in (String c d, r) else ("", s)
  end.

(** The text before and after the last tab that has text behind it. *)
Fixpoint splitLastTab (s : string) : option (string * string) :=
  match s with
  | "" => None
  | String c r =>
      match splitLastTab r with
      | Some (a, b) => Some (String c a, b)
      | None => if bool_decide (c = tab) && negb (bool_decide (r = "")) then Some ("", r) else None
      end
  end.

(** [^(\d+)\t(.+)\t(.+)$] on a line. *)
Definition matchHistoryRow (row : string) : option (string * string * string) :=
  let '(digits, rest) := spanDigits row in
  if bool_decide (digits = "") then None
  else match rest with
       | String t (String c rest) =>
           if bool_decide (t = tab) then
             match splitLastTab rest with
             | Some (a, b) => Some (digits, String c a, b)
             | None => None
             end
           else None
       | _ => None
       end.

Section Records.
(** [pgx.ParseLSN] *)
Variable ParseLSN : string -> res pgError Z.

(** [None]: the row is not a record. *)
Definition newHistoryRecordFromString (row : string)
  : res pgError (option TimelineHistoryRecord) :=
  match matchHistoryRow row with
  | None => Ok None
  | Some (m1, m2, m3) =>
      timeline ← res_map_err NumError_ (ParseUint m1 10 32);
      lsn ← ParseLSN m2;
      Ok (Some (mkHistoryRecord timeline lsn m3))
  end.

Fixpoint parseHistoryRows (rows : list string) (historyRecords : list TimelineHistoryRecord)
  : res pgError (list TimelineHistoryRecord) :=
  match rows with
  | [] => Ok historyRecords
  | nextRow :: rows =>
      if bool_decide (nextRow = "") then parseHistoryRows rows historyRecords
      else
        record ← newHistoryRecordFromString nextRow;
        match record with
        | None => parseHistoryRows rows historyRecords
        | Some record => parseHistoryRows rows (historyRecords ++ [record])
        end
  end.

(** The stream of the file and the error that closes it, which the scanner
    keeps and the function does not ask for. *)
Definition parseHistoryFile (historyReader : string * option pgError)
  : res pgError (list TimelineHistoryRecord) :=
  parseHistoryRows (ScanText (fst historyReader)) [].

Section Folder.
Context {Folder : Type} `{StorageFolder Folder}.
Variable Decompressors : list Decompressor.

Definition historyFileName (timeline : Z) : string := fmt08X timeline +s ".history".

Definition bytesToString (bs : list byte) : string := String.string_of_list_byte bs.

(** The cached decompressor is threaded through. *)
Definition getHistoryFileFromStorage (cache : option string) (timeline : Z) (walFolder : Folder)
  : res pgError (string * option pgError) * option string :=
  let name := historyFileName timeline in
  match DownloadAndDecompressStorageFile Decompressors cache walFolder name with
  | (Ok (content, e), cache) => (Ok (bytesToString content, e), cache)
  | (Err (ArchiveNonExistenceError _), cache) => (Err (HistoryFileNotFoundError name), cache)
  | (Err err, cache) => (Err (Wrapped name err), cache)
  end.

Definition getTimeLineHistoryRecords (cache : option string) (startTimeline : Z)
    (walFolder : Folder) : res pgError (list TimelineHistoryRecord) * option string :=
  let '(file, cache) := getHistoryFileFromStorage cache startTimeline walFolder in
  (historyReadCloser ← file; parseHistoryFile historyReadCloser, cache).

(** A later record of the file replaces an earlier one of its segment. *)
Definition createTimelineSwitchMap {cfg : WalConfig} (cache : option string)
    (startTimeline : Z) (walFolder : Folder)
  : res pgError (gmap Z TimelineHistoryRecord) * option string :=
  let '(historyRecords, cache) := getTimeLineHistoryRecords cache startTimeline walFolder in
  (match historyRecords with
   | Err (HistoryFileNotFoundError _) => Ok ∅
   | Err err => Err err
   | Ok historyRecords =>
       Ok (fold_left (fun m record => <[WalSegmentNo.newWalSegmentNo (lsn record) := record]> m)
             historyRecords ∅)
   end, cache).
End Folder.
End Records.

(** ** [timeline_history.go] *)

Record TimeLineHistFileRow := mkHistRow {
  rowTimeLineID : Z;
  StartLSN : Z;
  Comment : string
}.

Record TimeLineHistFile := mkHistFile {
  TimeLineID : Z;
  Filename : string;
  tlhData : string;
  readIndex : nat
}.

Definition NewTimeLineHistFile (timelineid : Z) (filename body : string) : TimeLineHistFile :=
  mkHistFile timelineid filename body 0.

(** The characters of [\s]. *)
Definition isSpace (c : Ascii.ascii) : bool :=
  let n := Ascii.nat_of_ascii c in
  (n =? 9)%nat || (n =? 10)%nat || (n =? 12)%nat || (n =? 13)%nat || (n =? 32)%nat.

(** The matches of [[^\s]+]; [cur] is the one being read. *)
Fixpoint fieldsLoop (s cur : string) : list string :=
  match s with
  | "" => if bool_decide (cur = "") then [] else [cur]
  | String c s =>
      if isSpace c
      then (if bool_decide (cur = "") then [] else [cur]) ++ fieldsLoop s ""
      else fieldsLoop s (cur +s String c "")
  end.

(** [strconv.Atoi] on 64 bits. *)
Definition Atoi (s : string) : res NumError Z :=
  let '(neg, digits) :=
    match s with
    | String c r =>
        if bool_decide (c = Ascii.ascii_of_nat 45) then (true, r)
        else if bool_decide (c = Ascii.ascii_of_nat 43) then (false, r) else (false, s)
    | "" => (false, s)
    end in
  n ← ParseUint digits 10 64;
  if neg then if 2 ^ 63 <? n then Err ErrRange else Ok (- n)
  else if 2 ^ 63 <=? n then Err ErrRange else Ok n.

Section HistFile.
(** [pglogrepl.ParseLSN] *)
Variable ParseLSN : string -> res pgError Z.

(** The row of a line, if it has one. *)
Definition parseHistRow (line : string) : res pgError (option TimeLineHistFileRow) :=
  match take 3 (fieldsLoop (hd "" (splitOn (Ascii.ascii_of_nat 35) line)) "") with
  | c0 :: c1 :: cols =>
      tlid ← res_map_err NumError_ (Atoi c0);
      startLSN ← ParseLSN c1;
      Ok (Some (mkHistRow (u32 tlid) startLSN (hd "" cols)))
  | _ => Ok None
  end.

Fixpoint rowsLoop (lines : list string) (acc : list TimeLineHistFileRow)
  : res pgError (list TimeLineHistFileRow) :=
  match lines with
  | [] => Ok acc
  | line :: lines =>
      row ← parseHistRow line;
      rowsLoop lines (match row with Some row => acc ++ [row] | None => acc end)
  end.

Definition rows (tlh : TimeLineHistFile) : res pgError (list TimeLineHistFileRow) :=
  rowsLoop (splitOn (Ascii.ascii_of_nat 10) (tlhData tlh)) [].

Definition LSNToTimeLine {sorter : SortSlice} (tlh : TimeLineHistFile) (lsn : Z) : res pgError Z :=
  rs ← rows tlh;
  let rs := Slice (fun a b => rowTimeLineID a <? rowTimeLineID b) rs in
  match List.find (fun row => lsn <? StartLSN row) rs with
  | Some row => Ok (rowTimeLineID row)
  | None => Ok (TimeLineID tlh)
  end.
End HistFile.

Definition Name (tlh : TimeLineHistFile) : string := Filename tlh.

(** [TimeLineHistFile.Read] has a value receiver: the advanced [readIndex] is
    that of a copy, and the caller's file is as before. *)
#[export] Instance TimeLineHistFile_Reader : Reader TimeLineHistFile :=
  fun tlh n =>
    let bs := take n (String.list_byte_of_string (sdrop (readIndex tlh) (tlhData tlh))) in
    let readIndex' := (readIndex tlh + length bs)%nat in
    (bs, if (slen (tlhData tlh) <=? readIndex')%nat then Some EOF else None, tlh).

(** ** Lemmas *)

Definition newline : string := String (Ascii.ascii_of_nat 10) "".
#[global] Arguments newline : simpl never.

(** No newline, no carriage return, and short enough for the scanner. *)
Definition plainChar (c : Ascii.ascii) : bool :=
  negb (bool_decide (c = Ascii.ascii_of_nat 10)) && negb (bool_decide (c = Ascii.ascii_of_nat 13)).
Definition line_ok (l : string) : bool :=
  allIn plainChar l && (Z.of_nat (slen l) <? MaxScanTokenSize).

Lemma breakLine_app l rest :
  allIn plainChar l = true -> breakLine (l +s newline +s rest) = (l, Some rest).
Proof.
  induction l as [|c l IH]; cbn; intros Hl; [done|]. bool_to_prop.
  unfold plainChar in *. bool_to_prop. rewrite bool_decide_eq_false_2 by done.
  by rewrite IH.
Qed.

Lemma dropCR_plain l : allIn plainChar l = true -> dropCR l = l.
Proof.
  induction l as [|c l IH]; cbn; intros Hl; [done|]. bool_to_prop.
  unfold plainChar in *. bool_to_prop. destruct l; [by rewrite bool_decide_eq_false_2|].
  by rewrite IH.
Qed.

(** The text of a file with the given lines. *)
Definition unlines (ls : list string) : string := foldr (fun l s => l +s newline +s s) "" ls.

Lemma scanLines_unlines ls : forall fuel,
  (slen (unlines ls) <= fuel)%nat -> forallb line_ok ls = true -> scanLines fuel (unlines ls) = ls.
Proof.
  induction ls as [|l ls IH]; intros fuel Hf Hok; [by destruct fuel|].
  cbn in Hok. apply andb_true_iff in Hok as [Hl Hls]. unfold line_ok in Hl. bool_to_prop.
  cbn [unlines foldr] in *. fold (unlines ls) in *. rewrite !slen_app in Hf.
  change (slen newline) with 1%nat in Hf.
  destruct fuel as [|fuel]; [lia|]. cbn [scanLines].
  destruct (l +s newline +s unlines ls) eqn:E.
  { apply (f_equal slen) in E. rewrite !slen_app in E.
    change (slen newline) with 1%nat in E. cbn in E. lia. }
  rewrite <- E, breakLine_app by done. rewrite (proj2 (Z.leb_gt _ _)) by lia.
  rewrite dropCR_plain by done. f_equal. apply IH; [lia|done].
Qed.

Lemma spanDigits_app d rest :
  allIn isDigit d = true -> spanDigits (d +s String tab rest) = (d, String tab rest).
Proof. induction d as [|c d IH]; cbn; intros Hd; [done|]. bool_to_prop. rewrite H. by rewrite IH. Qed.

Definition notTab (c : Ascii.ascii) : bool := negb (bool_decide (c = tab)).

Lemma splitLastTab_none b : allIn notTab b = true -> splitLastTab b = None.
Proof.
  induction b as [|c b IH]; cbn; intros Hb; [done|]. bool_to_prop. rewrite IH by done.
  unfold notTab in *. bool_to_prop. by rewrite bool_decide_eq_false_2.
Qed.

Lemma splitLastTab_app a b :
  allIn notTab b = true -> b <> "" -> splitLastTab (a +s String tab b) = Some (a, b).
Proof.
  intros Hb Hne. induction a as [|c a IH]; cbn [String.append splitLastTab].
  - rewrite splitLastTab_none by done. rewrite bool_decide_eq_true_2 by done.
    by rewrite bool_decide_eq_false_2.
  - by rewrite IH.
Qed.

(** A row as PostgreSQL writes it matches, and its three parts are found. *)
Lemma matchHistoryRow_ok d a b :
  allIn isDigit d = true -> d <> "" -> a <> "" -> b <> "" -> allIn notTab b = true ->
  matchHistoryRow (d +s String tab (a +s String tab b)) = Some (d, a, b).
Proof.
  intros Hd Hd0 Ha Hb0 Hb. unfold matchHistoryRow. rewrite spanDigits_app by done.
  rewrite bool_decide_eq_false_2 by done. destruct a as [|c a]; [done|].
  cbn [String.append]. rewrite bool_decide_eq_true_2 by done. by rewrite splitLastTab_app.
Qed.

Section RecordLemmas.
Variable ParseLSN : string -> res pgError Z.

(** A line of a history file and the record it stands for. *)
Inductive history_line : string -> option TimelineHistoryRecord -> Prop :=
| hl_record d a b t l :
    allIn isDigit d = true -> ParseUint d 10 32 = Ok t -> ParseLSN a = Ok l ->
    a <> "" -> b <> "" -> allIn notTab b = true ->
    history_line (d +s String tab (a +s String tab b)) (Some (mkHistoryRecord t l b))
| hl_comment row : matchHistoryRow row = None -> history_line row None.

Lemma history_line_parse row r :
  history_line row r -> newHistoryRecordFromString ParseLSN row = Ok r.
Proof.
  intros [d a b t l Hd Ht Hl Ha Hb Hnt | row' Hm]; unfold newHistoryRecordFromString.
  - rewrite matchHistoryRow_ok by (try done; by intros ->). rewrite Ht, Hl. done.
  - by rewrite Hm.
Qed.

Lemma history_line_empty r : history_line "" r -> r = None.
Proof.
  intros Hr. apply history_line_parse in Hr. by inversion Hr.
Qed.

Lemma parseHistoryRows_ok rows rs acc :
  Forall2 history_line rows rs ->
  parseHistoryRows ParseLSN rows acc = Ok (acc ++ omap id rs).
Proof.
  intros Hr. revert acc. induction Hr as [|row r rows rs Hrow Hr IH]; intros acc; cbn.
  - by rewrite app_nil_r.
  - case_bool_decide as Hrow0.
    + subst. apply history_line_empty in Hrow as ->. apply IH.
    + rewrite (history_line_parse _ _ Hrow). cbn. destruct r as [r|]; cbn; rewrite IH; [|done].
      by rewrite <- app_assoc.
Qed.
End RecordLemmas.

(** ** Theorems *)

(** From a history file of records, comments and empty lines, the
    records are read in order; the switch map sends a segment to the last
    record whose LSN lies in it, and is empty when the file is missing. The
    error that ends the stream, if any, is not looked at. *)
Theorem createTimelineSwitchMap_spec {cfg : WalConfig} {Folder} `{StorageFolder Folder}
    (ParseLSN : string -> res pgError Z) (Decompressors : list Decompressor)
    (cache : option string) (startTimeline : Z) (walFolder : Folder)
    (file : res pgError (list byte * option pgError)) (rows : list string)
    (records : list (option TimelineHistoryRecord)) :
  fst (DownloadAndDecompressStorageFile Decompressors cache walFolder
         (historyFileName startTimeline)) = file ->
  match file with
  | Ok (content, _) => bytesToString content = unlines rows
  | Err err => rows = [] /\ err = ArchiveNonExistenceError (historyFileName startTimeline)
  end ->
  forallb line_ok rows = true -> Forall2 (history_line ParseLSN) rows records ->
  exists m, fst (createTimelineSwitchMap ParseLSN Decompressors cache startTimeline walFolder) = Ok m /\
    forall segment, m !! segment =
      last (filter (fun r => WalSegmentNo.newWalSegmentNo (lsn r) = segment) (omap id records)).
Proof.
  intros Hfile Hcont Hok Hrows.
  set (rs := omap id records).
  exists (fold_left (fun m record => <[WalSegmentNo.newWalSegmentNo (lsn record) := record]> m) rs ∅).
  split.
  - unfold createTimelineSwitchMap, getTimeLineHistoryRecords, getHistoryFileFromStorage.
    destruct (DownloadAndDecompressStorageFile _ _ _ _) as [f cache']. cbn in Hfile. subst f.
    destruct file as [[content e]|err].
    + unfold parseHistoryFile. cbn -[unlines]. rewrite Hcont. unfold ScanText.
      rewrite scanLines_unlines by done. by rewrite (parseHistoryRows_ok _ _ records).
    + destruct Hcont as [-> ->]. cbn. inversion Hrows. subst. by subst rs.
  - intros segment. assert (forall m0 : gmap Z TimelineHistoryRecord,
      fold_left (fun m record => <[WalSegmentNo.newWalSegmentNo (lsn record) := record]> m) rs m0 !! segment =
      match last (filter (fun r => WalSegmentNo.newWalSegmentNo (lsn r) = segment) rs) with
      | Some r => Some r
      | None => m0 !! segment
      end) as Hm.
    { clear. induction rs as [|r rs IH]; intros m0; [done|]. cbn [fold_left]. rewrite IH.
      rewrite filter_cons. case_decide as Hr.
      - rewrite last_cons. destruct (last _); [done|]. by rewrite Hr, lookup_insert_eq.
      - destruct (last _); [done|]. by rewrite lookup_insert_ne. }
    rewrite Hm, lookup_empty. by destruct (last _).
Qed.

Definition ex_ParseLSN (s : string) : res pgError Z := Ok (Z.of_nat (slen s) * 16777216).
Definition ex_history_row : string := "7" +s String tab ("0/30" +s String tab "before x").
Definition ex_folder : gmap string (list byte) :=
  {["00000008.history.lz4" := String.list_byte_of_string (unlines [ex_history_row; ""; "# end"])]}.

Lemma createTimelineSwitchMap_spec_witness :
  exists m, fst (@createTimelineSwitchMap ex_ParseLSN _ _ [lz4] DefaultWalConfig None 8 ex_folder) = Ok m /\
    forall segment, m !! segment =
      last (filter (fun r => @WalSegmentNo.newWalSegmentNo DefaultWalConfig (lsn r) = segment)
        [mkHistoryRecord 7 67108864 "before x"]).
Proof.
  refine (@createTimelineSwitchMap_spec DefaultWalConfig _ _ ex_ParseLSN [lz4] None 8 ex_folder
    (Ok (String.list_byte_of_string (unlines [ex_history_row; ""; "# end"]), None))
    [ex_history_row; ""; "# end"] [Some (mkHistoryRecord 7 67108864 "before x"); None; None] _ _ _ _).
  - vm_compute. reflexivity.
  - vm_compute. reflexivity.
  - vm_compute. reflexivity.
  - constructor; [|constructor; [|constructor; [|constructor]]].
    + apply (hl_record ex_ParseLSN "7" "0/30" "before x"); done.
    + by constructor.
    + by constructor.
Defined.

(** An LSN belongs to the smallest timeline of the file that ends behind
    it, and to the file's own timeline if there is none; the result does not
    depend on how ties are sorted. *)
Theorem LSNToTimeLine_spec {sorter : SortSlice} (ParseLSN : string -> res pgError Z)
    (tlh : TimeLineHistFile) (lsn t : Z) (rs : list TimeLineHistFileRow) :
  rows ParseLSN tlh = Ok rs -> LSNToTimeLine ParseLSN tlh lsn = Ok t ->
  (exists row, row ∈ rs /\ lsn < StartLSN row /\ t = rowTimeLineID row /\
     forall row', row' ∈ rs -> lsn < StartLSN row' -> t <= rowTimeLineID row') \/
  (t = TimeLineID tlh /\ forall row, row ∈ rs -> StartLSN row <= lsn).
Proof.
  intros Hrs. unfold LSNToTimeLine. rewrite Hrs. cbn.
  set (less := fun a b => rowTimeLineID a <? rowTimeLineID b).
  pose proof (Slice_sorted less rs (StrictWeak_key rowTimeLineID)) as Hs.
  destruct (List.find _ _) as [row|] eqn:E; intros [= <-].
  - left. exists row. pose proof (find_some _ _ E) as [Hin Hlt].
    rewrite <- list_elem_of_In, Slice_elem in Hin. apply Z.ltb_lt in Hlt.
    split; [done|]. split; [done|]. split; [done|]. intros row' Hin' Hlt'.
    destruct (StronglySorted_find _ _ _ _ Hs E row') as [-> | Hna]; [by rewrite Slice_elem|by apply Z.ltb_lt|done|].
    unfold not_after, less in Hna. by apply Z.ltb_ge in Hna.
  - right. split; [done|]. intros row Hin. pose proof (find_none _ _ E row) as Hn.
    rewrite <- list_elem_of_In, Slice_elem in Hn. specialize (Hn Hin). by apply Z.ltb_ge in Hn.
Qed.

Definition ex_hist_file : TimeLineHistFile :=
  NewTimeLineHistFile 3 "00000003.history" (unlines ["2 0/20 b"; "1 0/3 no target # c"; ""]).

Lemma LSNToTimeLine_spec_witness :
  (exists row, row ∈ [mkHistRow 2 67108864 "b"; mkHistRow 1 50331648 "no"] /\
     60000000 < StartLSN row /\ 2 = rowTimeLineID row /\
     forall row', row' ∈ [mkHistRow 2 67108864 "b"; mkHistRow 1 50331648 "no"] ->
       60000000 < StartLSN row' -> 2 <= rowTimeLineID row') \/
  (2 = TimeLineID ex_hist_file /\
   forall row, row ∈ [mkHistRow 2 67108864 "b"; mkHistRow 1 50331648 "no"] -> StartLSN row <= 60000000).
Proof.
  refine (@LSNToTimeLine_spec InsertionSort ex_ParseLSN ex_hist_file 60000000 2 _ _ _);
    vm_compute; reflexivity.
Defined.

(** Reading a history file longer than the buffer never gets past its
    beginning: [ioutil.ReadAll] and [io.Copy] do not end on it. *)
Theorem TimeLineHistFile_Read_no_progress (tlh : TimeLineHistFile) (fuel : nat) :
  (512 < slen (tlhData tlh))%nat -> readIndex tlh = 0%nat ->
  snd (fst (ReadAll fuel tlh)) = Some ErrNoProgress.
Proof.
  intros Hl Hi. induction fuel as [|fuel IH]; [done|]. cbn [ReadAll].
  unfold Read, TimeLineHistFile_Reader at 1. rewrite Hi. cbn [sdrop Nat.add].
  rewrite (proj2 (Nat.leb_gt _ _)).
  2:{ rewrite length_take. lia. }
  destruct (ReadAll fuel tlh) as [[rest e] s]. exact IH.
Qed.
