(* ===== verification/WalReceive.v ===== *)
(** * Receiving WAL

    [src/internal/databases/postgres]: [wal_segment.go], a segment filled from
    the messages of a replication connection, and the receiving loop of
    [wal_receive_handler.go]. The connection is the sequence of events it
    delivers; the message parsers of [github.com/jackc/pglogrepl] are
    parameters. A failed [FatalOnError] ends the process. *)

From S2P Require Import Prelude GoStrings GoIO GoSort Timeline History.
Open Scope Z_scope.

(** ** Messages *)

(** [pgproto3.BackendMessage], as far as it is told apart. *)
Inductive BackendMessage :=
| CopyData (Data : list byte)
| CopyDone
| OtherMessage.

Inductive ProcessMessageResult :=
| ProcessMessageOK
| ProcessMessageUnknown
| ProcessMessageCopyDone
| ProcessMessageReplyRequested
| ProcessMessageSegmentGap
| ProcessMessageMismatch.

Inductive segmentError :=
| NotComplete
| UnexpectedNextResult
| StartedAfterEnd
| EndedBeforeStart
| DoesNotFit
| UnexpectedMessage.

(** The process ends or goes on with a value. *)
Inductive outcome (A : Type) :=
| Running (a : A)
| Fatal (e : pgError).
Arguments Running {A} a.
Arguments Fatal {A} e.

(** [pglogrepl]'s parsers and message ids. *)
Class Replication := {
  PrimaryKeepaliveMessageByteID : byte;
  XLogDataByteID : byte;
  (** the [ReplyRequested] field *)
  ParsePrimaryKeepaliveMessage : list byte -> res pgError bool;
  (** the fields [WALStart] and [WALData] *)
  ParseXLogData : list byte -> res pgError (Z * list byte)
}.

(** ** [wal_segment.go] *)

Record WalSegment := mkSegment {
  TimeLine : Z;
  StartLSN : Z;
  endLSN : Z;
  walSegmentBytes : Z;
  data : list byte;
  readIndex : nat;
  writeIndex : nat;
  lastMsg : option BackendMessage
}.

Definition NewWalSegment (timeline location walSegmentBytes : Z) : WalSegment :=
  let start := u64 (location / walSegmentBytes * walSegmentBytes) in
  mkSegment timeline start (u64 (start + walSegmentBytes)) walSegmentBytes
    (replicate (Z.to_nat walSegmentBytes) Byte.x00) 0 0 None.

Definition isComplete (seg : WalSegment) : bool :=
  endLSN seg <=? u64 (StartLSN seg + Z.of_nat (writeIndex seg)).

Definition Name {cfg : WalConfig} (seg : WalSegment) : string :=
  let segID := StartLSN seg / walSegmentBytes seg in
  if isComplete seg then formatWALFileName (TimeLine seg) segID
  else formatWALFileName (TimeLine seg) segID +s ".partial".

(** [copy(dst[at:], src)] and the number of bytes copied. *)
Definition copyAt (dst : list byte) (at_ : nat) (src : list byte) : list byte * nat :=
  let n := Nat.min (length dst - at_) (length src) in
  (take at_ dst ++ take n src ++ drop (at_ + n) dst, n).

Definition set_written (seg : WalSegment) (d : list byte) (w : nat) (m : option BackendMessage)
  : WalSegment :=
  mkSegment (TimeLine seg) (StartLSN seg) (endLSN seg) (walSegmentBytes seg) d (readIndex seg) w m.

Section ProcessMessage.
Context `{Replication}.

(** The message in the segment: the result, the error and the segment. *)
Definition processXLogData (seg : WalSegment) (message : BackendMessage)
    (WALStart : Z) (WALData : list byte)
  : outcome (ProcessMessageResult * option segmentError * WalSegment) :=
  if endLSN seg <? WALStart then Running (ProcessMessageMismatch, Some StartedAfterEnd, seg)
  else
    let walEnd := u64 (WALStart + Z.of_nat (length WALData)) in
    if walEnd <? StartLSN seg then Running (ProcessMessageMismatch, Some EndedBeforeStart, seg)
    else
      let messageOffset := if WALStart <? StartLSN seg then u64 (StartLSN seg - WALStart) else 0 in
      if negb (u64 (StartLSN seg + Z.of_nat (writeIndex seg)) =? u64 (WALStart + messageOffset))
      then Running (ProcessMessageSegmentGap, Some DoesNotFit, seg)
      else if Z.of_nat (length WALData) <? messageOffset then Fatal Panic
      else
        let rest := drop (Z.to_nat messageOffset) WALData in
        let '(d, copiedBytes) := copyAt (data seg) (writeIndex seg) rest in
        let last := if (copiedBytes <? length rest)%nat then Some message else lastMsg seg in
        Running (ProcessMessageOK, None,
                 set_written seg d (writeIndex seg + copiedBytes) last).

Definition processMessage (seg : WalSegment) (message : BackendMessage)
  : outcome (ProcessMessageResult * option segmentError * WalSegment) :=
  match message with
  | CopyData [] => Fatal Panic
  | CopyData (id :: payload) =>
      if bool_decide (id = PrimaryKeepaliveMessageByteID) then
        match ParsePrimaryKeepaliveMessage payload with
        | Err err => Fatal err
        | Ok true => Running (ProcessMessageReplyRequested, None, seg)
        | Ok false => Running (ProcessMessageOK, None, seg)
        end
      else if bool_decide (id = XLogDataByteID) then
        match ParseXLogData payload with
        | Err err => Fatal err
        | Ok (WALStart, WALData) => processXLogData seg message WALStart WALData
        end
      else Running (ProcessMessageOK, None, seg)
  | CopyDone => Running (ProcessMessageCopyDone, None, seg)
  | OtherMessage => Running (ProcessMessageUnknown, Some UnexpectedMessage, seg)
  end.

Definition NextWalSegment (seg : WalSegment) : outcome (WalSegment + segmentError) :=
  if negb (isComplete seg) then Running (inr NotComplete)
  else
    let nextSegment := NewWalSegment (TimeLine seg) (endLSN seg) (walSegmentBytes seg) in
    match lastMsg seg with
    | None => Running (inl nextSegment)
    | Some m =>
        match processMessage nextSegment m with
        | Fatal err => Fatal err
        | Running (_, Some err, _) => Running (inr err)
        | Running (ProcessMessageOK, None, nextSegment) => Running (inl nextSegment)
        | Running (_, None, _) => Running (inr UnexpectedNextResult)
        end
    end.
End ProcessMessage.

(** [WalSegment.Read], which does advance. *)
#[export] Instance WalSegment_Reader : Reader WalSegment :=
  fun seg n =>
    let bs := take n (drop (readIndex seg) (data seg)) in
    let readIndex' := (readIndex seg + length bs)%nat in
    (bs, if (length (data seg) <=? readIndex')%nat then Some EOF else None,
     mkSegment (TimeLine seg) (StartLSN seg) (endLSN seg) (walSegmentBytes seg) (data seg)
       readIndex' (writeIndex seg) (lastMsg seg)).

(** ** [Stream] *)

(** What the connection delivers to one iteration, and whether the deadline
    of the next status message has passed before it. *)
Inductive received := Timeout | Message (m : BackendMessage) | ReceiveError (e : pgError).
Record event := mkEvent { deadlinePassed : bool; what : received }.

(** What the receiver does to the outside. *)
Inductive action :=
| SendStandbyStatusUpdate (WALWritePosition : Z)
| SendStandbyCopyDone
| UploadWalFile (name : string) (content : list byte)
| UploadHistoryFile (tlh : TimeLineHistFile)
(** the call of [WalMetadata.uploadRemoteWalMetadata] *)
| uploadRemoteWalMetadata (walFileName : string)
| StartReplication (startLSN timeline : Z).

(** The result of [Stream]; [Waiting]: the events are used up. *)
Inductive stream_result :=
| Streamed (seg : WalSegment) (result : ProcessMessageResult) (err : option segmentError)
    (events : list event)
| Waiting (seg : WalSegment)
| StreamFatal (e : pgError).

Section Stream.
Context `{Replication}.

(** [forced]: the deadline has been reset to the zero time. *)
Fixpoint Stream (seg : WalSegment) (forced : bool) (events : list event)
  : list action * stream_result :=
  match events with
  | [] => ([], Waiting seg)
  | ev :: events =>
      let sent := forced || deadlinePassed ev in
      let acts := if sent then [SendStandbyStatusUpdate (StartLSN seg)] else [] in
      let '(more, r) :=
        match what ev with
        | Timeout => Stream seg false events
        | ReceiveError e => ([], StreamFatal e)
        | Message m =>
            match processMessage seg m with
            | Fatal e => ([], StreamFatal e)
            | Running (result, err, seg) =>
                match result with
                | ProcessMessageOK =>
                    if isComplete seg then ([], Streamed seg ProcessMessageOK None events)
                    else Stream seg false events
                | ProcessMessageCopyDone =>
                    ([SendStandbyCopyDone], Streamed seg ProcessMessageCopyDone None events)
                | ProcessMessageReplyRequested =>
                    if isComplete seg then ([], Streamed seg ProcessMessageOK None events)
                    else Stream seg true events
                | result => ([], Streamed seg result err events)
                end
            end
        end in
      (acts ++ more, r)
  end.
End Stream.

(** ** The receiving loop of [HandleWALReceive] *)

Section Receive.
Context `{Replication} {cfg : WalConfig}.
(** [pglogrepl.TimelineHistory]: the file's name and content. *)
Variable TimelineHistory : Z -> res pgError (string * string).

(** Why the loop stopped: the events are used up, or the process ended. *)
Inductive stopped := Blocked (seg : WalSegment) | Exit.

(** Uploads succeed; an upload that fails ends the process after the same
    actions. The segment's content is what its reader delivers. *)
Fixpoint receiveLoop (fuel : nat) (timeline XLogPos : Z) (segment : WalSegment)
    (events : list event) : list action * stopped :=
  match fuel with
  | 0%nat => ([], Blocked segment)
  | S fuel =>
      let '(acts, r) := Stream segment false events in
      match r with
      | Waiting segment => (acts, Blocked segment)
      | StreamFatal _ | Streamed _ _ (Some _) _ => (acts, Exit)
      | Streamed segment ProcessMessageOK None events =>
          let acts := acts ++ [UploadWalFile (Name segment) (data segment); uploadRemoteWalMetadata (Name segment)] in
          match NextWalSegment segment with
          | Running (inl next) =>
              let '(more, st) := receiveLoop fuel timeline (endLSN segment) next events in
              (acts ++ more, st)
          | _ => (acts, Exit)
          end
      | Streamed segment ProcessMessageCopyDone None events =>
          let acts := acts ++ [UploadWalFile (Name segment) (data segment); uploadRemoteWalMetadata (Name segment)] in
          let timeline := u32 (timeline + 1) in
          match TimelineHistory timeline with
          | Err _ => (acts, Exit)
          | Ok (filename, content) =>
              let tlh := NewTimeLineHistFile timeline filename content in
              let segment := NewWalSegment timeline XLogPos (walSegmentBytes segment) in
              let '(more, st) := receiveLoop fuel timeline XLogPos segment events in
              (acts ++ [UploadHistoryFile tlh; uploadRemoteWalMetadata (Filename tlh); StartReplication (StartLSN segment) timeline] ++
               more, st)
          end
      | Streamed _ _ None _ => (acts, Exit)
      end
  end.

(** From the position and timeline the handler starts at. *)
Definition HandleWALReceive (timeline XLogPos walSegmentBytes : Z) (events : list event)
  : list action * stopped :=
  let segment := NewWalSegment timeline XLogPos walSegmentBytes in
  let '(acts, st) := receiveLoop (S (length events)) timeline XLogPos segment events in
  (StartReplication (StartLSN segment) timeline :: acts, st).

(** [history] is the server's answer for the system's timeline; a missing
    file has the code [58P01]. The uploaded files come first. *)
Inductive history_answer :=
| HistoryFound (filename content : string)
| HistoryUndefinedFile
| HistoryError.

Definition getStartTimeline {sorter : SortSlice} (ParseLSN : string -> res pgError Z)
    (history : history_answer) (systemTimeline xLogPos : Z)
  : list action * res pgError Z :=
  if systemTimeline <? 2 then ([], Ok 1)
  else match history with
       | HistoryFound filename content =>
           let tlh := NewTimeLineHistFile systemTimeline filename content in
           ([UploadHistoryFile tlh], LSNToTimeLine ParseLSN tlh xLogPos)
       | HistoryUndefinedFile => ([], Ok systemTimeline)
       | HistoryError => ([], Ok 0)
       end.
End Receive.

(** ** Lemmas *)

(** [n] bytes of the server's WAL from an LSN. *)
Definition wal_slice (W : Z -> byte) (from : Z) (n : nat) : list byte :=
  (fun i => W (from + Z.of_nat i)) <$> seq 0 n.

Lemma wal_slice_length W from n : length (wal_slice W from n) = n.
Proof. unfold wal_slice. by rewrite length_fmap, length_seq. Qed.

Lemma wal_slice_app W from n m :
  wal_slice W from (n + m) = wal_slice W from n ++ wal_slice W (from + Z.of_nat n) m.
Proof.
  unfold wal_slice. rewrite seq_app, fmap_app. f_equal. cbn.
  pose proof (fmap_add_seq n 0 m) as Hs. rewrite Nat.add_0_r in Hs. rewrite <- Hs.
  rewrite <- list_fmap_compose. apply list_fmap_ext. intros i x _. cbn. f_equal. lia.
Qed.

Lemma wal_slice_take W from n k : (k <= n)%nat -> take k (wal_slice W from n) = wal_slice W from k.
Proof.
  intros Hk. replace n with (k + (n - k))%nat by lia. rewrite wal_slice_app.
  by rewrite take_app_length' by (by rewrite wal_slice_length).
Qed.

Lemma wal_slice_drop W from n k :
  (k <= n)%nat -> drop k (wal_slice W from n) = wal_slice W (from + Z.of_nat k) (n - k).
Proof.
  intros Hk. replace n with (k + (n - k))%nat at 1 by lia. rewrite wal_slice_app.
  by rewrite drop_app_length' by (by rewrite wal_slice_length).
Qed.

Definition zero_bytes (n : nat) : list byte := replicate n Byte.x00.

Section Receiving.
Context `{Replication} {cfg : WalConfig}.
(** The size of a segment. *)
Variable size : Z.
Hypothesis size_pos : 0 < size.
Notation sz := (Z.to_nat size).

(** A message that carries WAL carries the server's, and no more than a
    segment of it. *)
Definition faithful (W : Z -> byte) (m : BackendMessage) : Prop :=
  match m with
  | CopyData (id :: payload) =>
      forall s d, id = XLogDataByteID -> ParseXLogData payload = Ok (s, d) ->
        0 <= s /\ s + Z.of_nat (length d) < 2 ^ 64 /\ d = wal_slice W s (length d) /\ Z.of_nat (length d) <= size
  | _ => True
  end.

(** A segment of timeline [t] from [start] holds the WAL read so far. *)
Record segment_inv (W : Z -> byte) (t start : Z) (seg : WalSegment) : Prop := {
  si_timeline : TimeLine seg = t;
  si_start : StartLSN seg = start;
  si_end : endLSN seg = start + size;
  si_size : walSegmentBytes seg = size;
  si_range : 0 <= start /\ start + size < 2 ^ 64;
  si_aligned : start mod size = 0;
  si_written : (writeIndex seg <= sz)%nat;
  si_data : data seg = wal_slice W start (writeIndex seg) ++ zero_bytes (sz - writeIndex seg);
  si_last : forall m, lastMsg seg = Some m -> faithful W m
}.

Lemma segment_length W t start seg : segment_inv W t start seg -> length (data seg) = sz.
Proof.
  intros [_ _ _ _ _ _ Hw -> _]. rewrite length_app, wal_slice_length. unfold zero_bytes.
  rewrite length_replicate. lia.
Qed.

Lemma isComplete_written W t start seg :
  segment_inv W t start seg -> isComplete seg = (sz <=? writeIndex seg)%nat.
Proof.
  intros [_ Hs He _ Hr _ Hw _ _]. unfold isComplete. rewrite Hs, He.
  rewrite wrap_id by (unfold in_width; lia).
  destruct (Nat.leb_spec sz (writeIndex seg)); [apply Z.leb_le|apply Z.leb_gt]; lia.
Qed.

Lemma segment_complete W t start seg :
  segment_inv W t start seg -> isComplete seg = true -> data seg = wal_slice W start sz.
Proof.
  intros Hi Hc. rewrite (isComplete_written _ _ _ _ Hi) in Hc. bool_to_prop.
  destruct Hi. rewrite si_data0. replace (writeIndex seg) with sz by lia.
  by rewrite Nat.sub_diag, app_nil_r.
Qed.

Lemma NewWalSegment_inv W t pos :
  0 <= pos -> pos + size < 2 ^ 64 ->
  segment_inv W t (pos / size * size) (NewWalSegment t pos size).
Proof.
  intros Hp Hb. pose proof (Z.mul_div_le pos size size_pos).
  pose proof (Z.div_pos pos size Hp size_pos).
  unfold NewWalSegment. rewrite !(wrap_id 64 (_ * _)) by (unfold in_width; nia).
  split; cbn; try done; try lia; try nia.
  - rewrite wrap_id; [done|unfold in_width; nia].
  - apply Z.mod_mul. lia.
  - by rewrite Nat.sub_0_r.
Qed.

(** Copying the next bytes of the WAL extends the prefix held. *)
Lemma copyAt_slice W start w k :
  (w <= sz)%nat ->
  copyAt (wal_slice W start w ++ zero_bytes (sz - w)) w (wal_slice W (start + Z.of_nat w) k) =
    (wal_slice W start (w + Nat.min (sz - w) k) ++ zero_bytes (sz - (w + Nat.min (sz - w) k)),
     Nat.min (sz - w) k).
Proof.
  intros Hw. unfold copyAt, zero_bytes.
  rewrite length_app, !wal_slice_length, length_replicate.
  replace (w + (sz - w) - w)%nat with (sz - w)%nat by lia. set (n := Nat.min (sz - w) k).
  rewrite take_app_length' by (by rewrite wal_slice_length).
  rewrite wal_slice_take by lia. rewrite drop_app_ge by (rewrite wal_slice_length; lia).
  rewrite wal_slice_length, drop_replicate, wal_slice_app, <- app_assoc.
  do 4 f_equal. lia.
Qed.

Lemma processXLogData_inv W t start seg m s d r e seg' :
  segment_inv W t start seg -> faithful W m ->
  0 <= s -> s + Z.of_nat (length d) < 2 ^ 64 -> d = wal_slice W s (length d) ->
  processXLogData seg m s d = Running (r, e, seg') -> segment_inv W t start seg'.
Proof.
  intros Hi Hm Hs Hb Hd. pose proof Hi as [It Is Ie Iz Ir Ia Iw Id Il].
  unfold processXLogData. rewrite Is, Ie. case_bool; [by intros [= _ _ <-]|].
  cbv zeta. rewrite (wrap_id 64 (s + _)) by (unfold in_width; lia).
  case_bool; [by intros [= _ _ <-]|]. bool_to_prop.
  set (off := if s <? start then u64 (start - s) else 0).
  assert (off = Z.max 0 (start - s)) as Hoff.
  { unfold off. case_bool; bool_to_prop; [rewrite wrap_id by (unfold in_width; lia)|]; lia. }
  rewrite (wrap_id 64 (start + _)) by (unfold in_width; lia).
  rewrite (wrap_id 64 (s + off)) by (unfold in_width; lia).
  case_bool; [by intros [= _ _ <-]|]. bool_to_prop. case_bool; [done|]. bool_to_prop.
  rewrite Hd, wal_slice_drop, wal_slice_length by lia.
  replace (s + Z.of_nat (Z.to_nat off)) with (start + Z.of_nat (writeIndex seg)) by lia.
  rewrite Id, copyAt_slice by done. intros [= _ _ <-].
  split; cbn; try done; [lia|]. intros m'. case_bool; [|apply Il]. by intros [= <-].
Qed.

Lemma processMessage_inv W t start seg m r e seg' :
  segment_inv W t start seg -> faithful W m ->
  processMessage seg m = Running (r, e, seg') -> segment_inv W t start seg'.
Proof.
  intros Hi Hm. pose proof Hm as Hm'. unfold processMessage. destruct m as [[|id payload]| |]; [done| | |];
    [|by intros [= _ _ <-]..].
  case_bool_decide.
  { destruct (ParsePrimaryKeepaliveMessage payload) as [[|]|]; [..|done]; by intros [= _ _ <-]. }
  case_bool_decide; [|by intros [= _ _ <-]].
  destruct (ParseXLogData payload) as [[s d]|] eqn:E; [|done].
  destruct (Hm s d) as (? & ? & ? & _); [done..|]. by apply processXLogData_inv.
Qed.

(** ** The stream and the loop *)

(** The events carry the WAL [W t] of the timeline they belong to; the end
    of a copy starts the next timeline. *)
Fixpoint faithful_events (W : Z -> Z -> byte) (t : Z) (events : list event) : Prop :=
  match events with
  | [] => True
  | ev :: events =>
      match what ev with
      | Message m =>
          faithful (W t) m /\
          faithful_events W (match m with CopyDone => u32 (t + 1) | _ => t end) events
      | _ => faithful_events W t events
      end
  end.

Definition not_upload (a : action) : Prop :=
  match a with UploadWalFile _ _ => False | _ => True end.

(** The timeline of what follows a message is that of the result. *)
Lemma processMessage_timeline W t m events seg result err seg' : processMessage seg m = Running (result, err, seg') ->
  faithful_events W (match m with CopyDone => u32 (t + 1) | _ => t end) events ->
  faithful_events W (match result with ProcessMessageCopyDone => u32 (t + 1) | _ => t end) events.
Proof.
  destruct m as [[|id payload]| |]; cbn; [done|..|by intros [= <- _ _]|by intros [= <- _ _]].
  unfold processXLogData. intros E. repeat case_match; simplify_eq; done.
Qed.

Lemma Stream_inv W t start events : forall seg forced acts r,
  segment_inv (W t) t start seg -> faithful_events W t events ->
  Stream seg forced events = (acts, r) ->
  Forall not_upload acts /\
  match r with
  | Streamed seg' result err events' =>
      segment_inv (W t) t start seg' /\ (length events' < length events)%nat /\
      (result = ProcessMessageOK -> isComplete seg' = true) /\
      faithful_events W (match result with ProcessMessageCopyDone => u32 (t + 1) | _ => t end) events'
  | _ => True
  end.
Proof.
  induction events as [|ev events IH]; intros seg forced acts r Hi Hf Hs.
  { cbn in Hs. by simplify_eq. }
  cbn [Stream] in Hs. set (pre := if forced || deadlinePassed ev then _ else _) in Hs.
  assert (Forall not_upload pre) as Hpre by (unfold pre; case_bool; by repeat constructor).
  assert (forall seg' f acts' r', segment_inv (W t) t start seg' -> faithful_events W t events ->
    Stream seg' f events = (acts', r') -> (acts, r) = (pre ++ acts', r') ->
    Forall not_upload acts /\
    match r with
    | Streamed seg' result err events' =>
        segment_inv (W t) t start seg' /\ (length events' < length (ev :: events))%nat /\
        (result = ProcessMessageOK -> isComplete seg' = true) /\
        faithful_events W (match result with ProcessMessageCopyDone => u32 (t + 1) | _ => t end) events'
    | _ => True
    end) as Hrec.
  { intros seg' f acts' r' Hi' Hf' Hs' [= -> ->].
    destruct (IH _ _ _ _ Hi' Hf' Hs') as [Ha Hr]. split; [by apply Forall_app|].
    destruct r'; [|done|done]. cbn. destruct Hr as (? & ? & ? & ?). auto with lia. }
  cbn in Hf. destruct (what ev) as [|m|e].
  - destruct (Stream seg false events) as [acts' r'] eqn:E. by eapply Hrec.
  - destruct Hf as [Hm Hf]. destruct (processMessage seg m) as [[[result err] seg']|e] eqn:E.
    2:{ simplify_eq. split; [|done]. by rewrite app_nil_r. }
    pose proof (processMessage_inv _ _ _ _ _ _ _ _ Hi Hm E) as Hi'.
    apply (processMessage_timeline _ _ _ _ _ _ _ _ E) in Hf.
    destruct result; [destruct (isComplete seg') eqn:Ec| | |destruct (isComplete seg') eqn:Ec| |];
      try by (simplify_eq; rewrite ?app_nil_r; split; [try apply Forall_app; by repeat constructor|];
        split; [done|]; split; [cbn; lia|]; split; [by intros|done]).
    + destruct (Stream seg' false events) as [acts' r'] eqn:E'. by eapply Hrec.
    + destruct (Stream seg' true events) as [acts' r'] eqn:E'. by eapply Hrec.
  - simplify_eq. split; [|done]. by rewrite app_nil_r.
Qed.

(** The segment after an aligned one is aligned. *)
Lemma aligned_next start : start mod size = 0 -> (start + size) / size * size = start + size.
Proof.
  intros Ha. assert ((start + size) mod size = 0) as Hm.
  { replace (start + size) with (start + 1 * size) by lia. by rewrite Z.mod_add by lia. }
  pose proof (Z.div_mod (start + size) size ltac:(lia)). lia.
Qed.

Lemma NextWalSegment_inv W t start seg next :
  segment_inv W t start seg -> start + size + size < 2 ^ 64 ->
  NextWalSegment seg = Running (inl next) -> segment_inv W t (start + size) next.
Proof.
  intros Hi Hb. pose proof Hi as [It Is Ie Iz Ir Ia Iw Id Il].
  unfold NextWalSegment. destruct (isComplete seg); [|done]. cbn [negb].
  rewrite It, Ie, Iz.
  pose proof (NewWalSegment_inv W t (start + size)) as Hn.
  rewrite aligned_next in Hn by done. specialize (Hn ltac:(lia) ltac:(lia)).
  destruct (lastMsg seg) as [m|] eqn:El; [|by intros [= <-]].
  destruct (processMessage _ m) as [[[r [e|]] seg']|e] eqn:E; [by destruct r| |done].
  apply (processMessage_inv _ _ _ _ _ _ _ _ Hn (Il _ eq_refl)) in E.
  destruct r; try done. by intros [= <-].
Qed.

(** *** How far the messages of a timeline reach *)

(** The message carries the WAL [d] from [s]. *)
Definition carries (m : BackendMessage) (s : Z) (d : list byte) : Prop :=
  exists payload, m = CopyData (XLogDataByteID :: payload) /\ XLogDataByteID <> PrimaryKeepaliveMessageByteID /\
    ParseXLogData payload = Ok (s, d).

Definition message_end (R : Z) (m : BackendMessage) : Z :=
  match m with
  | CopyData (id :: payload) =>
      if bool_decide (id = PrimaryKeepaliveMessageByteID) then R
      else if bool_decide (id = XLogDataByteID) then
        match ParseXLogData payload with
        | Ok (s, d) => Z.max R (s + Z.of_nat (length d))
        | Err _ => R
        end
      else R
  | _ => R
  end.

(** The position up to which the events carry WAL until the copy is done, from
    the position [R] that it starts at, and the events after it. *)
Fixpoint copied_to (R : Z) (events : list event) : Z * option (list event) :=
  match events with
  | [] => (R, None)
  | ev :: events =>
      match what ev with
      | Message CopyDone => (R, Some events)
      | Message m => copied_to (message_end R m) events
      | _ => copied_to R events
      end
  end.

(** The segment from [start] has all that was received up to [R], and keeps
    the message that goes on after it. *)
Record holds (start R : Z) (seg : WalSegment) : Prop := {
  ho_from : start <= R;
  ho_written : Z.of_nat (writeIndex seg) = Z.min size (R - start);
  ho_last : match lastMsg seg with
            | None => R <= start + size
            | Some m => start + size < R < start + size + size /\
                exists s d, carries m s d /\ s <= start + size /\ s + Z.of_nat (length d) = R
            end
}.

Lemma NewWalSegment_holds t pos : 0 <= pos -> pos + size < 2 ^ 64 -> holds (pos / size * size) (pos / size * size) (NewWalSegment t pos size).
Proof. intros Hp Hb. split; cbn; lia. Qed.

Lemma holds_open start R seg : holds start R seg -> R < start + size -> lastMsg seg = None /\ start + Z.of_nat (writeIndex seg) = R.
Proof. intros [Hf Hw Hl] HR. destruct (lastMsg seg); [lia|]. split; [done|lia]. Qed.

Lemma holds_complete W t start R seg : segment_inv W t start seg -> holds start R seg -> isComplete seg = (start + size <=? R).
Proof.
  intros Hi [Hf Hw _]. rewrite (isComplete_written _ _ _ _ Hi).
  destruct (Nat.leb_spec sz (writeIndex seg)), (Z.leb_spec (start + size) R); lia.
Qed.

Lemma processXLogData_holds W t start R seg m s d r seg' :
  segment_inv W t start seg -> holds start R seg -> R < start + size -> faithful W m -> carries m s d ->
  processXLogData seg m s d = Running (r, None, seg') -> r = ProcessMessageOK /\ holds start (Z.max R (s + Z.of_nat (length d))) seg'.
Proof.
  intros Hi Hh HR Hm Hc. pose proof Hc as (payload & -> & Hid & Hpay). destruct (Hm s d eq_refl Hpay) as (Hs & Hb & _ & Hlen).
  destruct (holds_open _ _ _ Hh HR) as [Hnone Hw]. destruct Hh as [Hf _ _]. pose proof (segment_length _ _ _ _ Hi) as Hsz.
  destruct Hi as [_ Is Ie _ Ir _ Iw _ _].
  unfold processXLogData. rewrite Is, Ie. case_bool; [done|]. cbv zeta. rewrite (wrap_id 64 (s + _)) by (unfold in_width; lia).
  case_bool; [done|]. bool_to_prop.
  set (off := if s <? start then u64 (start - s) else 0).
  assert (off = Z.max 0 (start - s)) as Hoff.
  { unfold off. case_bool; bool_to_prop; [rewrite wrap_id by (unfold in_width; lia)|]; lia. }
  rewrite (wrap_id 64 (start + _)) by (unfold in_width; lia). rewrite (wrap_id 64 (s + off)) by (unfold in_width; lia).
  case_bool; [done|]. bool_to_prop. case_bool; [done|]. bool_to_prop.
  unfold copyAt. rewrite length_drop, Hsz. intros [= <- <-]. split; [done|].
  set (k := Nat.min (sz - writeIndex seg) (length d - Z.to_nat off)). split; cbn [set_written writeIndex lastMsg]; [lia|lia|].
  destruct (Nat.ltb_spec k (length d - Z.to_nat off)); [|rewrite Hnone; lia]. split; [lia|]. exists s, d. split; [done|lia].
Qed.

Lemma processMessage_holds W t start R seg m r seg' :
  segment_inv W t start seg -> holds start R seg -> R < start + size -> faithful W m ->
  processMessage seg m = Running (r, None, seg') -> holds start (message_end R m) seg'.
Proof.
  intros Hi Hh HR Hm. unfold processMessage, message_end. destruct m as [[|id payload]| |]; [done| |by intros [= _ <-]|done].
  case_bool_decide as E1. { destruct (ParsePrimaryKeepaliveMessage payload) as [[|]|]; [..|done]; by intros [= _ <-]. }
  case_bool_decide as E2; [|by intros [= _ <-]]. subst id.
  destruct (ParseXLogData payload) as [[s d]|] eqn:E; [|done]. intros Hp.
  eapply processXLogData_holds in Hp as [_ Hp]; [exact Hp|done..|]. by exists payload.
Qed.

Lemma NextWalSegment_holds W t start R seg next :
  segment_inv W t start seg -> holds start R seg -> start + size <= R -> start + size + size < 2 ^ 64 ->
  NextWalSegment seg = Running (inl next) -> holds (start + size) R next /\ R < start + size + size.
Proof.
  intros Hi Hh HR Hb. pose proof Hi as [It Is Ie Iz Ir Ia Iw Id Il]. unfold NextWalSegment. destruct (isComplete seg); [|done]. cbn [negb].
  rewrite It, Ie, Iz. pose proof (NewWalSegment_inv W t (start + size)) as Hn.
  rewrite aligned_next in Hn by done. specialize (Hn ltac:(lia) ltac:(lia)).
  pose proof (NewWalSegment_holds t (start + size) ltac:(lia) ltac:(lia)) as Hhn.
  rewrite aligned_next in Hhn by done.
  destruct Hh as [Hf _ Hl]. destruct (lastMsg seg) as [m|]; [|intros [= <-]; assert (R = start + size) as -> by lia; by split; [|lia]].
  destruct Hl as [HR' (s & d & Hc & Hs & HRd)]. pose proof (Il m eq_refl) as Hm.
  destruct (processMessage _ m) as [[[r [e|]] seg']|e] eqn:E; [by destruct r| |done].
  apply (processMessage_holds _ _ _ _ _ _ _ _ Hn Hhn ltac:(lia) Hm) in E.
  assert (message_end (start + size) m = R) as Hend.
  { destruct Hc as (payload & -> & Hid & Hpay). cbn. rewrite bool_decide_eq_false_2 by done. rewrite bool_decide_eq_true_2 by done. rewrite Hpay. lia. }
  rewrite Hend in E. destruct r; try done. intros [= <-]. split; [done|lia].
Qed.

Lemma processMessage_result seg m r e seg' : processMessage seg m = Running (r, e, seg') ->
  (m = CopyDone /\ r = ProcessMessageCopyDone /\ e = None /\ seg' = seg) \/
  (m <> CopyDone /\ e = None /\ (r = ProcessMessageOK \/ r = ProcessMessageReplyRequested)) \/
  (e <> None /\ r <> ProcessMessageOK /\ r <> ProcessMessageReplyRequested /\ r <> ProcessMessageCopyDone).
Proof.
  destruct m as [[|id payload]| |]; cbn; [done| |intros [= <- <- <-]; by left|intros [= <- <- <-]; by right; right].
  unfold processXLogData. intros E. right. repeat case_match; simplify_eq; by auto.
Qed.

Lemma copied_to_ge events : forall R, R <= fst (copied_to R events).
Proof.
  induction events as [|ev events IH]; intros R; cbn; [lia|]. destruct (what ev) as [|m|e]; [apply IH| |apply IH].
  assert (R <= message_end R m) as Hm by (destruct m as [[|id payload]| |]; cbn; [lia| |lia|lia]; repeat case_match; lia).
  destruct m; cbn; [|lia|]; etrans; [exact Hm|apply IH|exact Hm|apply IH].
Qed.

Lemma segment_name W t pos seg : segment_inv W t (pos / size * size) seg ->
  Name seg = formatWALFileName t (pos / size) +s (if isComplete seg then "" else ".partial").
Proof.
  intros [It Is _ Iz _ _ _ _ _]. unfold Name. rewrite It, Is, Iz, Z.div_mul by lia. destruct (isComplete seg); [by rewrite app_nil_r_s|done].
Qed.

(** [Stream] stops with the segment full, or with what was received before
    the copy was done. *)
Lemma Stream_holds W t start events : forall seg R forced acts seg' result events',
  segment_inv (W t) t start seg -> holds start R seg -> R < start + size -> faithful_events W t events ->
  Stream seg forced events = (acts, Streamed seg' result None events') ->
  match result with
  | ProcessMessageOK => exists R', start + size <= R' /\ holds start R' seg' /\ copied_to R events = copied_to R' events'
  | ProcessMessageCopyDone => exists R', R' < start + size /\ holds start R' seg' /\ copied_to R events = (R', Some events')
  | _ => True
  end.
Proof.
  induction events as [|ev events IH]; intros seg R forced acts seg' result events' Hi Hh HR Hf; cbn [Stream copied_to]; [done|].
  set (pre := if forced || deadlinePassed ev then _ else _). clearbody pre. cbn in Hf.
  assert (forall seg1 R1 f, segment_inv (W t) t start seg1 -> holds start R1 seg1 -> R1 < start + size -> faithful_events W t events ->
    (let '(more, r) := Stream seg1 f events in (pre ++ more, r)) = (acts, Streamed seg' result None events') ->
    match result with
    | ProcessMessageOK => exists R', start + size <= R' /\ holds start R' seg' /\ copied_to R1 events = copied_to R' events'
    | ProcessMessageCopyDone => exists R', R' < start + size /\ holds start R' seg' /\ copied_to R1 events = (R', Some events')
    | _ => True
    end) as Hrec.
  { intros seg1 R1 f Hi1 Hh1 HR1 Hf1. destruct (Stream seg1 f events) as [more r] eqn:E. intros [= _ ->]. by eapply IH. }
  destruct (what ev) as [|m|e]; [by apply Hrec| |done]. destruct Hf as [Hm Hf].
  destruct (processMessage seg m) as [[[result1 err] seg1]|e] eqn:E; [|done].
  pose proof (processMessage_inv _ _ _ _ _ _ _ _ Hi Hm E) as Hi1.
  pose proof (processMessage_timeline _ _ _ _ _ _ _ _ E Hf) as Hf1.
  destruct (processMessage_result _ _ _ _ _ E) as [(-> & -> & -> & ->)|[(Hnd & -> & Hres)|(He & Hok & Hrr & Hcd)]].
  { intros [= _ <- <- <-]. by exists R. }
  2:{ destruct err; [|done]. by destruct result1; intros ?; simplify_eq. }
  pose proof (processMessage_holds _ _ _ _ _ _ _ _ Hi Hh HR Hm E) as Hh1.
  replace (match m with CopyDone => _ | _ => _ end) with (copied_to (message_end R m) events) by by destruct m.
  destruct Hres as [->| ->]; rewrite (holds_complete _ _ _ _ _ Hi1 Hh1); (destruct (Z.leb_spec (start + size) (message_end R m));
    [intros [= _ <- <- <-]; by exists (message_end R m)|by apply Hrec]).
Qed.

Lemma Stream_waits W t start events : forall seg R forced acts seg',
  segment_inv (W t) t start seg -> holds start R seg -> R < start + size -> faithful_events W t events ->
  Stream seg forced events = (acts, Waiting seg') -> exists R', R' < start + size /\ copied_to R events = (R', None).
Proof.
  induction events as [|ev events IH]; intros seg R forced acts seg' Hi Hh HR Hf; cbn [Stream copied_to]; [by exists R|].
  set (pre := if forced || deadlinePassed ev then _ else _). clearbody pre. cbn in Hf.
  assert (forall seg1 R1 f, segment_inv (W t) t start seg1 -> holds start R1 seg1 -> R1 < start + size -> faithful_events W t events ->
    (let '(more, r) := Stream seg1 f events in (pre ++ more, r)) = (acts, Waiting seg') ->
    exists R', R' < start + size /\ copied_to R1 events = (R', None)) as Hrec.
  { intros seg1 R1 f Hi1 Hh1 HR1 Hf1. destruct (Stream seg1 f events) as [more r] eqn:E. intros [= _ ->]. by eapply IH. }
  destruct (what ev) as [|m|e]; [by apply Hrec| |done]. destruct Hf as [Hm Hf].
  destruct (processMessage seg m) as [[[result1 err] seg1]|e] eqn:E; [|done].
  pose proof (processMessage_inv _ _ _ _ _ _ _ _ Hi Hm E) as Hi1.
  pose proof (processMessage_timeline _ _ _ _ _ _ _ _ E Hf) as Hf1.
  destruct (processMessage_result _ _ _ _ _ E) as [(-> & -> & -> & ->)|[(Hnd & -> & Hres)|(He & Hok & Hrr & Hcd)]]; [done| |].
  2:{ destruct err; [|done]. by destruct result1. }
  pose proof (processMessage_holds _ _ _ _ _ _ _ _ Hi Hh HR Hm E) as Hh1.
  replace (match m with CopyDone => _ | _ => _ end) with (copied_to (message_end R m) events) by by destruct m.
  destruct Hres as [->| ->]; rewrite (holds_complete _ _ _ _ _ Hi1 Hh1); (destruct (Z.leb_spec (start + size) (message_end R m));
    [done|by apply Hrec]).
Qed.

(** The uploads of WAL files from position [pos] of timeline [t], whose copy
    started with the events [events] at the position [R], and the reason they
    stop: the segments follow each other without a gap, each complete one holds
    the server's bytes, all of them received, and the one a timeline ends in
    holds exactly the bytes received of it. A receiver that waits has uploaded
    every segment that was received. *)
Inductive uploads (W : Z -> Z -> byte) : Z -> Z -> Z -> list event -> list action -> stopped -> Prop :=
| up_exit t pos R events : uploads W t pos R events [] Exit
| up_wait t pos R events R' seg :
    copied_to R events = (R', None) -> R' < pos / size * size + size ->
    uploads W t pos R events [] (Blocked seg)
| up_skip t pos R events a acts st : not_upload a -> uploads W t pos R events acts st -> uploads W t pos R events (a :: acts) st
| up_full t pos R events acts st :
    pos / size * size + size <= fst (copied_to R events) ->
    uploads W t (pos / size * size + size) R events acts st ->
    uploads W t pos R events
      (UploadWalFile (formatWALFileName t (pos / size)) (wal_slice (W t) (pos / size * size) sz) :: acts) st
| up_last t pos R events R' events' acts st :
    copied_to R events = (R', Some events') ->
    pos / size * size <= R' < pos / size * size + size ->
    uploads W (u32 (t + 1)) pos (pos / size * size) events' acts st ->
    uploads W t pos R events
      (UploadWalFile (formatWALFileName t (pos / size) +s ".partial")
         (wal_slice (W t) (pos / size * size) (Z.to_nat (R' - pos / size * size)) ++
          zero_bytes (sz - Z.to_nat (R' - pos / size * size))) :: acts) st.

Lemma uploads_skip W t pos R events acts acts' st :
  Forall not_upload acts -> uploads W t pos R events acts' st -> uploads W t pos R events (acts ++ acts') st.
Proof. induction 1; cbn; [done|]. intros Hu. constructor; auto. Qed.

Lemma uploads_exit W t pos R events acts : Forall not_upload acts -> uploads W t pos R events acts Exit.
Proof. intros Ha. rewrite <- (app_nil_r acts). apply uploads_skip; [done|constructor]. Qed.

Variable TimelineHistory : Z -> res pgError (string * string).

Lemma receiveLoop_uploads W fuel : forall t pos R seg events R0 events0 acts st,
  let start := pos / size * size in
  segment_inv (W t) t start seg -> holds start R seg -> R < start + size ->
  faithful_events W t events -> copied_to R0 events0 = copied_to R events -> (length events < fuel)%nat -> 0 <= pos ->
  pos + size * Z.of_nat (length events + 2) < 2 ^ 64 ->
  receiveLoop TimelineHistory fuel t pos seg events = (acts, st) -> uploads W t pos R0 events0 acts st.
Proof.
  induction fuel as [|fuel IH]; intros t pos R seg events R0 events0 acts st start Hi Hh HR Hf H0 Hfuel Hp Hb; cbn [receiveLoop]; [lia|].
  destruct (Stream seg false events) as [sacts r] eqn:Es.
  destruct (Stream_inv W t _ events seg false sacts r Hi Hf Es) as [Hs Hr].
  destruct r as [seg' result [err|] events'|seg'|e];
    [destruct result; intros [= <- <-]; by apply uploads_exit| | |intros [= <- <-]; by apply uploads_exit].
  2:{ intros [= <- <-]. destruct (Stream_waits W t _ _ _ _ _ _ _ Hi Hh HR Hf Es) as (R' & HR' & Hc).
      rewrite <- (app_nil_r sacts). apply uploads_skip; [done|]. apply up_wait with R'; [by rewrite H0|done]. }
  destruct Hr as (Hi' & Hl & Hc & Hf'). pose proof (Stream_holds W t _ _ _ _ _ _ _ _ _ Hi Hh HR Hf Es) as Hend.
  pose proof (Z.mul_div_le pos size size_pos). pose proof (Z.div_pos pos size Hp size_pos).
  destruct result; try (intros [= <- <-]; by apply uploads_exit).
  - specialize (Hc eq_refl). destruct Hend as (R' & HR' & Hh' & Hcop).
    rewrite (segment_name _ _ _ _ Hi'), Hc, app_nil_r_s, (segment_complete _ _ _ _ Hi' Hc). fold start.
    assert (start + size <= fst (copied_to R0 events0)) as Hall by (rewrite H0, Hcop; pose proof (copied_to_ge events' R'); lia).
    destruct (NextWalSegment seg') as [[next|e]|e] eqn:En;
      [|intros [= <- <-]; apply uploads_skip; [done|]; apply up_full; [done|]; apply up_skip; [done|apply up_exit]..].
    destruct (NextWalSegment_holds _ _ _ _ _ _ Hi' Hh' HR' ltac:(nia) En) as [Hhn HRn].
    apply (NextWalSegment_inv (W t) t _ _ _ Hi') in En; [|nia].
    destruct (receiveLoop TimelineHistory fuel t (endLSN seg') next events') as [more st'] eqn:El.
    intros [= <- <-]. rewrite <- app_assoc. apply uploads_skip; [done|]. cbn. apply up_full; [done|]. apply up_skip; [done|].
    destruct Hi' as [_ _ Ie _ _ _ _ _ _]. rewrite Ie in El.
    eapply IH; [| | | | | | | |exact El]; rewrite ?aligned_next by (apply Z.mod_mul; lia); try done; [by rewrite H0|lia|lia|nia].
  - destruct Hend as (R' & HR' & Hh' & Hcop). rewrite (segment_name _ _ _ _ Hi'), (holds_complete _ _ _ _ _ Hi' Hh').
    rewrite (proj2 (Z.leb_gt _ _) HR'). fold start.
    assert (data seg' = wal_slice (W t) start (Z.to_nat (R' - start)) ++ zero_bytes (sz - Z.to_nat (R' - start))) as Hdata.
    { destruct Hi' as [_ _ _ _ _ _ _ -> _]. destruct Hh' as [Hfrom Hw _]. by replace (writeIndex seg') with (Z.to_nat (R' - start)) by lia. }
    destruct Hh' as [Hfrom _ _]. rewrite Hdata. rewrite Hcop in H0.
    destruct (TimelineHistory (u32 (t + 1))) as [[filename content]|e];
      [|intros [= <- <-]; apply uploads_skip; [done|]; apply up_last with events'; [done..|]; apply up_skip; [done|apply up_exit]].
    destruct (receiveLoop _ fuel (u32 (t + 1)) _ _ _) as [more st'] eqn:El.
    intros [= <- <-]. rewrite <- app_assoc. apply uploads_skip; [done|]. cbn. apply up_last with events'; [done..|].
    do 4 (apply up_skip; [done|]). destruct Hi' as [_ _ _ Iz _ _ _ _ _]. rewrite Iz in El.
    eapply IH; [| | | | | | | |exact El]; [by apply NewWalSegment_inv; nia| | |done|done|lia|done|nia].
    + apply NewWalSegment_holds; nia.
    + lia.
Qed.
End Receiving.

(** ** Theorems *)

(** C32: however the messages cut the WAL, no one of them carrying more than
    a segment of it, the files that are uploaded follow each other without a
    gap from the segment of the starting position; each complete one has the
    server's bytes of its segment under its name; the one a timeline ends in
    has, under a [.partial] name, the bytes up to the end of the last message
    before the copy was done, and zeros after them; and a receiver that has
    used up its events without ending has uploaded every complete segment that
    the messages reach. The messages carry the server's WAL of the timeline
    they belong to, and no position comes near [2 ^ 64]; a message that is out
    of order or cannot be parsed ends the receiver ([Exit]), as a failed
    history does. *)
Theorem HandleWALReceive_uploads `{Replication} {cfg : WalConfig}
    (TimelineHistory : Z -> res pgError (string * string)) (W : Z -> Z -> byte)
    (size timeline XLogPos : Z) (events : list event) :
  0 < size -> 0 <= XLogPos ->
  XLogPos + size * Z.of_nat (length events + 2) < 2 ^ 64 ->
  faithful_events size W timeline events ->
  let '(acts, st) := HandleWALReceive TimelineHistory timeline XLogPos size events in
  uploads size W timeline XLogPos (XLogPos / size * size) events acts st.
Proof.
  intros Hs Hp Hb Hf. unfold HandleWALReceive.
  destruct (receiveLoop _ _ _ _ _ _) as [acts st] eqn:E. constructor; [done|].
  eapply receiveLoop_uploads; [done| | | | | | | | |exact E]; try done; [by apply NewWalSegment_inv; nia| |lia|lia].
  apply NewWalSegment_holds; [done|done|nia].
Qed.

(** A connection whose messages are the id, one length byte and WAL. *)
#[local] Instance ex_replication : Replication := {
  PrimaryKeepaliveMessageByteID := Byte.x6b;
  XLogDataByteID := Byte.x77;
  ParsePrimaryKeepaliveMessage bs := Ok (bool_decide (bs = [Byte.x01]));
  ParseXLogData bs :=
    match bs with start :: d => Ok (b2z start, d) | [] => Err (External "short message") end
}.

#[local] Instance ex_config : WalConfig := DefaultWalConfig.

(** The server's WAL has at every LSN its low byte plus the timeline. *)
Definition ex_wal (t lsn : Z) : byte := z2b (lsn + t).
Definition ex_message (t start : Z) (n : nat) : event :=
  mkEvent false (Message (CopyData (Byte.x77 :: z2b start :: wal_slice (ex_wal t) start n))).
Definition ex_events : list event :=
  [ex_message 1 8 6; ex_message 1 14 6; mkEvent true Timeout;
   mkEvent false (Message CopyDone); ex_message 2 16 5; ex_message 2 21 4].

Lemma ex_message_faithful t start n :
  0 <= start < 256 -> (n <= 8)%nat ->
  match what (ex_message t start n) with
  | Message m => faithful 8 (ex_wal t) m
  | _ => True
  end.
Proof.
  intros Hs Hn s d _ [= <- <-]. rewrite wal_slice_length.
  rewrite coqutil.Byte.byte.unsigned_of_Z. unfold coqutil.Byte.byte.wrap.
  rewrite Z.mod_small by lia. split_and!; [lia|lia|done|lia].
Qed.

Definition ex_run : list action * stopped := HandleWALReceive (fun t => Ok ("00000002.history", "")) 1 8 8 ex_events.

Lemma HandleWALReceive_uploads_witness :
  uploads 8 ex_wal 1 8 8 ex_events (fst ex_run) (snd ex_run) /\
  fst ex_run =
    [StartReplication 8 1;
     UploadWalFile "000000010000000000000001" (wal_slice (ex_wal 1) 8 8);
     uploadRemoteWalMetadata "000000010000000000000001";
     SendStandbyStatusUpdate 16; SendStandbyCopyDone;
     UploadWalFile "000000010000000000000002.partial" (wal_slice (ex_wal 1) 16 4 ++ zero_bytes 4);
     uploadRemoteWalMetadata "000000010000000000000002.partial";
     UploadHistoryFile (NewTimeLineHistFile 2 "00000002.history" "");
     uploadRemoteWalMetadata "00000002.history";
     StartReplication 16 2;
     UploadWalFile "000000020000000000000002" (wal_slice (ex_wal 2) 16 8);
     uploadRemoteWalMetadata "000000020000000000000002"] /\
  exists seg, snd ex_run = Blocked seg /\ writeIndex seg = 1%nat.
Proof.
  split; [|split; [vm_compute; reflexivity|eexists; split; vm_compute; reflexivity]].
  assert (faithful_events 8 ex_wal 1 ex_events) as Hf.
  { split; [apply (ex_message_faithful 1 8 6); lia|]. split; [apply (ex_message_faithful 1 14 6); lia|].
    split; [exact I|]. split; [apply (ex_message_faithful 2 16 5); lia|]. split; [apply (ex_message_faithful 2 21 4); lia|exact I]. }
  pose proof (HandleWALReceive_uploads (fun t => Ok ("00000002.history", "")) ex_wal 8 1 8 ex_events
    ltac:(lia) ltac:(lia) ltac:(reflexivity) Hf) as Hu.
  unfold ex_run. destruct (HandleWALReceive _ 1 8 8 ex_events) as [acts st]. exact Hu.
Defined.
