(* ===== verification/WalSegments.v ===== *)
(** * Walking the segments of the WAL storage

    [src/internal/databases/postgres]: [wal_segment_runner.go], which steps
    back through the segments along the timeline history,
    [wal_segment_scanner.go], which records what it finds, and
    [WalSegmentsSequence] of [wal_show_handler.go]. *)

From S2P Require Import Prelude GoStrings Timeline Storage History.
Open Scope Z_scope.

(** ** Segments *)

Record WalSegmentDescription := mkDesc { Number : Z; Timeline : Z }.

#[export] Instance WalSegmentDescription_eq_dec : EqDecision WalSegmentDescription.
Proof. solve_decision. Defined.
#[export] Program Instance WalSegmentDescription_countable : Countable WalSegmentDescription :=
  inj_countable' (fun d => (Number d, Timeline d)) (fun p => mkDesc p.1 p.2) _.
Next Obligation. by intros []. Qed.

(** The zero value of the struct. *)
Definition zeroDescription : WalSegmentDescription := mkDesc 0 0.

Section Descriptions.
Context {cfg : WalConfig}.

Definition NewWalSegmentDescription (name : string) : res pgError WalSegmentDescription :=
  '(timeline, segmentNo) ← ParseWALFilename name;
  Ok (mkDesc segmentNo timeline).

Definition GetFileName (desc : WalSegmentDescription) : string :=
  WalSegmentNo.getFilename (Number desc) (Timeline desc).

(** The set of the segments of the files. Only a [NotWalFilenameError] is
    skipped; with another error the zero description is entered. *)
Definition addSegmentFile (walSegments : gset WalSegmentDescription) (filename : string)
  : gset WalSegmentDescription :=
  let baseName := TrimFileExtension filename in
  match NewWalSegmentDescription baseName with
  | Err (NotWalFilenameError _) => walSegments
  | Err _ => {[ zeroDescription ]} ∪ walSegments
  | Ok segment => {[ segment ]} ∪ walSegments
  end.

Definition getSegmentsFromFiles (filenames : list string) : gset WalSegmentDescription :=
  fold_left addSegmentFile filenames ∅.
End Descriptions.

(** ** [WalSegmentRunner] *)

Inductive runnerError :=
| WalSegmentNotFoundError (segmentFileName : string)
| ReachedStopSegmentError.

Record WalSegmentRunner := mkRunner {
  currentWalSegment : WalSegmentDescription;
  walFolderSegments : gset WalSegmentDescription;
  stopSegmentNo : Z;
  timelineSwitchMap : gmap Z TimelineHistoryRecord
}.

Definition NewWalSegmentRunner := mkRunner.

Definition Current (r : WalSegmentRunner) : WalSegmentDescription := currentWalSegment r.

Definition set_current (r : WalSegmentRunner) (d : WalSegmentDescription) : WalSegmentRunner :=
  mkRunner d (walFolderSegments r) (stopSegmentNo r) (timelineSwitchMap r).

(** The segment before [d]. *)
Definition previousSegment (m : gmap Z TimelineHistoryRecord) (d : WalSegmentDescription)
  : WalSegmentDescription :=
  let nextTimeline :=
    match m !! Number d with
    | Some record => timeline record
    | None => Timeline d
    end in
  mkDesc (WalSegmentNo.previous (Number d)) nextTimeline.

Definition getNextSegment (r : WalSegmentRunner) : WalSegmentDescription :=
  previousSegment (timelineSwitchMap r) (currentWalSegment r).

Definition Next {cfg : WalConfig} (r : WalSegmentRunner)
  : res runnerError WalSegmentDescription * WalSegmentRunner :=
  if Number (currentWalSegment r) <=? stopSegmentNo r then (Err ReachedStopSegmentError, r)
  else
    let nextSegment := getNextSegment r in
    if negb (bool_decide (nextSegment ∈ walFolderSegments r))
    then (Err (WalSegmentNotFoundError (GetFileName nextSegment)), r)
    else (Ok nextSegment, set_current r nextSegment).

Definition ForceMoveNext (r : WalSegmentRunner) : WalSegmentRunner :=
  set_current r (getNextSegment r).

(** ** [WalSegmentScanner] *)

Inductive ScannedSegmentStatus := Lost | ProbablyUploading | ProbablyDelayed | Found.

#[export] Instance ScannedSegmentStatus_eq_dec : EqDecision ScannedSegmentStatus.
Proof. solve_decision. Defined.

Definition status_String (status : ScannedSegmentStatus) : string :=
  match status with
  | Lost => "MISSING_LOST"
  | ProbablyUploading => "MISSING_UPLOADING"
  | ProbablyDelayed => "MISSING_DELAYED"
  | Found => "FOUND"
  end.

Record ScannedSegmentDescription := newScannedSegmentDescription {
  description : WalSegmentDescription;
  status : ScannedSegmentStatus
}.

Record WalSegmentScanner := mkScanner {
  ScannedSegments : list ScannedSegmentDescription;
  walSegmentRunner : WalSegmentRunner
}.

Record SegmentScanConfig := mkScanConfig {
  UnlimitedScan : bool;
  ScanSegmentsLimit : Z;
  StopOnFirstFoundSegment : bool;
  MissingSegmentStatus : ScannedSegmentStatus
}.

Definition NewWalSegmentScanner (r : WalSegmentRunner) : WalSegmentScanner := mkScanner [] r.

Definition AddScannedSegment (sc : WalSegmentScanner) (d : WalSegmentDescription)
    (s : ScannedSegmentStatus) : WalSegmentScanner :=
  mkScanner (ScannedSegments sc ++ [newScannedSegmentDescription d s]) (walSegmentRunner sc).

Section Scan.
Context {cfg : WalConfig}.

(** The loop of [Scan] from iteration [i]; [None]: out of fuel. *)
Fixpoint scanLoop (fuel : nat) (config : SegmentScanConfig) (i : Z) (sc : WalSegmentScanner)
  : option WalSegmentScanner :=
  match fuel with
  | 0%nat => None
  | S fuel =>
      if UnlimitedScan config || (i <? ScanSegmentsLimit config) then
        match Next (walSegmentRunner sc) with
        | (Err (WalSegmentNotFoundError _), r) =>
            let r := ForceMoveNext r in
            scanLoop fuel config (i + 1)
              (AddScannedSegment (mkScanner (ScannedSegments sc) r) (Current r)
                 (MissingSegmentStatus config))
        | (Err ReachedStopSegmentError, r) => Some (mkScanner (ScannedSegments sc) r)
        | (Ok currentSegment, r) =>
            let sc := AddScannedSegment (mkScanner (ScannedSegments sc) r) currentSegment Found in
            if StopOnFirstFoundSegment config then Some sc
            else scanLoop fuel config (i + 1) sc
        end
      else Some sc
  end.

(** Each iteration that does not return moves the runner one segment back. *)
Definition Scan (sc : WalSegmentScanner) (config : SegmentScanConfig) : option WalSegmentScanner :=
  let r := walSegmentRunner sc in
  scanLoop (S (S (Z.to_nat (Number (currentWalSegment r) - stopSegmentNo r)))) config 0 sc.
End Scan.

Definition GetMissingSegmentsDescriptions (sc : WalSegmentScanner) : list WalSegmentDescription :=
  ScannedSegments sc ≫= fun segment =>
    if bool_decide (status segment = Found) then [] else [description segment].

(** ** [WalSegmentsSequence] *)

Record WalSegmentsSequence := mkSequence {
  timelineID : Z;
  walSegmentNumbers : gset Z;
  minSegmentNo : Z;
  maxSegmentNo : Z
}.

Definition NewSegmentsSequence (id segmentNo : Z) : WalSegmentsSequence :=
  mkSequence id {[ segmentNo ]} segmentNo segmentNo.

Definition AddWalSegmentNo (seq : WalSegmentsSequence) (number : Z) : WalSegmentsSequence :=
  mkSequence (timelineID seq) ({[ number ]} ∪ walSegmentNumbers seq)
    (if number <? minSegmentNo seq then number else minSegmentNo seq)
    (if maxSegmentNo seq <? number then number else maxSegmentNo seq).

Definition FindMissingSegments {cfg : WalConfig} (seq : WalSegmentsSequence)
  : option (list WalSegmentDescription) :=
  let startWalSegment := mkDesc (maxSegmentNo seq) (timelineID seq) in
  let walSegments := set_map (fun number => mkDesc number (timelineID seq)) (walSegmentNumbers seq)
    : gset WalSegmentDescription in
  let walSegmentRunner := NewWalSegmentRunner startWalSegment walSegments (minSegmentNo seq) ∅ in
  let walSegmentScanner := NewWalSegmentScanner walSegmentRunner in
  GetMissingSegmentsDescriptions <$>
    Scan walSegmentScanner (mkScanConfig true 0 false Lost).

(** The iteration order of the set does not matter, see
    [groupSegments_lookup]. *)
Definition addToTimeline (segmentsByTimelines : gmap Z WalSegmentsSequence)
    (segment : WalSegmentDescription) : gmap Z WalSegmentsSequence :=
  match segmentsByTimelines !! Timeline segment with
  | Some timelineInfo =>
      <[ Timeline segment := AddWalSegmentNo timelineInfo (Number segment) ]> segmentsByTimelines
  | None =>
      <[ Timeline segment := NewSegmentsSequence (Timeline segment) (Number segment) ]>
        segmentsByTimelines
  end.

Definition groupSegmentsByTimelines (segments : gset WalSegmentDescription)
  : gmap Z WalSegmentsSequence :=
  fold_left addToTimeline (elements segments) ∅.

(** ** Lemmas *)

(** The segments a runner visits: [n] of them, going back from [d]. *)
Fixpoint walk (m : gmap Z TimelineHistoryRecord) (n : nat) (d : WalSegmentDescription)
  : list WalSegmentDescription :=
  match n with
  | 0%nat => []
  | S n => let d' := previousSegment m d in d' :: walk m n d'
  end.

(** The segments up to the stop segment. *)
Definition remaining (r : WalSegmentRunner) : list WalSegmentDescription :=
  walk (timelineSwitchMap r) (Z.to_nat (Number (currentWalSegment r) - stopSegmentNo r))
    (currentWalSegment r).

(** What a scan says of a segment it visits. *)
Definition scanned_as (folder : gset WalSegmentDescription) (missing : ScannedSegmentStatus)
    (d : WalSegmentDescription) : ScannedSegmentDescription :=
  newScannedSegmentDescription d (if bool_decide (d ∈ folder) then Found else missing).

(** The number of segments a scan visits of those that remain. *)
Fixpoint visited (folder : gset WalSegmentDescription) (limit : option nat) (stopFound : bool)
    (ds : list WalSegmentDescription) : nat :=
  match ds, limit with
  | [], _ | _, Some 0%nat => 0
  | d :: ds, _ =>
      if stopFound && bool_decide (d ∈ folder) then 1
      else S (visited folder (Nat.pred <$> limit) stopFound ds)
  end.

Definition runner_ok (r : WalSegmentRunner) : Prop :=
  0 <= stopSegmentNo r /\ 0 <= Number (currentWalSegment r) < 2 ^ 64.

Section Lemmas.
Context {cfg : WalConfig}.

Lemma previousSegment_number m d :
  0 < Number d < 2 ^ 64 -> Number (previousSegment m d) = Number d - 1.
Proof.
  intros Hd. unfold previousSegment, WalSegmentNo.previous, WalSegmentNo.sub. cbn.
  rewrite wrap_id; [done|]. unfold in_width. lia.
Qed.

(** The runner after [k] steps. *)
Definition moved (r : WalSegmentRunner) (k : nat) : WalSegmentRunner :=
  set_current r (List.last (walk (timelineSwitchMap r) k (currentWalSegment r)) (currentWalSegment r)).

Lemma moved_S r k : moved (ForceMoveNext r) k = moved r (S k).
Proof.
  unfold moved, ForceMoveNext, getNextSegment, set_current. cbn. do 2 f_equal.
  set (w := walk _ _ _). generalize (previousSegment (timelineSwitchMap r) (currentWalSegment r)).
  intros d. destruct w as [|x w]; [done|].
  assert (forall d1 d2, List.last (x :: w) d1 = List.last (x :: w) d2) as Hl; [|apply Hl].
  clear. revert x. induction w as [|y w IH]; intros x d1 d2; [done|].
  cbn in *. apply IH.
Qed.

Lemma remaining_step r :
  runner_ok r -> stopSegmentNo r < Number (currentWalSegment r) ->
  remaining r = getNextSegment r :: remaining (ForceMoveNext r) /\ runner_ok (ForceMoveNext r).
Proof.
  intros [Hs Hn] Hlt. unfold remaining, ForceMoveNext, getNextSegment, runner_ok. cbn -[previousSegment].
  set (d' := previousSegment (timelineSwitchMap r) (currentWalSegment r)).
  assert (Number d' = Number (currentWalSegment r) - 1) as Hd
    by (apply previousSegment_number; lia).
  replace (Z.to_nat (Number (currentWalSegment r) - stopSegmentNo r))
    with (S (Z.to_nat (Number d' - stopSegmentNo r))) by lia.
  split; [done|]. lia.
Qed.

Lemma remaining_nil r : Number (currentWalSegment r) <= stopSegmentNo r -> remaining r = [].
Proof.
  intros Hle. unfold remaining.
  by replace (Z.to_nat (Number (currentWalSegment r) - stopSegmentNo r)) with 0%nat by lia.
Qed.

(** A scan visits the next segments, and records each with its status. *)
Lemma scanLoop_spec config fuel : forall i sc,
  runner_ok (walSegmentRunner sc) -> (length (remaining (walSegmentRunner sc)) + 1 < fuel)%nat ->
  let r := walSegmentRunner sc in
  let limit := if UnlimitedScan config then None else Some (Z.to_nat (ScanSegmentsLimit config - i)) in
  let n := visited (walFolderSegments r) limit (StopOnFirstFoundSegment config) (remaining r) in
  scanLoop fuel config i sc =
    Some (mkScanner
      (ScannedSegments sc ++
       map (scanned_as (walFolderSegments r) (MissingSegmentStatus config)) (take n (remaining r)))
      (moved r n)).
Proof.
  induction fuel as [|fuel IH]; intros i [scanned r] Hok Hf; [lia|]. cbn [walSegmentRunner] in *.
  cbv zeta. cbn [scanLoop walSegmentRunner ScannedSegments].
  set (limit := if UnlimitedScan config then _ else _).
  assert (moved r 0 = r) as Hm0 by (by destruct r).
  destruct (UnlimitedScan config || (i <? ScanSegmentsLimit config)) eqn:Ec.
  2:{ apply orb_false_iff in Ec as [Eu Ei]. subst limit. rewrite Eu. bool_to_prop.
      replace (Z.to_nat (ScanSegmentsLimit config - i)) with 0%nat by lia.
      assert (forall sf ds, visited (walFolderSegments r) (Some 0%nat) sf ds = 0%nat) as Hv
        by (by intros sf []).
      rewrite Hv, Hm0. cbn. by rewrite app_nil_r. }
  unfold Next. destruct (Number (currentWalSegment r) <=? stopSegmentNo r) eqn:En.
  { bool_to_prop. rewrite (remaining_nil r) by done. destruct limit as [[]|]; cbn;
      rewrite Hm0, app_nil_r; done. }
  bool_to_prop. destruct (remaining_step r Hok En) as [Hr Hok'].
  assert (limit <> Some 0%nat /\
    (if UnlimitedScan config then None else Some (Z.to_nat (ScanSegmentsLimit config - (i + 1)))) =
    Nat.pred <$> limit) as [Hl0 Hl].
  { subst limit. destruct (UnlimitedScan config); [done|]. cbn in Ec. bool_to_prop. cbn.
    split; [intros [= ?]; lia|]. f_equal. lia. }
  rewrite Hr in Hf |- *. cbn [length] in Hf.
  assert (forall sf, visited (walFolderSegments r) limit sf
      (getNextSegment r :: remaining (ForceMoveNext r)) =
    if sf && bool_decide (getNextSegment r ∈ walFolderSegments r) then 1%nat
    else S (visited (walFolderSegments r) (Nat.pred <$> limit) sf (remaining (ForceMoveNext r)))) as Hv.
  { intros sf. cbn [visited]. by destruct limit as [[]|]. }
  rewrite Hv. unfold negb.
  destruct (bool_decide (getNextSegment r ∈ walFolderSegments r)) eqn:Ein.
  - change (set_current r (getNextSegment r)) with (ForceMoveNext r).
    destruct (StopOnFirstFoundSegment config); cbn [andb].
    + unfold AddScannedSegment. cbn [take map ScannedSegments walSegmentRunner].
      unfold scanned_as. rewrite Ein. by rewrite <- moved_S.
    + rewrite IH by (done || cbn; lia). unfold AddScannedSegment. cbn [ScannedSegments walSegmentRunner].
      rewrite Hl, moved_S. cbn [take map]. rewrite <- app_assoc. cbn [app].
      unfold scanned_as at 2. by rewrite Ein.
  - rewrite andb_false_r. rewrite IH by (done || cbn; lia).
    unfold AddScannedSegment. cbn [ScannedSegments walSegmentRunner].
    rewrite Hl, moved_S. cbn [take map]. rewrite <- app_assoc. cbn [app].
    unfold scanned_as at 2. by rewrite Ein.
Qed.

Lemma walk_length m n d : length (walk m n d) = n.
Proof. revert d. induction n; intros d; cbn; auto. Qed.

Lemma Scan_spec sc config :
  runner_ok (walSegmentRunner sc) ->
  let r := walSegmentRunner sc in
  let limit := if UnlimitedScan config then None else Some (Z.to_nat (ScanSegmentsLimit config)) in
  let n := visited (walFolderSegments r) limit (StopOnFirstFoundSegment config) (remaining r) in
  Scan sc config =
    Some (mkScanner
      (ScannedSegments sc ++
       map (scanned_as (walFolderSegments r) (MissingSegmentStatus config)) (take n (remaining r)))
      (moved r n)).
Proof.
  intros Hok. cbv zeta. unfold Scan. rewrite scanLoop_spec.
  - by rewrite Z.sub_0_r.
  - done.
  - unfold remaining. rewrite walk_length. lia.
Qed.

Lemma visited_all folder ds : visited folder None false ds = length ds.
Proof. induction ds; cbn; auto. Qed.

Lemma walk_no_switch n d :
  0 <= Number d - Z.of_nat n -> Number d < 2 ^ 64 ->
  walk ∅ n d = (fun i => mkDesc (Number d - 1 - Z.of_nat i) (Timeline d)) <$> seq 0 n.
Proof.
  revert d. induction n as [|n IH]; intros d Hd Hb; [done|]. cbn [walk seq fmap list_fmap].
  assert (previousSegment ∅ d = mkDesc (Number d - 1) (Timeline d)) as Hp.
  { unfold previousSegment. rewrite lookup_empty. f_equal.
    unfold WalSegmentNo.previous, WalSegmentNo.sub. rewrite wrap_id; [done|].
    unfold in_width. lia. }
  rewrite Hp, IH by (cbn; lia). f_equal; [f_equal; lia|].
  rewrite <- (fmap_S_seq 0 n), <- list_fmap_compose. apply list_fmap_ext.
  intros i x _. cbn. f_equal. lia.
Qed.
End Lemmas.

Section Moves.
Context {cfg : WalConfig}.

Lemma walk_app m n k d :
  walk m (n + k) d = walk m n d ++ walk m k (List.last (walk m n d) d).
Proof.
  revert d. induction n as [|n IH]; intros d; [done|]. cbn [walk Nat.add app]. rewrite IH.
  f_equal. f_equal. f_equal. generalize (previousSegment m d). intros d'.
  destruct (walk m n d') as [|x w]; [done|].
  assert (forall d1 d2, List.last (x :: w) d1 = List.last (x :: w) d2) as Hl; [|cbn in *; apply Hl].
  clear. revert x. induction w as [|y w IH]; intros x d1 d2; [done|]. cbn in *. apply IH.
Qed.

Lemma moved_remaining r k :
  runner_ok r -> (k <= length (remaining r))%nat ->
  remaining (moved r k) = drop k (remaining r) /\ runner_ok (moved r k).
Proof.
  revert r. induction k as [|k IH]; intros r Hok Hk.
  - assert (moved r 0 = r) as -> by by destruct r. by rewrite drop_0.
  - destruct (decide (Number (currentWalSegment r) <= stopSegmentNo r)) as [Hle|Hgt].
    { rewrite remaining_nil in Hk by done. cbn in Hk. lia. }
    destruct (remaining_step r Hok ltac:(lia)) as [Hr Hok'].
    rewrite <- moved_S, Hr. apply IH; [done|]. rewrite Hr in Hk. cbn in Hk. lia.
Qed.

Lemma visited_le folder limit sf ds : (visited folder limit sf ds <= length ds)%nat.
Proof.
  revert limit. induction ds as [|d ds IH]; intros limit; [done|].
  cbn. destruct limit as [[|n]|]; cbn; [lia|..]; (case_bool; [lia|]);
    [specialize (IH (Some n))|specialize (IH None)]; cbn in IH; lia.
Qed.

Lemma visited_limit folder u ds : visited folder (Some u) false ds = Nat.min u (length ds).
Proof.
  revert u. induction ds as [|d ds IH]; intros u; cbn; [by rewrite Nat.min_0_r|].
  destruct u as [|u]; [done|]. cbn. by rewrite IH.
Qed.

(** A scan that stops at the first segment found. *)
Lemma visited_stop folder lim ds :
  let k := visited folder (Some lim) true ds in
  (k <= lim)%nat /\
  (forall i d, (S i < k)%nat -> ds !! i = Some d -> d ∉ folder) /\
  (k = Nat.min lim (length ds) \/ exists i d, k = S i /\ ds !! i = Some d /\ d ∈ folder).
Proof.
  revert lim. induction ds as [|d ds IH]; intros lim; cbv zeta.
  - cbn. split; [lia|]. split; [intros; lia|]. left. lia.
  - destruct lim as [|lim]; cbn [visited]; [split; [lia|]; split; [intros; lia|]; by left|].
    cbn [andb]. destruct (bool_decide (d ∈ folder)) eqn:E; bool_to_prop.
    + split; [lia|]. split; [intros; lia|]. right. exists 0%nat, d. done.
    + change (Nat.pred <$> Some (S lim)) with (Some lim).
      destruct (IH lim) as (H1 & H2 & H3). split; [lia|]. split.
      * intros [|i] d' Hi; cbn; [by intros [= <-]|]. apply H2. lia.
      * destruct H3 as [H3|(i & d' & H3 & ? & ?)]; [left|right].
        -- rewrite H3. cbn. lia.
        -- exists (S i), d'. rewrite H3. done.
Qed.

(** The numbers along a walk go down by one. *)
Lemma walk_numbers m n d i x :
  0 <= Number d - Z.of_nat n -> Number d < 2 ^ 64 ->
  walk m n d !! i = Some x -> Number x = Number d - 1 - Z.of_nat i.
Proof.
  revert d i. induction n as [|n IH]; intros d i Hd Hb; [done|]. cbn [walk].
  pose proof (previousSegment_number m d ltac:(lia)) as Hp. destruct i as [|i]; cbn.
  - intros [= <-]. lia.
  - intros Hi. apply IH in Hi; lia.
Qed.
End Moves.
