(* ===== verification/WalShow.v ===== *)
(** * [wal-show]

    [src/internal/databases/postgres/wal_show_handler.go]: the timelines of
    the storage with their segments, the missing ones, their parents and the
    backups in their range. *)

From S2P Require Import Prelude GoStrings GoSort Timeline Storage History WalSegments.
Open Scope Z_scope.

(** The fields of [BackupDetail] that the WAL commands use. *)
Record BackupDetail := mkBackupDetail {
  BackupName : string;
  WalFileName : string;
  StartLsn : Z;
  FinishLsn : Z;
  IsPermanent : bool
}.

Definition TimelineOkStatus : string := "OK".
Definition TimelineLostSegmentStatus : string := "LOST_SEGMENTS".

Record TimelineInfo := mkTimelineInfo {
  ID : Z;
  ParentID : Z;
  SwitchPointLsn : Z;
  StartSegment : string;
  EndSegment : string;
  SegmentsCount : Z;
  MissingSegments : list string;
  Backups : list BackupDetail;
  SegmentRangeSize : Z;
  Status : string
}.

Definition set_Backups (info : TimelineInfo) (bs : list BackupDetail) : TimelineInfo :=
  mkTimelineInfo (ID info) (ParentID info) (SwitchPointLsn info) (StartSegment info)
    (EndSegment info) (SegmentsCount info) (MissingSegments info) bs (SegmentRangeSize info)
    (Status info).

Section Show.
Context {cfg : WalConfig}.

(** [None]: the scan did not end. *)
Definition NewTimelineInfo (walSegments : WalSegmentsSequence)
    (historyRecords : list TimelineHistoryRecord) : option TimelineInfo :=
  missingSegments ← FindMissingSegments walSegments;
  let missing := GetFileName <$> missingSegments in
  let '(parent, switch) :=
    match last historyRecords with
    | Some r => (timeline r, lsn r)
    | None => (0, 0)
    end in
  Some (mkTimelineInfo (timelineID walSegments) parent switch
    (WalSegmentNo.getFilename (minSegmentNo walSegments) (timelineID walSegments))
    (WalSegmentNo.getFilename (maxSegmentNo walSegments) (timelineID walSegments))
    (Z.of_nat (size (walSegmentNumbers walSegments)))
    missing []
    (u64 (u64 (maxSegmentNo walSegments - minSegmentNo walSegments) + 1))
    (if bool_decide (missing = []) then TimelineOkStatus else TimelineLostSegmentStatus)).

(** [startSegment >= startSegmentName] and [endSegment <= endSegmentName],
    compared as strings. *)
Fixpoint getBackupsInRange (startSegmentName endSegmentName : string) (timeline : Z)
    (backups : list BackupDetail) : res pgError (list BackupDetail) :=
  match backups with
  | [] => Ok []
  | backup :: backups =>
      '(backupTimeline, _) ← ParseWALFilename (WalFileName backup);
      let startSegment :=
        WalSegmentNo.getFilename (WalSegmentNo.newWalSegmentNo (StartLsn backup)) backupTimeline in
      let endSegment :=
        WalSegmentNo.getFilename (WalSegmentNo.newWalSegmentNo (FinishLsn backup)) backupTimeline in
      rest ← getBackupsInRange startSegmentName endSegmentName timeline backups;
      if (timeline =? backupTimeline) && negb (sltb startSegment startSegmentName) &&
         negb (sltb endSegmentName endSegment)
      then Ok (backup :: rest) else Ok rest
  end.

Fixpoint addBackups (infos : list TimelineInfo) (backupDetails : list BackupDetail)
  : res pgError (list TimelineInfo) :=
  match infos with
  | [] => Ok []
  | info :: infos =>
      bs ← getBackupsInRange (StartSegment info) (EndSegment info) (ID info) backupDetails;
      rest ← addBackups infos backupDetails;
      Ok (set_Backups info bs :: rest)
  end.

(** [backups] and [backupDetails]: the results of [GetBackups], without its
    value, and of [GetBackupsDetails]. *)
Definition addBackupsInfo (timelineInfos : list TimelineInfo)
    (backups : res pgError unit) (backupDetails : res pgError (list BackupDetail))
  : res pgError (list TimelineInfo) :=
  match backups with
  | Err NoBackupsFoundError => Ok timelineInfos
  | Err err => Err err
  | Ok _ => details ← backupDetails; addBackups timelineInfos details
  end.

Section Handler.
Context {Folder : Type} `{StorageFolder Folder} {sorter : SortSlice}.
Variable ParseLSN : string -> res pgError Z.
Variable Decompressors : list Decompressor.

(** The infos of the timelines; an error ends the process. *)
Fixpoint timelineInfosLoop (cache : option string) (walFolder : Folder)
    (sequences : list WalSegmentsSequence) : res pgError (list TimelineInfo) :=
  match sequences with
  | [] => Ok []
  | segmentsSequence :: sequences =>
      let '(records, cache) :=
        getTimeLineHistoryRecords ParseLSN Decompressors cache (timelineID segmentsSequence)
          walFolder in
      historyRecords ←
        match records with
        | Ok records => Ok records
        | Err (HistoryFileNotFoundError _) => Ok []
        | Err err => Err err
        end;
      match NewTimelineInfo segmentsSequence historyRecords with
      | None => Err Panic
      | Some info =>
          rest ← timelineInfosLoop cache walFolder sequences;
          Ok (info :: rest)
      end
  end.

(** What is written: the infos by timeline. The timelines are visited in
    the map's order. *)
Definition HandleWalShow (cache : option string) (walFolder : Folder)
    (filenames : res pgError (list string)) (showBackups : bool)
    (backups : res pgError unit) (backupDetails : res pgError (list BackupDetail))
  : res pgError (list TimelineInfo) :=
  filenames ← filenames;
  let walSegments := getSegmentsFromFiles filenames in
  let segmentsByTimelines := groupSegmentsByTimelines walSegments in
  timelineInfos ← timelineInfosLoop cache walFolder ((map_to_list segmentsByTimelines).*2);
  timelineInfos ←
    (if showBackups then addBackupsInfo timelineInfos backups backupDetails
     else Ok timelineInfos);
  Ok (Slice (fun a b => ID a <? ID b) timelineInfos).
End Handler.
End Show.

(** ** Lemmas *)

(** A sequence collects the segments [segs] of timeline [t]. *)
Record sequence_of (segs : WalSegmentDescription -> Prop) (t : Z) (seq : WalSegmentsSequence) : Prop := {
  so_timeline : timelineID seq = t;
  so_numbers n : n ∈ walSegmentNumbers seq <-> segs (mkDesc n t);
  so_min : minSegmentNo seq ∈ walSegmentNumbers seq;
  so_max : maxSegmentNo seq ∈ walSegmentNumbers seq;
  so_range n : n ∈ walSegmentNumbers seq -> minSegmentNo seq <= n <= maxSegmentNo seq
}.

Lemma addToTimeline_inv (l : list WalSegmentDescription) (m : gmap Z WalSegmentsSequence) d :
  (forall t, match m !! t with
             | Some seq => sequence_of (fun d => d ∈ l) t seq
             | None => forall n, mkDesc n t ∉ l
             end) ->
  forall t, match addToTimeline m d !! t with
            | Some seq => sequence_of (fun d' => d' ∈ d :: l) t seq
            | None => forall n, mkDesc n t ∉ d :: l
            end.
Proof.
  intros Hm t. destruct d as [n0 t0]. unfold addToTimeline. cbn [Timeline Number].
  pose proof (Hm t0) as H0. destruct (decide (t = t0)) as [->|Hne].
  - destruct (m !! t0) as [seq|]; rewrite lookup_insert_eq.
    + destruct H0 as [Ht Hn Hmin Hmax Hr]. split; cbn.
      * done.
      * intros n. rewrite elem_of_union, elem_of_singleton, Hn, elem_of_cons.
        split; (intros [E|E]; [left|by right]); congruence.
      * case_bool; set_solver.
      * case_bool; set_solver.
      * intros n [-> %elem_of_singleton|Hin]%elem_of_union; [|apply Hr in Hin];
          repeat case_bool; bool_to_prop; pose proof (Hr _ Hmin); pose proof (Hr _ Hmax); lia.
    + split; cbn.
      * done.
      * intros n. rewrite elem_of_singleton, elem_of_cons. split; [by intros ->; left|].
        intros [[= ->]|Hin]; [done|]. by apply H0 in Hin.
      * set_solver.
      * set_solver.
      * intros n ->%elem_of_singleton. lia.
  - specialize (Hm t).
    assert (forall n, mkDesc n t ∈ mkDesc n0 t0 :: l <-> mkDesc n t ∈ l) as He.
    { intros n. rewrite elem_of_cons. split; [intros [[= -> ->]|]; done|by right]. }
    destruct (m !! t0); rewrite lookup_insert_ne by done;
      (destruct (m !! t) as [seq'|];
       [destruct Hm as [Ht Hn Hmin Hmax Hr]; split; try done; intros n; by rewrite He, Hn
       |intros n; by rewrite He]).
Qed.

(** The groups do not depend on the order in which the set is visited. *)
Lemma groupSegments_lookup (segments : gset WalSegmentDescription) t :
  match groupSegmentsByTimelines segments !! t with
  | Some seq => sequence_of (fun d => d ∈ segments) t seq
  | None => forall n, mkDesc n t ∉ segments
  end.
Proof.
  unfold groupSegmentsByTimelines.
  assert (forall l m done,
    (forall t, match m !! t with
               | Some seq => sequence_of (fun d => d ∈ done) t seq
               | None => forall n, mkDesc n t ∉ done
               end) ->
    forall t, match fold_left addToTimeline l m !! t with
              | Some seq => sequence_of (fun d => d ∈ rev l ++ done) t seq
              | None => forall n, mkDesc n t ∉ rev l ++ done
              end) as Hfold.
  { induction l as [|d l IH]; intros m dn Hm t'; [apply Hm|]. cbn [fold_left rev].
    rewrite <- app_assoc. apply (IH _ (d :: dn)). by apply addToTimeline_inv. }
  specialize (Hfold (elements segments) ∅ []).
  assert (forall d, d ∈ rev (elements segments) ++ [] <-> d ∈ segments) as He.
  { intros d. rewrite app_nil_r, <- elem_of_elements. rewrite !list_elem_of_In.
    by rewrite <- in_rev. }
  specialize (Hfold ltac:(intros t'; rewrite lookup_empty; intros n; apply not_elem_of_nil) t).
  destruct (fold_left _ _ _ !! t) as [seq|].
  - destruct Hfold as [Ht Hn Hmin Hmax Hr]. split; try done. intros n. by rewrite Hn, He.
  - intros n. by rewrite <- He.
Qed.

(** The numbers from [hi - 1] down to [lo]. *)
Definition down (lo hi : Z) : list Z := (fun i => hi - 1 - Z.of_nat i) <$> seq 0 (Z.to_nat (hi - lo)).

Lemma elem_of_down lo hi n : n ∈ down lo hi <-> lo <= n < hi.
Proof.
  unfold down. rewrite list_elem_of_fmap. setoid_rewrite elem_of_seq. split.
  - intros (i & -> & ?). lia.
  - intros Hn. exists (Z.to_nat (hi - 1 - n)). lia.
Qed.

Lemma NoDup_down lo hi : NoDup (down lo hi).
Proof. unfold down. apply NoDup_fmap_2; [|apply NoDup_seq]. intros i j. lia. Qed.

Lemma length_down lo hi : length (down lo hi) = Z.to_nat (hi - lo).
Proof. unfold down. by rewrite length_fmap, length_seq. Qed.

Section ShowLemmas.
Context {cfg : WalConfig}.

Lemma FindMissingSegments_spec seq :
  0 <= minSegmentNo seq <= maxSegmentNo seq -> maxSegmentNo seq < 2 ^ 64 ->
  FindMissingSegments seq =
    Some ((fun n => mkDesc n (timelineID seq)) <$>
            filter (fun n => n ∉ walSegmentNumbers seq) (down (minSegmentNo seq) (maxSegmentNo seq))).
Proof.
  intros Hm Hb. unfold FindMissingSegments. rewrite Scan_spec.
  2:{ split; cbn; lia. }
  cbn [UnlimitedScan StopOnFirstFoundSegment MissingSegmentStatus ScannedSegments walSegmentRunner
    NewWalSegmentScanner]. rewrite visited_all, firstn_all. cbn [fmap option_fmap option_map].
  unfold GetMissingSegmentsDescriptions, remaining, NewWalSegmentRunner.
  cbn [ScannedSegments walSegmentRunner timelineSwitchMap currentWalSegment stopSegmentNo
    walFolderSegments app].
  rewrite walk_no_switch by (cbn; lia). cbn [Number Timeline]. f_equal. unfold down.
  induction (List.seq 0 (Z.to_nat (maxSegmentNo seq - minSegmentNo seq))) as [|i l IH]; [done|].
  cbn [fmap list_fmap map mbind list_bind]. cbn [fmap list_fmap map mbind list_bind] in IH.
  rewrite IH. unfold scanned_as. cbn [status description].
  set (n := maxSegmentNo seq - 1 - Z.of_nat i).
  assert (mkDesc n (timelineID seq) ∈
    (set_map (fun number => mkDesc number (timelineID seq)) (walSegmentNumbers seq)
      : gset WalSegmentDescription) <-> n ∈ walSegmentNumbers seq) as Hin.
  { rewrite elem_of_map. split; [intros (x & [= ->] & ?); done|]. intros Hn. by exists n. }
  rewrite filter_cons. case_decide as Hn.
  - rewrite (bool_decide_eq_false_2 (mkDesc n _ ∈ _)) by (by rewrite Hin). done.
  - rewrite (bool_decide_eq_true_2 (mkDesc n _ ∈ _)) by (rewrite Hin; by destruct (decide (n ∈ walSegmentNumbers seq))).
    done.
Qed.

(** Present and missing segments fill the range. *)
Lemma missing_count (numbers : gset Z) lo hi :
  lo ∈ numbers -> hi ∈ numbers -> (forall n, n ∈ numbers -> lo <= n <= hi) ->
  Z.of_nat (size numbers) + Z.of_nat (length (filter (fun n => n ∉ numbers) (down lo hi))) = hi - lo + 1.
Proof.
  intros Hlo Hhi Hr. pose proof (Hr _ Hlo).
  assert (size numbers = length (filter (fun n => n ∈ numbers) (down lo (hi + 1)))) as ->.
  { rewrite <- (size_list_to_set (C:=gset Z)).
    - f_equal. apply set_eq. intros n. rewrite elem_of_list_to_set, list_elem_of_filter, elem_of_down.
      split; [|by intros []]. intros Hn. pose proof (Hr _ Hn). split; [done|lia].
    - apply NoDup_filter, NoDup_down. }
  assert (length (filter (fun n => n ∉ numbers) (down lo hi)) =
          length (filter (fun n => n ∉ numbers) (down lo (hi + 1)))) as ->.
  { apply Permutation_length, NoDup_Permutation.
    - apply NoDup_filter, NoDup_down.
    - apply NoDup_filter, NoDup_down.
    - intros n. rewrite !list_elem_of_filter, !elem_of_down. split; [intros [? ?]; split; [done|lia]|].
      intros [Hn ?]. split; [done|]. assert (n <> hi) by (by intros ->). lia. }
  assert (forall l : list Z, (length (filter (fun n => n ∈ numbers) l) +
    length (filter (fun n => n ∉ numbers) l) = length l)%nat) as Hl.
  { induction l as [|n l IH]; [done|]. rewrite !filter_cons. repeat case_decide; cbn; try done; lia. }
  specialize (Hl (down lo (hi + 1))). rewrite length_down in Hl. lia.
Qed.
End ShowLemmas.

(** ** Theorems *)

(** A timeline's info accounts for every segment between its first and
    its last one: those not among the files are listed as missing, newest
    first, the count of files and of missing ones add up to the range, and
    the status is [OK] exactly when nothing is missing; the order in which
    the files are visited does not matter. *)
Theorem wal_show_timeline {cfg : WalConfig} (segments : gset WalSegmentDescription) (t : Z)
    (seq : WalSegmentsSequence) (records : list TimelineHistoryRecord) :
  (forall d, d ∈ segments -> 0 <= Number d < 2 ^ 63) ->
  groupSegmentsByTimelines segments !! t = Some seq ->
  exists info, NewTimelineInfo seq records = Some info /\ ID info = t /\
    (forall n, mkDesc n t ∈ segments -> minSegmentNo seq <= n <= maxSegmentNo seq) /\
    mkDesc (minSegmentNo seq) t ∈ segments /\ mkDesc (maxSegmentNo seq) t ∈ segments /\
    MissingSegments info =
      (fun n => WalSegmentNo.getFilename n t) <$>
        filter (fun n => mkDesc n t ∉ segments) (down (minSegmentNo seq) (maxSegmentNo seq)) /\
    SegmentRangeSize info = SegmentsCount info + Z.of_nat (length (MissingSegments info)) /\
    (Status info = TimelineOkStatus <->
      forall n, minSegmentNo seq <= n <= maxSegmentNo seq -> mkDesc n t ∈ segments).
Proof.
  intros Hb Hg. pose proof (groupSegments_lookup segments t) as Hs. rewrite Hg in Hs.
  destruct Hs as [Ht Hn Hmin Hmax Hr].
  assert (mkDesc (minSegmentNo seq) t ∈ segments) as Hmin' by by apply Hn.
  assert (mkDesc (maxSegmentNo seq) t ∈ segments) as Hmax' by by apply Hn.
  pose proof (Hb _ Hmin'). pose proof (Hb _ Hmax'). cbn [Number] in *. pose proof (Hr _ Hmin).
  unfold NewTimelineInfo. rewrite FindMissingSegments_spec by lia. cbn [mbind option_bind].
  destruct (match last records with Some r => _ | None => _ end) as [parent switch].
  set (missing := filter (fun n => n ∉ walSegmentNumbers seq) (down (minSegmentNo seq) (maxSegmentNo seq))).
  assert (filter (fun n => mkDesc n t ∉ segments) (down (minSegmentNo seq) (maxSegmentNo seq)) = missing) as Hf.
  { apply list_filter_iff. intros n. by rewrite Hn. }
  eexists. split; [done|]. cbn. rewrite <- list_fmap_compose, Ht.
  split; [done|]. split; [intros n Hin; apply Hr; by apply Hn|]. split; [done|]. split; [done|].
  split; [by rewrite Hf|]. split.
  - rewrite length_fmap. pose proof (missing_count _ _ _ Hmin Hmax Hr) as Hc. fold missing in Hc.
    rewrite (wrap_id 64 (maxSegmentNo seq - _)) by (unfold in_width; lia).
    rewrite wrap_id by (unfold in_width; lia). lia.
  - unfold TimelineOkStatus, TimelineLostSegmentStatus. case_bool_decide as Hmis.
    + split; [|done]. intros _ n Hin. apply Hn.
      destruct (decide (n = maxSegmentNo seq)) as [->|]; [done|].
      destruct (decide (n ∈ walSegmentNumbers seq)) as [|Hnin]; [done|].
      apply fmap_nil_inv in Hmis. assert (n ∈ missing) as Hm.
      { apply list_elem_of_filter. split; [done|]. apply elem_of_down. lia. }
      rewrite Hmis in Hm. by apply elem_of_nil in Hm.
    + split; [done|]. intros Hall. exfalso. apply Hmis.
      destruct missing as [|n l] eqn:Em; [done|]. exfalso.
      assert (n ∈ missing) as Hin by (rewrite Em; left).
      apply list_elem_of_filter in Hin as [Hin Hd]. apply elem_of_down in Hd.
      apply Hin, Hn, Hall. lia.
Qed.

Definition ex_files : gset WalSegmentDescription :=
  @getSegmentsFromFiles DefaultWalConfig
    ["000000010000000000000003.lz4"; "000000010000000000000006.lz4"; "00000002.history.lz4";
     "000000010000000000000004.br"].

Lemma wal_show_timeline_witness :
  exists seq info, groupSegmentsByTimelines ex_files !! 1 = Some seq /\
    @NewTimelineInfo DefaultWalConfig seq [] = Some info /\
    MissingSegments info = ["000000010000000000000005"].
Proof.
  destruct (@wal_show_timeline DefaultWalConfig ex_files 1
    (mkSequence 1 {[3; 6; 4]} 3 6) []) as (info & Hi & _ & _ & _ & _ & Hm & _).
  - intros d Hd. assert (forallb (fun d => (0 <=? Number d) && (Number d <? 2 ^ 63))
      (elements ex_files) = true) as Hall by (vm_compute; reflexivity).
    rewrite forallb_forall in Hall. specialize (Hall d).
    rewrite <- list_elem_of_In, elem_of_elements in Hall. specialize (Hall Hd). bool_to_prop. lia.
  - vm_compute. reflexivity.
  - exists (mkSequence 1 {[3; 6; 4]} 3 6), info. split; [vm_compute; reflexivity|].
    split; [exact Hi|]. rewrite Hm. vm_compute. reflexivity.
Defined.

(** A file whose name has the length of a segment's but is none enters the
    zero segment of timeline zero. *)
Example getSegmentsFromFiles_not_hex :
  @getSegmentsFromFiles DefaultWalConfig ["not-a-wal-file-24-chars-.lz4"] = {[ zeroDescription ]}.
Proof. vm_compute. reflexivity. Qed.
