(* ===== verification/WalVerify.v ===== *)
(** * [wal-verify]

    [src/internal/databases/postgres]: the integrity check of
    [integrity_check_runner.go], the timeline check of
    [timeline_check_runner.go] and the handler of [wal_verify_handler.go]. *)

From S2P Require Import Prelude GoStrings GoSort Timeline Storage History WalSegments WalShow.
From Stdlib Require Import Sorting.Sorted.
Open Scope Z_scope.

(** ** Results *)

Inductive WalVerifyCheckStatus := StatusOk | StatusWarning | StatusFailure.

#[export] Instance WalVerifyCheckStatus_eq_dec : EqDecision WalVerifyCheckStatus.
Proof. solve_decision. Defined.

Inductive WalVerifyCheckType := WalVerifyIntegrityCheck | WalVerifyTimelineCheck | UnknownCheck.

#[export] Instance WalVerifyCheckType_eq_dec : EqDecision WalVerifyCheckType.
Proof. solve_decision. Defined.

Record IntegrityScanSegmentSequence := mkScanSequence {
  TimelineID : Z;
  StartSegment : string;
  EndSegment : string;
  SegmentsCount : Z;
  Status : ScannedSegmentStatus
}.

Record TimelineCheckDetails := mkTimelineDetails {
  CurrentTimelineID : Z;
  HighestStorageTimelineID : Z
}.

Inductive WalVerifyCheckDetails :=
| IntegrityCheckDetails (sequences : list IntegrityScanSegmentSequence)
| TimelineDetails (details : TimelineCheckDetails).

Record WalVerifyCheckResult := mkCheckResult {
  resultStatus : WalVerifyCheckStatus;
  Details : WalVerifyCheckDetails
}.

(** ** The integrity check *)

(** The loop over the sequences: a lost one ends it. *)
Fixpoint integrityStatus (segmentSequences : list IntegrityScanSegmentSequence)
    (status : WalVerifyCheckStatus) : WalVerifyCheckStatus :=
  match segmentSequences with
  | [] => status
  | row :: rows =>
      match Status row with
      | Lost => StatusFailure
      | ProbablyDelayed | ProbablyUploading => integrityStatus rows StatusWarning
      | Found => integrityStatus rows status
      end
  end.

Definition newWalIntegrityCheckResult (segmentSequences : list IntegrityScanSegmentSequence)
  : WalVerifyCheckResult :=
  mkCheckResult (integrityStatus segmentSequences StatusOk) (IntegrityCheckDetails segmentSequences).

Section Integrity.
Context {cfg : WalConfig} {sorter : SortSlice}.

Definition newIntegrityScanSegmentSequence (sequence : WalSegmentsSequence)
    (status : ScannedSegmentStatus) : IntegrityScanSegmentSequence :=
  mkScanSequence (timelineID sequence)
    (WalSegmentNo.getFilename (minSegmentNo sequence) (timelineID sequence))
    (WalSegmentNo.getFilename (maxSegmentNo sequence) (timelineID sequence))
    (Z.of_nat (size (walSegmentNumbers sequence))) status.

Definition runWalIntegrityScan (scanner : WalSegmentScanner)
    (uploadingSegmentRangeSize delayedSegmentRangeSize : Z) : option WalSegmentScanner :=
  scanner ← Scan scanner (mkScanConfig false delayedSegmentRangeSize true ProbablyDelayed);
  scanner ← Scan scanner (mkScanConfig false uploadingSegmentRangeSize false ProbablyUploading);
  Scan scanner (mkScanConfig true 0 false Lost).

(** The loop over the ordered segments. *)
Fixpoint collapseLoop (currentSequence : WalSegmentsSequence) (currentStatus : ScannedSegmentStatus)
    (segments : list ScannedSegmentDescription) : list IntegrityScanSegmentSequence :=
  match segments with
  | [] => [newIntegrityScanSegmentSequence currentSequence currentStatus]
  | segment :: segments =>
      let d := description segment in
      if negb (bool_decide (status segment = currentStatus)) ||
         negb (timelineID currentSequence =? Timeline d)
      then newIntegrityScanSegmentSequence currentSequence currentStatus ::
           collapseLoop (NewSegmentsSequence (Timeline d) (Number d)) (status segment) segments
      else collapseLoop (AddWalSegmentNo currentSequence (Number d)) currentStatus segments
  end.

Definition collapseSegmentsByStatusAndTimeline (scannedSegments : list ScannedSegmentDescription)
  : list IntegrityScanSegmentSequence :=
  match Slice (fun a b => Number (description a) <? Number (description b)) scannedSegments with
  | [] => []
  | s :: rest =>
      collapseLoop (NewSegmentsSequence (Timeline (description s)) (Number (description s)))
        (status s) rest
  end.

Record IntegrityCheckRunner := mkIntegrityRunner {
  startWalSegment : WalSegmentDescription;
  stopWalSegmentNo : Z;
  uploadingSegmentRangeSize : Z;
  delayedSegmentRangeSize : Z;
  walFolderFilenames : list string;
  switchMap : gmap Z TimelineHistoryRecord
}.

Definition Run (check : IntegrityCheckRunner) : option WalVerifyCheckResult :=
  let storageSegments := getSegmentsFromFiles (walFolderFilenames check) in
  let walSegmentRunner := NewWalSegmentRunner (startWalSegment check) storageSegments
    (stopWalSegmentNo check) (switchMap check) in
  let segmentScanner := NewWalSegmentScanner walSegmentRunner in
  segmentScanner ← runWalIntegrityScan segmentScanner (uploadingSegmentRangeSize check)
                     (delayedSegmentRangeSize check);
  Some (newWalIntegrityCheckResult
    (collapseSegmentsByStatusAndTimeline (ScannedSegments segmentScanner))).

(** *** The earliest backup *)

Definition checkBackupIsCorrect (currentTimeline : Z) (backupDetail : BackupDetail)
    (backupTimeline backupStartSegNo : Z) (switchSegNoByTimeline : gmap Z Z) : bool :=
  if IsPermanent backupDetail then false
  else if (0 <? size switchSegNoByTimeline)%nat then
    if (1 <? backupTimeline) &&
       match switchSegNoByTimeline !! (backupTimeline - 1) with
       | Some backupTimelineStartSegNo => backupStartSegNo <? backupTimelineStartSegNo
       | None => false
       end
    then false
    else if backupTimeline =? currentTimeline then true
    else match switchSegNoByTimeline !! backupTimeline with
         | None => false
         | Some timelineSwitchSegNo => negb (timelineSwitchSegNo <=? backupStartSegNo)
         end
  else true.

Fixpoint findEarliestLoop (currentTimeline : Z) (switchSegNoByTimeline : gmap Z Z)
    (backupDetails : list BackupDetail) (earliest : option (BackupDetail * Z))
  : res pgError (option (BackupDetail * Z)) :=
  match backupDetails with
  | [] => Ok earliest
  | currBackup :: backupDetails =>
      '(backupTimelineID, backupLogSegNo) ← ParseWALFilename (WalFileName currBackup);
      if negb (checkBackupIsCorrect currentTimeline currBackup backupTimelineID backupLogSegNo
                 switchSegNoByTimeline)
      then findEarliestLoop currentTimeline switchSegNoByTimeline backupDetails earliest
      else
        findEarliestLoop currentTimeline switchSegNoByTimeline backupDetails
          (match earliest with
           | None => Some (currBackup, backupLogSegNo)
           | Some (_, earliestBackupSegNo) =>
               if backupLogSegNo <? earliestBackupSegNo then Some (currBackup, backupLogSegNo)
               else earliest
           end)
  end.

Definition findEarliestBackup (currentTimeline : Z) (backupDetails : list BackupDetail)
    (switchSegNoByTimeline : gmap Z Z) : res pgError (BackupDetail * Z) :=
  match findEarliestLoop currentTimeline switchSegNoByTimeline backupDetails None with
  | Err err => Err err
  | Ok None => Err NoCorrectBackupFoundError
  | Ok (Some x) => Ok x
  end.

(** The records are visited in the map's order. *)
Definition getEarliestBackupStartSegmentNo (timelineSwitchMap : gmap Z TimelineHistoryRecord)
    (currentTimeline : Z) (backups : res pgError unit)
    (backupDetails : res pgError (list BackupDetail)) : res pgError Z :=
  _ ← backups;
  backupDetails ← backupDetails;
  let switchLsnBySegNo :=
    fold_left (fun m historyRecord =>
      <[timeline historyRecord := WalSegmentNo.newWalSegmentNo (lsn historyRecord)]> m)
      ((map_to_list timelineSwitchMap).*2) (∅ : gmap Z Z) in
  '(_, earliestBackupSegNo) ← findEarliestBackup currentTimeline backupDetails switchLsnBySegNo;
  Ok earliestBackupSegNo.

(** [GetMaxUploadConcurrency] and the delayed range are settings. *)
Definition NewIntegrityCheckRunner {Folder} `{StorageFolder Folder}
    (ParseLSN : string -> res pgError Z) (Decompressors : list Decompressor)
    (cache : option string) (walFolder : Folder)
    (backups : res pgError unit) (backupDetails : res pgError (list BackupDetail))
    (maxUploadConcurrency : res pgError Z) (maxDelayedSegmentsCount : Z)
    (walFolderFilenames : list string) (currentWalSegment : WalSegmentDescription)
  : res pgError IntegrityCheckRunner :=
  timelineSwitchMap ← res_map_err (Wrapped "Failed to initialize timeline history map")
    (fst (createTimelineSwitchMap ParseLSN Decompressors cache (Timeline currentWalSegment) walFolder));
  let stopWalSegmentNo :=
    match getEarliestBackupStartSegmentNo timelineSwitchMap (Timeline currentWalSegment)
            backups backupDetails with
    | Ok no => no
    | Err _ => 1
    end in
  uploading ← res_map_err (Wrapped "Failed to resolve MaxUploadConcurrency") maxUploadConcurrency;
  Ok (mkIntegrityRunner currentWalSegment stopWalSegmentNo uploading maxDelayedSegmentsCount
        walFolderFilenames timelineSwitchMap).

(** ** The timeline check *)

Definition newTimelineCheckResult (currentTimeline highestTimeline : Z) : WalVerifyCheckResult :=
  mkCheckResult
    (if 0 <? highestTimeline
     then if currentTimeline =? highestTimeline then StatusOk else StatusFailure
     else StatusWarning)
    (TimelineDetails (mkTimelineDetails currentTimeline highestTimeline)).

(** A word character of a regular expression. *)
Definition isWord (c : Ascii.ascii) : bool :=
  let n := Z.of_nat (Ascii.nat_of_ascii c) in
  ((48 <=? n) && (n <=? 57)) || ((65 <=? n) && (n <=? 90)) || ((97 <=? n) && (n <=? 122)) || (n =? 95).

Definition isHex (c : Ascii.ascii) : bool :=
  isUpperHex c || (let n := Z.of_nat (Ascii.nat_of_ascii c) in (97 <=? n) && (n <=? 102)).

(** The longest prefix in a class, and what follows it. *)
Fixpoint span (class : Ascii.ascii -> bool) (s : string) : string * string :=
  match s with
  | "" => ("", "")
  | String c r => if class c then let '(a, b) := span class r in (String c a, b) else ("", s)
  end.

(** [^([0-9a-fA-F]+)\.history(\.\w+)?$] *)
Definition matchHistoryFile (name : string) : option string :=
  let '(digits, rest) := span isHex name in
  if bool_decide (digits = "") then None
  else if negb (HasPrefix rest ".history") then None
  else match sdrop 8 rest with
       | "" => Some digits
       | String dot ext =>
           if bool_decide (dot = Ascii.ascii_of_nat 46) && negb (bool_decide (ext = "")) &&
              allIn isWord ext
           then Some digits else None
       end.

Definition tryParseTimelineID (fileName : string) : option Z :=
  let baseName := TrimFileExtension fileName in
  match ParseWALFilename baseName with
  | Ok (fileTimeline, _) => Some fileTimeline
  | Err _ =>
      match matchHistoryFile baseName with
      | None => None
      | Some digits =>
          match ParseTimelineFromString digits with
          | Ok fileTimeline => Some fileTimeline
          | Err _ => None
          end
      end
  end.

Definition tryFindHighestTimelineID (filenames : list string) : Z :=
  fold_left (fun highestTimelineID name =>
    match tryParseTimelineID name with
    | None => highestTimelineID
    | Some fileTimeline =>
        if highestTimelineID <? fileTimeline then fileTimeline else highestTimelineID
    end) filenames 0.

Definition runTimelineCheck (filenames : list string) (currentTimeline : Z) : WalVerifyCheckResult :=
  newTimelineCheckResult currentTimeline (tryFindHighestTimelineID filenames).

(** ** The handler *)

(** The results by type; an error ends the process. [integrity] builds the
    integrity check's runner. *)
Fixpoint HandleWalVerify (checkTypes : list WalVerifyCheckType)
    (integrity : res pgError IntegrityCheckRunner) (walFolderFilenames : list string)
    (currentWalSegment : WalSegmentDescription)
    (checkResults : list (WalVerifyCheckType * WalVerifyCheckResult))
  : res pgError (list (WalVerifyCheckType * WalVerifyCheckResult)) :=
  match checkTypes with
  | [] => Ok checkResults
  | checkType :: checkTypes =>
      result ←
        match checkType with
        | WalVerifyTimelineCheck =>
            Ok (runTimelineCheck walFolderFilenames (Timeline currentWalSegment))
        | WalVerifyIntegrityCheck =>
            runner ← integrity;
            match Run runner with Some r => Ok r | None => Err Panic end
        | UnknownCheck => Err (External "Unknown wal verify check")
        end;
      HandleWalVerify checkTypes integrity walFolderFilenames currentWalSegment
        ((checkType, result) :: List.filter (fun p => negb (bool_decide (p.1 = checkType))) checkResults)
  end.
End Integrity.

(** ** Lemmas *)

(** [k] segments of the path are looked at until the latest one in the
    storage, at most [limit] of them. *)
Definition until_first_found (path : list WalSegmentDescription) (folder : gset WalSegmentDescription)
    (limit k : nat) : Prop :=
  (k <= limit)%nat /\ (k <= length path)%nat /\
  (forall i d, (S i < k)%nat -> path !! i = Some d -> d ∉ folder) /\
  (k = Nat.min limit (length path) \/ exists i d, k = S i /\ path !! i = Some d /\ d ∈ folder).

(** What the three scans say of the path. *)
Definition scan_report (path : list WalSegmentDescription) (folder : gset WalSegmentDescription)
    (k u : nat) : list ScannedSegmentDescription :=
  map (scanned_as folder ProbablyDelayed) (take k path) ++
  map (scanned_as folder ProbablyUploading) (take u (drop k path)) ++
  map (scanned_as folder Lost) (drop (k + u) path).

(** The rows stand for the runs of equal status and timeline of a list. *)
Inductive runs_of {cfg : WalConfig}
  : list ScannedSegmentDescription -> list IntegrityScanSegmentSequence -> Prop :=
| runs_nil : runs_of [] []
| runs_cons first run rest row rows :
    Forall (fun s => status s = Status row /\ Timeline (description s) = TimelineID row) (first :: run) ->
    SegmentsCount row = Z.of_nat (length (first :: run)) ->
    StartSegment row = WalSegmentNo.getFilename (Number (description first)) (TimelineID row) ->
    EndSegment row =
      WalSegmentNo.getFilename (Number (description (List.last run first))) (TimelineID row) ->
    match rest with
    | [] => True
    | s :: _ => status s <> Status row \/ Timeline (description s) <> TimelineID row
    end ->
    runs_of rest rows -> runs_of ((first :: run) ++ rest) (row :: rows).

Definition number (s : ScannedSegmentDescription) : Z := Number (description s).
Definition ascending : list ScannedSegmentDescription -> Prop :=
  StronglySorted (fun a b => number a < number b).

Section VerifyLemmas.
Context {cfg : WalConfig}.

Lemma runWalIntegrityScan_spec r uploading delayed :
  runner_ok r ->
  exists k sc, until_first_found (remaining r) (walFolderSegments r) (Z.to_nat delayed) k /\
    runWalIntegrityScan (NewWalSegmentScanner r) uploading delayed = Some sc /\
    ScannedSegments sc = scan_report (remaining r) (walFolderSegments r) k (Z.to_nat uploading).
Proof.
  intros Hok. set (path := remaining r). set (folder := walFolderSegments r).
  set (k := visited folder (Some (Z.to_nat delayed)) true path).
  pose proof (visited_le folder (Some (Z.to_nat delayed)) true path) as Hk. fold k in Hk.
  destruct (visited_stop folder (Z.to_nat delayed) path) as (H1 & H2 & H3).
  destruct (moved_remaining r k Hok Hk) as [Hr1 Hok1].
  set (j := Nat.min (Z.to_nat uploading) (length (drop k path))).
  destruct (moved_remaining (moved r k) j Hok1) as [Hr2 Hok2].
  { rewrite Hr1. fold path. lia. }
  unfold runWalIntegrityScan. rewrite Scan_spec by done.
  cbn [UnlimitedScan ScanSegmentsLimit StopOnFirstFoundSegment MissingSegmentStatus
    walSegmentRunner ScannedSegments NewWalSegmentScanner mbind option_bind].
  fold path folder k. rewrite Scan_spec by done.
  cbn [UnlimitedScan ScanSegmentsLimit StopOnFirstFoundSegment MissingSegmentStatus
    walSegmentRunner ScannedSegments mbind option_bind].
  change (walFolderSegments (moved r k)) with folder. rewrite visited_limit, Hr1.
  fold path j. rewrite Scan_spec by done.
  cbn [UnlimitedScan ScanSegmentsLimit StopOnFirstFoundSegment MissingSegmentStatus
    walSegmentRunner ScannedSegments mbind option_bind].
  change (walFolderSegments (moved (moved r k) j)) with folder.
  rewrite visited_all, firstn_all, Hr2, Hr1. fold path.
  eexists k, _. split; [done|]. split; [done|]. cbn. unfold scan_report.
  rewrite <- app_assoc. f_equal. f_equal.
  - f_equal. unfold j. destruct (Nat.le_gt_cases (Z.to_nat uploading) (length (drop k path))).
    + by rewrite Nat.min_l.
    + rewrite Nat.min_r, !take_ge by lia. done.
  - f_equal. rewrite drop_drop. unfold j.
    destruct (Nat.le_gt_cases (Z.to_nat uploading) (length (drop k path))) as [Hle|Hgt].
    + by rewrite Nat.min_l.
    + rewrite length_drop in *. rewrite Nat.min_r, !drop_ge by lia. done.
Qed.

Lemma scan_report_map path folder k u :
  description <$> scan_report path folder k u = path.
Proof.
  unfold scan_report. rewrite !fmap_app. rewrite <- !list_fmap_compose.
  assert (forall st (l : list WalSegmentDescription), (description ∘ scanned_as folder st) <$> l = l) as Hid.
  { intros st l. rewrite <- (list_fmap_id l) at 2. by apply list_fmap_ext. }
  change (map ?f ?l) with (f <$> l) in *. rewrite !Hid.
  by rewrite <- drop_drop, !take_drop.
Qed.

(** The sequence that collects a run. *)
Definition collects (t : Z) (first : ScannedSegmentDescription) (run : list ScannedSegmentDescription)
    (seq : WalSegmentsSequence) : Prop :=
  timelineID seq = t /\ size (walSegmentNumbers seq) = length (first :: run) /\
  (forall n, n ∈ walSegmentNumbers seq -> n <= maxSegmentNo seq) /\
  minSegmentNo seq = number first /\ maxSegmentNo seq = number (List.last run first) /\
  minSegmentNo seq <= maxSegmentNo seq.

Lemma collects_add t first run seq s :
  collects t first run seq -> maxSegmentNo seq < number s ->
  collects t first (run ++ [s]) (AddWalSegmentNo seq (number s)).
Proof.
  intros (Ht & Hsz & Hle & Hmin & Hmax & Hmm) Hlt. unfold collects, AddWalSegmentNo. cbn.
  split; [done|]. split; [|split; [|split; [|split]]].
  - rewrite size_union, size_singleton.
    + rewrite Hsz. cbn. rewrite length_app. cbn. lia.
    + intros n ->%elem_of_singleton Hn. apply Hle in Hn. lia.
  - intros n Hn. rewrite (proj2 (Z.ltb_lt (maxSegmentNo seq) _)) by done.
    apply elem_of_union in Hn as [->%elem_of_singleton|Hn]; [lia|]. apply Hle in Hn. lia.
  - rewrite (proj2 (Z.ltb_ge (number s) _)) by lia. done.
  - rewrite (proj2 (Z.ltb_lt (maxSegmentNo seq) _)) by done. by rewrite List.last_last.
  - rewrite (proj2 (Z.ltb_lt (maxSegmentNo seq) _)), (proj2 (Z.ltb_ge (number s) _)) by lia. lia.
Qed.

Lemma collects_row t first run seq st :
  collects t first run seq ->
  let row := newIntegrityScanSegmentSequence seq st in
  SegmentsCount row = Z.of_nat (length (first :: run)) /\ TimelineID row = t /\
  StartSegment row = WalSegmentNo.getFilename (Number (description first)) t /\
  EndSegment row = WalSegmentNo.getFilename (Number (description (List.last run first))) t.
Proof. intros (<- & Hsz & _ & Hmin & Hmax & _). cbn. rewrite Hsz, Hmin, Hmax. done. Qed.

Lemma collapseLoop_runs segs : forall t first run seq st,
  collects t first run seq ->
  Forall (fun s => status s = st /\ Timeline (description s) = t) (first :: run) ->
  ascending segs -> (forall s, s ∈ segs -> maxSegmentNo seq < number s) ->
  runs_of ((first :: run) ++ segs) (collapseLoop seq st segs).
Proof.
  induction segs as [|s segs IH]; intros t first run seq st Hc Hall Hs Hlt; cbn [collapseLoop].
  - destruct (collects_row _ _ _ _ st Hc) as (H1 & H2 & H3 & H4).
    apply runs_cons; rewrite ?H2; try done. constructor.
  - pose proof Hc as (Ht & _). inversion Hs as [|? ? Hs' Hfa]. subst.
    destruct (negb (bool_decide (status s = st)) || negb (timelineID seq =? Timeline (description s))) eqn:E.
    + destruct (collects_row _ _ _ _ st Hc) as (H1 & H2 & H3 & H4).
      apply runs_cons; rewrite ?H2; try done.
      * apply orb_true_iff in E as [E|E]; bool_to_prop; [by left|right; congruence].
      * apply (IH (Timeline (description s)) s []).
        -- unfold collects, NewSegmentsSequence. cbn. rewrite size_singleton.
           repeat split; try done. intros n ->%elem_of_singleton. done.
        -- by repeat constructor.
        -- done.
        -- intros s' Hs1. cbn. rewrite Forall_forall in Hfa. by apply Hfa.
    + bool_to_prop. assert (maxSegmentNo seq < number s) as Hgt by (apply Hlt; left).
      change (first :: run) with ([first] ++ run). rewrite <- app_assoc.
      change (s :: segs) with ([s] ++ segs). rewrite (app_assoc run).
      change ([first] ++ (run ++ [s]) ++ segs) with ((first :: (run ++ [s])) ++ segs).
      apply (IH (timelineID seq)); [by apply collects_add| |done|].
      * inversion Hall. subst. constructor; [done|]. apply Forall_app. split; [done|].
        repeat constructor; congruence.
      * intros s' Hs1. cbn. fold (number s).
        rewrite (proj2 (Z.ltb_lt (maxSegmentNo seq) _)) by done.
        rewrite Forall_forall in Hfa. by apply Hfa.
Qed.

(** Scanned segments, in the order of their numbers, and their rows. *)
Lemma collapse_runs {sorter : SortSlice} scanned :
  ascending (rev scanned) ->
  runs_of (rev scanned) (collapseSegmentsByStatusAndTimeline scanned).
Proof.
  intros Ha. unfold collapseSegmentsByStatusAndTimeline.
  set (less := fun a b => Number (description a) <? Number (description b)).
  assert (Slice less scanned = rev scanned) as ->.
  { pose proof (Slice_sorted less scanned (StrictWeak_key number)) as Hs.
    pose proof (Slice_perm less scanned) as Hp. rewrite (Permutation_rev scanned) in Hp at 2.
    revert Ha Hs Hp. generalize (Slice less scanned), (rev scanned). intros l1 l2.
    revert l1. induction l2 as [|b l2 IH]; intros [|a l1] Ha Hs Hp; try done.
    { by apply Permutation_nil_r in Hp. }
    { by apply Permutation_nil_l in Hp. }
    inversion Ha as [|? ? Ha' Hb]. inversion Hs as [|? ? Hs' Hna]. subst.
    rewrite Forall_forall in Hb, Hna.
    assert (a = b) as ->.
    { assert (a ∈ b :: l2) as Hin by (rewrite <- Hp; left).
      apply elem_of_cons in Hin as [|Hin]; [done|]. apply Hb in Hin.
      assert (b ∈ a :: l1) as Hin' by (rewrite Hp; left).
      apply elem_of_cons in Hin' as [|Hin']; [done|]. apply Hna in Hin'.
      unfold not_after, less, number in *. apply Z.ltb_ge in Hin'. lia. }
    f_equal. apply IH; [done|done|]. by apply Permutation_cons_inv in Hp. }
  destruct (rev scanned) as [|s rest]; [constructor|]. inversion Ha as [|? ? Ha' Hb]. subst.
  apply (collapseLoop_runs rest (Timeline (description s)) s []).
  - unfold collects, NewSegmentsSequence. cbn. rewrite size_singleton.
    repeat split; try done. intros n ->%elem_of_singleton. done.
  - by repeat constructor.
  - done.
  - intros s' Hs'. cbn. rewrite Forall_forall in Hb. by apply Hb.
Qed.

Lemma runs_of_status segs rows st :
  runs_of segs rows -> (exists s, s ∈ segs /\ status s = st) <-> (exists r, r ∈ rows /\ Status r = st).
Proof.
  induction 1 as [|first run rest row rows Hall _ _ _ _ _ IH].
  - split; intros (x & Hx & _); by apply elem_of_nil in Hx.
  - rewrite Forall_forall in Hall. split.
    + intros (s & Hin & Hs). apply elem_of_app in Hin as [Hin|Hin].
      * exists row. split; [left|]. destruct (Hall _ Hin). congruence.
      * destruct (proj1 IH) as (r & ? & ?); [by exists s|]. exists r. split; [by right|done].
    + intros (r & Hin & Hr). apply elem_of_cons in Hin as [->|Hin].
      * exists first. split; [apply elem_of_app; left; left|].
        destruct (Hall first) as [-> _]; [left|done].
      * destruct (proj2 IH) as (s & ? & ?); [by exists r|]. exists s.
        split; [apply elem_of_app; by right|done].
Qed.

Lemma integrityStatus_spec rows st :
  st <> StatusFailure ->
  (integrityStatus rows st = StatusFailure <-> exists r, r ∈ rows /\ Status r = Lost) /\
  (integrityStatus rows st = StatusOk <-> st = StatusOk /\ forall r, r ∈ rows -> Status r = Found).
Proof.
  revert st. induction rows as [|row rows IH]; intros st Hst; cbn [integrityStatus].
  - split; split.
    + done.
    + intros (r & Hr & _). by apply elem_of_nil in Hr.
    + intros ->. split; [done|]. intros r Hr. by apply elem_of_nil in Hr.
    + by intros [-> _].
  - setoid_rewrite elem_of_cons. destruct (Status row) eqn:E.
    + split; split; try done; [intros _; exists row; auto|].
      intros [_ Hall]. rewrite Hall in E by auto. done.
    + destruct (IH StatusWarning ltac:(done)) as [IH1 IH2]. rewrite IH1, IH2.
      split; split; [intros (r & ? & ?); eauto|intros (r & [->|] & ?); [congruence|eauto]|by intros [? _]|].
      intros [_ Hall]. rewrite Hall in E by auto. done.
    + destruct (IH StatusWarning ltac:(done)) as [IH1 IH2]. rewrite IH1, IH2.
      split; split; [intros (r & ? & ?); eauto|intros (r & [->|] & ?); [congruence|eauto]|by intros [? _]|].
      intros [_ Hall]. rewrite Hall in E by auto. done.
    + destruct (IH st Hst) as [IH1 IH2]. rewrite IH1, IH2.
      split; split; [intros (r & ? & ?); eauto|intros (r & [->|] & ?); [congruence|eauto]| |].
      * intros [-> Hall]. split; [done|]. intros r [->|]; auto.
      * intros [-> Hall]. auto.
Qed.

(** Scanned in a walk, the reversed list ascends. *)
Lemma walk_ascending m n d segs :
  0 <= Number d - Z.of_nat n -> Number d < 2 ^ 64 ->
  description <$> segs = walk m n d -> ascending (rev segs).
Proof.
  revert d segs. induction n as [|n IH]; intros d segs Hd Hb Hs.
  { apply fmap_nil_inv in Hs as ->. constructor. }
  cbn [walk] in Hs. destruct segs as [|s segs]; [done|]. cbn [fmap list_fmap] in Hs.
  injection Hs as Hs0 Hs. pose proof (previousSegment_number m d ltac:(lia)) as Hp.
  cbn [rev]. pose proof (IH (previousSegment m d) segs ltac:(lia) ltac:(lia) Hs) as Ha.
  assert (forall x, x ∈ rev segs -> number x < number s) as Hlt.
  { intros x Hx. rewrite list_elem_of_In, <- in_rev, <- list_elem_of_In in Hx.
    apply list_elem_of_lookup in Hx as [i Hi].
    assert (walk m n (previousSegment m d) !! i = Some (description x)) as Hw
      by (rewrite <- Hs, list_lookup_fmap, Hi; done).
    apply walk_numbers in Hw; [|lia..]. unfold number. rewrite Hw, Hs0. lia. }
  revert Ha Hlt. generalize (rev segs). intros l Ha Hlt. induction Ha as [|x l Ha' IHl Hfa]; cbn.
  - repeat constructor.
  - constructor; [apply IHl; intros y Hy; apply Hlt; by right|].
    apply Forall_app. split; [done|]. repeat constructor. apply Hlt. left.
Qed.
End VerifyLemmas.

(** ** Theorems *)

(** C35: the integrity scan visits exactly the segments before the current one,
    which is not among them, down to the stop segment and with it, along the
    timeline history, and says of each
    whether it is in the storage; a missing one is delayed if it is newer
    than the latest one found within the delayed range, uploading in the
    range behind that, and lost otherwise. The scan always ends. *)
Theorem integrity_scan {cfg : WalConfig} (r : WalSegmentRunner) (uploading delayed : Z) :
  runner_ok r ->
  exists k sc, until_first_found (remaining r) (walFolderSegments r) (Z.to_nat delayed) k /\
    runWalIntegrityScan (NewWalSegmentScanner r) uploading delayed = Some sc /\
    ScannedSegments sc = scan_report (remaining r) (walFolderSegments r) k (Z.to_nat uploading).
Proof. apply runWalIntegrityScan_spec. Qed.

Definition ex_runner : WalSegmentRunner :=
  mkRunner (mkDesc 9 3) {[mkDesc 7 3; mkDesc 5 2; mkDesc 2 2]} 2
    {[6 := mkHistoryRecord 2 100663296 ""]}.

Lemma integrity_scan_witness :
  exists k sc, until_first_found (remaining ex_runner) (walFolderSegments ex_runner) (Z.to_nat 5) k /\
    @runWalIntegrityScan DefaultWalConfig (NewWalSegmentScanner ex_runner) 3 5 = Some sc /\
    ScannedSegments sc = scan_report (remaining ex_runner) (walFolderSegments ex_runner) k (Z.to_nat 3).
Proof. apply integrity_scan. split; cbn; lia. Defined.

(** A segment of the report is found when the folder has it. *)
Lemma scan_report_found ds folder k u s : s ∈ scan_report ds folder k u ->
  status s = Found <-> description s ∈ folder.
Proof.
  unfold scan_report. rewrite !elem_of_app, !list_elem_of_In, !in_map_iff.
  intros [(d & <- & _)|[(d & <- & _)|(d & <- & _)]]; cbn; case_bool_decide; naive_solver.
Qed.

(** It is lost when it is missing after the segments still expected. *)
Lemma scan_report_lost ds folder k u :
  (exists s, s ∈ scan_report ds folder k u /\ status s = Lost) <->
  exists d, d ∈ drop (k + u) ds /\ d ∉ folder.
Proof.
  unfold scan_report. split.
  - intros (s & Hin & Hl). rewrite !elem_of_app, !list_elem_of_In, !in_map_iff in Hin.
    destruct Hin as [(d & <- & _)|[(d & <- & _)|(d & <- & Hd)]]; cbn in Hl; case_bool_decide; try done.
    exists d. by rewrite list_elem_of_In.
  - intros (d & Hin & Hd). exists (scanned_as folder Lost d). split.
    + rewrite !elem_of_app. right. right. apply list_elem_of_In, in_map. by apply list_elem_of_In.
    + cbn. by rewrite bool_decide_eq_false_2.
Qed.

(** The statuses of the rows are those of the segments. *)
Lemma rows_all_found {cfg : WalConfig} ds folder k u rows : runs_of (rev (scan_report ds folder k u)) rows ->
  (forall row, row ∈ rows -> Status row = Found) <-> forall d, d ∈ ds -> d ∈ folder.
Proof.
  intros Hruns. assert (forall s, s ∈ rev (scan_report ds folder k u) <-> s ∈ scan_report ds folder k u) as Hrev
    by (intros s; by rewrite !list_elem_of_In, <- in_rev). split.
  - intros Hall d Hd. rewrite <- (scan_report_map ds folder k u) in Hd.
    apply list_elem_of_fmap in Hd as (s & -> & Hin). apply (scan_report_found _ _ _ _ _ Hin).
    destruct (proj1 (runs_of_status _ _ (status s) Hruns)) as (row & Hrow & Hst).
    { exists s. by rewrite Hrev. }
    rewrite <- Hst. by apply Hall.
  - intros Hall row Hrow.
    destruct (proj2 (runs_of_status _ _ (Status row) Hruns)) as (s & Hin & Hst); [by exists row|].
    rewrite <- Hst. rewrite Hrev in Hin. apply (scan_report_found _ _ _ _ _ Hin), Hall.
    rewrite <- (scan_report_map ds folder k u). by apply list_elem_of_fmap_2.
Qed.

(** The integrity check reports the runs of equal status and timeline of
    the scanned segments, oldest first, and its status is a failure exactly
    when a segment is lost and [OK] exactly when none is missing. *)
Theorem integrity_check_report {cfg : WalConfig} {sorter : SortSlice} (check : IntegrityCheckRunner) :
  0 <= stopWalSegmentNo check -> 0 <= Number (startWalSegment check) < 2 ^ 64 ->
  let folder := getSegmentsFromFiles (walFolderFilenames check) in
  let r := mkRunner (startWalSegment check) folder (stopWalSegmentNo check) (switchMap check) in
  let u := Z.to_nat (uploadingSegmentRangeSize check) in
  exists k rows st,
    until_first_found (remaining r) folder (Z.to_nat (delayedSegmentRangeSize check)) k /\
    Run check = Some (mkCheckResult st (IntegrityCheckDetails rows)) /\
    runs_of (rev (scan_report (remaining r) folder k u)) rows /\
    (st = StatusFailure <-> exists d, d ∈ drop (k + u) (remaining r) /\ d ∉ folder) /\
    (st = StatusOk <-> forall d, d ∈ remaining r -> d ∈ folder).
Proof.
  intros Hs Hn folder r u.
  destruct (runWalIntegrityScan_spec r (uploadingSegmentRangeSize check)
    (delayedSegmentRangeSize check)) as (k & sc & Hk & Hrun & Hsc); [by split|].
  exists k, (collapseSegmentsByStatusAndTimeline (ScannedSegments sc)). eexists.
  split; [exact Hk|]. split.
  { unfold Run, NewWalSegmentRunner. fold folder r. rewrite Hrun. reflexivity. }
  change (walFolderSegments r) with folder in Hsc. fold u in Hsc. rewrite Hsc.
  set (scanned := scan_report (remaining r) folder k u).
  assert (runs_of (rev scanned) (collapseSegmentsByStatusAndTimeline scanned)) as Hruns.
  { apply collapse_runs.
    apply (walk_ascending (switchMap check)
      (Z.to_nat (Number (startWalSegment check) - stopWalSegmentNo check)) (startWalSegment check)).
    - lia.
    - lia.
    - apply scan_report_map. }
  split; [done|].
  destruct (integrityStatus_spec (collapseSegmentsByStatusAndTimeline scanned) StatusOk) as [H1 H2];
    [done|].
  split.
  - rewrite H1, <- (runs_of_status _ _ _ Hruns), <- (scan_report_lost (remaining r) folder k u).
    fold scanned. setoid_rewrite list_elem_of_In at 1. setoid_rewrite <- in_rev.
    by setoid_rewrite list_elem_of_In.
  - rewrite H2, <- (rows_all_found _ _ _ _ _ Hruns). tauto.
Qed.

Definition ex_check : IntegrityCheckRunner :=
  mkIntegrityRunner (mkDesc 9 3) 2 1 3
    ["000000030000000000000007.lz4"; "000000020000000000000005.lz4"; "000000020000000000000002.lz4"]
    {[6 := mkHistoryRecord 2 100663296 ""]}.

Lemma integrity_check_report_witness :
  exists st rows, @Run DefaultWalConfig InsertionSort ex_check =
    Some (mkCheckResult st (IntegrityCheckDetails rows)) /\ st = StatusFailure.
Proof.
  destruct (@integrity_check_report DefaultWalConfig InsertionSort ex_check)
    as (k & rows & st & _ & Hrun & _ & _ & _).
  - cbn. lia.
  - cbn. lia.
  - exists st, rows. split; [exact Hrun|]. revert Hrun. vm_compute. congruence.
Defined.

(** A backup with a WAL file name that is correct for the timeline switches. *)
Definition eligible {cfg : WalConfig} (currentTimeline : Z) (switch : gmap Z Z) (b : BackupDetail) (n : Z) : Prop :=
  exists t, ParseWALFilename (WalFileName b) = Ok (t, n) /\
    checkBackupIsCorrect currentTimeline b t n switch = true.

(** The earliest one among those already seen. *)
Definition earliest_of {cfg : WalConfig} (currentTimeline : Z) (switch : gmap Z Z) (seen : list BackupDetail)
    (acc : option (BackupDetail * Z)) : Prop :=
  match acc with
  | Some (b, n) => b ∈ seen /\ eligible currentTimeline switch b n /\
      forall b' n', b' ∈ seen -> eligible currentTimeline switch b' n' -> n <= n'
  | None => forall b n, b ∈ seen -> ~ eligible currentTimeline switch b n
  end.

Section Earliest.
Context {cfg : WalConfig} (currentTimeline : Z) (switch : gmap Z Z).

Lemma eligible_eq b t n0 n : ParseWALFilename (WalFileName b) = Ok (t, n0) ->
  eligible currentTimeline switch b n <->
  n = n0 /\ checkBackupIsCorrect currentTimeline b t n0 switch = true.
Proof.
  intros Ep. unfold eligible. rewrite Ep. split; [by intros (t' & [= <- <-] & ?)|].
  intros [-> ?]. by exists t.
Qed.

Lemma earliest_of_skip seen acc b : (forall n, ~ eligible currentTimeline switch b n) ->
  earliest_of currentTimeline switch seen acc -> earliest_of currentTimeline switch (seen ++ [b]) acc.
Proof.
  intros Hb. destruct acc as [[b1 n1]|]; cbn.
  - intros (Hin & He & Hmin). split; [apply elem_of_app; by left|]. split; [done|].
    intros b' n' [Hb'|Hb']%elem_of_app; [by apply Hmin|].
    apply list_elem_of_singleton in Hb' as ->. by intros ?%Hb.
  - intros Hno b' n [Hb'|Hb']%elem_of_app; [by apply Hno|]. apply list_elem_of_singleton in Hb' as ->. apply Hb.
Qed.

Lemma earliest_of_take seen acc b t n0 :
  ParseWALFilename (WalFileName b) = Ok (t, n0) -> checkBackupIsCorrect currentTimeline b t n0 switch = true ->
  earliest_of currentTimeline switch seen acc ->
  earliest_of currentTimeline switch (seen ++ [b])
    (match acc with
     | None => Some (b, n0)
     | Some (_, n) => if n0 <? n then Some (b, n0) else acc
     end).
Proof.
  intros Ep Ec. pose proof (fun n => eligible_eq b t n0 n Ep) as He.
  destruct acc as [[b1 n1]|]; cbn; [intros (Hin & Hb & Hmin); case_bool; bool_to_prop|intros Hno].
  - split; [apply elem_of_app; right; left|]. split; [by apply He|].
    intros b' n' [Hb'|Hb']%elem_of_app; [intros E; pose proof (Hmin _ _ Hb' E); lia|].
    apply list_elem_of_singleton in Hb' as ->. intros [-> _]%He. done.
  - split; [apply elem_of_app; by left|]. split; [done|].
    intros b' n' [Hb'|Hb']%elem_of_app; [by apply Hmin|].
    apply list_elem_of_singleton in Hb' as ->. intros [-> _]%He. done.
  - split; [apply elem_of_app; right; left|]. split; [by apply He|].
    intros b' n' [Hb'|Hb']%elem_of_app; [intros E; by apply Hno in E|].
    apply list_elem_of_singleton in Hb' as ->. intros [-> _]%He. done.
Qed.

Lemma findEarliestLoop_spec details : forall seen acc, earliest_of currentTimeline switch seen acc ->
  match findEarliestLoop currentTimeline switch details acc with
  | Ok acc' => earliest_of currentTimeline switch (seen ++ details) acc'
  | Err err => exists b, b ∈ details /\ ParseWALFilename (WalFileName b) = Err err
  end.
Proof.
  induction details as [|b details IH]; intros seen acc Hacc; cbn [findEarliestLoop]; [by rewrite app_nil_r|].
  destruct (ParseWALFilename (WalFileName b)) as [[t n0]|err] eqn:Ep; cbn [mbind res_bind]; [|by exists b; split; [left|]].
  replace (seen ++ b :: details) with ((seen ++ [b]) ++ details) by (by rewrite <- app_assoc).
  assert (forall acc', earliest_of currentTimeline switch (seen ++ [b]) acc' ->
    match findEarliestLoop currentTimeline switch details acc' with
    | Ok acc'' => earliest_of currentTimeline switch ((seen ++ [b]) ++ details) acc''
    | Err err => exists b', b' ∈ b :: details /\ ParseWALFilename (WalFileName b') = Err err
    end) as Hnext.
  { intros acc' Ha%IH. destruct (findEarliestLoop _ _ _ _); [done|].
    destruct Ha as (b' & ? & ?). exists b'. split; [by right|done]. }
  destruct (checkBackupIsCorrect currentTimeline b t n0 switch) eqn:Ec; cbn [negb]; apply Hnext.
  - by apply (earliest_of_take seen acc b t n0).
  - apply earliest_of_skip; [|done]. intros n [_ ?]%(eligible_eq b t n0 n Ep). congruence.
Qed.
End Earliest.

(** The earliest backup is one the check accepts with a least starting
    segment, and none is found exactly when it accepts none; a name that does
    not parse ends the search with its error. *)
Theorem findEarliestBackup_spec {cfg : WalConfig} (currentTimeline : Z)
    (backupDetails : list BackupDetail) (switch : gmap Z Z) :
  match findEarliestBackup currentTimeline backupDetails switch with
  | Ok (b, n) => b ∈ backupDetails /\ eligible currentTimeline switch b n /\
      forall b' n', b' ∈ backupDetails -> eligible currentTimeline switch b' n' -> n <= n'
  | Err err =>
      (exists b, b ∈ backupDetails /\ ParseWALFilename (WalFileName b) = Err err) \/
      (err = NoCorrectBackupFoundError /\ forall b n, b ∈ backupDetails -> ~ eligible currentTimeline switch b n)
  end.
Proof.
  unfold findEarliestBackup.
  pose proof (findEarliestLoop_spec currentTimeline switch backupDetails [] None
    ltac:(intros b n Hb; by apply elem_of_nil in Hb)) as Hloop. cbn [app] in Hloop.
  destruct (findEarliestLoop _ _ _ _) as [[[b n]|]|err]; auto.
Qed.
