(* ===== verification/Delta.v ===== *)
(** * Part files and delta files

    [src/internal/databases/postgres]: [wal_part.go] and [wal_part_file.go],
    the pieces of the records that cross the ends of the sixteen WAL files of
    a delta, and [delta_file.go], the block locations of a delta with the
    parser at its end. *)

From S2P Require Import Prelude GoIO WalRecord WalRecordEnc WalPage WalFile WalTotal Timeline.
Open Scope Z_scope.

(** ** [wal_part.go] *)

Definition PreviousWalHeadType : Z := 0.
Definition WalTailType : Z := 1.
Definition WalHeadType : Z := 2.

Record WalPart := mkWalPart {
  dataType : Z;
  id : Z;
  partData : list byte
}.

Definition NewWalPart := mkWalPart.

Module Part.
(** Writing to a buffer or file that accepts the bytes. *)
Definition Save (part : WalPart) : list byte :=
  le_enc 1 (dataType part) ++ le_enc 1 (id part) ++
  le_enc 4 (u32 (Z.of_nat (length (partData part)))) ++ partData part.
End Part.

Definition saveWalParts (parts : list WalPart) : list byte := parts ≫= Part.Save.

Section LoadPart.
Context {S : Type} `{Reader S}.

(** [io.ReadFull] with its error as it is. *)
Definition ReadFullRaw (n : nat) : RM S (list byte) := fun s =>
  let '(bs, e, s') := ReadFull s n in
  match e with
  | None => (Ok bs, s')
  | Some e => (Err e, s')
  end.

Definition LoadWalPart : RM S WalPart :=
  dataType <-- ParseFrom "part data type" 1 ;;
  partID <-- ParseFrom "part number" 1 ;;
  dataLen <-- ParseFrom "part data len" 4 ;;
  data <-- ReadFullRaw (Z.to_nat dataLen) ;;
  rret (mkWalPart dataType partID data).
End LoadPart.

(** ** [wal_part_file.go] *)

(** A nil slice is [None]; an empty one is not nil. *)
Record WalPartFile := mkPartFile {
  WalTails : list (option (list byte));
  PreviousWalHead : option (list byte);
  WalHeads : list (option (list byte))
}.

#[export] Instance WalPartFile_eq_dec : EqDecision WalPartFile.
Proof. solve_decision. Defined.

Definition NewWalPartFile : WalPartFile :=
  mkPartFile (replicate (Z.to_nat WalFileInDelta) None) None (replicate (Z.to_nat WalFileInDelta) None).

Definition nonNil (x : option (list byte)) : bool :=
  match x with Some _ => true | None => false end.

Definition IsComplete (partFile : WalPartFile) : bool :=
  forallb nonNil (WalTails partFile) && nonNil (PreviousWalHead partFile) &&
  forallb nonNil (WalHeads partFile).

(** The parts of a slice of slices that are not nil, with their indices. *)
Definition partsOf (ty : Z) (datas : list (option (list byte))) : list WalPart :=
  imap (fun id data => (id, data)) datas ≫= fun '(id, data) =>
    match data with
    | Some data => [NewWalPart ty (u8 (Z.of_nat id)) data]
    | None => []
    end.

Module PartFile.
Definition Save (partFile : WalPartFile) : list byte :=
  saveWalParts (partsOf WalTailType (WalTails partFile) ++
    match PreviousWalHead partFile with
    | Some data => [NewWalPart PreviousWalHeadType 0 data]
    | None => []
    end ++
    partsOf WalHeadType (WalHeads partFile)).
End PartFile.

(** The [append] of a nil slice appends nothing. *)
Definition bytesOf (x : option (list byte)) : list byte := default [] x.

Definition getCurrentDeltaFileRecordHeads (partFile : WalPartFile) : list (option (list byte)) :=
  PreviousWalHead partFile :: take (Z.to_nat WalFileInDelta - 1) (WalHeads partFile).

(** The loop over the sixteen boundaries. *)
Fixpoint combineLoop (heads tails : list (option (list byte))) (records : list XLogRecord)
  : res error (list XLogRecord) :=
  match heads, tails with
  | head :: heads, tail :: tails =>
      let recordData := bytesOf head ++ bytesOf tail in
      if (length recordData =? 0)%nat then combineLoop heads tails records
      else
        record ← ParseXLogRecordFromBytes recordData;
        combineLoop heads tails (records ++ [record])
  | _, _ => Ok records
  end.

Definition CombineRecords (partFile : WalPartFile) : res error (list XLogRecord) :=
  combineLoop (getCurrentDeltaFileRecordHeads partFile) (WalTails partFile) [].

(** Another type is ignored; an index out of range panics. *)
Definition setPart (partFile : WalPartFile) (part : WalPart) : res error WalPartFile :=
  if dataType part =? PreviousWalHeadType then
    Ok (mkPartFile (WalTails partFile) (Some (partData part)) (WalHeads partFile))
  else if dataType part =? WalTailType then
    if id part <? Z.of_nat (length (WalTails partFile)) then
      Ok (mkPartFile (<[Z.to_nat (id part) := Some (partData part)]> (WalTails partFile))
            (PreviousWalHead partFile) (WalHeads partFile))
    else Err RuntimePanic
  else if dataType part =? WalHeadType then
    if id part <? Z.of_nat (length (WalHeads partFile)) then
      Ok (mkPartFile (WalTails partFile) (PreviousWalHead partFile)
            (<[Z.to_nat (id part) := Some (partData part)]> (WalHeads partFile)))
    else Err RuntimePanic
  else Ok partFile.

Section LoadFile.
Context {S : Type} `{Reader S}.

(** Each part takes at least six bytes. *)
Fixpoint loadPartLoop (fuel : nat) (partFile : WalPartFile) : RM S WalPartFile := fun s =>
  match fuel with
  | 0%nat => (Err ErrNoProgress, s)
  | Datatypes.S fuel =>
      match LoadWalPart s with
      | (Err err, s) => if bool_decide (Cause err = EOF) then (Ok partFile, s) else (Err err, s)
      | (Ok walPart, s) =>
          match setPart partFile walPart with
          | Ok partFile => loadPartLoop fuel partFile s
          | Err err => (Err err, s)
          end
      end
  end.

Definition LoadPartFile (fuel : nat) : RM S WalPartFile := loadPartLoop fuel NewWalPartFile.
End LoadFile.

(** ** [delta_file.go] *)

Record DeltaFile := mkDeltaFile {
  Locations : list BlockLocation;
  dfWalParser : WalParser
}.

#[export] Instance DeltaFile_eq_dec : EqDecision DeltaFile.
Proof. solve_decision. Defined.

(** The parser of a caller is never nil. *)
Definition NewDeltaFile (walParser : WalParser) : DeltaFile := mkDeltaFile [] walParser.

Module DFile.
(** The bytes written to a writer that accepts them, and the error of a
    parser that cannot be saved, after the locations are written. *)
Definition Save (deltaFile : DeltaFile) : list byte * option error :=
  let locations := WriteLocationsTo (Locations deltaFile ++ [TerminalLocation]) in
  match WalPage.Save (dfWalParser deltaFile) with
  | Ok parser => (locations ++ parser, None)
  | Err err => (locations, Some err)
  end.
End DFile.

Section LoadDelta.
Context {S : Type} `{Reader S}.

Definition LoadDeltaFile (fuel : nat) : RM S DeltaFile :=
  locations <-- ReadLocationsFrom fuel ;;
  walParser <-- LoadWalParser ;;
  rret (mkDeltaFile locations walParser).
End LoadDelta.

(** ** Lemmas *)

(** A part file as [NewWalPartFile] makes and [setPart] keeps them, with
    pieces whose lengths fit their fields. *)
Definition piece_ok (x : option (list byte)) : bool :=
  Z.of_nat (length (bytesOf x)) <? 2 ^ 32.
Definition part_file_ok (f : WalPartFile) : bool :=
  (length (WalTails f) =? 16)%nat && (length (WalHeads f) =? 16)%nat &&
  forallb piece_ok (WalTails f) && piece_ok (PreviousWalHead f) && forallb piece_ok (WalHeads f).

Definition part_ok (p : WalPart) : bool :=
  fits 1 (dataType p) && fits 1 (id p) && (Z.of_nat (length (partData p)) <? 2 ^ 32).

Section LoadLemmas.
Context {S : Type} `{LawfulReader S}.
Implicit Types s : S.

Lemma LoadWalPart_Save p rest s :
  part_ok p = true -> avail s = Part.Save p ++ rest ->
  LoadWalPart s = (Ok p, adv s (length (Part.Save p))).
Proof.
  unfold part_ok. intros Hp Hs. bool_to_prop. unfold Part.Save in *.
  rewrite wrap_id in * by (unfold in_width; lia). norm_app Hs.
  assert (fits 4 (Z.of_nat (length (partData p))) = true)
    by (apply fits_in_width; unfold in_width; cbn; lia).
  unfold LoadWalPart. do 3 parse_field. rewrite Nat2Z.id.
  unfold rbind, ReadFullRaw. rewrite ReadFull_ok by (rewrite Hs; len).
  rewrite Hs, take_app_length. unfold rret. rewrite !adv_adv.
  destruct p; cbn [dataType id partData]. do 2 f_equal.
Qed.

(** Setting parts one after the other. *)
Fixpoint setParts (f : WalPartFile) (ps : list WalPart) : res error WalPartFile :=
  match ps with
  | [] => Ok f
  | p :: ps => f ← setPart f p; setParts f ps
  end.

Lemma loadPartLoop_parts ps : forall fuel f f' s,
  (length ps < fuel)%nat -> forallb part_ok ps = true ->
  avail s = saveWalParts ps -> setParts f ps = Ok f' ->
  loadPartLoop fuel f s = (Ok f', adv s (length (saveWalParts ps))).
Proof.
  induction ps as [|p ps IH]; intros [|fuel] f f' s Hf Hok Hs Hset; cbn in Hf; try lia;
    cbn [loadPartLoop].
  - assert (LoadWalPart s = (Err (Wrapf "part data type" EOF), s)) as ->.
    { unfold LoadWalPart, rbind. by rewrite ParseFrom_eof by (done || lia). }
    rewrite bool_decide_eq_true_2 by done. cbn in Hset. cbn. rewrite adv_0. congruence.
  - cbn in Hok. apply andb_true_iff in Hok as [Hp Hps].
    unfold saveWalParts in *. cbn [mbind list_bind] in *.
    rewrite (LoadWalPart_Save p _ s Hp Hs). cbn [setParts mbind res_bind] in Hset.
    destruct (setPart f p) as [f1|]; [|done].
    rewrite (IH fuel f1 f') by (done || lia || by eapply avail_adv_app).
    by rewrite adv_adv, length_app.
Qed.
End LoadLemmas.

Lemma setParts_app f ps qs f1 :
  setParts f ps = Ok f1 -> setParts f (ps ++ qs) = setParts f1 qs.
Proof.
  revert f. induction ps as [|p ps IH]; intros f; cbn; [by intros [= ->]|].
  destruct (setPart f p); cbn; [apply IH|done].
Qed.

(** The parts of one kind of slices, set into a file that has none of them. *)
Definition set_tails (f : WalPartFile) (l : list (option (list byte))) : WalPartFile :=
  mkPartFile l (PreviousWalHead f) (WalHeads f).
Definition set_heads (f : WalPartFile) (l : list (option (list byte))) : WalPartFile :=
  mkPartFile (WalTails f) (PreviousWalHead f) l.

Lemma partsOf_go ty ds (get : WalPartFile -> list (option (list byte)))
    (set : WalPartFile -> list (option (list byte)) -> WalPartFile) :
  (forall f i d, (i < length (get f))%nat -> (i < 256)%nat ->
     setPart f (mkWalPart ty (u8 (Z.of_nat i)) d) = Ok (set f (<[i := Some d]> (get f)))) ->
  (forall f l, get (set f l) = l) -> (forall f l l', set (set f l) l' = set f l') ->
  (forall f, set f (get f) = f) ->
  forall done f, get f = done ++ replicate (length ds) None -> (length done + length ds <= 256)%nat ->
  setParts f (imap (fun i d => ((length done + i)%nat, d)) ds ≫= fun '(i, data) =>
    match data with Some data => [mkWalPart ty (u8 (Z.of_nat i)) data] | None => [] end) =
  Ok (set f (done ++ ds)).
Proof.
  intros Hset Hget Hss Hsg. induction ds as [|d ds IH]; intros dn f Hf Hl.
  - cbn in *. rewrite app_nil_r in *. by rewrite <- Hf, Hsg.
  - rewrite imap_cons. cbn [mbind list_bind]. rewrite Nat.add_0_r.
    assert (imap ((fun i d => ((length dn + i)%nat, d)) ∘ Datatypes.S) ds =
            imap (fun i x => ((length (dn ++ [d]) + i)%nat, x)) ds) as Himap.
    { apply imap_ext. intros i x _. cbn. f_equal. rewrite length_app. cbn. lia. }
    rewrite Himap. cbn [length] in Hl, Hf.
    replace (dn ++ d :: ds) with ((dn ++ [d]) ++ ds) by (by rewrite <- app_assoc).
    destruct d as [d|]; cbn [app].
    + cbn [setParts mbind res_bind]. rewrite Hset; cbn [mbind res_bind].
      2:{ rewrite Hf, length_app, length_replicate. lia. }
      2:{ lia. }
      rewrite IH.
      * by rewrite Hss.
      * rewrite Hget, Hf. cbn [replicate]. rewrite insert_app_r_alt by lia.
        rewrite Nat.sub_diag. cbn. by rewrite <- app_assoc.
      * rewrite length_app. cbn. lia.
    + rewrite IH.
      * done.
      * rewrite Hf. cbn [replicate]. by rewrite <- app_assoc.
      * rewrite length_app. cbn. lia.
Qed.

Lemma setParts_tails f ds :
  WalTails f = replicate (length ds) None -> (length ds <= 256)%nat ->
  setParts f (partsOf WalTailType ds) = Ok (set_tails f ds).
Proof.
  intros Hf Hl. apply (partsOf_go WalTailType ds WalTails set_tails) with (done := []); try done.
  - intros g i d Hi Hi'. unfold setPart. cbn [dataType id partData].
    rewrite wrap_id by (unfold in_width; lia).
    change (WalTailType =? PreviousWalHeadType) with false.
    change (WalTailType =? WalTailType) with true. cbv iota.
    rewrite (proj2 (Z.ltb_lt _ _)) by lia. by rewrite Nat2Z.id.
  - by intros [].
Qed.

Lemma setParts_heads f ds :
  WalHeads f = replicate (length ds) None -> (length ds <= 256)%nat ->
  setParts f (partsOf WalHeadType ds) = Ok (set_heads f ds).
Proof.
  intros Hf Hl. apply (partsOf_go WalHeadType ds WalHeads set_heads) with (done := []); try done.
  - intros g i d Hi Hi'. unfold setPart. cbn [dataType id partData].
    rewrite wrap_id by (unfold in_width; lia).
    change (WalHeadType =? PreviousWalHeadType) with false.
    change (WalHeadType =? WalTailType) with false.
    change (WalHeadType =? WalHeadType) with true. cbv iota.
    rewrite (proj2 (Z.ltb_lt _ _)) by lia. by rewrite Nat2Z.id.
  - by intros [].
Qed.

Lemma partsOf_ok ty ds :
  fits 1 ty = true -> forallb piece_ok ds = true -> forallb part_ok (partsOf ty ds) = true.
Proof.
  intros Hty Hds. apply forallb_forall. intros p Hp. unfold partsOf in Hp.
  apply list_elem_of_In, list_elem_of_bind in Hp as ([i d] & Hp & Hin).
  apply elem_of_lookup_imap in Hin as (j & x & [= -> ->] & Hj).
  destruct x as [x|]; [|by apply elem_of_nil in Hp]. apply list_elem_of_singleton in Hp as ->.
  unfold part_ok, NewWalPart. cbn [dataType id partData]. rewrite Hty. cbn [andb].
  apply andb_true_iff. split.
  - apply fits_in_width. apply wrap_range. lia.
  - rewrite forallb_forall in Hds. apply (Hds (Some x)), list_elem_of_In.
    by eapply list_elem_of_lookup_2.
Qed.

Lemma partsOf_length ty ds : (length (partsOf ty ds) <= length ds)%nat.
Proof.
  unfold partsOf. generalize 0%nat as k.
  assert (forall (f : nat -> option (list byte) -> nat * option (list byte)),
    (forall i d, (f i d).2 = d) ->
    (length (imap f ds ≫= fun '(id, data) =>
       match data with Some data => [NewWalPart ty (u8 (Z.of_nat id)) data] | None => [] end)
     <= length ds)%nat) as Hg; [|intros _; by apply Hg].
  induction ds as [|d ds IH]; intros f Hf; [done|]. rewrite imap_cons. cbn [mbind list_bind].
  rewrite length_app. specialize (IH (f ∘ Datatypes.S) ltac:(intros; apply Hf)). cbn [length].
  destruct (f 0%nat d) as [i [x|]]; cbn [length]; unfold mbind in *; lia.
Qed.

(** ** Theorems *)

(** A part file that is saved and loaded is the same part file, with the
    pieces that are missing told apart from those that are empty. *)
Theorem LoadPartFile_Save {S : Type} `{LawfulReader S} (f : WalPartFile) (fuel : nat) (s : S) :
  part_file_ok f = true -> (33 < fuel)%nat -> avail s = PartFile.Save f ->
  fst (LoadPartFile fuel s) = Ok f.
Proof.
  unfold part_file_ok, PartFile.Save. intros Hok Hf Hs. bool_to_prop.
  set (prev := match PreviousWalHead f with Some data => _ | None => _ end) in Hs.
  assert (length prev <= 1)%nat by (subst prev; destruct (PreviousWalHead f); cbn; lia).
  assert (forallb part_ok prev = true) as Hprev.
  { subst prev. destruct (PreviousWalHead f) as [d|] eqn:E; [|done]. cbn.
    unfold piece_ok in *. cbn [bytesOf default] in *. unfold part_ok. cbn [dataType id partData].
    apply andb_true_iff. split; [|done]. apply andb_true_iff. split; [reflexivity|].
    done. }
  pose proof (partsOf_length WalTailType (WalTails f)).
  pose proof (partsOf_length WalHeadType (WalHeads f)).
  unfold LoadPartFile. rewrite (loadPartLoop_parts
    (partsOf WalTailType (WalTails f) ++ prev ++ partsOf WalHeadType (WalHeads f))
    fuel NewWalPartFile f s); [done| | |exact Hs|].
  - rewrite !length_app. lia.
  - rewrite !forallb_app, Hprev, !partsOf_ok by done. done.
  - rewrite (setParts_app _ _ _ (set_tails NewWalPartFile (WalTails f))).
    2:{ apply setParts_tails; [|lia].
        match goal with H : length (WalTails f) = _ |- _ => rewrite H end. done. }
    set (f1 := mkPartFile (WalTails f) (PreviousWalHead f) (WalHeads NewWalPartFile)).
    rewrite (setParts_app _ prev _ f1).
    2:{ subst prev f1. by destruct (PreviousWalHead f). }
    rewrite setParts_heads; [by destruct f| |lia].
    match goal with H : length (WalHeads f) = _ |- _ => rewrite H end. done.
Qed.

Definition ex_part_file : WalPartFile :=
  mkPartFile (Some [Byte.x01; Byte.x02] :: Some [] :: replicate 14 None) (Some [])
    (replicate 15 None ++ [Some [Byte.xff]]).

Lemma LoadPartFile_Save_witness :
  fst (LoadPartFile 40 (PartFile.Save ex_part_file : bytesReader)) = Ok ex_part_file.
Proof. apply LoadPartFile_Save; [vm_compute; reflexivity|lia|reflexivity]. Defined.

(** A delta file that is saved and loaded is the same delta file, its
    locations and the parser with the unfinished record at its end. *)
Theorem LoadDeltaFile_Save {S : Type} `{LawfulReader S} (f : DeltaFile) :
  forallb location_ok (Locations f) = true -> TerminalLocation ∉ Locations f ->
  hasCurrentRecordBeginning (dfWalParser f) = (0 <? length (currentRecordData (dfWalParser f)))%nat ->
  Z.of_nat (length (currentRecordData (dfWalParser f))) < 2 ^ 32 ->
  exists bs, DFile.Save f = (bs, None) /\
    forall (s : S) (rest : list byte), avail s = bs ++ rest ->
      LoadDeltaFile (Datatypes.S (length (Locations f))) s = (Ok f, adv s (length bs)).
Proof.
  intros Hl Hnt Hb Hlen. unfold DFile.Save.
  destruct (WalPage.Save (dfWalParser f)) as [ps|e] eqn:Ep.
  2:{ exfalso. unfold WalPage.Save in Ep. rewrite Hb in Ep.
      destruct (0 <? length (currentRecordData (dfWalParser f)))%nat; done. }
  eexists. split; [reflexivity|]. unfold WriteLocationsTo. rewrite bind_app. intros s rest Hs.
  cbn [mbind list_bind] in Hs |- *. rewrite app_nil_r in *. rewrite <- !app_assoc in Hs.
  unfold LoadDeltaFile, ReadLocationsFrom, rbind.
  rewrite (readLocationsLoop_ok (Locations f) _ [] (ps ++ rest)) by (done || lia).
  assert (avail (adv s (length (WriteLocationsTo (Locations f)) + 16)) = ps ++ rest) as Hs2.
  { rewrite avail_adv, Hs. rewrite <- drop_drop, drop_app_length.
    by rewrite drop_app_length' by (by rewrite WriteLocation_length). }
  rewrite (LoadWalParser_Save (dfWalParser f) ps rest _ Ep Hb Hlen Hs2). unfold rret.
  rewrite adv_adv. destruct f. cbn [Locations dfWalParser app]. do 2 f_equal.
  rewrite !length_app, WriteLocation_length. unfold WriteLocationsTo, mbind. lia.
Qed.

Lemma LoadDeltaFile_Save_witness :
  let f := mkDeltaFile [NewBlockLocation 1663 1 2 3; NewBlockLocation 1663 1 2 4]
             (mkWalParser [Byte.x18] true) in
  exists bs, DFile.Save f = (bs, None) /\
    LoadDeltaFile 3 (bs ++ [Byte.x00] : bytesReader) = (Ok f, [Byte.x00]).
Proof.
  cbv zeta.
  destruct (LoadDeltaFile_Save (S:=bytesReader)
    (mkDeltaFile [NewBlockLocation 1663 1 2 3; NewBlockLocation 1663 1 2 4]
      (mkWalParser [Byte.x18] true))) as (bs & Hb & Hload).
  - reflexivity.
  - apply (bool_decide_eq_true_1 _). vm_compute. reflexivity.
  - reflexivity.
  - reflexivity.
  - exists bs. split; [exact Hb|]. etransitivity; [exact (Hload (bs ++ [Byte.x00]) [Byte.x00] eq_refl)|].
    cbn [adv bytesReader_Lawful]. by rewrite drop_app_length.
Defined.
