(* ===== verification/DeltaManager.v ===== *)
(** * Recording the block locations of WAL files

    [src/internal/lazy_cache.go] and, in [src/internal/databases/postgres],
    [delta_file_manager.go], [delta_file_chan_writer.go],
    [wal_part_recorder.go], [wal_delta_recorder.go] and
    [wal_delta_recording_reader.go]: while a WAL file is read to be uploaded,
    its pages are parsed and the locations of their blocks collected, sixteen
    files to a delta file. The objects the goroutines share are one
    [DeltaFileManager] value that each operation maps to the next. *)

From S2P Require Import Prelude GoIO WalRecord WalRecordEnc WalPage WalFile WalTotal GoStrings Timeline Delta.
Open Scope Z_scope.

(** ** [lazy_cache.go] *)

Module LazyCache.
Section Ops.
Context {K V E : Type} `{Countable K}.

(** The value, whether it was there, and the cache; an error is not cached. *)
Definition Load (load : K -> res E V) (cache : gmap K V) (key : K) : res E (V * bool) * gmap K V :=
  match cache !! key with
  | Some value => (Ok (value, true), cache)
  | None =>
      match load key with
      | Ok value => (Ok (value, false), <[key := value]> cache)
      | Err err => (Err err, cache)
      end
  end.

Definition LoadExisting (cache : gmap K V) (key : K) : option V := cache !! key.

Definition Store (cache : gmap K V) (key : K) (value : V) : gmap K V := <[key := value]> cache.

(** The entries in the order the runtime yields them; [reduce] changes the
    state and tells whether to go on. *)
Fixpoint Range {St : Type} (reduce : K -> V -> St -> bool * St) (entries : list (K * V)) (st : St) : St :=
  match entries with
  | [] => st
  | (key, value) :: entries =>
      let '(continue, st) := reduce key value st in
      if continue then Range reduce entries st else st
  end.
End Ops.
End LazyCache.

(** ** [fsutil]: the folder of the files kept between runs *)

(** Opening a file gives its bytes; writing one gives the folder as the
    operating system leaves it. *)
Class DataFolder (Folder : Type) := {
  OpenReadonlyFile : Folder -> string -> res pgError (list byte);
  WriteFile : Folder -> string -> list byte -> option pgError * Folder;
  CleanFolder : Folder -> option pgError * Folder
}.

(** The bytes a [Saver] writes, with its error. *)
Definition SaveToDataFolder {Folder} `{DataFolder Folder} (saver : list byte * option error)
    (filename : string) (dataFolder : Folder) : option pgError * Folder :=
  let '(err, folder) := WriteFile dataFolder filename (fst saver) in
  match err, snd saver with
  | Some err, _ => (Some err, folder)
  | None, Some err => (Some (WalParsing err), folder)
  | None, None => (None, folder)
  end.

(** ** [delta_file_chan_writer.go] *)

(** The delta file and what was sent on the channel that the consuming
    goroutine has not appended yet. *)
Record DeltaFileChanWriter := mkChanWriter {
  deltaFile : DeltaFile;
  BlockLocationConsumer : list BlockLocation
}.

Definition NewDeltaFileChanWriter (deltaFile : DeltaFile) : DeltaFileChanWriter :=
  mkChanWriter deltaFile [].

(** A send on the channel. *)
Definition send (writer : DeltaFileChanWriter) (location : BlockLocation) : DeltaFileChanWriter :=
  mkChanWriter (deltaFile writer) (BlockLocationConsumer writer ++ [location]).

(** One turn of the goroutine's loop. *)
Definition consume1 (writer : DeltaFileChanWriter) : DeltaFileChanWriter :=
  match BlockLocationConsumer writer with
  | [] => writer
  | blockLocation :: rest =>
      mkChanWriter (mkDeltaFile (Locations (deltaFile writer) ++ [blockLocation])
        (dfWalParser (deltaFile writer))) rest
  end.

(** The loop until the closed channel is empty. *)
Definition Consume (writer : DeltaFileChanWriter) : DeltaFileChanWriter :=
  Nat.iter (length (BlockLocationConsumer writer)) consume1 writer.

(** ** [delta_file_manager.go] *)

Record DeltaFileManager (Folder : Type) := mkManager {
  dataFolder : Folder;
  PartFiles : gmap string WalPartFile;
  DeltaFileWriters : gmap string DeltaFileChanWriter;
  canceledWalRecordings : list string;
  CanceledDeltaFiles : gset string
}.
Arguments mkManager {_}.
Arguments dataFolder {_}.
Arguments PartFiles {_}.
Arguments DeltaFileWriters {_}.
Arguments canceledWalRecordings {_}.
Arguments CanceledDeltaFiles {_}.

Definition parsingErr (e : error) : pgError :=
  match e with RuntimePanic => Panic | e => WalParsing e end.

(** The files handed to the uploader. *)
Notation Uploads := (list (string * list byte)).

Section Manager.
Context {cfg : WalConfig} {Folder : Type} `{DataFolder Folder}.
Notation Manager := (DeltaFileManager Folder).
Implicit Types m : Manager.

Definition NewDeltaFileManager (folder : Folder) : Manager := mkManager folder ∅ ∅ [] ∅.

Definition set_folder m f : Manager :=
  mkManager f (PartFiles m) (DeltaFileWriters m) (canceledWalRecordings m) (CanceledDeltaFiles m).
Definition set_parts m p : Manager :=
  mkManager (dataFolder m) p (DeltaFileWriters m) (canceledWalRecordings m) (CanceledDeltaFiles m).
Definition set_writers m w : Manager :=
  mkManager (dataFolder m) (PartFiles m) w (canceledWalRecordings m) (CanceledDeltaFiles m).
Definition set_canceled m c : Manager :=
  mkManager (dataFolder m) (PartFiles m) (DeltaFileWriters m) (canceledWalRecordings m) c.

Definition loadDeltaFileWriter (folder : Folder) (deltaFilename : string)
  : res pgError DeltaFileChanWriter :=
  match OpenReadonlyFile folder deltaFilename with
  | Err (NoSuchFileError _) => Ok (NewDeltaFileChanWriter (NewDeltaFile NewWalParser))
  | Err err => Err err
  | Ok physicalDeltaFile =>
      NewDeltaFileChanWriter <$> res_map_err parsingErr
        (fst (LoadDeltaFile (S (length physicalDeltaFile)) (physicalDeltaFile : bytesReader)))
  end.

Definition loadPartFile (folder : Folder) (partFilename : string) : res pgError WalPartFile :=
  match OpenReadonlyFile folder partFilename with
  | Err (NoSuchFileError _) => Ok NewWalPartFile
  | Err err => Err err
  | Ok physicalPartFile =>
      res_map_err parsingErr
        (fst (LoadPartFile (S (length physicalPartFile)) (physicalPartFile : bytesReader)))
  end.

(** The channel is that of the writer the cache keeps under the name. *)
Definition GetBlockLocationConsumer (deltaFilename : string) m : res pgError string * Manager :=
  let '(r, writers) := LazyCache.Load (loadDeltaFileWriter (dataFolder m)) (DeltaFileWriters m) deltaFilename in
  ((fun _ => deltaFilename) <$> r, set_writers m writers).

Definition GetPartFile (deltaFilename : string) m : res pgError WalPartFile * Manager :=
  let '(r, parts) := LazyCache.Load (loadPartFile (dataFolder m)) (PartFiles m) (ToPartFilename deltaFilename) in
  (fst <$> r, set_parts m parts).

(** An assignment through the pointer [GetPartFile] returned. *)
Definition updatePartFile (deltaFilename : string) (f : WalPartFile -> WalPartFile) m : Manager :=
  set_parts m (alter f (ToPartFilename deltaFilename) (PartFiles m)).

(** A send to the channel of [GetBlockLocationConsumer]. *)
Definition sendTo (deltaFilename : string) (location : BlockLocation) m : Manager :=
  set_writers m (alter (fun w => send w location) deltaFilename (DeltaFileWriters m)).

Definition sendAll (deltaFilename : string) (locations : list BlockLocation) m : Manager :=
  foldl (fun m location => sendTo deltaFilename location m) m locations.

Definition CancelRecording (walFilename : string) m : Manager :=
  mkManager (dataFolder m) (PartFiles m) (DeltaFileWriters m)
    (canceledWalRecordings m ++ [walFilename]) (CanceledDeltaFiles m).

(** One name received from the channel. *)
Definition collectCanceled (canceled : gset string) (walFilename : string) : gset string :=
  match GetDeltaFilenameFor walFilename with
  | Err _ => canceled
  | Ok deltaFilename =>
      let nextWalFilename := match GetNextWalFilename walFilename with Ok n => n | Err _ => EmptyString end in
      let nextDeltaFilename :=
        match GetDeltaFilenameFor nextWalFilename with Ok d => d | Err _ => EmptyString end in
      {[ nextDeltaFilename ]} ∪ ({[ deltaFilename ]} ∪ canceled)
  end.

Definition collectCanceledDeltaFiles m : Manager :=
  mkManager (dataFolder m) (PartFiles m) (DeltaFileWriters m) []
    (foldl collectCanceled (CanceledDeltaFiles m) (canceledWalRecordings m)).

Definition CombinePartFile (deltaFilename : string) (partFile : WalPartFile) m
  : option pgError * Manager :=
  match LazyCache.LoadExisting (DeltaFileWriters m) deltaFilename with
  | None => (Some (DeltaFileWriterNotFoundError deltaFilename), m)
  | Some w =>
      let head := bytesOf (nth (Z.to_nat WalFileInDelta - 1) (WalHeads partFile) None) in
      let w := mkChanWriter (mkDeltaFile (Locations (deltaFile w)) (LoadWalParserFromCurrentRecordHead head))
                 (BlockLocationConsumer w) in
      let m := set_writers m (<[deltaFilename := w]> (DeltaFileWriters m)) in
      match CombineRecords partFile with
      | Err err => (Some (parsingErr err), m)
      | Ok records => (None, sendAll deltaFilename (ExtractBlockLocations records) m)
      end
  end.

(** The function [FlushPartFiles] ranges with. *)
Definition flushPartFile (partFilename : string) (partFile : WalPartFile) (st : Manager * gset string)
  : bool * (Manager * gset string) :=
  let '(m, completed) := st in
  let deltaFilename := partFilenameToDelta partFilename in
  if bool_decide (deltaFilename ∈ CanceledDeltaFiles m) then (true, (m, completed))
  else if IsComplete partFile then
    let completed := {[ partFilename ]} ∪ completed in
    let '(err, m) := CombinePartFile deltaFilename partFile m in
    match err with
    | Some _ => (true, (set_canceled m ({[ deltaFilename ]} ∪ CanceledDeltaFiles m), completed))
    | None => (true, (m, completed))
    end
  else
    let '(err, folder) := SaveToDataFolder (PartFile.Save partFile, None) partFilename (dataFolder m) in
    let m := set_folder m folder in
    match err with
    | Some _ => (true, (set_canceled m ({[ deltaFilename ]} ∪ CanceledDeltaFiles m), completed))
    | None => (true, (m, completed))
    end.

(** [order] lists the part files as the runtime ranges over them. *)
Definition FlushPartFiles (order : list (string * WalPartFile)) m : gset string * Manager :=
  let m := collectCanceledDeltaFiles m in
  let '(m, completed) := LazyCache.Range flushPartFile order (m, ∅) in
  (completed, m).

Definition flushDeltaFile (completedPartFiles : gset string) (deltaFilename : string)
    (writer : DeltaFileChanWriter) (st : Manager * Uploads) : bool * (Manager * Uploads) :=
  let '(m, uploads) := st in
  if bool_decide (deltaFilename ∈ CanceledDeltaFiles m) then (true, st)
  else if bool_decide (ToPartFilename deltaFilename ∈ completedPartFiles) then
    match DFile.Save (deltaFile writer) with
    | (_, Some _) => (true, st)
    | (data, None) => (true, (m, uploads ++ [(deltaFilename, data)]))
    end
  else
    let '(_, folder) := SaveToDataFolder (DFile.Save (deltaFile writer)) deltaFilename (dataFolder m) in
    (true, (set_folder m folder, uploads)).

(** The channels are closed and the goroutines waited for; then [order] lists
    the writers as they are ranged over. *)
Definition FlushDeltaFiles (order : list (string * DeltaFileChanWriter)) (completedPartFiles : gset string) m
  : Uploads * Manager :=
  let '(m, uploads) := LazyCache.Range (flushDeltaFile completedPartFiles) order (m, []) in
  (uploads, m).

Definition closeWriters m : Manager := set_writers m (Consume <$> DeltaFileWriters m).

(** [partOrder] and [deltaOrder] choose the orders of the two ranges. *)
Definition FlushFiles (partOrder : gmap string WalPartFile -> list (string * WalPartFile))
    (deltaOrder : gmap string DeltaFileChanWriter -> list (string * DeltaFileChanWriter)) m
  : Uploads * Manager :=
  let m := set_folder m (snd (CleanFolder (dataFolder m))) in
  let '(completedPartFiles, m) := FlushPartFiles (partOrder (PartFiles m)) m in
  let m := closeWriters m in
  FlushDeltaFiles (deltaOrder (DeltaFileWriters m)) completedPartFiles m.

(** ** [wal_part_recorder.go] *)

Definition NewWalPartRecorder (walFilename : string) : res pgError string :=
  if negb (isWalFilename walFilename) then Err (NotWalFilenameError walFilename) else Ok walFilename.

Definition SavePreviousWalTail (walFilename : string) (tailData : list byte) m : option pgError * Manager :=
  match GetDeltaFilenameFor walFilename with
  | Err err => (Some err, m)
  | Ok deltaFilename =>
      match GetPartFile deltaFilename m with
      | (Err err, m) => (Some err, m)
      | (Ok _, m) =>
          (None, updatePartFile deltaFilename (fun partFile =>
             mkPartFile (<[Z.to_nat (GetPositionInDelta walFilename) := Some tailData]> (WalTails partFile))
               (PreviousWalHead partFile) (WalHeads partFile)) m)
      end
  end.

Definition deltaNameOf (walFilename : string) : string :=
  match GetDeltaFilenameFor walFilename with Ok d => d | Err _ => EmptyString end.
Definition nextNameOf (walFilename : string) : string :=
  match GetNextWalFilename walFilename with Ok n => n | Err _ => EmptyString end.

Definition SaveNextWalHead (walFilename : string) (head : list byte) m : option pgError * Manager :=
  let deltaFilename := deltaNameOf walFilename in
  match GetPartFile deltaFilename m with
  | (Err err, m) => (Some err, m)
  | (Ok _, m) =>
      let positionInDelta := GetPositionInDelta walFilename in
      let m := updatePartFile deltaFilename (fun partFile =>
        mkPartFile (WalTails partFile) (PreviousWalHead partFile)
          (<[Z.to_nat positionInDelta := Some head]> (WalHeads partFile))) m in
      if positionInDelta =? WalFileInDelta - 1 then
        let nextDeltaFilename := deltaNameOf (nextNameOf walFilename) in
        match GetPartFile nextDeltaFilename m with
        | (Err err, m) => (Some err, m)
        | (Ok _, m) =>
            (None, updatePartFile nextDeltaFilename (fun partFile =>
               mkPartFile (WalTails partFile) (Some head) (WalHeads partFile)) m)
        end
      else (None, m)
  end.

(** ** [wal_delta_recorder.go] *)

Definition recordWalDelta (blockLocationConsumer : string) (records : list XLogRecord) m : Manager :=
  sendAll blockLocationConsumer (ExtractBlockLocations records) m.
End Manager.

(** ** [wal_delta_recording_reader.go] *)

(** The recorders are the names they record under; a nil [Recorder] is [None]. *)
Record WalDeltaRecordingReader (S : Type) := mkRecordingReader {
  PageReader : S;
  rrWalParser : WalParser;
  PageDataLeftover : list byte;
  Recorder : option string;
  partRecorder : string;
  canParsePreviousRecordTail : bool
}.
Arguments mkRecordingReader {_}.
Arguments PageReader {_}.
Arguments rrWalParser {_}.
Arguments PageDataLeftover {_}.
Arguments Recorder {_}.
Arguments partRecorder {_}.
Arguments canParsePreviousRecordTail {_}.

Section Recording.
Context {cfg : WalConfig} {Folder : Type} `{DataFolder Folder} {S : Type} `{Reader S}.
Notation Manager := (DeltaFileManager Folder).
Notation RReader := (WalDeltaRecordingReader S).

Definition tryOpenParserAndRecorders (walFilename : string) (m : Manager)
  : res pgError (WalParser * string * string) * Manager :=
  match GetDeltaFilenameFor walFilename with
  | Err err => (Err err, m)
  | Ok deltaFilename =>
      match GetBlockLocationConsumer deltaFilename m with
      | (Err err, m) => (Err err, m)
      | (Ok blockLocationConsumer, m) =>
          match NewWalPartRecorder walFilename with
          | Err err => (Err err, m)
          | Ok partRecorder => (Ok (NewWalParser, blockLocationConsumer, partRecorder), m)
          end
      end
  end.

Definition NewWalDeltaRecordingReader (walFileReader : S) (walFilename : string) (m : Manager)
  : res pgError RReader * Manager :=
  match tryOpenParserAndRecorders walFilename m with
  | (Err err, m) => (Err err, m)
  | (Ok (walParser, recorder, partRecorder), m) =>
      (Ok (mkRecordingReader walFileReader walParser [] (Some recorder) partRecorder true), m)
  end.

Definition Close (reader : RReader) (m : Manager) : option pgError * Manager :=
  SaveNextWalHead (partRecorder reader) (GetCurrentRecordData (rrWalParser reader)) m.

Definition cancelRecordingWithErr (reader : RReader) (m : Manager) : Manager :=
  CancelRecording (partRecorder reader) m.

Definition set_parser (reader : RReader) (p : WalParser) : RReader :=
  mkRecordingReader (PageReader reader) p (PageDataLeftover reader) (Recorder reader)
    (partRecorder reader) (canParsePreviousRecordTail reader).
Definition set_source (reader : RReader) (s : S) (leftover : list byte) : RReader :=
  mkRecordingReader s (rrWalParser reader) leftover (Recorder reader)
    (partRecorder reader) (canParsePreviousRecordTail reader).
Definition set_tail_parsed (reader : RReader) : RReader :=
  mkRecordingReader (PageReader reader) (rrWalParser reader) (PageDataLeftover reader)
    (Recorder reader) (partRecorder reader) false.

Definition RecordBlockLocationsFromPage (reader : RReader) (m : Manager)
  : option pgError * RReader * Manager :=
  match Recorder reader with
  | None => (None, reader, m)
  | Some recorder =>
      let '((discardedRecordTail, records, err), parser) :=
        ParseRecordsFromPage (rrWalParser reader) (PageDataLeftover reader) in
      let reader := set_parser reader parser in
      match err with
      | Some ZeroPageError => (None, reader, m)
      | None | Some PartialPageError =>
          if (0 <? length discardedRecordTail)%nat || (0 <? length records)%nat then
            if canParsePreviousRecordTail reader then
              let reader := set_tail_parsed reader in
              match SavePreviousWalTail (partRecorder reader) discardedRecordTail m with
              | (Some err, m) => (Some err, reader, m)
              | (None, m) => (None, reader, recordWalDelta recorder records m)
              end
            else if (0 <? length discardedRecordTail)%nat then (Some CantDiscardWalDataError, reader, m)
            else (None, reader, recordWalDelta recorder records m)
          else (None, reader, recordWalDelta recorder records m)
      | Some err => (Some (parsingErr err), set_parser reader (Invalidate parser), m)
      end
  end.

(** The loop of [Read]: each turn after the first takes a page from [n]. *)
Fixpoint readLoop (fuel n : nat) (acc : list byte) (reader : RReader) (m : Manager)
  : list byte * option error * RReader * Manager :=
  match fuel with
  | 0%nat => (acc, Some ErrNoProgress, reader, m)
  | Datatypes.S fuel =>
      let leftover := PageDataLeftover reader in
      if (n <=? length leftover)%nat then
        (acc ++ take n leftover, None, set_source reader (PageReader reader) (drop n leftover), m)
      else
        let acc := acc ++ leftover in
        match ReadPageData (PageReader reader) with
        | (Ok None, s) =>
            (acc, Some EOF, set_source reader s (replicate (Z.to_nat WalPageSize) Byte.x00), m)
        | (Err err, s) => (acc, Some err, set_source reader s [], cancelRecordingWithErr reader m)
        | (Ok (Some page), s) =>
            let '(recordingErr, reader', m) :=
              RecordBlockLocationsFromPage (set_source reader s page) m in
            let m := match recordingErr with
                     | Some _ => cancelRecordingWithErr reader' m
                     | None => m
                     end in
            readLoop fuel (n - length leftover) acc reader' m
        end
  end.

Definition Read (n : nat) (reader : RReader) (m : Manager)
  : list byte * option error * RReader * Manager :=
  readLoop (n / Z.to_nat WalPageSize + 2) n [] reader m.

(** A client that reads with buffers of these sizes until an error. *)
Fixpoint reads (sizes : list nat) (reader : RReader) (m : Manager)
  : list byte * option error * RReader * Manager :=
  match sizes with
  | [] => ([], None, reader, m)
  | n :: sizes =>
      match Read n reader m with
      | (bs, Some err, reader, m) => (bs, Some err, reader, m)
      | (bs, None, reader, m) =>
          let '(rest, err, reader, m) := reads sizes reader m in (bs ++ rest, err, reader, m)
      end
  end.
End Recording.

(** ** Lemmas: the bytes the reader passes on *)

Section ReadLemmas.
Context {cfg : WalConfig} {Folder : Type} `{DataFolder Folder} {S : Type} `{LawfulReader S}.
Notation Manager := (DeltaFileManager Folder).
Notation RReader := (WalDeltaRecordingReader S).

(** What is left of the file. *)
Definition stream (reader : RReader) : list byte := PageDataLeftover reader ++ avail (PageReader reader).

(** The length of a page; it is kept folded. *)
Definition pageLen : nat := Z.to_nat WalPageSize.

Lemma pageLen_pos : (0 < pageLen)%nat.
Proof. unfold pageLen, WalPageSize. lia. Qed.

Definition whole_pages (n : nat) : bool := (n mod pageLen =? 0)%nat.

Lemma record_keeps_stream (r : RReader) (m : Manager) err r' m' :
  RecordBlockLocationsFromPage r m = (err, r', m') ->
  PageDataLeftover r' = PageDataLeftover r /\ PageReader r' = PageReader r.
Proof.
  unfold RecordBlockLocationsFromPage, set_parser, set_tail_parsed.
  destruct (Recorder r); [|by intros [= <- <- <-]].
  destruct (ParseRecordsFromPage _ _) as [[[tail rs] e] p].
  repeat (case_match || case_bool); intros; simplify_eq; cbn in *; simplify_eq; done.
Qed.

Lemma whole_pages_cases n :
  whole_pages n = true -> n = 0%nat \/ (pageLen <= n)%nat /\ whole_pages (n - pageLen) = true.
Proof.
  unfold whole_pages. pose proof pageLen_pos. generalize dependent pageLen. intros P HP Hn%Nat.eqb_eq.
  pose proof (Nat.div_mod_eq n P) as Hd. rewrite Hn in Hd.
  destruct (n / P)%nat as [|k]; [left; lia|right]. split; [lia|].
  apply Nat.eqb_eq. replace (n - P)%nat with (k * P)%nat by lia. apply Nat.Div0.mod_mul.
Qed.

Lemma ReadPageData_page (s : S) :
  (pageLen <= length (avail s))%nat ->
  ReadPageData s = (Ok (Some (take pageLen (avail s))), adv s pageLen).
Proof.
  intros Hl. rewrite (ReadPageData_ok (take pageLen (avail s)) (drop pageLen (avail s)) s).
  - rewrite length_take. by replace (pageLen `min` length (avail s))%nat with pageLen by lia.
  - by rewrite take_drop.
  - rewrite length_take. fold pageLen. lia.
Qed.

Lemma readLoop_ok fuel : forall n acc (r : RReader) (m : Manager),
  (n <= length (PageDataLeftover r) + fuel * pageLen)%nat ->
  whole_pages (length (avail (PageReader r))) = true ->
  exists r' m', readLoop (Datatypes.S fuel) n acc r m =
    (acc ++ take n (stream r), if (n <=? length (stream r))%nat then None else Some EOF, r', m') /\
    whole_pages (length (avail (PageReader r'))) = true /\
    if (n <=? length (stream r))%nat then stream r' = drop n (stream r)
    else PageDataLeftover r' = replicate pageLen Byte.x00 /\ avail (PageReader r') = [].
Proof.
  pose proof pageLen_pos as HP.
  induction fuel as [|fuel IH]; intros n acc r m Hn Hw; cbn [readLoop];
    set (l := PageDataLeftover r) in *;
    (destruct (n <=? length l)%nat eqn:El; bool_to_prop;
     [ do 2 eexists; unfold stream; fold l; rewrite length_app, (proj2 (Nat.leb_le _ _)) by lia;
       split; [by rewrite take_app_le by lia|]; split; [done|];
       cbn [set_source PageDataLeftover PageReader]; by rewrite drop_app_le by lia | ]); [lia|].
  destruct (whole_pages_cases _ Hw) as [Hz|[Hl Hw']].
  - apply nil_length_inv in Hz. unfold ReadPageData. rewrite ReadFull_eof by done.
    do 2 eexists. unfold stream. fold l. rewrite Hz, app_nil_r, (proj2 (Nat.leb_gt _ _)) by lia.
    rewrite take_ge by lia. split; [done|]. cbn [set_source PageDataLeftover PageReader].
    rewrite Hz. split; [done|]. by split.
  - rewrite ReadPageData_page by done.
    destruct (RecordBlockLocationsFromPage _ m) as [[err r1] m1] eqn:Er.
    apply record_keeps_stream in Er as [Hleft Hsrc]. cbn [set_source PageDataLeftover PageReader] in *.
    set (m2 := match err with Some _ => _ | None => _ end).
    assert (stream r1 = avail (PageReader r)) as Hst.
    { unfold stream. by rewrite Hleft, Hsrc, avail_adv, take_drop. }
    destruct (IH (n - length l)%nat (acc ++ l) r1 m2) as (r' & m' & Hr & Hw2 & Hend).
    { rewrite Hleft, length_take. cbn in Hn. lia. }
    { by rewrite Hsrc, avail_adv, length_drop. }
    exists r', m'. rewrite Hst in Hr, Hend.
    match goal with |- ?lhs = _ /\ _ =>
      change lhs with (readLoop (Datatypes.S fuel) (n - length l) (acc ++ l) r1 m2) end.
    rewrite Hr. clear Hr. assert (stream r = l ++ avail (PageReader r)) as -> by done. rewrite length_app.
    replace (n <=? length l + length (avail (PageReader r)))%nat
      with (n - length l <=? length (avail (PageReader r)))%nat
      by (apply eq_bool_prop_intro; rewrite !Is_true_true, !Nat.leb_le; lia).
    split; [|split; [done|]].
    + rewrite take_app, (take_ge l) by lia. by rewrite <- app_assoc.
    + destruct (_ <=? _)%nat; [|done]. by rewrite Hend, drop_app, (drop_ge l) by lia.
Qed.

Lemma Read_ok n (r : RReader) (m : Manager) :
  whole_pages (length (avail (PageReader r))) = true ->
  exists r' m', Read n r m =
    (take n (stream r), if (n <=? length (stream r))%nat then None else Some EOF, r', m') /\
    whole_pages (length (avail (PageReader r'))) = true /\
    if (n <=? length (stream r))%nat then stream r' = drop n (stream r)
    else PageDataLeftover r' = replicate pageLen Byte.x00 /\ avail (PageReader r') = [].
Proof.
  intros Hw. unfold Read. fold pageLen. rewrite Nat.add_comm. apply (readLoop_ok _ n []); [|done].
  pose proof (Nat.div_mod_eq n pageLen). pose proof (Nat.mod_upper_bound n pageLen).
  pose proof pageLen_pos. cbn. lia.
Qed.
End ReadLemmas.

Section StreamLemmas.
Context {cfg : WalConfig} {Folder : Type} `{DataFolder Folder} {S : Type} `{LawfulReader S}.
Notation RReader := (WalDeltaRecordingReader S).

Lemma reads_ok sizes : forall (r : RReader) (m : DeltaFileManager Folder),
  whole_pages (length (avail (PageReader r))) = true ->
  exists r' m', reads sizes r m =
    (take (sum_list sizes) (stream r),
     if (sum_list sizes <=? length (stream r))%nat then None else Some EOF, r', m') /\
    ((length (stream r) < sum_list sizes)%nat -> PageDataLeftover r' = replicate pageLen Byte.x00).
Proof.
  induction sizes as [|n sizes IH]; intros r m Hw; cbn [reads sum_list_with]; try change (Datatypes.id n) with n.
  - do 2 eexists. by split; [|lia].
  - destruct (Read_ok n r m Hw) as (r1 & m1 & Hr & Hw1 & Hst). rewrite Hr.
    case_bool; bool_to_prop.
    + destruct (IH r1 m1 Hw1) as (r2 & m2 & Hrs & Hz). rewrite Hrs. exists r2, m2.
      rewrite Hst in *. rewrite length_drop, take_take_drop in *.
      split; [|intros; apply Hz; lia].
      replace (sum_list sizes <=? length (stream r) - n)%nat with (n + sum_list sizes <=? length (stream r))%nat;
        [done|]. apply eq_bool_prop_intro. rewrite !Is_true_true, !Nat.leb_le. lia.
    + exists r1, m1. rewrite (proj2 (Nat.leb_gt _ _)) by lia. rewrite !take_ge by lia.
      split; [done|]. intros _. apply Hst.
Qed.
End StreamLemmas.

(** ** Theorems *)

(** C19: recording does not change what is uploaded: whatever the pages hold,
    and whether or not recording them fails, a client that reads the file with
    buffers of any sizes gets the bytes of the file in order, with no error
    before the end. (The end is reported once: the reader is left with a page
    of zeros, which a client that reads on would get.) *)
Theorem recording_reader_transparent {cfg : WalConfig} {Folder S} `{DataFolder Folder} `{LawfulReader S}
    (file : S) (walFilename : string) (m m' : DeltaFileManager Folder)
    (reader : WalDeltaRecordingReader S) (sizes : list nat) :
  NewWalDeltaRecordingReader file walFilename m = (Ok reader, m') ->
  whole_pages (length (avail file)) = true ->
  exists reader' m'', reads sizes reader m' =
    (take (sum_list sizes) (avail file),
     if (sum_list sizes <=? length (avail file))%nat then None else Some EOF, reader', m'') /\
    ((length (avail file) < sum_list sizes)%nat ->
     PageDataLeftover reader' = replicate pageLen Byte.x00).
Proof.
  unfold NewWalDeltaRecordingReader. intros Hn Hw.
  destruct (tryOpenParserAndRecorders walFilename m) as [[[[p c] w]|] m1]; [|done].
  injection Hn as <- <-. exact (reads_ok sizes (mkRecordingReader file p [] (Some c) w true) m1 Hw).
Qed.

(** A data folder of files by name. *)
#[export] Instance gmapDataFolder : DataFolder (gmap string (list byte)) := {
  OpenReadonlyFile := fun folder name =>
    match folder !! name with Some bs => Ok bs | None => Err (NoSuchFileError name) end;
  WriteFile := fun folder name bs => (None, <[name := bs]> folder);
  CleanFolder := fun folder => (None, ∅)
}.

Lemma recording_reader_transparent_witness :
  let m := NewDeltaFileManager (∅ : gmap string (list byte)) in
  let file : bytesReader := replicate pageLen Byte.x07 in
  let cfg := DefaultWalConfig in
  exists reader m' reader' m'',
    NewWalDeltaRecordingReader file "000000010000000000000003" m = (Ok reader, m') /\
    reads [100; pageLen]%nat reader m' = (file, Some EOF, reader', m'').
Proof.
  cbv zeta. set (m := NewDeltaFileManager (∅ : gmap string (list byte))).
  set (file := replicate pageLen Byte.x07 : bytesReader).
  destruct (@NewWalDeltaRecordingReader DefaultWalConfig _ _ _ file "000000010000000000000003" m)
    as [[reader|e] m'] eqn:E; [|exfalso; vm_compute in E; discriminate].
  exists reader, m'.
  destruct (@recording_reader_transparent DefaultWalConfig _ _ _ _ _ file "000000010000000000000003"
    m m' reader [100; pageLen]%nat E) as (reader' & m'' & Hr & _).
  - vm_compute. reflexivity.
  - exists reader', m''. split; [done|]. rewrite Hr. repeat f_equal.
Defined.

(** ** Lemmas: the part file of a delta *)

(** What the recorders of a timeline's WAL files save, by segment number. *)
Inductive PartOp :=
| TailOp (segment : Z) (data : list byte)
| HeadOp (segment : Z) (data : list byte).

(** The last data saved as a piece. *)
Fixpoint tail_saved (segment : Z) (ops : list PartOp) : option (list byte) :=
  match ops with
  | [] => None
  | op :: ops =>
      match tail_saved segment ops, op with
      | Some data, _ => Some data
      | None, TailOp s data => if s =? segment then Some data else None
      | None, HeadOp _ _ => None
      end
  end.

Fixpoint head_saved (segment : Z) (ops : list PartOp) : option (list byte) :=
  match ops with
  | [] => None
  | op :: ops =>
      match head_saved segment ops, op with
      | Some data, _ => Some data
      | None, HeadOp s data => if s =? segment then Some data else None
      | None, TailOp _ _ => None
      end
  end.

Definition op_segment (op : PartOp) : Z := match op with TailOp s _ | HeadOp s _ => s end.

(** What an operation does to the part file of the delta [d]. *)
Definition apply_op (d : Z) (op : PartOp) (f : WalPartFile) : WalPartFile :=
  match op with
  | TailOp s data =>
      if s - s mod 16 =? d then
        mkPartFile (<[Z.to_nat (s mod 16) := Some data]> (WalTails f)) (PreviousWalHead f) (WalHeads f)
      else f
  | HeadOp s data =>
      let f := if s - s mod 16 =? d then
        mkPartFile (WalTails f) (PreviousWalHead f) (<[Z.to_nat (s mod 16) := Some data]> (WalHeads f))
      else f in
      if s + 1 =? d then mkPartFile (WalTails f) (Some data) (WalHeads f) else f
  end.

Section PartLemmas.
Context {cfg : WalConfig} {ok : WalConfigOk cfg} {Folder : Type} `{DataFolder Folder}.
Notation Manager := (DeltaFileManager Folder).
Implicit Types m : Manager.

Definition partOf (deltaFilename : string) m : res pgError WalPartFile := fst (GetPartFile deltaFilename m).

Definition modifyPart (deltaFilename : string) (g : WalPartFile -> WalPartFile) m : Manager :=
  updatePartFile deltaFilename g (snd (GetPartFile deltaFilename m)).

Lemma ToPartFilename_inj a b : ToPartFilename a = ToPartFilename b -> a = b.
Proof.
  unfold ToPartFilename. intros Hab. rewrite <- (TrimSuffix_app a PartFilenameSuffix), Hab.
  apply TrimSuffix_app.
Qed.

Lemma partOf_lookup name m :
  partOf name m = match PartFiles m !! ToPartFilename name with
                  | Some f => Ok f
                  | None => loadPartFile (dataFolder m) (ToPartFilename name)
                  end.
Proof.
  unfold partOf, GetPartFile, LazyCache.Load. destruct (PartFiles m !! _); [done|].
  by destruct (loadPartFile _ _).
Qed.

Lemma modifyPart_parts name g m f :
  partOf name m = Ok f ->
  modifyPart name g m = set_parts m (<[ToPartFilename name := g f]> (PartFiles m)).
Proof.
  unfold partOf, modifyPart, updatePartFile, GetPartFile, LazyCache.Load. intros Hf.
  destruct (PartFiles m !! ToPartFilename name) as [f'|] eqn:E; cbn in *; simplify_eq.
  - unfold set_parts. cbn. f_equal. apply map_eq. intros i.
    destruct (decide (i = ToPartFilename name)) as [->|].
    + by rewrite lookup_alter_eq, lookup_insert_eq, E.
    + by rewrite lookup_alter_ne, lookup_insert_ne by done.
  - destruct (loadPartFile _ _) as [f'|] eqn:El; cbn in *; simplify_eq.
    unfold set_parts. cbn. f_equal. apply map_eq. intros i.
    destruct (decide (i = ToPartFilename name)) as [->|].
    + by rewrite lookup_alter_eq, !lookup_insert_eq.
    + by rewrite lookup_alter_ne, !lookup_insert_ne by done.
Qed.

Lemma partOf_modify name name' g m f :
  partOf name' m = Ok f ->
  partOf name (modifyPart name' g m) = (if decide (name = name') then Ok (g f) else partOf name m) /\
  dataFolder (modifyPart name' g m) = dataFolder m.
Proof.
  intros Hf. rewrite (modifyPart_parts _ _ _ _ Hf), !partOf_lookup. split; [|done]. cbn.
  destruct (decide (name = name')) as [->|Hne].
  - by rewrite lookup_insert_eq.
  - by rewrite lookup_insert_ne by (by intros ?%ToPartFilename_inj).
Qed.

(** The delta file's name that starts at a segment. *)
Definition deltaName (t d : Z) : string := toDeltaFilename (formatWALFileName t d).

Lemma deltaName_inj t d d' : name_ok t d = true -> name_ok t d' = true ->
  deltaName t d = deltaName t d' -> d = d'.
Proof.
  unfold deltaName, toDeltaFilename. intros H1 H2 He.
  assert (formatWALFileName t d = formatWALFileName t d') as Hf.
  { rewrite <- (TrimSuffix_app (formatWALFileName t d) DeltaFilenameSuffix), He. apply TrimSuffix_app. }
  pose proof (ParseWALFilename_format t d H1) as Hp. rewrite Hf, ParseWALFilename_format in Hp by done.
  congruence.
Qed.

Lemma delta_names t s : name_ok t s = true ->
  GetDeltaFilenameFor (formatWALFileName t s) = Ok (deltaName t (s - s mod 16)) /\
  deltaNameOf (formatWALFileName t s) = deltaName t (s - s mod 16) /\
  GetPositionInDelta (formatWALFileName t s) = s mod 16 /\
  (name_ok t (s + 1) = true -> nextNameOf (formatWALFileName t s) = formatWALFileName t (s + 1)).
Proof.
  intros Hok. destruct (name_parts t s Hok) as (_ & _ & _ & Hs).
  assert (0 <= s) by (apply name_ok_spec in Hok; lia).
  pose proof (Z.mod_pos_bound s 16). pose proof (Z.mod_le s 16). pose proof (per_bound).
  unfold deltaNameOf, nextNameOf, GetDeltaFilenameFor, GetNextWalFilename, GetPositionInDelta.
  rewrite ParseWALFilename_format by done. cbn -[Z.modulo Z.sub Z.add wrap formatWALFileName].
  unfold WalFileInDelta. rewrite (wrap_id 64 (s - _)) by (unfold in_width; lia).
  split_and!; try done. intros Hn. destruct (name_parts _ _ Hn) as (_ & _ & _ & ?).
  f_equal. apply wrap_id. unfold in_width. lia.
Qed.

Definition runOp (t : Z) (op : PartOp) m : option pgError * Manager :=
  match op with
  | TailOp s data => SavePreviousWalTail (formatWALFileName t s) data m
  | HeadOp s data => SaveNextWalHead (formatWALFileName t s) data m
  end.

(** One operation after the other, with their errors. *)
Fixpoint runOps (t : Z) (ops : list PartOp) m : list pgError * Manager :=
  match ops with
  | [] => ([], m)
  | op :: ops =>
      let '(err, m) := runOp t op m in
      let '(errs, m) := runOps t ops m in
      (match err with Some err => [err] | None => [] end ++ errs, m)
  end.

Definition op_ok (t : Z) (op : PartOp) : bool := name_ok t (op_segment op) && name_ok t (op_segment op + 1).

(** Every part file that was kept can be loaded. *)
Definition loadable m : Prop := forall name, exists f, partOf name m = Ok f.

Lemma modify_loadable name g m : loadable m -> loadable (modifyPart name g m).
Proof.
  intros Hm name'. destruct (Hm name) as [f Hf], (Hm name') as [f' Hf'].
  rewrite (proj1 (partOf_modify name' name g m f Hf)). destruct (decide _); eauto.
Qed.

Lemma GetPartFile_ok name m f : partOf name m = Ok f ->
  GetPartFile name m = (Ok f, snd (GetPartFile name m)).
Proof. unfold partOf. destruct (GetPartFile name m) as [[] ?]; cbn; intros; by simplify_eq. Qed.

(** What a change of the part file of a segment is to the one of [d]. *)
Lemma modify_segment t d s g m f :
  name_ok t s = true -> name_ok t d = true -> d mod 16 = 0 -> loadable m -> partOf (deltaName t d) m = Ok f ->
  partOf (deltaName t d) (modifyPart (deltaName t (s - s mod 16)) g m) = Ok (if s - s mod 16 =? d then g f else f).
Proof.
  intros Hs Hd Hd16 Hm Hf. destruct (Hm (deltaName t (s - s mod 16))) as [f1 Hf1].
  rewrite (proj1 (partOf_modify _ _ _ _ _ Hf1)). destruct (decide _) as [He|He].
  - symmetry in He. pose proof He as He'. apply deltaName_inj in He; [|by apply name_ok_delta|done]. rewrite He, Z.eqb_refl. congruence.
  - rewrite (proj2 (Z.eqb_neq _ _)); [done|]. by intros <-.
Qed.

Lemma runOp_ok t d op m f :
  op_ok t op = true -> name_ok t d = true -> d mod 16 = 0 -> loadable m ->
  partOf (deltaName t d) m = Ok f ->
  exists m', runOp t op m = (None, m') /\ loadable m' /\
    partOf (deltaName t d) m' = Ok (apply_op d op f).
Proof.
  unfold op_ok. intros Hop Hd Hd16 Hm Hf. bool_to_prop.
  destruct op as [s data|s data]; cbn [op_segment runOp apply_op] in *;
    destruct (delta_names t s) as (Hdn & Hdo & Hpos & Hnext); [done| |done|].
  - unfold SavePreviousWalTail. rewrite Hdn, Hpos.
    destruct (Hm (deltaName t (s - s mod 16))) as [f1 Hf1]. rewrite (GetPartFile_ok _ _ _ Hf1).
    eexists. split; [reflexivity|]. fold (modifyPart (deltaName t (s - s mod 16))
      (fun partFile => mkPartFile (<[Z.to_nat (s mod 16) := Some data]> (WalTails partFile))
         (PreviousWalHead partFile) (WalHeads partFile)) m).
    split; [by apply modify_loadable|]. rewrite (modify_segment t d s _ m f) by done. by destruct (_ =? d).
  - unfold SaveNextWalHead. rewrite Hdo, Hpos.
    destruct (Hm (deltaName t (s - s mod 16))) as [f1 Hf1]. rewrite (GetPartFile_ok _ _ _ Hf1).
    set (g := fun partFile => mkPartFile (WalTails partFile) (PreviousWalHead partFile)
      (<[Z.to_nat (s mod 16) := Some data]> (WalHeads partFile))).
    fold (modifyPart (deltaName t (s - s mod 16)) g m).
    pose proof (modify_loadable (deltaName t (s - s mod 16)) g m Hm) as Hm1.
    pose proof (modify_segment t d s g m f) as Hf2. do 5 (specialize (Hf2 ltac:(done))).
    set (m1 := modifyPart _ g m) in *. clearbody m1. subst g. cbv beta in Hf2.
    unfold WalFileInDelta. destruct (s mod 16 =? 16 - 1) eqn:E; bool_to_prop.
    + rewrite Hnext by done. destruct (delta_names t (s + 1)) as (_ & Hdo' & _); [done|]. rewrite Hdo'.
      destruct (Hm1 (deltaName t (s + 1 - (s + 1) mod 16))) as [f3 Hf3]. rewrite (GetPartFile_ok _ _ _ Hf3).
      set (g := fun partFile => mkPartFile (WalTails partFile) (Some data) (WalHeads partFile)).
      fold (modifyPart (deltaName t (s + 1 - (s + 1) mod 16)) g m1).
      eexists. split; [reflexivity|]. split; [by apply modify_loadable|].
      erewrite (modify_segment t d (s + 1) g m1) by done.
      assert (s + 1 - (s + 1) mod 16 = s + 1) as ->.
      { pose proof (Z.add_mod_idemp_l s 1 16). rewrite E in *. change ((16 - 1 + 1) mod 16) with 0 in *. lia. }
      by destruct (s + 1 =? d).
    + eexists. split; [reflexivity|]. split; [done|]. rewrite Hf2.
      rewrite (proj2 (Z.eqb_neq (s + 1) d)); [done|]. intros <-.
      pose proof (Z.mod_pos_bound s 16). pose proof (Z.add_mod_idemp_l s 1 16) as Hi.
      rewrite Hd16, (Z.mod_small (s mod 16 + 1)) in Hi by lia. lia.
Qed.

Lemma runOps_ok t d ops : forall m f,
  forallb (op_ok t) ops = true -> name_ok t d = true -> d mod 16 = 0 -> loadable m ->
  partOf (deltaName t d) m = Ok f ->
  exists m', runOps t ops m = ([], m') /\
    partOf (deltaName t d) m' = Ok (foldl (fun f op => apply_op d op f) f ops).
Proof.
  induction ops as [|op ops IH]; intros m f Hok Hd Hd16 Hm Hf; cbn [runOps foldl]; [by eauto|].
  cbn in Hok. bool_to_prop.
  destruct (runOp_ok t d op m f) as (m1 & Hr & Hm1 & Hf1); [done..|]. rewrite Hr.
  destruct (IH m1 _ ltac:(done) Hd Hd16 Hm1 Hf1) as (m2 & Hrs & Hf2). rewrite Hrs. eauto.
Qed.
End PartLemmas.

(** The pieces after the operations: the last saved ones over the earlier. *)
Record pieces_after (d : Z) (ops : list PartOp) (f0 f : WalPartFile) : Prop := {
  pa_tails : forall i, (i < 16)%nat -> WalTails f !! i =
    Some (tail_saved (d + Z.of_nat i) ops ∪ default None (WalTails f0 !! i));
  pa_prev : PreviousWalHead f = head_saved (d - 1) ops ∪ PreviousWalHead f0;
  pa_heads : forall i, (i < 16)%nat -> WalHeads f !! i =
    Some (head_saved (d + Z.of_nat i) ops ∪ default None (WalHeads f0 !! i));
  pa_length : length (WalTails f) = 16%nat /\ length (WalHeads f) = 16%nat
}.

Lemma insert_piece (l : list (option (list byte))) s d i data : d mod 16 = 0 -> length l = 16%nat -> (i < 16)%nat ->
  (if s - s mod 16 =? d then <[Z.to_nat (s mod 16) := Some data]> l else l) !! i =
  Some (if s =? d + Z.of_nat i then Some data else default None (l !! i)).
Proof.
  intros Hd Hl Hi. pose proof (Z.mod_pos_bound s 16). pose proof (Z.div_mod s 16).
  pose proof (Z.div_mod d 16).
  destruct (l !! i) as [x|] eqn:Ei; [|apply lookup_ge_None in Ei; lia].
  destruct (s =? d + Z.of_nat i) eqn:Es; bool_to_prop.
  - assert (s / 16 = d / 16) by (symmetry; apply (Z.div_unique s 16 _ (Z.of_nat i)); lia).
    rewrite (proj2 (Z.eqb_eq _ _)) by lia.
    replace (Z.to_nat (s mod 16)) with i by lia. apply list_lookup_insert_eq. lia.
  - case_bool; bool_to_prop; [|done]. rewrite list_lookup_insert_ne by lia. done.
Qed.

Lemma apply_pieces d op ops f0 f : d mod 16 = 0 ->
  length (WalTails f0) = 16%nat -> length (WalHeads f0) = 16%nat ->
  pieces_after d ops (apply_op d op f0) f -> pieces_after d (op :: ops) f0 f.
Proof.
  intros Hd Ht Hh [Ha Hb Hc Hl].
  assert (forall (x : option (list byte)) y, x ∪ y = match x with Some x => Some x | None => y end) as Hu
    by (by intros [] []).
  destruct op as [s data|s data]; cbn [apply_op] in *; split; try exact Hl;
    cbn [tail_saved head_saved]; intros; rewrite ?Ha, ?Hb, ?Hc by done.
  - assert (default None (WalTails (if s - s mod 16 =? d then _ else f0) !! i) =
      (if s =? d + Z.of_nat i then Some data else default None (WalTails f0 !! i))) as ->.
    { transitivity (default None ((if s - s mod 16 =? d then
        <[Z.to_nat (s mod 16) := Some data]> (WalTails f0) else WalTails f0) !! i));
        [by destruct (s - s mod 16 =? d)|by rewrite insert_piece]. }
    rewrite !Hu. by destruct (tail_saved (d + Z.of_nat i) ops), (s =? d + Z.of_nat i).
  - rewrite !Hu. by destruct (head_saved (d - 1) ops), (s - s mod 16 =? d).
  - rewrite !Hu. by destruct (head_saved (d + Z.of_nat i) ops), (s - s mod 16 =? d).
  - rewrite !Hu. by destruct (tail_saved (d + Z.of_nat i) ops), (s - s mod 16 =? d), (s + 1 =? d).
  - rewrite !Hu. replace (s =? d - 1) with (s + 1 =? d)
      by (apply eq_bool_prop_intro; rewrite !Is_true_true, !Z.eqb_eq; lia).
    by destruct (head_saved (d - 1) ops), (s - s mod 16 =? d), (s + 1 =? d).
  - assert (default None (WalHeads (if s + 1 =? d then _ else _) !! i) =
      (if s =? d + Z.of_nat i then Some data else default None (WalHeads f0 !! i))) as ->.
    { transitivity (default None ((if s - s mod 16 =? d then
        <[Z.to_nat (s mod 16) := Some data]> (WalHeads f0) else WalHeads f0) !! i));
        [by destruct (s - s mod 16 =? d), (s + 1 =? d)|by rewrite insert_piece]. }
    rewrite !Hu. by destruct (head_saved (d + Z.of_nat i) ops), (s =? d + Z.of_nat i).
Qed.

Lemma foldl_pieces d ops : forall f0, d mod 16 = 0 ->
  length (WalTails f0) = 16%nat -> length (WalHeads f0) = 16%nat ->
  pieces_after d ops f0 (foldl (fun f op => apply_op d op f) f0 ops).
Proof.
  induction ops as [|op ops IH]; intros f0 Hd Ht Hh; cbn [foldl].
  - split; [intros i Hi| |intros i Hi|done]; cbn.
    + destruct (lookup_lt_is_Some_2 (WalTails f0) i) as [x Hx]; [lia|]. rewrite Hx. cbn. by destruct x.
    + by destruct (PreviousWalHead f0).
    + destruct (lookup_lt_is_Some_2 (WalHeads f0) i) as [x Hx]; [lia|]. rewrite Hx. cbn. by destruct x.
  - apply apply_pieces; try done. apply IH; [done| |];
      destruct op; cbn; repeat case_bool; cbn; by rewrite ?length_insert.
Qed.

Lemma forallb_nonNil (l : list (option (list byte))) : length l = 16%nat ->
  forallb nonNil l = true <-> (forall i, (i < 16)%nat -> default None (l !! i) <> None).
Proof.
  intros Hl. rewrite forallb_forall. split.
  - intros Ha i Hi. destruct (lookup_lt_is_Some_2 l i) as [x Hx]; [lia|]. rewrite Hx. cbn.
    specialize (Ha x). rewrite <- list_elem_of_In in Ha.
    specialize (Ha (list_elem_of_lookup_2 _ _ _ Hx)). by destruct x.
  - intros Ha x Hx. apply list_elem_of_In, list_elem_of_lookup in Hx as [i Hi].
    pose proof (lookup_lt_Some _ _ _ Hi). specialize (Ha i ltac:(lia)). rewrite Hi in Ha. by destruct x.
Qed.

Lemma complete_pieces d ops f : pieces_after d ops NewWalPartFile f ->
  IsComplete f = true <->
  head_saved (d - 1) ops <> None /\
  (forall i, (i < 16)%nat -> tail_saved (d + Z.of_nat i) ops <> None /\
     head_saved (d + Z.of_nat i) ops <> None).
Proof.
  intros [Ha Hb Hc [Hl Hl']]. unfold IsComplete. rewrite !andb_true_iff, !forallb_nonNil by done.
  assert (forall (x : option (list byte)), x ∪ None = x) as Hu by (by intros []).
  assert (forall l : list (option (list byte)), l = replicate 16 None -> forall i, default None (l !! i) = None) as Hr.
  { intros l -> i. destruct (replicate 16 None !! i) eqn:E; [|done]. by apply lookup_replicate in E as [-> _]. }
  rewrite Hb. cbn [PreviousWalHead NewWalPartFile]. rewrite Hu. split.
  - intros [[H1 H2] H3]. split; [by destruct (head_saved _ _)|]. intros i Hi.
    specialize (H1 i Hi). specialize (H3 i Hi). rewrite Ha, Hc in * by done. cbn in H1, H3.
    rewrite Hr, Hu in * by done. done.
  - intros [H1 H2]. split; [split|].
    + intros i Hi. rewrite Ha by done. cbn. rewrite (Hr _ eq_refl), Hu. by apply H2.
    + by destruct (head_saved _ _).
    + intros i Hi. rewrite Hc by done. cbn. rewrite (Hr _ eq_refl), Hu. by apply H2.
Qed.

(** C20: the part file of a delta is put together from what the recorders of
    its WAL files, and of the one before it, save, in whatever order the files
    are recorded: no operation fails, every piece is the last one saved for
    it (or the one kept from earlier runs), files of other deltas do not
    disturb it, and from an empty part file it is complete exactly when the
    sixteen tails, the sixteen heads and the head of the file before are all
    there. *)
Theorem part_file_assembled {cfg : WalConfig} {ok : WalConfigOk cfg} {Folder} `{DataFolder Folder}
    (t d : Z) (ops : list PartOp) (m : DeltaFileManager Folder) (f0 : WalPartFile) :
  forallb (op_ok t) ops = true -> name_ok t d = true -> d mod 16 = 0 -> loadable m ->
  partOf (deltaName t d) m = Ok f0 -> length (WalTails f0) = 16%nat -> length (WalHeads f0) = 16%nat ->
  exists m' f, runOps t ops m = ([], m') /\ partOf (deltaName t d) m' = Ok f /\
    pieces_after d ops f0 f /\
    (f0 = NewWalPartFile ->
     IsComplete f = true <->
     head_saved (d - 1) ops <> None /\
     (forall i, (i < 16)%nat -> tail_saved (d + Z.of_nat i) ops <> None /\
        head_saved (d + Z.of_nat i) ops <> None)).
Proof.
  intros Hok Hd Hd16 Hm Hf Ht Hh.
  destruct (runOps_ok t d ops m f0) as (m' & Hr & Hf'); [done..|].
  pose proof (foldl_pieces d ops f0 Hd16 Ht Hh) as Hp.
  do 2 eexists. split; [exact Hr|]. split; [exact Hf'|]. split; [exact Hp|].
  intros ->. by apply complete_pieces.
Qed.

Lemma part_file_assembled_witness :
  let cfg := DefaultWalConfig in
  let m := NewDeltaFileManager (∅ : gmap string (list byte)) in
  exists m' f,
    runOps 1 [HeadOp 31 [Byte.x01]; TailOp 32 [Byte.x02]; HeadOp 32 []; TailOp 33 []] m = ([], m') /\
    partOf (deltaName 1 32) m' = Ok f /\ IsComplete f <> true /\
    PreviousWalHead f = Some [Byte.x01] /\ WalTails f !! 0%nat = Some (Some [Byte.x02]).
Proof.
  cbv zeta.
  destruct (@part_file_assembled DefaultWalConfig DefaultWalConfig_ok _ _ 1 32
    [HeadOp 31 [Byte.x01]; TailOp 32 [Byte.x02]; HeadOp 32 []; TailOp 33 []]
    (NewDeltaFileManager (∅ : gmap string (list byte))) NewWalPartFile)
    as (m' & f & Hr & Hf & [Ha Hb Hc Hl] & Hcomplete).
  - reflexivity.
  - reflexivity.
  - reflexivity.
  - intros name. exists NewWalPartFile. reflexivity.
  - reflexivity.
  - reflexivity.
  - reflexivity.
  - exists m', f. split; [exact Hr|]. split; [exact Hf|]. split; [|split].
    + intros Hi. destruct (proj1 (Hcomplete eq_refl) Hi) as [_ Hn].
      destruct (Hn 5%nat ltac:(lia)) as [Hn' _]. by apply Hn'.
    + rewrite Hb. reflexivity.
    + rewrite Ha by lia. reflexivity.
Defined.

(** ** Lemmas: flushing *)

Lemma Consume_ok w :
  Consume w = mkChanWriter (mkDeltaFile (Locations (deltaFile w) ++ BlockLocationConsumer w)
    (dfWalParser (deltaFile w))) [].
Proof.
  unfold Consume. destruct w as [[ls p] c]. cbn [BlockLocationConsumer deltaFile Locations dfWalParser].
  revert ls. induction c as [|l c IH]; intros ls; [by rewrite app_nil_r|].
  cbn [length]. rewrite Nat.iter_succ_r. cbn [consume1 BlockLocationConsumer deltaFile Locations dfWalParser].
  rewrite IH. by rewrite <- app_assoc.
Qed.

(** Appending earlier makes no difference to the file written in the end. *)
Lemma Consume_consume1 w : Consume (consume1 w) = Consume w.
Proof.
  rewrite !Consume_ok. destruct w as [[ls p] [|l c]]; [done|]. cbn. by rewrite <- app_assoc.
Qed.

Section FlushLemmas.
Context {cfg : WalConfig} {Folder : Type} `{DataFolder Folder}.
Notation Manager := (DeltaFileManager Folder).
Implicit Types m : Manager.

Lemma sendAll_ok name locations : forall m,
  (forall n, DeltaFileWriters (sendAll name locations m) !! n =
     if decide (n = name) then
       (fun w => mkChanWriter (deltaFile w) (BlockLocationConsumer w ++ locations)) <$> DeltaFileWriters m !! n
     else DeltaFileWriters m !! n) /\
  CanceledDeltaFiles (sendAll name locations m) = CanceledDeltaFiles m.
Proof.
  unfold sendAll. induction locations as [|l ls IH]; intros m; cbn [foldl].
  - split; [|done]. intros n. case_decide; [|done].
    destruct (DeltaFileWriters m !! n) as [[f c]|]; [|done]. cbn. by rewrite app_nil_r.
  - destruct (IH (sendTo name l m)) as [Hw Hc]. split; [|by rewrite Hc].
    intros n. rewrite Hw. unfold sendTo. cbn [DeltaFileWriters set_writers].
    destruct (decide (n = name)) as [->|]; [|by rewrite lookup_alter_ne].
    rewrite lookup_alter_eq. destruct (DeltaFileWriters m !! name) as [[f c]|]; [|done].
    cbn. by rewrite <- app_assoc.
Qed.

(** What the flush of the part files does to one delta: its writer, whether
    it is cancelled, whether its part file is complete. *)
Definition delta_state : Type := option DeltaFileChanWriter * bool * bool.

Definition view (name : string) (st : Manager * gset string) : delta_state :=
  (DeltaFileWriters (fst st) !! name, bool_decide (name ∈ CanceledDeltaFiles (fst st)),
   bool_decide (ToPartFilename name ∈ snd st)).

(** The writer after [CombinePartFile], with all that was sent. *)
Definition combined (pf : WalPartFile) (records : list XLogRecord) (w : DeltaFileChanWriter)
  : DeltaFileChanWriter :=
  mkChanWriter (mkDeltaFile (Locations (deltaFile w))
      (LoadWalParserFromCurrentRecordHead (bytesOf (nth 15 (WalHeads pf) None))))
    (BlockLocationConsumer w ++ ExtractBlockLocations records).

Lemma flush_other name key pf st st' b :
  key <> name -> flushPartFile (ToPartFilename key) pf st = (b, st') ->
  b = true /\ view name st' = view name st.
Proof.
  destruct st as [m c]. unfold flushPartFile, partFilenameToDelta, ToPartFilename.
  rewrite TrimSuffix_app. fold (ToPartFilename key). intros Hne.
  assert (Hpart : bool_decide (ToPartFilename name ∈ {[ToPartFilename key]} ∪ c) =
    bool_decide (ToPartFilename name ∈ c)).
  { apply bool_decide_ext. rewrite elem_of_union, elem_of_singleton.
    split; [intros [He|]; [|done]|auto]. apply ToPartFilename_inj in He. congruence. }
  assert (Hcan : forall s : gset string, bool_decide (name ∈ {[key]} ∪ s) = bool_decide (name ∈ s)).
  { intros s. apply bool_decide_ext. set_solver. }
  case_bool; [by intros [= <- <-]|]. destruct (IsComplete pf).
  - unfold CombinePartFile, LazyCache.LoadExisting.
    destruct (DeltaFileWriters m !! key) as [w|] eqn:Ew.
    + destruct (CombineRecords pf) as [records|e].
      * intros [= <- <-]. split; [done|]. unfold view. cbn [fst snd].
        rewrite (proj1 (sendAll_ok _ _ _)), (proj2 (sendAll_ok _ _ _)), decide_False by done.
        cbn. by rewrite lookup_insert_ne, Hpart by done.
      * intros [= <- <-]. split; [done|]. unfold view. cbn.
        by rewrite lookup_insert_ne, Hpart, Hcan by done.
    + intros [= <- <-]. split; [done|]. unfold view. cbn. by rewrite Hpart, Hcan.
  - destruct (SaveToDataFolder _ _ _) as [[e|] folder]; intros [= <- <-]; (split; [done|]);
      unfold view; cbn; by rewrite ?Hcan.
Qed.

(** The delta of a part file is uploaded when it ends neither cancelled nor
    incomplete. *)
Lemma flush_same name pf st st' b w' :
  ToPartFilename name ∉ snd st ->
  flushPartFile (ToPartFilename name) pf st = (b, st') ->
  b = true /\
  (view name st' = (Some w', false, true) <->
   exists w records, view name st = (Some w, false, false) /\ IsComplete pf = true /\
     CombineRecords pf = Ok records /\ w' = combined pf records w).
Proof.
  destruct st as [m c]. unfold flushPartFile, partFilenameToDelta, ToPartFilename.
  rewrite TrimSuffix_app. fold (ToPartFilename name). cbn [snd]. intros Hc.
  unfold view. cbn [fst snd]. rewrite (bool_decide_eq_false_2 (_ ∈ c)) by done.
  destruct (bool_decide (name ∈ CanceledDeltaFiles m)) eqn:Ecan.
  { intros [= <- <-]. split; [done|]. cbn. rewrite Ecan. split; [done|]. by intros (? & ? & [=] & _). }
  destruct (IsComplete pf).
  - unfold CombinePartFile, LazyCache.LoadExisting.
    destruct (DeltaFileWriters m !! name) as [w|] eqn:Ew.
    + destruct (CombineRecords pf) as [records|e].
      * intros [= <- <-]. split; [done|]. cbn [fst snd].
        rewrite (proj1 (sendAll_ok _ _ _)), (proj2 (sendAll_ok _ _ _)), decide_True by done.
        cbn [set_writers DeltaFileWriters CanceledDeltaFiles]. rewrite lookup_insert_eq, Ecan.
        rewrite bool_decide_eq_true_2 by set_solver. cbn -[ExtractBlockLocations]. split.
        -- intros [= <-]. by exists w, records.
        -- intros (? & ? & ? & _ & ? & ->). simplify_eq. done.
      * intros [= <- <-]. split; [done|]. cbn. rewrite (bool_decide_eq_true_2 (name ∈ _)) by set_solver.
        split; [done|]. by intros (? & ? & _ & _ & ? & _).
    + intros [= <- <-]. split; [done|]. cbn. rewrite (bool_decide_eq_true_2 (name ∈ _)) by set_solver.
      split; [done|]. by intros (? & ? & ? & _).
  - destruct (SaveToDataFolder _ _ _) as [[e|] folder]; intros [= <- <-]; (split; [done|]);
      cbn; rewrite (bool_decide_eq_false_2 (_ ∈ c)) by done; (split; [done|]);
      by intros (? & ? & _ & ? & _).
Qed.

Definition part_keys (entries : list (string * WalPartFile)) : Prop :=
  NoDup entries.*1 /\ (forall key, key ∈ entries.*1 -> exists name, key = ToPartFilename name).

Lemma Range_other name entries : forall st,
  part_keys entries -> ToPartFilename name ∉ entries.*1 ->
  view name (LazyCache.Range flushPartFile entries st) = view name st.
Proof.
  induction entries as [|[key pf] entries IH]; intros st [Hn Hk] Hni; cbn [LazyCache.Range]; [done|].
  cbn in *. apply NoDup_cons in Hn as [? Hn].
  destruct (Hk key) as [k ->]; [by left|].
  destruct (flushPartFile (ToPartFilename k) pf st) as [b st'] eqn:E.
  apply (flush_other name) in E as [-> E]; [|set_solver].
  rewrite IH; [done| |set_solver]. split; [done|]. intros ??. apply Hk. by right.
Qed.

Lemma Range_same name pf w' entries : forall st,
  part_keys entries -> (ToPartFilename name, pf) ∈ entries -> ToPartFilename name ∉ snd st ->
  view name (LazyCache.Range flushPartFile entries st) = (Some w', false, true) <->
  exists w records, view name st = (Some w, false, false) /\ IsComplete pf = true /\
    CombineRecords pf = Ok records /\ w' = combined pf records w.
Proof.
  induction entries as [|[key pf'] entries IH]; intros st [Hn Hk] Hin Hc; [by apply elem_of_nil in Hin|].
  cbn [LazyCache.Range]. cbn in Hn, Hk. apply NoDup_cons in Hn as [Hni Hn].
  assert (part_keys entries) as Hpk by (split; [done|]; intros; apply Hk; by right).
  apply elem_of_cons in Hin as [[= <- <-]|Hin].
  - destruct (flushPartFile _ pf st) as [b st'] eqn:E.
    apply (flush_same _ _ _ _ _ w') in E as [-> <-]; [|done]. by rewrite Range_other.
  - destruct (Hk key) as [k ->]; [by left|].
    destruct (flushPartFile (ToPartFilename k) pf' st) as [b st'] eqn:E.
    assert (ToPartFilename name ∈ entries.*1) by (apply list_elem_of_fmap; by exists (ToPartFilename name, pf)).
    apply (flush_other name) in E as [-> E]; [|set_solver]. rewrite IH, E; try done.
    intros Hc'. apply Hc. unfold view in E. injection E as _ _ E.
    rewrite bool_decide_eq_true_2 in E by done. symmetry in E. by apply bool_decide_eq_true in E.
Qed.

Definition uploaded_as (completed : gset string) m (name : string) (w : DeltaFileChanWriter)
    (data : list byte) : Prop :=
  name ∉ CanceledDeltaFiles m /\ ToPartFilename name ∈ completed /\
  DFile.Save (deltaFile w) = (data, None).

Lemma flushDeltaFile_step completed key w m uploads :
  exists m' (new : Uploads), flushDeltaFile completed key w (m, uploads) = (true, (m', uploads ++ new)) /\
    CanceledDeltaFiles m' = CanceledDeltaFiles m /\ NoDup new.*1 /\
    (forall name data, (name, data) ∈ new <-> name = key /\ uploaded_as completed m name w data).
Proof.
  unfold flushDeltaFile, uploaded_as. case_bool; bool_to_prop; [|case_bool; bool_to_prop].
  - exists m, []. rewrite app_nil_r. split_and!; try done; [constructor|].
    intros. rewrite elem_of_nil. naive_solver.
  - destruct (DFile.Save (deltaFile w)) as [data [e|]] eqn:Es.
    + exists m, []. rewrite app_nil_r. split_and!; try done; [constructor|].
      intros. rewrite elem_of_nil. naive_solver.
    + exists m, [(key, data)]. split_and!; try done; [apply NoDup_singleton|].
      intros. rewrite list_elem_of_singleton. naive_solver.
  - destruct (SaveToDataFolder _ _ _) as [e folder].
    exists (set_folder m folder), []. rewrite app_nil_r. split_and!; try done; [constructor|].
    intros. rewrite elem_of_nil. naive_solver.
Qed.

Lemma RangeDelta completed entries : forall m uploads, NoDup entries.*1 ->
  exists m' new, LazyCache.Range (flushDeltaFile completed) entries (m, uploads) = (m', uploads ++ new) /\
  NoDup new.*1 /\
  (forall name data, (name, data) ∈ new <-> exists w, (name, w) ∈ entries /\ uploaded_as completed m name w data).
Proof.
  induction entries as [|[key w] entries IH]; intros m uploads Hnd; cbn [LazyCache.Range].
  - exists m, []. rewrite app_nil_r. split_and!; [done|constructor|]. intros. rewrite elem_of_nil.
    setoid_rewrite elem_of_nil. naive_solver.
  - apply NoDup_cons in Hnd as [Hk Hnd].
    destruct (flushDeltaFile_step completed key w m uploads) as (m1 & new1 & -> & Hc & Hn1 & Hin1).
    cbv beta iota.
    destruct (IH m1 (uploads ++ new1) Hnd) as (m2 & new2 & -> & Hn2 & Hin2).
    exists m2, (new1 ++ new2). rewrite app_assoc. split; [done|].
    assert (forall name w data, uploaded_as completed m1 name w data <-> uploaded_as completed m name w data) as Hu
      by (unfold uploaded_as; by rewrite Hc).
    setoid_rewrite Hu in Hin2. split.
    + rewrite fmap_app. apply NoDup_app. split_and!; [done| |done].
      intros n ([? dat] & -> & Hn)%list_elem_of_fmap ([? dat'] & ? & Hn')%list_elem_of_fmap.
      cbn in *. simplify_eq. apply Hin1 in Hn as [-> _]. apply Hin2 in Hn' as (w' & Hw' & _).
      apply Hk, list_elem_of_fmap. by exists (key, w').
    + intros name data. rewrite elem_of_app, Hin1, Hin2. setoid_rewrite elem_of_cons. naive_solver.
Qed.
End FlushLemmas.

(** C21: what [FlushFiles] uploads, in whatever order the caches are ranged
    over: a delta file exactly when its recording was not cancelled, its part
    file is complete and its records parse, and then once, with the locations
    that were recorded followed by those of the records that cross file ends,
    and a parser at the last file's unfinished record. *)
Theorem FlushFiles_uploads {cfg : WalConfig} {Folder} `{DataFolder Folder} (m : DeltaFileManager Folder)
    partOrder deltaOrder uploads m' :
  (forall pm, partOrder pm ≡ₚ map_to_list pm) -> (forall wm, deltaOrder wm ≡ₚ map_to_list wm) ->
  (forall key, is_Some (PartFiles m !! key) -> exists name, key = ToPartFilename name) ->
  FlushFiles partOrder deltaOrder m = (uploads, m') ->
  NoDup uploads.*1 /\
  forall name data, (name, data) ∈ uploads <->
    name ∉ CanceledDeltaFiles (collectCanceledDeltaFiles m) /\
    exists pf w records,
      PartFiles m !! ToPartFilename name = Some pf /\ IsComplete pf = true /\
      DeltaFileWriters m !! name = Some w /\ CombineRecords pf = Ok records /\
      DFile.Save (mkDeltaFile
        (Locations (deltaFile w) ++ BlockLocationConsumer w ++ ExtractBlockLocations records)
        (LoadWalParserFromCurrentRecordHead (bytesOf (nth 15 (WalHeads pf) None)))) = (data, None).
Proof.
  intros Hpo Hdo Hkeys. unfold FlushFiles, FlushPartFiles, FlushDeltaFiles.
  set (m1 := collectCanceledDeltaFiles (set_folder m _)).
  assert (PartFiles (set_folder m (CleanFolder (dataFolder m)).2) = PartFiles m) as -> by done.
  pose proof (Hpo (PartFiles m)) as Hp. set (entries := partOrder (PartFiles m)) in *. clearbody entries.
  assert (part_keys entries) as Hpk.
  { split; [rewrite Hp; apply NoDup_fst_map_to_list|].
    intros key Hin. apply Hkeys. rewrite Hp in Hin.
    apply list_elem_of_fmap in Hin as ([k v] & -> & Hin). apply elem_of_map_to_list in Hin. by exists v. }
  assert (forall name pf, (ToPartFilename name, pf) ∈ entries <-> PartFiles m !! ToPartFilename name = Some pf) as Hent.
  { intros. by rewrite Hp, elem_of_map_to_list. }
  destruct (LazyCache.Range flushPartFile entries (m1, ∅)) as [m2 completed] eqn:Er.
  destruct (RangeDelta completed (deltaOrder (DeltaFileWriters (closeWriters m2))) (closeWriters m2) [])
    as (m3 & new & -> & Hnd & Hin).
  { rewrite (Hdo _). apply NoDup_fst_map_to_list. }
  intros [= <- _]. split; [done|]. intros name data. cbn [app]. rewrite Hin.
  setoid_rewrite Hdo. setoid_rewrite elem_of_map_to_list. unfold uploaded_as, closeWriters.
  cbn [DeltaFileWriters set_writers CanceledDeltaFiles]. setoid_rewrite lookup_fmap.
  transitivity (exists w, view name (m2, completed) = (Some w, false, true) /\
    DFile.Save (deltaFile (Consume w)) = (data, None)).
  { unfold view. cbn [fst snd]. split.
    - intros (w & Hw & Hc & Hp' & Hs). apply fmap_Some in Hw as (w0 & -> & ->).
      exists w0. rewrite bool_decide_eq_false_2, bool_decide_eq_true_2 by done. done.
    - intros (w & [= -> Hc Hp'] & Hs). exists (Consume w).
      apply bool_decide_eq_false in Hc. apply bool_decide_eq_true in Hp'. done. }
  rewrite <- Er. destruct (PartFiles m !! ToPartFilename name) as [pf|] eqn:Epf.
  - apply Hent in Epf as Hin'. setoid_rewrite (Range_same name pf _ entries (m1, ∅) Hpk Hin'); [|apply not_elem_of_empty].
    unfold view. cbn [fst snd]. rewrite (bool_decide_eq_false_2 (_ ∈ ∅)) by apply not_elem_of_empty.
    change (DeltaFileWriters m1) with (DeltaFileWriters m).
    change (CanceledDeltaFiles m1) with (CanceledDeltaFiles (collectCanceledDeltaFiles m)).
    split.
    + intros (w & (w0 & records & [= Hw0 Hc] & Hcomp & Hrec & ->) & Hs).
      apply bool_decide_eq_false in Hc. rewrite Consume_ok in Hs. split; [done|]. by exists pf, w0, records.
    + intros (Hc & pf' & w0 & records & [= <-] & Hcomp & Hw0 & Hrec & Hs).
      exists (combined pf records w0). rewrite Consume_ok. split; [|exact Hs].
      exists w0, records. rewrite Hw0, bool_decide_eq_false_2 by done. done.
  - rewrite Range_other by (done || (intros ([k pf] & Hk & Hin')%list_elem_of_fmap; cbn in Hk; subst k; apply Hent in Hin'; congruence)).
    split; [|naive_solver]. by intros (w & [=] & _).
Qed.

Definition ex_complete : WalPartFile :=
  mkPartFile (replicate 16 (Some [])) (Some []) (replicate 15 (Some []) ++ [Some [Byte.x0a]]).
Definition ex_manager : DeltaFileManager (gmap string (list byte)) :=
  mkManager ∅ {[ ToPartFilename "000000010000000000000010_delta" := ex_complete ]}
    {[ "000000010000000000000010_delta" :=
       mkChanWriter (mkDeltaFile [NewBlockLocation 1663 1 2 3] NewWalParser) [NewBlockLocation 1663 1 2 4] ]}
    ["000000010000000000000050"] ∅.

Lemma FlushFiles_uploads_witness :
  let '(uploads, _) := @FlushFiles DefaultWalConfig _ _ map_to_list map_to_list ex_manager in
  uploads.*1 = ["000000010000000000000010_delta"] /\
  exists data, ("000000010000000000000010_delta", data) ∈ uploads /\
    DFile.Save (mkDeltaFile [NewBlockLocation 1663 1 2 3; NewBlockLocation 1663 1 2 4]
      (mkWalParser [Byte.x0a] true)) = (data, None).
Proof.
  destruct (@FlushFiles DefaultWalConfig _ _ map_to_list map_to_list ex_manager) as [uploads m'] eqn:E.
  destruct (@FlushFiles_uploads DefaultWalConfig _ _ ex_manager map_to_list map_to_list uploads m')
    as [_ Hin]; [done|done| |exact E|].
  - intros key [v Hv]. cbn [PartFiles ex_manager] in Hv. apply lookup_singleton_Some in Hv as [<- _]. by eexists.
  - split; [apply (f_equal fst) in E; vm_compute in E; by subst|].
    eexists. split; [|reflexivity]. apply Hin. split.
    + apply (bool_decide_eq_true_1 _). vm_compute. reflexivity.
    + exists ex_complete. do 2 eexists. split_and!; vm_compute; reflexivity.
Defined.
