(* ===== verification/PagedFile.v ===== *)
(** * Files of pages

    Random access to a file ([os.File], a part of Go's standard library): the
    operations as a class, what the code relies on as its laws, and the
    in-memory file that satisfies them. A data file of PostgreSQL is read as
    a sequence of pages of [DatabasePageSize] bytes; [page f i] is the
    [i]-th one, and two files of whole pages are equal when their pages
    are. *)

From S2P Require Import Prelude GoIO WalRecord WalPage.
Local Open Scope nat_scope.

(** ** Bytes at an offset *)

Definition zero : byte := Byte.x00.

(** What [file.WriteAt] leaves: a write past the end fills the gap with
    zeros, a write of nothing does nothing. *)
Definition write_at (f : list byte) (off : nat) (p : list byte) : list byte :=
  match p with
  | [] => f
  | _ => resize off zero f ++ p ++ drop (off + length p) f
  end.

(** [len] bytes from [off], fewer at the end of the file. *)
Definition read_at (f : list byte) (off len : nat) : list byte :=
  take len (drop off f).

(** ** The operations on an open file *)

Class OsFile (T : Type) := {
  (** [ReadAt(p, off)] with [len(p) = n] *)
  ReadAt : T -> nat -> Z -> list byte * option error;
  WriteAt : T -> list byte -> Z -> option error * T;
  Truncate : T -> Z -> option error * T;
  (** [Stat().Size()] *)
  Stat : T -> res error Z;
  (** an empty file, as [os.O_CREATE] makes it *)
  Create : T
}.

(** A file on a disk that does not fail. *)
Class LawfulFile (T : Type) `{OsFile T} := {
  contents : T -> list byte;
  readAt_ok f (n off : nat) : n <= length (contents f) -> off <= length (contents f) - n ->
    ReadAt f n (Z.of_nat off) = (read_at (contents f) off n, None);
  readAt_short f (n off : nat) : length (contents f) < off + n -> 0 < n ->
    ReadAt f n (Z.of_nat off) = (drop off (contents f), Some EOF);
  writeAt_ok f p (off : nat) : exists f', WriteAt f p (Z.of_nat off) = (None, f') /\
    contents f' = write_at (contents f) off p;
  truncate_ok f (n : nat) : exists f', Truncate f (Z.of_nat n) = (None, f') /\
    contents f' = resize n zero (contents f);
  truncate_neg f z : (z < 0)%Z -> exists e, Truncate f z = (Some e, f);
  stat_ok f : Stat f = Ok (Z.of_nat (length (contents f)));
  create_ok : contents Create = []
}.

(** *** A file in memory *)

Definition memFile : Type := list byte.

#[export] Instance memFile_OsFile : OsFile memFile := {
  ReadAt f n off :=
    let bs := read_at f (Z.to_nat off) n in
    (bs, if length bs <? n then Some EOF else None);
  WriteAt f p off := if (off <? 0)%Z then (Some ForeignError, f)
                     else (None, write_at f (Z.to_nat off) p);
  Truncate f n := if (n <? 0)%Z then (Some ForeignError, f)
                  else (None, resize (Z.to_nat n) zero f);
  Stat f := Ok (Z.of_nat (length f));
  Create := []
}.

Lemma read_at_length f off n : off + n <= length f -> length (read_at f off n) = n.
Proof. intros. unfold read_at. rewrite length_take, length_drop. lia. Qed.

#[export] Program Instance memFile_Lawful : LawfulFile memFile := { contents f := f }.
Next Obligation.
  intros f n off H1 H2. cbn -[Nat.ltb]. rewrite Nat2Z.id.
  rewrite read_at_length by lia. by rewrite Nat.ltb_irrefl.
Qed.
Next Obligation.
  intros f n off Hs Hn. cbn -[Nat.ltb]. rewrite Nat2Z.id. unfold read_at.
  rewrite take_ge by (rewrite length_drop; lia). rewrite length_drop.
  by rewrite (proj2 (Nat.ltb_lt _ n)) by lia.
Qed.
Next Obligation.
  intros f p off. cbn. rewrite (proj2 (Z.ltb_ge _ _)) by lia. rewrite Nat2Z.id. eauto.
Qed.
Next Obligation.
  intros f n. cbn. rewrite (proj2 (Z.ltb_ge _ _)) by lia. rewrite Nat2Z.id. eauto.
Qed.
Next Obligation. intros f z Hz. cbn. rewrite (proj2 (Z.ltb_lt _ _)) by lia. eauto. Qed.
Next Obligation. done. Qed.
Next Obligation. done. Qed.

(** ** A seekable reader *)

(** [io.ReadSeeker]: [Seek(offset, io.SeekStart)]. *)
Class Seeker (S : Type) := Seek : S -> Z -> option error * S.

(** The bytes of a file do not change while it is read; [Seek] moves the
    reader to an offset of them. *)
Class LawfulSeeker (S : Type) `{LawfulReader S, Seeker S} := {
  bytes_of : S -> list byte;
  seek_ok s off : exists s', Seek s (Z.of_nat off) = (None, s') /\
    avail s' = drop off (bytes_of s) /\ bytes_of s' = bytes_of s;
  bytes_adv s k : bytes_of (adv s k) = bytes_of s
}.

(** *** A file opened for reading *)

Record openFile := mkOpen { allBytes : list byte; position : nat }.

(** [os.Open] *)
Definition Open (f : list byte) : openFile := mkOpen f 0.

#[export] Instance openFile_Reader : Reader openFile := fun s n =>
  match drop (position s) (allBytes s) with
  | [] => ([], Some EOF, s)
  | bs => (take n bs, None,
           mkOpen (allBytes s) (position s + Nat.min n (length bs)))
  end.

#[export] Program Instance openFile_Lawful : LawfulReader openFile :=
  { avail s := drop (position s) (allBytes s);
    adv s k := mkOpen (allBytes s) (position s + k) }.
Next Obligation.
  intros s n Hs Hn. unfold Read, openFile_Reader.
  by destruct (drop (position s) (allBytes s)) as [|b bs] eqn:E.
Qed.
Next Obligation. intros s n Hs Hn. unfold Read, openFile_Reader. by rewrite Hs. Qed.
Next Obligation. intros. cbn. by rewrite drop_drop. Qed.
Next Obligation. intros s j k. cbn. f_equal. lia. Qed.
Next Obligation. intros [f p]. cbn. f_equal. lia. Qed.

#[export] Instance openFile_Seeker : Seeker openFile := fun s off =>
  if (off <? 0)%Z then (Some ForeignError, s)
  else (None, mkOpen (allBytes s) (Z.to_nat off)).

#[export] Program Instance openFile_LawfulSeeker : LawfulSeeker openFile :=
  { bytes_of := allBytes }.
Next Obligation.
  intros s off. unfold Seek, openFile_Seeker. rewrite (proj2 (Z.ltb_ge _ _)) by lia.
  rewrite Nat2Z.id. eexists. by split_and!.
Qed.
Next Obligation. done. Qed.

(** ** Pages *)

Definition DatabasePageSize : Z := BlockSize.

(** [DatabasePageSize] as a length. *)
Definition psize : nat := Z.to_nat DatabasePageSize.
Arguments psize : simpl never.

Lemma psize_Z : Z.of_nat psize = DatabasePageSize.
Proof. unfold psize. rewrite Z2Nat.id; [done|by vm_compute]. Qed.

Lemma psize_val : Z.of_nat psize = 8192%Z.
Proof. by rewrite psize_Z. Qed.

Lemma psize_pos : 24 < psize.
Proof. pose proof psize_val. lia. Qed.

Definition page (f : list byte) (i : nat) : list byte := read_at f (i * psize) psize.
Definition zero_page : list byte := replicate psize zero.

(** [f] consists of [n] whole pages. *)
Definition pages_of (f : list byte) (n : nat) : Prop := length f = n * psize.

#[global] Opaque psize.

Lemma page_length f i : (i + 1) * psize <= length f -> length (page f i) = psize.
Proof. intros. unfold page. apply read_at_length. lia. Qed.

Lemma lookup_page f i k : k < psize -> page f i !! k = f !! (i * psize + k).
Proof.
  intros Hk. unfold page, read_at. by rewrite lookup_take_lt, lookup_drop by done.
Qed.

(** The page an offset lies in. *)
Lemma page_split k : exists i r, k = i * psize + r /\ r < psize.
Proof.
  pose proof psize_pos. exists (k / psize), (k mod psize).
  split; [rewrite (Nat.div_mod_eq k psize) at 1; lia|apply Nat.mod_upper_bound; lia].
Qed.

Lemma pages_ext f g n : pages_of f n -> pages_of g n ->
  (forall i, i < n -> page f i = page g i) -> f = g.
Proof.
  intros Hf Hg Hp. apply list_eq. intros k.
  destruct (page_split k) as (i & r & -> & Hr).
  destruct (decide (i < n)) as [Hi|Hi].
  - by rewrite <- !lookup_page, Hp by done.
  - rewrite !lookup_ge_None_2; [done| |]; unfold pages_of in *; nia.
Qed.

(** Pages of a file with a page written into it. *)
Lemma lookup_write_at f off p k : off <= length f -> p <> [] ->
  write_at f off p !! k =
    if decide (off <= k < off + length p) then p !! (k - off) else f !! k.
Proof.
  intros Ho Hp. unfold write_at. destruct p as [|b p]; [done|].
  set (q := b :: p). rewrite resize_le by done.
  assert (Ht : length (take off f) = off) by (rewrite length_take; lia).
  case_decide as Hk.
  - rewrite lookup_app_r by lia. rewrite Ht. by rewrite lookup_app_l by lia.
  - destruct (decide (k < off)).
    + rewrite lookup_app_l by lia. by rewrite lookup_take_lt.
    + rewrite !lookup_app_r by (rewrite ?Ht; lia). rewrite lookup_drop, Ht. f_equal. lia.
Qed.

Lemma write_at_length f off p : off <= length f ->
  length (write_at f off p) = Nat.max (length f) (off + length p).
Proof.
  intros Ho. unfold write_at. destruct p as [|b p]; [simpl; lia|].
  rewrite resize_le by done. rewrite !length_app, length_take, length_drop. simpl. lia.
Qed.

Lemma page_ne (p : list byte) : length p = psize -> p <> [].
Proof. intros Hl ->. pose proof psize_pos. simpl in Hl. lia. Qed.

Lemma page_write_eq f i p : length p = psize -> i * psize <= length f ->
  page (write_at f (i * psize) p) i = p.
Proof.
  intros Hp Hi. apply list_eq. intros k. destruct (decide (k < psize)) as [Hk|Hk].
  - rewrite lookup_page by done. rewrite lookup_write_at by (done || by apply page_ne).
    rewrite decide_True by lia. f_equal. lia.
  - rewrite !lookup_ge_None_2; [done|lia|].
    unfold page, read_at. rewrite length_take. lia.
Qed.

Lemma page_write_ne f i j p : length p = psize -> i * psize <= length f -> i <> j ->
  page (write_at f (i * psize) p) j = page f j.
Proof.
  intros Hp Hi Hne. apply list_eq. intros k. destruct (decide (k < psize)) as [Hk|Hk].
  - rewrite !lookup_page by done. rewrite lookup_write_at by (done || by apply page_ne).
    rewrite decide_False; [done|]. destruct (decide (i < j)); nia.
  - rewrite !lookup_ge_None_2; [done| |]; unfold page, read_at; rewrite length_take; lia.
Qed.

Lemma zero_page_length : length zero_page = psize.
Proof. apply length_replicate. Qed.

(** Pages of a truncated or extended file. *)
Lemma page_resize f n i : i < n ->
  page (resize (n * psize) zero f) i = page (resize ((i + 1) * psize) zero f) i.
Proof.
  intros Hi. apply list_eq. intros k. destruct (decide (k < psize)) as [Hk|Hk].
  - rewrite !lookup_page by done. pose proof psize_pos.
    destruct (decide (i * psize + k < length f)).
    + rewrite !lookup_resize by (done || nia). done.
    + rewrite !lookup_resize_new by (done || nia). done.
  - rewrite !lookup_ge_None_2; [done| |]; unfold page, read_at; rewrite length_take; lia.
Qed.

Lemma page_resize_old f n i : i < n -> (i + 1) * psize <= length f ->
  page (resize (n * psize) zero f) i = page f i.
Proof.
  intros Hi Hf. apply list_eq. intros k. destruct (decide (k < psize)) as [Hk|Hk].
  - rewrite !lookup_page by done. by rewrite lookup_resize by nia.
  - rewrite !lookup_ge_None_2; [done| |]; unfold page, read_at; rewrite length_take; lia.
Qed.

Lemma page_resize_new f n i : i < n -> length f <= i * psize ->
  page (resize (n * psize) zero f) i = zero_page.
Proof.
  intros Hi Hf. apply list_eq. intros k. destruct (decide (k < psize)) as [Hk|Hk].
  - rewrite lookup_page by done. rewrite lookup_resize_new by nia.
    symmetry. by apply lookup_replicate.
  - rewrite !lookup_ge_None_2; [done| |]; [rewrite zero_page_length|
      unfold page, read_at; rewrite length_take]; lia.
Qed.

(** A file without its first pages. *)
Lemma page_drop f j i : page (drop (j * psize) f) i = page f (j + i).
Proof. unfold page, read_at. rewrite drop_drop. do 2 f_equal. lia. Qed.

Lemma page_0 f : page f 0 = take psize f.
Proof. done. Qed.

Lemma page_app_0 p f : length p = psize -> page (p ++ f) 0 = p.
Proof. intros Hp. rewrite page_0. by apply take_app_length'. Qed.

Lemma page_app_S p f i : length p = psize -> page (p ++ f) (S i) = page f i.
Proof.
  intros Hp. replace f with (drop (1 * psize) (p ++ f)) at 2.
  - by rewrite page_drop.
  - rewrite Nat.mul_1_l. by apply drop_app_length'.
Qed.
