(* ===== verification/GoFS.v ===== *)
(** * Files of a directory and entries of an archive

    What the program uses of Go's [os], [archive/tar] and of the readers of
    [io]: [os.FileInfo], [tar.Header], a stream that is cut at, or padded with
    zeros up to, a given length ([io.LimitedReader] over [io.MultiReader] and
    the [ZeroReader] of [src/internal/ioextensions/io.go]). *)

From S2P Require Import Prelude GoIO PagedFile.

(** ** [os.FileInfo] and [tar.Header] *)

(** The types of [os.FileMode] that matter here. *)
Inductive FileMode := ModeRegular | ModeDir | ModeSymlink | ModeDevice | ModeSocket.

#[export] Instance FileMode_eq_dec : EqDecision FileMode.
Proof. solve_decision. Defined.

Record FileInfo := mkFileInfo {
  fiName : string;
  fiMode : FileMode;
  fiSize : Z;
  fiModTime : Z
}.

Definition fiIsDir (info : FileInfo) : bool := bool_decide (fiMode info = ModeDir).
Definition fiIsRegular (info : FileInfo) : bool := bool_decide (fiMode info = ModeRegular).

Record Header := mkHeader { hName : string; hMode : FileMode; hSize : Z }.

(** [tar.FileInfoHeader(info, link)]; the name is set by the caller. *)
Definition FileInfoHeader (info : FileInfo) : res error Header :=
  match fiMode info with
  | ModeSocket => Err (Wrapf "archive/tar: sockets not supported" ForeignError)
  | ModeRegular => Ok (mkHeader (fiName info) ModeRegular (fiSize info))
  | mode => Ok (mkHeader (fiName info) mode 0)
  end.

Definition withName (h : Header) (name : string) : Header := mkHeader name (hMode h) (hSize h).
Definition withSize (h : Header) (size : Z) : Header := mkHeader (hName h) (hMode h) size.

(** ** Streams *)

(** A reader whose reads hand out the bytes [rest s] in order, and that
    reports [EOF] at their end, alone or with the last of them. *)
Definition streams {S} `{Reader S} (inv : S -> Prop) (rest : S -> list byte) : Prop :=
  forall s n, inv s -> 0 < n -> exists e s',
    Read s n = (take n (rest s), e, s') /\ rest s' = drop n (rest s) /\ inv s' /\
    ((e = None /\ rest s <> []) \/ (e = Some EOF /\ length (rest s) <= n)).

Lemma lawful_streams {S} `{LawfulReader S} : streams (S := S) (fun _ => True) avail.
Proof.
  intros s n _ Hn. destruct (decide (avail s = [])) as [E|E].
  - rewrite read_eof, E by done. exists (Some EOF), s. rewrite E, take_nil, drop_nil. split_and!; [done..|].
    right. split; [done|cbn; lia].
  - rewrite read_some by done. eexists None, _. split_and!; [done| |done|by left].
    rewrite avail_adv. destruct (decide (n <= length (avail s))); [by rewrite Nat.min_l|].
    rewrite Nat.min_r by lia. by rewrite !drop_ge by lia.
Qed.

Section Padded.
Context {S : Type} `{Reader S}.

(** [io.LimitedReader{io.MultiReader(source, &ZeroReader{}), N}]; the source
    is dropped once it has ended. *)
Record paddedReader := mkPadded { padSource : S; padEnded : bool; padLeft : nat }.

#[export] Instance paddedReader_Reader : Reader paddedReader := fun p n =>
  if padLeft p =? 0 then ([], Some EOF, p)
  else
    let n := Nat.min n (padLeft p) in
    let zeros source := (replicate n zero, None, mkPadded source true (padLeft p - n)) in
    if padEnded p then zeros (padSource p)
    else
      let '(bs, e, source) := Read (padSource p) n in
      match e with
      | Some EOF =>
          if length bs =? 0 then zeros source
          else (bs, None, mkPadded source true (padLeft p - length bs))
      | e => (bs, e, mkPadded source false (padLeft p - length bs))
      end.

Variable inv : S -> Prop.
Variable rest : S -> list byte.
Hypothesis Hst : streams inv rest.

Definition padBytes (p : paddedReader) : list byte :=
  if padEnded p then replicate (padLeft p) zero else resize (padLeft p) zero (rest (padSource p)).
Definition padInv (p : paddedReader) : Prop := padEnded p = true \/ inv (padSource p).

Lemma padBytes_length p : length (padBytes p) = padLeft p.
Proof. unfold padBytes. destruct (padEnded p); [apply length_replicate|apply length_resize]. Qed.

(** A read hands out some of the bytes that are left. *)
Lemma padded_read p n : padInv p -> 0 < n -> padLeft p <> 0 -> exists bs p',
  Read p n = (bs, None, p') /\ padBytes p = bs ++ padBytes p' /\ padInv p' /\ padLeft p' < padLeft p.
Proof.
  intros Hi Hn Hl. unfold Read, paddedReader_Reader. rewrite (proj2 (Nat.eqb_neq _ _)) by done.
  set (k := Nat.min n (padLeft p)). assert (0 < k <= padLeft p) as Hk by lia.
  assert (forall src, padEnded p = true \/ rest (padSource p) = [] -> exists bs p',
    (replicate k zero, @None error, mkPadded src true (padLeft p - k)) = (bs, None, p') /\
    padBytes p = bs ++ padBytes p' /\ padInv p' /\ padLeft p' < padLeft p) as Hz.
  { intros src Hp. eexists _, _. split; [done|]. cbn [padBytes padEnded padLeft]. split_and!; [|by left|lia].
    rewrite <- replicate_add, Nat.add_sub_assoc, Nat.add_sub_swap, Nat.sub_diag by lia. unfold padBytes.
    destruct (padEnded p); [done|]. destruct Hp as [?| ->]; [done|]. by rewrite resize_nil. }
  destruct (padEnded p) eqn:Ee; [apply Hz; by left|].
  destruct Hi as [?|Hi]; [congruence|].
  destruct (Hst (padSource p) k Hi ltac:(lia)) as (e & s' & -> & Hr & Hi' & He).
  assert (forall ended, ended = false \/ length (rest (padSource p)) <= k -> rest (padSource p) <> [] -> exists bs p',
    (take k (rest (padSource p)), @None error, mkPadded s' ended (padLeft p - length (take k (rest (padSource p))))) =
      (bs, None, p') /\ padBytes p = bs ++ padBytes p' /\ padInv p' /\ padLeft p' < padLeft p) as Hsome.
  { intros ended Hend Hne. eexists _, _. split; [done|]. cbn [padBytes padEnded padLeft padSource].
    assert (0 < length (rest (padSource p))) by (destruct (rest (padSource p)); [done|cbn; lia]).
    rewrite length_take. split_and!; [|destruct ended; [by left|by right]|cbn; lia].
    unfold padBytes. rewrite Ee. cbn [padEnded padLeft padSource].
    rewrite Hr. clear -Hend Hk. set (l := rest (padSource p)) in *.
    destruct ended; [destruct Hend as [?|Hle]; [done|]|].
    - rewrite Nat.min_r, take_ge by lia. apply resize_ge. lia.
    - destruct (decide (k <= length l)) as [Hle|Hgt].
      + rewrite Nat.min_l by done. rewrite <- (take_drop k l) at 1.
        rewrite resize_app_ge by (rewrite length_take; lia). rewrite length_take, Nat.min_l by done. done.
      + rewrite Nat.min_r, take_ge, drop_ge, resize_nil by lia. apply resize_ge. lia. }
  destruct He as [[-> Hne]|[-> Hle]].
  - apply Hsome; [by left|done].
  - destruct (length (take k (rest (padSource p))) =? 0) eqn:E0; bool_to_prop.
    + apply Hz. right. rewrite length_take in E0. apply nil_length_inv. lia.
    + apply Hsome; [by right|]. intros E. rewrite E, take_nil in E0. done.
Qed.

Lemma ReadAll_padded fuel : forall p, padInv p -> padLeft p < fuel ->
  exists p', ReadAll fuel p = (padBytes p, None, p').
Proof.
  induction fuel as [|fuel IH]; intros p Hi Hf; [lia|]. cbn [ReadAll].
  destruct (decide (padLeft p = 0)) as [E|E].
  - unfold Read, paddedReader_Reader. rewrite E. cbn [Nat.eqb]. exists p. f_equal. f_equal.
    symmetry. apply nil_length_inv. by rewrite padBytes_length.
  - destruct (padded_read p 512 Hi ltac:(lia) E) as (bs & p' & -> & -> & Hi' & Hlt).
    destruct (IH p' Hi') as [p'' ->]; [lia|]. by exists p''.
Qed.
End Padded.
Arguments paddedReader : clear implicits.
Arguments mkPadded {S}.
