(* ===== verification/DeltaMap.v ===== *)
(** * The blocks changed since a backup

    [src/internal/databases/postgres]: [paged_file_delta_map.go] and
    [delta_map_downloader.go]. The locations of the delta files and of the WAL
    files behind the last of them are collected by relation, and an
    incremental backup reads the blocks of each data file they name. The
    bitmaps ([github.com/RoaringBitmap/roaring]) are an interface. *)

From stdpp Require Import sorting.
From S2P Require Import Prelude GoIO WalRecord WalRecordEnc WalPage WalFile.
From S2P Require Import WalTotal PagedFile GoStrings GoPath Timeline Storage History Delta.
Open Scope Z_scope.

(** ** Bitmaps *)

Class Bitmap (B : Type) := {
  NewBitmap : B;
  Add : Z -> B -> B;
  AddRange : Z -> Z -> B -> B;
  And : B -> B -> B;
  (** what [Iterator] yields *)
  ToArray : B -> list Z
}.

(** A value of 32 bits. *)
Definition is_u32 (x : Z) : Prop := 0 <= x < 2 ^ 32.

Class BitmapLaws (B : Type) `{Bitmap B} : Prop := {
  array_New x : x ∉ ToArray NewBitmap;
  array_Add b x y : is_u32 x -> y ∈ ToArray (Add x b) <-> y = x \/ y ∈ ToArray b;
  array_AddRange b lo hi y : 0 <= lo -> hi <= 2 ^ 32 ->
    y ∈ ToArray (AddRange lo hi b) <-> lo <= y < hi \/ y ∈ ToArray b;
  array_And a b y : y ∈ ToArray (And a b) <-> y ∈ ToArray a /\ y ∈ ToArray b;
  (** the iterator yields the values in increasing order *)
  array_sorted b : StronglySorted Z.lt (ToArray b)
}.

(** ** Paths *)

(** [^(\d+)([.]\d+)?$] on a name: the two groups, the second one empty when
    it takes no part. *)
Definition matchPagedFilename (name : string) : option (string * string) :=
  let '(digits, rest) := spanDigits name in
  if bool_decide (digits = "") then None
  else match rest with
       | "" => Some (digits, "")
       | String c rest =>
           if bool_decide (c = Ascii.ascii_of_nat 46) then
             let '(digits2, rest2) := spanDigits rest in
             if negb (bool_decide (digits2 = "")) && bool_decide (rest2 = "")
             then Some (digits, String c digits2) else None
           else None
       end.

(** ** [paged_file_delta_map.go] *)

Definition RelFileSizeBound : Z := 2 ^ 30.
Definition BlocksInRelFile : Z := RelFileSizeBound / DatabasePageSize.
Definition DefaultSpcNode : Z := 1663.
Definition DefaultTablespace : string := "base".
Definition NonDefaultTablespace : string := "pg_tblspc".

#[export] Instance RelFileNode_countable : Countable RelFileNode.
Proof.
  apply (inj_countable' (fun n => (SpcNode n, DBNode n, RelNode n))
    (fun '(s, d, r) => mkRelFileNode s d r)).
  by intros [].
Defined.

Definition GetRelFileIDFrom (filePath : string) : res pgError Z :=
  match matchPagedFilename (Base filePath) with
  | None => Err Panic
  | Some (_, "") => Ok 0
  | Some (_, String _ digits) => res_map_err NumError_ (Atoi digits)
  end.

(** [parts[len(parts)-k]] *)
Definition fromEnd (parts : list string) (k : nat) : res pgError string :=
  if (k <=? length parts)%nat then Ok (nth (length parts - k) parts "") else Err Panic.

Definition GetRelFileNodeFrom (filePath : string) : res pgError RelFileNode :=
  let '(folderPath, name) := Split filePath in
  let folderPathParts := splitOn slash (TrimSuffix folderPath "/") in
  match matchPagedFilename name with
  | None => Err (External ("GetRelFileNodeFrom: can't parse path: " +s filePath))
  | Some (digits, _) =>
      relNode ← res_map_err (fun e => Wrapped filePath (NumError_ e)) (Atoi digits);
      db ← fromEnd folderPathParts 1;
      dbNode ← res_map_err (fun e => Wrapped filePath (NumError_ e)) (Atoi db);
      if Contains filePath DefaultTablespace then
        Ok (mkRelFileNode DefaultSpcNode (u32 dbNode) (u32 relNode))
      else if Contains filePath NonDefaultTablespace then
        spc ← fromEnd folderPathParts 3;
        spcNode ← res_map_err NumError_ (Atoi spc);
        Ok (mkRelFileNode (u32 spcNode) (u32 dbNode) (u32 relNode))
      else Err (External "GetRelFileNodeFrom: unknown tablespace")
  end.

(** The stream of a pipe: bytes, then the error it was closed with. *)
Definition pipeReader : Type := list byte * option pgError.

#[export] Instance pipeReader_Reader : Reader pipeReader := fun s n =>
  match fst s with
  | [] => ([], Some (match snd s with None => EOF | Some _ => ForeignError end), s)
  | bs => (take n bs, None, (drop n bs, snd s))
  end.

Section Map.
Context {cfg : WalConfig} {Folder : Type} `{StorageFolder Folder} {B : Type} `{Bitmap B}.
Variable Decompressors : list Decompressor.

Notation PagedFileDeltaMap := (gmap RelFileNode B).
Implicit Types deltaMap : PagedFileDeltaMap.

Definition NewPagedFileDeltaMap : PagedFileDeltaMap := ∅.

Definition AddLocationToDelta deltaMap (location : BlockLocation) : PagedFileDeltaMap :=
  match deltaMap !! RelationFileNode location with
  | None => <[RelationFileNode location := Add (BlockNo location) NewBitmap]> deltaMap
  | Some bitmap => <[RelationFileNode location := Add (BlockNo location) bitmap]> deltaMap
  end.

Definition AddLocationsToDelta deltaMap (locations : list BlockLocation) : PagedFileDeltaMap :=
  foldl AddLocationToDelta deltaMap locations.

(** [int] and [uint64] have 64 bits. *)
Definition SelectRelFileBlocks (bitmap : B) (relFileID : Z) : B :=
  let relFileBitmap := AddRange (u64 (relFileID * BlocksInRelFile)) (u64 ((relFileID + 1) * BlocksInRelFile)) NewBitmap in
  foldl (fun shifted x => Add (u32 (x - relFileID * BlocksInRelFile)) shifted) NewBitmap
    (ToArray (And bitmap relFileBitmap)).

(** The bitmap of the map is cloned before it is cut. *)
Definition GetDeltaBitmapFor deltaMap (filePath : string) : res pgError B :=
  relFileNode ← GetRelFileNodeFrom filePath;
  match deltaMap !! relFileNode with
  | None => Err (External "GetDeltaBitmapFor: no bitmap found")
  | Some bitmap =>
      relFileID ← GetRelFileIDFrom filePath;
      Ok (SelectRelFileBlocks bitmap relFileID)
  end.

Definition getDeltaFile (cache : option string) (folder : Folder) (filename : string)
  : res pgError DeltaFile * option string :=
  match DownloadAndDecompressStorageFile Decompressors cache folder filename with
  | (Err err, cache) => (Err (Wrapped filename err), cache)
  | (Ok reader, cache) =>
      (res_map_err (fun e => Wrapped filename (WalParsing e))
         (fst (LoadDeltaFile (S (length (fst reader))) (reader : pipeReader))), cache)
  end.

(** The parser goes from one file to the next. *)
Definition getLocationsFromWal (cache : option string) deltaMap (folder : Folder) (filename : string)
    (walParser : WalParser) : res pgError (PagedFileDeltaMap * WalParser) * option string :=
  match DownloadAndDecompressStorageFile Decompressors cache folder filename with
  | (Err err, cache) => (Err (Wrapped filename err), cache)
  | (Ok reader, cache) =>
      (match ExtractLocationsFromWalFile (S (length (fst reader))) walParser (reader : pipeReader) with
       | (Err e, _) => Err (Wrapped filename (WalParsing e))
       | (Ok locations, walParser) => Ok (AddLocationsToDelta deltaMap locations, walParser)
       end, cache)
  end.

(** The numbers from [first] while below [last], by steps of [step]. *)
Fixpoint getLocationsFromDeltas (fuel : nat) (cache : option string) deltaMap (folder : Folder)
    (timeline first last : Z) : res pgError PagedFileDeltaMap * option string :=
  if first <? last then
    match fuel with
    | 0%nat => (Err (External "no progress"), cache)
    | S fuel =>
        match getDeltaFile cache folder (DeltaNo.getFilename first timeline) with
        | (Err err, cache) => (Err err, cache)
        | (Ok deltaFile, cache) =>
            getLocationsFromDeltas fuel cache (AddLocationsToDelta deltaMap (Locations deltaFile))
              folder timeline (DeltaNo.next first) last
        end
    end
  else (Ok deltaMap, cache).

Fixpoint getLocationsFromWals (fuel : nat) (cache : option string) deltaMap (folder : Folder)
    (timeline first last : Z) (walParser : WalParser) : res pgError PagedFileDeltaMap * option string :=
  if first <? last then
    match fuel with
    | 0%nat => (Err (External "no progress"), cache)
    | S fuel =>
        match getLocationsFromWal cache deltaMap folder (WalSegmentNo.getFilename first timeline) walParser with
        | (Err err, cache) => (Err err, cache)
        | (Ok (deltaMap, walParser), cache) =>
            getLocationsFromWals fuel cache deltaMap folder timeline (WalSegmentNo.next first) last walParser
        end
    end
  else (Ok deltaMap, cache).

(** ** [delta_map_downloader.go] *)

Definition getDeltaRange (firstUsedLsn firstNotUsedLsn : Z) : Z * Z :=
  (DeltaNo.newDeltaNoFromLsn firstUsedLsn, DeltaNo.newDeltaNoFromLsn firstNotUsedLsn).

Definition getWalSegmentRange (firstNotUsedDeltaNo firstNotUsedLsn : Z) : Z * Z :=
  (DeltaNo.firstWalSegmentNo firstNotUsedDeltaNo,
   WalSegmentNo.next (WalSegmentNo.newWalSegmentNo (u64 (firstNotUsedLsn - 1)))).

(** A range of [n] numbers takes at most [n] turns. *)
Definition turns (first last : Z) : nat := Z.to_nat (last - first).

Definition getDeltaMap (cache : option string) (folder : Folder) (timeline firstUsedLSN firstNotUsedLSN : Z)
  : res pgError PagedFileDeltaMap * option string :=
  let '(firstUsedDeltaNo, firstNotUsedDeltaNo) := getDeltaRange firstUsedLSN firstNotUsedLSN in
  let lastDeltaNo := DeltaNo.previous firstNotUsedDeltaNo in
  match getLocationsFromDeltas (turns firstUsedDeltaNo lastDeltaNo) cache NewPagedFileDeltaMap folder timeline
          firstUsedDeltaNo lastDeltaNo with
  | (Err err, cache) => (Err (Wrapped "Error during fetch locations from delta files." err), cache)
  | (Ok deltaMap, cache) =>
      match getDeltaFile cache folder (DeltaNo.getFilename lastDeltaNo timeline) with
      | (Err err, cache) => (Err (Wrapped "Error during downloading last delta file." err), cache)
      | (Ok lastDeltaFile, cache) =>
          let deltaMap := AddLocationsToDelta deltaMap (Locations lastDeltaFile) in
          let '(firstUsedWalSegmentNo, firstNotUsedWalSegmentNo) :=
            getWalSegmentRange firstNotUsedDeltaNo firstNotUsedLSN in
          match getLocationsFromWals (turns firstUsedWalSegmentNo firstNotUsedWalSegmentNo) cache deltaMap folder
                  timeline firstUsedWalSegmentNo firstNotUsedWalSegmentNo (dfWalParser lastDeltaFile) with
          | (Err err, cache) => (Err (Wrapped "Error during fetch locations from wal segments." err), cache)
          | (Ok deltaMap, cache) => (Ok deltaMap, cache)
          end
      end
  end.
End Map.

(** ** Lemmas *)

Section MapLemmas.
Context {cfg : WalConfig} {ok : WalConfigOk cfg} {Folder : Type} `{StorageFolder Folder} {B : Type} `{BitmapLaws B}.
Variable Decompressors : list Decompressor.
Notation PagedFileDeltaMap := (gmap RelFileNode B).
Implicit Types deltaMap : PagedFileDeltaMap.

(** The map names the block. *)
Definition in_map deltaMap (location : BlockLocation) : Prop :=
  exists bitmap, deltaMap !! RelationFileNode location = Some bitmap /\ BlockNo location ∈ ToArray bitmap.

Definition block_u32 (location : BlockLocation) : Prop := is_u32 (BlockNo location).

Lemma in_map_empty location : ~ in_map ∅ location.
Proof. intros (b & Hb & _). by rewrite lookup_empty in Hb. Qed.

Lemma AddLocationToDelta_ok deltaMap location location' : block_u32 location ->
  in_map (AddLocationToDelta deltaMap location) location' <-> location' = location \/ in_map deltaMap location'.
Proof.
  intros Hu. unfold in_map, AddLocationToDelta. destruct location as [n x], location' as [n' x'].
  cbn [RelationFileNode BlockNo]. assert (is_u32 x) as Hx by exact Hu.
  destruct (decide (n' = n)) as [->|Hne].
  - assert (mkBlockLocation n x' = mkBlockLocation n x <-> x' = x) as -> by (split; congruence).
    destruct (deltaMap !! n) as [b|] eqn:E; setoid_rewrite lookup_insert_eq; split.
    + intros (? & [= <-] & Hin). apply array_Add in Hin as [->|]; eauto.
    + intros [->|(? & [= <-] & Hin)]; eexists; (split; [reflexivity|]); apply array_Add; auto.
    + intros (? & [= <-] & Hin). apply array_Add in Hin as [->|Hin]; [auto|by apply array_New in Hin|done].
    + intros [->|(? & ? & _)]; [|done]. eexists; split; [reflexivity|]. apply array_Add; auto.
  - destruct (deltaMap !! n); setoid_rewrite lookup_insert_ne; try done; naive_solver congruence.
Qed.

Lemma AddLocationsToDelta_ok locations : forall deltaMap location, Forall block_u32 locations ->
  in_map (AddLocationsToDelta deltaMap locations) location <-> location ∈ locations \/ in_map deltaMap location.
Proof.
  induction locations as [|l ls IH]; intros deltaMap location Hu; cbn [AddLocationsToDelta foldl].
  - rewrite elem_of_nil. naive_solver.
  - apply Forall_cons in Hu as [Hl Hls]. fold (AddLocationsToDelta (AddLocationToDelta deltaMap l) ls).
    rewrite IH, AddLocationToDelta_ok, elem_of_cons by done. tauto.
Qed.

(** [getDeltaFile] gives the file, whatever decompressor is tried first. *)
Definition delta_stored (folder : Folder) (timeline d : Z) (f : DeltaFile) : Prop :=
  Forall block_u32 (Locations f) /\
  forall cache, exists cache', getDeltaFile Decompressors cache folder (DeltaNo.getFilename d timeline) = (Ok f, cache').

(** The WAL file has these locations, from one parser to the next. *)
Definition wal_stored (folder : Folder) (timeline s : Z) (p : WalParser) (locations : list BlockLocation)
    (p' : WalParser) : Prop :=
  Forall block_u32 locations /\
  forall cache, exists reader cache',
    DownloadAndDecompressStorageFile Decompressors cache folder (WalSegmentNo.getFilename s timeline) =
      (Ok reader, cache') /\
    ExtractLocationsFromWalFile (S (length (fst reader))) p (reader : pipeReader) = (Ok locations, p').

Lemma getLocationsFromDeltas_ok folder timeline last deltas : forall fuel first cache deltaMap,
  0 <= first -> last < 2 ^ 64 -> first mod 16 = 0 -> last mod 16 = 0 -> last - first <= Z.of_nat fuel ->
  (forall d, first <= d < last -> d mod 16 = 0 -> delta_stored folder timeline d (deltas d)) ->
  exists deltaMap' cache',
    getLocationsFromDeltas Decompressors fuel cache deltaMap folder timeline first last = (Ok deltaMap', cache') /\
    forall location, in_map deltaMap' location <->
      (exists d, first <= d < last /\ d mod 16 = 0 /\ location ∈ Locations (deltas d)) \/ in_map deltaMap location.
Proof.
  induction fuel as [|fuel IH]; intros first cache deltaMap H0' Hl Hf Hla Hfu Hs; cbn [getLocationsFromDeltas];
    (destruct (first <? last) eqn:E; bool_to_prop; [|
      exists deltaMap, cache; split; [done|]; intros; split; [auto|intros [(d & ? & _)|]; [lia|done]]]); [lia|].
  destruct (Hs first ltac:(lia) Hf) as [Hu Hg]. destruct (Hg cache) as [cache1 ->].
  assert (first + 16 <= last) as Hstep.
  { pose proof (Z.div_mod first 16). pose proof (Z.div_mod last 16). lia. }
  assert (DeltaNo.next first = first + 16) as ->.
  { unfold DeltaNo.next, DeltaNo.add, WalFileInDelta. change (u64 (1 * 16)) with 16.
    apply wrap_id. unfold in_width. lia. }
  edestruct (IH (first + 16) cache1 (AddLocationsToDelta deltaMap (Locations (deltas first))))
    as (m' & c' & Hr & Hin); [lia|done| |done|lia|intros; apply Hs; lia|].
  { replace (first + 16) with (first + 1 * 16) by lia. by rewrite Z.mod_add. }
  exists m', c'. split; [exact Hr|]. intros location. rewrite Hin, AddLocationsToDelta_ok by done. split.
  - intros [(d & ? & ? & ?)|[?|?]]; [left; exists d|left; exists first|right]; split_and?; (lia || done).
  - intros [(d & ? & Hd & ?)|?]; [|auto]. destruct (decide (d = first)) as [->|]; [auto|].
    left. exists d. split_and!; try done; [|lia].
    pose proof (Z.div_mod first 16). pose proof (Z.div_mod d 16). lia.
Qed.

Lemma getLocationsFromWals_ok folder timeline last parsers locs : forall fuel first cache deltaMap,
  0 <= first -> last < 2 ^ 64 -> last - first <= Z.of_nat fuel ->
  (forall s, first <= s < last -> wal_stored folder timeline s (parsers s) (locs s) (parsers (s + 1))) ->
  exists deltaMap' cache',
    getLocationsFromWals Decompressors fuel cache deltaMap folder timeline first last (parsers first) =
      (Ok deltaMap', cache') /\
    forall location, in_map deltaMap' location <->
      (exists s, first <= s < last /\ location ∈ locs s) \/ in_map deltaMap location.
Proof.
  induction fuel as [|fuel IH]; intros first cache deltaMap H0' Hl Hfu Hs; cbn [getLocationsFromWals];
    (destruct (first <? last) eqn:E; bool_to_prop; [|
      exists deltaMap, cache; split; [done|]; intros; split; [auto|intros [(s & ? & _)|]; [lia|done]]]); [lia|].
  destruct (Hs first ltac:(lia)) as [Hu Hg]. unfold getLocationsFromWal.
  destruct (Hg cache) as (reader & cache1 & -> & ->).
  assert (WalSegmentNo.next first = first + 1) as -> by (apply wrap_id; unfold in_width; lia).
  edestruct (IH (first + 1) cache1 (AddLocationsToDelta deltaMap (locs first)))
    as (m' & c' & Hr & Hin); [lia|done|lia|intros; apply Hs; lia|].
  exists m', c'. split; [exact Hr|]. intros location. rewrite Hin, AddLocationsToDelta_ok by done. split.
  - intros [(s & ? & ?)|[?|?]]; [left; exists s|left; exists first|right]; split_and?; (lia || done).
  - intros [(s & ? & ?)|?]; [|auto]. destruct (decide (s = first)) as [->|]; [auto|].
    left. exists s. split; [lia|done].
Qed.

(** The deltas that are read for a range that ends in the delta [last]. *)
Definition delta_used (first last d : Z) : Prop :=
  d mod 16 = 0 /\ (first <= d < last - 16 \/ d = last - 16).

Lemma delta_of_lsn lsn : in_width 64 lsn ->
  DeltaNo.newDeltaNoFromLsn lsn = WalSegmentNo.newWalSegmentNo lsn - WalSegmentNo.newWalSegmentNo lsn mod 16 /\
  0 <= WalSegmentNo.newWalSegmentNo lsn <= lsn /\
  DeltaNo.newDeltaNoFromLsn lsn mod 16 = 0.
Proof.
  unfold in_width, DeltaNo.newDeltaNoFromLsn, WalSegmentNo.newWalSegmentNo. intros Hl. pose proof size_pos.
  assert (0 <= lsn / WalSegmentSize <= lsn) as Hq.
  { split; [apply Z.div_pos; lia|]. apply Z.div_le_upper_bound; nia. }
  destruct (delta_of_segment (lsn / WalSegmentSize)) as [-> _]; [lia|]. split; [done|]. split; [done|].
  rewrite Zminus_mod_idemp_r, Z.sub_diag. done.
Qed.

Lemma mod16_minus d : d mod 16 = 0 -> (d - 16) mod 16 = 0.
Proof. intros Hd. replace (d - 16) with (d + (-1) * 16) by lia. by rewrite Z.mod_add. Qed.

Lemma segments_covered first_seg last s : last mod 16 = 0 -> 16 <= last -> 0 <= first_seg <= s -> s < last ->
  delta_used (first_seg - first_seg mod 16) last (s - s mod 16).
Proof.
  intros Hl Hl16 Hs Hsl. unfold delta_used. split; [by rewrite Zminus_mod_idemp_r, Z.sub_diag|].
  pose proof (Z.div_mod s 16). pose proof (Z.mod_pos_bound s 16). pose proof (Z.div_mod last 16).
  pose proof (Z.div_mod first_seg 16). pose proof (Z.mod_pos_bound first_seg 16). lia.
Qed.
End MapLemmas.

(** C15: when the delta files of the range and the WAL files behind the last
    one are stored, the delta map is built and names exactly the blocks they
    record; and every segment from that of the backup's first LSN to that of
    the last used LSN is among those delta files or those WAL files, so no
    change in between is missed. *)
Theorem getDeltaMap_blocks {cfg : WalConfig} {ok : WalConfigOk cfg} {Folder} `{StorageFolder Folder} {B}
    `{BitmapLaws B} (Decompressors : list Decompressor) (folder : Folder) (cache : option string)
    (timeline firstUsedLSN firstNotUsedLSN : Z) (deltas : Z -> DeltaFile) (parsers : Z -> WalParser)
    (locs : Z -> list BlockLocation) :
  let first := DeltaNo.newDeltaNoFromLsn firstUsedLSN in
  let last := DeltaNo.newDeltaNoFromLsn firstNotUsedLSN in
  let lastSegment := WalSegmentNo.newWalSegmentNo (firstNotUsedLSN - 1) in
  in_width 64 firstUsedLSN -> in_width 64 firstNotUsedLSN -> 16 <= last ->
  (forall d, delta_used first last d -> delta_stored Decompressors folder timeline d (deltas d)) ->
  parsers last = dfWalParser (deltas (last - 16)) ->
  (forall s, last <= s <= lastSegment ->
     wal_stored Decompressors folder timeline s (parsers s) (locs s) (parsers (s + 1))) ->
  (exists (deltaMap : gmap RelFileNode B) cache',
     getDeltaMap Decompressors cache folder timeline firstUsedLSN firstNotUsedLSN = (Ok deltaMap, cache') /\
     forall location, in_map deltaMap location <->
       (exists d, delta_used first last d /\ location ∈ Locations (deltas d)) \/
       (exists s, last <= s <= lastSegment /\ location ∈ locs s)) /\
  (forall s, WalSegmentNo.newWalSegmentNo firstUsedLSN <= s <= lastSegment ->
     delta_used first last (s - s mod 16) \/ last <= s <= lastSegment).
Proof.
  intros first last lastSegment Hfu Hnu Hlast Hd Hp Hs.
  destruct (delta_of_lsn _ Hfu) as (Hf1 & Hf2 & Hf3), (delta_of_lsn _ Hnu) as (Hl1 & Hl2 & Hl3).
  fold first in Hf1, Hf3. fold last in Hl1, Hl3. unfold in_width in Hfu, Hnu.
  pose proof (Z.mod_pos_bound (WalSegmentNo.newWalSegmentNo firstNotUsedLSN) 16).
  pose proof (Z.mod_le (WalSegmentNo.newWalSegmentNo firstUsedLSN) 16).
  split.
  2:{ intros s Hsr. destruct (decide (last <= s)); [right; lia|left].
      rewrite Hf1. apply segments_covered; lia || done. }
  assert (0 <= lastSegment <= firstNotUsedLSN - 1) as Hls.
  { destruct (delta_of_lsn (firstNotUsedLSN - 1)) as (_ & ? & _); [unfold in_width; lia|done]. }
  assert (delta_used first last (last - 16)) as Hlu by (split; [by apply mod16_minus|by right]).
  unfold getDeltaMap, getDeltaRange. fold first last.
  assert (DeltaNo.previous last = last - 16) as -> by (apply wrap_id; unfold in_width; lia).
  destruct (getLocationsFromDeltas_ok Decompressors folder timeline (last - 16) deltas
    (turns first (last - 16)) first cache (NewPagedFileDeltaMap (B:=B))) as (m1 & c1 & -> & Hin1);
    [lia|lia|done|by apply mod16_minus|unfold turns; lia|intros; apply Hd; split; [done|lia]|].
  destruct (Hd (last - 16) Hlu) as [Hu Hg].
  destruct (Hg c1) as [c2 ->]. unfold getWalSegmentRange, DeltaNo.firstWalSegmentNo.
  rewrite (wrap_id 64 (firstNotUsedLSN - 1)) by (unfold in_width; lia). fold lastSegment.
  assert (WalSegmentNo.next lastSegment = lastSegment + 1) as -> by (apply wrap_id; unfold in_width; lia).
  rewrite <- Hp.
  destruct (getLocationsFromWals_ok (B:=B) Decompressors folder timeline (lastSegment + 1) parsers locs
    (turns last (lastSegment + 1)) last c2 (AddLocationsToDelta m1 (Locations (deltas (last - 16)))))
    as (m2 & c3 & -> & Hin2); [lia|lia|unfold turns; lia|intros; apply Hs; lia|].
  exists m2, c3. split; [done|]. intros location.
  rewrite Hin2, AddLocationsToDelta_ok, Hin1 by done. split.
  - intros [(s & ? & ?)|[?|[(d & ? & ? & ?)|Hn]]]; [right; exists s|left; by exists (last - 16)|left; exists d|];
      [split; [lia|done]|split; [split; [done|lia]|done]|by apply in_map_empty in Hn].
  - intros [(d & (? & [?| ->]) & ?)|(s & ? & ?)]; [right; right; left; by exists d|auto|].
    left. exists s. split; [lia|done].
Qed.

(** Bitmaps as finite sets. *)
#[export] Instance gsetBitmap : Bitmap (gset Z) := {
  NewBitmap := ∅;
  Add x b := {[ x ]} ∪ b;
  AddRange lo hi b := list_to_set (seqZ lo (hi - lo)) ∪ b;
  And a b := a ∩ b;
  ToArray b := merge_sort Z.le (elements b)
}.

Lemma elem_of_array (b : gset Z) y : y ∈ ToArray b <-> y ∈ b.
Proof.
  unfold ToArray, gsetBitmap. by rewrite merge_sort_Permutation, elem_of_elements.
Qed.

Lemma StronglySorted_lt (xs : list Z) :
  NoDup xs -> StronglySorted Z.le xs -> StronglySorted Z.lt xs.
Proof.
  intros Hn Hs. induction Hs as [|x xs Hs IH Hx]; [constructor|].
  apply NoDup_cons in Hn as [Hni Hn]. constructor; [auto|].
  rewrite Forall_forall in *. intros y Hy. specialize (Hx y Hy).
  assert (x <> y) by (intros ->; done). lia.
Qed.

#[export] Instance gsetBitmap_laws : BitmapLaws (gset Z).
Proof.
  split; intros; rewrite ?elem_of_array; unfold NewBitmap, Add, AddRange, And, gsetBitmap.
  - set_solver.
  - set_solver.
  - rewrite elem_of_union, elem_of_list_to_set, elem_of_seqZ.
    replace (lo + (hi - lo)) with hi by lia. done.
  - set_solver.
  - apply StronglySorted_lt.
    + unfold ToArray. rewrite merge_sort_Permutation. apply NoDup_elements.
    + apply StronglySorted_merge_sort; apply _.
Qed.

Definition ex_delta : DeltaFile := mkDeltaFile [NewBlockLocation 1663 1 2 3] NewWalParser.
Definition ex_delta_folder : gmap string (list byte) :=
  {[ "000000010000000000000010_delta.lz4" := fst (DFile.Save ex_delta); "000000010000000000000020.lz4" := [] ]}.

Lemma lz4_only cache name :
  DownloadAndDecompressStorageFile [lz4] cache ex_delta_folder name = downloadLoop ex_delta_folder name cache [lz4].
Proof.
  unfold DownloadAndDecompressStorageFile, putCachedDecompressorInFirstPlace.
  destruct cache as [c|]; [|done]. cbn. by destruct (bool_decide ("lz4" = c)).
Qed.

Lemma getDeltaMap_blocks_witness :
  let cfg := DefaultWalConfig in
  exists (deltaMap : gmap RelFileNode (gset Z)) cache',
    getDeltaMap [lz4] (Some "lzma") ex_delta_folder 1 0x10000028 0x20000040 = (Ok deltaMap, cache') /\
    in_map deltaMap (NewBlockLocation 1663 1 2 3).
Proof.
  cbv zeta.
  destruct (@getDeltaMap_blocks DefaultWalConfig DefaultWalConfig_ok _ _ (gset Z) _ _ [lz4] ex_delta_folder
    (Some "lzma") 1 0x10000028 0x20000040 (fun _ => ex_delta) (fun _ => NewWalParser) (fun _ => []))
    as [(m & c & Hm & Hin) _].
  - vm_compute. by split.
  - vm_compute. by split.
  - vm_compute. done.
  - intros d [_ Hr].
    change (@DeltaNo.newDeltaNoFromLsn DefaultWalConfig 0x10000028) with 16 in Hr.
    change (@DeltaNo.newDeltaNoFromLsn DefaultWalConfig 0x20000040) with 32 in Hr.
    assert (d = 16) as -> by lia. split; [by repeat constructor|].
    intros cache. unfold getDeltaFile. rewrite lz4_only. eexists. vm_compute. reflexivity.
  - done.
  - intros s Hr.
    change (@DeltaNo.newDeltaNoFromLsn DefaultWalConfig 0x20000040) with 32 in Hr.
    change (@WalSegmentNo.newWalSegmentNo DefaultWalConfig (0x20000040 - 1)) with 32 in Hr.
    assert (s = 32) as -> by lia. split; [constructor|].
    intros cache. rewrite lz4_only. do 2 eexists. split; [vm_compute; reflexivity|vm_compute; reflexivity].
  - exists m, c. split; [exact Hm|]. apply Hin. left. exists 16.
    split; [split; [done|by right]|by left].
Defined.

(** ** Lemmas: the paths of data files *)

Definition digits_ok (s : string) : bool := negb (bool_decide (s = "")) && allIn isDigit s.

Lemma isDigit_notSlash c : isDigit c = true -> notSlash c = true.
Proof.
  unfold notSlash. intros Hc. apply negb_true_iff, bool_decide_eq_false_2. intros ->. by vm_compute in Hc.
Qed.

Lemma spanDigits_all d : allIn isDigit d = true -> spanDigits d = (d, "").
Proof. induction d as [|c d IH]; cbn; intros Hd; [done|]. bool_to_prop. rewrite H. by rewrite IH. Qed.

Lemma spanDigits_stop d c rest : allIn isDigit d = true -> isDigit c = false ->
  spanDigits (d +s String c rest) = (d, String c rest).
Proof.
  intros Hd Hc. induction d as [|c' d IH]; cbn in *; [by rewrite Hc|]. bool_to_prop.
  by rewrite H, IH.
Qed.

(** The file of a relation, with the number of a further segment. *)
Definition data_name (rel : string) (seg : option string) : string :=
  match seg with None => rel | Some seg => rel +s String (Ascii.ascii_of_nat 46) seg end.

Definition seg_ok (seg : option string) : bool := match seg with None => true | Some s => digits_ok s end.

Lemma matchPagedFilename_ok rel seg : digits_ok rel = true -> seg_ok seg = true ->
  matchPagedFilename (data_name rel seg) =
  Some (rel, match seg with None => "" | Some s => String (Ascii.ascii_of_nat 46) s end).
Proof.
  unfold digits_ok, matchPagedFilename. intros Hr Hs. bool_to_prop.
  destruct seg as [seg|]; cbn [data_name seg_ok] in *.
  - unfold digits_ok in Hs. bool_to_prop. rewrite spanDigits_stop by done.
    rewrite bool_decide_eq_false_2 by done. rewrite bool_decide_eq_true_2 by done.
    rewrite spanDigits_all by done. by rewrite bool_decide_eq_false_2.
  - rewrite spanDigits_all by done. by rewrite bool_decide_eq_false_2.
Qed.

Lemma data_name_notSlash rel seg : digits_ok rel = true -> seg_ok seg = true ->
  allIn notSlash (data_name rel seg) = true /\ data_name rel seg <> "".
Proof.
  unfold digits_ok. intros Hr Hs. bool_to_prop.
  assert (allIn notSlash rel = true) by (eapply allIn_impl; [apply isDigit_notSlash|done]).
  destruct seg as [seg|]; cbn [data_name seg_ok] in *; [|done].
  unfold digits_ok in Hs. bool_to_prop. split; [|by destruct rel].
  rewrite allIn_app. apply andb_true_iff. split; [done|]. cbn.
  eapply allIn_impl; [apply isDigit_notSlash|done].
Qed.

Lemma GetRelFileIDFrom_ok dir rel seg : digits_ok rel = true -> seg_ok seg = true ->
  GetRelFileIDFrom (dir +s String slash (data_name rel seg)) =
  match seg with None => Ok 0 | Some s => res_map_err NumError_ (Atoi s) end.
Proof.
  intros Hr Hs. destruct (data_name_notSlash rel seg Hr Hs) as [Hn Hne].
  unfold GetRelFileIDFrom, Base.
  assert (stripSlashes (dir +s String slash (data_name rel seg)) = dir +s String slash (data_name rel seg)) as ->.
  { change (String slash (data_name rel seg)) with (String slash "" +s data_name rel seg).
    rewrite <- app_assoc_s. by apply stripSlashes_app. }
  rewrite !bool_decide_eq_false_2 by (by destruct dir). rewrite Split_app by done. cbn [snd].
  rewrite matchPagedFilename_ok by done. by destruct seg.
Qed.

Lemma fromEnd_1 parts x : fromEnd (parts ++ [x]) 1 = Ok x.
Proof.
  unfold fromEnd. rewrite length_app. cbn [length]. rewrite (proj2 (Nat.leb_le _ _)) by lia.
  by rewrite Nat.add_sub, app_nth2, Nat.sub_diag by lia.
Qed.

Lemma fromEnd_3 parts x y z : fromEnd (parts ++ [x; y; z]) 3 = Ok x.
Proof.
  unfold fromEnd. rewrite length_app. cbn [length]. rewrite (proj2 (Nat.leb_le _ _)) by lia.
  by rewrite Nat.add_sub, app_nth2, Nat.sub_diag by lia.
Qed.

(** The data files below a data directory: of a database in the default
    tablespace, and in another one. *)
Inductive data_path : string -> RelFileNode -> Z -> Prop :=
| default_path prefix db rel seg d r id :
    digits_ok db = true -> digits_ok rel = true -> seg_ok seg = true ->
    Atoi db = Ok d -> Atoi rel = Ok r ->
    match seg with None => Ok 0 | Some s => Atoi s end = Ok id ->
    data_path (prefix +s "/base/" +s db +s String slash (data_name rel seg))
      (mkRelFileNode DefaultSpcNode (u32 d) (u32 r)) id
| tablespace_path prefix spc version db rel seg s d r id :
    digits_ok spc = true -> allIn notSlash version = true ->
    digits_ok db = true -> digits_ok rel = true -> seg_ok seg = true ->
    Atoi spc = Ok s -> Atoi db = Ok d -> Atoi rel = Ok r ->
    match seg with None => Ok 0 | Some s => Atoi s end = Ok id ->
    let path := prefix +s "/pg_tblspc/" +s spc +s String slash (version +s String slash (db +s
      String slash (data_name rel seg))) in
    Contains path "base" = false ->
    data_path path (mkRelFileNode (u32 s) (u32 d) (u32 r)) id.

Lemma GetRelFileNodeFrom_dir dir parts db rel seg d r :
  digits_ok rel = true -> seg_ok seg = true -> Atoi rel = Ok r ->
  splitOn slash dir = parts ++ [db] -> Atoi db = Ok d ->
  let path := dir +s String slash (data_name rel seg) in
  GetRelFileNodeFrom path =
  if Contains path DefaultTablespace then Ok (mkRelFileNode DefaultSpcNode (u32 d) (u32 r))
  else if Contains path NonDefaultTablespace then
    spc ← fromEnd (parts ++ [db]) 3;
    spcNode ← res_map_err NumError_ (Atoi spc);
    Ok (mkRelFileNode (u32 spcNode) (u32 d) (u32 r))
  else Err (External "GetRelFileNodeFrom: unknown tablespace").
Proof.
  intros Hr Hs Har Hdir Had path. destruct (data_name_notSlash rel seg Hr Hs) as [Hn Hne].
  unfold GetRelFileNodeFrom. unfold path at 1. rewrite Split_app by done.
  change (String slash "") with "/". rewrite TrimSuffix_app, Hdir, matchPagedFilename_ok by done.
  rewrite Har, fromEnd_1. cbn [mbind res_bind res_map_err]. rewrite Had. done.
Qed.

Lemma digits_notSlash s : digits_ok s = true -> allIn notSlash s = true.
Proof.
  unfold digits_ok. intros Hs. bool_to_prop. eapply allIn_impl; [apply isDigit_notSlash|done].
Qed.

Lemma data_path_node path node id : data_path path node id ->
  GetRelFileNodeFrom path = Ok node /\ GetRelFileIDFrom path = res_map_err NumError_ (Ok id).
Proof.
  intros [prefix db rel seg d r id' Hdb Hrel Hseg Hd Hr Hid
         |prefix spc version db rel seg s d r id' Hspc Hv Hdb Hrel Hseg Hs Hd Hr Hid p Hbase].
  - set (dir := prefix +s String slash ("base" +s String slash db)).
    assert (prefix +s "/base/" +s db +s String slash (data_name rel seg) =
      dir +s String slash (data_name rel seg)) as -> by (unfold dir; by rewrite !app_assoc_s).
    split.
    + rewrite (GetRelFileNodeFrom_dir _ (splitOn slash prefix ++ ["base"]) db rel seg d r); try done.
      * unfold dir. rewrite app_assoc_s, Contains_app_r by done. done.
      * unfold dir. rewrite !splitOn_app, (splitOn_noslash db) by (by apply digits_notSlash).
        by rewrite (splitOn_noslash "base"), <- app_assoc by done.
    + rewrite GetRelFileIDFrom_ok by done. destruct seg; [by rewrite Hid|by injection Hid as <-].
  - set (dir := prefix +s String slash ("pg_tblspc" +s String slash (spc +s String slash (version +s
      String slash db)))).
    assert (p = dir +s String slash (data_name rel seg)) as Hp.
    { unfold p, dir. do 4 (rewrite ?app_assoc_s; cbn [String.append]). done. }
    rewrite Hp in *. split.
    + rewrite (GetRelFileNodeFrom_dir _ (splitOn slash prefix ++ ["pg_tblspc"; spc; version]) db rel seg d r);
        try done.
      * change DefaultTablespace with "base". rewrite Hbase. unfold dir. rewrite app_assoc_s, Contains_app_r by done.
        rewrite <- app_assoc. change ([?a; spc; version] ++ [db]) with ([a] ++ [spc; version; db]).
        rewrite app_assoc, fromEnd_3. cbn [mbind res_bind]. by rewrite Hs.
      * unfold dir. rewrite !splitOn_app, (splitOn_noslash db) by (by apply digits_notSlash).
        rewrite (splitOn_noslash spc) by (by apply digits_notSlash).
        rewrite (splitOn_noslash version), (splitOn_noslash "pg_tblspc") by done. by rewrite <- app_assoc.
    + rewrite GetRelFileIDFrom_ok by done. destruct seg; [by rewrite Hid|by injection Hid as <-].
Qed.

(** ** Lemmas: the blocks of one file *)

Section SelectLemmas.
Context {B : Type} `{BitmapLaws B}.

Lemma foldl_Add (f : Z -> Z) xs : forall b y, (forall x, x ∈ xs -> is_u32 (f x)) ->
  y ∈ ToArray (foldl (fun shifted x => Add (f x) shifted) b xs) <->
  (exists x, x ∈ xs /\ y = f x) \/ y ∈ ToArray b.
Proof.
  induction xs as [|x xs IH]; intros b y Hu; cbn [foldl].
  - setoid_rewrite elem_of_nil. naive_solver.
  - rewrite IH, array_Add by (intros; apply Hu; set_solver). setoid_rewrite elem_of_cons. naive_solver.
Qed.

Lemma SelectRelFileBlocks_ok (bitmap : B) id y : 0 <= id < 2 ^ 15 ->
  y ∈ ToArray (SelectRelFileBlocks bitmap id) <->
  0 <= y < BlocksInRelFile /\ id * BlocksInRelFile + y ∈ ToArray bitmap.
Proof.
  intros Hid. unfold SelectRelFileBlocks. change BlocksInRelFile with (2 ^ 17).
  rewrite !(wrap_id 64) by (unfold in_width; lia).
  assert (forall x, x ∈ ToArray (And bitmap (AddRange (id * 2 ^ 17) ((id + 1) * 2 ^ 17) NewBitmap)) <->
    x ∈ ToArray bitmap /\ id * 2 ^ 17 <= x < (id + 1) * 2 ^ 17) as Hx.
  { intros x. rewrite array_And, array_AddRange by lia. pose proof (array_New (B:=B) x). tauto. }
  rewrite foldl_Add.
  2:{ intros x [_ Hr]%Hx. unfold is_u32. rewrite wrap_id by (unfold in_width; lia). lia. }
  setoid_rewrite Hx. split.
  - intros [(x & [Hin Hr] & ->)|Hn]; [|by apply array_New in Hn].
    rewrite wrap_id by (unfold in_width; lia). split; [lia|].
    by replace (id * 2 ^ 17 + (x - id * 2 ^ 17)) with x by lia.
  - intros [Hy Hin]. left. exists (id * 2 ^ 17 + y). split; [split; [done|lia]|].
    rewrite wrap_id by (unfold in_width; lia). lia.
Qed.
End SelectLemmas.

(** The bitmap an incremental backup gets for a data file names, by their
    positions in the file, exactly the blocks of the relation that the delta
    map names and that lie in this gigabyte of it; files of relations the map
    does not know have none. *)
Theorem GetDeltaBitmapFor_blocks {B} `{BitmapLaws B} (deltaMap : gmap RelFileNode B) (filePath : string)
    (node : RelFileNode) (id : Z) :
  data_path filePath node id -> 0 <= id < 2 ^ 15 ->
  match deltaMap !! node with
  | None => exists e, GetDeltaBitmapFor deltaMap filePath = Err e
  | Some _ => exists blocks, GetDeltaBitmapFor deltaMap filePath = Ok blocks /\
      forall x, x ∈ ToArray blocks <->
        0 <= x < BlocksInRelFile /\ in_map deltaMap (mkBlockLocation node (id * BlocksInRelFile + x))
  end.
Proof.
  intros Hp Hid. destruct (data_path_node _ _ _ Hp) as [Hn Hi]. unfold GetDeltaBitmapFor.
  rewrite Hn. cbn [mbind res_bind]. destruct (deltaMap !! node) as [bitmap|] eqn:E; [|by eexists].
  rewrite Hi. cbn [res_map_err]. eexists. split; [done|]. intros x. rewrite SelectRelFileBlocks_ok by done.
  unfold in_map. cbn [RelationFileNode BlockNo]. rewrite E. naive_solver.
Qed.

Lemma GetDeltaBitmapFor_blocks_witness :
  let node := mkRelFileNode 1663 13 2619 in
  exists blocks, GetDeltaBitmapFor ({[ node := {[ 131077; 7 ]} ]} : gmap RelFileNode (gset Z))
    "/srv/pgdata/base/13/2619.1" = Ok blocks /\ 5 ∈ ToArray blocks /\ 7 ∉ ToArray blocks.
Proof.
  cbv zeta.
  destruct (GetDeltaBitmapFor_blocks ({[ mkRelFileNode 1663 13 2619 := {[ 131077; 7 ]} ]} : gmap RelFileNode (gset Z))
    "/srv/pgdata/base/13/2619.1" (mkRelFileNode 1663 13 2619) 1) as (blocks & Hb & Hin).
  - exact (default_path "/srv/pgdata" "13" "2619" (Some "1") 13 2619 1 eq_refl eq_refl eq_refl eq_refl
      eq_refl eq_refl).
  - lia.
  - exists blocks. split; [exact Hb|]. rewrite !Hin. unfold in_map. cbn [RelationFileNode BlockNo]. split.
    + split; [vm_compute; by split|]. exists {[ 131077; 7 ]}. split; [done|].
      apply elem_of_array. set_solver.
    + intros [_ (b & Hb' & Hn)]. apply lookup_singleton_Some in Hb' as [_ <-].
      apply elem_of_array in Hn. change BlocksInRelFile with 131072 in Hn. rewrite elem_of_union, !elem_of_singleton in Hn. lia.
Defined.

(** A tablespace file below a directory whose path contains [base] is taken
    for one of the default tablespace. *)
Example GetRelFileNodeFrom_base_above :
  GetRelFileNodeFrom "/srv/database/pg_tblspc/16709/PG_13_202007201/13/2619" = Ok (mkRelFileNode 1663 13 2619).
Proof. reflexivity. Qed.
