(* ===== verification/Backups.v ===== *)
(** * Backups of a storage

    [src/internal]: [backup_time.go], [backup_util.go], [backup_selector.go],
    the existence checks of [backup.go], and the name functions of
    [src/utility/utility.go]. A backup is known by its sentinel object; these
    functions list, sort, select and purge backups. *)

From S2P Require Import Prelude GoStrings GoPath GoSort Timeline.
Open Scope Z_scope.

(** ** Names *)

Definition SentinelSuffix : string := "_backup_stop_sentinel.json".
Definition BaseBackupPath : string := "basebackups_005/".
Definition WalPath : string := "wal_005/".
Definition LatestString : string := "LATEST".

Definition stripBackupSuffix (pathValue : string) : string := before "_backup" pathValue.

Definition StripRightmostBackupName (path : string) : string := stripBackupSuffix (snd (Split (Trim path))).

Definition StripLeftmostBackupName (path : string) : string := stripBackupSuffix (before "/" (Trim path)).

Definition StripPrefixName (path : string) : string := snd (Split (Trim path)).

Definition SentinelNameFromBackup (backupName : string) : string := backupName +s SentinelSuffix.

(** ** Objects and folders *)

(** A time is a number of nanoseconds. *)
Record Object := mkObject { GetName : string; GetLastModified : Z; GetSize : Z }.

(** [storage.Folder]: the objects a folder lists are named relative to it. *)
Class BackupFolder (Folder : Type) := {
  GetSubFolder : Folder -> string -> Folder;
  GetPath : Folder -> string;
  ListFolder : Folder -> res pgError (list Object * list Folder);
  Exists : Folder -> string -> res pgError bool
}.

(** ** [backup_time.go] and [backup_util.go] *)

Record BackupTime := mkBackupTime { bName : string; bTime : Z; bWalFileName : string }.

Section Util.
Context {sorter : SortSlice} {Folder : Type} `{BackupFolder Folder}.
Implicit Types folder : Folder.

Definition GetBackupTimeSlices (backups : list Object) : list BackupTime :=
  (fun object => let key := GetName object in
     mkBackupTime (StripRightmostBackupName key) (GetLastModified object) (StripWalFileName key))
  <$> List.filter (fun object => HasSuffix (GetName object) SentinelSuffix) backups.

Definition SortBackupTimeSlices (backupTimes : list BackupTime) : list BackupTime :=
  Slice (fun a b => bTime a <? bTime b) backupTimes.

(** The names of the subfolders without a backup. *)
Definition GetGarbageFromPrefix (folders : list Folder) (nonGarbage : list BackupTime) : list string :=
  List.filter (fun backupName => negb (bool_decide (backupName ∈ bName <$> nonGarbage)))
    ((fun folder => StripPrefixName (GetPath folder)) <$> folders).

Definition GetBackupsAndGarbage folder : res pgError (list BackupTime * list string) :=
  '(backupObjects, subFolders) ← ListFolder folder;
  let sortTimes := GetBackupTimeSlices backupObjects in
  Ok (sortTimes, GetGarbageFromPrefix subFolders sortTimes).

Definition GetBackups folder : res pgError (list BackupTime) :=
  '(backups, _) ← GetBackupsAndGarbage folder;
  if (length backups =? 0)%nat then Err NoBackupsFoundError else Ok backups.

Definition GetLatestBackupName folder : res pgError string :=
  backupTimes ← GetBackups folder;
  match last (SortBackupTimeSlices backupTimes) with
  | Some b => Ok (bName b)
  | None => Err Panic
  end.

Definition GetBackupSentinelObjects folder : res pgError (list Object) :=
  '(objects, _) ← ListFolder (GetSubFolder folder BaseBackupPath);
  Ok (List.filter (fun object => HasSuffix (GetName object) SentinelSuffix) objects).

Definition UnwrapLatestModifier (backupName : string) folder : res pgError string :=
  if negb (bool_decide (backupName = LatestString)) then Ok backupName else GetLatestBackupName folder.

Definition FolderSize folder (path : string) : res pgError Z :=
  '(dataObjects, _) ← ListFolder (GetSubFolder folder path);
  Ok (foldl (fun size obj => size + GetSize obj) 0 dataObjects).

(** The keys handed to [DeleteObjects], when every listing succeeds. *)
Fixpoint DeleteGarbage folder (garbage : list string) : res pgError (list string) :=
  match garbage with
  | [] => Ok []
  | prefix :: garbage =>
      '(garbageObjects, _) ← ListFolder (GetSubFolder folder prefix);
      keys ← DeleteGarbage folder garbage;
      Ok (((fun obj => GoPath.Join prefix (GetName obj)) <$> garbageObjects) ++ keys)
  end.

Fixpoint DeleteBackups folder (backups : list string) : res pgError (list string) :=
  match backups with
  | [] => Ok []
  | backupName :: backups =>
      '(dataObjects, _) ← ListFolder (GetSubFolder folder backupName);
      keys ← DeleteBackups folder backups;
      Ok (SentinelNameFromBackup backupName :: ((fun obj => GoPath.Join backupName (GetName obj)) <$> dataObjects) ++ keys)
  end.
End Util.

(** [TimedBackup] *)
Record TimedBackup := mkTimedBackup { tbName : string; tbStartTime : Z; tbIsPermanent : bool }.

Definition SortTimedBackup {sorter : SortSlice} (backups : list TimedBackup) : list TimedBackup :=
  Slice (fun b1 b2 => tbStartTime b2 <? tbStartTime b1) backups.

(** The loop, with the number of backups retained by count. *)
Fixpoint splitLoop (backups : list TimedBackup) (retainCount retainAfter : option Z) (retainedCount : Z)
    (purge retain : gset string) : gset string * gset string :=
  match backups with
  | [] => (purge, retain)
  | backup :: backups =>
      if tbIsPermanent backup then
        splitLoop backups retainCount retainAfter retainedCount purge ({[ tbName backup ]} ∪ retain)
      else if match retainCount with Some n => retainedCount <? n | None => false end then
        splitLoop backups retainCount retainAfter (retainedCount + 1) purge ({[ tbName backup ]} ∪ retain)
      else if match retainAfter with Some t => t <? tbStartTime backup | None => false end then
        splitLoop backups retainCount retainAfter retainedCount purge ({[ tbName backup ]} ∪ retain)
      else splitLoop backups retainCount retainAfter retainedCount ({[ tbName backup ]} ∪ purge) retain
  end.

(** The names to purge and those to retain. *)
Definition SplitPurgingBackups (backups : list TimedBackup) (retainCount retainAfter : option Z)
  : gset string * gset string := splitLoop backups retainCount retainAfter 0 ∅ ∅.

(** ** [generic_metadata.go], [backup.go] and [backup_selector.go] *)

Record IncrementDetails := mkIncrementDetails {
  IncrementFrom : string;
  IncrementFullName : string;
  IncrementCount : Z
}.

(** [incrementDetails] is what [IncrementDetails.Fetch] answers when it is
    called, [None] for a full backup. *)
Record GenericMetadata (UserData : Type) := mkMetadata {
  mdBackupName : string;
  mdUncompressedSize : Z;
  mdCompressedSize : Z;
  mdHostname : string;
  mdStartTime : Z;
  mdFinishTime : Z;
  IsPermanent : bool;
  incrementDetails : res pgError (option IncrementDetails);
  userData : UserData
}.
Arguments mkMetadata {_}.
Arguments mdBackupName {_}.
Arguments mdUncompressedSize {_}.
Arguments mdCompressedSize {_}.
Arguments mdHostname {_}.
Arguments mdStartTime {_}.
Arguments mdFinishTime {_}.
Arguments IsPermanent {_}.
Arguments incrementDetails {_}.
Arguments userData {_}.

Section Selector.
Context {sorter : SortSlice} {Folder : Type} `{BackupFolder Folder} {UserData : Type} `{EqDecision UserData}.
(** [GenericMetaFetcher]. *)
Variable Fetch : string -> Folder -> res pgError (GenericMetadata UserData).
Implicit Types folder : Folder.

(** [BackupNonExistenceError] is [NoBackupsFoundError] with the name. *)
Definition AssureExists (name : string) folder : res pgError unit :=
  exists_ ← Exists folder (SentinelNameFromBackup name);
  if (exists_ : bool) then Ok tt else Err (Wrapped name NoBackupsFoundError).

(** The name of the backup [GetBackupByName] returns. *)
Definition GetBackupByName (backupName subfolder : string) folder : res pgError string :=
  let baseBackupFolder := GetSubFolder folder subfolder in
  if bool_decide (backupName = LatestString) then GetLatestBackupName baseBackupFolder
  else _ ← AssureExists backupName baseBackupFolder; Ok backupName.

(** Metadata that cannot be fetched is passed over with a warning. *)
Definition searchInMetadata (criteria : GenericMetadata UserData -> bool) folder
  : res pgError (list (GenericMetadata UserData)) :=
  backups ← GetBackupSentinelObjects folder;
  Ok (GetBackupTimeSlices backups ≫= fun backupTime =>
    match Fetch (bName backupTime) (GetSubFolder folder BaseBackupPath) with
    | Err _ => []
    | Ok meta => if criteria meta then [meta] else []
    end).

Definition findBackupByUserData (data : UserData) folder : res pgError string :=
  foundBackups ← searchInMetadata (fun d => bool_decide (data = userData d)) folder;
  match foundBackups with
  | [] => Err (External "no backups found with specified user data")
  | [meta] => Ok (mdBackupName meta)
  | _ => Err (External "too many backups found with specified user data")
  end.

Inductive BackupSelector :=
| LatestBackupSelector
| UserDataBackupSelector (data : UserData)
| BackupNameSelector (backupName : string).

Definition Select (s : BackupSelector) folder : res pgError string :=
  match s with
  | LatestBackupSelector => GetLatestBackupName (GetSubFolder folder BaseBackupPath)
  | UserDataBackupSelector data => findBackupByUserData data folder
  | BackupNameSelector backupName =>
      _ ← GetBackupByName backupName BaseBackupPath folder; Ok backupName
  end.

(** [UnmarshalSentinelUserData] is an argument: JSON, or the text itself. *)
Definition NewTargetBackupSelector (UnmarshalSentinelUserData : string -> UserData)
    (targetUserData targetName : string) : res pgError BackupSelector :=
  if negb (bool_decide (targetName = "")) && negb (bool_decide (targetUserData = "")) then
    Err (External "incorrect arguments. Specify target backup name OR target userdata, not both")
  else if bool_decide (targetName = LatestString) then Ok LatestBackupSelector
  else if negb (bool_decide (targetName = "")) then Ok (BackupNameSelector targetName)
  else if negb (bool_decide (targetUserData = "")) then
    Ok (UserDataBackupSelector (UnmarshalSentinelUserData targetUserData))
  else Err (External "insufficient arguments").
End Selector.

(** ** Lemmas: names *)

Lemma prefix_cons a p c s :
  String.prefix (String a p) (String c s) = bool_decide (a = c) && String.prefix p s.
Proof.
  cbn. destruct (Ascii.ascii_dec a c); [by rewrite bool_decide_eq_true_2 | by rewrite bool_decide_eq_false_2].
Qed.

Lemma prefix_backup s r :
  String.prefix "_backup" (s +s "_backup" +s r) = true -> s = "" \/ String.prefix "_backup" s = true.
Proof.
  intros H. destruct s as [|c s]; [by left|]. right. revert H. cbn [String.append]. rewrite !prefix_cons.
  do 6 (destruct (bool_decide _); [cbn [andb]|done];
        destruct s as [|? s]; [done|cbn [String.append]; rewrite !prefix_cons]).
  by destruct (bool_decide _), s.
Qed.

Lemma before_cons sep c s :
  before sep (String c s) = if String.prefix sep (String c s) then "" else String c (before sep s).
Proof. reflexivity. Qed.

Lemma before_backup s r : Contains s "_backup" = false -> before "_backup" (s +s "_backup" +s r) = s.
Proof.
  induction s as [|c s IH]; intros Hc.
  - by destruct r.
  - cbn [Contains] in Hc. apply orb_false_iff in Hc as [Hp Hc].
    change (String c s +s "_backup" +s r) with (String c (s +s "_backup" +s r)).
    rewrite before_cons, IH by done.
    destruct (String.prefix "_backup" (String c (s +s "_backup" +s r))) eqn:E; [|done].
    change (String c (s +s "_backup" +s r)) with (String c s +s "_backup" +s r) in E.
    apply prefix_backup in E as [?|E]; [done|]. congruence.
Qed.

(** A backup's name: not empty, in one piece, and not cut short. *)
Definition backup_name_ok (name : string) : bool :=
  negb (bool_decide (name = "")) && allIn notSlash name && negb (Contains name "_backup").

Lemma trimLeft_noslash s rest : s <> "" -> allIn notSlash s = true -> trimLeft (s +s rest) = s +s rest.
Proof.
  destruct s as [|c s]; [done|]. cbn. intros _ Hn. bool_to_prop. unfold notSlash in *. bool_to_prop.
  by rewrite bool_decide_eq_false_2.
Qed.

Lemma Strip_sentinel name : backup_name_ok name = true ->
  StripRightmostBackupName (SentinelNameFromBackup name) = name.
Proof.
  unfold backup_name_ok, StripRightmostBackupName, SentinelNameFromBackup, Trim. intros Hn. bool_to_prop.
  rewrite trimLeft_noslash by done. rewrite stripSlashes_app by done.
  rewrite Split_noslash by (rewrite allIn_app; apply andb_true_iff; by split).
  cbn [snd]. unfold stripBackupSuffix, SentinelSuffix.
  change "_backup_stop_sentinel.json" with ("_backup" +s "_stop_sentinel.json"). by apply before_backup.
Qed.

(** ** Lemmas: purging *)

Definition temporary (b : TimedBackup) : bool := negb (tbIsPermanent b).
Definition startedAfter (retainAfter : option Z) (b : TimedBackup) : bool :=
  match retainAfter with Some t => t <? tbStartTime b | None => false end.
Definition retainedByCount (retainCount : option Z) : nat :=
  match retainCount with Some n => Z.to_nat n | None => 0 end.

Definition namesOf (bs : list TimedBackup) : gset string := list_to_set (tbName <$> bs).

Lemma namesOf_cons b bs : namesOf (b :: bs) = {[ tbName b ]} ∪ namesOf bs.
Proof. done. Qed.

Lemma elem_of_namesOf s bs : s ∈ namesOf bs <-> exists b, b ∈ bs /\ tbName b = s.
Proof. unfold namesOf. rewrite elem_of_list_to_set, list_elem_of_fmap. naive_solver. Qed.

(** Once the count is used up. *)
Definition left_to_count (retainCount : option Z) (retained : Z) : nat :=
  match retainCount with Some n => Z.to_nat (n - retained) | None => 0 end.

(** What the loop adds to the two sets. *)
Lemma splitLoop_spec backups rc ra : forall retained purge retain, 0 <= retained ->
  let t := List.filter temporary backups in
  let k := left_to_count rc retained in
  splitLoop backups rc ra retained purge retain =
    (namesOf (List.filter (fun b => negb (startedAfter ra b)) (drop k t)) ∪ purge,
     namesOf (List.filter tbIsPermanent backups) ∪ namesOf (take k t)
       ∪ namesOf (List.filter (startedAfter ra) (drop k t)) ∪ retain).
Proof.
  induction backups as [|b bs IH]; intros retained purge retain Hr.
  { cbn. rewrite drop_nil, take_nil. cbn. f_equal; set_solver. }
  cbn [splitLoop List.filter]. destruct (tbIsPermanent b) eqn:Hp;
    [assert (temporary b = false) as -> by (unfold temporary; by rewrite Hp)
    |assert (temporary b = true) as -> by (unfold temporary; by rewrite Hp)].
  { rewrite IH by done. rewrite namesOf_cons. f_equal; set_solver. }
  fold (startedAfter ra b). destruct (left_to_count rc retained) as [|k] eqn:Hk.
  - replace (match rc with Some n => retained <? n | None => false end) with false
      by (destruct rc; [cbn in Hk; symmetry; apply Z.ltb_ge; lia|done]).
    rewrite take_0, drop_0. cbn [List.filter].
    destruct (startedAfter ra b) eqn:Ha; cbn [negb]; rewrite IH, Hk by done;
      rewrite take_0, drop_0, ?namesOf_cons; f_equal; set_solver.
  - destruct rc as [n|]; [|done]. cbn in Hk. rewrite (proj2 (Z.ltb_lt retained n)) by lia.
    rewrite IH by lia. replace (left_to_count (Some n) (retained + 1)) with k by (cbn; lia).
    cbn [take drop]. rewrite namesOf_cons. f_equal; set_solver.
Qed.

(** The backups of the storage, the most recent first. *)
Lemma SortTimedBackup_sorted {sorter : SortSlice} bs :
  StronglySorted (fun a b => tbStartTime b <= tbStartTime a) (SortTimedBackup bs).
Proof.
  eapply StronglySorted_weaken; [|apply (Slice_sorted _ _ (StrictWeak_key_desc tbStartTime))].
  unfold not_after. intros a b H. apply Z.ltb_ge in H. lia.
Qed.

Definition newer_than (b b' : TimedBackup) : bool := tbStartTime b <? tbStartTime b'.
Definition as_recent_as (b b' : TimedBackup) : bool := tbStartTime b <=? tbStartTime b'.

Notation most_recent_first := (StronglySorted (fun a b => tbStartTime b <= tbStartTime a)).

(** A backup among the first [k] has fewer than [k] newer ones. *)
Lemma newer_of_first bs : forall k b, most_recent_first bs -> b ∈ take k bs ->
  (length (List.filter (newer_than b) bs) < k)%nat.
Proof.
  induction bs as [|x bs IH]; intros [|k] b Hs Hb; try by apply elem_of_nil in Hb.
  apply StronglySorted_cons in Hs as [Hx Hs]. rewrite Forall_forall in Hx. cbn [take] in Hb.
  apply elem_of_cons in Hb as [-> | Hb].
  - cbn. unfold newer_than at 1. rewrite Z.ltb_irrefl.
    rewrite (filter_all_false (newer_than x) bs); [cbn; lia|].
    intros y Hy. apply Z.ltb_ge. auto.
  - specialize (IH k b Hs Hb). cbn. destruct (newer_than b x); cbn; lia.
Qed.

(** One after the first [k] has at least [k] others as recent as it. *)
Lemma as_recent_of_rest bs : forall k b, most_recent_first bs -> b ∈ drop k bs ->
  (k < length (List.filter (as_recent_as b) bs))%nat.
Proof.
  induction bs as [|x bs IH]; intros k b Hs Hb; [rewrite drop_nil in Hb; by apply elem_of_nil in Hb|].
  apply StronglySorted_cons in Hs as [Hx Hs]. rewrite Forall_forall in Hx.
  assert (x = b \/ b ∈ bs) as Hin by (destruct k; cbn in Hb; [set_solver|right; by eapply elem_of_drop_in]).
  cbn. replace (as_recent_as b x) with true
    by (symmetry; apply Z.leb_le; destruct Hin as [-> | Hin]; [lia|by apply Hx]).
  destruct k as [|k]; cbn; [lia|]. specialize (IH k b Hs Hb). lia.
Qed.

Section Purge.
Context {sorter : SortSlice}.
Implicit Types (bs : list TimedBackup) (b : TimedBackup).

(** The backups kept whatever their age. *)
Lemma split_sorted bs rc ra :
  let t := List.filter temporary (SortTimedBackup bs) in
  let k := retainedByCount rc in
  SplitPurgingBackups (SortTimedBackup bs) rc ra =
    (namesOf (List.filter (fun b => negb (startedAfter ra b)) (drop k t)),
     namesOf (List.filter tbIsPermanent (SortTimedBackup bs)) ∪ namesOf (take k t)
       ∪ namesOf (List.filter (startedAfter ra) (drop k t))).
Proof.
  cbn zeta. unfold SplitPurgingBackups. rewrite splitLoop_spec by lia.
  replace (left_to_count rc 0) with (retainedByCount rc) by (destruct rc; cbn; [f_equal; lia|done]).
  f_equal; apply leibniz_equiv, right_id, _.
Qed.

Lemma count_temporary (p : TimedBackup -> bool) bs :
  length (List.filter p (List.filter temporary (SortTimedBackup bs))) =
  length (List.filter (fun b => temporary b && p b) bs).
Proof. rewrite filter_filter_and. apply Permutation_length, filter_perm, Slice_perm. Qed.

Lemma temporaries_sorted bs : most_recent_first (List.filter temporary (SortTimedBackup bs)).
Proof. apply StronglySorted_filter_b, SortTimedBackup_sorted. Qed.

Lemma names_inj bs b b' :
  NoDup (tbName <$> bs) -> b ∈ bs -> b' ∈ bs -> tbName b = tbName b' -> b = b'.
Proof.
  intros Hnd [i Hi]%list_elem_of_lookup [j Hj]%list_elem_of_lookup E.
  assert (i = j) as <- by (eapply (NoDup_lookup _ i j); [done| |]; rewrite list_lookup_fmap, ?Hi, ?Hj; cbn; by f_equal).
  congruence.
Qed.

Lemma in_namesOf bs l b :
  NoDup (tbName <$> bs) -> b ∈ bs -> (forall x, x ∈ l -> x ∈ bs) -> tbName b ∈ namesOf l <-> b ∈ l.
Proof.
  intros Hnd Hb Hl. rewrite elem_of_namesOf. split; [|by eauto].
  intros (x & Hx & E). by rewrite <- (names_inj bs x b) by auto.
Qed.

Lemma SortTimedBackup_elem bs x : x ∈ SortTimedBackup bs <-> x ∈ bs.
Proof. apply Slice_elem. Qed.

Lemma temporaries_in bs x : x ∈ List.filter temporary (SortTimedBackup bs) <-> x ∈ bs /\ tbIsPermanent x = false.
Proof. rewrite elem_of_filter_b, SortTimedBackup_elem. unfold temporary. rewrite negb_true_iff. tauto. Qed.

(** Each backup of the storage is in one of the two sets. *)
Lemma split_cases bs rc ra b : NoDup (tbName <$> bs) -> b ∈ bs ->
  let '(purge, retain) := SplitPurgingBackups (SortTimedBackup bs) rc ra in
  let t := List.filter temporary (SortTimedBackup bs) in
  let k := retainedByCount rc in
  (tbName b ∈ purge <-> startedAfter ra b = false /\ b ∈ drop k t) /\
  (tbName b ∈ retain <-> tbIsPermanent b = true \/ b ∈ take k t \/ startedAfter ra b = true /\ b ∈ drop k t).
Proof.
  intros Hnd Hb. rewrite split_sorted. cbn zeta.
  set (t := List.filter temporary _). set (k := retainedByCount _).
  assert (Ht : forall x, x ∈ t -> x ∈ bs) by (intros x Hx; by apply temporaries_in in Hx as [? _]).
  assert (Htk : forall x, x ∈ take k t \/ x ∈ drop k t -> x ∈ bs)
    by (intros x Hx; apply Ht; rewrite <- (take_drop k t); set_solver).
  rewrite !elem_of_union, !(in_namesOf bs) by
    (done || intros x; rewrite ?elem_of_filter_b, ?SortTimedBackup_elem; naive_solver).
  rewrite !elem_of_filter_b, SortTimedBackup_elem, negb_true_iff. tauto.
Qed.

(** The backups to purge, sorted by [SortTimedBackup]: the two sets share
    the backups out; a purged backup is not permanent, was not started after the
    given time, and is older than the number of temporary backups to retain; a
    retained one is permanent, or started after that time, or among the most
    recent temporary backups. *)
Theorem SplitPurgingBackups_spec bs retainCount retainAfter b :
  NoDup (tbName <$> bs) -> b ∈ bs ->
  let '(purge, retain) := SplitPurgingBackups (SortTimedBackup bs) retainCount retainAfter in
  let n := retainedByCount retainCount in
  (tbName b ∈ retain <-> tbName b ∉ purge) /\
  (tbName b ∈ purge ->
     tbIsPermanent b = false /\ startedAfter retainAfter b = false /\
     (n < length (List.filter (fun b' => temporary b' && as_recent_as b b') bs))%nat) /\
  (tbName b ∈ retain ->
     tbIsPermanent b = true \/ startedAfter retainAfter b = true \/
     (length (List.filter (fun b' => temporary b' && newer_than b b') bs) < n)%nat).
Proof.
  intros Hnd Hb. pose proof (split_cases bs retainCount retainAfter b Hnd Hb) as H.
  pose proof (temporaries_in bs b) as Hin. pose proof (temporaries_sorted bs) as Hs.
  assert (NoDup (List.filter temporary (SortTimedBackup bs))) as Ht.
  { apply NoDup_filter_b. unfold SortTimedBackup. rewrite Slice_perm. by apply NoDup_fmap_1 in Hnd. }
  destruct (SplitPurgingBackups _ _ _) as [purge retain]. cbn zeta in *. destruct H as [-> ->].
  rewrite <- !count_temporary. set (t := List.filter temporary (SortTimedBackup bs)) in *.
  set (k := retainedByCount retainCount) in *.
  rewrite <- (take_drop k t) in Ht, Hin. rewrite elem_of_app in Hin.
  apply NoDup_app in Ht as (_ & Hdisj & _). specialize (Hdisj b).
  pose proof (newer_of_first t k b Hs). pose proof (as_recent_of_rest t k b Hs).
  destruct (tbIsPermanent b), (startedAfter retainAfter b); naive_solver.
Qed.
End Purge.

(** ** A folder in memory, for the examples *)

Module Mem.
(** The objects by their full names, and the path of the folder in them. *)
Record Folder := mkFolder { files : list Object; path : string }.

Definition asPath (p : string) : string := if HasSuffix p "/" || bool_decide (p = "") then p else p +s "/".

(** The objects below the folder, by their relative names. *)
Definition below (f : Folder) : list Object :=
  files f ≫= fun o =>
    if HasPrefix (GetName o) (path f)
    then [mkObject (sdrop (slen (path f)) (GetName o)) (GetLastModified o) (GetSize o)] else [].

Definition subFolderNames (f : Folder) : list string :=
  remove_dups (below f ≫= fun o => let d := before "/" (GetName o) in
    if bool_decide (d = GetName o) then [] else [d]).

#[global] Instance memFolder : BackupFolder Folder := {|
  GetSubFolder f p := mkFolder (files f) (path f +s asPath p);
  GetPath f := path f;
  ListFolder f := Ok (List.filter (fun o => negb (Contains (GetName o) "/")) (below f),
                      (fun d => mkFolder (files f) (path f +s d +s "/")) <$> subFolderNames f);
  Exists f name := Ok (existsb (fun o => bool_decide (GetName o = name)) (below f))
|}.

Definition obj (name : string) (t : Z) : Object := mkObject name t 1.

(** Two full backups with an increment of the first, and the remains of a third. *)
Definition storage : Folder := mkFolder
  [obj "basebackups_005/base_000000010000000000000002_backup_stop_sentinel.json" 20;
   obj "basebackups_005/base_000000010000000000000002/metadata.json" 21;
   obj "basebackups_005/base_000000010000000000000002/tar_partitions/part_1.tar.lz4" 22;
   obj "basebackups_005/base_000000010000000000000004_D_000000010000000000000002_backup_stop_sentinel.json" 40;
   obj "basebackups_005/base_000000010000000000000006_backup_stop_sentinel.json" 60;
   obj "basebackups_005/base_000000010000000000000007/metadata.json" 70;
   obj "wal_005/000000010000000000000001.lz4" 10;
   obj "wal_005/000000010000000000000002.lz4" 20;
   obj "wal_005/000000010000000000000003.lz4" 30;
   obj "wal_005/000000010000000000000006.lz4" 60] "".

Definition backups : Folder := GetSubFolder storage BaseBackupPath.
End Mem.

Lemma SplitPurgingBackups_spec_witness :
  let bs := [mkTimedBackup "a" 1 false; mkTimedBackup "b" 2 true; mkTimedBackup "c" 3 false] in
  @SplitPurgingBackups (@SortTimedBackup InsertionSort bs) (Some 1) None = ({["a"]}, {["b"; "c"]}) /\
  (1 < length (List.filter (fun b' => temporary b' && as_recent_as (mkTimedBackup "a" 1 false) b') bs))%nat.
Proof.
  intros bs. split; [by vm_compute|].
  assert (NoDup (tbName <$> bs)) as Hnd by (by apply (bool_decide_unpack _); vm_compute).
  pose proof (@SplitPurgingBackups_spec InsertionSort bs (Some 1) None (mkTimedBackup "a" 1 false) Hnd) as H.
  apply H; [set_solver|]. by apply (bool_decide_unpack _); vm_compute.
Defined.

Example Mem_backups :
  GetBackupsAndGarbage Mem.backups =
  Ok ([mkBackupTime "base_000000010000000000000002" 20 "000000010000000000000002";
       mkBackupTime "base_000000010000000000000004_D_000000010000000000000002" 40 "000000010000000000000004";
       mkBackupTime "base_000000010000000000000006" 60 "000000010000000000000006"],
      ["base_000000010000000000000007"]).
Proof. by vm_compute. Qed.

(** ** Properties of the listing *)

Section Listing.
Context {sorter : SortSlice} {Folder : Type} `{BackupFolder Folder}.
Implicit Types folder : Folder.

Definition isSentinel (o : Object) : bool := HasSuffix (GetName o) SentinelSuffix.

Definition slice_of (o : Object) : BackupTime :=
  mkBackupTime (StripRightmostBackupName (GetName o)) (GetLastModified o) (StripWalFileName (GetName o)).

Lemma elem_of_slices objects b :
  b ∈ GetBackupTimeSlices objects <-> exists o, b = slice_of o /\ o ∈ objects /\ isSentinel o = true.
Proof.
  unfold GetBackupTimeSlices. rewrite list_elem_of_fmap. unfold isSentinel.
  split; intros (o & ? & Ho); exists o; [apply elem_of_filter_b in Ho|split; [|apply elem_of_filter_b]]; naive_solver.
Qed.

Lemma elem_of_garbage (subFolders : list Folder) objects name :
  name ∈ GetGarbageFromPrefix subFolders (GetBackupTimeSlices objects) <->
  exists sub, name = StripPrefixName (GetPath sub) /\ sub ∈ subFolders /\
    forall o, o ∈ objects -> isSentinel o = true -> StripRightmostBackupName (GetName o) <> name.
Proof.
  unfold GetGarbageFromPrefix. rewrite elem_of_filter_b, negb_true_iff, bool_decide_eq_false, !list_elem_of_fmap.
  setoid_rewrite elem_of_slices. unfold slice_of. split.
  - intros [Hn (sub & -> & Hs)]. exists sub. do 2 (split; [done|]). intros o Ho Hso E. apply Hn.
    exists (slice_of o). eauto.
  - intros (sub & -> & Hs & Hn). split; [|by eauto]. intros (b & Eb & o & -> & Ho & Hso).
    by apply (Hn o).
Qed.

Lemma elem_of_DeleteGarbage folder garbage : forall keys, DeleteGarbage folder garbage = Ok keys -> forall key,
  key ∈ keys <-> exists name, name ∈ garbage /\ exists objs subs obj,
    ListFolder (GetSubFolder folder name) = Ok (objs, subs) /\ obj ∈ objs /\ key = GoPath.Join name (GetName obj).
Proof.
  induction garbage as [|g garbage IH]; cbn; intros keys.
  { intros [= <-] key. set_solver. }
  destruct (ListFolder (GetSubFolder folder g)) as [[objs subs]|e] eqn:El; [|done]. cbn.
  destruct (DeleteGarbage folder garbage) as [ks|e] eqn:Ed; [|done]. cbn. intros [= <-] key.
  rewrite elem_of_app, list_elem_of_fmap, (IH ks eq_refl). setoid_rewrite elem_of_cons. split.
  - intros [(o & -> & Ho)|(name & Hn & Hx)]; [|by eauto]. exists g. split; [by left|]. eauto 10.
  - intros (name & [-> | Hn] & Hx); [left|right; by eauto].
    destruct Hx as (? & ? & o & Hls & Ho & ->). rewrite El in Hls. injection Hls as <- <-. eauto.
Qed.

(** [LATEST]. It is an error when no sentinel is listed; otherwise it is the
    name of a listed backup, and no listed sentinel was modified later. *)
Theorem GetLatestBackupName_spec folder objects subFolders :
  ListFolder folder = Ok (objects, subFolders) ->
  match GetLatestBackupName folder with
  | Ok name => exists o, o ∈ objects /\ isSentinel o = true /\
      name = StripRightmostBackupName (GetName o) /\
      forall o', o' ∈ objects -> isSentinel o' = true -> GetLastModified o' <= GetLastModified o
  | Err e => e = NoBackupsFoundError /\ forall o, o ∈ objects -> isSentinel o = false
  end.
Proof.
  intros Hl. unfold GetLatestBackupName, GetBackups, GetBackupsAndGarbage. rewrite Hl. cbn.
  destruct (length (GetBackupTimeSlices objects) =? 0)%nat eqn:E; cbn.
  - split; [done|]. intros o Ho. apply Nat.eqb_eq, nil_length_inv in E.
    destruct (isSentinel o) eqn:Hs; [|done]. exfalso.
    assert (slice_of o ∈ GetBackupTimeSlices objects) as Hin by (apply elem_of_slices; eauto).
    rewrite E in Hin. by apply elem_of_nil in Hin.
  - pose proof (Slice_sorted _ (GetBackupTimeSlices objects) (StrictWeak_key bTime)) as Hs.
    fold (SortBackupTimeSlices (GetBackupTimeSlices objects)) in Hs.
    destruct (last (SortBackupTimeSlices _)) as [b|] eqn:El.
    + destruct (last_sorted _ _ _ Hs El) as [Hb Hmax]. unfold SortBackupTimeSlices in *.
      rewrite Slice_elem in Hb. apply elem_of_slices in Hb as (o & -> & Ho & Hso).
      exists o. do 3 (split; [done|]). intros o' Ho' Hso'.
      specialize (Hmax (slice_of o')). rewrite Slice_elem, elem_of_slices in Hmax.
      destruct Hmax as [[=]|Hle]; [by eauto|lia|]. unfold not_after in Hle. cbn in Hle. apply Z.ltb_ge in Hle. lia.
    + apply last_None in El. apply (f_equal length) in El. unfold SortBackupTimeSlices in El.
      rewrite Slice_length in El. cbn in El. by rewrite El in E.
Qed.

(** The keys purged as garbage are the objects of the subfolders that no
    listed sentinel names: never a file of a backup. *)
Theorem DeleteGarbage_spec folder objects subFolders backups garbage keys :
  ListFolder folder = Ok (objects, subFolders) ->
  GetBackupsAndGarbage folder = Ok (backups, garbage) ->
  DeleteGarbage folder garbage = Ok keys ->
  forall key, key ∈ keys <->
    exists sub obj objs subs, sub ∈ subFolders /\
      let name := StripPrefixName (GetPath sub) in
      (forall o, o ∈ objects -> isSentinel o = true -> StripRightmostBackupName (GetName o) <> name) /\
      ListFolder (GetSubFolder folder name) = Ok (objs, subs) /\ obj ∈ objs /\ key = GoPath.Join name (GetName obj).
Proof.
  intros Hl. unfold GetBackupsAndGarbage. rewrite Hl. cbn. intros [= <- <-] Hd key.
  rewrite (elem_of_DeleteGarbage _ _ _ Hd). split.
  - intros (name & (sub & -> & Hs & Hnb)%elem_of_garbage & objs & subs & obj & Hls & Ho & ->).
    exists sub, obj, objs, subs. do 2 (split; [done|]). by do 2 (split; [done|]).
  - intros (sub & obj & objs & subs & Hs & Hnb & Hls & Ho & ->).
    exists (StripPrefixName (GetPath sub)). split; [|by eauto 10].
    apply elem_of_garbage. eauto.
Qed.
End Listing.

Lemma GetLatestBackupName_spec_witness :
  @GetLatestBackupName InsertionSort Mem.Folder _ Mem.backups = Ok "base_000000010000000000000006" /\
  exists o, isSentinel o = true /\ "base_000000010000000000000006" = StripRightmostBackupName (GetName o).
Proof.
  assert (@GetLatestBackupName InsertionSort Mem.Folder _ Mem.backups = Ok "base_000000010000000000000006") as E
    by by vm_compute.
  split; [done|].
  pose proof (@GetLatestBackupName_spec InsertionSort Mem.Folder _ Mem.backups _ _ eq_refl) as H.
  rewrite E in H. destruct H as (o & _ & Hs & Hn & _). by exists o.
Defined.

Lemma DeleteGarbage_spec_witness :
  DeleteGarbage Mem.backups ["base_000000010000000000000007"] = Ok ["base_000000010000000000000007/metadata.json"] /\
  exists name obj, GetName obj = "metadata.json" /\
    "base_000000010000000000000007/metadata.json" = GoPath.Join name (GetName obj).
Proof.
  split; [by vm_compute|].
  assert (exists objects subFolders, ListFolder Mem.backups = Ok (objects, subFolders)) as (objects & subFolders & Hl)
    by (eexists _, _; reflexivity).
  destruct (proj1 (DeleteGarbage_spec Mem.backups objects subFolders _ ["base_000000010000000000000007"]
    ["base_000000010000000000000007/metadata.json"] Hl Mem_backups ltac:(by vm_compute)
    "base_000000010000000000000007/metadata.json") ltac:(set_solver))
    as (sub & obj & objs & subs & _ & _ & Hls & Ho & E).
  eexists "base_000000010000000000000007", (Mem.obj "metadata.json" 70). by vm_compute.
Defined.

(** ** Properties of the selection *)

Section Selection.
Context {sorter : SortSlice} {Folder : Type} `{BackupFolder Folder} {UserData : Type} `{EqDecision UserData}.
Variable Fetch : string -> Folder -> res pgError (GenericMetadata UserData).
Implicit Types folder : Folder.

(** The metadata of the listed backups, those that cannot be fetched left out. *)
Definition fetched folder (objects : list Object) : list (GenericMetadata UserData) :=
  List.filter isSentinel objects ≫= fun o =>
    match Fetch (StripRightmostBackupName (GetName o)) (GetSubFolder folder BaseBackupPath) with
    | Ok meta => [meta]
    | Err _ => []
    end.

Lemma filter_idem {A} (p : A -> bool) l : List.filter p (List.filter p l) = List.filter p l.
Proof. rewrite filter_filter_and. apply List.filter_ext. intros x. by destruct (p x). Qed.

Lemma searchInMetadata_filter criteria folder objects subFolders :
  ListFolder (GetSubFolder folder BaseBackupPath) = Ok (objects, subFolders) ->
  searchInMetadata Fetch criteria folder = Ok (List.filter criteria (fetched folder objects)).
Proof.
  intros Hl. unfold searchInMetadata, GetBackupSentinelObjects, fetched, GetBackupTimeSlices.
  rewrite Hl. cbn. fold isSentinel. rewrite filter_idem. f_equal.
  induction (List.filter isSentinel objects) as [|o l IH]; cbn; [done|].
  rewrite IH. destruct (Fetch _ _) as [meta|e]; cbn; [by destruct (criteria meta)|done].
Qed.

(** Selection by user data returns a name exactly when one single listed
    backup, among those whose metadata can be read, carries these data. *)
Lemma Select_user_data folder objects subFolders data name :
  ListFolder (GetSubFolder folder BaseBackupPath) = Ok (objects, subFolders) ->
  Select Fetch (UserDataBackupSelector data) folder = Ok name <->
  exists meta, mdBackupName meta = name /\
    List.filter (fun d => bool_decide (data = userData d)) (fetched folder objects) = [meta].
Proof.
  intros Hl. cbn. unfold findBackupByUserData. rewrite (searchInMetadata_filter _ _ _ _ Hl). cbn.
  destruct (List.filter _ _) as [|meta [|meta' l]]; split; try done.
  - intros (m & _ & [=]).
  - intros [= <-]. by exists meta.
  - intros (m & <- & [=]). by subst.
  - intros (m & _ & [=]).
Qed.
End Selection.
