(* ===== verification/BackupMeta.v ===== *)
(** * The metadata of a PostgreSQL backup

    [internal/backup.go] and, in [internal/databases/postgres],
    [backup_sentinel_dto.go] and [generic_meta_interactor.go]: the sentinel
    and the metadata object of a backup, how they are written and read, and
    the [GenericMetaInteractor] that marking works with. *)

From S2P Require Import Prelude GoStrings GoPath Timeline Backups.
Open Scope Z_scope.

(** ** Objects of a storage *)

(** [ReadObject] reads an object to its end; [PutObject] gives the storage
    with the new object, and its law is that of a store. *)
Class ObjectStore (Folder : Type) := {
  ReadObject : Folder -> string -> res pgError (list byte);
  PutObject : Folder -> string -> list byte -> res pgError Folder;
  PutObject_same folder name content folder' :
    PutObject folder name content = Ok folder' -> ReadObject folder' name = Ok content;
  PutObject_other folder name content folder' name' :
    PutObject folder name content = Ok folder' -> name' <> name -> ReadObject folder' name' = ReadObject folder name'
}.

(** [encoding/json] on one type. *)
Class Json (T : Type) := {
  Marshal : T -> res pgError (list byte);
  Unmarshal : list byte -> res pgError T;
  Unmarshal_Marshal dto content : Marshal dto = Ok content -> Unmarshal content = Ok dto
}.

(** The objects a folder lists are those directly in it. *)
Class ListedStore (Folder : Type) `{BackupFolder Folder} `{ObjectStore Folder} : Prop :=
  PutObject_below : forall folder name content folder',
    PutObject folder name content = Ok folder' -> Contains name "/" = true ->
    fst <$> ListFolder folder' = fst <$> ListFolder folder.

(** ** The interface to marking *)

Definition with_permanent {UserData} (v : bool) (m : GenericMetadata UserData) : GenericMetadata UserData :=
  mkMetadata (mdBackupName m) (mdUncompressedSize m) (mdCompressedSize m) (mdHostname m)
    (mdStartTime m) (mdFinishTime m) v (incrementDetails m) (userData m).

(** [GenericMetaInteractor]: setting the permanence of a backup changes this
    and nothing else. *)
Class MetaInteractor (Folder UserData : Type) `{BackupFolder Folder} := {
  miFetch : string -> Folder -> res pgError (GenericMetadata UserData);
  miSetIsPermanent : string -> Folder -> bool -> res pgError Folder;
  miFetch_name name folder m : miFetch name folder = Ok m -> mdBackupName m = name;
  miSet_same name folder v folder' : miSetIsPermanent name folder v = Ok folder' ->
    exists m, miFetch name folder = Ok m /\ miFetch name folder' = Ok (with_permanent v m);
  miSet_other name folder v folder' name' : miSetIsPermanent name folder v = Ok folder' ->
    name' <> name -> miFetch name' folder' = miFetch name' folder;
  miSet_listing name folder v folder' : miSetIsPermanent name folder v = Ok folder' ->
    fst <$> ListFolder folder' = fst <$> ListFolder folder
}.

(** ** [backup_sentinel_dto.go] *)

Definition MetadataDatetimeFormat : string := "%Y-%m-%dT%H:%M:%S.%fZ".
Definition MetadataFileName : string := "metadata.json".

(** The files, the tar sets and the tablespaces of a backup are one field here. *)
Record BackupSentinelDto (Content UserData : Type) := mkSentinel {
  BackupStartLSN : option Z;
  IncrementFromLSN : option Z;
  seIncrementFrom : option string;
  seIncrementFullName : option string;
  seIncrementCount : option Z;
  content : Content;
  sePgVersion : Z;
  BackupFinishLSN : option Z;
  seSystemIdentifier : option Z;
  seUncompressedSize : Z;
  seCompressedSize : Z;
  seUserData : UserData
}.
Arguments mkSentinel {_ _}.
Arguments BackupStartLSN {_ _}.
Arguments IncrementFromLSN {_ _}.
Arguments seIncrementFrom {_ _}.
Arguments seIncrementFullName {_ _}.
Arguments seIncrementCount {_ _}.
Arguments content {_ _}.
Arguments sePgVersion {_ _}.
Arguments BackupFinishLSN {_ _}.
Arguments seSystemIdentifier {_ _}.
Arguments seUncompressedSize {_ _}.
Arguments seCompressedSize {_ _}.
Arguments seUserData {_ _}.

Record ExtendedMetadataDto (UserData : Type) := mkExtended {
  StartTime : Z;
  FinishTime : Z;
  DatetimeFormat : string;
  Hostname : string;
  DataDir : string;
  PgVersion : Z;
  StartLsn : Z;
  FinishLsn : Z;
  emIsPermanent : bool;
  SystemIdentifier : option Z;
  UncompressedSize : Z;
  CompressedSize : Z;
  emUserData : UserData
}.
Arguments mkExtended {_}.
Arguments StartTime {_}.
Arguments FinishTime {_}.
Arguments DatetimeFormat {_}.
Arguments Hostname {_}.
Arguments DataDir {_}.
Arguments PgVersion {_}.
Arguments StartLsn {_}.
Arguments FinishLsn {_}.
Arguments emIsPermanent {_}.
Arguments SystemIdentifier {_}.
Arguments UncompressedSize {_}.
Arguments CompressedSize {_}.
Arguments emUserData {_}.

(** What [NewBackupSentinelDto] reads of the backup handler. *)
Record backupInfo := mkBackupInfo {
  startLSN : Z;
  endLSN : Z;
  incrementCount : Z;
  uncompressedSize : Z;
  compressedSize : Z
}.

Section Meta.
Context {Content UserData : Type}.
Notation Sentinel := (BackupSentinelDto Content UserData).
Notation Extended := (ExtendedMetadataDto UserData).

(** It panics on a sentinel that has an increment base and not all the rest. *)
Definition IsIncremental (dto : Sentinel) : res pgError bool :=
  match seIncrementFrom dto with
  | None => Ok false
  | Some _ =>
      match IncrementFromLSN dto, seIncrementFullName dto, seIncrementCount dto with
      | Some _, Some _, Some _ => Ok true
      | _, _, _ => Err Panic
      end
  end.

(** [prevName] and [prev]: the backup the new one is an increment of, with an
    empty sentinel when there is none. *)
Definition NewBackupSentinelDto (cur : backupInfo) (prevName : string) (prev : Sentinel)
    (pgVersion : Z) (systemIdentifier : option Z) (files : Content) (data : UserData) : res pgError Sentinel :=
  increment ←
    match BackupStartLSN prev with
    | None => Ok None
    | Some _ =>
        incremental ← IsIncremental prev;
        Ok (Some (prevName, if (incremental : bool) then seIncrementFullName prev else Some prevName,
                  incrementCount cur))
    end;
  Ok (mkSentinel (Some (startLSN cur)) (BackupStartLSN prev)
       ((fun i => fst (fst i)) <$> increment) ((increment : option (string * option string * Z)) ≫= fun i => snd (fst i)) (snd <$> increment)
       files pgVersion (Some (endLSN cur)) systemIdentifier (uncompressedSize cur) (compressedSize cur) data).

Definition NewExtendedMetadataDto (isPermanent : bool) (dataDir : string) (startTime now : Z)
    (hostname : string) (sentinelDto : Sentinel) : res pgError Extended :=
  match BackupStartLSN sentinelDto, BackupFinishLSN sentinelDto with
  | Some start, Some finish =>
      Ok (mkExtended startTime now MetadataDatetimeFormat hostname dataDir (sePgVersion sentinelDto)
           start finish isPermanent (seSystemIdentifier sentinelDto)
           (seUncompressedSize sentinelDto) (seCompressedSize sentinelDto) (seUserData sentinelDto))
  | _, _ => Err Panic
  end.

(** ** [backup.go] *)

Context {Folder : Type} `{!BackupFolder Folder} `{!ObjectStore Folder} `{Json (BackupSentinelDto Content UserData)}
  `{Json (ExtendedMetadataDto UserData)}.
Implicit Types (folder : Folder) (name : string).

Definition getStopSentinelPath name : string := SentinelNameFromBackup name.
Definition getMetadataPath name : string := name +s "/" +s MetadataFileName.

Definition FetchSentinel folder name : res pgError Sentinel :=
  data ← res_map_err (Wrapped "failed to fetch sentinel") (ReadObject folder (getStopSentinelPath name));
  res_map_err (Wrapped "failed to unmarshal sentinel") (Unmarshal data).

Definition FetchMetadata folder name : res pgError Extended :=
  data ← res_map_err (Wrapped "failed to fetch metadata") (ReadObject folder (getMetadataPath name));
  res_map_err (Wrapped "failed to unmarshal metadata") (Unmarshal data).

Definition UploadMetadata folder name (metadataDto : Extended) : res pgError Folder :=
  dtoBody ← Marshal metadataDto;
  PutObject folder (getMetadataPath name) dtoBody.

Definition UploadSentinel folder name (sentinelDto : Sentinel) : res pgError Folder :=
  dtoBody ← Marshal sentinelDto;
  PutObject folder (getStopSentinelPath name) dtoBody.

(** [postgres.Backup.FetchMeta] *)
Definition FetchMeta folder name : res pgError Extended :=
  res_map_err (Wrapped "failed to unmarshal metadata") (FetchMetadata folder name).

(** ** [generic_meta_interactor.go] *)

Definition IncrementDetailsFetcher_Fetch folder name : res pgError (option IncrementDetails) :=
  sentinel ← FetchSentinel folder name;
  incremental ← IsIncremental sentinel;
  if negb incremental then Ok None
  else match seIncrementFrom sentinel, seIncrementFullName sentinel, seIncrementCount sentinel with
       | Some from, Some full, Some count => Ok (Some (mkIncrementDetails from full count))
       | _, _, _ => Err Panic
       end.

Definition Fetch name folder : res pgError (GenericMetadata UserData) :=
  meta ← FetchMeta folder name;
  Ok (mkMetadata name (UncompressedSize meta) (CompressedSize meta) (Hostname meta)
       (StartTime meta) (FinishTime meta) (emIsPermanent meta)
       (IncrementDetailsFetcher_Fetch folder name) (emUserData meta)).

Definition modifyBackupMetadata name folder (modifier : Extended -> Extended) : res pgError Folder :=
  meta ← res_map_err (Wrapped "failed to fetch the existing backup metadata for modifying") (FetchMetadata folder name);
  res_map_err (Wrapped "failed to upload the modified metadata to the storage")
    (UploadMetadata folder name (modifier meta)).

Definition withPermanent (isPermanent : bool) (dto : Extended) : Extended :=
  mkExtended (StartTime dto) (FinishTime dto) (DatetimeFormat dto) (Hostname dto) (DataDir dto) (PgVersion dto)
    (StartLsn dto) (FinishLsn dto) isPermanent (SystemIdentifier dto) (UncompressedSize dto) (CompressedSize dto)
    (emUserData dto).

Definition SetIsPermanent name folder (isPermanent : bool) : res pgError Folder :=
  modifyBackupMetadata name folder (withPermanent isPermanent).

Definition SetUserData name folder (data : UserData) : res pgError Folder :=
  modifyBackupMetadata name folder (fun dto =>
    mkExtended (StartTime dto) (FinishTime dto) (DatetimeFormat dto) (Hostname dto) (DataDir dto) (PgVersion dto)
      (StartLsn dto) (FinishLsn dto) (emIsPermanent dto) (SystemIdentifier dto) (UncompressedSize dto)
      (CompressedSize dto) data).

(** ** The paths *)

Lemma getMetadataPath_below name : Contains (getMetadataPath name) "/" = true.
Proof. unfold getMetadataPath. by apply Contains_app_r. Qed.

Lemma getMetadataPath_inj name name' : getMetadataPath name = getMetadataPath name' -> name = name'.
Proof.
  unfold getMetadataPath. intros E. rewrite <- !app_assoc_s in E.
  apply (f_equal (fun s => TrimSuffix s ("/" +s MetadataFileName))) in E.
  by rewrite !app_assoc_s, !TrimSuffix_app in E.
Qed.

Lemma sentinel_not_metadata name name' : getStopSentinelPath name <> getMetadataPath name'.
Proof.
  unfold getStopSentinelPath, SentinelNameFromBackup, getMetadataPath, SentinelSuffix. intros E.
  change "_backup_stop_sentinel.json" with ("_backup_stop" +s "_sentinel.json") in E.
  rewrite <- app_assoc_s in E.
  change ("/" +s MetadataFileName) with "/metadata.json" in E.
  assert (slen (name +s "_backup_stop") = slen name') as Hl.
  { apply (f_equal slen) in E. rewrite !slen_app in *. cbn in *. lia. }
  by apply (app_inv_s _ _ _ _ Hl) in E as [_ [=]].
Qed.

(** ** The interactor of PostgreSQL *)

Context `{!ListedStore Folder}.

Lemma FetchMeta_ok folder name dto : FetchMeta folder name = Ok dto <-> FetchMetadata folder name = Ok dto.
Proof. unfold FetchMeta. by destruct (FetchMetadata folder name). Qed.

(** The three outcomes of a metadata update. *)
Lemma modifyBackupMetadata_ok name folder modifier folder' :
  modifyBackupMetadata name folder modifier = Ok folder' ->
  exists dto body, FetchMetadata folder name = Ok dto /\ Marshal (modifier dto) = Ok body /\
    PutObject folder (getMetadataPath name) body = Ok folder'.
Proof.
  unfold modifyBackupMetadata, UploadMetadata. destruct (FetchMetadata folder name) as [dto|e]; [|done].
  cbn. destruct (Marshal (modifier dto)) as [body|e] eqn:Em; [|done]. cbn.
  destruct (PutObject _ _ body) as [f|e] eqn:Ep; [|done]. cbn. intros [= ->]. eauto.
Qed.

Lemma Put_metadata_sentinel folder name body folder' name' :
  PutObject folder (getMetadataPath name) body = Ok folder' ->
  FetchSentinel folder' name' = FetchSentinel folder name'.
Proof.
  intros Hp. unfold FetchSentinel. by rewrite (PutObject_other _ _ _ _ _ Hp) by apply sentinel_not_metadata.
Qed.

Lemma Put_metadata_increment folder name body folder' name' :
  PutObject folder (getMetadataPath name) body = Ok folder' ->
  IncrementDetailsFetcher_Fetch folder' name' = IncrementDetailsFetcher_Fetch folder name'.
Proof. intros Hp. unfold IncrementDetailsFetcher_Fetch. by rewrite (Put_metadata_sentinel _ _ _ _ _ Hp). Qed.

Lemma Put_metadata_same folder name dto body folder' :
  Marshal dto = Ok body -> PutObject folder (getMetadataPath name) body = Ok folder' ->
  FetchMetadata folder' name = Ok dto.
Proof.
  intros Hm Hp. unfold FetchMetadata. rewrite (PutObject_same _ _ _ _ Hp). cbn.
  by rewrite (Unmarshal_Marshal _ _ Hm).
Qed.

Lemma Put_metadata_other folder name body folder' name' :
  PutObject folder (getMetadataPath name) body = Ok folder' -> name' <> name ->
  Fetch name' folder' = Fetch name' folder.
Proof.
  intros Hp Hn. unfold Fetch, FetchMeta, FetchMetadata.
  rewrite (PutObject_other _ _ _ _ _ Hp) by (intros E; by apply getMetadataPath_inj in E).
  by rewrite (Put_metadata_increment _ _ _ _ _ Hp).
Qed.

(** Setting the permanence is an update of the metadata object alone. *)
Lemma SetIsPermanent_same name folder v folder' : SetIsPermanent name folder v = Ok folder' ->
  exists m, Fetch name folder = Ok m /\ Fetch name folder' = Ok (with_permanent v m).
Proof.
  intros (dto & body & Hf & Hm & Hp)%modifyBackupMetadata_ok. unfold Fetch.
  rewrite (proj2 (FetchMeta_ok _ _ _) Hf). eexists. split; [done|].
  pose proof (Put_metadata_same _ _ _ _ _ Hm Hp) as Hs. rewrite (proj2 (FetchMeta_ok _ _ _) Hs). cbn.
  by rewrite (Put_metadata_increment _ _ _ _ _ Hp).
Qed.

#[global] Program Instance postgresInteractor : MetaInteractor Folder UserData := {|
  miFetch := Fetch;
  miSetIsPermanent := SetIsPermanent
|}.
Next Obligation.
  intros name folder m. unfold Fetch. destruct (FetchMeta folder name); [|done]. by intros [= <-].
Qed.
Next Obligation. apply SetIsPermanent_same. Qed.
Next Obligation.
  intros name folder v folder' name' (dto & body & _ & _ & Hp)%modifyBackupMetadata_ok.
  by apply (Put_metadata_other _ _ _ _ _ Hp).
Qed.
Next Obligation.
  intros name folder v folder' (dto & body & _ & _ & Hp)%modifyBackupMetadata_ok.
  apply (PutObject_below _ _ _ _ Hp), getMetadataPath_below.
Qed.
End Meta.

(** ** A storage in memory, for the examples *)

Module PgMem.
(** The objects by their full names with their bytes, and the path of the folder. *)
Record Folder := mkFolder { contents : list (Object * list byte); path : string }.

Definition asMem (f : Folder) : Mem.Folder := Mem.mkFolder (fst <$> contents f) (path f).

#[global] Instance pgFolder : BackupFolder Folder := {|
  GetSubFolder f p := mkFolder (contents f) (path f +s Mem.asPath p);
  GetPath := path;
  ListFolder f :=
    Ok (List.filter (fun o => negb (Contains (GetName o) "/")) (Mem.below (asMem f)),
        (fun d => mkFolder (contents f) (path f +s d +s "/")) <$> Mem.subFolderNames (asMem f));
  Exists f name := Exists (asMem f) name
|}.

Definition named (name : string) (oc : Object * list byte) : bool := bool_decide (GetName (fst oc) = name).

Fixpoint put (name : string) (content : list byte) (l : list (Object * list byte)) : list (Object * list byte) :=
  match l with
  | [] => [(mkObject name 0 0, content)]
  | oc :: l => if named name oc then (fst oc, content) :: l else oc :: put name content l
  end.

Definition get (name : string) (l : list (Object * list byte)) : option (list byte) :=
  snd <$> List.find (named name) l.

Lemma get_put_same name content l : get name (put name content l) = Some content.
Proof.
  unfold get. induction l as [|oc l IH]; cbn.
  - unfold named. cbn. by rewrite bool_decide_eq_true_2.
  - destruct (named name oc) eqn:E; cbn; [unfold named in *; cbn; by rewrite E|by rewrite E].
Qed.

Lemma get_put_other name content l name' : name' <> name -> get name' (put name content l) = get name' l.
Proof.
  intros Hn. unfold get. induction l as [|oc l IH]; cbn.
  - unfold named. cbn. by rewrite bool_decide_eq_false_2.
  - destruct (named name oc) eqn:E; cbn.
    + unfold named in *. bool_to_prop. cbn. by rewrite bool_decide_eq_false_2 by congruence.
    + by destruct (named name' oc).
Qed.

Lemma path_app_inj p a b : p +s a = p +s b -> a = b.
Proof. intros E. by apply app_inv_s in E as [_ ?]. Qed.

#[global] Program Instance pgStore : ObjectStore Folder := {|
  ReadObject f name :=
    match get (path f +s name) (contents f) with Some c => Ok c | None => Err (ObjectNotFoundError name) end;
  PutObject f name content := Ok (mkFolder (put (path f +s name) content (contents f)) (path f))
|}.
Next Obligation. intros f name c f' [= <-]. cbn -[get put]. by rewrite get_put_same. Qed.
Next Obligation.
  intros f name c f' name' [= <-] Hn. cbn -[get put]. rewrite get_put_other; [done|]. intros E. by apply path_app_inj in E.
Qed.

(** The object put below the folder is not one of those it lists. *)
Lemma below_put p name c l : Contains name "/" = true ->
  List.filter (fun o => negb (Contains (GetName o) "/")) (Mem.below (Mem.mkFolder (fst <$> put (p +s name) c l) p)) =
  List.filter (fun o => negb (Contains (GetName o) "/")) (Mem.below (Mem.mkFolder (fst <$> l) p)).
Proof.
  intros Hc. unfold Mem.below. cbn [Mem.files Mem.path]. induction l as [|oc l IH]; cbn [put].
  - cbn [fmap list_fmap fst mbind list_bind GetName]. rewrite HasPrefix_app, sdrop_app by done.
    cbn. by rewrite Hc.
  - destruct (named (p +s name) oc); [done|]. cbn [fmap list_fmap mbind list_bind].
    rewrite !List.filter_app. f_equal. apply IH.
Qed.

#[global] Instance pgListed : ListedStore Folder.
Proof. intros f name c f' [= <-] Hc. cbn. f_equal. by apply below_put. Qed.

(** The metadata differ in the permanence and the two positions; a sentinel
    names its base, which is full. *)
Definition metadataOf (b : bool) (start finish : Z) : ExtendedMetadataDto unit :=
  mkExtended 0 0 MetadataDatetimeFormat "" "" 0 start finish b None 0 0 tt.

#[global] Instance metadata_eq : EqDecision (ExtendedMetadataDto unit).
Proof. solve_decision. Defined.

Definition decodeMetadata (c : list byte) : res pgError (ExtendedMetadataDto unit) :=
  match c with
  | b :: c => Ok (metadataOf (bool_decide (b2z b = 1)) (le_dec (take 8 c)) (le_dec (drop 8 c)))
  | [] => Err (External "unexpected end of JSON input")
  end.

Definition encodeMetadata (dto : ExtendedMetadataDto unit) : list byte :=
  z2b (if emIsPermanent dto then 1 else 0) :: le_enc 8 (StartLsn dto) ++ le_enc 8 (FinishLsn dto).

#[global] Program Instance metadataJson : Json (ExtendedMetadataDto unit) := {|
  Marshal dto :=
    match decodeMetadata (encodeMetadata dto) with
    | Ok dto' => if decide (dto' = dto) then Ok (encodeMetadata dto) else Err (External "unsupported value")
    | Err e => Err e
    end;
  Unmarshal := decodeMetadata
|}.
Next Obligation.
  intros dto c. cbn -[encodeMetadata decodeMetadata].
  destruct (decodeMetadata (encodeMetadata dto)) as [dto'|e] eqn:E; [|done].
  case_decide as Hd; [|done]. intros [= <-]. by rewrite E, Hd.
Qed.

Definition sentinelOf (base : string) : BackupSentinelDto unit unit :=
  if bool_decide (base = "") then mkSentinel (Some 0) None None None None tt 0 (Some 0) None 0 0 tt
  else mkSentinel (Some 0) (Some 0) (Some base) (Some base) (Some 1) tt 0 (Some 0) None 0 0 tt.

#[global] Program Instance sentinelJson : Json (BackupSentinelDto unit unit) := {|
  Marshal _ := Err (External "unsupported value");
  Unmarshal c := Ok (sentinelOf (String.string_of_list_byte c))
|}.
Next Obligation. done. Qed.

Definition backup (name base : string) (t : Z) (permanent : bool) (start finish : Z) : list (Object * list byte) :=
  [(mkObject (BaseBackupPath +s SentinelNameFromBackup name) t 1, String.list_byte_of_string base);
   (mkObject (BaseBackupPath +s getMetadataPath name) t 1, encodeMetadata (metadataOf permanent start finish))].

Definition wal (name : string) (t : Z) : list (Object * list byte) := [(mkObject (WalPath +s name +s ".lz4") t 1, [])].

Definition base2 := "base_000000010000000000000002".
Definition base4 := "base_000000010000000000000004_D_000000010000000000000002".
Definition base6 := "base_000000010000000000000006".

(** A permanent full backup, an increment of it, and a full backup. *)
Definition storage : Folder := mkFolder
  (wal "000000010000000000000001" 1 ++ wal "000000010000000000000002" 2 ++ wal "000000010000000000000003" 3 ++
   backup base2 "" 20 true 0x2000028 0x2800000 ++ backup base4 base2 40 false 0x4000028 0x4800000 ++
   backup base6 "" 60 false 0x6000028 0x6800000 ++ wal "000000010000000000000006" 6) "".

Definition backups : Folder := GetSubFolder storage BaseBackupPath.
End PgMem.

(** Setting the permanence of a backup rewrites its metadata object alone:
    the same metadata are read back with the new permanence, the metadata of
    other backups and every sentinel are as before, and the folder lists the
    same sentinels. *)
Theorem SetIsPermanent_spec {Content UserData Folder : Type} `{!BackupFolder Folder} `{!ObjectStore Folder}
    `{!ListedStore Folder} `{!Json (BackupSentinelDto Content UserData)} `{!Json (ExtendedMetadataDto UserData)}
    (name : string) (folder : Folder) (v : bool) (folder' : Folder) :
  SetIsPermanent name folder v = Ok folder' ->
  (exists meta, FetchMetadata folder name = Ok meta /\ FetchMetadata folder' name = Ok (withPermanent v meta)) /\
  (forall name', name' <> name -> FetchMetadata (UserData := UserData) folder' name' = FetchMetadata folder name') /\
  (forall name', FetchSentinel (Content := Content) (UserData := UserData) folder' name' = FetchSentinel folder name') /\
  fst <$> ListFolder folder' = fst <$> ListFolder folder.
Proof.
  intros (dto & body & Hf & Hm & Hp)%modifyBackupMetadata_ok. split_and!.
  - exists dto. split; [done|]. by eapply Put_metadata_same.
  - intros name' Hn. unfold FetchMetadata.
    by rewrite (PutObject_other _ _ _ _ _ Hp) by (intros E; by apply getMetadataPath_inj in E).
  - intros name'. by eapply Put_metadata_sentinel.
  - apply (PutObject_below _ _ _ _ Hp), getMetadataPath_below.
Qed.

Lemma SetIsPermanent_spec_witness :
  exists folder', SetIsPermanent PgMem.base6 PgMem.backups true = Ok folder' /\
    FetchMetadata folder' PgMem.base6 = Ok (PgMem.metadataOf true 0x6000028 0x6800000).
Proof.
  assert (exists folder', SetIsPermanent PgMem.base6 PgMem.backups true = Ok folder') as [folder' Hs]
    by (eexists; by vm_compute).
  exists folder'. split; [done|].
  destruct (SetIsPermanent_spec (Content := unit) _ _ _ _ Hs) as ((meta & Hm & Hm') & _).
  rewrite Hm'. assert (FetchMetadata PgMem.backups PgMem.base6 = Ok (PgMem.metadataOf false 0x6000028 0x6800000)) as E
    by (by vm_compute).
  rewrite E in Hm. by injection Hm as <-.
Defined.
