(* ===== verification/BackupMark.v ===== *)
(** * Marking backups permanent

    [src/internal/backup_mark.go] over an interactor of metadata: a backup is
    marked permanent together with the backups it is an increment of, the full
    one first, and is not unmarked below a permanent increment. *)

From S2P Require Import Prelude GoStrings GoSort Timeline Backups BackupMeta.
Open Scope Z_scope.

Section Mark.
Context {Folder UserData : Type} `{!BackupFolder Folder} `{!MetaInteractor Folder UserData}.
Implicit Types (folder : Folder) (name : string).

(** ** Operations *)

(** The chain of increments is followed by recursion, with fuel. *)
Fixpoint getBackupsToMarkPermanent (fuel : nat) name folder : res pgError (list string) :=
  match fuel with
  | O => Err StackOverflow
  | S fuel =>
      meta ← miFetch name folder;
      let backupsToMark := if IsPermanent meta then [] else [mdBackupName meta] in
      details ← incrementDetails meta;
      match details with
      | None => Ok backupsToMark
      | Some incrementDetails =>
          previousImpermanentBackups ← getBackupsToMarkPermanent fuel (IncrementFrom incrementDetails) folder;
          Ok (previousImpermanentBackups ++ backupsToMark)
      end
  end.

(** Backups whose metadata cannot be fetched are passed over. *)
Definition GetPermanentBackups folder : gset string :=
  match GetBackups folder with
  | Err _ => ∅
  | Ok backupTimes =>
      list_to_set (backupTimes ≫= fun backupTime =>
        match miFetch (bName backupTime) folder with
        | Ok meta => if IsPermanent meta then [bName backupTime] else []
        | Err _ => []
        end)
  end.

(** The base of an increment. *)
Definition getMetadataFromBackup name folder : res pgError (option string) :=
  meta ← miFetch name folder;
  details ← incrementDetails meta;
  Ok (option_map IncrementFrom details).

Fixpoint linkLoop (backups : list BackupTime) folder (reverseLinks : gmap string (list string))
  : res pgError (gmap string (list string)) :=
  match backups with
  | [] => Ok reverseLinks
  | b :: backups =>
      base ← getMetadataFromBackup (bName b) folder;
      match base with
      | Some incrementFrom =>
          linkLoop backups folder
            (<[incrementFrom := default [] (reverseLinks !! incrementFrom) ++ [bName b]]> reverseLinks)
      | None => linkLoop backups folder reverseLinks
      end
  end.

Definition getGraphFromBaseToIncrement folder : res pgError (gmap string (list string)) :=
  backups ← GetBackups folder;
  linkLoop backups folder ∅.

Definition backupHasPermanentInFuture (reverseLinks : gmap string (list string)) name
    (permanentBackups : gset string) : bool :=
  match reverseLinks !! name with
  | None => false
  | Some next => existsb (fun b => bool_decide (b ∈ permanentBackups)) next
  end.

Definition getBackupsToMarkImpermanent name folder : res pgError (list string) :=
  meta ← miFetch name folder;
  let permanentBackups := GetPermanentBackups folder ∖ {[ name ]} in
  reverseLinks ← getGraphFromBaseToIncrement folder;
  if backupHasPermanentInFuture reverseLinks name permanentBackups then
    Err (BackupHasPermanentBackupInFutureError name)
  else if negb (IsPermanent meta) then Ok []
  else Ok [mdBackupName meta].

(** A backup that has the type already is only warned about. *)
Definition GetBackupsToMark (fuel : nat) name (toPermanent : bool) folder : res pgError (list string) :=
  _ ← miFetch name folder;
  if toPermanent then getBackupsToMarkPermanent fuel name folder
  else getBackupsToMarkImpermanent name folder.

(** The storage after the marking, and the error the program dies of. *)
Fixpoint markLoop (backupsToMark : list string) (toPermanent : bool) folder : Folder * option pgError :=
  match backupsToMark with
  | [] => (folder, None)
  | backupName :: backupsToMark =>
      match miSetIsPermanent backupName folder toPermanent with
      | Err err => (folder, Some err)
      | Ok folder => markLoop backupsToMark toPermanent folder
      end
  end.

Definition MarkBackup (fuel : nat) name (toPermanent : bool) folder : Folder * option pgError :=
  match GetBackupsToMark fuel name toPermanent folder with
  | Err err => (folder, Some err)
  | Ok backupsToMark => markLoop backupsToMark toPermanent folder
  end.

(** ** The invariant *)

(** [name] is an increment of [base]. *)
Definition increment_of folder name base : Prop :=
  exists m d, miFetch name folder = Ok m /\ incrementDetails m = Ok (Some d) /\ IncrementFrom d = base.

Definition permanent folder name : Prop := exists m, miFetch name folder = Ok m /\ IsPermanent m = true.

Definition listed folder name : Prop :=
  exists objects subFolders o, ListFolder folder = Ok (objects, subFolders) /\ o ∈ objects /\
    isSentinel o = true /\ StripRightmostBackupName (GetName o) = name.

(** What a permanent backup is an increment of is permanent. *)
Definition closed folder : Prop :=
  forall name base m, listed folder name -> permanent folder name -> increment_of folder name base ->
    miFetch base folder = Ok m -> IsPermanent m = true.

(** Two storages with the same backups, but for the permanence. *)
Definition same_but folder folder' (changed : string -> Prop) : Prop :=
  fst <$> ListFolder folder' = fst <$> ListFolder folder /\
  forall name,
    (changed name /\ exists m v, miFetch name folder = Ok m /\ miFetch name folder' = Ok (with_permanent v m)) \/
    miFetch name folder' = miFetch name folder.

(** ** Lemmas: what an update changes *)

Lemma with_permanent_twice u v (m : GenericMetadata UserData) :
  with_permanent v (with_permanent u m) = with_permanent v m.
Proof. done. Qed.

Lemma with_permanent_self (m : GenericMetadata UserData) : with_permanent (IsPermanent m) m = m.
Proof. by destruct m. Qed.

Lemma same_but_refl folder P : same_but folder folder P.
Proof. split; [done|]. by right. Qed.

Lemma same_but_weaken folder folder' (P Q : string -> Prop) :
  (forall x, P x -> Q x) -> same_but folder folder' P -> same_but folder folder' Q.
Proof.
  intros HPQ [Hl Hs]. split; [done|]. intros name.
  destruct (Hs name) as [(HP & Hx)|Hx]; [left|by right]. split; [by apply HPQ|done].
Qed.

Lemma same_but_trans f1 f2 f3 P : same_but f1 f2 P -> same_but f2 f3 P -> same_but f1 f3 P.
Proof.
  intros [Hl1 H1] [Hl2 H2]. split; [congruence|]. intros name.
  destruct (H2 name) as [(HP & m & v & E & E')|E]; [left; split; [done|]|].
  - destruct (H1 name) as [(_ & m1 & v1 & E1 & E1')|E1].
    + exists m1, v. split; [done|]. rewrite E1' in E. injection E as <-. by rewrite E', with_permanent_twice.
    + exists m, v. split; [congruence|done].
  - destruct (H1 name) as [(HP & m1 & v1 & E1 & E1')|E1]; [left|right; congruence].
    split; [done|]. exists m1, v1. split; [done|congruence].
Qed.

Lemma set_same_but name folder v folder' :
  miSetIsPermanent name folder v = Ok folder' -> same_but folder folder' (eq name).
Proof.
  intros Hs. split; [by eapply miSet_listing|]. intros x. destruct (decide (x = name)) as [-> | Hx].
  - left. split; [done|]. destruct (miSet_same _ _ _ _ Hs) as (m & Hm & Hm'). eauto.
  - right. by eapply miSet_other.
Qed.

(** The fetched backups of one storage and of the other. *)
Lemma same_but_fetch folder folder' P name m' :
  same_but folder folder' P -> miFetch name folder' = Ok m' ->
  exists m, miFetch name folder = Ok m /\ m' = with_permanent (IsPermanent m') m.
Proof.
  intros [_ Hs] Hf. destruct (Hs name) as [(_ & m & v & E & E')|E].
  - rewrite E' in Hf. injection Hf as <-. eauto.
  - exists m'. by rewrite <- E, with_permanent_self.
Qed.

Lemma same_but_increment folder folder' P name base :
  same_but folder folder' P -> increment_of folder' name base -> increment_of folder name base.
Proof.
  intros Hs (m' & d & Hf & Hd & Hb). destruct (same_but_fetch _ _ _ _ _ Hs Hf) as (m & Hm & E).
  exists m, d. split; [done|]. by rewrite E in Hd.
Qed.

Lemma same_but_listed folder folder' P name :
  same_but folder folder' P -> listed folder' name -> listed folder name.
Proof.
  intros [Hl _] (objects & subs & o & Hls & Ho). rewrite Hls in Hl. cbn in Hl.
  destruct (ListFolder folder) as [[objects' subs']|e] eqn:E; cbn in Hl; [|done].
  injection Hl as <-. by exists objects, subs', o.
Qed.

Lemma increment_of_fun folder name b b' : increment_of folder name b -> increment_of folder name b' -> b = b'.
Proof. intros (m & d & E & Ed & <-) (m' & d' & E' & Ed' & <-). congruence. Qed.

(** Marking a backup whose base is permanent keeps the invariant. *)
Lemma set_closed name folder folder' :
  closed folder -> miSetIsPermanent name folder true = Ok folder' ->
  (forall base m, increment_of folder name base -> miFetch base folder = Ok m -> IsPermanent m = true) ->
  closed folder'.
Proof.
  intros Hc Hset Hb x base m Hx Hp Hi Hm. pose proof (set_same_but _ _ _ _ Hset) as Hs.
  apply (same_but_listed _ _ _ _ Hs) in Hx. apply (same_but_increment _ _ _ _ _ Hs) in Hi.
  destruct (decide (base = name)) as [-> | Hne].
  - destruct (miSet_same _ _ _ _ Hset) as (mn & _ & E). rewrite E in Hm. by injection Hm as <-.
  - rewrite (miSet_other _ _ _ _ _ Hset Hne) in Hm. destruct (decide (x = name)) as [-> | Hxn]; [by eapply Hb|].
    destruct Hp as (mx & Ex & Hp). rewrite (miSet_other _ _ _ _ _ Hset Hxn) in Ex.
    apply (Hc x base m); [done|by exists mx|done..].
Qed.

Lemma set_permanent name folder folder' x :
  miSetIsPermanent name folder true = Ok folder' -> permanent folder x \/ x = name -> permanent folder' x.
Proof.
  intros Hset Hx. destruct (decide (x = name)) as [-> | Hn].
  - destruct (miSet_same _ _ _ _ Hset) as (m & _ & E). by exists (with_permanent true m).
  - destruct Hx as [(m & E & Hp)|]; [|done]. exists m. by rewrite (miSet_other _ _ _ _ _ Hset Hn).
Qed.

Lemma markLoop_app l1 l2 v folder :
  markLoop (l1 ++ l2) v folder =
  match markLoop l1 v folder with
  | (folder1, Some err) => (folder1, Some err)
  | (folder1, None) => markLoop l2 v folder1
  end.
Proof.
  revert folder. induction l1 as [|b l1 IH]; intros folder; cbn; [done|].
  destruct (miSetIsPermanent b folder v); [apply IH|done].
Qed.

(** ** Marking permanent *)

Definition ancestor folder : string -> string -> Prop := rtc (increment_of folder).

(** What marking [name] from [folder] must leave behind. *)
Definition marked folder folder' (oe : option pgError) name : Prop :=
  closed folder' /\ same_but folder folder' (ancestor folder name) /\
  (forall x, permanent folder x -> permanent folder' x) /\
  (oe = None -> forall a, ancestor folder name a -> permanent folder' a).

(** The last step of the marking, when the base is done. *)
Lemma marked_step name folder folder1 m folder' oe :
  miFetch name folder = Ok m -> closed folder1 -> same_but folder folder1 (ancestor folder name) ->
  (forall x, permanent folder x -> permanent folder1 x) ->
  (forall base, increment_of folder name base -> forall a, ancestor folder base a -> permanent folder1 a) ->
  markLoop (if IsPermanent m then [] else [mdBackupName m]) true folder1 = (folder', oe) ->
  marked folder folder' oe name.
Proof.
  intros Hm Hc Hs Hg Hb. rewrite (miFetch_name _ _ _ Hm).
  assert (Hup : forall a, ancestor folder name a -> permanent folder1 a \/ a = name).
  { intros a Ha. apply rtc_inv in Ha as [-> | (base & Hi & Ha)]; [by right|]. left. by eapply Hb. }
  destruct (IsPermanent m) eqn:Hp; cbn.
  { intros [= <- <-]. split; [done|]. do 2 (split; [done|]). intros _ a Ha.
    destruct (Hup a Ha) as [| -> ]; [done|]. apply Hg. by exists m. }
  destruct (miSetIsPermanent name folder1 true) as [folder2|e] eqn:Hset; intros [= <- <-].
  2: { split; [done|]. by do 2 (split; [done|]). }
  split_and!.
  - apply (set_closed name folder1); [done..|]. intros base mb Hi Hmb.
    apply (same_but_increment _ _ _ _ _ Hs) in Hi.
    destruct (Hb base Hi base) as (m' & E & Hp'); [apply rtc_refl|]. congruence.
  - eapply same_but_trans; [done|]. eapply same_but_weaken; [|by eapply set_same_but].
    intros x <-. apply rtc_refl.
  - intros x Hx. apply (set_permanent _ _ _ _ Hset). left. auto.
  - intros _ a Ha. apply (set_permanent _ _ _ _ Hset). auto.
Qed.

Lemma markLoop_permanent fuel : forall name folder L folder' oe,
  closed folder -> getBackupsToMarkPermanent fuel name folder = Ok L ->
  markLoop L true folder = (folder', oe) -> marked folder folder' oe name.
Proof.
  induction fuel as [|fuel IH]; intros name folder L folder' oe Hc; cbn; [done|].
  destruct (miFetch name folder) as [m|e] eqn:Hm; [|done]. cbn.
  destruct (incrementDetails m) as [[d|]|e] eqn:Hd; [| |done]; cbn.
  - destruct (getBackupsToMarkPermanent fuel _ folder) as [prev|e] eqn:Hprev; [|done]. cbn.
    intros [= <-]. rewrite markLoop_app. destruct (markLoop prev true folder) as [folder1 oe1] eqn:Hl.
    destruct (IH _ _ _ _ _ Hc Hprev Hl) as (Hc1 & Hs1 & Hg1 & Ha1).
    assert (increment_of folder name (IncrementFrom d)) as Hi by (by exists m, d).
    assert (same_but folder folder1 (ancestor folder name)) as Hs1'.
    { eapply same_but_weaken; [|done]. intros x Hx. by eapply rtc_l. }
    destruct oe1 as [err|].
    + intros [= <- <-]. by split_and!.
    + apply marked_step; [done..|]. intros base Hib a Ha.
      rewrite (increment_of_fun _ _ _ _ Hib Hi) in Ha. auto.
  - intros [= <-]. apply marked_step; [done|done|apply same_but_refl|done|].
    intros base (m' & d' & E & E' & _). congruence.
Qed.

(** Fuel above the depth of the chain gives the answer. *)
Lemma getBackupsToMarkPermanent_fuel folder (depth : string -> nat) :
  (forall x base, increment_of folder x base -> (depth base < depth x)%nat) ->
  forall n name, (depth name <= n)%nat -> exists r, forall fuel, (n < fuel)%nat ->
    getBackupsToMarkPermanent fuel name folder = r.
Proof.
  intros Hdepth n. induction n as [n IH] using lt_wf_ind. intros name Hn.
  destruct (miFetch name folder) as [m|e] eqn:Hm.
  2: { exists (Err e). intros [|fuel] Hf; [lia|]. cbn. by rewrite Hm. }
  destruct (incrementDetails m) as [[d|]|e] eqn:Hd.
  - assert (increment_of folder name (IncrementFrom d)) as Hi by (by exists m, d).
    specialize (Hdepth _ _ Hi). destruct (IH (n - 1)%nat ltac:(lia) (IncrementFrom d) ltac:(lia)) as [r Hr].
    eexists. intros [|fuel] Hf; [lia|]. cbn. rewrite Hm. cbn. rewrite Hd. cbn.
    rewrite (Hr fuel) by lia. reflexivity.
  - eexists. intros [|fuel] Hf; [lia|]. cbn. rewrite Hm. cbn. rewrite Hd. cbn. reflexivity.
  - exists (Err e). intros [|fuel] Hf; [lia|]. cbn. rewrite Hm. cbn. by rewrite Hd.
Qed.

Lemma MarkBackup_marked fuel name folder folder' oe :
  closed folder -> MarkBackup fuel name true folder = (folder', oe) -> marked folder folder' oe name.
Proof.
  intros Hc. unfold MarkBackup, GetBackupsToMark.
  destruct (miFetch name folder) as [m|e]; cbn.
  2: { intros [= <- <-]. split; [done|]. split; [apply same_but_refl|done]. }
  destruct (getBackupsToMarkPermanent fuel name folder) as [L|e] eqn:HL.
  - intros HM. by apply (markLoop_permanent fuel name folder L).
  - intros [= <- <-]. split; [done|]. split; [apply same_but_refl|done].
Qed.

(** ** Marking impermanent *)

Lemma listed_backups folder backups b :
  GetBackups folder = Ok backups -> listed folder b <-> b ∈ bName <$> backups.
Proof.
  unfold GetBackups, GetBackupsAndGarbage, listed.
  destruct (ListFolder folder) as [[objects subs]|e] eqn:El; [|done]. cbn.
  destruct (length (GetBackupTimeSlices objects) =? 0)%nat; [done|]. intros [= <-].
  rewrite list_elem_of_fmap. setoid_rewrite elem_of_slices. split.
  - intros (objects' & subs' & o & [= <- <-] & Ho & Hs & <-). exists (slice_of o). eauto.
  - intros (t & -> & o & -> & Ho & Hs). exists objects, subs, o. done.
Qed.

Lemma GetPermanentBackups_elem folder backups b :
  GetBackups folder = Ok backups -> listed folder b -> permanent folder b -> b ∈ GetPermanentBackups folder.
Proof.
  intros Hb Hl (m & Hm & Hp). apply (listed_backups _ _ _ Hb) in Hl.
  apply list_elem_of_fmap in Hl as (t & -> & Ht). unfold GetPermanentBackups. rewrite Hb.
  apply elem_of_list_to_set, list_elem_of_bind. exists t. rewrite Hm, Hp. split; [by apply list_elem_of_singleton|done].
Qed.

Lemma linkLoop_spec backups folder : forall links links',
  linkLoop backups folder links = Ok links' -> forall base b,
  (b ∈ default [] (links !! base) \/ (b ∈ bName <$> backups /\ increment_of folder b base)) ->
  b ∈ default [] (links' !! base).
Proof.
  induction backups as [|t backups IH]; intros links links'; cbn.
  { intros [= <-] base b [Hb|[Hb _]]; [done|by apply elem_of_nil in Hb]. }
  unfold getMetadataFromBackup. destruct (miFetch (bName t) folder) as [m|e] eqn:Hm; [|done]. cbn.
  destruct (incrementDetails m) as [o|e] eqn:Hd; [|done]. cbn.
  destruct o as [d|]; cbn; intros Hloop base b Hb; apply (IH _ _ Hloop).
  - destruct (decide (base = IncrementFrom d)) as [-> | Hne].
    + rewrite lookup_insert_eq. cbn. rewrite elem_of_app, list_elem_of_singleton.
      destruct Hb as [Hb|[[-> | Hb]%elem_of_cons Hi]]; naive_solver.
    + rewrite lookup_insert_ne by done.
      destruct Hb as [Hb|[[-> | Hb]%elem_of_cons Hi]]; [by left| |by right].
      destruct Hi as (m' & d' & E & Ed & <-). rewrite Hm in E. injection E as <-. congruence.
  - destruct Hb as [Hb|[[-> | Hb]%elem_of_cons Hi]]; [by left| |by right].
    destruct Hi as (m' & d' & E & Ed & _). congruence.
Qed.

(** A backup with a permanent increment cannot be unmarked. *)
Lemma getBackupsToMarkImpermanent_ok name folder L :
  getBackupsToMarkImpermanent name folder = Ok L ->
  (forall b, listed folder b -> permanent folder b -> increment_of folder b name -> b = name) /\
  exists m, miFetch name folder = Ok m /\ L = if IsPermanent m then [name] else [].
Proof.
  unfold getBackupsToMarkImpermanent, getGraphFromBaseToIncrement.
  destruct (miFetch name folder) as [m|e] eqn:Hm; [|done]. cbn.
  destruct (GetBackups folder) as [backups|e] eqn:Hb; [|done]. cbn.
  destruct (linkLoop backups folder ∅) as [links|e] eqn:Hl; [|done]. cbn.
  destruct (backupHasPermanentInFuture _ _ _) eqn:Hf; [done|]. intros HL. split.
  - intros b Hlb Hpb Hib. destruct (decide (b = name)) as [|Hne]; [done|]. exfalso.
    assert (b ∈ default [] (links !! name)) as Hin.
    { apply (linkLoop_spec _ _ _ _ Hl). right. split; [|done]. by apply (listed_backups _ _ _ Hb). }
    unfold backupHasPermanentInFuture in Hf. destruct (links !! name) as [next|]; [|by apply elem_of_nil in Hin].
    apply not_true_iff_false in Hf. apply Hf, existsb_exists. exists b.
    split; [by apply list_elem_of_In|]. apply bool_decide_eq_true, elem_of_difference.
    split; [by eapply GetPermanentBackups_elem|set_solver].
  - exists m. split; [done|]. rewrite (miFetch_name _ _ _ Hm) in HL. by destruct (IsPermanent m); injection HL.
Qed.

Lemma unset_closed name folder folder' :
  closed folder -> miSetIsPermanent name folder false = Ok folder' ->
  (forall b, listed folder b -> permanent folder b -> increment_of folder b name -> b = name) -> closed folder'.
Proof.
  intros Hc Hset Hb x base m Hx (mx & Ex & Hp) Hi Hm. pose proof (set_same_but _ _ _ _ Hset) as Hs.
  apply (same_but_listed _ _ _ _ Hs) in Hx. apply (same_but_increment _ _ _ _ _ Hs) in Hi.
  destruct (decide (x = name)) as [-> | Hxn].
  { destruct (miSet_same _ _ _ _ Hset) as (mn & _ & E). rewrite E in Ex. by injection Ex as <-. }
  rewrite (miSet_other _ _ _ _ _ Hset Hxn) in Ex.
  destruct (decide (base = name)) as [-> | Hne]; [by destruct Hxn; apply Hb; [|exists mx|]|].
  rewrite (miSet_other _ _ _ _ _ Hset Hne) in Hm. apply (Hc x base m); [done|by exists mx|done..].
Qed.

(** ** Properties *)

(** Marking a backup permanent, whether it succeeds or dies midway, leaves
    every permanent backup with permanent bases, touches nothing but the
    permanence of the backup and of those it comes from, and unmarks none; when
    it succeeds all these are permanent. *)
Theorem MarkBackup_permanent fuel name folder folder' oe :
  closed folder -> MarkBackup fuel name true folder = (folder', oe) ->
  closed folder' /\ same_but folder folder' (ancestor folder name) /\
  (forall x, permanent folder x -> permanent folder' x) /\
  (oe = None -> forall a, ancestor folder name a -> permanent folder' a).
Proof. intros Hc HM. exact (MarkBackup_marked fuel name folder folder' oe Hc HM). Qed.

(** Unmarking a backup keeps every permanent backup with permanent bases and
    touches nothing but the permanence of this backup; when the backup has
    another permanent backup as its increment it is an error and nothing
    changes, and when it succeeds the backup is no longer permanent. *)
Theorem MarkBackup_impermanent fuel name folder folder' oe :
  closed folder -> MarkBackup fuel name false folder = (folder', oe) ->
  closed folder' /\ same_but folder folder' (eq name) /\
  ((exists b, b <> name /\ listed folder b /\ permanent folder b /\ increment_of folder b name) ->
     oe <> None /\ folder' = folder) /\
  (oe = None -> ~ permanent folder' name).
Proof.
  intros Hc. unfold MarkBackup, GetBackupsToMark.
  destruct (miFetch name folder) as [m0|e] eqn:Hm0; cbn.
  2: { intros [= <- <-]. split; [done|]. by split; [apply same_but_refl|]. }
  destruct (getBackupsToMarkImpermanent name folder) as [L|e] eqn:HL.
  2: { intros [= <- <-]. split; [done|]. by split; [apply same_but_refl|]. }
  apply getBackupsToMarkImpermanent_ok in HL as (Hb & m & Hm & ->).
  assert ((exists b, b <> name /\ listed folder b /\ permanent folder b /\ increment_of folder b name) -> False)
    as Hno by (intros (b & Hn & Hl & Hp & Hi); by apply Hn, Hb).
  destruct (IsPermanent m) eqn:Hp; cbn.
  - destruct (miSetIsPermanent name folder false) as [folder1|e] eqn:Hset; intros [= <- <-].
    + split; [by eapply unset_closed|]. split; [by eapply set_same_but|]. split; [done|].
      intros _ (m' & E & Hp'). destruct (miSet_same _ _ _ _ Hset) as (mn & _ & E'). rewrite E' in E.
      by injection E as <-.
    + split; [done|]. by split; [apply same_but_refl|].
  - intros [= <- <-]. split; [done|]. split; [apply same_but_refl|]. split; [done|].
    intros _ (m' & E & Hp'). congruence.
Qed.

(** Following the increments ends: when each backup is deeper than its base,
    any fuel above the depth gives the same answer. *)
Theorem GetBackupsToMark_ends folder (depth : string -> nat) name toPermanent :
  (forall x base, increment_of folder x base -> (depth base < depth x)%nat) ->
  exists r, forall fuel, (depth name < fuel)%nat -> GetBackupsToMark fuel name toPermanent folder = r.
Proof.
  intros Hd. destruct (getBackupsToMarkPermanent_fuel folder depth Hd (depth name) name ltac:(lia)) as [r Hr].
  eexists. intros fuel Hf. unfold GetBackupsToMark. rewrite (Hr fuel Hf). reflexivity.
Qed.
End Mark.

(** ** Examples *)

(** Backups in memory: whether they are permanent, and their bases. *)
Module MarkMem.
Notation Folder := (gmap string (bool * option string)).

#[global] Instance folderListing : BackupFolder Folder := {|
  GetSubFolder f _ := f;
  GetPath _ := "";
  ListFolder f := Ok ((fun n => mkObject (SentinelNameFromBackup n) 0 0) <$> elements (dom f : gset string), []);
  Exists f name := Ok false
|}.

Definition meta (name : string) (b : bool * option string) : GenericMetadata unit :=
  mkMetadata name 0 0 "" 0 0 (fst b) (Ok ((fun base => mkIncrementDetails base base 1) <$> snd b)) tt.

#[global] Program Instance interactor : MetaInteractor Folder unit := {|
  miFetch name f := match f !! name with Some b => Ok (meta name b) | None => Err (ObjectNotFoundError name) end;
  miSetIsPermanent name f v :=
    match f !! name with
    | Some b => Ok (<[name := (v, snd b)]> f)
    | None => Err (ObjectNotFoundError name)
    end
|}.
Next Obligation. intros name f m. cbn. destruct (f !! name); [|done]. by intros [= <-]. Qed.
Next Obligation.
  intros name f v f'. cbn. destruct (f !! name) as [b|] eqn:E; [|done]. intros [= <-].
  exists (meta name b). by rewrite lookup_insert_eq.
Qed.
Next Obligation.
  intros name f v f' name'. cbn. destruct (f !! name) as [b|] eqn:E; [|done]. intros [= <-] Hn.
  by rewrite lookup_insert_ne.
Qed.
Next Obligation.
  intros name f v f'. cbn. destruct (f !! name) as [b|] eqn:E; [|done]. intros [= <-]. cbn.
  by rewrite dom_insert_lookup_L.
Qed.

(** A full backup, an increment of it and one of this increment. *)
Definition chain (a b c : bool) : Folder :=
  {["a" := (a, None); "b" := (b, Some "a"); "c" := (c, Some "b")]}.

Lemma lookup_chain a b c x r : chain a b c !! x = Some r ->
  x = "a" /\ r = (a, None) \/ x = "b" /\ r = (b, Some "a") \/ x = "c" /\ r = (c, Some "b").
Proof. intros E%elem_of_map_to_list. revert E. vm_compute. set_solver. Qed.

Lemma chain_permanent a b c x : permanent (chain a b c) x ->
  x = "a" /\ a = true \/ x = "b" /\ b = true \/ x = "c" /\ c = true.
Proof.
  intros (m & Hm & Hp). cbn in Hm. destruct (chain a b c !! x) as [r|] eqn:E; [|done]. injection Hm as <-.
  apply lookup_chain in E. naive_solver.
Qed.

Lemma chain_increment a b c x base : increment_of (chain a b c) x base ->
  x = "b" /\ base = "a" \/ x = "c" /\ base = "b".
Proof.
  intros (m & d & Hm & Hd & Hb). cbn in Hm. destruct (chain a b c !! x) as [r|] eqn:E; [|done].
  injection Hm as <-. apply lookup_chain in E. naive_solver.
Qed.
Definition chain_depth (name : string) : nat :=
  if bool_decide (name = "c") then 2 else if bool_decide (name = "b") then 1 else 0.
End MarkMem.

Lemma MarkBackup_permanent_witness :
  MarkBackup 3 "b" true (MarkMem.chain false false false) = (MarkMem.chain true true false, None) /\
  permanent (MarkMem.chain true true false) "a".
Proof.
  assert (MarkBackup 3 "b" true (MarkMem.chain false false false) = (MarkMem.chain true true false, None)) as E
    by by vm_compute.
  split; [done|].
  assert (closed (MarkMem.chain false false false)) as Hc.
  { intros x base m _ Hp%MarkMem.chain_permanent. naive_solver. }
  destruct (MarkBackup_permanent 3 "b" _ _ None Hc E) as (_ & _ & _ & Ha).
  apply (Ha eq_refl). eapply rtc_l; [|apply rtc_refl].
  eexists _, (mkIncrementDetails "a" "a" 1). by vm_compute.
Defined.

Lemma MarkBackup_impermanent_witness :
  MarkBackup 3 "a" false (MarkMem.chain true true false) =
    (MarkMem.chain true true false, Some (BackupHasPermanentBackupInFutureError "a")) /\
  closed (MarkMem.chain true false false) /\
  ~ permanent (fst (MarkBackup 3 "b" false (MarkMem.chain true true false))) "b".
Proof.
  split; [by vm_compute|].
  assert (MarkBackup 3 "b" false (MarkMem.chain true true false) = (MarkMem.chain true false false, None)) as E
    by by vm_compute.
  assert (closed (MarkMem.chain true true false)) as H0.
  { intros x base m _ _ [[-> ->] | [-> ->]]%MarkMem.chain_increment; vm_compute; by intros [= <-]. }
  destruct (MarkBackup_impermanent 3 "b" _ _ None H0 E) as (Hc & _ & _ & Hn).
  rewrite E. auto.
Defined.

Lemma GetBackupsToMark_ends_witness :
  GetBackupsToMark 4 "c" true (MarkMem.chain true false false) = Ok ["b"; "c"] /\
  exists r, forall fuel, (MarkMem.chain_depth "c" < fuel)%nat -> GetBackupsToMark fuel "c" true (MarkMem.chain true false false) = r.
Proof.
  split; [by vm_compute|].
  apply (GetBackupsToMark_ends (MarkMem.chain true false false) MarkMem.chain_depth "c" true).
  intros x base [[-> ->] | [-> ->]]%MarkMem.chain_increment; vm_compute; lia.
Defined.
