(* ===== verification/Delete.v ===== *)
(** * Deleting old backups

    [src/internal/delete_handler.go] and [src/internal/backup_object.go]: the
    target of a deletion is found among the backups sorted by the handler's
    comparison, and the objects that compare less than the target are deleted,
    those of permanent backups excepted. *)

From S2P Require Import Prelude GoStrings GoPath GoSort Timeline Backups.
Open Scope Z_scope.

Definition NoDeleteModifier : Z := 0.
Definition FullDeleteModifier : Z := 1.
Definition FindFullDeleteModifier : Z := 2.
Definition ForceDeleteModifier : Z := 3.
Definition StringModifiers : list string := ["FULL"; "FIND_FULL"].
Definition StringModifiersDeleteEverything : list string := ["FORCE"].
Definition errIncorrectArguments : pgError := External "incorrect arguments".

(** ** [strconv.Atoi] *)

Definition Atoi (s : string) : res NumError Z :=
  let '(negative, digits) :=
    match s with
    | String c rest =>
        if bool_decide (c = Ascii.ascii_of_nat 45) then (true, rest)
        else if bool_decide (c = Ascii.ascii_of_nat 43) then (false, rest) else (false, s)
    | "" => (false, s)
    end in
  un ← ParseUint digits 10 64;
  if negative then (if 2 ^ 63 <? un then Err ErrRange else Ok (- un))
  else (if 2 ^ 63 <=? un then Err ErrRange else Ok un).

(** ** Backup objects *)

(** [BackupObject]: an object with what its methods answer. *)
Record BackupObject := mkBackupObject {
  boObject : Object;
  GetBackupTime : Z;
  GetBackupName : string;
  IsFullBackup : bool;
  GetBaseBackupName : string;
  GetIncrementFromName : string
}.

Definition boName (b : BackupObject) : string := GetName (boObject b).

(** [DefaultBackupObject]: without increments. *)
Definition NewDefaultBackupObject (object : Object) : BackupObject :=
  let name := StripRightmostBackupName (GetName object) in
  mkBackupObject object (GetLastModified object) name true name name.

(** ** The storage *)

(** [storage.DeleteObjectsWhere]: the objects it deletes when it succeeds, of
    all those below the folder, named relative to it. The filter may panic. *)
Class DeletingFolder (Folder : Type) := {
  allObjects : Folder -> list Object;
  DeleteObjectsWhere : Folder -> bool -> (Object -> res pgError bool) -> res pgError (list Object);
  DeleteObjectsWhere_ok folder confirm filter deleted :
    DeleteObjectsWhere folder confirm filter = Ok deleted ->
    forall o, o ∈ deleted <-> confirm = true /\ o ∈ allObjects folder /\ filter o = Ok true;
  DeleteObjectsWhere_filter folder confirm filter deleted :
    DeleteObjectsWhere folder confirm filter = Ok deleted ->
    forall o, o ∈ allObjects folder -> is_ok (filter o) = true
}.

(** ** Arguments *)

Definition extractDeleteModifierFromArgs (args : list string) : res pgError (Z * string) :=
  match args with
  | [a] => Ok (NoDeleteModifier, a)
  | a :: b :: _ => Ok (if bool_decide (a = "FULL") then FullDeleteModifier else FindFullDeleteModifier, b)
  | [] => Err Panic
  end.

Definition extractDeleteRetainModifierFromArgs (args : list string) : res pgError (Z * string * string) :=
  match args with
  | [a; b] => Ok (NoDeleteModifier, a, b)
  | a :: b :: c :: _ => Ok (if bool_decide (a = "FULL") then FullDeleteModifier else FindFullDeleteModifier, b, c)
  | _ => Err Panic
  end.

Definition ExtractDeleteEverythingModifierFromArgs (args : list string) : Z :=
  match args with [] => NoDeleteModifier | _ => ForceDeleteModifier end.

Definition ExtractDeleteTargetModifierFromArgs (args : list string) : Z :=
  match args with
  | a :: _ => if bool_decide (a = "FIND_FULL") then FindFullDeleteModifier else NoDeleteModifier
  | [] => NoDeleteModifier
  end.

Definition deleteArgsValidator (args stringModifiers : list string) (minArgs maxArgs : nat) : option pgError :=
  if ((length args <? minArgs) || (maxArgs <? length args))%nat then Some (External "accepts between")
  else if (length args =? maxArgs)%nat then
    match args with
    | [] => Some Panic
    | expectedModifier :: _ =>
        if existsb (fun modifier => bool_decide (modifier = expectedModifier)) stringModifiers then None
        else Some (External "expected to get one of modifiers")
    end
  else None.

Section Validators.
(** [time.Parse] with the layout RFC 3339, as nanoseconds, and the present time. *)
Variable ParseRFC3339 : string -> option Z.
Variable now : Z.

Definition inFuture (s : string) : bool := match ParseRFC3339 s with Some t => now <? t | None => false end.

Definition DeleteBeforeArgsValidator (args : list string) : option pgError :=
  match deleteArgsValidator args StringModifiers 1 2 with
  | Some err => Some err
  | None =>
      match extractDeleteModifierFromArgs args with
      | Err err => Some err
      | Ok (modifier, beforeStr) =>
          if modifier =? FullDeleteModifier then Some (External "unsupported moodifier for delete before command")
          else if inFuture beforeStr then Some (External "cannot delete before future date") else None
      end
  end.

Definition DeleteTargetArgsValidator (args : list string) (userDataFlagChanged : bool) : option pgError :=
  match args with
  | [] => if userDataFlagChanged then None else Some errIncorrectArguments
  | [_] => None
  | [a; _] => if bool_decide (a = "FIND_FULL") then None else Some errIncorrectArguments
  | _ => Some (External "accepts between")
  end.

Definition DeleteEverythingArgsValidator (args : list string) : option pgError :=
  deleteArgsValidator args StringModifiersDeleteEverything 0 1.

Definition checkRetention (retentionStr : string) : option pgError :=
  match Atoi retentionStr with
  | Err e => Some (Wrapped "expected to get a number as retantion count" (NumError_ e))
  | Ok retentionNumber =>
      if retentionNumber <=? 0 then Some (External "cannot retain less than one backup. Check out delete everything")
      else None
  end.

Definition DeleteRetainArgsValidator (args : list string) : option pgError :=
  match extractDeleteModifierFromArgs args with
  | Err err => Some err
  | Ok (_, retentionStr) => checkRetention retentionStr
  end.

Definition DeleteRetainAfterArgsValidator (args : list string) : option pgError :=
  match deleteArgsValidator args StringModifiers 2 3 with
  | Some err => Some err
  | None =>
      match extractDeleteRetainModifierFromArgs args with
      | Err err => Some err
      | Ok (_, retentionStr, afterStr) =>
          match checkRetention retentionStr with
          | Some err => Some err
          | None => if inFuture afterStr then Some (External "cannot delete retain future date") else None
          end
      end
  end.
End Validators.

(** ** Choosing a target *)

(** A closure over a captured variable: its initial value, and the call. *)
Record choiceFunc := mkChoice {
  captured : Type;
  initial : captured;
  call : captured -> BackupObject -> captured * bool
}.

Definition getBeforeChoiceFunc (name : string) (modifier : Z) : option choiceFunc :=
  if modifier =? NoDeleteModifier then
    Some (mkChoice unit tt (fun u object => (u, HasPrefix (boName object) name)))
  else if modifier =? FindFullDeleteModifier then
    Some (mkChoice bool false (fun meetName object =>
      let meetName := meetName || HasPrefix (boName object) name in
      (meetName, meetName && IsFullBackup object)))
  else None.

Definition getRetainChoiceFunc (retentionCount modifier : Z) : option choiceFunc :=
  if modifier =? NoDeleteModifier then
    Some (mkChoice Z 0 (fun count object => let count := count + 1 in (count, count =? retentionCount)))
  else if modifier =? FullDeleteModifier then
    Some (mkChoice Z 0 (fun count object =>
      let count := if IsFullBackup object then count + 1 else count in (count, count =? retentionCount)))
  else if modifier =? FindFullDeleteModifier then
    Some (mkChoice Z 0 (fun count object =>
      let count := count + 1 in (count, (retentionCount <=? count) && IsFullBackup object)))
  else None.

(** A test without a captured variable. *)
Definition plainChoice (p : BackupObject -> bool) : choiceFunc := mkChoice unit tt (fun u object => (u, p object)).

Fixpoint findLoop {S : Type} (isTarget : S -> BackupObject -> S * bool) (s : S) (objects : list BackupObject)
  : res pgError BackupObject :=
  match objects with
  | [] => Err errNotFound
  | object :: objects =>
      let '(s, found) := isTarget s object in
      if found then Ok object else findLoop isTarget s objects
  end.

(** It sorts [objects] in place. *)
Definition findTarget {sorter : SortSlice} (objects : list BackupObject) (compare : Object -> Object -> bool)
    (isTarget : choiceFunc) : list BackupObject * res pgError BackupObject :=
  let objects := Slice (fun a b => compare (boObject a) (boObject b)) objects in
  (objects, findLoop (call isTarget) (initial isTarget) objects).

(** ** [DeleteHandler] *)

Record DeleteHandler (Folder : Type) := mkDeleteHandler {
  hFolder : Folder;
  hBackups : list BackupObject;
  less : Object -> Object -> bool;
  isPermanent : Object -> res pgError bool
}.
Arguments mkDeleteHandler {_}.
Arguments hFolder {_}.
Arguments hBackups {_}.
Arguments less {_}.
Arguments isPermanent {_}.

(** How a command ends: the process exits with an error, or there is nothing
    to delete, or these objects are deleted. *)
Inductive outcome :=
| Fatal (e : pgError)
| NothingFound
| Deleted (objects : list Object).

Definition outcome_of (r : res pgError (list Object)) : outcome :=
  match r with Ok deleted => Deleted deleted | Err e => Fatal e end.

Section Handler.
Context {sorter : SortSlice} {Folder UserData : Type} `{!BackupFolder Folder} `{!DeletingFolder Folder}.
Context `{!EqDecision UserData}.
Variable ParseRFC3339 : string -> option Z.
Implicit Types h : DeleteHandler Folder.

(** [NewDeleteHandler]; without the option all objects are impermanent. *)
Definition NewDeleteHandler (folder : Folder) (backups : list BackupObject) (less : Object -> Object -> bool)
    (isPermanent : option (Object -> res pgError bool)) : DeleteHandler Folder :=
  mkDeleteHandler folder backups less (default (fun _ => Ok false) isPermanent).

Definition greater h (object1 object2 : Object) : bool := less h object2 object1.

Definition setBackups h (backups : list BackupObject) : DeleteHandler Folder :=
  mkDeleteHandler (hFolder h) backups (less h) (isPermanent h).

(** [findTarget] on the backups of the handler, which it sorts. *)
Definition findIn h (compare : Object -> Object -> bool) (isTarget : choiceFunc)
  : DeleteHandler Folder * res pgError BackupObject :=
  let '(backups, r) := findTarget (hBackups h) compare isTarget in (setBackups h backups, r).

Definition FindTargetBeforeName h (name : string) (modifier : Z) : DeleteHandler Folder * res pgError BackupObject :=
  match getBeforeChoiceFunc name modifier with
  | None => (h, Err (ForbiddenActionError "Not allowed modifier for 'delete before'"))
  | Some choice => findIn h (greater h) choice
  end.

(** A target that may be nil, after [errNotFound] is passed over. *)
Definition orNil (r : res pgError BackupObject) : res pgError (option BackupObject) :=
  match r with
  | Ok target => Ok (Some target)
  | Err e => if bool_decide (e = errNotFound) then Ok None else Err e
  end.

Definition notBefore (timeLine : Z) (object : BackupObject) : bool := timeLine <=? GetBackupTime object.

Definition FindTargetBeforeTime h (timeLine : Z) (modifier : Z)
  : DeleteHandler Folder * res pgError (option BackupObject) :=
  let '(h, r) := findIn h (less h) (plainChoice (notBefore timeLine)) in
  match orNil r with
  | Err err => (h, Err err)
  | Ok None => (h, Ok None)
  | Ok (Some potentialTarget) =>
      let '(h, r) := FindTargetBeforeName h (boName potentialTarget) modifier in
      (h, Some <$> r)
  end.

Definition FindTargetRetain h (retentionCount modifier : Z) : DeleteHandler Folder * res pgError BackupObject :=
  match getRetainChoiceFunc retentionCount modifier with
  | None => (h, Err (ForbiddenActionError "Not allowed modifier for 'delete retain'"))
  | Some choice => findIn h (greater h) choice
  end.

Definition FindTargetByName h (bname : string) : DeleteHandler Folder * res pgError BackupObject :=
  findIn h (greater h) (plainChoice (fun object => HasPrefix (boName object) bname)).

Definition afterNameChoice (name : string) (modifier : Z) : choiceFunc :=
  mkChoice bool false (fun meetName object =>
    let meetName := meetName || HasPrefix (boName object) name in
    (meetName, if modifier =? NoDeleteModifier then meetName else meetName && IsFullBackup object)).

(** The comparison of the targets calls methods of both: a nil one panics. *)
Definition FindTargetRetainAfterName h (retentionCount : Z) (name : string) (modifier : Z)
  : DeleteHandler Folder * res pgError BackupObject :=
  match getRetainChoiceFunc retentionCount modifier with
  | None => (h, Err (ForbiddenActionError "Not allowed modifier for 'delete before'"))
  | Some choiceFuncRetain =>
      let '(h, r1) := findIn h (greater h) choiceFuncRetain in
      match orNil r1 with
      | Err err => (h, Err err)
      | Ok target1 =>
          let '(h, r2) := findIn h (less h) (afterNameChoice name modifier) in
          match orNil r2 with
          | Err err => (h, Err err)
          | Ok target2 =>
              match target1, target2 with
              | Some target1, Some target2 =>
                  (h, Ok (if greater h (boObject target2) (boObject target1) then target1 else target2))
              | _, _ => (h, Err Panic)
              end
          end
      end
  end.

Definition afterTimeChoice (timeLine modifier : Z) : choiceFunc :=
  plainChoice (fun object =>
    if modifier =? NoDeleteModifier then notBefore timeLine object
    else notBefore timeLine object && IsFullBackup object).

Definition FindTargetRetainAfterTime h (retentionCount timeLine modifier : Z)
  : DeleteHandler Folder * res pgError (option BackupObject) :=
  match getRetainChoiceFunc retentionCount modifier with
  | None => (h, Err (ForbiddenActionError "Not allowed modifier for 'delete retain'"))
  | Some choiceFuncRetain =>
      let '(h, r1) := findIn h (greater h) choiceFuncRetain in
      match orNil r1 with
      | Err err => (h, Err err)
      | Ok target1 =>
          let '(h, r2) := findIn h (less h) (afterTimeChoice timeLine modifier) in
          match orNil r2 with
          | Err err => (h, Err err)
          | Ok target2 =>
              (h, Ok match target1, target2 with
                     | None, _ => target2
                     | _, None => target1
                     | Some t1, Some t2 => if greater h (boObject t2) (boObject t1) then target1 else target2
                     end)
          end
      end
  end.

(** ** Deleting *)

Definition DeleteEverything h (confirmed : bool) : outcome :=
  outcome_of (DeleteObjectsWhere (hFolder h) confirmed (fun _ => Ok true)).

Definition DeleteBeforeTarget h (target : BackupObject) (confirmed : bool) : res pgError (list Object) :=
  if negb (IsFullBackup target) then
    Err (ForbiddenActionError "is incremental and it's predecessors cannot be deleted. Consider FIND_FULL option.")
  else DeleteObjectsWhere (hFolder h) confirmed (fun object =>
    if less h object (boObject target) then negb <$> isPermanent h object else Ok false).

(** The names of the targets, unless one is permanent. *)
Fixpoint namesToDelete h (targets : list BackupObject) : res pgError (gset string) :=
  match targets with
  | [] => Ok ∅
  | target :: targets =>
      permanent ← isPermanent h (boObject target);
      if (permanent : bool) then Err (External "Unable to delete permanent backup")
      else names ← namesToDelete h targets; Ok ({[ GetBackupName target ]} ∪ (names : gset string))
  end.

Definition DeleteTargets h (targets : list BackupObject) (confirmed : bool) : res pgError (list Object) :=
  backupNamesToDelete ← namesToDelete h targets;
  DeleteObjectsWhere (GetSubFolder (hFolder h) BaseBackupPath) confirmed (fun object =>
    if bool_decide (StripLeftmostBackupName (GetName object) ∈ backupNamesToDelete)
    then negb <$> isPermanent h object else Ok false).

Definition related (target other : BackupObject) : bool :=
  if IsFullBackup target then
    let isBaseBackup := bool_decide (GetBackupName target = GetBackupName other) in
    let isIncrement := bool_decide (GetBackupName target = GetBaseBackupName other) in
    isBaseBackup || isIncrement
  else
    let isBaseBackup := bool_decide (GetBaseBackupName target = GetBackupName other) in
    let hasCommonBaseBackup := bool_decide (GetBaseBackupName target = GetBaseBackupName other) in
    isBaseBackup || hasCommonBaseBackup.

Definition findRelatedBackups h (target : BackupObject) : list BackupObject :=
  List.filter (related target) (hBackups h).

(** The increments of each backup, in the order of the backups. *)
Definition incrementsByBackup (backups : list BackupObject) (name : string) : list BackupObject :=
  List.filter (fun backup => negb (IsFullBackup backup) && bool_decide (GetIncrementFromName backup = name)) backups.

(** The queue, with fuel; [None] when the fuel runs out. *)
Fixpoint dependantLoop (fuel : nat) (increments : string -> list BackupObject) (queue relatedBackups : list BackupObject)
  : option (list BackupObject) :=
  match queue with
  | [] => Some relatedBackups
  | curr :: queue =>
      match fuel with
      | O => None
      | S fuel =>
          dependantLoop fuel increments (queue ++ increments (GetBackupName curr)) (relatedBackups ++ [curr])
      end
  end.

Definition findDependantBackups (fuel : nat) h (target : BackupObject) : option (list BackupObject) :=
  dependantLoop fuel (incrementsByBackup (hBackups h)) [target] [].

(** ** Commands *)

Definition deleteBefore h (target : option BackupObject) (confirmed : bool) : outcome :=
  match target with
  | None => NothingFound
  | Some target => outcome_of (DeleteBeforeTarget h target confirmed)
  end.

Definition HandleDeleteBefore h (args : list string) (confirmed : bool) : outcome :=
  match extractDeleteModifierFromArgs args with
  | Err err => Fatal err
  | Ok (modifier, beforeStr) =>
      let '(h, r) :=
        match ParseRFC3339 beforeStr with
        | Some timeLine => FindTargetBeforeTime h timeLine modifier
        | None => let '(h, r) := FindTargetBeforeName h beforeStr modifier in (h, Some <$> r)
        end in
      match r with
      | Err err => Fatal err
      | Ok target => deleteBefore h target confirmed
      end
  end.

Definition HandleDeleteRetain h (args : list string) (confirmed : bool) : outcome :=
  match extractDeleteModifierFromArgs args with
  | Err err => Fatal err
  | Ok (modifier, retentionStr) =>
      match Atoi retentionStr with
      | Err e => Fatal (NumError_ e)
      | Ok retentionCount =>
          let '(h, r) := FindTargetRetain h retentionCount modifier in
          match r with
          | Err err => Fatal err
          | Ok target => deleteBefore h (Some target) confirmed
          end
      end
  end.

Definition HandleDeleteRetainAfter h (args : list string) (confirmed : bool) : outcome :=
  match extractDeleteRetainModifierFromArgs args with
  | Err err => Fatal err
  | Ok (modifier, retentionStr, afterStr) =>
      match Atoi retentionStr with
      | Err e => Fatal (NumError_ e)
      | Ok retentionCount =>
          let '(h, r) :=
            match ParseRFC3339 afterStr with
            | Some timeLine => FindTargetRetainAfterTime h retentionCount timeLine modifier
            | None =>
                let '(h, r) := FindTargetRetainAfterName h retentionCount afterStr modifier in (h, Some <$> r)
            end in
          match r with
          | Err err => Fatal err
          | Ok target => deleteBefore h target confirmed
          end
      end
  end.

(** [None] when the queue of the increments runs out of fuel. *)
Definition HandleDeleteTarget (fuel : nat) (Fetch : string -> Folder -> res pgError (GenericMetadata UserData)) h
    (targetSelector : BackupSelector) (confirmed findFull : bool) : option outcome :=
  match Select Fetch targetSelector (hFolder h) with
  | Err err => Some (Fatal err)
  | Ok targetName =>
      match List.find (fun backup => bool_decide (GetBackupName backup = targetName)) (hBackups h) with
      | None => Some NothingFound
      | Some target =>
          backupsToDelete ← (if findFull then Some (findRelatedBackups h target) else findDependantBackups fuel h target);
          Some (outcome_of (DeleteTargets h backupsToDelete confirmed))
      end
  end.

Definition HandleDeleteEverything h (args : list string) (permanentBackups : gset string) (confirmed : bool) : outcome :=
  let forceModifier := ExtractDeleteEverythingModifierFromArgs args =? ForceDeleteModifier in
  if negb (bool_decide (permanentBackups = ∅)) && negb forceModifier then
    Fatal (External "Found permanent backups")
  else DeleteEverything h confirmed.
End Handler.

(** ** Deletion from a storage that lists its objects, for the examples *)

Definition filterOk (filter : Object -> res pgError bool) (o : Object) : bool :=
  match filter o with Ok b => b | Err _ => false end.

Program Definition listedDeletion {Folder : Type} (below : Folder -> list Object) : DeletingFolder Folder := {|
  allObjects := below;
  DeleteObjectsWhere f confirm filter :=
    if forallb (fun o => is_ok (filter o)) (below f)
    then Ok (if confirm then List.filter (filterOk filter) (below f) else []) else Err Panic
|}.
Next Obligation.
  intros Folder below f confirm filter deleted. cbn. destruct (forallb _ _); [|done]. intros [= <-] o.
  destruct confirm.
  - rewrite elem_of_filter_b. unfold filterOk. destruct (filter o) as [[]|]; naive_solver.
  - split; [intros Ho; by apply elem_of_nil in Ho|naive_solver].
Qed.
Next Obligation.
  intros Folder below f confirm filter deleted. cbn. destruct (forallb _ _) eqn:E; [|done]. intros _ o Ho.
  rewrite forallb_forall in E. apply E. by apply list_elem_of_In.
Qed.
