(* ===== verification/DeleteSpec.v ===== *)
(** * What a deletion keeps

    The choice of a target as functions on the sorted backups, the backups that
    [delete retain], [delete before] and [delete retain --after] keep, and the
    increments that [delete target] follows. *)

From S2P Require Import Prelude GoStrings GoPath GoSort Timeline Backups Delete.
Open Scope Z_scope.

(** ** The choice functions as list functions *)

(** The position, from zero, of the [n]-th element. *)
Definition nth_pos (n : Z) : nat := Z.to_nat (n - 1).

Definition found (o : option BackupObject) : res pgError BackupObject :=
  match o with Some target => Ok target | None => Err errNotFound end.

(** The suffix from the first element that passes the test. *)
Fixpoint from_first {A} (p : A -> bool) (l : list A) : list A :=
  match l with [] => [] | x :: l' => if p x then l else from_first p l' end.

Definition retainTarget (modifier n : Z) (sorted : list BackupObject) : option BackupObject :=
  if modifier =? NoDeleteModifier then sorted !! nth_pos n
  else if modifier =? FullDeleteModifier then List.filter IsFullBackup sorted !! nth_pos n
  else List.find IsFullBackup (drop (nth_pos n) sorted).

Definition beforeTarget (modifier : Z) (name : string) (sorted : list BackupObject) : option BackupObject :=
  let named := from_first (fun b => HasPrefix (boName b) name) sorted in
  if modifier =? NoDeleteModifier then head named else List.find IsFullBackup named.

Lemma findLoop_plain p objects : findLoop (call (plainChoice p)) tt objects = found (List.find p objects).
Proof. induction objects as [|o objects IH]; cbn; [done|]. by destruct (p o). Qed.

Lemma retain_none n objects : forall c, c < n ->
  findLoop (fun count (_ : BackupObject) => let count := count + 1 in (count, count =? n)) c objects =
  found (objects !! Z.to_nat (n - c - 1)).
Proof.
  induction objects as [|o objects IH]; intros c Hc; cbn; [done|].
  destruct (Z.eqb_spec (c + 1) n) as [<-|Hn].
  - by replace (c + 1 - c - 1) with 0 by lia.
  - rewrite IH by lia. replace (Z.to_nat (n - c - 1)) with (S (Z.to_nat (n - (c + 1) - 1))) by lia. done.
Qed.

Lemma retain_full n objects : forall c, c < n ->
  findLoop (fun count object =>
    let count := if IsFullBackup object then count + 1 else count in (count, count =? n)) c objects =
  found (List.filter IsFullBackup objects !! Z.to_nat (n - c - 1)).
Proof.
  induction objects as [|o objects IH]; intros c Hc; cbn; [done|]. destruct (IsFullBackup o).
  - destruct (Z.eqb_spec (c + 1) n) as [<-|Hn].
    + by replace (c + 1 - c - 1) with 0 by lia.
    + rewrite IH by lia. replace (Z.to_nat (n - c - 1)) with (S (Z.to_nat (n - (c + 1) - 1))) by lia. done.
  - rewrite (proj2 (Z.eqb_neq c n)) by lia. by apply IH.
Qed.

Lemma retain_find_full n objects : forall c,
  findLoop (fun count object =>
    let count := count + 1 in (count, (n <=? count) && IsFullBackup object)) c objects =
  found (List.find IsFullBackup (drop (Z.to_nat (n - c - 1)) objects)).
Proof.
  induction objects as [|o objects IH]; intros c; cbn; [by rewrite drop_nil|].
  destruct (Z.leb_spec n (c + 1)); cbn.
  - replace (Z.to_nat (n - c - 1)) with 0%nat by lia. cbn. destruct (IsFullBackup o); [done|].
    rewrite IH. by replace (Z.to_nat (n - (c + 1) - 1)) with 0%nat by lia.
  - rewrite IH. by replace (Z.to_nat (n - c - 1)) with (S (Z.to_nat (n - (c + 1) - 1))) by lia.
Qed.

(** A name once met stays met. *)
Lemma meetName_loop (p q : BackupObject -> bool) objects : forall met,
  findLoop (fun meetName object => let meetName := meetName || p object in (meetName, meetName && q object)) met objects =
  found (List.find q (if (met : bool) then objects else from_first p objects)).
Proof.
  induction objects as [|o objects IH]; intros met; cbn; [by destruct met|].
  destruct met; cbn; [destruct (q o); [done|apply (IH true)]|].
  destruct (p o) eqn:Hp; cbn; [destruct (q o); [done|apply (IH true)]|apply (IH false)].
Qed.

Lemma find_is_head {A} (p : A -> bool) l : List.find p l = head (from_first p l).
Proof. induction l as [|x l IH]; cbn; [done|]. by destruct (p x). Qed.

Section Targets.
Context {sorter : SortSlice} {Folder : Type}.
Implicit Types h : DeleteHandler Folder.

(** The most recent first, and the oldest first. *)
Definition newestFirst h : list BackupObject :=
  Slice (fun a b => greater h (boObject a) (boObject b)) (hBackups h).
Definition oldestFirst h : list BackupObject :=
  Slice (fun a b => less h (boObject a) (boObject b)) (hBackups h).

Definition known_modifier (modifier : Z) : bool :=
  (modifier =? NoDeleteModifier) || (modifier =? FullDeleteModifier) || (modifier =? FindFullDeleteModifier).

Lemma FindTargetRetain_eq h n modifier : 0 < n -> known_modifier modifier = true ->
  FindTargetRetain h n modifier = (setBackups h (newestFirst h), found (retainTarget modifier n (newestFirst h))).
Proof.
  intros Hn Hm. unfold FindTargetRetain, getRetainChoiceFunc, findIn, findTarget, retainTarget, nth_pos.
  unfold known_modifier in Hm. replace (n - 1) with (n - 0 - 1) by lia.
  destruct (modifier =? NoDeleteModifier); [cbn; by rewrite retain_none|].
  destruct (modifier =? FullDeleteModifier); [cbn; by rewrite retain_full|].
  destruct (modifier =? FindFullDeleteModifier); [cbn; by rewrite retain_find_full|done].
Qed.

Lemma FindTargetBeforeName_eq h name modifier :
  (modifier =? NoDeleteModifier) || (modifier =? FindFullDeleteModifier) = true ->
  FindTargetBeforeName h name modifier =
  (setBackups h (newestFirst h), found (beforeTarget modifier name (newestFirst h))).
Proof.
  intros Hm. unfold FindTargetBeforeName, getBeforeChoiceFunc, findIn, findTarget, beforeTarget.
  destruct (modifier =? NoDeleteModifier).
  - cbn. fold (newestFirst h). rewrite <- find_is_head.
    apply (f_equal (pair _)), (findLoop_plain (fun b => HasPrefix (boName b) name)).
  - destruct (modifier =? FindFullDeleteModifier); [|done]. cbn.
    apply (f_equal (pair _)), (meetName_loop (fun b => HasPrefix (boName b) name) IsFullBackup _ false).
Qed.

Lemma findIn_plain h compare p :
  findIn h compare (plainChoice p) =
  let sorted := Slice (fun a b => compare (boObject a) (boObject b)) (hBackups h) in
  (setBackups h sorted, found (List.find p sorted)).
Proof. unfold findIn, findTarget. cbn. f_equal. apply findLoop_plain. Qed.
End Targets.

(** ** Positions *)

(** What [delete retain] promises of the backups it keeps, the last of which
    is the target. *)
Definition retains (modifier n : Z) (kept : list BackupObject) : Prop :=
  if modifier =? NoDeleteModifier then length kept = Z.to_nat n
  else if modifier =? FullDeleteModifier then length (List.filter IsFullBackup kept) = Z.to_nat n
  else (Z.to_nat n <= length kept)%nat /\ length (List.filter IsFullBackup (drop (nth_pos n) kept)) = 1%nat.

Lemma filter_lookup_pos {A} (p : A -> bool) l : forall k x, List.filter p l !! k = Some x ->
  exists i, l !! i = Some x /\ length (List.filter p (take (S i) l)) = S k.
Proof.
  induction l as [|y l IH]; intros k x; [done|]. cbn [List.filter]. destruct (p y) eqn:Hp.
  - destruct k as [|k]; cbn [lookup list_lookup].
    + intros [= ->]. exists 0%nat. split; [done|]. cbn [take List.filter]. by rewrite Hp, take_0.
    + intros (i & Hi & Hl)%IH. exists (S i). split; [done|].
      rewrite firstn_cons. cbn [List.filter]. rewrite Hp. cbn. by f_equal.
  - intros (i & Hi & Hl)%IH. exists (S i). split; [done|]. rewrite firstn_cons. cbn [List.filter]. by rewrite Hp.
Qed.

Lemma find_pos {A} (p : A -> bool) l x : List.find p l = Some x ->
  exists i, l !! i = Some x /\ p x = true /\ List.filter p (take (S i) l) = [x].
Proof.
  induction l as [|y l IH]; [done|]. cbn [List.find]. destruct (p y) eqn:Hp.
  - intros [= ->]. exists 0%nat. do 2 (split; [done|]). cbn [take List.filter]. by rewrite Hp, take_0.
  - intros (i & Hi & Hx & Hl)%IH. exists (S i). do 2 (split; [done|]).
    rewrite firstn_cons. cbn [List.filter]. by rewrite Hp.
Qed.

Lemma elem_of_take_in {A} k (l : list A) x : x ∈ take k l -> x ∈ l.
Proof. intros Hx. rewrite <- (take_drop k l). set_solver. Qed.

(** Of two positions of a sorted list. *)
Lemma sorted_lookup {A} (R : A -> A -> Prop) l i j x y :
  StronglySorted R l -> l !! i = Some x -> l !! (j : nat) = Some y -> (i <= j)%nat -> R y y -> R x y.
Proof.
  intros Hs Hi Hj Hij Hy. destruct (decide (i = j)) as [-> | Hne]; [congruence|].
  apply (sorted_take_drop _ (S i) l); [done| |].
  - apply (list_elem_of_lookup_2 _ i). by rewrite lookup_take_lt by lia.
  - apply (list_elem_of_lookup_2 _ (j - S i)). rewrite lookup_drop. by replace (S i + (j - S i))%nat with j by lia.
Qed.

Lemma drop_take_S {A} k i (l : list A) : drop k (take (S (k + i)) l) = take (S i) (drop k l).
Proof. rewrite take_drop_commute. f_equal. f_equal. lia. Qed.

(** The target is at the end of the retained prefix. *)
Lemma retainTarget_pos modifier n sorted target : 0 < n -> retainTarget modifier n sorted = Some target ->
  exists i, sorted !! i = Some target /\ retains modifier n (take (S i) sorted).
Proof.
  intros Hn. unfold retainTarget, retains. destruct (modifier =? NoDeleteModifier).
  { intros Ht. exists (nth_pos n). split; [done|]. apply lookup_lt_Some in Ht.
    rewrite length_take. unfold nth_pos in *. lia. }
  destruct (modifier =? FullDeleteModifier).
  { intros (i & Hi & Hl)%filter_lookup_pos. exists i. split; [done|]. rewrite Hl. unfold nth_pos. lia. }
  intros (i & Hi & Hf & Hl)%find_pos. exists (nth_pos n + i)%nat. rewrite lookup_drop in Hi.
  split; [done|]. rewrite drop_take_S, Hl. split; [|done].
  apply lookup_lt_Some in Hi. rewrite length_take. unfold nth_pos in *. lia.
Qed.

(** ** Keeping *)

Section Keep.
Context {sorter : SortSlice} {Folder UserData : Type} `{!BackupFolder Folder} `{!DeletingFolder Folder}
  `{!EqDecision UserData}.
Variable ParseRFC3339 : string -> option Z.
Variable h : DeleteHandler Folder.
(** The comparison is an order on [P], which holds of the backups and of what
    compares less than one. *)
Variable P : Object -> Prop.
Hypothesis less_order : StrictWeakOn P (less h).
Hypothesis backups_P : forall b, b ∈ hBackups h -> P (boObject b).
Hypothesis less_P : forall o b, b ∈ hBackups h -> less h o (boObject b) = true -> P o.

(** What is deleted before [target]. *)
Definition deleted_before (target : BackupObject) (deleted : list Object) : Prop :=
  IsFullBackup target = true /\
  forall o, o ∈ deleted <->
    o ∈ allObjects (hFolder h) /\ less h o (boObject target) = true /\ isPermanent h o = Ok false.

Lemma DeleteBeforeTarget_ok h' target deleted :
  hFolder h' = hFolder h -> less h' = less h -> isPermanent h' = isPermanent h ->
  DeleteBeforeTarget h' target true = Ok deleted -> deleted_before target deleted.
Proof.
  intros Ef El Ep. unfold DeleteBeforeTarget. rewrite Ef, El, Ep.
  destruct (IsFullBackup target) eqn:Hf; cbn; [|done]. intros Hd. split; [done|]. intros o.
  rewrite (DeleteObjectsWhere_ok _ _ _ _ Hd). destruct (less h o (boObject target)); [|naive_solver].
  destruct (isPermanent h o) as [[]|]; cbn; naive_solver.
Qed.

Lemma backups_order (backups : list BackupObject) : (forall b, b ∈ backups -> b ∈ hBackups h) ->
  StrictWeakOn (.∈ backups) (fun a b => less h (boObject a) (boObject b)).
Proof.
  intros Hb. assert (forall b, b ∈ backups -> P (boObject b)) as HP by auto.
  destruct less_order as [Hi Ht Hn]. split.
  - intros x Hx. by apply Hi, HP.
  - intros x y z Hx Hy Hz. apply Ht; by apply HP.
  - intros x y z Hx Hy Hz. apply Hn; by apply HP.
Qed.

Lemma newestFirst_in b : b ∈ newestFirst h <-> b ∈ hBackups h.
Proof. apply Slice_elem. Qed.

Lemma newest_sorted (backups : list BackupObject) : (forall b, b ∈ backups -> b ∈ hBackups h) ->
  StronglySorted (fun a b => less h (boObject a) (boObject b) = false)
    (Slice (fun a b => greater h (boObject a) (boObject b)) backups).
Proof.
  intros Hb. apply (StronglySorted_weaken (not_after (fun a b => greater h (boObject a) (boObject b)))); [done|].
  by apply Slice_sorted_on, (StrictWeakOn_flip _ (fun a b => less h (boObject a) (boObject b))), backups_order.
Qed.

Lemma newestFirst_sorted :
  StronglySorted (fun a b => less h (boObject a) (boObject b) = false) (newestFirst h).
Proof. by apply newest_sorted. Qed.

Lemma oldestFirst_sorted (backups : list BackupObject) : (forall b, b ∈ backups -> b ∈ hBackups h) ->
  StronglySorted (fun a b => less h (boObject b) (boObject a) = false)
    (Slice (fun a b => less h (boObject a) (boObject b)) backups).
Proof.
  intros Hb. apply Slice_sorted_on. by apply backups_order.
Qed.

(** The backups up to the target in the sorted order are not older than it. *)
Lemma prefix_not_less i target b :
  newestFirst h !! i = Some target -> b ∈ take (S i) (newestFirst h) ->
  less h (boObject b) (boObject target) = false.
Proof.
  intros Hi Hb. assert (Ht := Hi). apply list_elem_of_lookup_2, newestFirst_in in Ht.
  rewrite (take_S_r _ _ _ Hi) in Hb. apply elem_of_app in Hb as [Hb|Hb%list_elem_of_singleton].
  - apply (sorted_take_drop _ i _ _ _ newestFirst_sorted Hb).
    apply (list_elem_of_lookup_2 _ 0). by rewrite lookup_drop, Nat.add_0_r.
  - subst b. apply (on_irrefl less_order); auto.
Qed.

(** What is deleted before a target is less than any backup not older than it. *)
Lemma deleted_less target deleted b o :
  target ∈ hBackups h -> b ∈ hBackups h -> deleted_before target deleted ->
  less h (boObject b) (boObject target) = false -> o ∈ deleted -> less h o (boObject b) = true.
Proof.
  intros Ht Hb [_ Hd] Hbt Ho. apply Hd in Ho as (_ & Ho & _).
  apply (StrictWeakOn_less_le P _ o (boObject target)); eauto.
Qed.

Lemma deleteBefore_Some target deleted (h' : DeleteHandler Folder) :
  deleteBefore h' (Some target) true = Deleted deleted -> DeleteBeforeTarget h' target true = Ok deleted.
Proof. cbn. destruct (DeleteBeforeTarget h' target true); cbn; congruence. Qed.

(** C27: [delete retain] of [n] backups, with any modifier and arguments that its
    validator accepts: if it deletes, the newest backups up to a full one are
    kept, [n] of them, or [n] full ones with [FULL], or at least [n] up to the
    first full one with [FIND_FULL]; each deleted object is older than each kept
    backup; and the deleted objects are those older than the target that belong
    to no permanent backup. *)
Theorem HandleDeleteRetain_keeps args modifier retentionStr n deleted :
  DeleteRetainArgsValidator args = None ->
  extractDeleteModifierFromArgs args = Ok (modifier, retentionStr) -> Atoi retentionStr = Ok n ->
  HandleDeleteRetain h args true = Deleted deleted ->
  exists i target, newestFirst h !! i = Some target /\
    let kept := take (S i) (newestFirst h) in
    retains modifier n kept /\
    (forall b o, b ∈ kept -> o ∈ deleted -> less h o (boObject b) = true) /\
    deleted_before target deleted.
Proof.
  intros Hv Ha Hn. assert (0 < n) as Hpos.
  { unfold DeleteRetainArgsValidator in Hv. rewrite Ha in Hv. unfold checkRetention in Hv. rewrite Hn in Hv.
    destruct (Z.leb_spec n 0); [done|lia]. }
  assert (known_modifier modifier = true) as Hk.
  { destruct args as [|a [|b args]]; cbn in Ha; [done| |]; injection Ha as <- _; [done|by case_bool_decide]. }
  unfold HandleDeleteRetain. rewrite Ha, Hn, FindTargetRetain_eq by done.
  destruct (retainTarget modifier n (newestFirst h)) as [target|] eqn:Ht; [|done].
  cbn [found]. intros Hd%deleteBefore_Some%DeleteBeforeTarget_ok; [|done..].
  apply retainTarget_pos in Ht as (i & Hi & Hr); [|done]. exists i, target. split; [done|]. cbn zeta.
  split; [done|]. split; [|done]. intros b o Hb Ho.
  apply (deleted_less target deleted); [|eapply newestFirst_in, elem_of_take_in; done|done| |done].
  - by apply newestFirst_in, (list_elem_of_lookup_2 _ i).
  - by eapply prefix_not_less.
Qed.

(** ** [delete before] *)

Lemma from_first_drop {A} (p : A -> bool) l x : head (from_first p l) = Some x ->
  exists i, from_first p l = drop i l /\ l !! i = Some x /\ p x = true.
Proof.
  induction l as [|y l IH]; cbn [from_first]; [done|]. destruct (p y) eqn:Hp.
  - intros [= ->]. by exists 0%nat.
  - intros (i & E & Hi & Hx)%IH. by exists (S i).
Qed.

(** The target of [delete before]: the named backup, or with [FIND_FULL] the
    newest full backup not newer than it. *)
Definition before_target (modifier : Z) (named target : BackupObject) : Prop :=
  if modifier =? NoDeleteModifier then target = named
  else IsFullBackup target = true /\ less h (boObject named) (boObject target) = false /\
    forall b, b ∈ hBackups h -> IsFullBackup b = true ->
      less h (boObject b) (boObject named) = true -> less h (boObject target) (boObject b) = true -> False.

Lemma full_after (l : list BackupObject) i named target :
  StronglySorted (fun a b => less h (boObject a) (boObject b) = false) l ->
  (forall b, b ∈ l -> b ∈ hBackups h) -> l !! i = Some named ->
  List.find IsFullBackup (drop i l) = Some target ->
  target ∈ hBackups h /\ IsFullBackup target = true /\ less h (boObject named) (boObject target) = false /\
  forall b, b ∈ l -> IsFullBackup b = true ->
    less h (boObject b) (boObject named) = true -> less h (boObject target) (boObject b) = true -> False.
Proof.
  intros Hs Hl Hi (j & Hj & Hf & Hfil)%find_pos.
  assert (target ∈ l) as Htl by (apply (elem_of_drop_in i), (list_elem_of_lookup_2 _ j), Hj).
  pose proof Hs as Hd. rewrite <- (take_drop i l), StronglySorted_app in Hd. destruct Hd as (Hx & _ & Hd).
  assert (named ∈ drop i l) as Hnd.
  { apply (list_elem_of_lookup_2 _ 0). by rewrite lookup_drop, Nat.add_0_r. }
  split; [by apply Hl|]. split; [done|]. split.
  - rewrite lookup_drop in Hj. apply (sorted_lookup _ _ _ _ _ _ Hs Hi Hj). { lia. }
    apply (on_irrefl less_order), backups_P. auto.
  - intros b Hb Hbf Hbn Hbt. rewrite <- (take_drop i l) in Hb. apply elem_of_app in Hb as [Hb|Hb].
    { rewrite (Hx b named) in Hbn by done. done. }
    rewrite <- (take_drop (S j) (drop i l)) in Hb. apply elem_of_app in Hb as [Hb|Hb].
    + assert (b ∈ [target]) as Hbt' by (rewrite <- Hfil; by apply elem_of_filter_b).
      apply list_elem_of_singleton in Hbt' as ->. rewrite (on_irrefl less_order) in Hbt; [done|]. auto.
    + rewrite (sorted_take_drop _ (S j) _ target b Hd) in Hbt; [done| |done].
      apply (list_elem_of_lookup_2 _ j). rewrite lookup_take_lt by lia. done.
Qed.

Lemma beforeTarget_spec modifier name (backups : list BackupObject) target :
  backups ≡ₚ hBackups h ->
  beforeTarget modifier name (newestFirst (setBackups h backups)) = Some target ->
  exists named, named ∈ hBackups h /\ target ∈ hBackups h /\ HasPrefix (boName named) name = true /\
    (forall b, b ∈ hBackups h -> HasPrefix (boName b) name = true -> less h (boObject named) (boObject b) = false) /\
    before_target modifier named target.
Proof.
  intros Hp. unfold beforeTarget, newestFirst, before_target, greater. cbn [hBackups setBackups less].
  assert (forall b, b ∈ backups -> b ∈ hBackups h) as Hin by (intros b; by rewrite Hp).
  pose proof (newest_sorted backups Hin) as Hs. unfold greater in Hs.
  assert (forall b, b ∈ Slice (fun a b => less h (boObject b) (boObject a)) backups <-> b ∈ hBackups h) as Hl
    by (intros b; by rewrite Slice_elem, Hp).
  set (l := Slice _ backups) in *. set (p := fun b => HasPrefix (boName b) name).
  assert (forall named, head (from_first p l) = Some named -> named ∈ hBackups h /\
    (forall b, b ∈ hBackups h -> p b = true -> less h (boObject named) (boObject b) = false)) as Hnamed.
  { intros named Hn. rewrite <- find_is_head in Hn. split.
    - apply find_some in Hn as [Hn _]. by apply Hl, list_elem_of_In.
    - intros b Hb%Hl Hpb. destruct (StronglySorted_find _ _ _ _ Hs Hn b Hb Hpb) as [-> | HR]; [|done].
      by apply (on_irrefl less_order), backups_P, Hl. }
  destruct (modifier =? NoDeleteModifier).
  - intros Hn. destruct (Hnamed _ Hn) as [Hnb Hmax]. exists target. do 2 (split; [done|]).
    apply from_first_drop in Hn as (_ & _ & _ & Hpt). done.
  - destruct (head (from_first p l)) as [named|] eqn:Hn; [|by apply head_None in Hn as ->].
    destruct (Hnamed _ eq_refl) as [Hnb Hmax]. apply from_first_drop in Hn as (i & -> & Hi & Hpn).
    intros Ht. exists named. destruct (full_after l i named target Hs (fun b => proj1 (Hl b)) Hi Ht)
      as (Htb & Hf & Hle & Hno).
    do 4 (split; [done|]). do 2 (split; [done|]). intros b Hb%Hl. by apply Hno.
Qed.

(** The backups not older than the named one outlive the deletion. *)
Lemma before_target_keeps modifier named target deleted b o :
  named ∈ hBackups h -> target ∈ hBackups h -> b ∈ hBackups h ->
  before_target modifier named target -> deleted_before target deleted ->
  less h (boObject b) (boObject named) = false -> o ∈ deleted -> less h o (boObject b) = true.
Proof.
  intros Hn Ht Hb Hbt Hd Hbn. apply (deleted_less target deleted); [done..|].
  unfold before_target in Hbt. destruct (modifier =? NoDeleteModifier); [by subst|].
  destruct Hbt as (_ & Hle & _). apply (on_ntrans less_order _ (boObject named)); auto.
Qed.

(** The name a deletion before [beforeStr] works with: the one given, or for a
    time that of the oldest backup not before it. *)
Definition names_backup (beforeStr name : string) : Prop :=
  match ParseRFC3339 beforeStr with
  | None => name = beforeStr
  | Some timeLine => exists first, first ∈ hBackups h /\ name = boName first /\ timeLine <= GetBackupTime first /\
      forall b, b ∈ hBackups h -> timeLine <= GetBackupTime b -> less h (boObject b) (boObject first) = false
  end.

Lemma oldest_found (backups : list BackupObject) p first :
  (forall b, b ∈ backups <-> b ∈ hBackups h) ->
  List.find p (Slice (fun a b => less h (boObject a) (boObject b)) backups) = Some first ->
  first ∈ hBackups h /\ p first = true /\
  forall b, b ∈ hBackups h -> p b = true -> less h (boObject b) (boObject first) = false.
Proof.
  intros Hin Hf. pose proof (oldestFirst_sorted backups (fun b => proj1 (Hin b))) as Hs.
  assert (Hf' := Hf). apply find_some in Hf' as [Hb Hp]. apply list_elem_of_In in Hb.
  rewrite Slice_elem, Hin in Hb. do 2 (split; [done|]). intros b Hbb Hpb.
  destruct (StronglySorted_find _ _ _ _ Hs Hf b) as [-> | HR]; [by rewrite Slice_elem, Hin|done| |done].
  apply (on_irrefl less_order). auto.
Qed.

(** [delete before] a name or a time, with arguments its validator accepts:
    if it deletes, it names the newest backup with that name, the target is this
    backup or, with [FIND_FULL], the newest full one not newer; each deleted
    object is older than each backup not older than the named one; and the
    deleted objects are those older than the target that belong to no permanent
    backup. *)
Theorem HandleDeleteBefore_keeps now args modifier beforeStr deleted :
  DeleteBeforeArgsValidator ParseRFC3339 now args = None ->
  extractDeleteModifierFromArgs args = Ok (modifier, beforeStr) ->
  HandleDeleteBefore ParseRFC3339 h args true = Deleted deleted ->
  exists name named target, names_backup beforeStr name /\
    named ∈ hBackups h /\ HasPrefix (boName named) name = true /\
    (forall b, b ∈ hBackups h -> HasPrefix (boName b) name = true -> less h (boObject named) (boObject b) = false) /\
    before_target modifier named target /\
    (forall b o, b ∈ hBackups h -> less h (boObject b) (boObject named) = false -> o ∈ deleted ->
       less h o (boObject b) = true) /\
    deleted_before target deleted.
Proof.
  intros Hv Ha. assert ((modifier =? NoDeleteModifier) || (modifier =? FindFullDeleteModifier) = true) as Hk.
  { unfold DeleteBeforeArgsValidator in Hv. destruct (deleteArgsValidator _ _ _ _); [done|]. rewrite Ha in Hv.
    destruct args as [|a [|b args]]; cbn in Ha; [done| |]; injection Ha as <- <-; [done|].
    by case_bool_decide. }
  unfold HandleDeleteBefore. rewrite Ha. intros Hd.
  assert (exists name backups target, names_backup beforeStr name /\ backups ≡ₚ hBackups h /\
    beforeTarget modifier name (newestFirst (setBackups h backups)) = Some target /\
    deleted_before target deleted) as (name & backups & target & Hname & Hp & Ht & Hdel).
  { unfold names_backup. destruct (ParseRFC3339 beforeStr) as [timeLine|].
    - unfold FindTargetBeforeTime in Hd. rewrite findIn_plain in Hd. cbn zeta in Hd.
      destruct (List.find _ _) as [first|] eqn:Hf; cbn [found orNil] in Hd; [|by rewrite bool_decide_true in Hd].
      rewrite FindTargetBeforeName_eq in Hd by done.
      destruct (beforeTarget _ _ _) as [target|] eqn:Ht; [|done].
      apply deleteBefore_Some, DeleteBeforeTarget_ok in Hd; [|done..].
      apply (oldest_found (hBackups h)) in Hf as (Hfb & Hft & Hmin); [|done].
      eexists _, _, target. split; [|split; [|by split; [exact Ht|]]]; [|apply Slice_perm].
      exists first. unfold notBefore in *. apply Z.leb_le in Hft. do 3 (split; [done|]).
      intros b Hb Hbt. apply Hmin; [done|]. by apply Z.leb_le.
    - rewrite FindTargetBeforeName_eq in Hd by done.
      destruct (beforeTarget _ _ _) as [target|] eqn:Ht; [|done].
      apply deleteBefore_Some, DeleteBeforeTarget_ok in Hd; [|done..].
      exists beforeStr, (hBackups h), target. do 2 (split; [done|]). by destruct h. }
  apply (beforeTarget_spec modifier name backups) in Ht as (named & Hn & Htb & Hpre & Hmax & Hbt); [|done].
  exists name, named, target. do 5 (split; [done|]). split; [|done].
  intros b o Hb. by apply (before_target_keeps modifier named target deleted).
Qed.

(** ** [delete retain --after] *)

(** The backups the time keeps. *)
Definition keptByTime (timeLine modifier : Z) (b : BackupObject) : bool :=
  if modifier =? NoDeleteModifier then notBefore timeLine b else notBefore timeLine b && IsFullBackup b.

(** The older one of two targets, as [FindTargetRetainAfterTime] compares them. *)
Definition older (target1 target2 : BackupObject) : BackupObject :=
  if less h (boObject target1) (boObject target2) then target1 else target2.

Lemma older_not_less target1 target2 b :
  target1 ∈ hBackups h -> target2 ∈ hBackups h -> b ∈ hBackups h ->
  less h (boObject b) (boObject target1) = false \/ less h (boObject b) (boObject target2) = false ->
  less h (boObject b) (boObject (older target1 target2)) = false.
Proof.
  intros H1 H2 Hb Hor. unfold older. destruct (less h (boObject target1) (boObject target2)) eqn:E.
  - destruct Hor as [Hb1|Hb2]; [done|]. destruct (less h (boObject b) (boObject target1)) eqn:E'; [|done].
    rewrite <- Hb2. symmetry. apply (on_trans less_order _ (boObject target1)); auto.
  - destruct Hor as [Hb1|Hb2]; [|done]. apply (on_ntrans less_order _ (boObject target1)); auto.
Qed.

Lemma FindTargetRetainAfterTime_eq n timeLine modifier : 0 < n -> known_modifier modifier = true ->
  FindTargetRetainAfterTime h n timeLine modifier =
  let byTime := List.find (keptByTime timeLine modifier)
    (Slice (fun a b => less h (boObject a) (boObject b)) (newestFirst h)) in
  (setBackups h (Slice (fun a b => less h (boObject a) (boObject b)) (newestFirst h)),
   Ok match retainTarget modifier n (newestFirst h), byTime with
      | None, _ => byTime
      | byCount, None => byCount
      | Some t1, Some t2 => Some (older t1 t2)
      end).
Proof.
  intros Hn Hk. pose proof (FindTargetRetain_eq h n modifier Hn Hk) as E. unfold FindTargetRetain in E.
  unfold FindTargetRetainAfterTime. destruct (getRetainChoiceFunc n modifier) as [choice|];
    [|by destruct (retainTarget modifier n (newestFirst h))].
  rewrite E. clear E. assert (forall o, orNil (found o) = Ok o) as Hnil by (by intros []).
  cbv beta iota. rewrite Hnil. unfold afterTimeChoice. rewrite findIn_plain. cbv beta iota zeta. rewrite Hnil. unfold older.
  change (fun object => if modifier =? NoDeleteModifier then notBefore timeLine object
    else notBefore timeLine object && IsFullBackup object) with (keptByTime timeLine modifier).
  f_equal. f_equal. destruct (retainTarget modifier n (newestFirst h)) as [t1|]; [|done].
  cbn [hBackups setBackups]. destruct (List.find _ _) as [t2|]; [|done].
  unfold greater. cbn [less setBackups]. by case_bool.
Qed.

(** [delete retain --after] a time: when there are [n] backups to retain, and
    if it deletes, both the [n] newest backups and those not before the time
    are newer than each deleted object; but when there are fewer than [n], all
    that is older than the oldest backup not before the time is deleted. *)
Theorem HandleDeleteRetainAfter_time now args modifier retentionStr afterStr n timeLine deleted :
  DeleteRetainAfterArgsValidator ParseRFC3339 now args = None ->
  extractDeleteRetainModifierFromArgs args = Ok (modifier, retentionStr, afterStr) ->
  Atoi retentionStr = Ok n -> ParseRFC3339 afterStr = Some timeLine ->
  HandleDeleteRetainAfter ParseRFC3339 h args true = Deleted deleted ->
  exists target, deleted_before target deleted /\
    match retainTarget modifier n (newestFirst h) with
    | Some last => exists i, newestFirst h !! i = Some last /\
        let kept := take (S i) (newestFirst h) in
        retains modifier n kept /\
        forall b o, b ∈ hBackups h -> b ∈ kept \/ keptByTime timeLine modifier b = true -> o ∈ deleted ->
          less h o (boObject b) = true
    | None => target ∈ hBackups h /\ keptByTime timeLine modifier target = true /\
        forall b, b ∈ hBackups h -> keptByTime timeLine modifier b = true ->
          less h (boObject b) (boObject target) = false
    end.
Proof.
  intros Hv Ha Hn Ht. assert (0 < n) as Hpos.
  { unfold DeleteRetainAfterArgsValidator in Hv. destruct (deleteArgsValidator _ _ _ _); [done|].
    rewrite Ha in Hv. unfold checkRetention in Hv. rewrite Hn in Hv. destruct (Z.leb_spec n 0); [done|lia]. }
  assert (known_modifier modifier = true) as Hk.
  { destruct args as [|a [|b [|c args]]]; cbn in Ha; [done..| |]; injection Ha as <- _ _; [done|by case_bool_decide]. }
  unfold HandleDeleteRetainAfter. rewrite Ha, Hn, Ht, FindTargetRetainAfterTime_eq by done. cbn zeta.
  destruct (List.find _ _) as [byTime|] eqn:Hf.
  - apply (oldest_found (newestFirst h)) in Hf as (Htb & Hkt & Hmin); [|apply newestFirst_in].
    destruct (retainTarget modifier n (newestFirst h)) as [byCount|] eqn:Hr.
    + intros Hd%deleteBefore_Some%DeleteBeforeTarget_ok; [|done..]. exists (older byCount byTime).
      split; [done|]. apply retainTarget_pos in Hr as (i & Hi & Hr); [|done].
      exists i. do 2 (split; [done|]). intros b o Hb Hbk Ho.
      assert (byCount ∈ hBackups h) as Hcb by (by apply newestFirst_in, (list_elem_of_lookup_2 _ i)).
      apply (deleted_less (older byCount byTime) deleted); [|done|done| |done].
      { unfold older. by case_bool. }
      apply older_not_less; [done..|]. destruct Hbk as [Hbk|Hbk]; [left; by eapply prefix_not_less|right; auto].
    + intros Hd%deleteBefore_Some%DeleteBeforeTarget_ok; [|done..]. by exists byTime.
  - destruct (retainTarget modifier n (newestFirst h)) as [byCount|] eqn:Hr; [|done].
    intros Hd%deleteBefore_Some%DeleteBeforeTarget_ok; [|done..]. exists byCount. split; [done|].
    apply retainTarget_pos in Hr as (i & Hi & Hr); [|done]. exists i. do 2 (split; [done|]).
    intros b o Hb [Hbk|Hbk] Ho.
    + apply (deleted_less byCount deleted); [by apply newestFirst_in, (list_elem_of_lookup_2 _ i)|done|done| |done].
      by eapply prefix_not_less.
    + apply (find_none _ _) with (x := b) in Hf; [congruence|].
      apply list_elem_of_In. by rewrite Slice_elem, newestFirst_in.
Qed.
End Keep.

(** ** [delete target] *)

Section Dependants.
Context {sorter : SortSlice} {Folder UserData : Type} `{!BackupFolder Folder} `{!DeletingFolder Folder}
  `{!EqDecision UserData}.
Variable h : DeleteHandler Folder.

(** [other] is an increment made from [b]. *)
Definition incremented (b other : BackupObject) : Prop :=
  other ∈ hBackups h /\ IsFullBackup other = false /\ GetIncrementFromName other = GetBackupName b.

Definition dependant : BackupObject -> BackupObject -> Prop := rtc incremented.

Lemma incrementsByBackup_elem b other :
  other ∈ incrementsByBackup (hBackups h) (GetBackupName b) <-> incremented b other.
Proof.
  unfold incrementsByBackup, incremented. rewrite elem_of_filter_b, andb_true_iff, negb_true_iff, bool_decide_eq_true.
  tauto.
Qed.

Section Forest.
Hypothesis names_distinct : NoDup (GetBackupName <$> hBackups h).
Variable target : BackupObject.
Hypothesis target_in : target ∈ hBackups h.

Lemma backup_names_inj b b' : b ∈ hBackups h -> b' ∈ hBackups h -> GetBackupName b = GetBackupName b' -> b = b'.
Proof.
  intros [i Hi]%list_elem_of_lookup [j Hj]%list_elem_of_lookup E.
  assert (i = j) as <-; [|congruence].
  eapply (NoDup_lookup _ i j); [exact names_distinct| |]; rewrite list_lookup_fmap, ?Hi, ?Hj; cbn; by f_equal.
Qed.

Lemma dependant_in b : dependant target b -> b ∈ hBackups h.
Proof.
  intros Hd. apply rtc_inv_r in Hd as [<- | (x & _ & Hb & _)]; done.
Qed.

(** The state of the queue: what was taken and what waits are distinct
    dependants, the increments of what was taken are there, and each is there
    for the target or for a backup that was taken. *)
Record queue_ok (queue taken : list BackupObject) : Prop := {
  q_nodup : NoDup (taken ++ queue);
  q_sound : forall b, b ∈ taken ++ queue -> dependant target b;
  q_closed : forall b other, b ∈ taken -> incremented b other -> other ∈ taken ++ queue;
  q_origin : forall b, b ∈ taken ++ queue -> b = target \/ exists p, p ∈ taken /\ incremented p b;
  q_target : target ∈ taken ++ queue
}.

Lemma queue_ok_bound queue taken : queue_ok queue taken -> (length taken + length queue <= length (hBackups h))%nat.
Proof.
  intros Hq. rewrite <- length_app. apply submseteq_length, NoDup_submseteq; [apply (q_nodup _ _ Hq)|].
  intros b Hb. by apply dependant_in, (q_sound _ _ Hq).
Qed.

(** An increment of the backup that is taken is new, or the target. *)
Lemma queue_ok_new curr queue taken other :
  queue_ok (curr :: queue) taken -> incremented curr other -> other ∈ taken ++ curr :: queue -> other = target.
Proof.
  intros Hq Hi Hin. destruct (q_origin _ _ Hq _ Hin) as [-> | (p & Hp & Hip)]; [done|].
  assert (p = curr) as ->.
  { apply backup_names_inj; [apply dependant_in, (q_sound _ _ Hq); set_solver|apply dependant_in, (q_sound _ _ Hq); set_solver|].
    destruct Hi as (_ & _ & <-), Hip as (_ & _ & <-). done. }
  pose proof (q_nodup _ _ Hq) as Hnd. apply NoDup_app in Hnd as (_ & Hdis & _). destruct (Hdis curr); set_solver.
Qed.

Lemma queue_ok_step curr queue taken :
  queue_ok (curr :: queue) taken -> ~ incremented curr target ->
  queue_ok (queue ++ incrementsByBackup (hBackups h) (GetBackupName curr)) (taken ++ [curr]).
Proof.
  intros Hq Hacyc. assert (dependant target curr) as Hc by (apply (q_sound _ _ Hq); set_solver).
  assert ((taken ++ [curr]) ++ queue ++ incrementsByBackup (hBackups h) (GetBackupName curr) =
    (taken ++ curr :: queue) ++ incrementsByBackup (hBackups h) (GetBackupName curr)) as E
    by (by rewrite <- !app_assoc).
  split; rewrite ?E.
  - apply NoDup_app. split; [apply (q_nodup _ _ Hq)|]. split.
    + intros b Hb Hi. apply incrementsByBackup_elem in Hi.
      pose proof (queue_ok_new _ _ _ _ Hq Hi Hb) as ->. done.
    + apply NoDup_filter_b. by apply (NoDup_fmap_1 GetBackupName).
  - intros b [Hb|Hb%incrementsByBackup_elem]%elem_of_app; [by apply (q_sound _ _ Hq)|].
    by eapply rtc_r.
  - intros b other [Hb|Hb%list_elem_of_singleton]%elem_of_app Hi; apply elem_of_app.
    + left. by apply (q_closed _ _ Hq b).
    + right. subst b. by apply incrementsByBackup_elem.
  - intros b [Hb|Hb%incrementsByBackup_elem]%elem_of_app.
    + destruct (q_origin _ _ Hq b Hb) as [-> | (p & Hp & Hi)]; [by left|right]. exists p. set_solver.
    + right. exists curr. set_solver.
  - apply elem_of_app. left. apply (q_target _ _ Hq).
Qed.

Lemma incremented_target_dec curr : {incremented curr target} + {~ incremented curr target}.
Proof.
  destruct (IsFullBackup target) eqn:Ef; [right; intros (_ & Hf & _); congruence|].
  destruct (decide (GetIncrementFromName target = GetBackupName curr)); [by left|right; by intros (_ & _ & E)].
Qed.

(** The queue is worked off, or comes back to the target. *)
Lemma dependantLoop_ok fuel : forall queue taken,
  queue_ok queue taken -> (length (hBackups h) <= fuel + length taken)%nat ->
  (exists L, dependantLoop fuel (incrementsByBackup (hBackups h)) queue taken = Some L /\ queue_ok [] L) \/
  tc incremented target target.
Proof.
  induction fuel as [|fuel IH]; intros [|curr queue] taken Hq Hf; try (left; by exists taken).
  - pose proof (queue_ok_bound _ _ Hq). cbn in *. lia.
  - cbn [dependantLoop]. destruct (incremented_target_dec curr) as [Hi|Hi].
    + right. assert (dependant target curr) as Hc by (apply (q_sound _ _ Hq); set_solver).
      apply rtc_tc in Hc as [<-|Ht]; [by apply tc_once|by eapply tc_r].
    + apply IH; [by apply queue_ok_step|]. rewrite length_app. cbn. lia.
Qed.

(** A backup that leads back to the target is followed by another one. *)
Lemma dependantLoop_cycle fuel : forall queue taken q, q ∈ queue -> tc incremented q target -> tc incremented target target ->
  dependantLoop fuel (incrementsByBackup (hBackups h)) queue taken = None.
Proof.
  induction fuel as [|fuel IH]; intros [|curr queue] taken q Hq Ht Hcycle; try by apply elem_of_nil in Hq. { done. }
  cbn [dependantLoop]. apply elem_of_cons in Hq as [->|Hq].
  - assert (exists next, incremented curr next /\ tc incremented next target) as (next & Hi & Hn) by (destruct Ht; by eexists).
    apply IH with next; [|done|done]. apply elem_of_app. right. by apply incrementsByBackup_elem.
  - apply IH with q; [|done|done]. apply elem_of_app. by left.
Qed.

Lemma queue_ok_init : queue_ok [target] [].
Proof.
  split; cbn.
  - apply NoDup_singleton.
  - intros b ->%list_elem_of_singleton. apply rtc_refl.
  - intros b other Hb. by apply elem_of_nil in Hb.
  - intros b ->%list_elem_of_singleton. by left.
  - by apply list_elem_of_singleton.
Qed.

Lemma queue_ok_done L : queue_ok [] L -> NoDup L /\ forall b, b ∈ L <-> dependant target b.
Proof.
  intros [Hnd Hs Hc _ Ht]. rewrite app_nil_r in *. split; [done|]. intros b. split; [apply Hs|].
  revert b. apply (rtc_ind_r (fun b => b ∈ L)); [done|]. intros x y Hx Hxy IH.
  specialize (Hc x y IH Hxy). done.
Qed.

Lemma findDependantBackups_ok fuel : (length (hBackups h) <= fuel)%nat ->
  match findDependantBackups fuel h target with
  | Some L => ~ tc incremented target target /\ NoDup L /\ forall b, b ∈ L <-> dependant target b
  | None => tc incremented target target /\ forall fuel', findDependantBackups fuel' h target = None
  end.
Proof.
  intros Hf. assert (tc incremented target target -> forall fuel', findDependantBackups fuel' h target = None) as Hcycle.
  { intros Ht fuel'. by apply dependantLoop_cycle with target; [apply list_elem_of_singleton| |]. }
  destruct (findDependantBackups fuel h target) as [L|] eqn:E.
  - assert (~ tc incremented target target) as Ht by (intros Ht; by rewrite (Hcycle Ht) in E). split; [done|].
    destruct (dependantLoop_ok fuel _ _ queue_ok_init) as [(L' & HL & Hq)|]; [cbn; lia| |done].
    unfold findDependantBackups in E. rewrite E in HL. injection HL as ->. by apply queue_ok_done.
  - destruct (dependantLoop_ok fuel _ _ queue_ok_init) as [(L' & HL & _)|Ht]; [cbn; lia| |by auto].
    unfold findDependantBackups in E. congruence.
Qed.
End Forest.

(** C31: among backups with distinct names, the traversal of the increments of
    a target either ends, after at most as many rounds as there are backups,
    with each backup made from the target, directly or not, once; or never
    ends, and this exactly when the target is made, through some chain of
    increments, from itself: the loop keeps no record of what it has seen. *)
Theorem findDependantBackups_spec target fuel :
  NoDup (GetBackupName <$> hBackups h) -> target ∈ hBackups h -> (length (hBackups h) <= fuel)%nat ->
  match findDependantBackups fuel h target with
  | Some L => ~ tc incremented target target /\ NoDup L /\ forall b, b ∈ L <-> dependant target b
  | None => tc incremented target target /\ forall fuel', findDependantBackups fuel' h target = None
  end.
Proof. intros Hnd Ht. by apply findDependantBackups_ok. Qed.

Lemma namesToDelete_ok targets names : namesToDelete h targets = Ok names ->
  (forall name, name ∈ names <-> exists b, b ∈ targets /\ GetBackupName b = name) /\
  forall b, b ∈ targets -> isPermanent h (boObject b) = Ok false.
Proof.
  revert names. induction targets as [|b targets IH]; cbn; intros names.
  { intros [= <-]. split; [set_solver|]. intros b Hb. by apply elem_of_nil in Hb. }
  destruct (isPermanent h (boObject b)) as [[]|] eqn:Hp; try done. cbn.
  destruct (namesToDelete h targets) as [ns|]; [|done]. cbn. intros [= <-].
  destruct (IH ns eq_refl) as [Hn Hperm]. split; [|set_solver]. intros name.
  rewrite elem_of_union, elem_of_singleton, Hn. set_solver.
Qed.

Lemma DeleteTargets_ok targets deleted : DeleteTargets h targets true = Ok deleted ->
  (forall b, b ∈ targets -> isPermanent h (boObject b) = Ok false) /\
  forall o, o ∈ deleted <-> o ∈ allObjects (GetSubFolder (hFolder h) BaseBackupPath) /\
    (exists b, b ∈ targets /\ GetBackupName b = StripLeftmostBackupName (GetName o)) /\
    isPermanent h o = Ok false.
Proof.
  unfold DeleteTargets. destruct (namesToDelete h targets) as [names|] eqn:Hn; [|done]. cbn. intros Hd.
  apply namesToDelete_ok in Hn as [Hn Hperm]. split; [done|]. intros o.
  rewrite (DeleteObjectsWhere_ok _ _ _ _ Hd), <- Hn.
  destruct (bool_decide_reflect (StripLeftmostBackupName (GetName o) ∈ names)); [|naive_solver].
  destruct (isPermanent h o) as [[]|]; cbn; naive_solver.
Qed.

(** [delete target], confirmed: the deleted objects are those stored under
    the names of the target and of the backups made from it, or with [FIND_FULL]
    of all the backups of its full one, those the permanence test holds of
    excepted; and this test holds of none of these backups. *)
Theorem HandleDeleteTarget_spec Fetch selector (findFull : bool) deleted :
  HandleDeleteTarget (UserData := UserData) (length (hBackups h)) Fetch h selector true findFull = Some (Deleted deleted) ->
  NoDup (GetBackupName <$> hBackups h) ->
  exists target, target ∈ hBackups h /\ Select Fetch selector (hFolder h) = Ok (GetBackupName target) /\
    let doomed b := if findFull then b ∈ hBackups h /\ related target b = true else dependant target b in
    (forall b, doomed b -> isPermanent h (boObject b) = Ok false) /\
    forall o, o ∈ deleted <-> o ∈ allObjects (GetSubFolder (hFolder h) BaseBackupPath) /\
      (exists b, doomed b /\ GetBackupName b = StripLeftmostBackupName (GetName o)) /\
      isPermanent h o = Ok false.
Proof.
  unfold HandleDeleteTarget. destruct (Select Fetch selector (hFolder h)) as [name|] eqn:Hsel; [|done].
  destruct (List.find _ _) as [target|] eqn:Hfind; [|done]. intros Hh Hnd.
  apply find_some in Hfind as [Hin Hname]. apply list_elem_of_In in Hin. apply bool_decide_eq_true in Hname.
  exists target. split; [done|]. split; [by rewrite Hname|].
  assert (exists L, (forall b, b ∈ L <-> if findFull then b ∈ hBackups h /\ related target b = true else dependant target b)
    /\ DeleteTargets h L true = Ok deleted) as (L & HL & Hd).
  { destruct findFull; cbn in Hh.
    - exists (findRelatedBackups h target). split; [intros b; unfold findRelatedBackups; rewrite elem_of_filter_b; tauto|].
      injection Hh as Hh. by destruct (DeleteTargets h _ true); cbn in Hh; [injection Hh as ->|].
    - pose proof (findDependantBackups_ok Hnd target Hin _ (le_n _)) as Hel.
      destruct (findDependantBackups _ h target) as [L|] in Hh, Hel; [|done]. destruct Hel as (_ & _ & Hel). cbn in Hh. injection Hh as Hh. exists L. split; [done|].
      by destruct (DeleteTargets h _ true); cbn in Hh; [injection Hh as ->|]. }
  apply DeleteTargets_ok in Hd as [Hperm Hd]. cbn zeta. setoid_rewrite HL in Hd.
  split; [|done]. intros b Hb. by apply Hperm, HL.
Qed.
End Dependants.

(** ** Examples *)

Module DeleteMem.
#[global] Instance memDeleting : DeletingFolder Mem.Folder := listedDeletion Mem.below.

Definition sentinel (name : string) (t : Z) : Object := Mem.obj (SentinelNameFromBackup name) t.
Definition full (name : string) (t : Z) : BackupObject := NewDefaultBackupObject (sentinel name t).
Definition delta (name base : string) (t : Z) : BackupObject :=
  mkBackupObject (sentinel name t) t name false base base.

Definition base2 := "base_000000010000000000000002".
Definition base4 := "base_000000010000000000000004_D_000000010000000000000002".
Definition base6 := "base_000000010000000000000006".

(** The handler of [Mem.storage], by the time of modification. *)
Definition handler : DeleteHandler Mem.Folder :=
  NewDeleteHandler Mem.storage [full base2 20; delta base4 base2 40; full base6 60]
    (fun a b => GetLastModified a <? GetLastModified b) None.

Definition circle : DeleteHandler Mem.Folder :=
  NewDeleteHandler Mem.storage [delta base2 base4 20; delta base4 base2 40] (fun a b => GetLastModified a <? GetLastModified b) None.

(** Times are decimal here. *)
Definition parseTime (s : string) : option Z :=
  if HasPrefix s "t" then match Atoi (sdrop 1 s) with Ok t => Some t | Err _ => None end else None.

Lemma handler_order : StrictWeakOn (fun _ => True) (less handler).
Proof. apply StrictWeak_on, (StrictWeak_key GetLastModified). Qed.
End DeleteMem.
Import DeleteMem.

Lemma HandleDeleteRetain_keeps_witness :
  @HandleDeleteRetain InsertionSort Mem.Folder _ handler ["1"] true =
    Deleted [Mem.obj "basebackups_005/base_000000010000000000000002_backup_stop_sentinel.json" 20;
             Mem.obj "basebackups_005/base_000000010000000000000002/metadata.json" 21;
             Mem.obj "basebackups_005/base_000000010000000000000002/tar_partitions/part_1.tar.lz4" 22;
             Mem.obj "basebackups_005/base_000000010000000000000004_D_000000010000000000000002_backup_stop_sentinel.json" 40;
             Mem.obj "wal_005/000000010000000000000001.lz4" 10;
             Mem.obj "wal_005/000000010000000000000002.lz4" 20;
             Mem.obj "wal_005/000000010000000000000003.lz4" 30] /\
  exists i target, @newestFirst InsertionSort Mem.Folder handler !! i = Some target.
Proof.
  assert (exists deleted, @HandleDeleteRetain InsertionSort Mem.Folder _ handler ["1"] true = Deleted deleted)
    as [deleted Hd] by (eexists; by vm_compute).
  split; [by vm_compute|].
  destruct (@HandleDeleteRetain_keeps InsertionSort Mem.Folder _ handler (fun _ => True) handler_order
    (fun _ _ => I) (fun _ _ _ _ => I) ["1"] NoDeleteModifier "1" 1 deleted eq_refl eq_refl eq_refl Hd)
    as (i & target & Hi & _).
  by exists i, target.
Defined.

Lemma HandleDeleteBefore_keeps_witness :
  (exists deleted, @HandleDeleteBefore InsertionSort Mem.Folder _ parseTime handler ["FIND_FULL"; base4] true = Deleted deleted) /\
  exists named target, boName named = SentinelNameFromBackup base4 /\ before_target handler FindFullDeleteModifier named target.
Proof.
  assert (exists deleted, @HandleDeleteBefore InsertionSort Mem.Folder _ parseTime handler ["FIND_FULL"; base4] true =
    Deleted deleted) as [deleted Hd] by (eexists; by vm_compute).
  split; [by eexists|].
  destruct (@HandleDeleteBefore_keeps InsertionSort Mem.Folder _ parseTime handler (fun _ => True) handler_order
    (fun _ _ => I) (fun _ _ _ _ => I) 100 ["FIND_FULL"; base4] FindFullDeleteModifier base4 deleted
    eq_refl eq_refl Hd) as (name & named & target & Hname & Hin & Hpre & _ & Ht & _).
  exists named, target. split; [|done]. cbn in Hname. subst name.
  revert Hin Hpre. unfold handler. cbn [hBackups NewDeleteHandler].
  rewrite !elem_of_cons, elem_of_nil. intros [-> | [-> | [-> | []]]]; [done|done|done].
Defined.

Lemma HandleDeleteRetainAfter_time_witness :
  @HandleDeleteRetainAfter InsertionSort Mem.Folder _ parseTime handler ["5"; "t55"] true =
    @HandleDeleteRetain InsertionSort Mem.Folder _ handler ["1"] true /\
  @retainTarget NoDeleteModifier 5 (@newestFirst InsertionSort Mem.Folder handler) = None /\
  exists target deleted, deleted_before handler target deleted.
Proof.
  split; [by vm_compute|]. split; [by vm_compute|].
  assert (exists deleted, @HandleDeleteRetainAfter InsertionSort Mem.Folder _ parseTime handler ["5"; "t55"] true =
    Deleted deleted) as [deleted Hd] by (eexists; by vm_compute).
  destruct (@HandleDeleteRetainAfter_time InsertionSort Mem.Folder _ parseTime handler (fun _ => True) handler_order
    (fun _ _ => I) (fun _ _ _ _ => I) 100 ["5"; "t55"] NoDeleteModifier "5" "t55" 5 55 deleted
    eq_refl eq_refl eq_refl eq_refl Hd) as (target & Ht & _).
  by exists target, deleted.
Defined.

(** A base and its increment, and two increments of each other. *)
Lemma findDependantBackups_spec_witness :
  (findDependantBackups 3 handler (full base2 20) = Some [full base2 20; delta base4 base2 40] /\
   dependant handler (full base2 20) (delta base4 base2 40)) /\
  forall fuel, findDependantBackups fuel circle (delta base2 base4 20) = None.
Proof.
  split; [split; [by vm_compute|]|].
  - assert (findDependantBackups 3 handler (full base2 20) = Some [full base2 20; delta base4 base2 40]) as E by (by vm_compute).
    pose proof (findDependantBackups_spec handler (full base2 20) 3) as Hs. rewrite E in Hs.
    destruct Hs as (_ & _ & Hel); [apply (bool_decide_unpack _); by vm_compute|apply elem_of_cons; by left|cbn; lia|].
    apply Hel, elem_of_cons. right. apply elem_of_cons. by left.
  - assert (findDependantBackups 2 circle (delta base2 base4 20) = None) as E by (by vm_compute).
    pose proof (findDependantBackups_spec circle (delta base2 base4 20) 2) as Hs. rewrite E in Hs.
    destruct Hs as [_ Hn]; [apply (bool_decide_unpack _); by vm_compute|apply elem_of_cons; by left|cbn; lia|exact Hn].
Defined.

Lemma HandleDeleteTarget_spec_witness :
  (exists deleted, @HandleDeleteTarget InsertionSort Mem.Folder unit _ _ _ 3 (fun _ _ => Err Panic) handler
    (BackupNameSelector base2) true false = Some (Deleted deleted)) /\
  exists target, target ∈ hBackups handler /\ GetBackupName target = base2.
Proof.
  assert (exists deleted, @HandleDeleteTarget InsertionSort Mem.Folder unit _ _ _ 3 (fun _ _ => Err Panic) handler
    (BackupNameSelector base2) true false = Some (Deleted deleted)) as [deleted Hd] by (eexists; by vm_compute).
  split; [by eexists|].
  destruct (@HandleDeleteTarget_spec InsertionSort Mem.Folder unit _ _ _ handler _ _ false deleted Hd
    ltac:(apply (bool_decide_unpack _); by vm_compute)) as (target & Hin & Hs & _).
  exists target. split; [done|]. assert (@Select InsertionSort Mem.Folder _ unit _ (fun _ _ => Err Panic)
    (BackupNameSelector base2) (hFolder handler) = Ok base2) as E by (by vm_compute).
  rewrite E in Hs. by injection Hs as <-.
Defined.
