(* ===== verification/DeletePg.v ===== *)
(** * Deleting PostgreSQL backups

    [src/internal/databases/postgres/delete_util.go], [FetchPgBackupName] of
    [backup.go], [GetBackupDetails] of [backup_util.go] and the commands of
    [src/cmd/pg/delete.go]: the permanent backups and their WAL files, the two
    comparisons, the backup objects with their increments, and the handlers. *)

From S2P Require Import Prelude GoStrings GoPath GoSort Timeline Backups BackupMeta Delete.
Open Scope Z_scope.

(** ** Names *)

(** The pattern [base_[0-9A-F]{24}(_D_[0-9A-F]{24})?] at the start of a text. *)
Definition hex24 (s : string) : bool := (24 <=? slen s)%nat && allIn isUpperHex (stake 24 s).

Definition matchPgBackupName (s : string) : option string :=
  if HasPrefix s "base_" && hex24 (sdrop 5 s) then
    let rest := sdrop 29 s in
    if HasPrefix rest "_D_" && hex24 (sdrop 3 rest) then Some (stake 56 s) else Some (stake 29 s)
  else None.

(** [FindString]: the leftmost match, or nothing. *)
Fixpoint FetchPgBackupName (name : string) : string :=
  match matchPgBackupName name with
  | Some m => m
  | None => match name with "" => "" | String _ name => FetchPgBackupName name end
  end.

(** ** Comparisons *)

Section Less.
Context {cfg : WalConfig}.

Definition postgresSegmentNoLess (object1 object2 : Object) : bool :=
  match TryFetchTimelineAndLogSegNo (GetName object1) with
  | None => false
  | Some (_, segmentNumber1) =>
      match TryFetchTimelineAndLogSegNo (GetName object2) with
      | None => false
      | Some (_, segmentNumber2) => segmentNumber1 <? segmentNumber2
      end
  end.

Definition postgresTimelineAndSegmentNoLess (object1 object2 : Object) : bool :=
  match TryFetchTimelineAndLogSegNo (GetName object1) with
  | None => false
  | Some (tl1, segNo1) =>
      match TryFetchTimelineAndLogSegNo (GetName object2) with
      | None => false
      | Some (tl2, segNo2) => (tl1 <? tl2) || (tl1 =? tl2) && (segNo1 <? segNo2)
      end
  end.

Definition makeLessFunc (startTimeByBackupName : gmap string Z) (object1 object2 : Object) : bool :=
  let backupName1 := FetchPgBackupName (GetName object1) in
  if bool_decide (backupName1 = "") then postgresSegmentNoLess object1 object2
  else
    let backupName2 := FetchPgBackupName (GetName object2) in
    if bool_decide (backupName2 = "") then postgresSegmentNoLess object1 object2
    else match startTimeByBackupName !! backupName1, startTimeByBackupName !! backupName2 with
         | Some startTime1, Some startTime2 => startTime1 <? startTime2
         | _, _ => false
         end.
End Less.

(** ** Permanent backups *)

(** Slices of a name that is too short panic. *)
Definition IsPermanent (objectName : string) (permanentBackups permanentWals : gset string) : res pgError bool :=
  match slice objectName 0 (slen WalPath) with
  | None => Err Panic
  | Some head =>
      if bool_decide (head = WalPath) then
        match slice objectName (slen WalPath) (slen WalPath + 24) with
        | None => Err Panic
        | Some wal => Ok (bool_decide (wal ∈ permanentWals))
        end
      else match slice objectName 0 (slen BaseBackupPath) with
           | None => Err Panic
           | Some head =>
               if bool_decide (head = BaseBackupPath) then
                 let backup := StripLeftmostBackupName (sdrop (slen BaseBackupPath) objectName) in
                 Ok (bool_decide (backup ∈ permanentBackups))
               else Ok false
           end
  end.

Definition makePostgresPermanentFunc (permanentBackups permanentWals : gset string) (object : Object)
  : res pgError bool := IsPermanent (GetName object) permanentBackups permanentWals.

(** The loop over segment numbers; its fuel is the number of rounds. *)
Fixpoint permanentWalLoop {cfg : WalConfig} (rounds : nat) (timelineID walSegmentNo endWalSegmentNo : Z)
    (permanentWals : gset string) : gset string :=
  match rounds with
  | O => permanentWals
  | S rounds =>
      if walSegmentNo <=? endWalSegmentNo then
        permanentWalLoop rounds timelineID (WalSegmentNo.next walSegmentNo) endWalSegmentNo
          ({[ WalSegmentNo.getFilename walSegmentNo timelineID ]} ∪ permanentWals)
      else permanentWals
  end.

Definition walsBetween {cfg : WalConfig} (timelineID startWalSegmentNo endWalSegmentNo : Z) (wals : gset string)
  : gset string :=
  permanentWalLoop (Z.to_nat (endWalSegmentNo - startWalSegmentNo + 1)) timelineID startWalSegmentNo
    endWalSegmentNo wals.

Section Handler.
Context {cfg : WalConfig} {sorter : SortSlice} {Content UserData Folder : Type}.
Context `{!BackupFolder Folder} `{!DeletingFolder Folder} `{!ObjectStore Folder}.
Context `{!Json (BackupSentinelDto Content UserData)} `{!Json (ExtendedMetadataDto UserData)} `{!EqDecision UserData}.
Implicit Types folder : Folder.

(** Backups whose metadata or name cannot be read are passed over. *)
Fixpoint permanentLoop folder (backupTimes : list BackupTime) (permanentBackups permanentWals : gset string)
  : gset string * gset string :=
  match backupTimes with
  | [] => (permanentBackups, permanentWals)
  | backupTime :: backupTimes =>
      match FetchMeta (UserData := UserData) folder (bName backupTime) with
      | Err _ => permanentLoop folder backupTimes permanentBackups permanentWals
      | Ok meta =>
          if emIsPermanent meta then
            match ParseTimelineFromBackupName (bName backupTime) with
            | Err _ => permanentLoop folder backupTimes permanentBackups permanentWals
            | Ok timelineID =>
                let startWalSegmentNo := WalSegmentNo.newWalSegmentNo (u64 (StartLsn meta - 1)) in
                let endWalSegmentNo := WalSegmentNo.newWalSegmentNo (u64 (FinishLsn meta - 1)) in
                permanentLoop folder backupTimes ({[ bName backupTime ]} ∪ permanentBackups)
                  (walsBetween timelineID startWalSegmentNo endWalSegmentNo permanentWals)
            end
          else permanentLoop folder backupTimes permanentBackups permanentWals
      end
  end.

Definition GetPermanentBackupsAndWals folder : gset string * gset string :=
  let baseBackupFolder := GetSubFolder folder BaseBackupPath in
  match GetBackups baseBackupFolder with
  | Err _ => (∅, ∅)
  | Ok backupTimes => permanentLoop baseBackupFolder backupTimes ∅ ∅
  end.

(** ** Backup objects *)

(** The base, the predecessor, and whether the backup is full. *)
Definition postgresGetIncrementInfo folder (object : Object) : res pgError (string * string * bool) :=
  sentinel ← FetchSentinel (Content := Content) (UserData := UserData)
    (GetSubFolder folder BaseBackupPath) (FetchPgBackupName (GetName object));
  incremental ← IsIncremental sentinel;
  if negb incremental then Ok ("", "", true)
  else match seIncrementFullName sentinel, seIncrementFrom sentinel with
       | Some full, Some from => Ok (full, from, false)
       | _, _ => Err Panic
       end.

Definition newPostgresBackupObject (incrementBase incrementFrom : string) (isFullBackup : bool) (creationTime : Z)
    (object : Object) : BackupObject :=
  mkBackupObject object creationTime (FetchPgBackupName (GetName object)) isFullBackup incrementBase incrementFrom.

(** The zero [time.Time], which a missing start time is read as. *)
Definition zeroTime : Z := -62135596800 * 10 ^ 9.

Fixpoint makePostgresBackupObjects folder (objects : list Object) (startTimeByBackupName : option (gmap string Z))
  : res pgError (list BackupObject) :=
  match objects with
  | [] => Ok []
  | object :: objects =>
      '(incrementBase, incrementFrom, isFullBackup) ← postgresGetIncrementInfo folder object;
      let creationTime :=
        match startTimeByBackupName with
        | Some times => default zeroTime (times !! FetchPgBackupName (GetName object))
        | None => GetLastModified object
        end in
      backupObjects ← makePostgresBackupObjects folder objects startTimeByBackupName;
      Ok (newPostgresBackupObject incrementBase incrementFrom isFullBackup creationTime object :: backupObjects)
  end.

(** [GetBackupDetails]: the name and the start time are what is used here. *)
Definition GetBackupDetails folder (backupTime : BackupTime) : res pgError (BackupTime * ExtendedMetadataDto UserData) :=
  metaData ← FetchMeta folder (bName backupTime);
  Ok (backupTime, metaData).

Fixpoint startTimeLoop folder (backupTimes : list BackupTime) (startTimeByBackupName : gmap string Z)
  : res pgError (gmap string Z) :=
  match backupTimes with
  | [] => Ok startTimeByBackupName
  | backupTime :: backupTimes =>
      backupDetails ← res_map_err (Wrapped "Failed to get metadata of backup")
        (GetBackupDetails (GetSubFolder folder BaseBackupPath) backupTime);
      startTimeLoop folder backupTimes
        (<[bName (fst backupDetails) := StartTime (snd backupDetails)]> startTimeByBackupName)
  end.

Definition getBackupStartTimeMap folder (backups : list Object) : res pgError (gmap string Z) :=
  startTimeLoop folder (GetBackupTimeSlices backups) ∅.

(** Without the start times the comparison by names is used. *)
Definition newPostgresDeleteHandler (useSentinelTime : bool) folder (permanentBackups permanentWals : gset string)
  : res pgError (DeleteHandler Folder) :=
  backups ← GetBackupSentinelObjects folder;
  let startTimeByBackupName :=
    if useSentinelTime then
      match getBackupStartTimeMap folder backups with Ok times => Some times | Err _ => None end
    else None in
  let lessFunc :=
    match startTimeByBackupName with
    | Some times => makeLessFunc times
    | None => postgresTimelineAndSegmentNoLess
    end in
  postgresBackups ← makePostgresBackupObjects folder backups startTimeByBackupName;
  Ok (NewDeleteHandler folder postgresBackups lessFunc
        (Some (makePostgresPermanentFunc permanentBackups permanentWals))).

(** ** Commands *)

Section Commands.
Variable ParseRFC3339 : string -> option Z.
Variable UnmarshalSentinelUserData : string -> UserData.
(** The flags [--use-sentinel-time] and [--confirm]. *)
Variables useSentinelTime confirmed : bool.

(** The handler over the folder with its permanent objects. *)
Definition configuredHandler folder : res pgError (DeleteHandler Folder) :=
  let '(permanentBackups, permanentWals) := GetPermanentBackupsAndWals folder in
  newPostgresDeleteHandler useSentinelTime folder permanentBackups permanentWals.

Definition runDeleteBefore folder (args : list string) : outcome :=
  match configuredHandler folder with
  | Err err => Fatal err
  | Ok deleteHandler => HandleDeleteBefore ParseRFC3339 deleteHandler args confirmed
  end.

Definition runDeleteRetain folder (args : list string) : outcome :=
  match configuredHandler folder with
  | Err err => Fatal err
  | Ok deleteHandler => HandleDeleteRetain deleteHandler args confirmed
  end.

Definition runDeleteEverything folder (args : list string) : outcome :=
  match configuredHandler folder with
  | Err err => Fatal err
  | Ok deleteHandler => HandleDeleteEverything deleteHandler args (fst (GetPermanentBackupsAndWals folder)) confirmed
  end.

Definition createTargetDeleteBackupSelector (args : list string) (targetUserData : string)
  : res pgError BackupSelector :=
  NewTargetBackupSelector UnmarshalSentinelUserData targetUserData (default "" (head args)).

(** The queue of the increments gets the number of backups as fuel. *)
Definition runDeleteTarget folder (args : list string) (deleteTargetUserData : string) : option outcome :=
  let findFullBackup := ExtractDeleteTargetModifierFromArgs args =? FindFullDeleteModifier in
  let args := if findFullBackup then tail args else args in
  match configuredHandler folder with
  | Err err => Some (Fatal err)
  | Ok deleteHandler =>
      match createTargetDeleteBackupSelector args deleteTargetUserData with
      | Err err => Some (Fatal err)
      | Ok targetBackupSelector =>
          HandleDeleteTarget (length (hBackups deleteHandler))
            (fun name folder => Fetch (Content := Content) name folder)
            deleteHandler targetBackupSelector confirmed findFullBackup
      end
  end.
End Commands.
End Handler.

(** ** Lemmas: the order of names *)

(** The object names a segment. *)
Definition named_segment {cfg : WalConfig} (o : Object) : Prop :=
  is_Some (TryFetchTimelineAndLogSegNo (GetName o)).

Definition before_segment (a b : Z * Z) : Prop := fst a < fst b \/ fst a = fst b /\ snd a < snd b.

Lemma postgresLess_spec {cfg : WalConfig} a b :
  postgresTimelineAndSegmentNoLess a b = true <->
  exists x y, TryFetchTimelineAndLogSegNo (GetName a) = Some x /\ TryFetchTimelineAndLogSegNo (GetName b) = Some y /\
    before_segment x y.
Proof.
  unfold postgresTimelineAndSegmentNoLess, before_segment.
  destruct (TryFetchTimelineAndLogSegNo (GetName a)) as [[t s]|]; [|split; [done|by intros (? & ? & ? & _)]].
  destruct (TryFetchTimelineAndLogSegNo (GetName b)) as [[t' s']|]; [|split; [done|by intros (? & ? & _ & ? & _)]].
  rewrite orb_true_iff, andb_true_iff, !Z.ltb_lt, Z.eqb_eq. split.
  - intros H. by exists (t, s), (t', s').
  - by intros (? & ? & [= <-] & [= <-] & H).
Qed.

Lemma postgresLess_order {cfg : WalConfig} : StrictWeakOn named_segment postgresTimelineAndSegmentNoLess.
Proof.
  split; unfold postgresTimelineAndSegmentNoLess.
  - intros x [[t s] ->]. rewrite Z.ltb_irrefl, Z.eqb_refl. cbn. apply Z.ltb_irrefl.
  - intros x y z [[t s] ->] [[t' s'] ->] [[t'' s''] ->].
    rewrite !orb_true_iff, !andb_true_iff, !Z.ltb_lt, !Z.eqb_eq. lia.
  - intros x y z [[t s] ->] [[t' s'] ->] [[t'' s''] ->].
    rewrite !orb_false_iff, !andb_false_iff, !Z.ltb_ge, !Z.eqb_neq. lia.
Qed.

Lemma postgresLess_named {cfg : WalConfig} a b : postgresTimelineAndSegmentNoLess a b = true -> named_segment a.
Proof. intros (x & y & H & _)%postgresLess_spec. by exists x. Qed.

(** ** Lemmas: the permanence test *)

Lemma slice_prefix a b : slice (a +s b) 0 (slen a) = Some a.
Proof. unfold slice. rewrite slen_app. cbn. rewrite (proj2 (Nat.leb_le _ _)) by lia. by rewrite Nat.sub_0_r, stake_app. Qed.

Lemma slice_second a b c : slice (a +s (b +s c)) (slen a) (slen a + slen b) = Some b.
Proof.
  unfold slice. rewrite !slen_app, !(proj2 (Nat.leb_le _ _)) by lia. cbn.
  rewrite sdrop_app by done. replace (slen a + slen b - slen a)%nat with (slen b) by lia. by rewrite stake_app.
Qed.

Lemma slice_head n s : (n <= slen s)%nat -> slice s 0 n = Some (stake n s).
Proof. intros Hn. unfold slice. cbn [Nat.leb andb]. rewrite (proj2 (Nat.leb_le _ _)) by done. by rewrite Nat.sub_0_r. Qed.

Lemma IsPermanent_backup rest pb pw :
  IsPermanent (BaseBackupPath +s rest) pb pw = Ok (bool_decide (StripLeftmostBackupName rest ∈ pb)).
Proof. reflexivity. Qed.

Lemma IsPermanent_wal wal rest pb pw : slen wal = 24%nat ->
  IsPermanent (WalPath +s (wal +s rest)) pb pw = Ok (bool_decide (wal ∈ pw)).
Proof.
  intros Hw. unfold IsPermanent. rewrite slice_prefix, (bool_decide_eq_true_2 (WalPath = WalPath)) by done.
  replace (slen WalPath + 24)%nat with (slen WalPath + slen wal)%nat by lia. by rewrite slice_second.
Qed.

(** A name relative to the folder of the backups is never permanent. *)
Lemma IsPermanent_relative rest pb pw : (11 <= slen rest)%nat ->
  IsPermanent ("base_" +s rest) pb pw = Ok false.
Proof.
  intros Hl. unfold IsPermanent.
  rewrite (slice_head (slen WalPath)), (slice_head (slen BaseBackupPath)) by (cbn; lia).
  rewrite (bool_decide_eq_false_2 (stake (slen WalPath) _ = _)) by (intros E; vm_compute in E; discriminate).
  by rewrite (bool_decide_eq_false_2 (stake (slen BaseBackupPath) _ = _)) by (intros E; vm_compute in E; discriminate).
Qed.

Lemma allIn_stake class n s : allIn class s = true -> allIn class (stake n s) = true.
Proof. intros H. rewrite <- (stake_sdrop n s), allIn_app in H. by apply andb_true_iff in H as [? _]. Qed.

Lemma stake_app_le a b n : (slen a <= n)%nat -> stake n (a +s b) = a +s stake (n - slen a) b.
Proof.
  revert n. induction a as [|c a IH]; intros n Hn; cbn in *; [by rewrite Nat.sub_0_r|].
  destruct n as [|n]; [lia|]. cbn. f_equal. apply IH. lia.
Qed.

Lemma stake_app_le' a b n : (n <= slen a)%nat -> stake n (a +s b) = stake n a.
Proof.
  revert n. induction a as [|c a IH]; intros [|n] Hn; cbn in *; try done; try lia.
  f_equal. apply IH. lia.
Qed.

(** A text that ends in a slash has no end in hexadecimal digits. *)
Lemma WalPath_no_hex_end a t : allIn isUpperHex t = true -> t <> "" -> a +s t <> WalPath.
Proof.
  intros Ht Hne E. unfold WalPath in E.
  do 8 (destruct a as [|? a]; [cbn [String.append] in E; by subst t|injection E as _ E]).
  destruct a; [by destruct t|done].
Qed.

(** The slices of [IsPermanent] are in range of a name that names a segment. *)
Lemma IsPermanent_in_range {cfg : WalConfig} o pb pw :
  named_segment o -> exists b, IsPermanent (GetName o) pb pw = Ok b.
Proof.
  unfold named_segment, TryFetchTimelineAndLogSegNo. intros [x Hx].
  destruct (findFixed isUpperHex 24 (GetName o)) as [m|] eqn:Hf; [|done].
  apply findFixed_inv in Hf as (Hm & Hhex & a & b & E). rewrite E. clear x Hx E.
  assert (slen (a +s (m +s b)) = slen a + (24 + slen b))%nat as Hl by (by rewrite !slen_app, Hm).
  unfold IsPermanent. rewrite (slice_head (slen WalPath)), (slice_head (slen BaseBackupPath)) by (rewrite Hl; cbn; lia).
  destruct (bool_decide_reflect (stake (slen WalPath) (a +s (m +s b)) = WalPath)) as [Hw|];
    [|destruct (bool_decide (stake (slen BaseBackupPath) _ = _)); by eexists].
  change (slen WalPath) with 8%nat in *. unfold slice. rewrite Hl. change (8 <=? 8 + 24)%nat with true.
  change (8 + 24)%nat with 32%nat. cbn [andb].
  destruct (Nat.leb_spec 32 (slen a + (24 + slen b))) as [|Hlt]; [by eexists|]. exfalso.
  rewrite stake_app_le, stake_app_le' in Hw by lia.
  apply (WalPath_no_hex_end a (stake (8 - slen a) m)); [by apply allIn_stake| |done].
  intros E. apply (f_equal slen) in E. rewrite slen_stake in E. cbn in E. lia.
Qed.

(** ** Lemmas: the permanent backups *)

Lemma permanentWalLoop_spec {cfg : WalConfig} rounds tl fin : forall start wals,
  0 <= start -> fin < 2 ^ 64 - 1 -> rounds = Z.to_nat (fin - start + 1) ->
  wals ⊆ permanentWalLoop rounds tl start fin wals /\
  forall seg, start <= seg <= fin -> WalSegmentNo.getFilename seg tl ∈ permanentWalLoop rounds tl start fin wals.
Proof.
  induction rounds as [|rounds IH]; intros start wals Hs Hf Hr; cbn; [split; [done|lia]|].
  rewrite (proj2 (Z.leb_le start fin)) by lia.
  unfold WalSegmentNo.next, WalSegmentNo.add. rewrite wrap_id by (unfold in_width; lia).
  destruct (IH (start + 1) ({[WalSegmentNo.getFilename start tl]} ∪ wals)) as [Hsub Hin]; [lia..|].
  split; [set_solver|]. intros seg Hseg. destruct (decide (seg = start)) as [-> | Hne]; [set_solver|].
  apply Hin. lia.
Qed.

Lemma permanentWalLoop_mono {cfg : WalConfig} rounds tl fin : forall start wals,
  wals ⊆ permanentWalLoop rounds tl start fin wals.
Proof.
  induction rounds as [|rounds IH]; intros start wals; cbn; [done|]. case_bool; [|done].
  etrans; [|apply IH]. set_solver.
Qed.

Section Permanent.
Context {cfg : WalConfig} {cfg_ok : WalConfigOk cfg} {sorter : SortSlice} {Content UserData Folder : Type}.
Context `{!BackupFolder Folder} `{!DeletingFolder Folder} `{!ObjectStore Folder}.
Context `{!Json (BackupSentinelDto Content UserData)} `{!Json (ExtendedMetadataDto UserData)} `{!EqDecision UserData}.
Implicit Types folder : Folder.

(** A listed backup is permanent, and of this timeline. *)
Definition permanent_backup folder name (meta : ExtendedMetadataDto UserData) (tl : Z) : Prop :=
  (exists backups, GetBackups (GetSubFolder folder BaseBackupPath) = Ok backups /\ name ∈ bName <$> backups) /\
  FetchMeta (GetSubFolder folder BaseBackupPath) name = Ok meta /\ emIsPermanent meta = true /\
  ParseTimelineFromBackupName name = Ok tl.

(** The segments written while the backup was taken. *)
Definition backup_segment (meta : ExtendedMetadataDto UserData) (seg : Z) : Prop :=
  WalSegmentNo.newWalSegmentNo (u64 (StartLsn meta - 1)) <= seg <=
    WalSegmentNo.newWalSegmentNo (u64 (FinishLsn meta - 1)).

Lemma permanentLoop_mono folder backups : forall pb pw,
  pb ⊆ fst (permanentLoop (UserData := UserData) folder backups pb pw) /\
  pw ⊆ snd (permanentLoop (UserData := UserData) folder backups pb pw).
Proof.
  induction backups as [|b backups IH]; intros pb pw; cbn; [done|].
  destruct (FetchMeta folder (bName b)) as [meta|e]; [|apply IH].
  destruct (emIsPermanent meta); [|apply IH].
  destruct (ParseTimelineFromBackupName (bName b)) as [tl|e]; [|apply IH].
  unfold walsBetween.
  match goal with |- context [permanentLoop folder backups ?x ?y] => destruct (IH x y) as [H1 H2] end.
  split; [set_solver|]. etrans; [apply permanentWalLoop_mono|exact H2].
Qed.

Lemma permanentLoop_spec folder (backups : list BackupTime) name meta tl : forall pb pw,
  name ∈ bName <$> backups -> FetchMeta folder name = Ok meta -> emIsPermanent meta = true ->
  ParseTimelineFromBackupName name = Ok tl -> (forall seg, backup_segment meta seg -> seg < 2 ^ 64 - 1) ->
  name ∈ fst (permanentLoop (UserData := UserData) folder backups pb pw) /\
  forall seg, backup_segment meta seg ->
    WalSegmentNo.getFilename seg tl ∈ snd (permanentLoop (UserData := UserData) folder backups pb pw).
Proof.
  induction backups as [|b backups IH]; intros pb pw Hin Hm Hp Ht Hb; [by apply elem_of_nil in Hin|].
  cbn in Hin. apply elem_of_cons in Hin as [-> | Hin].
  - cbn. rewrite Hm, Hp, Ht. unfold walsBetween.
    match goal with |- context [permanentLoop folder backups ?x ?y] =>
      destruct (permanentLoop_mono folder backups x y) as [H1 H2] end.
    split; [set_solver|]. intros seg Hseg. apply H2.
    assert (0 <= WalSegmentNo.newWalSegmentNo (u64 (StartLsn meta - 1))) as H0.
    { apply Z.div_pos; [by apply wrap_range|apply size_pos]. }
    apply permanentWalLoop_spec; [done| |done|exact Hseg]. apply Hb. unfold backup_segment in *. lia.
  - cbn. destruct (FetchMeta folder (bName b)) as [meta'|e]; [|by apply IH].
    destruct (emIsPermanent meta'); [|by apply IH].
    destruct (ParseTimelineFromBackupName (bName b)) as [tl'|e]; [|by apply IH]. by apply IH.
Qed.

Lemma backup_segment_range meta seg : 2 <= WalSegmentSize -> backup_segment meta seg -> seg < 2 ^ 64 - 1.
Proof.
  intros Hsize [_ Hs]. unfold WalSegmentNo.newWalSegmentNo in Hs.
  assert (u64 (FinishLsn meta - 1) / WalSegmentSize <= 2 ^ 63) as Hle; [|lia].
  apply Z.div_le_upper_bound; [lia|]. pose proof (wrap_range 64 (FinishLsn meta - 1)) as Hw.
  unfold in_width in Hw. nia.
Qed.

(** The test protects the objects of permanent backups, and their WAL files. *)
Lemma permanent_protected folder name meta tl :
  2 <= WalSegmentSize -> permanent_backup folder name meta tl ->
  let '(pb, pw) := GetPermanentBackupsAndWals (UserData := UserData) folder in
  (forall rest, StripLeftmostBackupName rest = name -> IsPermanent (BaseBackupPath +s rest) pb pw = Ok true) /\
  (forall seg rest, backup_segment meta seg -> name_ok tl seg = true ->
     IsPermanent (WalPath +s (WalSegmentNo.getFilename seg tl +s rest)) pb pw = Ok true).
Proof.
  intros Hsize ((backups & Hb & Hin) & Hm & Hp & Ht). unfold GetPermanentBackupsAndWals. rewrite Hb.
  destruct (permanentLoop_spec (GetSubFolder folder BaseBackupPath) backups name meta tl ∅ ∅) as [H1 H2]; [done..| |].
  { intros seg. by apply backup_segment_range. }
  destruct (permanentLoop _ backups ∅ ∅) as [pb pw]. cbn in H1, H2. split.
  - intros rest <-. rewrite IsPermanent_backup. f_equal. by apply bool_decide_eq_true.
  - intros seg rest Hseg Hok. rewrite IsPermanent_wal by (by apply formatWALFileName_length).
    f_equal. apply bool_decide_eq_true. auto.
Qed.

(** ** The handler *)

Lemma configuredHandler_ok useSentinelTime folder h :
  configuredHandler (Content := Content) (UserData := UserData) useSentinelTime folder = Ok h ->
  let '(pb, pw) := GetPermanentBackupsAndWals (UserData := UserData) folder in
  hFolder h = folder /\ isPermanent h = makePostgresPermanentFunc pb pw /\
  (useSentinelTime = false -> less h = postgresTimelineAndSegmentNoLess).
Proof.
  unfold configuredHandler, newPostgresDeleteHandler.
  destruct (GetPermanentBackupsAndWals folder) as [pb pw].
  destruct (GetBackupSentinelObjects folder) as [backups|]; [|done]. cbn.
  destruct (makePostgresBackupObjects _ _ _) as [objects|]; [|done]. cbn. intros [= <-]. cbn.
  do 2 (split; [done|]). by intros ->.
Qed.

(** Of either command, what is deleted is less than a full target. *)
Definition deletes_before (h : DeleteHandler Folder) (target : BackupObject) (deleted : list Object) : Prop :=
  IsFullBackup target = true /\
  forall o, o ∈ deleted -> less h o (boObject target) = true /\ isPermanent h o = Ok false.

(** The search for a target changes the order of the backups alone. *)
Definition same_tests (h h' : DeleteHandler Folder) : Prop := less h' = less h /\ isPermanent h' = isPermanent h.

Lemma FindTargetBeforeName_tests h name modifier : same_tests h (fst (FindTargetBeforeName h name modifier)).
Proof. unfold FindTargetBeforeName. by destruct (getBeforeChoiceFunc name modifier). Qed.

Lemma FindTargetBeforeTime_tests h timeLine modifier : same_tests h (fst (FindTargetBeforeTime h timeLine modifier)).
Proof.
  unfold FindTargetBeforeTime. destruct (findIn h _ _) as [h1 r] eqn:E.
  assert (same_tests h h1) as [Hl Hp] by (unfold findIn in E; destruct (findTarget _ _ _); by injection E as <- <-).
  destruct (orNil r) as [[t|]|]; [|done..].
  pose proof (FindTargetBeforeName_tests h1 (boName t) modifier) as [Hl' Hp'].
  destruct (FindTargetBeforeName h1 (boName t) modifier) as [h2 r2]. cbn in *. split; congruence.
Qed.

Lemma FindTargetRetain_tests h n modifier : same_tests h (fst (FindTargetRetain h n modifier)).
Proof. unfold FindTargetRetain. by destruct (getRetainChoiceFunc n modifier). Qed.

Lemma deleteBefore_shape h h' target deleted :
  same_tests h h' -> deleteBefore h' target true = Deleted deleted -> exists t, deletes_before h t deleted.
Proof.
  intros [Hl Hp] Hd. destruct target as [t|]; [|done]. cbn in Hd. exists t. unfold DeleteBeforeTarget in Hd.
  rewrite Hl, Hp in Hd. destruct (IsFullBackup t) eqn:Hf; [|done]. cbn in Hd. split; [done|].
  destruct (DeleteObjectsWhere _ _ _) as [objects|e] eqn:Ed in Hd; [|done]. cbn in Hd. injection Hd as <-.
  intros o Ho%(DeleteObjectsWhere_ok _ _ _ _ Ed). destruct Ho as (_ & _ & Ho).
  destruct (less h o (boObject t)); [|done]. by destruct (isPermanent h o) as [[]|].
Qed.

Lemma HandleDeleteBefore_shape parse h args deleted :
  HandleDeleteBefore parse h args true = Deleted deleted -> exists t, deletes_before h t deleted.
Proof.
  unfold HandleDeleteBefore. destruct (extractDeleteModifierFromArgs args) as [[modifier s]|]; [|done].
  destruct (parse s) as [timeLine|].
  - pose proof (FindTargetBeforeTime_tests h timeLine modifier) as Ht.
    destruct (FindTargetBeforeTime h timeLine modifier) as [h' [target|]]; [|done]. by apply deleteBefore_shape.
  - pose proof (FindTargetBeforeName_tests h s modifier) as Ht.
    destruct (FindTargetBeforeName h s modifier) as [h' [target|]]; [|done]. by apply deleteBefore_shape.
Qed.

Lemma HandleDeleteRetain_shape h args deleted :
  HandleDeleteRetain h args true = Deleted deleted -> exists t, deletes_before h t deleted.
Proof.
  unfold HandleDeleteRetain. destruct (extractDeleteModifierFromArgs args) as [[modifier s]|]; [|done].
  destruct (Atoi s) as [n|]; [|done]. pose proof (FindTargetRetain_tests h n modifier) as Ht.
  destruct (FindTargetRetain h n modifier) as [h' [target|]]; [|done]. by apply deleteBefore_shape.
Qed.

(** ** Properties *)

(** C22: what [delete before] and [delete retain] delete, with either comparison:
    no object of a listed permanent backup, neither its files nor its sentinel,
    and no WAL file of the segments written while it was taken; and with the
    comparison by names, only objects that name an earlier segment than the
    target, a full backup, does. *)
Theorem runDelete_protects parse useSentinelTime folder args deleted :
  2 <= WalSegmentSize ->
  runDeleteBefore (Content := Content) (UserData := UserData) parse useSentinelTime true folder args = Deleted deleted \/
  runDeleteRetain (Content := Content) (UserData := UserData) useSentinelTime true folder args = Deleted deleted ->
  (forall name meta tl o, permanent_backup folder name meta tl -> o ∈ deleted ->
     (forall rest, GetName o = BaseBackupPath +s rest -> StripLeftmostBackupName rest <> name) /\
     (forall seg rest, GetName o = WalPath +s (WalSegmentNo.getFilename seg tl +s rest) ->
        backup_segment meta seg -> name_ok tl seg = true -> False)) /\
  (useSentinelTime = false -> exists target, IsFullBackup target = true /\ forall o, o ∈ deleted ->
     exists x y, TryFetchTimelineAndLogSegNo (GetName o) = Some x /\
       TryFetchTimelineAndLogSegNo (boName target) = Some y /\ before_segment x y).
Proof.
  intros Hsize Hrun.
  assert (exists h t, configuredHandler (Content := Content) (UserData := UserData) useSentinelTime folder = Ok h /\
    deletes_before h t deleted) as (h & t & Hh & Hf & Hd).
  { unfold runDeleteBefore, runDeleteRetain in Hrun. destruct (configuredHandler _ _) as [h|]; [|by destruct Hrun].
    destruct Hrun as [(t & Ht)%HandleDeleteBefore_shape|(t & Ht)%HandleDeleteRetain_shape]; by exists h, t. }
  apply configuredHandler_ok in Hh. split.
  - intros name meta tl o Hperm Ho. apply (permanent_protected _ _ _ _ Hsize) in Hperm.
    destruct (GetPermanentBackupsAndWals folder) as [pb pw]. destruct Hh as (_ & Hp & _), Hperm as [Hb Hw].
    apply Hd in Ho as [_ Hno]. rewrite Hp in Hno. unfold makePostgresPermanentFunc in Hno. split.
    + intros rest E Hs. rewrite E, (Hb rest Hs) in Hno. done.
    + intros seg rest E Hseg Hok. rewrite E, (Hw seg rest Hseg Hok) in Hno. done.
  - intros Hst. destruct (GetPermanentBackupsAndWals folder) as [pb pw]. destruct Hh as (_ & _ & Hl).
    exists t. split; [done|]. intros o Ho%Hd. destruct Ho as [Ho _]. rewrite (Hl Hst) in Ho.
    by apply postgresLess_spec in Ho.
Qed.

(** The test of permanence, which slices names without a check, cannot panic
    in [delete before] and [delete retain]: they ask it of objects that compare
    less than the target, and the names of those are long enough. *)
Theorem permanence_test_in_range folder h o target :
  configuredHandler (Content := Content) (UserData := UserData) false folder = Ok h ->
  less h o target = true -> exists b, isPermanent h o = Ok b.
Proof.
  intros Hh Hless. apply configuredHandler_ok in Hh. destruct (GetPermanentBackupsAndWals folder) as [pb pw].
  destruct Hh as (_ & -> & Hl). rewrite (Hl eq_refl) in Hless.
  apply IsPermanent_in_range. by apply postgresLess_named in Hless.
Qed.

(** A name relative to the folder of the backups. *)
Definition relative (o : Object) : Prop := exists rest, GetName o = "base_" +s rest /\ (11 <= slen rest)%nat.

Lemma namesToDelete_relative (h : DeleteHandler Folder) (targets : list BackupObject) pb pw :
  isPermanent h = makePostgresPermanentFunc pb pw -> (forall b, b ∈ targets -> relative (boObject b)) ->
  namesToDelete h targets = Ok (list_to_set (GetBackupName <$> targets)).
Proof.
  intros Hp Hr. induction targets as [|b targets IH]; cbn; [done|].
  destruct (Hr b) as (rest & E & Hl); [set_solver|].
  rewrite Hp. unfold makePostgresPermanentFunc at 1. rewrite E, IsPermanent_relative by done. cbn.
  rewrite IH; [done|]. intros b' Hb'. apply Hr. set_solver.
Qed.

(** [delete target] does not keep permanent backups: its test of permanence
    is asked of names relative to the folder of the backups, and answers no for
    each of them. So whatever is permanent, no target is refused, and every
    object stored under the name of a target is deleted. *)
Theorem DeleteTargets_permanent useSentinelTime folder (h : DeleteHandler Folder) (targets : list BackupObject) deleted :
  configuredHandler (Content := Content) (UserData := UserData) useSentinelTime folder = Ok h ->
  (forall b, b ∈ targets -> relative (boObject b)) ->
  (forall o, o ∈ allObjects (GetSubFolder folder BaseBackupPath) -> relative o) ->
  namesToDelete h targets = Ok (list_to_set (GetBackupName <$> targets)) /\
  (DeleteTargets h targets true = Ok deleted ->
   forall o, o ∈ deleted <-> o ∈ allObjects (GetSubFolder folder BaseBackupPath) /\
     exists b, b ∈ targets /\ GetBackupName b = StripLeftmostBackupName (GetName o)).
Proof.
  intros Hh Ht Ho. apply configuredHandler_ok in Hh. destruct (GetPermanentBackupsAndWals folder) as [pb pw].
  destruct Hh as (Hf & Hp & _). pose proof (namesToDelete_relative h targets pb pw Hp Ht) as Hn.
  split; [done|]. unfold DeleteTargets. rewrite Hn, Hf. cbn [mbind res_bind]. intros Hd o.
  rewrite (DeleteObjectsWhere_ok _ _ _ _ Hd). split.
  - intros (_ & Hin & Hflt). split; [done|].
    destruct (bool_decide_reflect (StripLeftmostBackupName (GetName o) ∈ list_to_set (C := gset string) (GetBackupName <$> targets)))
      as [Hs|]; [|done].
    apply elem_of_list_to_set, list_elem_of_fmap in Hs as (b & E & Hb). by exists b.
  - intros (Hin & b & Hb & E). do 2 (split; [done|]). destruct (Ho o Hin) as (rest & En & Hl).
    rewrite bool_decide_eq_true_2.
    + rewrite Hp. unfold makePostgresPermanentFunc. by rewrite En, IsPermanent_relative.
    + apply elem_of_list_to_set, list_elem_of_fmap. by exists b.
Qed.
End Permanent.

(** ** Examples *)

Module PgDelete.
#[global] Instance pgDeleting : DeletingFolder PgMem.Folder := listedDeletion (fun f => Mem.below (PgMem.asMem f)).

#[global] Instance config : WalConfig := DefaultWalConfig.
#[global] Instance config_ok : WalConfigOk config.
Proof. apply (SetWalSize_ok 16). lia. Qed.

Definition retain (args : list string) : outcome :=
  @runDeleteRetain config InsertionSort unit unit PgMem.Folder _ _ _ _ _ false true PgMem.storage args.

Definition target (name : string) : option outcome :=
  @runDeleteTarget config InsertionSort unit unit PgMem.Folder _ _ _ _ _ _ (fun _ => tt) false true
    PgMem.storage [name] "".

Definition names (o : outcome) : list string := match o with Deleted objects => GetName <$> objects | _ => [] end.

(** The permanent backup and its segment stay; the files before it go. *)
Example retain_one : names (retain ["1"]) =
  ["wal_005/000000010000000000000001.lz4"; "wal_005/000000010000000000000003.lz4";
   "basebackups_005/base_000000010000000000000004_D_000000010000000000000002_backup_stop_sentinel.json";
   "basebackups_005/base_000000010000000000000004_D_000000010000000000000002/metadata.json"].
Proof. by vm_compute. Qed.

(** The permanent backup is deleted by its name. *)
Example target_permanent : names <$> target PgMem.base2 = Some
  ["base_000000010000000000000002_backup_stop_sentinel.json"; "base_000000010000000000000002/metadata.json";
   "base_000000010000000000000004_D_000000010000000000000002_backup_stop_sentinel.json";
   "base_000000010000000000000004_D_000000010000000000000002/metadata.json"].
Proof. by vm_compute. Qed.
End PgDelete.
Import PgDelete.

Lemma runDelete_protects_witness :
  (exists deleted, retain ["1"] = Deleted deleted) /\
  permanent_backup (UserData := unit) PgMem.storage PgMem.base2 (PgMem.metadataOf true 0x2000028 0x2800000) 1 /\
  backup_segment (PgMem.metadataOf true 0x2000028 0x2800000) 2 /\
  exists deleted : list Object, forall o, o ∈ deleted -> GetName o <> "wal_005/000000010000000000000002.lz4".
Proof.
  assert (exists deleted, retain ["1"] = Deleted deleted) as [deleted Hd] by (eexists; by vm_compute).
  assert (permanent_backup (UserData := unit) PgMem.storage PgMem.base2 (PgMem.metadataOf true 0x2000028 0x2800000) 1)
    as Hp.
  { split; [|by vm_compute]. eexists. split; [by vm_compute|]. apply elem_of_cons. by left. }
  assert (backup_segment (PgMem.metadataOf true 0x2000028 0x2800000) 2) as Hs
    by (split; by apply (bool_decide_unpack _); vm_compute).
  split; [by exists deleted|]. do 2 (split; [done|]). exists deleted. intros o Ho E.
  destruct (runDelete_protects (sorter := InsertionSort) (Content := unit) (UserData := unit) (fun _ => None) false PgMem.storage ["1"] deleted
    ltac:(by apply (bool_decide_unpack _); vm_compute) (or_intror Hd)) as [Hprot _].
  destruct (Hprot _ _ _ _ Hp Ho) as [_ Hw]. apply (Hw 2 ".lz4"); [|done|]; by rewrite ?E; vm_compute.
Defined.

Definition walObject : Object := mkObject "wal_005/000000010000000000000002.lz4" 0 1.
Definition targetObject : Object := mkObject (SentinelNameFromBackup PgMem.base6) 0 1.

Definition exampleHandler : res pgError (DeleteHandler PgMem.Folder) :=
  configuredHandler (Content := unit) (UserData := unit) false PgMem.storage.

Lemma permanence_test_in_range_witness :
  postgresTimelineAndSegmentNoLess walObject targetObject = true /\
  exists h b, exampleHandler = Ok h /\ isPermanent h walObject = Ok b.
Proof.
  split; [by vm_compute|].
  assert (match exampleHandler with Ok h => less h walObject targetObject = true | Err _ => False end) as Hl
    by (by vm_compute).
  destruct exampleHandler as [h|] eqn:Hh; [|done]. exists h.
  destruct (permanence_test_in_range _ _ _ _ Hh Hl) as [b Hb]. by exists b.
Defined.

Lemma HasPrefix_inv s p : HasPrefix s p = true -> s = p +s sdrop (slen p) s.
Proof.
  unfold HasPrefix. revert s. induction p as [|c p IH]; intros [|c' s]; try done.
  rewrite prefix_cons, andb_true_iff, bool_decide_eq_true. intros [-> Hp]. cbn. f_equal. auto.
Qed.

Lemma DeleteTargets_permanent_witness :
  names <$> target PgMem.base2 = Some
    ["base_000000010000000000000002_backup_stop_sentinel.json"; "base_000000010000000000000002/metadata.json";
     "base_000000010000000000000004_D_000000010000000000000002_backup_stop_sentinel.json";
     "base_000000010000000000000004_D_000000010000000000000002/metadata.json"] /\
  exists (h : DeleteHandler PgMem.Folder) b, hBackups h !! 0%nat = Some b /\
    namesToDelete h [b] = Ok (list_to_set [PgMem.base2]).
Proof.
  split; [by vm_compute|].
  assert (match exampleHandler with
    | Ok h => GetBackupName <$> head (hBackups h) = Some PgMem.base2 /\
        boName <$> head (hBackups h) = Some (SentinelNameFromBackup PgMem.base2)
    | Err _ => False end) as Hb by (by vm_compute).
  destruct exampleHandler as [h|] eqn:Hh; [|done].
  destruct (hBackups h) as [|b backups] eqn:Ebs; [by destruct Hb|]. destruct Hb as [[= Hn] [= Hs]].
  exists h, b. rewrite Ebs. split; [done|]. rewrite <- Hn.
  apply (DeleteTargets_permanent false PgMem.storage h [b] [] Hh).
  - intros b' ->%list_elem_of_singleton. unfold boName in Hs. eexists (sdrop 5 (SentinelNameFromBackup PgMem.base2)).
    rewrite Hs. split; [by vm_compute|]. by apply (bool_decide_unpack _); vm_compute.
  - intros o Ho. assert (forallb (fun o => HasPrefix (GetName o) "base_" && (11 <=? slen (sdrop 5 (GetName o)))%nat)
      (allObjects (GetSubFolder PgMem.storage BaseBackupPath)) = true) as Hall by (by vm_compute).
    rewrite forallb_forall in Hall. apply list_elem_of_In, Hall in Ho. bool_to_prop.
    exists (sdrop 5 (GetName o)). split; [by apply HasPrefix_inv|done].
Defined.
