(* ===== verification/IncPages.v ===== *)
(** * Increments of data files

    [src/internal/databases/postgres]: [postgres_page_header.go],
    [incremental_page_reader.go], [pagefile.go] and [pagefile_new.go]. An
    increment holds the size of a data file, the numbers of the pages that
    changed and those pages; the reader makes one from the file and a delta
    map (or the pages' LSNs), [ApplyFileIncrement] turns the file's older
    version into the newer one, and the functions of [pagefile_new.go]
    restore a file from its newest version to its oldest, filling in the
    pages still missing. *)

From stdpp Require Import gmap.
From S2P Require Import Prelude GoIO WalRecord WalPage WalFile PagedFile.
From S2P Require Import GoStrings GoPath Timeline DeltaMap.
Open Scope Z_scope.

(** ** [postgres_page_header.go] *)

Definition validFlags : Z := 7.
Definition layoutVersion : Z := 4.
Definition headerSize : Z := 24.
Definition invalidLsn : Z := 0.
Definition sizeofInt32 : Z := 4.

Record PageHeader := mkPageHeader {
  pdLsnH : Z; pdLsnL : Z; pdChecksum : Z; pdFlags : Z;
  pdLower : Z; pdUpper : Z; pdSpecial : Z; pdPageSizeVersion : Z
}.

Definition lsn (header : PageHeader) : Z :=
  u64 (u64 (Z.shiftl (pdLsnH header) 32) + pdLsnL header).

Definition isValid (header : PageHeader) : bool :=
  negb (negb (Z.land (pdFlags header) validFlags =? pdFlags header)
    || (pdLower header <? headerSize)
    || (pdUpper header <? pdLower header)
    || (pdSpecial header <? pdUpper header)
    || (DatabasePageSize <? pdSpecial header)
    || (lsn header =? invalidLsn)
    || negb (pdPageSizeVersion header =? DatabasePageSize + layoutVersion)).

Definition isNew (header : PageHeader) : bool := pdUpper header =? 0.

Definition pageHeaderFields : list (string * nat) :=
  [("pdLsnH", 4%nat); ("pdLsnL", 4%nat); ("pdChecksum", 2%nat); ("pdFlags", 2%nat);
   ("pdLower", 2%nat); ("pdUpper", 2%nat); ("pdSpecial", 2%nat); ("pdPageSizeVersion", 2%nat)].

Definition parsePostgresPageHeader {S} `{Reader S} : RM S PageHeader :=
  fields <-- ParseMultipleFieldsFromReader pageHeaderFields ;;
  match fields with
  | [h; l; checksum; flags; lower; upper; special; version] =>
      rret (mkPageHeader h l checksum flags lower upper special version)
  | _ => rfail RuntimePanic
  end.

(** ** [incremental_page_reader.go] *)

Definition SignatureMagicNumber : byte := Byte.x55.
Definition IncrementFileHeader : list byte := [Byte.x77; Byte.x69; Byte.x31; SignatureMagicNumber].

Record IncrementalPageReader (F : Type) := mkPageReader {
  file : F; FileSize : Z; Lsn : Z; Next : list byte; Blocks : list Z
}.
Arguments mkPageReader {F}.
Arguments file {F}.
Arguments FileSize {F}.
Arguments Lsn {F}.
Arguments Next {F}.
Arguments Blocks {F}.

Section PageReader.
Context {F : Type} `{Reader F, Seeker F}.
Notation pageReader := (IncrementalPageReader F).
Implicit Types r : pageReader.

Definition withFile r f : pageReader := mkPageReader f (FileSize r) (Lsn r) (Next r) (Blocks r).
Definition withNext r next : pageReader := mkPageReader (file r) (FileSize r) (Lsn r) next (Blocks r).
Definition withBlocks r blocks : pageReader := mkPageReader (file r) (FileSize r) (Lsn r) (Next r) blocks.

Definition AdvanceFileReader r : option error * pageReader :=
  match Blocks r with
  | [] => (Some RuntimePanic, r)
  | blockNo :: blocks =>
      let r := withBlocks r blocks in
      let offset := blockNo * DatabasePageSize in
      let '(err, f) := Seek (file r) offset in
      match err with
      | Some err => (Some err, withFile r f)
      | None =>
          let '(pageBytes, err, f) := ReadFull f psize in
          match err with
          | None => (None, withNext (withFile r f) pageBytes)
          | Some err => (Some err, withFile r f)
          end
      end
  end.

Definition DrainMoreData r : res error bool * pageReader :=
  match Blocks r with
  | [] => (Ok false, r)
  | _ =>
      let '(err, r) := AdvanceFileReader r in
      (match err with Some err => Err err | None => Ok true end, r)
  end.

(** The loop of [Read]: every turn but the last takes a block. *)
Fixpoint readLoop (fuel : nat) r (n : nat) (acc : list byte) : list byte * option error * pageReader :=
  match fuel with
  | O => (acc, Some ErrNoProgress, r)
  | S fuel =>
      let copied := take n (Next r) in
      let acc := acc ++ copied in
      let r := withNext r (drop (length copied) (Next r)) in
      let n := (n - length copied)%nat in
      if (n =? 0)%nat then (acc, None, r)
      else match DrainMoreData r with
           | (Err err, r) => (acc, Some err, r)
           | (Ok false, r) => (acc, Some EOF, r)
           | (Ok true, r) => readLoop fuel r n acc
           end
  end.

#[export] Instance pageReader_Reader : Reader pageReader := fun r n =>
  readLoop (S (length (Blocks r))) r n [].

(** [int64(blockNo+1)*DatabasePageSize]: the addition is one of [uint32]. *)
Definition fitsIntoFile r (blockNo : Z) : bool := u32 (blockNo + 1) * DatabasePageSize <=? FileSize r.

Definition DeltaBitmapInitialize {B} `{Bitmap B} r (deltaBitmap : B) : pageReader :=
  let fix loop (r : pageReader) it :=
    match it with
    | [] => r
    | blockNo :: it =>
        if fitsIntoFile r blockNo then loop (withBlocks r (Blocks r ++ [blockNo])) it else r
    end in
  loop r (ToArray deltaBitmap).

Definition SelectNewValidPage r (pageBytes : list byte) (blockNo : Z) : res error bool * pageReader :=
  match parsePostgresPageHeader (pageBytes : bytesReader) with
  | (Err _, _) => (Err RuntimePanic, r)
  | (Ok pageHeader, _) =>
      let valid := isValid pageHeader in
      if negb valid && negb (isNew pageHeader) then (Ok false, r)
      else
        let isNew := negb valid in
        if isNew || (Lsn r <=? lsn pageHeader)
        then (Ok true, withBlocks r (Blocks r ++ [blockNo]))
        else (Ok true, r)
  end.

Fixpoint fullScanLoop (fuel : nat) r (currentBlockNumber : Z) : option error * pageReader :=
  match fuel with
  | O => (Some ErrNoProgress, r)
  | S fuel =>
      let '(pageBytes, err, f) := ReadFull (file r) psize in
      let r := withFile r f in
      match err with
      | Some EOF | Some ErrUnexpectedEOF => (None, r)
      | Some err => (Some err, r)
      | None =>
          match SelectNewValidPage r pageBytes currentBlockNumber with
          | (Err err, r) => (Some err, r)
          | (Ok false, r) => (Some (InvalidBlockError currentBlockNumber), r)
          | (Ok true, r) => fullScanLoop fuel r (u32 (currentBlockNumber + 1))
          end
      end
  end.

Definition FullScanInitialize (fuel : nat) r : option error * pageReader := fullScanLoop fuel r 0.

Definition WriteDiffMapToHeader r (headerWriter : list byte) : list byte :=
  let diffBlockCount := Z.of_nat (length (Blocks r)) in
  headerWriter ++ le_enc 4 (u32 diffBlockCount) ++ (Blocks r ≫= le_enc 4).

Definition initialize {B} `{Bitmap B} (fuel : nat) (deltaBitmap : option B) r : res error Z * pageReader :=
  let headerBuffer := IncrementFileHeader ++ le_enc 8 (u64 (FileSize r)) in
  let r := withBlocks r [] in
  let '(err, r) := match deltaBitmap with
                   | None => FullScanInitialize fuel r
                   | Some deltaBitmap => (None, DeltaBitmapInitialize r deltaBitmap)
                   end in
  match err with
  | Some err => (Err err, r)
  | None =>
      let headerBuffer := WriteDiffMapToHeader r headerBuffer in
      let r := withNext r headerBuffer in
      let pageDataSize := Z.of_nat (length (Blocks r)) * DatabasePageSize in
      (Ok (Z.of_nat (length headerBuffer) + pageDataSize), r)
  end.

(** [ReadIncrementalFile] on the file [os.Open] gives. *)
Definition ReadIncrementalFile {B} `{Bitmap B} (fuel : nat) (f : F) (fileSize lsn : Z)
    (deltaBitmap : option B) : res error (pageReader * Z) :=
  match initialize fuel deltaBitmap (mkPageReader f fileSize lsn [] []) with
  | (Err err, _) => Err err
  | (Ok incrementSize, r) => Ok (r, incrementSize)
  end.

Definition convertBlocksToLocations (filePath : string) (blocks : list Z) : res pgError (list BlockLocation) :=
  relFileNode ← GetRelFileNodeFrom filePath;
  Ok (NewBlockLocation (SpcNode relFileNode) (DBNode relFileNode) (RelNode relFileNode) <$> blocks).

Definition ReadIncrementLocations (fuel : nat) (f : F) (filePath : string) (fileSize lsn : Z)
    : res pgError (list BlockLocation) :=
  match FullScanInitialize fuel (mkPageReader f fileSize lsn [] []) with
  | (Some err, _) => Err (WalParsing err)
  | (None, r) => convertBlocksToLocations filePath (Blocks r)
  end.
End PageReader.

(** ** [pagefile.go] and [pagefile_new.go] *)

Section Apply.
Context {R : Type} `{Reader R}.

(** [io.ReadFull(reader, make([]byte, n))], its error as it is. *)
Definition readFull (n : nat) : RM R (list byte) := fun s =>
  let '(bs, e, s) := ReadFull s n in
  (match e with None => Ok bs | Some e => Err e end, s).

Definition ReadIncrementFileHeader : RM R unit :=
  header <-- readFull 4 ;;
  match header with
  | [h0; h1; h2; h3] =>
      if negb (bool_decide (h0 = Byte.x77)) || negb (bool_decide (h1 = Byte.x69))
         || negb (bool_decide (h3 = SignatureMagicNumber))
      then rfail InvalidIncrementFileHeaderError
      else if negb (bool_decide (h2 = Byte.x31)) then rfail UnknownIncrementFileHeaderError
      else rret tt
  | _ => rfail RuntimePanic
  end.

Definition incrementFields : list (string * nat) := [("fileSize", 8%nat); ("diffBlockCount", 4%nat)].

(** [diffBlockCount*sizeofInt32] is a product of [uint32]. *)
Definition GetIncrementHeaderFields : RM R (Z * Z * list byte) :=
  ReadIncrementFileHeader ;;;
  fields <-- ParseMultipleFieldsFromReader incrementFields ;;
  match fields with
  | [fileSize; diffBlockCount] =>
      diffMap <-- readFull (Z.to_nat (u32 (diffBlockCount * sizeofInt32))) ;;
      rret (fileSize, diffBlockCount, diffMap)
  | _ => rfail RuntimePanic
  end.

(** [binary.LittleEndian.Uint32(diffMap[i*sizeofInt32 : (i+1)*sizeofInt32])]:
    [None] when the bounds are not within [diffMap]. *)
Definition diffBlock (diffMap : list byte) (i : Z) : option Z :=
  let lo := u32 (i * sizeofInt32) in
  let hi := u32 (u32 (i + 1) * sizeofInt32) in
  if (lo <=? hi) && (hi <=? Z.of_nat (length diffMap)) && (4 <=? hi - lo)
  then Some (le_dec (read_at diffMap (Z.to_nat lo) 4)) else None.

Definition isTarReaderEmpty : RM R bool := fun s =>
  let '(all, _, s) := Read s 1 in (Ok (length all =? 0)%nat, s).

(** [io.CopyN(ioutil.Discard, increment, n)]. *)
Fixpoint discardLoop (fuel : nat) (s : R) (n : nat) : option error * R :=
  match n, fuel with
  | O, _ => (None, s)
  | _, O => (Some ErrNoProgress, s)
  | _, S fuel =>
      let '(bs, e, s) := Read s n in
      match e with
      | None => discardLoop fuel s (n - length bs)
      | Some e => (if (length bs =? n)%nat then None else Some e, s)
      end
  end.
Definition CopyN (n : nat) : RM R unit := fun s =>
  let '(e, s) := discardLoop n s n in
  (match e with None => Ok tt | Some e => Err e end, s).

Context {T : Type} `{OsFile T}.

(** A step that reads the increment, or that works on the file. *)
Definition onReader {A} (m : RM R A) : RM (R * T) A := fun '(s, f) =>
  let '(x, s) := m s in (x, (s, f)).
Definition onFile (op : T -> option error * T) : RM (R * T) unit := fun '(s, f) =>
  let '(e, f) := op f in
  (match e with None => Ok tt | Some e => Err e end, (s, f)).

(** The pages of an increment, written where the diff map says. *)
Fixpoint applyLoop (k : nat) (i : Z) (diffMap : list byte) : RM (R * T) unit :=
  match k with
  | O => rret tt
  | S k =>
      match diffBlock diffMap i with
      | None => rfail RuntimePanic
      | Some blockNo =>
          page <-- onReader (readFull psize) ;;
          onFile (fun f => WriteAt f page (blockNo * DatabasePageSize)) ;;;
          applyLoop k (i + 1) diffMap
      end
  end.

(** The conversion of a [uint64] to [int64]. *)
Definition int64 (x : Z) : Z := if x <? 2 ^ 63 then x else x - 2 ^ 64.

(** [ApplyFileIncrement]: [file] is what the name stands for, if it exists. *)
Definition ApplyFileIncrement (createNewIncrementalFiles : bool) (increment : R) (file : option T)
    : res error unit * (R * option T) :=
  match GetIncrementHeaderFields increment with
  | (Err err, increment) => (Err err, (increment, file))
  | (Ok (fileSize, diffBlockCount, diffMap), increment) =>
      let file := match file with
                  | Some f => Some f
                  | None => if createNewIncrementalFiles then Some Create else None
                  end in
      match file with
      | None => (Err (Wrapf "incremented file should always exist" ForeignError), (increment, None))
      | Some f =>
          let m :=
            onFile (fun f => Truncate f (int64 fileSize)) ;;;
            applyLoop (Z.to_nat diffBlockCount) 0 diffMap ;;;
            isEmpty <-- onReader isTarReaderEmpty ;;
            if negb isEmpty then rfail UnexpectedTarDataError else rret tt in
          let '(x, (increment, f)) := m (increment, f) in
          (x, (increment, Some f))
      end
  end.

Definition checkIfMissingPage (f : T) (blockNo : Z) : res error bool :=
  let '(pageHeader, err) := ReadAt f (Z.to_nat headerSize) (blockNo * DatabasePageSize) in
  match err with
  | Some err => Err err
  | None => Ok (bool_decide (pageHeader = replicate (Z.to_nat headerSize) zero))
  end.

Definition writePage (blockNo : Z) (overwrite : bool) : RM (R * T) bool :=
  page <-- onReader (readFull psize) ;;
  isMissingPage <-- (if overwrite then rret true
                     else fun '(s, f) => (checkIfMissingPage f blockNo, (s, f))) ;;
  if negb isMissingPage then rret false
  else onFile (fun f => WriteAt f page (blockNo * DatabasePageSize)) ;;; rret true.

Fixpoint restoreLoop (k : nat) (i : Z) : RM (R * T) unit :=
  match k with
  | O => rret tt
  | S k => fun st =>
      match writePage i false st with
      | (Err EOF, st) => (Ok tt, st)
      | (Err err, st) => (Err err, st)
      | (Ok _, st) => restoreLoop k (i + 1) st
      end
  end.

(** [size] is the size the file had when it was opened. *)
Definition RestoreMissingPages (size : Z) : RM (R * T) unit :=
  restoreLoop (Z.to_nat (Z.quot size DatabasePageSize)) 0 ;;;
  onReader isTarReaderEmpty ;;;
  rret tt.

Fixpoint deltaBlocks (k : nat) (i : Z) (diffMap : list byte) (deltaBlockNumbers : gset Z) : option (gset Z) :=
  match k with
  | O => Some deltaBlockNumbers
  | S k =>
      blockNo ← diffBlock diffMap i;
      deltaBlocks k (i + 1) diffMap ({[ blockNo ]} ∪ deltaBlockNumbers)
  end.

Fixpoint createLoop (k : nat) (i : Z) (deltaBlockNumbers : gset Z) (missingBlockCount : Z) : RM (R * T) Z :=
  match k with
  | O => rret missingBlockCount
  | S k =>
      if bool_decide (i ∈ deltaBlockNumbers) then
        writePage i true ;;;
        createLoop k (i + 1) deltaBlockNumbers (missingBlockCount - 1)
      else
        onFile (fun f => WriteAt f zero_page (i * DatabasePageSize)) ;;;
        createLoop k (i + 1) deltaBlockNumbers missingBlockCount
  end.

Definition CreateFileFromIncrement : RM (R * T) Z :=
  header <-- onReader GetIncrementHeaderFields ;;
  let '(fileSize, diffBlockCount, diffMap) := header in
  match deltaBlocks (Z.to_nat diffBlockCount) 0 diffMap ∅ with
  | None => rfail RuntimePanic
  | Some deltaBlockNumbers =>
      let pageCount := int64 (fileSize / DatabasePageSize) in
      missingBlockCount <-- createLoop (Z.to_nat pageCount) 0 deltaBlockNumbers pageCount ;;
      onReader isTarReaderEmpty ;;;
      rret missingBlockCount
  end.

Fixpoint writeLoop (k : nat) (i : Z) (diffMap : list byte) (targetPageCount : Z)
    (overwriteExisting : bool) (restoredBlockCount : Z) : RM (R * T) Z :=
  match k with
  | O => rret restoredBlockCount
  | S k =>
      match diffBlock diffMap i with
      | None => rfail RuntimePanic
      | Some blockNo =>
          if targetPageCount <=? blockNo then
            onReader (CopyN psize) ;;;
            writeLoop k (i + 1) diffMap targetPageCount overwriteExisting restoredBlockCount
          else
            wrotePage <-- writePage blockNo overwriteExisting ;;
            writeLoop k (i + 1) diffMap targetPageCount overwriteExisting
              (if (wrotePage : bool) then restoredBlockCount + 1 else restoredBlockCount)
      end
  end.

Definition WritePagesFromIncrement (size : Z) (overwriteExisting : bool) : RM (R * T) Z :=
  header <-- onReader GetIncrementHeaderFields ;;
  let '(_, diffBlockCount, diffMap) := header in
  let targetPageCount := Z.quot size DatabasePageSize in
  restoredBlockCount <-- writeLoop (Z.to_nat diffBlockCount) 0 diffMap targetPageCount overwriteExisting 0 ;;
  isEmpty <-- onReader isTarReaderEmpty ;;
  if negb isEmpty then rfail UnexpectedTarDataError else rret restoredBlockCount.
End Apply.
