(* ===== verification/IncSpec.v ===== *)
(** * What increments of data files hold and do

    An increment described by the size of the file in pages and the numbered
    pages it carries ([increment]); the header and the diff map read back, and
    what each of the functions that write an increment into a file leaves on
    every page of it. The theorems on whole restores are in [IncTheorems]. *)

From stdpp Require Import gmap sorting.
From S2P Require Import Prelude GoIO WalRecord WalPage WalFile PagedFile.
From S2P Require Import GoStrings GoPath Timeline DeltaMap IncPages.
Open Scope Z_scope.

(** ** The bytes of an increment *)

Notation numbered := (list (nat * list byte)).

Definition diffMapOf (blocks : list nat) : list byte := blocks ≫= fun b => le_enc 4 (Z.of_nat b).

Definition increment (n : nat) (bl : numbered) : list byte :=
  IncrementFileHeader ++ le_enc 8 (Z.of_nat (n * psize)) ++
  le_enc 4 (Z.of_nat (length bl)) ++ diffMapOf bl.*1 ++ concat bl.*2.

(** Pages of a file of [n] pages, in the order of the file. *)
Record increment_ok (n : nat) (bl : numbered) : Prop := {
  inc_count : Z.of_nat n < 2 ^ 30;
  inc_sorted : StronglySorted lt bl.*1;
  inc_below : Forall (fun b => b < n)%nat bl.*1;
  inc_pages : Forall (fun p => length p = psize) bl.*2
}.

Definition lookup_page_of (bl : numbered) (i : nat) : option (list byte) :=
  (list_to_map bl : gmap nat (list byte)) !! i.

Lemma sorted_nodup (xs : list nat) : StronglySorted lt xs -> NoDup xs.
Proof.
  induction 1 as [|x xs Hs IH Hx]; [constructor|]. constructor; [|done].
  intros Hin. rewrite Forall_forall in Hx. specialize (Hx x Hin). lia.
Qed.

(** Strictly increasing numbers below [n] are at most [n]. *)
Lemma sorted_below_length (n : nat) (xs : list nat) :
  StronglySorted lt xs -> Forall (fun b => b < n)%nat xs -> (length xs <= n)%nat.
Proof.
  intros Hs Hb. rewrite <- (length_seq n 0). apply submseteq_length, NoDup_submseteq.
  - by apply sorted_nodup.
  - intros x Hx. rewrite Forall_forall in Hb. apply elem_of_seq. specialize (Hb x Hx). lia.
Qed.

Lemma increment_ok_length n bl : increment_ok n bl -> (length bl <= n)%nat.
Proof.
  intros Hok. rewrite <- (length_fmap fst). by apply sorted_below_length; destruct Hok.
Qed.

Lemma diffMapOf_length blocks : length (diffMapOf blocks) = (4 * length blocks)%nat.
Proof.
  induction blocks as [|b bs IH]; [done|]. unfold diffMapOf in *. cbn [mbind list_bind].
  rewrite length_app, le_enc_length. cbn [length] in *. rewrite IH. lia.
Qed.

Lemma diffMapOf_app xs ys : diffMapOf (xs ++ ys) = diffMapOf xs ++ diffMapOf ys.
Proof. unfold diffMapOf. apply bind_app. Qed.

(** The [i]-th number of a diff map that has not wrapped. *)
Lemma diffBlock_ok pre b post :
  Z.of_nat (length (pre ++ b :: post)) < 2 ^ 30 -> Z.of_nat b < 2 ^ 32 ->
  diffBlock (diffMapOf (pre ++ b :: post)) (Z.of_nat (length pre)) = Some (Z.of_nat b).
Proof.
  intros Hl Hb. unfold diffBlock, sizeofInt32. rewrite length_app in Hl. cbn [length] in Hl.
  change (2 ^ 30) with 1073741824 in *. change (2 ^ 32) with 4294967296 in *.
  rewrite (wrap_id 32 (Z.of_nat (length pre) + 1)) by (unfold in_width; change (2 ^ 32) with 4294967296; lia).
  rewrite !wrap_id by (unfold in_width; change (2 ^ 32) with 4294967296; lia).
  rewrite diffMapOf_length, length_app. cbn [length].
  rewrite !(proj2 (Z.leb_le _ _)) by lia. cbn [andb]. f_equal.
  replace (Z.to_nat (Z.of_nat (length pre) * 4)) with (length (diffMapOf pre)) by (rewrite diffMapOf_length; lia).
  rewrite diffMapOf_app. unfold read_at. rewrite drop_app_length.
  unfold diffMapOf. cbn [mbind list_bind]. rewrite take_app_length' by by rewrite le_enc_length.
  apply le_dec_enc. unfold fits. apply andb_true_intro. split; [apply Z.leb_le; lia|apply Z.ltb_lt].
  change (2 ^ (8 * Z.of_nat 4)) with 4294967296. lia.
Qed.

(** ** Reading *)

Section Reading.
Context {R : Type} `{LawfulReader R}.
Implicit Types s : R.

Lemma readFull_app p rest s n : avail s = p ++ rest -> length p = n ->
  readFull n s = (Ok p, adv s n).
Proof.
  intros Hs Hn. unfold readFull. rewrite ReadFull_ok by (rewrite Hs; len).
  by rewrite Hs, take_app_length' by done.
Qed.

Lemma readFull_page p rest s : avail s = p ++ rest -> length p = psize ->
  readFull psize s = (Ok p, adv s psize) /\ avail (adv s psize) = rest.
Proof.
  intros Hs Hp. split; [by eapply readFull_app|by eapply avail_adv_app].
Qed.

Lemma isTarReaderEmpty_ok s : avail s = [] -> isTarReaderEmpty s = (Ok true, s).
Proof. intros Hs. unfold isTarReaderEmpty. by rewrite read_eof by (done || lia). Qed.

Lemma isTarReaderEmpty_more s : avail s <> [] -> isTarReaderEmpty s = (Ok false, adv s 1).
Proof.
  intros Hs. unfold isTarReaderEmpty. rewrite read_some by (done || lia).
  destruct (avail s) as [|b bs]; [done|]. cbn [take length Nat.min Nat.eqb]. by destruct bs.
Qed.

Lemma isTarReaderEmpty_rest s more : avail s = more ->
  exists s', isTarReaderEmpty s = (Ok (bool_decide (more = [])), s').
Proof.
  intros Hs. destruct more as [|b more].
  - rewrite (isTarReaderEmpty_ok s Hs). eauto.
  - rewrite (isTarReaderEmpty_more s) by (rewrite Hs; done). eauto.
Qed.

Lemma CopyN_ok n s : (n <= length (avail s))%nat -> (0 < n)%nat -> CopyN n s = (Ok tt, adv s n).
Proof.
  intros Hn Hp. unfold CopyN. destruct n as [|n]; [lia|]. cbn [discardLoop].
  rewrite read_some by (try (intros E; rewrite E in Hn; simpl in Hn); lia).
  rewrite Nat.min_l, length_take_le by lia. rewrite Nat.sub_diag. by destruct n.
Qed.

Lemma ReadIncrementFileHeader_ok rest s : avail s = IncrementFileHeader ++ rest ->
  ReadIncrementFileHeader s = (Ok tt, adv s 4).
Proof.
  intros Hs. unfold ReadIncrementFileHeader, rbind. by rewrite (readFull_app _ _ _ 4 Hs).
Qed.

Lemma page_count_wrap n : Z.of_nat n < 2 ^ 30 -> Z.of_nat (n * psize) < 2 ^ 63.
Proof.
  intros Hn. rewrite Nat2Z.inj_mul, psize_val.
  change (2 ^ 63) with (2 ^ 50 * 8192). change (2 ^ 50) with (2 ^ 30 * 1048576). lia.
Qed.

Lemma GetIncrementHeaderFields_ok n bl more s :
  increment_ok n bl -> avail s = increment n bl ++ more ->
  exists s', GetIncrementHeaderFields s =
    (Ok (Z.of_nat (n * psize), Z.of_nat (length bl), diffMapOf bl.*1), s') /\
    avail s' = concat bl.*2 ++ more.
Proof.
  intros Hok Hs. pose proof (increment_ok_length _ _ Hok) as Hl.
  pose proof (page_count_wrap _ (inc_count _ _ Hok)) as Hw.
  assert (Hn := inc_count _ _ Hok). unfold increment in Hs. rewrite <- !app_assoc in Hs.
  unfold GetIncrementHeaderFields. unfold rbind at 1. rewrite (ReadIncrementFileHeader_ok _ _ Hs).
  apply (avail_adv_app _ 4) in Hs; [|done].
  set (fs := [(8%nat, Z.of_nat (n * psize)); (4%nat, Z.of_nat (length bl))]).
  assert (avail (adv s 4) = enc_fields fs ++ (diffMapOf bl.*1 ++ concat bl.*2 ++ more)) as Hf.
  { rewrite Hs. unfold enc_fields, fs. cbn [mbind list_bind]. by rewrite app_nil_r, <- app_assoc. }
  change incrementFields with (zip ["fileSize"; "diffBlockCount"] fs.*1). unfold rbind at 1.
  rewrite (ParseMultipleFields_enc _ _ _ _ Hf); [|done|].
  2:{ repeat constructor; unfold fits; apply andb_true_intro; split;
      first [apply Z.leb_le; lia|apply Z.ltb_lt]; [change (2 ^ (8 * Z.of_nat 8)) with (2 ^ 63 * 2)|
        change (2 ^ (8 * Z.of_nat 4)) with (2 ^ 30 * 4)]; lia. }
  cbn [fmap list_fmap fs snd]. unfold rbind.
  apply (avail_adv_app _ (length (enc_fields fs))) in Hf; [|done].
  unfold sizeofInt32. rewrite wrap_id by
    (unfold in_width; change (2 ^ 32) with (2 ^ 30 * 4); lia).
  replace (Z.to_nat (Z.of_nat (length bl) * 4)) with (length (diffMapOf bl.*1))
    by (rewrite diffMapOf_length, length_fmap; lia).
  rewrite (readFull_app _ _ _ _ Hf) by done. eexists. split; [done|]. by eapply avail_adv_app.
Qed.
End Reading.

(** ** Pages written into a file *)

Definition write_page (f : list byte) (i : nat) (p : list byte) : list byte := write_at f (i * psize) p.

Definition apply_pages (f : list byte) (bl : numbered) : list byte :=
  foldl (fun f '(b, p) => write_page f b p) f bl.

Lemma write_page_pages f n i p : pages_of f n -> (i < n)%nat -> length p = psize ->
  pages_of (write_page f i p) n.
Proof.
  intros Hf Hi Hp. unfold pages_of, write_page in *. rewrite write_at_length by nia. nia.
Qed.

Lemma write_page_append f n p : pages_of f n -> length p = psize ->
  pages_of (write_page f n p) (S n).
Proof.
  intros Hf Hp. unfold pages_of, write_page in *. rewrite write_at_length by lia. nia.
Qed.

Lemma page_write_page f n i j p : pages_of f n -> (i <= n)%nat -> length p = psize ->
  page (write_page f i p) j = if decide (i = j) then p else page f j.
Proof.
  intros Hf Hi Hp. unfold pages_of, write_page in *. destruct (decide (i = j)) as [<-|Hne].
  - apply page_write_eq; [done|nia].
  - apply page_write_ne; [done|nia|done].
Qed.

Lemma lookup_page_cons b p bl i :
  lookup_page_of ((b, p) :: bl) i = if decide (b = i) then Some p else lookup_page_of bl i.
Proof.
  unfold lookup_page_of. cbn [list_to_map foldr]. simpl.
  case_decide as Hb; [subst; apply lookup_insert_eq|by apply lookup_insert_ne].
Qed.

Lemma lookup_page_none bl i : (i ∉ bl.*1) -> lookup_page_of bl i = None.
Proof. intros Hi. unfold lookup_page_of. by apply not_elem_of_list_to_map_1. Qed.

Lemma lookup_page_some bl i p : lookup_page_of bl i = Some p -> (i, p) ∈ bl.
Proof. apply elem_of_list_to_map_2. Qed.

Lemma lookup_page_is_some bl i : is_Some (lookup_page_of bl i) <-> i ∈ bl.*1.
Proof.
  split.
  - intros [p Hp%lookup_page_some]. apply list_elem_of_fmap. by exists (i, p).
  - intros Hi. destruct (lookup_page_of bl i) as [p|] eqn:E; [by exists p|].
    unfold lookup_page_of in E.
    apply not_elem_of_list_to_map in E. done.
Qed.

Lemma apply_pages_spec bl f n :
  pages_of f n -> NoDup bl.*1 -> Forall (fun b => b < n)%nat bl.*1 ->
  Forall (fun p => length p = psize) bl.*2 ->
  pages_of (apply_pages f bl) n /\
  forall i, page (apply_pages f bl) i = default (page f i) (lookup_page_of bl i).
Proof.
  revert f. induction bl as [|[b p] bl IH]; intros f Hf Hn Hb Hp; [done|].
  cbn [fmap list_fmap fst snd] in *. apply NoDup_cons in Hn as [Hni Hn].
  apply Forall_cons in Hb as [Hb Hbs]. apply Forall_cons in Hp as [Hp Hps].
  cbn [apply_pages foldl]. destruct (IH (write_page f b p)) as [Hpg Hi];
    [by apply write_page_pages|done..|]. split; [done|]. intros i. fold (apply_pages (write_page f b p) bl).
  rewrite Hi, lookup_page_cons, (page_write_page _ n) by (done || lia). case_decide as E; [|done].
  subst. by rewrite lookup_page_none.
Qed.

(** ** [ApplyFileIncrement] *)

Section Writing.
Context {R : Type} `{LawfulReader R} {T : Type} `{LawfulFile T}.
Implicit Types (s : R) (f : T).

Lemma WriteAt_page f p (i : nat) s : exists f',
  onFile (fun f => WriteAt f p (Z.of_nat i * DatabasePageSize)) (s, f) = (Ok tt, (s, f')) /\
  contents f' = write_page (contents f) i p.
Proof.
  destruct (writeAt_ok f p (i * psize)) as (f' & Hf & Hc). exists f'. split; [|done].
  unfold onFile. replace (Z.of_nat i * DatabasePageSize) with (Z.of_nat (i * psize))
    by (rewrite Nat2Z.inj_mul, psize_Z; done). by rewrite Hf.
Qed.

Lemma applyLoop_ok more post : forall pre s f,
  Z.of_nat (length (pre ++ post)) < 2 ^ 30 ->
  Forall (fun b => Z.of_nat b < 2 ^ 32) post.*1 ->
  Forall (fun p => length p = psize) post.*2 ->
  avail s = concat post.*2 ++ more ->
  exists s' f', applyLoop (length post) (Z.of_nat (length pre)) (diffMapOf (pre ++ post).*1) (s, f) =
    (Ok tt, (s', f')) /\ avail s' = more /\ contents f' = apply_pages (contents f) post.
Proof.
  induction post as [|[b p] post IH]; intros pre s f Hl Hb Hp Hs.
  { exists s, f. by split_and!. }
  cbn [fmap list_fmap fst snd] in *. apply Forall_cons in Hb as [Hb Hbs].
  apply Forall_cons in Hp as [Hp Hps]. cbn [concat] in Hs. rewrite <- app_assoc in Hs.
  destruct (readFull_page _ _ _ Hs Hp) as [Hr Ha]. cbn [length applyLoop].
  rewrite fmap_app. cbn [fmap list_fmap fst]. rewrite <- (length_fmap fst pre).
  rewrite diffBlock_ok by (done || (rewrite length_app in *; cbn [length] in *; rewrite !length_fmap; lia)).
  unfold rbind, onReader at 1. rewrite Hr.
  destruct (WriteAt_page f p b (adv s psize)) as (f1 & -> & Hf1).
  destruct (IH (pre ++ [(b, p)]) (adv s psize) f1) as (s' & f' & Hi & Hs' & Hf');
    [by rewrite <- app_assoc|done..|].
  exists s', f'. split; [|split; [done|by rewrite Hf', Hf1]].
  rewrite <- app_assoc in Hi. cbn [app] in Hi. rewrite fmap_app in Hi. cbn [fmap list_fmap fst] in Hi.
  rewrite <- Hi. f_equal. rewrite length_app, length_fmap. cbn [length]. lia.
Qed.

Lemma small_blocks n bl : increment_ok n bl -> Forall (fun b => Z.of_nat b < 2 ^ 32) bl.*1.
Proof.
  intros Hok. eapply Forall_impl; [apply (inc_below _ _ Hok)|]. intros b Hb. cbn beta in *.
  pose proof (inc_count _ _ Hok). change (2 ^ 32) with (2 ^ 30 * 4). lia.
Qed.

Lemma int64_pages n : Z.of_nat n < 2 ^ 30 -> int64 (Z.of_nat (n * psize)) = Z.of_nat (n * psize).
Proof.
  intros Hn%page_count_wrap. unfold int64. by rewrite (proj2 (Z.ltb_lt _ _)) by done.
Qed.

(** Every page of the result is the increment's or, failing that, the old
    file's; a page the old file did not have is zeros. Bytes behind the last
    page are an error, but by then the increment has been applied. *)
Lemma ApplyFileIncrement_ok create n bl more s f :
  increment_ok n bl -> avail s = increment n bl ++ more ->
  exists s' f', ApplyFileIncrement create s (Some f) =
      (if decide (more = []) then Ok tt else Err UnexpectedTarDataError, (s', Some f')) /\
    pages_of (contents f') n /\
    forall i, page (contents f') i =
      default (page (resize (n * psize) zero (contents f)) i) (lookup_page_of bl i).
Proof.
  intros Hok Hs. unfold ApplyFileIncrement.
  destruct (GetIncrementHeaderFields_ok _ _ _ _ Hok Hs) as (s1 & -> & Hs1).
  rewrite int64_pages by apply (inc_count _ _ Hok).
  unfold rbind. unfold onFile at 1.
  destruct (truncate_ok f (n * psize)) as (f1 & -> & Hf1). rewrite Nat2Z.id.
  pose proof (increment_ok_length _ _ Hok).
  destruct (applyLoop_ok more bl [] s1 f1) as (s2 & f2 & Ha & Hs2 & Hf2);
    [pose proof (inc_count _ _ Hok); cbn [app]; lia|by eapply small_blocks|apply (inc_pages _ _ Hok)|done|].
  cbn [app length] in Ha. change (Z.of_nat 0) with 0 in Ha. rewrite Ha.
  destruct (isTarReaderEmpty_rest s2 more Hs2) as [s3 Hem].
  unfold onReader. rewrite Hem. exists s3, f2. split.
  { destruct (decide (more = [])); [by rewrite bool_decide_eq_true_2|by rewrite bool_decide_eq_false_2]. }
  rewrite Hf2, Hf1. apply apply_pages_spec; [|by apply sorted_nodup, inc_sorted with n|apply (inc_below _ _ Hok)|
    apply (inc_pages _ _ Hok)].
  unfold pages_of. by rewrite length_resize.
Qed.
(** ** [pagefile_new.go] *)

(** The test of [checkIfMissingPage] on a page. *)
Definition missing (p : list byte) : bool :=
  bool_decide (take (Z.to_nat headerSize) p = replicate (Z.to_nat headerSize) zero).

Lemma checkIfMissingPage_ok f i : ((i + 1) * psize <= length (contents f))%nat ->
  checkIfMissingPage f (Z.of_nat i) = Ok (missing (page (contents f) i)).
Proof.
  intros Hi. unfold checkIfMissingPage, DatabasePageSize, BlockSize.
  pose proof psize_pos. change (Z.to_nat headerSize) with 24%nat.
  replace (Z.of_nat i * 8192) with (Z.of_nat (i * psize)) by (rewrite Nat2Z.inj_mul, psize_val; done).
  rewrite readAt_ok by lia. do 2 f_equal. unfold missing. f_equal.
  unfold page, read_at. rewrite take_take. change (Z.to_nat headerSize) with 24%nat.
  by rewrite Nat.min_l by lia.
Qed.

Lemma writePage_ok n i (overwrite : bool) p rest s f :
  pages_of (contents f) n -> (if overwrite then i <= n else i < n)%nat ->
  avail s = p ++ rest -> length p = psize ->
  let w := overwrite || missing (page (contents f) i) in
  exists f', writePage (Z.of_nat i) overwrite (s, f) = (Ok w, (adv s psize, f')) /\
    contents f' = if w then write_page (contents f) i p else contents f.
Proof.
  intros Hf Hi Hs Hp. destruct (readFull_page _ _ _ Hs Hp) as [Hr _].
  unfold writePage, rbind at 1, onReader. rewrite Hr.
  destruct (WriteAt_page f p i (adv s psize)) as (f1 & Hw & Hf1). cbv zeta.
  destruct overwrite; cbn [orb].
  - unfold rbind, rret. cbn [negb]. rewrite Hw. by exists f1.
  - unfold rbind. rewrite checkIfMissingPage_ok by (unfold pages_of in Hf; nia).
    destruct (missing _); cbn [negb]; [rewrite Hw; by exists f1|by exists f].
Qed.

(** *** [RestoreMissingPages] *)

(** The pages of [f] that are missing, as [base] has them, from [i] on. *)
Fixpoint restored (k i : nat) (base f : list byte) : list byte :=
  match k with
  | O => f
  | S k => restored k (S i) base
      (if (i <? length base / psize)%nat && missing (page f i) then write_page f i (page base i) else f)
  end.

Lemma restored_spec k : forall i base (f : list byte) n nb,
  pages_of f n -> pages_of base nb -> (i + k = n)%nat ->
  pages_of (restored k i base f) n /\
  forall j, page (restored k i base f) j =
    if decide (i <= j < Nat.min n nb)%nat then
      if missing (page f j) then page base j else page f j
    else page f j.
Proof.
  induction k as [|k IH]; intros i base f n nb Hf Hb Hk; cbn [restored].
  { split; [done|]. intros j. rewrite decide_False by lia. done. }
  assert (length base / psize = nb)%nat as Hnb.
  { rewrite Hb. pose proof psize_pos. apply Nat.div_mul. lia. }
  rewrite Hnb. set (f1 := if ((i <? nb)%nat && missing (page f i)) then write_page f i (page base i) else f).
  assert (pages_of f1 n /\ forall j, page f1 j =
    if decide (j = i /\ i < nb)%nat then (if missing (page f i) then page base i else page f i)
    else page f j) as [Hf1 Hp1].
  { unfold f1. destruct (i <? nb)%nat eqn:Ei; bool_to_prop; cbn [andb].
    - assert (length (page base i) = psize) by (apply page_length; unfold pages_of in Hb; nia).
      destruct (missing (page f i)); [split; [by apply write_page_pages; [|lia|]|]|split; [done|]]; intros j;
        [rewrite (page_write_page _ n) by (done || lia)|];
        clear - Ei; repeat case_decide; try done; try lia; destruct_and?; by subst.
    - split; [done|]. intros j. rewrite decide_False by lia. done. }
  destruct (IH (S i) base f1 n nb Hf1 Hb) as [Hf2 Hp2]; [lia|]. split; [done|].
  intros j. rewrite Hp2, Hp1. repeat case_decide; try lia; try done; by replace j with i by lia.
Qed.

Lemma restored_end k i base (f : list byte) : (length base / psize <= i)%nat -> restored k i base f = f.
Proof.
  revert i. induction k as [|k IH]; intros i Hi; [done|]. cbn [restored].
  rewrite (proj2 (Nat.ltb_ge i _)) by lia. cbn [andb]. apply IH. lia.
Qed.

Lemma restoreLoop_ok k : forall i base s f n nb,
  pages_of base nb -> pages_of (contents f) n -> (i + k = n)%nat ->
  avail s = drop (i * psize) base ->
  exists s' f', restoreLoop k (Z.of_nat i) (s, f) = (Ok tt, (s', f')) /\
    contents f' = restored k i base (contents f) /\ avail s' = drop (Nat.max i (Nat.min n nb) * psize) base.
Proof.
  induction k as [|k IH]; intros i base s f n nb Hb Hf Hk Hs.
  { exists s, f. split_and!; [done|done|]. rewrite Hs. f_equal. lia. }
  assert (length base / psize = nb)%nat as Hnb.
  { rewrite Hb. pose proof psize_pos. apply Nat.div_mul. lia. }
  cbn [restoreLoop restored]. rewrite Hnb. destruct (i <? nb)%nat eqn:Ei; bool_to_prop.
  - assert (avail s = page base i ++ drop (S i * psize) base) as Hs'.
    { rewrite Hs. unfold page, read_at. rewrite <- (take_drop psize (drop _ base)) at 1. f_equal.
      rewrite drop_drop. f_equal. lia. }
    assert (length (page base i) = psize) as Hl by (apply page_length; unfold pages_of in Hb; nia).
    destruct (writePage_ok n i false _ _ s f Hf ltac:(cbn; lia) Hs' Hl) as (f1 & -> & Hf1).
    cbn [orb andb] in *. destruct (IH (S i) base (adv s psize) f1 n nb) as (s' & f' & Hr & Hc & Ha); [done| |lia| |].
    + rewrite Hf1. destruct (missing _); [apply write_page_pages; [done|lia|done]|done].
    + by eapply avail_adv_app.
    + exists s', f'. rewrite <- Hf1. split_and!; [|done|].
      * rewrite <- Hr. f_equal. lia.
      * rewrite Ha. do 2 f_equal. lia.
  - assert (avail s = []) as Hs0.
    { rewrite Hs. apply drop_ge. unfold pages_of in Hb. nia. }
    unfold writePage, rbind, onReader, readFull. pose proof psize_pos.
    rewrite ReadFull_eof by (done || lia). exists s, f. cbn [andb]. split; [done|]. split.
    + symmetry. apply (restored_end k (S i)). lia.
    + rewrite Hs. rewrite !drop_ge; [done| |]; unfold pages_of in Hb; nia.
Qed.
Lemma isTarReaderEmpty_total s : exists b s', isTarReaderEmpty s = (Ok b, s').
Proof. unfold isTarReaderEmpty. destruct (Read s 1) as [[all e] s']. eauto. Qed.

Lemma quot_pages n : Z.quot (Z.of_nat (n * psize)) DatabasePageSize = Z.of_nat n.
Proof.
  rewrite Nat2Z.inj_mul, psize_Z. apply Z.quot_mul. by vm_compute.
Qed.

(** Missing pages are as in [base], the others stay. *)
Lemma RestoreMissingPages_ok base s f n nb :
  pages_of base nb -> pages_of (contents f) n -> avail s = base ->
  exists s' f', RestoreMissingPages (Z.of_nat (n * psize)) (s, f) = (Ok tt, (s', f')) /\
    pages_of (contents f') n /\
    forall i, (i < n)%nat -> page (contents f') i =
      if (i <? nb)%nat && missing (page (contents f) i) then page base i else page (contents f) i.
Proof.
  intros Hb Hf Hs. unfold RestoreMissingPages. rewrite quot_pages, Nat2Z.id.
  destruct (restoreLoop_ok n 0 base s f n nb) as (s1 & f1 & Hr & Hc & _); [done..|].
  change (Z.of_nat 0) with 0 in Hr. unfold rbind. rewrite Hr. unfold onReader.
  destruct (isTarReaderEmpty_total s1) as (b & s2 & ->). exists s2, f1.
  destruct (restored_spec n 0 base (contents f) n nb) as [Hp Hi]; [done..|].
  rewrite Hc. split; [done|]. split; [done|]. intros i Hin. rewrite Hi.
  destruct (i <? nb)%nat eqn:E; bool_to_prop; cbn [andb].
  - rewrite decide_True by lia. done.
  - by rewrite decide_False by lia.
Qed.

(** *** [CreateFileFromIncrement] *)

Lemma deltaBlocks_ok post : forall pre acc,
  Z.of_nat (length (pre ++ post)) < 2 ^ 30 -> Forall (fun b => Z.of_nat b < 2 ^ 32) post ->
  exists X, deltaBlocks (length post) (Z.of_nat (length pre)) (diffMapOf (pre ++ post)) acc = Some X /\
    forall j : nat, Z.of_nat j ∈ X <-> j ∈ post \/ Z.of_nat j ∈ acc.
Proof.
  induction post as [|b post IH]; intros pre acc Hl Hb.
  { exists acc. split; [done|]. intros j. split; [by right|intros [Hj|Hj]; [by apply elem_of_nil in Hj|done]]. }
  apply Forall_cons in Hb as [Hb Hbs]. cbn [length deltaBlocks]. rewrite diffBlock_ok by done. cbn [mbind option_bind].
  destruct (IH (pre ++ [b]) ({[ Z.of_nat b ]} ∪ acc)) as (X & HX & Hin); [by rewrite <- app_assoc|done|].
  exists X. rewrite <- app_assoc in HX. cbn [app] in HX. split.
  - rewrite <- HX. f_equal. rewrite length_app. cbn [length]. lia.
  - intros j. rewrite Hin, elem_of_cons, elem_of_union, elem_of_singleton. naive_solver lia.
Qed.

(** Numbered pages from [i] on and below [hi], in order. *)
Record pending (i hi : nat) (bl : numbered) : Prop := {
  pend_sorted : StronglySorted lt bl.*1;
  pend_range : Forall (fun b => i <= b < hi)%nat bl.*1;
  pend_pages : Forall (fun p => length p = psize) bl.*2
}.

Lemma pending_split i hi bl : pending i hi bl ->
  (i ∉ bl.*1 /\ pending (S i) hi bl) \/
  (exists p bl1, bl = (i, p) :: bl1 /\ length p = psize /\ i ∉ bl1.*1 /\ pending (S i) hi bl1).
Proof.
  intros [Hs Hr Hp]. destruct bl as [|[b p] bl].
  { left. split; [apply not_elem_of_nil|by constructor]. }
  assert (forall x, x ∈ bl.*1 -> b < x)%nat as Hlt.
  { intros x Hx. cbn [fmap list_fmap fst] in Hs. apply StronglySorted_inv in Hs as [_ Hs].
    rewrite Forall_forall in Hs. by apply Hs. }
  cbn [fmap list_fmap fst snd] in *. apply Forall_cons in Hr as [Hb Hr].
  apply Forall_cons in Hp as [Hp Hps]. rewrite Forall_forall in Hr.
  destruct (decide (b = i)) as [->|Hne].
  - right. exists p, bl. split_and!; [done|done| |constructor; [|apply Forall_forall|done]].
    + intros Hi. specialize (Hlt i Hi). lia.
    + by apply StronglySorted_inv in Hs as [Hs _].
    + intros x Hx. specialize (Hlt x Hx). specialize (Hr x Hx). lia.
  - left. split; [intros [->|Hi]%elem_of_cons; [done|specialize (Hlt i Hi); lia]|].
    constructor; [done| |by constructor]. cbn [fmap list_fmap fst].
    constructor; [cbn beta; lia|]. apply Forall_forall.
    intros x Hx. specialize (Hlt x Hx). specialize (Hr x Hx). lia.
Qed.

(** One turn of the loop writes page [i]. *)
Lemma createLoop_step more k i hi X c bl s f :
  pending i hi bl -> (Z.of_nat i ∈ X <-> i ∈ bl.*1) ->
  pages_of (contents f) i -> avail s = concat bl.*2 ++ more ->
  exists bl1 s1 f1,
    createLoop (S k) (Z.of_nat i) X c (s, f) =
      createLoop k (Z.of_nat (S i)) X (c - Z.of_nat (length bl) + Z.of_nat (length bl1)) (s1, f1) /\
    contents f1 = write_page (contents f) i (default zero_page (lookup_page_of bl i)) /\
    length (default zero_page (lookup_page_of bl i)) = psize /\
    pending (S i) hi bl1 /\ avail s1 = concat bl1.*2 ++ more /\
    forall j, (i < j)%nat -> (j ∈ bl1.*1 <-> j ∈ bl.*1) /\ lookup_page_of bl1 j = lookup_page_of bl j.
Proof.
  intros Hpend HX Hf Hs. cbn [createLoop]. replace (Z.of_nat (S i)) with (Z.of_nat i + 1) by lia.
  destruct (pending_split _ _ _ Hpend) as [[Hni Hp1]|(p & bl1 & -> & Hl & Hni & Hp1)].
  - rewrite bool_decide_eq_false_2 by (by rewrite HX).
    unfold rbind. destruct (WriteAt_page f zero_page i s) as (f1 & -> & Hf1).
    exists bl, s, f1. rewrite lookup_page_none by done. cbn [default from_option].
    split_and!; [f_equal; f_equal; lia|done|apply zero_page_length|done|done|done].
  - rewrite bool_decide_eq_true_2 by (rewrite HX; by left).
    cbn [fmap list_fmap snd concat] in Hs. rewrite <- app_assoc in Hs.
    unfold rbind. destruct (writePage_ok i i true p _ s f Hf ltac:(cbn; lia) Hs Hl) as (f1 & -> & Hf1).
    exists bl1, (adv s psize), f1. rewrite lookup_page_cons, decide_True by done. cbn [default from_option].
    split_and!; [f_equal; f_equal; cbn [length]; lia|done|done|done|by eapply avail_adv_app|].
    intros j Hj. cbn [fmap list_fmap fst]. rewrite elem_of_cons, lookup_page_cons, decide_False by lia.
    naive_solver lia.
Qed.

Lemma createLoop_ok more k : forall i X c bl s f,
  pages_of (contents f) i -> pending i (i + k) bl ->
  (forall j, (i <= j)%nat -> Z.of_nat j ∈ X <-> j ∈ bl.*1) -> avail s = concat bl.*2 ++ more ->
  exists s' f', createLoop k (Z.of_nat i) X c (s, f) = (Ok (c - Z.of_nat (length bl)), (s', f')) /\
    avail s' = more /\ pages_of (contents f') (i + k) /\
    forall j, (j < i + k)%nat -> page (contents f') j =
      if (j <? i)%nat then page (contents f) j else default zero_page (lookup_page_of bl j).
Proof.
  induction k as [|k IH]; intros i X c bl s f Hf Hpend HX Hs.
  { destruct bl as [|[b p] bl]; [|destruct Hpend as [_ Hr _]; apply Forall_cons in Hr as [Hb _]; cbn in Hb; lia].
    exists s, f. cbn [createLoop]. unfold rret. rewrite Z.sub_0_r, Nat.add_0_r. split_and!; [done..|].
    intros j Hj. by rewrite (proj2 (Nat.ltb_lt j i)). }
  destruct (createLoop_step more k i _ X c bl s f Hpend (HX i ltac:(lia)) Hf Hs)
    as (bl1 & s1 & f1 & -> & Hf1 & Hl & Hp1 & Hs1 & Hj1).
  replace (i + S k)%nat with (S i + k)%nat in * by lia.
  destruct (IH (S i) X (c - Z.of_nat (length bl) + Z.of_nat (length bl1)) bl1 s1 f1)
    as (s' & f' & Hc & Ha & Hpg & Hj); [rewrite Hf1; by apply write_page_append|done| |done|].
  { intros j Hij. rewrite HX by lia. by destruct (Hj1 j ltac:(lia)) as [-> _]. }
  exists s', f'. rewrite Hc. split_and!; [do 2 f_equal; lia|done|done|].
  intros j Hjk. rewrite Hj by done. rewrite Hf1, (page_write_page _ i) by (done || lia).
  destruct (decide (i = j)) as [<-|Hne].
  - by rewrite Nat.ltb_irrefl, (proj2 (Nat.ltb_lt i (S i))) by lia.
  - destruct (j <? i)%nat eqn:E1, (j <? S i)%nat eqn:E2; bool_to_prop; try done; try lia.
    by rewrite (proj2 (Hj1 j ltac:(lia))).
Qed.

Lemma increment_pending n bl : increment_ok n bl -> pending 0 n bl.
Proof.
  intros [_ Hs Hb Hp]. constructor; [done| |done]. eapply Forall_impl; [exact Hb|]. cbn. lia.
Qed.

(** The file has the increment's pages, and pages of zeros between them. *)
Lemma CreateFileFromIncrement_ok n bl more s f :
  increment_ok n bl -> avail s = increment n bl ++ more -> contents f = [] ->
  exists s' f', CreateFileFromIncrement (s, f) = (Ok (Z.of_nat n - Z.of_nat (length bl)), (s', f')) /\
    pages_of (contents f') n /\
    forall i, (i < n)%nat -> page (contents f') i = default zero_page (lookup_page_of bl i).
Proof.
  intros Hok Hs Hf. unfold CreateFileFromIncrement. unfold rbind at 1. unfold onReader at 1.
  destruct (GetIncrementHeaderFields_ok _ _ _ _ Hok Hs) as (s1 & -> & Hs1). rewrite Nat2Z.id.
  destruct (deltaBlocks_ok bl.*1 [] ∅) as (X & HX & Hin).
  { cbn [app]. rewrite length_fmap. pose proof (increment_ok_length _ _ Hok). pose proof (inc_count _ _ Hok). lia. }
  { by eapply small_blocks. }
  cbn [app length] in HX. change (Z.of_nat 0) with 0 in HX. rewrite length_fmap in HX. rewrite HX.
  rewrite Nat2Z.inj_mul, psize_Z, Z.div_mul by by vm_compute. unfold int64.
  rewrite (proj2 (Z.ltb_lt _ _)) by (pose proof (inc_count _ _ Hok); change (2 ^ 63) with (2 ^ 30 * 8589934592); lia).
  rewrite Nat2Z.id. unfold rbind.
  destruct (createLoop_ok more n 0 X (Z.of_nat n) bl s1 f) as (s2 & f2 & Hc & Ha & Hpg & Hj);
    [by unfold pages_of; rewrite Hf|by apply increment_pending| |done|].
  { intros j _. rewrite Hin. split; [intros [?|Hj]; [done|by apply elem_of_empty in Hj]|by left]. }
  change (Z.of_nat 0) with 0 in Hc. rewrite Hc. unfold onReader.
  destruct (isTarReaderEmpty_total s2) as (b & s3 & ->). exists s3, f2.
  split_and!; [done|done|]. intros i Hi. by rewrite Hj.
Qed.
(** *** [WritePagesFromIncrement] *)

(** Whether the page numbered [b] is written into the [n] pages of [f]. *)
Definition wanted (n : nat) (overwrite : bool) (f : list byte) (b : nat) : bool :=
  (b <? n)%nat && (overwrite || missing (page f b)).

Definition fill_pages (n : nat) (overwrite : bool) (f : list byte) (bl : numbered) : list byte :=
  foldl (fun (f : list byte) '(b, p) => if wanted n overwrite f b then write_page f b p else f) f bl.

(** How many are. *)
Definition count_wanted (n : nat) (overwrite : bool) (f : list byte) (bs : list nat) : nat :=
  length (List.filter (wanted n overwrite f) bs).

Lemma count_wanted_ext n overwrite (f g : list byte) bs :
  (forall b, b ∈ bs -> page f b = page g b) -> count_wanted n overwrite f bs = count_wanted n overwrite g bs.
Proof.
  intros He. unfold count_wanted. apply (f_equal length), filter_ext_in. intros b Hb%list_elem_of_In.
  unfold wanted. by rewrite (He b Hb).
Qed.

Lemma fill_step n overwrite (f : list byte) b p :
  pages_of f n -> length p = psize ->
  let f1 := if wanted n overwrite f b then write_page f b p else f in
  pages_of f1 n /\
  forall j, page f1 j = if decide (j = b) then (if wanted n overwrite f b then p else page f j) else page f j.
Proof.
  intros Hf Hp. cbv zeta. destruct (wanted n overwrite f b) eqn:Hw.
  - unfold wanted in Hw. bool_to_prop. split; [by apply write_page_pages|]. intros j.
    rewrite (page_write_page _ n) by (done || lia). repeat case_decide; subst; done.
  - split; [done|]. intros j. by case_decide.
Qed.

Lemma fill_pages_spec n overwrite bl : forall (f : list byte),
  pages_of f n -> NoDup bl.*1 -> Forall (fun p => length p = psize) bl.*2 ->
  pages_of (fill_pages n overwrite f bl) n /\
  forall j, page (fill_pages n overwrite f bl) j =
    if wanted n overwrite f j then default (page f j) (lookup_page_of bl j) else page f j.
Proof.
  induction bl as [|[b p] bl IH]; intros f Hf Hn Hp.
  { split; [done|]. intros j. cbn. by destruct (wanted _ _ _ _). }
  cbn [fmap list_fmap fst snd] in *. apply NoDup_cons in Hn as [Hni Hn]. apply Forall_cons in Hp as [Hp Hps].
  destruct (fill_step n overwrite f b p Hf Hp) as [Hf1 Hp1]. cbn [fill_pages foldl].
  set (f1 := if wanted n overwrite f b then write_page f b p else f) in *.
  destruct (IH f1 Hf1 Hn Hps) as [Hpg Hj]. split; [done|]. intros j.
  fold (fill_pages n overwrite f1 bl). rewrite Hj, lookup_page_cons.
  destruct (decide (b = j)) as [<-|Hne].
  - rewrite lookup_page_none by done. cbn [default from_option]. rewrite Hp1, decide_True by done.
    by destruct (wanted n overwrite f1 b), (wanted n overwrite f b).
  - assert (page f1 j = page f j) as Hpj by (by rewrite Hp1, decide_False by congruence).
    unfold wanted. by rewrite Hpj.
Qed.

Lemma writeLoop_ok n overwrite more post : forall pre c s f,
  Z.of_nat (length (pre ++ post)) < 2 ^ 30 ->
  Forall (fun b => Z.of_nat b < 2 ^ 32) post.*1 -> NoDup post.*1 ->
  Forall (fun p => length p = psize) post.*2 -> pages_of (contents f) n ->
  avail s = concat post.*2 ++ more ->
  exists s' f', writeLoop (length post) (Z.of_nat (length pre)) (diffMapOf (pre ++ post).*1)
      (Z.of_nat n) overwrite c (s, f) =
      (Ok (c + Z.of_nat (count_wanted n overwrite (contents f) post.*1)), (s', f')) /\
    avail s' = more /\ contents f' = fill_pages n overwrite (contents f) post.
Proof.
  induction post as [|[b p] post IH]; intros pre c s f Hl Hb Hnd Hp Hf Hs.
  { exists s, f. cbn. unfold rret. rewrite Z.add_0_r. by split_and!. }
  cbn [fmap list_fmap fst snd] in *. apply Forall_cons in Hb as [Hb Hbs]. apply NoDup_cons in Hnd as [Hni Hnd].
  apply Forall_cons in Hp as [Hp Hps]. cbn [concat] in Hs. rewrite <- app_assoc in Hs.
  destruct (readFull_page _ _ _ Hs Hp) as [_ Ha]. cbn [length writeLoop].
  rewrite fmap_app. cbn [fmap list_fmap fst]. rewrite <- (length_fmap fst pre).
  rewrite diffBlock_ok by (done || (rewrite length_app in *; cbn [length] in *; rewrite !length_fmap; lia)).
  destruct (fill_step n overwrite (contents f) b p Hf Hp) as [Hf1 Hp1].
  set (c1 := if wanted n overwrite (contents f) b then c + 1 else c).
  assert (exists f1, contents f1 = (if wanted n overwrite (contents f) b then write_page (contents f) b p else contents f) /\
    forall k i dm, (if Z.of_nat n <=? Z.of_nat b then onReader (CopyN psize) ;;; writeLoop k i dm (Z.of_nat n) overwrite c
     else wrotePage <-- writePage (Z.of_nat b) overwrite ;;
       writeLoop k i dm (Z.of_nat n) overwrite (if (wrotePage : bool) then c + 1 else c)) (s, f) =
    writeLoop k i dm (Z.of_nat n) overwrite c1 (adv s psize, f1)) as (f1 & Hc1 & Hstep).
  { unfold c1, wanted. destruct (Z.of_nat n <=? Z.of_nat b) eqn:E; bool_to_prop.
    - rewrite (proj2 (Nat.ltb_ge b n)) by lia. cbn [andb]. exists f. split; [done|]. intros k i dm.
      unfold rbind, onReader. rewrite CopyN_ok; [done|rewrite Hs, length_app; lia|pose proof psize_pos; lia].
    - rewrite (proj2 (Nat.ltb_lt b n)) by lia. cbn [andb].
      destruct (writePage_ok n b overwrite p _ s f Hf ltac:(destruct overwrite; lia) Hs Hp) as (f1 & Hw & Hf1').
      exists f1. split; [done|]. intros k i dm. unfold rbind. by rewrite Hw. }
  rewrite Hstep. rewrite <- Hc1 in *.
  destruct (IH (pre ++ [(b, p)]) c1 (adv s psize) f1) as (s' & f' & Hi & Hs' & Hf');
    [by rewrite <- app_assoc|done..|].
  exists s', f'. split; [|split; [done|]].
  - rewrite <- app_assoc in Hi. cbn [app] in Hi. rewrite fmap_app in Hi. cbn [fmap list_fmap fst] in Hi.
    replace (Z.of_nat (length pre.*1) + 1) with (Z.of_nat (length (pre ++ [(b, p)])))
      by (rewrite length_app, length_fmap; cbn [length]; lia).
    rewrite Hi. do 2 f_equal.
    rewrite (count_wanted_ext _ _ (contents f1) (contents f)).
    + unfold c1, count_wanted. cbn [List.filter]. destruct (wanted _ _ _ b); cbn [length]; lia.
    + intros j Hj. rewrite Hp1, decide_False; [done|]. by intros ->.
  - rewrite Hf', Hc1. done.
Qed.
(** Of the pages of the increment that the file has room for, the missing
    ones are written (or all of them, when existing pages are overwritten),
    and the result counts them. *)
Lemma WritePagesFromIncrement_ok n bl m overwrite more s f :
  increment_ok n bl -> avail s = increment n bl ++ more -> pages_of (contents f) m ->
  exists s' f', WritePagesFromIncrement (Z.of_nat (m * psize)) overwrite (s, f) =
      (if decide (more = [])
       then Ok (Z.of_nat (count_wanted m overwrite (contents f) bl.*1))
       else Err UnexpectedTarDataError, (s', f')) /\
    pages_of (contents f') m /\
    forall i, (i < m)%nat -> page (contents f') i =
      if overwrite || missing (page (contents f) i)
      then default (page (contents f) i) (lookup_page_of bl i) else page (contents f) i.
Proof.
  intros Hok Hs Hf. unfold WritePagesFromIncrement. unfold rbind at 1. unfold onReader at 1.
  destruct (GetIncrementHeaderFields_ok _ _ _ _ Hok Hs) as (s1 & -> & Hs1). rewrite Nat2Z.id, quot_pages.
  assert (NoDup bl.*1) as Hnd by (by apply sorted_nodup, inc_sorted with n).
  destruct (writeLoop_ok m overwrite more bl [] 0 s1 f) as (s2 & f2 & Hw & Hs2 & Hf2);
    [|by eapply small_blocks|done|apply (inc_pages _ _ Hok)|done|done|].
  { cbn [app]. pose proof (increment_ok_length _ _ Hok). pose proof (inc_count _ _ Hok). lia. }
  cbn [app length] in Hw. change (Z.of_nat 0) with 0 in Hw. unfold rbind. rewrite Hw. unfold onReader.
  destruct (isTarReaderEmpty_rest s2 more Hs2) as [s3 Hem].
  rewrite Hem. exists s3, f2.
  destruct (fill_pages_spec m overwrite bl (contents f)) as [Hpg Hj]; [done|done|apply (inc_pages _ _ Hok)|].
  rewrite Hf2. split; [|split; [done|]].
  - destruct (decide (more = [])); [by rewrite bool_decide_eq_true_2|by rewrite bool_decide_eq_false_2].
  - intros i Hi. rewrite Hj. unfold wanted. by rewrite (proj2 (Nat.ltb_lt i m)).
Qed.
End Writing.
