(* ===== verification/IncTheorems.v ===== *)
(** * Making an increment and applying it

    [IncrementalPageReader] reads as one stream of bytes, the increment of the
    blocks it selected ([reader_stream]); applied to an older version of the
    file whose other pages are the same, that stream gives the file that was
    read. *)

From stdpp Require Import gmap sorting.
From S2P Require Import Prelude GoIO GoSort WalRecord WalPage WalFile PagedFile.
From S2P Require Import GoStrings GoPath Timeline DeltaMap IncPages IncSpec.
Open Scope Z_scope.

(** ** Page headers *)

(** What [parsePostgresPageHeader] reads of a page. *)
Definition headerOf (p : list byte) : option PageHeader :=
  match parsePostgresPageHeader (p : bytesReader) with
  | (Ok h, _) => Some h
  | (Err _, _) => None
  end.

(** The page is accepted by a full scan, and it is taken into the increment. *)
Definition acceptable (p : list byte) : bool :=
  match headerOf p with Some h => isValid h || isNew h | None => false end.
Definition changed (since : Z) (p : list byte) : bool :=
  match headerOf p with Some h => negb (isValid h) || (since <=? lsn h) | None => false end.

Lemma ParseMultipleFields_total fields (s : list byte) :
  (list_sum (snd <$> fields) <= length s)%nat ->
  exists xs s', ParseMultipleFieldsFromReader fields (s : bytesReader) = (Ok xs, s') /\
    length xs = length fields.
Proof.
  revert s. induction fields as [|[name w] fields IH]; intros s Hl; [by exists [], s|].
  cbn [fmap list_fmap snd list_sum foldr] in Hl. cbn [ParseMultipleFieldsFromReader].
  unfold rbind. rewrite ParseFrom_ok by (cbn; lia). cbn [avail adv bytesReader_Lawful].
  destruct (IH (drop w s)) as (xs & s' & -> & Hx); [rewrite length_drop; unfold list_sum; lia|].
  unfold rret. eexists _, s'. split; [done|]. cbn. lia.
Qed.

Lemma headerOf_some p : (24 <= length p)%nat -> exists h, headerOf p = Some h.
Proof.
  intros Hl. unfold headerOf, parsePostgresPageHeader, rbind.
  destruct (ParseMultipleFields_total pageHeaderFields p) as (xs & s' & -> & Hx); [change (list_sum _) with 20%nat; lia|].
  do 8 (destruct xs as [|? xs]; [done|]). destruct xs; [|done]. unfold rret. eauto.
Qed.

(** ** The stream of the reader *)

Section Stream.
Context {F : Type} `{LawfulSeeker F}.
Implicit Types r : IncrementalPageReader F.

Definition data r : list byte := bytes_of (file r).

Definition reader_stream r : list byte :=
  Next r ++ concat ((fun b => page (data r) (Z.to_nat b)) <$> Blocks r).

(** The blocks to come are whole pages of the file. *)
Definition reader_ok r : Prop :=
  Forall (fun b => 0 <= b /\ ((Z.to_nat b + 1) * psize <= length (data r))%nat) (Blocks r).

Lemma AdvanceFileReader_ok r b blocks :
  reader_ok r -> Blocks r = b :: blocks ->
  exists f, AdvanceFileReader r =
    (None, mkPageReader f (FileSize r) (Lsn r) (page (data r) (Z.to_nat b)) blocks) /\
    bytes_of f = data r.
Proof.
  intros Hr Hb. unfold reader_ok in Hr. rewrite Hb in Hr. apply Forall_cons in Hr as [[Hb0 Hl] Hr].
  unfold AdvanceFileReader. rewrite Hb. cbn [withBlocks file].
  replace (b * DatabasePageSize) with (Z.of_nat (Z.to_nat b * psize))
    by (by rewrite Nat2Z.inj_mul, psize_Z, Z2Nat.id).
  destruct (seek_ok (file r) (Z.to_nat b * psize)) as (f & -> & Ha & Hf).
  rewrite ReadFull_ok by (rewrite Ha, length_drop; unfold data in Hl; lia). rewrite Ha.
  exists (adv f psize). split; [done|]. by rewrite bytes_adv.
Qed.

Lemma readLoop_stream fuel : forall r n acc, (length (Blocks r) < fuel)%nat -> reader_ok r ->
  exists r', readLoop fuel r n acc =
    (acc ++ take n (reader_stream r), (if (n <=? length (reader_stream r))%nat then None else Some EOF), r') /\
    reader_stream r' = drop n (reader_stream r) /\ reader_ok r' /\ (length (Blocks r') <= length (Blocks r))%nat.
Proof.
  induction fuel as [|fuel IH]; intros r n acc Hf Hr; [lia|]. cbn [readLoop].
  set (r1 := withNext r (drop (length (take n (Next r))) (Next r))).
  destruct (n - length (take n (Next r)) =? 0)%nat eqn:En; bool_to_prop.
  - exists r1. rewrite length_take in En. unfold reader_stream. rewrite length_app.
    rewrite (proj2 (Nat.leb_le _ _)) by lia. split_and!; [|  |done|done].
    + rewrite take_app_le by lia. done.
    + unfold r1. cbn [withNext Next Blocks data file]. rewrite length_take, Nat.min_l by lia.
      rewrite drop_app_le by lia. done.
  - rewrite length_take in En. assert (length (Next r) < n)%nat as Hn by lia.
    rewrite take_ge by lia. unfold DrainMoreData. change (Blocks r1) with (Blocks r).
    destruct (Blocks r) as [|b blocks] eqn:Eb.
    + exists r1. unfold reader_stream. rewrite Eb. cbn [fmap list_fmap concat]. rewrite app_nil_r.
      rewrite (proj2 (Nat.leb_gt _ _)) by lia. rewrite take_ge, drop_ge by lia.
      unfold r1, reader_ok. cbn [withNext Next Blocks]. rewrite length_take, Nat.min_r, drop_all, Eb by lia.
      by split_and!.
    + assert (reader_ok r1) as Hr1 by done.
      destruct (AdvanceFileReader_ok r1 b blocks Hr1 Eb) as (f & -> & Hd).
      change (data r1) with (data r) in *. unfold reader_ok in Hr. rewrite Eb in Hr.
      apply Forall_cons in Hr as [[Hb0 Hl] Hr].
      destruct (IH (mkPageReader f (FileSize r1) (Lsn r1) (page (data r) (Z.to_nat b)) blocks) (n - length (Next r))%nat (acc ++ Next r))
        as (r' & -> & Hs' & Hr' & Hb'); [cbn in *; lia|unfold reader_ok, data in *; cbn; by rewrite Hd|].
      assert (reader_stream r = Next r ++ reader_stream
        (mkPageReader f (FileSize r1) (Lsn r1) (page (data r) (Z.to_nat b)) blocks)) as Hst.
      { unfold reader_stream, data. rewrite Eb. cbn [Next Blocks file fmap list_fmap concat]. by rewrite Hd. }
      exists r'. rewrite Hst, length_app, take_app_ge, drop_app_ge, <- app_assoc by lia.
      cbn in Hb'. split_and!; [|done|done|cbn; lia]. f_equal. f_equal.
      destruct (_ <=? _)%nat eqn:E1, (n <=? _)%nat eqn:E2; bool_to_prop; done || lia.
Qed.

Lemma ReadAll_stream fuel : forall r, reader_ok r -> (length (reader_stream r) < fuel)%nat ->
  exists r', ReadAll fuel r = (reader_stream r, None, r').
Proof.
  induction fuel as [|fuel IH]; intros r Hr Hf; [lia|]. cbn [ReadAll].
  change (Read r 512) with (readLoop (S (length (Blocks r))) r 512 []).
  destruct (readLoop_stream (S (length (Blocks r))) r 512 []) as (r' & -> & Hs & Hr' & _); [lia|done|].
  destruct (512 <=? length (reader_stream r))%nat eqn:E; bool_to_prop.
  - destruct (IH r' Hr') as [r'' ->]; [rewrite Hs, length_drop; lia|].
    exists r''. rewrite Hs. cbn [app]. by rewrite take_drop.
  - exists r'. cbn [app]. by rewrite take_ge by lia.
Qed.
End Stream.

(** ** The blocks the reader selects *)

Section Select.
Context {F : Type} `{LawfulSeeker F}.
Implicit Types r : IncrementalPageReader F.

Lemma SelectNewValidPage_ok r p b : length p = psize ->
  SelectNewValidPage r p b =
    if acceptable p then (Ok true, if changed (Lsn r) p then withBlocks r (Blocks r ++ [b]) else r)
    else (Ok false, r).
Proof.
  intros Hp. destruct (headerOf_some p) as [h Hh]; [pose proof psize_pos; lia|].
  unfold SelectNewValidPage, acceptable, changed. rewrite Hh. unfold headerOf in Hh.
  destruct (parsePostgresPageHeader (p : bytesReader)) as [[h0|e] s]; simplify_eq.
  destruct (isValid h), (isNew h); cbn [andb orb negb]; try done; by destruct (Lsn r <=? lsn h).
Qed.

(** The blocks of a full scan from block [i] on. *)
Definition scanned (since : Z) (f : list byte) (i k : nat) : list Z :=
  Z.of_nat <$> List.filter (fun j => changed since (page f j)) (seq i k).

Lemma fullScanLoop_ok k : forall fuel r i f,
  (k < fuel)%nat -> pages_of f (i + k) -> Z.of_nat (i + k) < 2 ^ 32 ->
  avail (file r) = drop (i * psize) f ->
  (forall j, (i <= j < i + k)%nat -> acceptable (page f j) = true) ->
  exists g, fullScanLoop fuel r (Z.of_nat i) =
    (None, mkPageReader g (FileSize r) (Lsn r) (Next r) (Blocks r ++ scanned (Lsn r) f i k)) /\
    bytes_of g = bytes_of (file r).
Proof.
  induction k as [|k IH]; intros fuel r i f Hf Hp Hw Ha Hok.
  all: destruct fuel as [|fuel]; [lia|]; cbn [fullScanLoop]; pose proof psize_pos.
  - rewrite ReadFull_eof; [|lia|rewrite Ha; apply drop_ge; unfold pages_of in Hp; lia].
    exists (file r). rewrite app_nil_r. by destruct r.
  - assert (length (page f i) = psize) as Hl by (apply page_length; unfold pages_of in Hp; nia).
    rewrite ReadFull_ok by (rewrite Ha, length_drop; unfold pages_of in Hp; nia). rewrite Ha.
    change (take psize (drop (i * psize) f)) with (page f i).
    rewrite SelectNewValidPage_ok, Hok by (done || lia).
    rewrite wrap_id by (unfold in_width; lia). replace (Z.of_nat i + 1) with (Z.of_nat (S i)) by lia.
    set (r1 := withFile r (adv (file r) psize)).
    assert (forall bs, exists g, fullScanLoop fuel (withBlocks r1 bs) (Z.of_nat (S i)) =
      (None, mkPageReader g (FileSize r) (Lsn r) (Next r) (bs ++ scanned (Lsn r) f (S i) k)) /\
      bytes_of g = bytes_of (file r)) as Hrec.
    { intros bs. destruct (IH fuel (withBlocks r1 bs) (S i) f) as (g & -> & Hg); [lia| | | | |].
      - by replace (S i + k)%nat with (i + S k)%nat by lia.
      - lia.
      - cbn. rewrite avail_adv, Ha, drop_drop. f_equal. lia.
      - intros j Hj. apply Hok. lia.
      - exists g. split; [done|]. rewrite Hg. apply bytes_adv. }
    unfold scanned at 1. cbn [seq List.filter]. change (Lsn r1) with (Lsn r).
    destruct (changed (Lsn r) (page f i)).
    + cbn [fmap list_fmap]. destruct (Hrec (Blocks r1 ++ [Z.of_nat i])) as (g & -> & Hg).
      exists g. by rewrite <- app_assoc.
    + destruct (Hrec (Blocks r1)) as (g & Hg1 & Hg). exists g. by split.
Qed.

(** The first page that is not acceptable stops the scan. *)
Lemma fullScanLoop_invalid k : forall fuel r i f,
  (k < fuel)%nat -> ((i + k + 1) * psize <= length f)%nat -> Z.of_nat (i + k) + 1 < 2 ^ 32 ->
  avail (file r) = drop (i * psize) f ->
  (forall j, (i <= j < i + k)%nat -> acceptable (page f j) = true) ->
  acceptable (page f (i + k)) = false ->
  exists r', fullScanLoop fuel r (Z.of_nat i) = (Some (InvalidBlockError (Z.of_nat (i + k))), r').
Proof.
  induction k as [|k IH]; intros fuel r i f Hf Hp Hw Ha Hok Hbad.
  all: destruct fuel as [|fuel]; [lia|]; cbn [fullScanLoop]; pose proof psize_pos.
  all: assert (length (page f i) = psize) as Hl by (apply page_length; nia).
  all: rewrite ReadFull_ok by (rewrite Ha, length_drop; nia); rewrite Ha.
  all: change (take psize (drop (i * psize) f)) with (page f i); rewrite SelectNewValidPage_ok by done.
  - rewrite Nat.add_0_r in *. rewrite Hbad. eauto.
  - rewrite Hok by lia. rewrite wrap_id by (unfold in_width; lia).
    replace (Z.of_nat i + 1) with (Z.of_nat (S i)) by lia.
    replace (i + S k)%nat with (S i + k)%nat in * by lia.
    destruct (changed _ _); apply (IH fuel _ (S i) f); try done; try lia;
      try (intros j Hj; apply Hok; lia); cbn; rewrite avail_adv, Ha, drop_drop; f_equal; lia.
Qed.

(** The blocks of a delta map that lie within the file. *)
Lemma DeltaBitmapInitialize_ok {B} `{BitmapLaws B} r (bitmap : B) n :
  FileSize r = Z.of_nat (n * psize) -> Forall (fun b => 0 <= b < 2 ^ 32 - 1) (ToArray bitmap) ->
  DeltaBitmapInitialize r bitmap =
    withBlocks r (Blocks r ++ List.filter (fun b => b <? Z.of_nat n) (ToArray bitmap)).
Proof.
  intros Hn Hb. unfold DeltaBitmapInitialize. pose proof (array_sorted bitmap) as Hs.
  revert r Hn. induction (ToArray bitmap) as [|b bs IH]; intros r Hn; cbn [List.filter].
  { rewrite app_nil_r. by destruct r. }
  apply Forall_cons in Hb as [Hb Hbs]. apply StronglySorted_inv in Hs as [Hs Hlt].
  assert (fitsIntoFile r b = (b <? Z.of_nat n)) as ->.
  { unfold fitsIntoFile. rewrite Hn, Nat2Z.inj_mul, psize_val, wrap_id by (unfold in_width; lia).
    unfold DatabasePageSize, BlockSize. destruct (b <? Z.of_nat n) eqn:E; bool_to_prop;
      [apply Z.leb_le|apply Z.leb_gt]; lia. }
  destruct (b <? Z.of_nat n) eqn:E; bool_to_prop.
  - rewrite (IH Hbs Hs (withBlocks r (Blocks r ++ [b]))) by done.
    unfold withBlocks. cbn [file FileSize Lsn Next Blocks]. by rewrite <- app_assoc.
  - assert (List.filter (fun b => b <? Z.of_nat n) bs = []) as ->.
    { apply filter_all_false. intros x Hx. rewrite Forall_forall in Hlt.
      apply Z.ltb_ge. specialize (Hlt x Hx). lia. }
    rewrite app_nil_r. by destruct r.
Qed.
End Select.

(** ** The increment that is read *)

Section Increment.
Context {F : Type} `{LawfulSeeker F} {B : Type} `{BitmapLaws B}.
Implicit Types r : IncrementalPageReader F.

Definition selected (deltaBitmap : option B) (since : Z) (f : list byte) (n : nat) : list Z :=
  match deltaBitmap with
  | None => scanned since f 0 n
  | Some bitmap => List.filter (fun b => b <? Z.of_nat n) (ToArray bitmap)
  end.

(** What a scan of every page, or a delta map, must be like. *)
Definition readable (deltaBitmap : option B) (f : list byte) (n fuel : nat) : Prop :=
  match deltaBitmap with
  | None => (n < fuel)%nat /\ forall i, (i < n)%nat -> acceptable (page f i) = true
  | Some bitmap => Forall (fun b => 0 <= b < 2 ^ 32 - 1) (ToArray bitmap)
  end.

(** A page is in the increment. *)
Definition taken (deltaBitmap : option B) (since : Z) (f : list byte) (i : nat) : Prop :=
  match deltaBitmap with
  | None => changed since (page f i) = true
  | Some bitmap => Z.of_nat i ∈ ToArray bitmap
  end.

Definition numberedOf (f : list byte) (blocks : list Z) : numbered :=
  (fun b => (Z.to_nat b, page f (Z.to_nat b))) <$> blocks.

Lemma selected_in bm since f n fuel i : readable bm f n fuel -> (i < n)%nat ->
  Z.of_nat i ∈ selected bm since f n <-> taken bm since f i.
Proof.
  intros _ Hi. destruct bm as [bitmap|]; cbn [selected taken].
  - rewrite elem_of_filter_b.
    split; [by intros [_ ?]|intros Hb; split; [apply Z.ltb_lt; lia|done]].
  - unfold scanned. rewrite list_elem_of_fmap. split.
    + intros (j & ->%Nat2Z.inj & Hj). by apply elem_of_filter_b in Hj as [? _].
    + intros Hc. exists i. split; [done|]. rewrite elem_of_filter_b.
      split; [done|apply elem_of_seq; lia].
Qed.

Lemma selected_range bm since f n fuel : readable bm f n fuel ->
  Forall (fun b => 0 <= b < Z.of_nat n) (selected bm since f n).
Proof.
  intros Hr. apply Forall_forall. intros b Hb. destruct bm as [bitmap|]; cbn [selected readable] in *.
  - rewrite elem_of_filter_b in Hb. destruct Hb as [Hlt Hb].
    rewrite Forall_forall in Hr. specialize (Hr b Hb). bool_to_prop. lia.
  - unfold scanned in Hb. apply list_elem_of_fmap in Hb as (j & -> & Hj).
    rewrite elem_of_filter_b in Hj. destruct Hj as [_ Hj%elem_of_seq]. lia.
Qed.

Lemma selected_sorted bm since f n : StronglySorted Z.lt (selected bm since f n).
Proof.
  destruct bm as [bitmap|]; cbn [selected].
  - apply StronglySorted_filter_b, array_sorted.
  - unfold scanned. generalize 0%nat. induction n as [|n IH]; intros i; cbn [seq List.filter]; [constructor|].
    destruct (changed _ _); [|apply IH]. cbn [fmap list_fmap]. constructor; [apply IH|].
    apply Forall_forall. intros b Hb. apply list_elem_of_fmap in Hb as (j & -> & Hj).
    rewrite elem_of_filter_b in Hj. destruct Hj as [_ Hj%elem_of_seq]. lia.
Qed.

Lemma numberedOf_ok f n blocks : pages_of f n -> Z.of_nat n < 2 ^ 30 ->
  StronglySorted Z.lt blocks -> Forall (fun b => 0 <= b < Z.of_nat n) blocks ->
  increment_ok n (numberedOf f blocks).
Proof.
  intros Hf Hn Hs Hr. constructor; [done| | |].
  all: unfold numberedOf; rewrite <- list_fmap_compose; unfold compose; cbn [fst snd].
  - induction Hs as [|b bs Hs IH Hb]; [constructor|]. apply Forall_cons in Hr as [Hr Hrs].
    cbn [fmap list_fmap]. constructor; [by apply IH|]. apply Forall_fmap. rewrite Forall_forall in *.
    intros x Hx. cbn. specialize (Hb x Hx). specialize (Hrs x Hx). lia.
  - apply Forall_fmap. eapply Forall_impl; [exact Hr|]. intros b Hb. cbn in *. lia.
  - apply Forall_fmap. eapply Forall_impl; [exact Hr|]. intros b Hb. cbn in *.
    apply page_length. unfold pages_of in Hf. nia.
Qed.

Lemma lookup_numberedOf f blocks i :
  Forall (fun b => 0 <= b) blocks ->
  lookup_page_of (numberedOf f blocks) i = if decide (Z.of_nat i ∈ blocks) then Some (page f i) else None.
Proof.
  intros Hp. induction Hp as [|b bs Hb Hbs IH]; [by rewrite decide_False by apply not_elem_of_nil|].
  cbn [numberedOf fmap list_fmap]. rewrite lookup_page_cons. destruct (decide (Z.to_nat b = i)) as [<-|Hne].
  - rewrite Z2Nat.id by done. by rewrite decide_True by by left.
  - unfold numberedOf in IH. rewrite IH. destruct (decide (Z.of_nat i ∈ bs)) as [Hi|Hi].
    + by rewrite decide_True by by right.
    + rewrite decide_False; [done|]. intros [Hi'|Hi']%elem_of_cons; [lia|done].
Qed.

Lemma diff_bytes f blocks : Forall (fun b => 0 <= b) blocks ->
  (blocks ≫= le_enc 4) = diffMapOf (numberedOf f blocks).*1.
Proof.
  intros Hp. unfold diffMapOf, numberedOf. rewrite <- list_fmap_compose. unfold compose. cbn [fst].
  induction Hp as [|b bs Hb Hbs IH]; [done|]. cbn [mbind list_bind fmap list_fmap] in *.
  rewrite IH. by rewrite Z2Nat.id.
Qed.

Lemma concat_pages_length (ps : list (list byte)) : Forall (fun p => length p = psize) ps ->
  length (concat ps) = (length ps * psize)%nat.
Proof.
  induction 1 as [|p ps Hp Hps IH]; [done|]. cbn [concat length]. rewrite length_app, Hp, IH. lia.
Qed.

(** [initialize] makes the reader of the increment, and its size. *)
Lemma initialize_ok deltaBitmap r f n fuel :
  pages_of f n -> Z.of_nat n < 2 ^ 30 -> FileSize r = Z.of_nat (length f) ->
  bytes_of (file r) = f -> avail (file r) = f -> readable deltaBitmap f n fuel ->
  let bl := numberedOf f (selected deltaBitmap (Lsn r) f n) in
  exists r', initialize fuel deltaBitmap r = (Ok (Z.of_nat (length (increment n bl))), r') /\
    reader_stream r' = increment n bl /\ reader_ok r' /\ increment_ok n bl.
Proof.
  intros Hf Hn Hsz Hby Hav Hrd bl.
  pose proof (selected_range _ (Lsn r) _ _ _ Hrd) as Hrg.
  set (blocks := selected deltaBitmap (Lsn r) f n) in *.
  assert (increment_ok n bl) as Hok by (by apply numberedOf_ok; [| |apply selected_sorted|]).
  pose proof (increment_ok_length _ _ Hok) as Hlen.
  assert (length bl = length blocks) as Hbl by apply length_fmap. rewrite Hbl in Hlen.
  assert (Forall (fun b => 0 <= b) blocks) as Hpos.
  { eapply Forall_impl; [exact Hrg|]. cbn. lia. }
  pose proof (page_count_wrap _ Hn) as Hw.
  assert (exists g, (match deltaBitmap with
     | None => FullScanInitialize fuel (withBlocks r [])
     | Some bitmap => (None, DeltaBitmapInitialize (withBlocks r []) bitmap) end) =
     (None, mkPageReader g (FileSize r) (Lsn r) (Next r) blocks) /\ bytes_of g = f) as (g & Hg & Hgb).
  { destruct deltaBitmap as [bitmap|]; cbn [readable] in Hrd.
    - rewrite (DeltaBitmapInitialize_ok _ _ n) by (cbn [withBlocks FileSize]; rewrite ?Hsz, ?Hf; done).
      by exists (file r).
    - unfold FullScanInitialize. change 0 with (Z.of_nat 0).
      destruct (fullScanLoop_ok n fuel (withBlocks r []) 0 f) as (g & -> & Hg);
        [lia|done|cbn [Nat.add]; change (2 ^ 32) with (2 ^ 30 * 4); lia|done| |].
      + intros j Hj. apply Hrd. lia.
      + exists g. split; [done|]. by rewrite Hg. }
  unfold initialize. rewrite Hg. clear Hg. set (hdr := WriteDiffMapToHeader _ _).
  assert (hdr ++ concat bl.*2 = increment n bl) as Hinc.
  { unfold hdr, WriteDiffMapToHeader, increment. cbn [Blocks FileSize withBlocks]. rewrite Hsz, Hf, Hbl.
    rewrite !wrap_id by (unfold in_width; change (2 ^ 32) with (2 ^ 30 * 4); change (2 ^ 64) with (2 ^ 63 * 2); lia).
    rewrite (diff_bytes f) by done. by rewrite <- !app_assoc. }
  eexists. split; [|split; [|split; [|done]]].
  - f_equal. f_equal. rewrite <- Hinc, length_app, concat_pages_length by apply (inc_pages _ _ Hok).
    cbn [withNext Blocks]. rewrite length_fmap, Hbl. unfold DatabasePageSize, BlockSize.
    rewrite Nat2Z.inj_add, Nat2Z.inj_mul, psize_val. lia.
  - unfold reader_stream, data. cbn [withNext Next Blocks file]. rewrite Hgb, <- Hinc. f_equal. f_equal.
    unfold bl, numberedOf. rewrite <- list_fmap_compose. done.
  - unfold reader_ok, data. cbn [withNext Blocks file]. rewrite Hgb. eapply Forall_impl; [exact Hrg|].
    intros b Hb. cbn in *. split; [lia|]. rewrite Hf. nia.
Qed.
End Increment.

(** ** Reading an increment and applying it *)

Section Roundtrip.
Context {F : Type} `{LawfulSeeker F} {B : Type} `{BitmapLaws B}.
Context {R : Type} `{LawfulReader R} {T : Type} `{LawfulFile T}.

Lemma ReadIncrementalFile_ok (deltaBitmap : option B) (f : F) new n fuel since :
  pages_of new n -> Z.of_nat n < 2 ^ 30 -> bytes_of f = new -> avail f = new ->
  readable deltaBitmap new n fuel ->
  let bl := numberedOf new (selected deltaBitmap since new n) in
  exists r, ReadIncrementalFile fuel f (Z.of_nat (length new)) since deltaBitmap =
      Ok (r, Z.of_nat (length (increment n bl))) /\
    reader_stream r = increment n bl /\ reader_ok r /\ increment_ok n bl.
Proof.
  intros Hp Hn Hb Ha Hr bl. unfold ReadIncrementalFile.
  destruct (initialize_ok deltaBitmap (mkPageReader f (Z.of_nat (length new)) since [] []) new n fuel)
    as (r & -> & Hs & Hok & Hi); [done..|]. by exists r.
Qed.

(** Applied to a file that agrees with [new] outside the increment. *)
Lemma apply_numbered create (deltaBitmap : option B) new n fuel since (s : R) (old : T) :
  pages_of new n -> readable deltaBitmap new n fuel ->
  let bl := numberedOf new (selected deltaBitmap since new n) in
  increment_ok n bl -> avail s = increment n bl ->
  (forall i, (i < n)%nat -> taken deltaBitmap since new i \/
     page (resize (n * psize) zero (contents old)) i = page new i) ->
  exists s' f', ApplyFileIncrement create s (Some old) = (Ok tt, (s', Some f')) /\ contents f' = new.
Proof.
  intros Hp Hr bl Hok Hs Hsame. rewrite <- (app_nil_r (increment n bl)) in Hs.
  destruct (ApplyFileIncrement_ok create n bl [] s old Hok Hs) as (s' & f' & Ha & Hpg & Hi).
  exists s', f'. split; [exact Ha|]. apply (pages_ext _ _ n); [done..|]. intros i Hin. rewrite Hi.
  unfold bl. rewrite lookup_numberedOf by
    (eapply Forall_impl; [by apply (selected_range deltaBitmap since new n fuel)|cbn; lia]).
  specialize (Hsame i Hin). rewrite <- (selected_in deltaBitmap since new n fuel i) in Hsame by done.
  destruct (decide (Z.of_nat i ∈ _)) as [Hd|Hd]; [done|].
  cbn [default from_option]. destruct Hsame as [Hin'|Heq]; [contradiction|exact Heq].
Qed.
End Roundtrip.

(** C3: Reading a data file of whole pages gives an increment of exactly the
    announced size, and applying that increment to an older version of the
    file gives the file that was read, of whatever size the older version is:
    the pages of the old file outside the increment (zeros where it had none)
    are those of the new one. Pages go into the increment by the delta map
    or, without one, by their LSN. *)
Theorem increment_roundtrip {F} `{LawfulSeeker F} {B} `{BitmapLaws B} {R} `{LawfulReader R} {T} `{LawfulFile T}
    (deltaBitmap : option B) (f : F) (old : T) (create : bool) (new : list byte) (n fuel : nat) (since : Z) :
  pages_of new n -> Z.of_nat n < 2 ^ 30 -> bytes_of f = new -> avail f = new ->
  readable deltaBitmap new n fuel ->
  (forall i, (i < n)%nat -> taken deltaBitmap since new i \/
     page (resize (n * psize) zero (contents old)) i = page new i) ->
  exists r size bytes r',
    ReadIncrementalFile fuel f (Z.of_nat (length new)) since deltaBitmap = Ok (r, size) /\
    ReadAll (S (length bytes)) r = (bytes, None, r') /\ size = Z.of_nat (length bytes) /\
    forall s : R, avail s = bytes ->
      exists s' f', ApplyFileIncrement create s (Some old) = (Ok tt, (s', Some f')) /\ contents f' = new.
Proof.
  intros Hp Hn Hb Ha Hr Hsame.
  destruct (ReadIncrementalFile_ok deltaBitmap f new n fuel since Hp Hn Hb Ha Hr) as (r & Hrd & Hs & Hok & Hi).
  set (bytes := increment n _) in *.
  destruct (ReadAll_stream (S (length bytes)) r Hok) as [r' Hall]; [rewrite Hs; lia|]. rewrite Hs in Hall.
  exists r, (Z.of_nat (length bytes)), bytes, r'. split_and!; [done|done|done|].
  intros s Hav. by apply (apply_numbered create deltaBitmap new n fuel since).
Qed.

(** *** Example files *)

(** A page written at LSN [l], filled with [b]. *)
Definition ex_page (l : Z) (b : byte) : list byte :=
  enc_fields [(4%nat, 0); (4%nat, l); (2%nat, 0); (2%nat, 0); (2%nat, 24); (2%nat, 8192);
              (2%nat, 8192); (2%nat, 8196)] ++ replicate (psize - 20) b.

Definition ex_old : list byte := ex_page 10 Byte.x61 ++ ex_page 11 Byte.x62.
Definition ex_new : list byte := ex_page 10 Byte.x61 ++ ex_page 20 Byte.x63 ++ zero_page.

Lemma ex_page_length l b : length (ex_page l b) = psize.
Proof.
  unfold ex_page, enc_fields. cbn [mbind list_bind]. rewrite !length_app, !le_enc_length, length_replicate.
  pose proof psize_pos. cbn. lia.
Qed.

Lemma page_ex_new i : (i < 3)%nat -> page ex_new i =
  match i with 0 => ex_page 10 Byte.x61 | 1 => ex_page 20 Byte.x63 | _ => zero_page end%nat.
Proof.
  intros Hi. unfold ex_new. destruct i as [|i]; [by rewrite page_app_0 by apply ex_page_length|].
  rewrite page_app_S by apply ex_page_length.
  destruct i as [|i]; [by rewrite page_app_0 by apply ex_page_length|].
  rewrite page_app_S by apply ex_page_length. destruct i as [|i]; [|lia].
  rewrite page_0. apply take_ge. by rewrite zero_page_length.
Qed.

Lemma increment_roundtrip_witness :
  exists r size bytes r',
    ReadIncrementalFile 9 (Open ex_new) (Z.of_nat (length ex_new)) 15 (@None (gset Z)) = Ok (r, size) /\
    ReadAll (S (length bytes)) r = (bytes, None, r') /\ size = Z.of_nat (length bytes) /\
    forall s : bytesReader, avail s = bytes ->
      exists s' f', ApplyFileIncrement false s (Some (ex_old : memFile)) = (Ok tt, (s', Some f')) /\
        contents f' = ex_new.
Proof.
  apply (increment_roundtrip (@None (gset Z)) (Open ex_new) (ex_old : memFile) false ex_new 3 9 15).
  - unfold pages_of, ex_new. rewrite !length_app, !ex_page_length, zero_page_length. lia.
  - lia.
  - done.
  - done.
  - split; [lia|]. intros i Hi. rewrite page_ex_new by done.
    do 3 (destruct i as [|i]; [by vm_compute|]). lia.
  - intros i Hi. cbn [taken]. rewrite page_ex_new by done. destruct i as [|i].
    + right. rewrite page_resize_old; [by apply page_app_0, ex_page_length|lia|].
      change (contents ex_old) with ex_old. unfold ex_old. rewrite length_app, !ex_page_length. lia.
    + left. do 2 (destruct i as [|i]; [by vm_compute|]). lia.
Defined.
