(* ===== verification/GoFilepath.v ===== *)
(** * Paths of files

    What the program uses of Go's [path/filepath] and [strings] on paths, and
    the paths they meet: absolute paths, built of their elements
    ([absPath]). *)

From S2P Require Import Prelude GoStrings GoPath.

(** ** [filepath.Rel] *)

Definition pathElements (path : string) : list string :=
  List.filter (fun e => negb (bool_decide (e = ""))) (splitOn slash path).

Fixpoint dropCommon (base targ : list string) : list string * list string :=
  match base, targ with
  | b :: base', t :: targ' => if bool_decide (b = t) then dropCommon base' targ' else (base, targ)
  | _, _ => (base, targ)
  end.

Definition Rel (basepath targpath : string) : option string :=
  let base := Clean basepath in
  let targ := Clean targpath in
  if bool_decide (targ = base) then Some "."
  else
    let base := if bool_decide (base = ".") then "" else base in
    if negb (Bool.eqb (String.prefix "/" base) (String.prefix "/" targ)) then None
    else
      let '(b, t) := dropCommon (pathElements base) (pathElements targ) in
      match b with
      | b0 :: _ => if bool_decide (b0 = "..") then None
                   else Some (String.concat "/" (((fun _ => "..") <$> b) ++ t))
      | [] => Some (String.concat "/" t)
      end.

(** [strings.TrimPrefix] *)
Definition TrimPrefix (s p : string) : string := if HasPrefix s p then sdrop (slen p) s else s.

(** ** Absolute paths *)

Definition absPath (es : list string) : string := foldr (fun e p => String slash (e +s p)) "" es.

Definition simple (e : string) : bool :=
  negb (bool_decide (e = "")) && negb (bool_decide (e = ".")) && negb (bool_decide (e = "..")) && allIn notSlash e.

Lemma append_nil_r s : s +s "" = s.
Proof. induction s as [|c s IH]; [done|]. cbn. by rewrite IH. Qed.

Lemma absPath_app es es' : absPath (es ++ es') = absPath es +s absPath es'.
Proof.
  induction es as [|e es IH]; [done|]. cbn [absPath foldr app String.append]. fold (absPath (es ++ es')). rewrite IH.
  by rewrite app_assoc_s.
Qed.

Lemma simple_ok e : simple e = true -> e <> "" /\ e <> "." /\ e <> ".." /\ allIn notSlash e = true.
Proof. unfold simple. intros Hs. by bool_to_prop. Qed.

Lemma splitOn_element e es : simple e = true ->
  splitOn slash (absPath es) = "" :: es -> splitOn slash (e +s absPath es) = e :: es.
Proof.
  intros (_ & _ & _ & He)%simple_ok Hes. destruct es as [|e' es].
  - cbn. rewrite append_nil_r. by apply splitOn_noslash.
  - cbn [absPath foldr] in *. rewrite splitOn_app, splitOn_noslash by done. cbn [app]. f_equal.
    cbn [splitOn] in Hes. rewrite bool_decide_eq_true_2 in Hes by done. by injection Hes.
Qed.

Lemma splitOn_absPath es : Forall (fun e => simple e = true) es -> splitOn slash (absPath es) = "" :: es.
Proof.
  induction 1 as [|e es He Hes IH]; [done|]. cbn [absPath foldr splitOn]. rewrite bool_decide_eq_true_2 by done.
  f_equal. by apply splitOn_element.
Qed.

Lemma absPath_inj es es' : Forall (fun e => simple e = true) es -> Forall (fun e => simple e = true) es' ->
  absPath es = absPath es' -> es = es'.
Proof. intros He He' E. apply (f_equal (splitOn slash)) in E. rewrite !splitOn_absPath in E by done. by injection E. Qed.

Lemma cleanElements_simple es : forall stack, Forall (fun e => simple e = true) es ->
  cleanElements true es stack = rev es ++ stack.
Proof.
  induction es as [|e es IH]; intros stack Hes; [done|]. apply Forall_cons in Hes as [He Hes].
  apply simple_ok in He as (H1 & H2 & H3 & _). cbn [cleanElements rev].
  rewrite !bool_decide_eq_false_2 by done. cbn [orb]. rewrite IH by done. by rewrite <- app_assoc.
Qed.

Lemma concat_absPath es : es <> [] -> "/" +s String.concat "/" es = absPath es.
Proof.
  induction es as [|e es IH]; [done|]. intros _. destruct es as [|e' es].
  - cbn. by rewrite append_nil_r.
  - change (String.concat "/" (e :: e' :: es)) with (e +s "/" +s String.concat "/" (e' :: es)).
    rewrite IH by done. done.
Qed.

Lemma Clean_absPath es : es <> [] -> Forall (fun e => simple e = true) es -> Clean (absPath es) = absPath es.
Proof.
  intros Hne Hes. unfold Clean. rewrite splitOn_absPath by done.
  assert (String.prefix "/" (absPath es) = true) as ->.
  { destruct es; [done|]. cbn [absPath foldr]. apply (HasPrefix_app "/"). }
  change (cleanElements true ("" :: es) []) with (cleanElements true es []).
  rewrite cleanElements_simple, app_nil_r, rev_involutive by done. rewrite concat_absPath by done.
  rewrite bool_decide_eq_false_2; [done|]. by destruct es.
Qed.

Lemma Join_absPath es e : es <> [] -> Forall (fun e => simple e = true) es -> simple e = true ->
  Join (absPath es) e = absPath (es ++ [e]).
Proof.
  intros Hne Hes He. unfold Join. rewrite bool_decide_eq_false_2 by by destruct es.
  assert (absPath es +s "/" +s e = absPath (es ++ [e])) as ->.
  { rewrite absPath_app. cbn [absPath foldr]. by rewrite append_nil_r. }
  apply Clean_absPath; [by destruct es|]. apply Forall_app. by split; [|constructor].
Qed.

Lemma cleanElements_app es rest : forall stack, Forall (fun e => simple e = true) es ->
  cleanElements true (es ++ rest) stack = cleanElements true rest (rev es ++ stack).
Proof.
  induction es as [|e es IH]; intros stack Hes; [done|]. apply Forall_cons in Hes as [He Hes].
  apply simple_ok in He as (H1 & H2 & H3 & _). cbn [app cleanElements rev].
  rewrite !bool_decide_eq_false_2 by done. cbn [orb]. rewrite IH by done. by rewrite <- List.app_assoc.
Qed.

Lemma Join_below es rel : es <> [] -> Forall (fun e => simple e = true) es -> Forall (fun e => simple e = true) rel ->
  Join (absPath es) (absPath rel) = absPath (es ++ rel).
Proof.
  intros Hne Hes Hrel. unfold Join. rewrite bool_decide_eq_false_2 by by destruct es.
  assert (absPath es +s "/" +s absPath rel = absPath es +s String slash (absPath rel)) as -> by done.
  unfold Clean. rewrite splitOn_app, !splitOn_absPath by done.
  assert (String.prefix "/" (absPath es +s String slash (absPath rel)) = true) as ->.
  { destruct es; [done|]. cbn [absPath foldr String.append]. apply (HasPrefix_app "/"). }
  cbn [app]. change (cleanElements true ("" :: es ++ "" :: rel) []) with (cleanElements true (es ++ "" :: rel) []).
  rewrite cleanElements_app by done. rewrite app_nil_r.
  change (cleanElements true ("" :: rel) (rev es)) with (cleanElements true rel (rev es)).
  rewrite cleanElements_simple, <- rev_app_distr, rev_involutive, concat_absPath by (done || by destruct es).
  rewrite bool_decide_eq_false_2; [done|]. by destruct es.
Qed.

Lemma Base_absPath es e : simple e = true -> Base (absPath (es ++ [e])) = e.
Proof.
  intros (Hne & _ & _ & He)%simple_ok. unfold Base. rewrite absPath_app. cbn [absPath foldr].
  rewrite append_nil_r.
  assert (stripSlashes (absPath es +s String slash e) = absPath es +s String slash e) as ->.
  { change (String slash e) with (String slash "" +s e). rewrite <- app_assoc_s. by apply stripSlashes_app. }
  rewrite !bool_decide_eq_false_2 by by destruct es. rewrite Split_app by done. done.
Qed.

Lemma pathElements_absPath es : Forall (fun e => simple e = true) es -> pathElements (absPath es) = es.
Proof.
  intros Hes. unfold pathElements. rewrite splitOn_absPath by done.
  change (List.filter (fun e => negb (bool_decide (e = ""))) es = es).
  induction Hes as [|e es He Hes IH]; [done|]. apply simple_ok in He as (Hne & _). cbn [List.filter].
  rewrite bool_decide_eq_false_2 by done. cbn [negb]. by rewrite IH.
Qed.

Lemma dropCommon_app ds rel : dropCommon ds (ds ++ rel) = ([], rel).
Proof. induction ds as [|d ds IH]; [by destruct rel|]. cbn. by rewrite bool_decide_eq_true_2. Qed.

Lemma absPath_rooted es : es <> [] -> String.prefix "/" (absPath es) = true.
Proof. destruct es; [done|]. intros _. cbn [absPath foldr]. apply (HasPrefix_app "/"). Qed.

Lemma Rel_below ds rel : ds <> [] -> Forall (fun e => simple e = true) (ds ++ rel) ->
  Rel (absPath ds) (absPath (ds ++ rel)) = Some (match rel with [] => "." | _ => String.concat "/" rel end).
Proof.
  intros Hne Hs. assert (Hs' := Hs). apply Forall_app in Hs' as [Hds Hrel].
  assert (ds ++ rel <> []) as Hne' by by destruct ds.
  unfold Rel. rewrite !Clean_absPath by done. destruct rel as [|e rel].
  - rewrite app_nil_r. by rewrite bool_decide_eq_true_2.
  - rewrite bool_decide_eq_false_2.
    2:{ intros E. apply absPath_inj in E; [|done..]. apply (f_equal length) in E. rewrite length_app in E. cbn in E. lia. }
    rewrite (bool_decide_eq_false_2 (absPath ds = ".")) by (destruct ds as [|d ds]; [done|by intros [=]]).
    rewrite !absPath_rooted by done. cbn [Bool.eqb negb].
    rewrite !pathElements_absPath by done. by rewrite dropCommon_app.
Qed.

Lemma stripSlashes_absPath es : Forall (fun e => simple e = true) es -> stripSlashes (absPath es) = absPath es.
Proof.
  intros Hs. destruct (rev es) as [|e es'] eqn:E.
  - apply (f_equal (@rev string)) in E. rewrite rev_involutive in E. by subst.
  - apply (f_equal (@rev string)) in E. rewrite rev_involutive in E. cbn [rev] in E. subst.
    apply Forall_app in Hs as [_ Hs]. apply Forall_cons in Hs as [(Hne & _ & _ & He)%simple_ok _].
    rewrite absPath_app. cbn [absPath foldr]. rewrite append_nil_r.
    change (String slash e) with (String slash "" +s e). rewrite <- app_assoc_s. by apply stripSlashes_app.
Qed.

Lemma TrimPrefix_app p s : TrimPrefix (p +s s) p = s.
Proof. unfold TrimPrefix. rewrite HasPrefix_app. induction p as [|c p IH]; [done|exact IH]. Qed.
