(* ===== verification/Tablespace.v ===== *)
(** * Tablespaces

    [src/internal/databases/postgres]: [tablespace_spec.go], and of
    [backup.go] and [backup_fetch_handler.go] how a restore makes the links to
    the tablespaces. What is kept in JSON is left out. *)

From stdpp Require Import gmap strings.
From S2P Require Import Prelude GoIO GoStrings GoPath GoFilepath.

Definition TablespaceFolder : string := "pg_tblspc".

Record TablespaceLocation := mkLocation { Location : string; Symlink : string }.

Record TablespaceSpec := mkSpec {
  basePrefix : string;
  tablespaceNames : list string;
  tablespaceLocationMap : gmap string TablespaceLocation
}.

(** [utility.NormalizePath] and [utility.PathsEqual] *)
Definition NormalizePath (path : string) : string := stripSlashes path.
Definition PathsEqual (path1 path2 : string) : bool := bool_decide (NormalizePath path1 = NormalizePath path2).

Definition SanitizePath (path : string) : string := trimLeft path.

Definition IsInDirectory (path directoryPath : string) : bool :=
  match Rel directoryPath path with
  | None => false
  | Some relativePath =>
      bool_decide (relativePath = ".") ||
      bool_decide (NormalizePath (NormalizePath directoryPath +s "/" +s relativePath) = NormalizePath path)
  end.

Definition GetSubdirectoryRelativePath (subdirectoryPath directoryPath : string) : string :=
  NormalizePath (SanitizePath (TrimPrefix subdirectoryPath directoryPath)).

Definition setBasePrefix (spec : TablespaceSpec) (basePrefix : string) : TablespaceSpec :=
  mkSpec (NormalizePath basePrefix) (tablespaceNames spec) (tablespaceLocationMap spec).

Definition NewTablespaceSpec (basePrefix : string) : TablespaceSpec := setBasePrefix (mkSpec "" [] ∅) basePrefix.

Definition specLength (spec : TablespaceSpec) : nat := length (tablespaceNames spec).
Definition specEmpty (spec : TablespaceSpec) : bool := (specLength spec =? 0)%nat.

(** In the order in which Go ranges over the map, which is any. *)
Definition tablespaceLocations (spec : TablespaceSpec) : list TablespaceLocation :=
  (map_to_list (tablespaceLocationMap spec)).*2.

Definition location (spec : TablespaceSpec) (symlinkName : string) : option TablespaceLocation :=
  tablespaceLocationMap spec !! symlinkName.

Definition BasePrefix (spec : TablespaceSpec) : option string :=
  if bool_decide (basePrefix spec = "") then None else Some (basePrefix spec).

Definition addTablespace (spec : TablespaceSpec) (symlinkName actualLocation : string) : TablespaceSpec :=
  mkSpec (basePrefix spec) (tablespaceNames spec ++ [symlinkName])
    (<[symlinkName := mkLocation (NormalizePath actualLocation) (Join TablespaceFolder symlinkName)]>
       (tablespaceLocationMap spec)).

Definition isTablespaceSymlink (spec : TablespaceSpec) (path : string) : res error bool :=
  match BasePrefix spec with
  | None => Err (Wrapf "base prefix not set while working with tablespaces" ForeignError)
  | Some basePrefix =>
      Ok (existsb (fun location => PathsEqual path (Join basePrefix (Symlink location))) (tablespaceLocations spec))
  end.

Definition findTablespaceLocation (spec : TablespaceSpec) (pathInsideTablespace : string) : option TablespaceLocation :=
  head (List.filter (fun location => IsInDirectory pathInsideTablespace (Location location)) (tablespaceLocations spec)).

(** A path in a tablespace becomes the one through the link. *)
Definition makeTablespaceSymlinkPath (spec : TablespaceSpec) (path : string) : res error string :=
  match BasePrefix spec with
  | None => Err (Wrapf "base prefix not set while working with tablespaces" ForeignError)
  | Some basePrefix =>
      if IsInDirectory path basePrefix then Ok path
      else match findTablespaceLocation spec path with
           | None => Err (Wrapf ("tablespace at path " +s path +s " wasn't found") ForeignError)
           | Some location =>
               Ok (Join (Join basePrefix (Symlink location)) (GetSubdirectoryRelativePath path (Location location)))
           end
  end.

(** [os.Symlink(target, link)] among the links of the file system. *)
Definition makeSymlink (target link : string) (links : gmap string string) : option error * gmap string string :=
  match links !! link with
  | Some _ => (Some (Wrapf "file exists" ForeignError), links)
  | None => (None, <[link := target]> links)
  end.

Fixpoint linkLoop (basePrefix : string) (locations : list TablespaceLocation) (links : gmap string string)
    : option error * gmap string string :=
  match locations with
  | [] => (None, links)
  | location :: locations =>
      match makeSymlink (Location location) (Join basePrefix (Symlink location)) links with
      | (Some err, links) => (Some (Wrapf "error creating tablespace symkink" err), links)
      | (None, links) => linkLoop basePrefix locations links
      end
  end.

(** The folders of the tablespaces exist when they are needed. *)
Definition setTablespacePaths (spec : TablespaceSpec) (links : gmap string string)
    : option error * gmap string string :=
  match BasePrefix spec with
  | None => (Some (Wrapf "tablespace specification base path is not set" ForeignError), links)
  | Some basePrefix => linkLoop basePrefix (tablespaceLocations spec) links
  end.

(** The specification given by the user is preferred. *)
Definition chooseTablespaceSpecification (sentinelDtoSpec spec : option TablespaceSpec) : TablespaceSpec :=
  match spec, sentinelDtoSpec with
  | Some spec, _ => spec
  | None, None => mkSpec "" [] ∅
  | None, Some spec => spec
  end.

(** The step of a restore that makes the links. *)
Definition prepareTablespaces (spec : option TablespaceSpec) (links : gmap string string)
    : option error * gmap string string :=
  match spec with
  | Some spec => if specEmpty spec then (None, links) else setTablespacePaths spec links
  | None => (None, links)
  end.

(** ** Links are made once *)

Lemma linkLoop_mono basePrefix locations : forall links err links' link,
  linkLoop basePrefix locations links = (err, links') -> is_Some (links !! link) -> is_Some (links' !! link).
Proof.
  induction locations as [|l ls IH]; intros links err links' link; cbn [linkLoop]; [by intros [= _ <-]|].
  unfold makeSymlink. destruct (links !! Join basePrefix (Symlink l)) eqn:E; [by intros [= _ <-]|].
  intros Hl Hs. eapply IH; [exact Hl|]. destruct (decide (Join basePrefix (Symlink l) = link)) as [<-|Hne];
    [by rewrite lookup_insert_eq|by rewrite lookup_insert_ne].
Qed.

(** A specification with a tablespace cannot be applied a second time: the
    link exists. *)
Lemma setTablespacePaths_again spec links links' :
  tablespaceLocationMap spec <> ∅ -> setTablespacePaths spec links = (None, links') ->
  exists err, setTablespacePaths spec links' = (Some err, links').
Proof.
  unfold setTablespacePaths. destruct (BasePrefix spec) as [base|]; [|done]. intros Hne.
  assert (tablespaceLocations spec <> []) as Hl.
  { unfold tablespaceLocations. intros E. apply fmap_nil_inv in E. by apply map_to_list_empty_iff in E. }
  destruct (tablespaceLocations spec) as [|l ls]; [done|]. cbn [linkLoop].
  destruct (makeSymlink (Location l) (Join base (Symlink l)) links) as [[err|] links1] eqn:Em; [done|].
  unfold makeSymlink in Em. destruct (links !! _) eqn:El; [done|]. injection Em as <-.
  intros Hloop. assert (is_Some (links' !! Join base (Symlink l))) as [t Ht].
  { eapply linkLoop_mono; [exact Hloop|]. by rewrite lookup_insert_eq. }
  unfold makeSymlink. rewrite Ht. by eexists.
Qed.

(** ** Paths in the data directory *)

Lemma NormalizePath_absPath es : Forall (fun e => simple e = true) es -> NormalizePath (absPath es) = absPath es.
Proof. apply stripSlashes_absPath. Qed.

Lemma IsInDirectory_below ds rel : ds <> [] -> Forall (fun e => simple e = true) (ds ++ rel) ->
  IsInDirectory (absPath (ds ++ rel)) (absPath ds) = true.
Proof.
  intros Hne Hs. unfold IsInDirectory. rewrite Rel_below by done. apply orb_true_iff.
  destruct rel as [|e rel]; [by left; apply bool_decide_eq_true_2|right]. apply bool_decide_eq_true_2.
  assert (Hs' := Hs). apply Forall_app in Hs' as [Hds _]. rewrite (NormalizePath_absPath ds) by done.
  rewrite concat_absPath, <- absPath_app by done. done.
Qed.

Lemma GetSubdirectoryRelativePath_below ds rel : Forall (fun e => simple e = true) (ds ++ rel) ->
  "/" +s GetSubdirectoryRelativePath (absPath (ds ++ rel)) (absPath ds) = match rel with [] => "/" | _ => absPath rel end.
Proof.
  intros Hs. unfold GetSubdirectoryRelativePath, SanitizePath. rewrite absPath_app, TrimPrefix_app.
  apply Forall_app in Hs as [_ Hs]. destruct rel as [|e rel]; [done|].
  assert (trimLeft (absPath (e :: rel)) = e +s absPath rel) as ->.
  { cbn [absPath foldr trimLeft]. rewrite bool_decide_eq_true_2 by done. apply Forall_cons in Hs as [(Hne & _ & _ & He)%simple_ok _].
    destruct e as [|c e]; [done|]. cbn in *. unfold notSlash in *. bool_to_prop. by rewrite bool_decide_eq_false_2. }
  pose proof (NormalizePath_absPath (e :: rel) Hs) as Hn. unfold NormalizePath in *. cbn [absPath foldr] in *.
  cbn [stripSlashes] in Hn.
  fold (absPath rel) in *. destruct (stripSlashes (e +s absPath rel)) eqn:E; cbn in Hn |- *; [done|]. by injection Hn as ->.
Qed.

Lemma makeTablespaceSymlinkPath_below spec ds rel : basePrefix spec = absPath ds -> ds <> [] ->
  Forall (fun e => simple e = true) (ds ++ rel) ->
  makeTablespaceSymlinkPath spec (absPath (ds ++ rel)) = Ok (absPath (ds ++ rel)).
Proof.
  intros Hb Hne Hs. unfold makeTablespaceSymlinkPath, BasePrefix. rewrite Hb.
  rewrite bool_decide_eq_false_2 by by destruct ds. by rewrite IsInDirectory_below.
Qed.
