(* ===== verification/Unwrap.v ===== *)
(** * Restoring the files of a backup

    [src/internal/databases/postgres]: [file_unwrapper.go] with the default
    and the catch-up unwrapper, [tar_interpreter.go], [tar_interpreter_new.go]
    and the bookkeeping of [backup_new.go], [fetch_config.go] and
    [backup_fetch_handler.go]. The directory that is restored is the map of
    its regular files by path; directories exist when they are needed, and
    file modes and syncs, which change no contents, are left out. *)

From stdpp Require Import gmap strings.
From S2P Require Import Prelude GoIO GoSort WalRecord WalPage WalFile PagedFile.
From S2P Require Import GoStrings GoPath Timeline DeltaMap Backups BackupMeta Tablespace IncPages.
Open Scope Z_scope.

(** ** [backup_file_description.go] *)

Definition MaxCorruptBlocksInFileDesc : nat := 10.

Record CorruptBlocksInfo := mkCorrupt { CorruptBlocksCount : Z; SomeCorruptBlocks : list Z }.

Record BackupFileDescription := mkFileDescription {
  IsIncremented : bool;
  IsSkipped : bool;
  MTime : Z;
  CorruptBlocks : option CorruptBlocksInfo;
  UpdatesCount : Z
}.

Definition NewBackupFileDescription (isIncremented isSkipped : bool) (modTime : Z) : BackupFileDescription :=
  mkFileDescription isIncremented isSkipped modTime None 0.

(** The slice is sorted; numbers that are equal are the same. *)
Definition SetCorruptBlocks (desc : BackupFileDescription) (corruptBlockNumbers : list Z)
    (storeAllBlocks : bool) : BackupFileDescription :=
  match corruptBlockNumbers with
  | [] => desc
  | _ =>
      let sorted := merge_sort Z.le corruptBlockNumbers in
      mkFileDescription (IsIncremented desc) (IsSkipped desc) (MTime desc)
        (Some (mkCorrupt (Z.of_nat (length sorted))
          (if storeAllBlocks then sorted else take MaxCorruptBlocksInFileDesc sorted)))
        (UpdatesCount desc)
  end.

Notation BackupFileList := (gmap string BackupFileDescription).

(** ** [pagefile.go]: which files are paged *)

Definition isPagedFile (isDir : bool) (size : Z) (filePath : string) : bool :=
  negb (isDir
    || (negb (Contains filePath DefaultTablespace) && negb (Contains filePath NonDefaultTablespace))
    || (size =? 0)
    || negb (Z.rem size DatabasePageSize =? 0)
    || negb (bool_decide (is_Some (matchPagedFilename (Base filePath))))).

(** ** [file_unwrapper.go] *)

Inductive FileUnwrapperType := DefaultBackupFileUnwrapper | CatchupBackupFileUnwrapper.
Inductive FileUnwrapResultType := Completed | CreatedFromIncrement | WroteIncrementBlocks | Skipped.

Record FileUnwrapResult := mkUnwrapResult { resultType : FileUnwrapResultType; blockCount : Z }.

Definition NewCompletedResult : FileUnwrapResult := mkUnwrapResult Completed 0.
Definition NewCreatedFromIncrementResult (missingBlockCount : Z) : FileUnwrapResult :=
  mkUnwrapResult CreatedFromIncrement missingBlockCount.
Definition NewWroteIncrementBlocksResult (restoredBlockCount : Z) : FileUnwrapResult :=
  mkUnwrapResult WroteIncrementBlocks restoredBlockCount.
Definition NewSkippedResult : FileUnwrapResult := mkUnwrapResult Skipped 0.

Record BackupFileOptions := mkOptions { isIncremented : bool; isPageFile : bool }.

Inductive FileUnwrapper :=
| DefaultFileUnwrapper (options : BackupFileOptions)
| CatchupFileUnwrapper (options : BackupFileOptions).

Definition NewFileUnwrapper (unwrapperType : FileUnwrapperType) (options : BackupFileOptions) : FileUnwrapper :=
  match unwrapperType with
  | DefaultBackupFileUnwrapper => DefaultFileUnwrapper options
  | CatchupBackupFileUnwrapper => CatchupFileUnwrapper options
  end.

Section Unwrapper.
Context {R : Type} `{Reader R} {T : Type} `{OsFile T}.
(** How many reads a file takes at most. *)
Variable copyFuel : nat.

(** The archive and the local file, [None] once it is removed. *)
Notation LM := (RM (R * option T)).

(** A function of the increments, on the local file that is open. *)
Definition onLocal {A} (m : RM (R * T) A) : LM A := fun '(s, file) =>
  match file with
  | None => (Err RuntimePanic, (s, None))
  | Some f => let '(x, (s, f)) := m (s, f) in (x, (s, Some f))
  end.

Definition wrapf {S A} (message : string) (m : RM S A) : RM S A := fun s =>
  let '(x, s) := m s in (res_map_err (Wrapf message) x, s).

(** The size of the local file when it is opened for [ReadAt] and [WriteAt]. *)
Definition NewReadWriterAtFrom : LM Z := fun '(s, file) =>
  match file with
  | None => (Err RuntimePanic, (s, None))
  | Some f => (Stat f, (s, Some f))
  end.

(** [Truncate(0)] and [Seek(0, 0)] *)
Definition clearLocalFile : LM unit := onLocal (onFile (fun f => Truncate f 0)).

(** [io.Copy] to the start of an empty file; a file that cannot be copied
    is removed. *)
Definition writeLocalFile : LM unit := fun '(s, file) =>
  match file with
  | None => (Err RuntimePanic, (s, None))
  | Some f =>
      let '(bytes, err, s) := ReadAll copyFuel s in
      let '(werr, f) := WriteAt f bytes 0 in
      match werr, err with
      | Some e, _ | None, Some e => (Err (Wrapf "Interpret: copy failed" e), (s, None))
      | None, None => (Ok tt, (s, Some f))
      end
  end.

(** [UnwrapNewFile] is the same for both unwrappers. *)
Definition unwrapNewFile (options : BackupFileOptions) : LM FileUnwrapResult :=
  if isIncremented options then
    NewReadWriterAtFrom ;;;
    missingBlockCount <-- wrapf "Interpret: failed to create file from increment" (onLocal CreateFileFromIncrement) ;;
    rret (NewCreatedFromIncrementResult missingBlockCount)
  else
    writeLocalFile ;;;
    rret NewCompletedResult.

Definition UnwrapNewFile (u : FileUnwrapper) : LM FileUnwrapResult :=
  match u with
  | DefaultFileUnwrapper options => unwrapNewFile options
  | CatchupFileUnwrapper options => unwrapNewFile options
  end.

Definition writeIncrement (size : Z) (overwriteExisting : bool) : LM FileUnwrapResult :=
  restoredBlockCount <-- wrapf "Interpret: failed to write increment to file"
    (onLocal (WritePagesFromIncrement size overwriteExisting)) ;;
  rret (NewWroteIncrementBlocksResult restoredBlockCount).

Definition UnwrapExistingFile (u : FileUnwrapper) : LM FileUnwrapResult :=
  match u with
  | DefaultFileUnwrapper options =>
      size <-- NewReadWriterAtFrom ;;
      if isIncremented options then writeIncrement size false
      else if isPageFile options then
        wrapf "Interpret: failed to restore pages for file" (onLocal (RestoreMissingPages size)) ;;;
        rret NewCompletedResult
      else rret NewSkippedResult
  | CatchupFileUnwrapper options =>
      if isIncremented options then
        size <-- NewReadWriterAtFrom ;;
        writeIncrement size true
      else
        clearLocalFile ;;;
        writeLocalFile ;;;
        rret NewCompletedResult
  end.
End Unwrapper.

(** ** [backup_new.go]: the result of a backup's unwrap *)

Record UnwrapResult := mkResult {
  completedFiles : list string;
  createdPageFiles : gmap string Z;
  writtenIncrementFiles : gmap string Z
}.

Definition newUnwrapResult : UnwrapResult := mkResult [] ∅ ∅.

Definition addToCompletedFiles (r : UnwrapResult) (fileName : string) : UnwrapResult :=
  mkResult (completedFiles r ++ [fileName]) (createdPageFiles r) (writtenIncrementFiles r).
Definition addToCreatedPageFiles (r : UnwrapResult) (fileName : string) (blocksToRestoreCount : Z) : UnwrapResult :=
  mkResult (completedFiles r) (<[fileName := blocksToRestoreCount]> (createdPageFiles r)) (writtenIncrementFiles r).
Definition addToWrittenIncrementFiles (r : UnwrapResult) (fileName : string) (writtenBlocksCount : Z) : UnwrapResult :=
  mkResult (completedFiles r) (createdPageFiles r) (<[fileName := writtenBlocksCount]> (writtenIncrementFiles r)).

Definition AddFileUnwrapResult (r : UnwrapResult) (result : FileUnwrapResult) (fileName : string) : UnwrapResult :=
  match resultType result with
  | Skipped => r
  | Completed => addToCompletedFiles r fileName
  | CreatedFromIncrement => addToCreatedPageFiles r fileName (blockCount result)
  | WroteIncrementBlocks => addToWrittenIncrementFiles r fileName (blockCount result)
  end.

(** ** [tar_interpreter.go] and [tar_interpreter_new.go] *)

(** The lists of a backup's sentinel. *)
Record SentinelFiles := mkSentinelFiles {
  Files : BackupFileList;
  TarFileSets : gmap string (list string);
  sfTablespaceSpec : option TablespaceSpec
}.

Section Interpreter.
Context {UserData : Type} {R : Type} `{Reader R} {T : Type} `{OsFile T}.
Variable copyFuel : nat.
Notation Sentinel := (BackupSentinelDto SentinelFiles UserData).
Notation FS := (gmap string T).

Record FileTarInterpreter := mkInterpreter {
  DBDataDirectory : string;
  tiSentinel : Sentinel;
  (** [None] is the nil map, which stands for all files. *)
  FilesToUnwrap : option (gset string);
  tiUnwrapResult : UnwrapResult;
  createNewIncrementalFiles : bool
}.

Definition NewFileTarInterpreter (dbDataDirectory : string) (sentinel : Sentinel)
    (filesToUnwrap : option (gset string)) (createNewIncrementalFiles : bool) : FileTarInterpreter :=
  mkInterpreter dbDataDirectory sentinel filesToUnwrap newUnwrapResult createNewIncrementalFiles.

Definition withUnwrapResult (ti : FileTarInterpreter) (r : UnwrapResult) : FileTarInterpreter :=
  mkInterpreter (DBDataDirectory ti) (tiSentinel ti) (FilesToUnwrap ti) r (createNewIncrementalFiles ti).

(** The file does not have to be unwrapped this time. *)
Definition notWanted (ti : FileTarInterpreter) (name : string) : bool :=
  match FilesToUnwrap ti with
  | None => false
  | Some files => negb (bool_decide (name ∈ files))
  end.

Definition getFileUnwrapper (ti : FileTarInterpreter) (name targetPath : string) (fs : FS)
    : res error FileUnwrapper :=
  let isIncremented := match Files (content (tiSentinel ti)) !! name with
                       | Some fileDescription => IsIncremented fileDescription
                       | None => false
                       end in
  isPageFile ← match fs !! targetPath with
               | Some f => size ← Stat f; Ok (isPagedFile false size targetPath)
               | None => Ok false
               end;
  let options := mkOptions isIncremented isPageFile in
  Ok (NewFileUnwrapper
    (if createNewIncrementalFiles ti then CatchupBackupFileUnwrapper else DefaultBackupFileUnwrapper) options).

(** A removed file is not in the directory any more. *)
Definition putLocal (targetPath : string) (file : option T) (fs : FS) : FS :=
  match file with
  | Some f => <[targetPath := f]> fs
  | None => delete targetPath fs
  end.

Definition unwrapRegularFileNew (ti : FileTarInterpreter) (fileReader : R) (name targetPath : string) (fs : FS)
    : res error unit * (R * FileTarInterpreter * FS) :=
  if notWanted ti name then (Ok tt, (fileReader, ti, fs))
  else
    match getFileUnwrapper ti name targetPath fs with
    | Err err => (Err err, (fileReader, ti, fs))
    | Ok fileUnwrapper =>
        let '(unwrapped, (fileReader, localFile)) :=
          match fs !! targetPath with
          | None => UnwrapNewFile copyFuel fileUnwrapper (fileReader, Some Create)
          | Some f => UnwrapExistingFile copyFuel fileUnwrapper (fileReader, Some f)
          end in
        let fs := putLocal targetPath localFile fs in
        match unwrapped with
        | Err unwrapError => (Err unwrapError, (fileReader, ti, fs))
        | Ok unwrapResult =>
            (Ok tt, (fileReader,
              withUnwrapResult ti (AddFileUnwrapResult (tiUnwrapResult ti) unwrapResult name), fs))
        end
    end.

Definition panicToError {A} (x : res pgError A) : res error A := res_map_err (fun _ => RuntimePanic) x.

Definition unwrapRegularFileOld (ti : FileTarInterpreter) (fileReader : R) (name targetPath : string) (fs : FS)
    : res error unit * (R * FS) :=
  if notWanted ti name then (Ok tt, (fileReader, fs))
  else
    let incremented :=
      match Files (content (tiSentinel ti)) !! name with
      | None => Ok false
      | Some fileDescription =>
          isIncremental ← panicToError (IsIncremental (tiSentinel ti));
          Ok (isIncremental && IsIncremented fileDescription)
      end in
    match incremented with
    | Err err => (Err err, (fileReader, fs))
    | Ok true =>
        let '(x, (fileReader, file)) :=
          ApplyFileIncrement (createNewIncrementalFiles ti) fileReader (fs !! targetPath) in
        (res_map_err (Wrapf "Interpret: failed to apply increment") x, (fileReader, putLocal targetPath file fs))
    | Ok false =>
        let '(x, (fileReader, file)) := writeLocalFile copyFuel (fileReader, Some Create) in
        (x, (fileReader, putLocal targetPath file fs))
    end.
End Interpreter.

(** ** [fetch_config.go] and [backup_fetch_handler.go]: what is left to restore *)

Record FetchConfig := mkFetchConfig { filesToUnwrap : option (gset string); missingBlocks : gmap string Z }.

Definition NewFetchConfig (filesToUnwrap : option (gset string)) : FetchConfig := mkFetchConfig filesToUnwrap ∅.

Definition hasFile (fc : FetchConfig) (filePath : string) : bool :=
  match filesToUnwrap fc with
  | None => false
  | Some files => bool_decide (filePath ∈ files)
  end.

Definition excludeCompletedFile (fc : FetchConfig) (filePath : string) : FetchConfig :=
  mkFetchConfig ((fun files => files ∖ {[ filePath ]}) <$> filesToUnwrap fc) (missingBlocks fc).

Definition setMissing (fc : FetchConfig) (filePath : string) (count : Z) : FetchConfig :=
  mkFetchConfig (filesToUnwrap fc) (<[filePath := count]> (missingBlocks fc)).

(** The files of a map in some order; each touches its own entries only. *)
Definition processCreatedPageFiles (fc : FetchConfig) (createdPageFiles : gmap string Z) : FetchConfig :=
  foldl (fun fc '(filePath, missingBlockCount) =>
    if negb (hasFile fc filePath) then fc
    else if missingBlockCount =? 0 then excludeCompletedFile fc filePath
    else setMissing fc filePath missingBlockCount) fc (map_to_list createdPageFiles).

Definition processWrittenIncrementFiles (fc : FetchConfig) (writtenIncrementFiles : gmap string Z) : FetchConfig :=
  foldl (fun fc '(filePath, restoredBlockCount) =>
    if negb (hasFile fc filePath) then fc
    else match missingBlocks fc !! filePath with
         | None => fc
         | Some missingBlockCount =>
             let missingBlockCount := missingBlockCount - restoredBlockCount in
             if missingBlockCount <=? 0 then excludeCompletedFile fc filePath
             else setMissing fc filePath missingBlockCount
         end) fc (map_to_list writtenIncrementFiles).

Definition excludeCompletedFiles (fc : FetchConfig) (completedFiles : list string) : FetchConfig :=
  foldl excludeCompletedFile fc completedFiles.

Definition SkipRedundantFiles (fc : FetchConfig) (unwrapResult : UnwrapResult) : FetchConfig :=
  let fc := processCreatedPageFiles fc (createdPageFiles unwrapResult) in
  let fc := processWrittenIncrementFiles fc (writtenIncrementFiles unwrapResult) in
  excludeCompletedFiles fc (completedFiles unwrapResult).

Definition PgControlPath : string := "/global/pg_control".
Definition BackupLabelFilename : string := "backup_label".
Definition TablespaceMapFilename : string := "tablespace_map".
Definition UtilityFilePaths : list string := [PgControlPath; BackupLabelFilename; TablespaceMapFilename].

(** The files of an older backup that the newer one needs. A file the newer
    backup does not know panics, unless it is one of the utility files. *)
Definition GetBaseFilesToUnwrap (backupFileStates : BackupFileList) (currentFilesToUnwrap : option (gset string))
    : res pgError (option (gset string)) :=
  baseFilesToUnwrap ←
    foldl (fun base file =>
      base ← base;
      match backupFileStates !! file with
      | None => if bool_decide (file ∈ UtilityFilePaths) then Ok base else Err Panic
      | Some fileDescription =>
          Ok (if IsSkipped fileDescription || IsIncremented fileDescription then {[ file ]} ∪ base else base)
      end) (Ok (∅ : gset string)) (match currentFilesToUnwrap with Some files => elements files | None => [] end);
  Ok (Some baseFilesToUnwrap).

(** Whether an archive holds a file that is wanted. *)
Definition shouldUnwrapTar (tarName : string) (sentinelFiles : SentinelFiles)
    (filesToUnwrap : option (gset string)) : bool :=
  if (size (TarFileSets sentinelFiles) =? 0)%nat then true
  else existsb (fun file => match filesToUnwrap with
                            | None => false
                            | Some files => bool_decide (file ∈ files)
                            end)
         (default [] (TarFileSets sentinelFiles !! tarName)).
