(* ===== verification/Fetch.v ===== *)
(** * Fetching a backup

    [src/internal/databases/postgres]: [backup.go], [backup_new.go],
    [backup_fetch_handler.go] and [backup_fetch_handler_new.go]: which
    archives of a backup are extracted, and the two ways a chain of increments
    is restored - oldest backup first ([deltaFetchRecursionOld]) or newest
    first ([deltaFetchRecursionNew]). The archives of a backup are given as
    the regular files they hold, in the order in which they reach the
    interpreter; that they are extracted concurrently and tried again when
    extraction fails ([internal/extract.go]) is not part of the model. *)

From stdpp Require Import gmap strings.
From S2P Require Import Prelude GoIO WalRecord WalPage WalFile PagedFile.
From S2P Require Import GoStrings GoPath Timeline DeltaMap Backups BackupMeta Tablespace IncPages Unwrap.
Open Scope Z_scope.

(** ** Names *)

(** [^.*?pg_control\.tar(\..+$|$)] *)
Fixpoint isPgControlTar (tarName : string) : bool :=
  (String.prefix "pg_control.tar" tarName &&
   match sdrop 14 tarName with
   | "" => true
   | String c (String _ _) => bool_decide (c = Ascii.ascii_of_nat 46)
   | _ => false
   end) ||
  match tarName with "" => false | String _ rest => isPgControlTar rest end.

Definition underscore : Ascii.ascii := Ascii.ascii_of_nat 95.

(** What can follow a match of [[^_]+._] at the start of [s]. *)
Fixpoint afterSegment (seen : nat) (s : string) : list string :=
  match s with
  | String c rest =>
      (match rest with
       | String c' rest' => if (1 <=? seen)%nat && bool_decide (c' = underscore) then [rest'] else []
       | "" => []
       end) ++ (if bool_decide (c = underscore) then [] else afterSegment (S seen) rest)
  | "" => []
  end.

(** [^([^_]+._{1}[^_]+._{1})] finds something. *)
Definition isWalEName (name : string) : bool :=
  existsb (fun rest => negb (bool_decide (afterSegment 0 rest = []))) (afterSegment 0 name).

Section Fetch.
Context {UserData : Type} {R : Type} `{Reader R} {T : Type} `{OsFile T}.
Variable copyFuel : nat.
Notation Sentinel := (BackupSentinelDto SentinelFiles UserData).
Notation FS := (gmap string T).
Notation Interpreter := (FileTarInterpreter (UserData := UserData)).

(** An archive: its name and the regular files in it. *)
Definition archive : Type := string * list (string * R).

(** A backup that is in the storage. *)
Record StoredBackup := mkStored { sentinelDto : Sentinel; archives : list archive }.

Definition IsPgControlRequired (backupName : string) (dto : Sentinel) : res error bool :=
  let walgBasebackupName := negb (isWalEName backupName) in
  if walgBasebackupName then Ok true else panicToError (IsIncremental dto).

(** The archives to extract, and the one of [pg_control]: extracting it is
    left to the end. *)
Fixpoint splitTars (tars : list archive) (pgControl : option archive) (wanted : string -> bool)
    : res error (list archive * option archive) :=
  match tars with
  | [] => Ok ([], pgControl)
  | tar :: tars =>
      if isPgControlTar (fst tar) then
        match pgControl with
        | Some _ => Err RuntimePanic
        | None => splitTars tars (Some tar) wanted
        end
      else
        rest ← splitTars tars pgControl wanted;
        Ok (if wanted (fst tar) then (tar :: fst rest, snd rest) else rest)
  end.

Definition getTarsToExtract (backup : StoredBackup) (dto : Sentinel) (filesToUnwrap : option (gset string))
    (skipRedundantTars : bool) : res error (list archive * option archive) :=
  splitTars (archives backup) None (fun tarName =>
    negb skipRedundantTars || shouldUnwrapTar tarName (content dto) filesToUnwrap).

(** [Interpret] on a regular file; [useNewUnwrapImplementation] is the flag
    [unwrapNew] sets. *)
Definition Interpret (useNewUnwrapImplementation : bool) (ti : Interpreter) (name : string) (fileReader : R) (fs : FS)
    : res error Interpreter * FS :=
  let targetPath := GoPath.Join (DBDataDirectory ti) name in
  if useNewUnwrapImplementation then
    match unwrapRegularFileNew copyFuel ti fileReader name targetPath fs with
    | (Err err, (_, _, fs)) => (Err err, fs)
    | (Ok _, (_, ti, fs)) => (Ok ti, fs)
    end
  else
    match unwrapRegularFileOld copyFuel ti fileReader name targetPath fs with
    | (Err err, (_, fs)) => (Err err, fs)
    | (Ok _, (_, fs)) => (Ok ti, fs)
    end.

(** [extractOne] over the files of the archives, one after the other, up to
    the first error. *)
Fixpoint extract (useNewUnwrapImplementation : bool) (ti : Interpreter) (files : list (string * R)) (fs : FS)
    : res error Interpreter * FS :=
  match files with
  | [] => (Ok ti, fs)
  | (name, fileReader) :: files =>
      match Interpret useNewUnwrapImplementation ti name fileReader fs with
      | (Err err, fs) => (Err (Wrapf "extractOne: Interpret failed" err), fs)
      | (Ok ti, fs) => extract useNewUnwrapImplementation ti files fs
      end
  end.

(** [PgControlNotFoundError], [NoFilesToExtractError] and
    [NonEmptyDBDataDirectoryError]. *)
Definition PgControlNotFoundError : error := Wrapf "Expect pg_control archive, but not found" ForeignError.
Definition NoFilesToExtractError : error := Wrapf "No files found to extract" ForeignError.
Definition NonEmptyDBDataDirectoryError : error := Wrapf "Directory for delta base must be empty" ForeignError.

(** The sentinel with the tablespaces of this restore. *)
Definition withTablespaceSpec (dto : Sentinel) (spec : option TablespaceSpec) : Sentinel :=
  mkSentinel (BackupStartLSN dto) (IncrementFromLSN dto) (seIncrementFrom dto) (seIncrementFullName dto)
    (seIncrementCount dto)
    (mkSentinelFiles (Files (content dto)) (TarFileSets (content dto)) spec)
    (sePgVersion dto) (BackupFinishLSN dto) (seSystemIdentifier dto) (seUncompressedSize dto)
    (seCompressedSize dto) (seUserData dto).

(** The data directory with the tablespaces: regular files, and the links. *)
Record Dir := mkDir { regular : FS; links : gmap string string }.

(** [ExtractAll] on the archives, then on the one of [pg_control]. *)
Definition extractBackup (useNewUnwrapImplementation : bool) (ti : Interpreter) (tarsToExtract : list archive)
    (pgControl : option archive) (needPgControl : bool) (fs : FS) : res error Interpreter * FS :=
  match extract useNewUnwrapImplementation ti (tarsToExtract ≫= snd) fs with
  | (Err err, fs) => (Err err, fs)
  | (Ok ti, fs) =>
      match pgControl, needPgControl with
      | Some tar, true =>
          match extract useNewUnwrapImplementation ti (snd tar) fs with
          | (Err err, fs) => (Err (Wrapf "failed to extract pg_control" err), fs)
          | (Ok ti, fs) => (Ok ti, fs)
          end
      | _, _ => (Ok ti, fs)
      end
  end.

(** The archives to extract, when [pg_control] is there if it is needed. *)
Definition chooseTars (backupName : string) (backup : StoredBackup) (dto : Sentinel)
    (filesToUnwrap : option (gset string)) (skipRedundantTars : bool)
    : res error (list archive * option archive * bool) :=
  '(tarsToExtract, pgControl) ← getTarsToExtract backup dto filesToUnwrap skipRedundantTars;
  needPgControl ← IsPgControlRequired backupName dto;
  match pgControl, needPgControl with
  | None, true => Err PgControlNotFoundError
  | _, _ => Ok (tarsToExtract, pgControl, needPgControl)
  end.

(** When there is nothing to extract, the backup is passed over, [pg_control]
    included. *)
Definition unwrapNew (backupName : string) (backup : StoredBackup) (dbDataDirectory : string) (dto : Sentinel)
    (filesToUnwrap : option (gset string)) (createIncrementalFiles skipRedundantTars : bool) (d : Dir)
    : res error UnwrapResult * Dir :=
  match prepareTablespaces (sfTablespaceSpec (content dto)) (links d) with
  | (Some err, links) => (Err err, mkDir (regular d) links)
  | (None, links) =>
      let ti := NewFileTarInterpreter dbDataDirectory dto filesToUnwrap createIncrementalFiles in
      match chooseTars backupName backup dto filesToUnwrap skipRedundantTars with
      | Err err => (Err err, mkDir (regular d) links)
      | Ok ([], _, _) => (Ok (tiUnwrapResult ti), mkDir (regular d) links)
      | Ok (tarsToExtract, pgControl, needPgControl) =>
          let '(x, fs) := extractBackup true ti tarsToExtract pgControl needPgControl (regular d) in
          (ti ← x; Ok (tiUnwrapResult ti), mkDir fs links)
      end
  end.

Definition unwrapOld (backupName : string) (backup : StoredBackup) (dbDataDirectory : string) (dto : Sentinel)
    (filesToUnwrap : option (gset string)) (createIncrementalFiles : bool) (fs : FS) : res error unit * FS :=
  let ti := NewFileTarInterpreter dbDataDirectory dto filesToUnwrap createIncrementalFiles in
  match chooseTars backupName backup dto filesToUnwrap false with
  | Err err => (Err err, fs)
  | Ok ([], _, _) => (Err NoFilesToExtractError, fs)
  | Ok (tarsToExtract, pgControl, needPgControl) =>
      let '(x, fs) := extractBackup false ti tarsToExtract pgControl needPgControl fs in
      (ti ← x; Ok tt, fs)
  end.

(** The directory must be empty below the oldest backup. *)
Definition checkDBDirectoryForUnwrap (dto : Sentinel) (d : Dir) : option error * Dir :=
  match IsIncremental dto with
  | Err _ => (Some RuntimePanic, d)
  | Ok isIncremental =>
      if negb isIncremental && negb (bool_decide (regular d = ∅) && bool_decide (links d = ∅))
      then (Some NonEmptyDBDataDirectoryError, d)
      else
        let '(err, links) := prepareTablespaces (sfTablespaceSpec (content dto)) (links d) in
        (err, mkDir (regular d) links)
  end.

Definition unwrapToEmptyDirectory (backupName : string) (backup : StoredBackup) (dbDataDirectory : string)
    (dto : Sentinel) (filesToUnwrap : option (gset string)) (createIncrementalFiles : bool) (d : Dir)
    : res error unit * Dir :=
  match checkDBDirectoryForUnwrap dto d with
  | (Some err, d) => (Err err, d)
  | (None, d) =>
      let '(x, fs) := unwrapOld backupName backup dbDataDirectory dto filesToUnwrap createIncrementalFiles (regular d) in
      (x, mkDir fs (links d))
  end.

Variable backups : gmap string StoredBackup.
Variable dbDataDirectory : string.

(** A chain of [fuel] backups at most. *)
Fixpoint deltaFetchRecursionOld (fuel : nat) (backupName : string) (tablespaceSpec : option TablespaceSpec)
    (filesToUnwrap : option (gset string)) (d : Dir) : res error unit * Dir :=
  match fuel, backups !! backupName with
  | O, _ => (Err ErrNoProgress, d)
  | _, None => (Err ForeignError, d)
  | S fuel, Some backup =>
      let tablespaceSpec :=
        Some (chooseTablespaceSpecification (sfTablespaceSpec (content (sentinelDto backup))) tablespaceSpec) in
      let dto := withTablespaceSpec (sentinelDto backup) tablespaceSpec in
      match IsIncremental dto, seIncrementFrom dto with
      | Err _, _ => (Err RuntimePanic, d)
      | Ok true, Some incrementFrom =>
          match GetBaseFilesToUnwrap (Files (content dto)) filesToUnwrap with
          | Err _ => (Err RuntimePanic, d)
          | Ok baseFilesToUnwrap =>
              match deltaFetchRecursionOld fuel incrementFrom tablespaceSpec baseFilesToUnwrap d with
              | (Err err, d) => (Err err, d)
              | (Ok _, d) => unwrapToEmptyDirectory backupName backup dbDataDirectory dto filesToUnwrap false d
              end
          end
      | _, _ => unwrapToEmptyDirectory backupName backup dbDataDirectory dto filesToUnwrap false d
      end
  end.

Fixpoint deltaFetchRecursionNew (fuel : nat) (backupName : string) (tablespaceSpec : option TablespaceSpec)
    (skipRedundantTars : bool) (cfg : FetchConfig) (d : Dir) : res error unit * Dir :=
  match fuel, backups !! backupName with
  | O, _ => (Err ErrNoProgress, d)
  | _, None => (Err ForeignError, d)
  | S fuel, Some backup =>
      let tablespaceSpec :=
        Some (chooseTablespaceSpecification (sfTablespaceSpec (content (sentinelDto backup))) tablespaceSpec) in
      let dto := withTablespaceSpec (sentinelDto backup) tablespaceSpec in
      match IsIncremental dto, seIncrementFrom dto with
      | Err _, _ => (Err RuntimePanic, d)
      | Ok true, Some incrementFrom =>
          match GetBaseFilesToUnwrap (Files (content dto)) (filesToUnwrap cfg) with
          | Err _ => (Err RuntimePanic, d)
          | Ok baseFilesToUnwrap =>
              match unwrapNew backupName backup dbDataDirectory dto (filesToUnwrap cfg) false skipRedundantTars d with
              | (Err err, d) => (Err err, d)
              | (Ok unwrapResult, d) =>
                  let cfg := mkFetchConfig baseFilesToUnwrap (missingBlocks cfg) in
                  let cfg := if skipRedundantTars then SkipRedundantFiles cfg unwrapResult else cfg in
                  deltaFetchRecursionNew fuel incrementFrom tablespaceSpec skipRedundantTars cfg d
              end
          end
      | _, _ =>
          let '(x, d) := unwrapNew backupName backup dbDataDirectory dto (filesToUnwrap cfg) false skipRedundantTars d in
          (_ ← x; Ok tt, d)
      end
  end.

(** [GetFilesToUnwrap] without a file mask: all the files of the backup, or
    everything when the backup lists none. *)
Definition GetFilesToUnwrap (backup : StoredBackup) (filesAreListed : bool) : option (gset string) :=
  if filesAreListed
  then Some (dom (Files (content (sentinelDto backup))) ∪ list_to_set UtilityFilePaths)
  else None.
End Fetch.
