(* ===== verification/FetchSpec.v ===== *)
(** * The history of one file through a chain of backups

    What one file is in every backup of a chain, newest first
    ([history_ok]), what a turn of each restore makes of it, and the invariant
    of the restore that starts with the newest backup: a page of the file on
    disk is the final one, or it is still zeros and the next older version of
    the file has it. *)

From stdpp Require Import gmap strings.
From S2P Require Import Prelude GoIO WalRecord WalPage WalFile PagedFile.
From S2P Require Import GoStrings GoPath Timeline DeltaMap Backups BackupMeta Tablespace IncPages IncSpec Unwrap Fetch.
Open Scope Z_scope.

(** ** Histories *)

(** How a backup stores a file: all of it, as an increment, or not at all
    because it has not changed. *)
Inductive version :=
| VFull
| VIncr (n : nat) (bl : numbered)
| VSkip.

(** The bytes in the archive, for a file with contents [g]. *)
Definition version_bytes (v : version) (g : list byte) : option (list byte) :=
  match v with
  | VFull => Some g
  | VIncr n bl => Some (increment n bl)
  | VSkip => None
  end.

(** The file in each backup, newest first, with its contents at that time,
    down to its newest full copy: nothing older is looked at. *)
Inductive history_ok : list (version * list byte) -> Prop :=
| history_full g : history_ok [(VFull, g)]
| history_skip v g older : history_ok ((v, g) :: older) -> history_ok ((VSkip, g) :: (v, g) :: older)
| history_incr n bl g v g' older :
    increment_ok n bl -> pages_of g n -> (exists n', pages_of g' n') ->
    (forall i, (i < n)%nat ->
       page g i = default (page (resize (n * psize) zero g') i) (lookup_page_of bl i)) ->
    history_ok ((v, g') :: older) ->
    history_ok ((VIncr n bl, g) :: (v, g') :: older).

(** Where the final file has a page with a blank header, the older versions
    have the same page, if they have it. *)
Definition blank_stable (final : list byte) (h : list (version * list byte)) : Prop :=
  forall i g, ((i + 1) * psize <= length final)%nat -> missing (page final i) = true ->
    g ∈ h.*2 -> ((i + 1) * psize <= length g)%nat -> page g i = page final i.

(** ** The file on disk, restored from the newest backup on *)

(** Page [i] is the final one, or [older] has it and the disk has zeros. *)
Definition settled (final f : list byte) (i : nat) : Prop := page f i = page final i.
Definition awaits (final older f : list byte) (n i : nat) : Prop :=
  page f i = zero_page /\ page final i = page (resize (n * psize) zero older) i.

Definition restoring (final older f : list byte) (n : nat) : Prop :=
  pages_of final n /\ pages_of f n /\
  forall i, (i < n)%nat -> settled final f i \/ awaits final older f n i.

Lemma missing_zero_page : missing zero_page = true.
Proof.
  unfold missing, zero_page. apply bool_decide_eq_true_2. rewrite take_replicate, Nat.min_l; [done|].
  pose proof psize_pos. change (Z.to_nat headerSize) with 24%nat. lia.
Qed.

Lemma pages_length f n i : pages_of f n -> ((i + 1) * psize <= length f)%nat <-> (i < n)%nat.
Proof. unfold pages_of. intros ->. pose proof psize_pos. nia. Qed.

(** Pages of an extended file, inside the old one or behind it. *)
Lemma page_resized g n m i : pages_of g m -> (i < n)%nat ->
  page (resize (n * psize) zero g) i = if decide (i < m)%nat then page g i else zero_page.
Proof.
  intros Hg Hi. pose proof psize_pos. case_decide.
  - apply page_resize_old; [done|]. by apply (pages_length g m).
  - apply page_resize_new; [done|]. unfold pages_of in Hg. nia.
Qed.

(** Writing the missing pages of an older version, whole or by increment:
    [src i] is the page the version has for [i], if any. *)
Lemma restoring_step final g older f f' n m (src : nat -> option (list byte)) :
  restoring final g f n -> pages_of g m -> pages_of f' n ->
  (forall i, (i < n)%nat -> page f' i =
     if missing (page f i) then default (page f i) (src i) else page f i) ->
  (forall i p, (i < n)%nat -> src i = Some p -> (i < m)%nat /\ p = page g i) ->
  (forall i, (i < n)%nat -> (i < m)%nat -> src i = None -> page g i = page (resize (m * psize) zero older) i) ->
  (forall i, (i < n)%nat -> (i < m)%nat -> missing (page final i) = true -> page g i = page final i) ->
  restoring final older f' n.
Proof.
  intros (Hfin & Hf & Hi) Hg Hf' Hw Hsrc Hnone Hst. split_and!; [done|done|]. intros i Hin.
  unfold settled, awaits. rewrite Hw by done. destruct (Hi i Hin) as [Hs|[Hz Ha]].
  - left. destruct (missing (page f i)) eqn:Em; [|done]. destruct (src i) as [p|] eqn:Es; [|done]. cbn.
    destruct (Hsrc i p Hin Es) as [Him ->]. rewrite Hs in Em. exact (Hst i Hin Him Em).
  - rewrite Hz, missing_zero_page. rewrite (page_resized g n m i Hg Hin) in Ha.
    destruct (src i) as [p|] eqn:Es; cbn.
    + destruct (Hsrc i p Hin Es) as [Him ->]. left. rewrite decide_True in Ha by exact Him. symmetry. exact Ha.
    + case_decide as Him; [|by left]. right. split; [reflexivity|]. rewrite Ha, Hnone by assumption.
      rewrite page_resize by exact Him. symmetry. rewrite page_resize by exact Hin. reflexivity.
Qed.

(** Nothing is awaited any more. *)
Lemma restoring_full final g f f' n m :
  restoring final g f n -> pages_of g m -> pages_of f' n ->
  (forall i, (i < n)%nat -> page f' i =
     if (i <? m)%nat && missing (page f i) then page g i else page f i) ->
  (forall i, (i < n)%nat -> (i < m)%nat -> missing (page final i) = true -> page g i = page final i) ->
  f' = final.
Proof.
  intros (Hfin & Hf & Hi) Hg Hf' Hw Hst. apply (pages_ext _ _ n); [done..|]. intros i Hin. rewrite Hw by done.
  destruct (Hi i Hin) as [Hs|[Hz Ha]].
  - destruct (i <? m)%nat eqn:Em; bool_to_prop; cbn [andb]; [|done].
    destruct (missing (page f i)) eqn:Eb; [|done]. rewrite Hs in Eb. by apply Hst.
  - rewrite Hz, missing_zero_page, andb_true_r. rewrite (page_resized g n m i Hg Hin) in Ha.
    destruct (i <? m)%nat eqn:Em; bool_to_prop; [rewrite decide_True in Ha by done|rewrite decide_False in Ha by lia]; done.
Qed.

(** ** One file of an archive *)

Section Steps.
Context {UserData : Type} {R : Type} `{LawfulReader R} {T : Type} `{LawfulFile T}.
Variable copyFuel : nat.
Implicit Types (s : R) (f : T) (file : option T).

(** The version and the older contents a file on disk stands for: nothing
    yet, or a file that is being restored. *)
Definition on_disk (final : list byte) (h : list (version * list byte)) file : Prop :=
  match file with
  | None => exists v older, h = (v, final) :: older
  | Some f => exists v g older n m, h = (v, g) :: older /\ restoring final g (contents f) n /\ pages_of g m
  end.

(** *** A new file *)

Lemma writeLocalFile_ok s f g : avail s = g -> (length g < copyFuel)%nat -> contents f = [] ->
  exists s' f', writeLocalFile copyFuel (s, Some f) = (Ok tt, (s', Some f')) /\ contents f' = g.
Proof.
  intros Hs Hc Hf. unfold writeLocalFile.
  destruct (ReadAll_ok copyFuel s) as (s' & -> & _); [by rewrite Hs|].
  destruct (writeAt_ok f (avail s) 0) as (f' & Hw & Hf'). change (Z.of_nat 0) with 0 in Hw. rewrite Hw.
  exists s', f'. split; [done|]. rewrite Hf', Hf, Hs. destruct g as [|b g]; [done|].
  unfold write_at. cbn [resize app Nat.add]. by rewrite drop_nil, app_nil_r.
Qed.

Lemma new_full options s g : isIncremented options = false -> avail s = g -> (length g < copyFuel)%nat ->
  exists s' f', UnwrapNewFile copyFuel (DefaultFileUnwrapper options) (s, Some Create) =
    (Ok NewCompletedResult, (s', Some f')) /\ contents f' = g.
Proof.
  intros Ho Hs Hc. unfold UnwrapNewFile, unwrapNewFile, rbind. rewrite Ho.
  destruct (writeLocalFile_ok s Create g Hs Hc create_ok) as (s' & f' & -> & Hf'). by exists s', f'.
Qed.

Lemma new_increment options s n bl g g' v older :
  isIncremented options = true -> avail s = increment n bl -> history_ok ((VIncr n bl, g) :: (v, g') :: older) ->
  exists r s' f', UnwrapNewFile copyFuel (DefaultFileUnwrapper options) (s, Some Create) = (Ok r, (s', Some f')) /\
    on_disk g ((v, g') :: older) (Some f').
Proof.
  intros Ho Hs Hh. inversion Hh as [| |? ? ? ? ? ? Hok Hg [n' Hg'] Hpg]; subst.
  unfold UnwrapNewFile, unwrapNewFile, rbind. rewrite Ho. unfold NewReadWriterAtFrom.
  rewrite (stat_ok Create). unfold wrapf, onLocal. rewrite <- (app_nil_r (increment _ _)) in Hs.
  destruct (CreateFileFromIncrement_ok n bl [] s Create Hok Hs create_ok) as (s' & f' & -> & Hf' & Hi).
  eexists _, s', f'. split; [done|]. exists v, g', older, n, n'. split; [done|]. split; [|done].
  split_and!; [done|done|]. intros i Hin. unfold settled, awaits. rewrite Hi by done.
  rewrite (Hpg i Hin). destruct (lookup_page_of bl i); [by left|by right].
Qed.

(** *** A file that is there *)

Lemma writeIncrement_step s f n m bl g g' v older final :
  avail s = increment m bl -> history_ok ((VIncr m bl, g) :: (v, g') :: older) ->
  blank_stable final ((VIncr m bl, g) :: (v, g') :: older) ->
  restoring final g (contents f) n ->
  exists r s' f', writeIncrement (Z.of_nat (length (contents f))) false (s, Some f) = (Ok r, (s', Some f')) /\
    on_disk final ((v, g') :: older) (Some f').
Proof.
  intros Hs Hh Hst Hr. inversion Hh as [| |? ? ? ? ? ? Hok Hg [n' Hg'] Hpg]; subst.
  assert (Hr' := Hr). destruct Hr' as (Hfin & Hf & _).
  unfold writeIncrement, rbind, wrapf, onLocal. rewrite <- (app_nil_r (increment _ _)) in Hs.
  replace (length (contents f)) with (n * psize)%nat by (symmetry; exact Hf).
  destruct (WritePagesFromIncrement_ok m bl n false [] s f Hok Hs Hf) as (s' & f' & -> & Hf' & Hi).
  rewrite decide_True by done. cbn [res_map_err].
  eexists _, s', f'. split; [done|]. exists v, g', older, n, n'. split; [done|]. split; [|done].
  apply (restoring_step final g g' (contents f) (contents f') n m (lookup_page_of bl));
    [exact Hr|exact Hg|exact Hf'|exact Hi| | |].
  - intros i p Hin Hp. assert (i ∈ bl.*1) as Hib by (apply lookup_page_is_some; by exists p).
    pose proof (inc_below _ _ Hok) as Hb. rewrite Forall_forall in Hb. specialize (Hb i Hib).
    split; [done|]. by rewrite Hpg, Hp.
  - intros i Hin Him Hn. by rewrite Hpg, Hn.
  - intros i Hin Him Hm. apply Hst; [by apply (pages_length _ n)|done|by left|by apply (pages_length _ m)].
Qed.

Lemma existing_increment options s f n m bl g g' v older final :
  isIncremented options = true ->
  avail s = increment m bl -> history_ok ((VIncr m bl, g) :: (v, g') :: older) ->
  blank_stable final ((VIncr m bl, g) :: (v, g') :: older) ->
  restoring final g (contents f) n ->
  exists r s' f', UnwrapExistingFile copyFuel (DefaultFileUnwrapper options) (s, Some f) = (Ok r, (s', Some f')) /\
    on_disk final ((v, g') :: older) (Some f').
Proof.
  intros Ho Hs Hh Hst Hr. unfold UnwrapExistingFile. unfold rbind at 1, NewReadWriterAtFrom.
  rewrite stat_ok, Ho. by eapply writeIncrement_step.
Qed.

(** The path of a data file. *)
Definition data_file (path : string) : bool :=
  (Contains path DefaultTablespace || Contains path NonDefaultTablespace) &&
  bool_decide (is_Some (matchPagedFilename (Base path))).

Lemma isPagedFile_pages path n : data_file path = true ->
  isPagedFile false (Z.of_nat (n * psize)) path = negb (n =? 0)%nat.
Proof.
  intros Hd. unfold data_file in Hd. apply andb_prop in Hd as [Hd Hm]. unfold isPagedFile. rewrite Hm.
  rewrite <- negb_orb, Hd. rewrite Nat2Z.inj_mul, psize_Z, Z.rem_mul by by vm_compute. cbn [negb orb].
  rewrite !orb_false_r. f_equal. unfold DatabasePageSize, BlockSize.
  destruct n; [done|]. cbn [Nat.eqb]. apply Z.eqb_neq. lia.
Qed.

Lemma existing_full options s f n m g final :
  isIncremented options = false -> isPageFile options = negb (n =? 0)%nat ->
  avail s = g -> pages_of g m -> blank_stable final [(VFull, g)] ->
  restoring final g (contents f) n ->
  exists r s' f', UnwrapExistingFile copyFuel (DefaultFileUnwrapper options) (s, Some f) = (Ok r, (s', Some f')) /\
    contents f' = final.
Proof.
  intros Ho Hp Hs Hg Hst Hr. assert (Hr' := Hr). destruct Hr' as (Hfin & Hf & _).
  unfold UnwrapExistingFile. unfold rbind at 1, NewReadWriterAtFrom.
  rewrite stat_ok, Ho, Hp. destruct (n =? 0)%nat eqn:En; bool_to_prop; cbn [negb].
  - subst. eexists _, s, f. split; [done|].
    assert (length (contents f) = 0 /\ length final = 0)%nat as [H1' H2'] by (split; assumption).
    by destruct (contents f), final.
  - unfold rbind, wrapf, onLocal. replace (length (contents f)) with (n * psize)%nat by (symmetry; exact Hf).
    destruct (RestoreMissingPages_ok g s f n m Hg Hf Hs) as (s' & f' & -> & Hf' & Hi).
    eexists _, s', f'. split; [done|]. apply (restoring_full final g (contents f) _ n m); [exact Hr|exact Hg|exact Hf'|exact Hi|].
    intros i Hin Him Hm. apply Hst; [by apply (pages_length _ n)|done|by left|by apply (pages_length _ m)].
Qed.
End Steps.

(** ** The files of an archive, one after the other *)

Section Extract.
Context {UserData : Type} {R : Type} `{LawfulReader R} {T : Type} `{LawfulFile T}.
Variable copyFuel : nat.
Notation FS := (gmap string T).
Notation Interpreter := (FileTarInterpreter (UserData := UserData)).
Implicit Types (ti : Interpreter) (fs : FS).

(** Interpreters that differ in their results only. *)
Definition alike ti ti' : Prop :=
  DBDataDirectory ti' = DBDataDirectory ti /\ tiSentinel ti' = tiSentinel ti /\
  FilesToUnwrap ti' = FilesToUnwrap ti /\ createNewIncrementalFiles ti' = createNewIncrementalFiles ti.

Lemma alike_trans ti1 ti2 ti3 : alike ti1 ti2 -> alike ti2 ti3 -> alike ti1 ti3.
Proof. unfold alike. naive_solver congruence. Qed.

Lemma alike_wanted ti ti' name : alike ti ti' -> notWanted ti' name = notWanted ti name.
Proof. intros (_ & _ & Hf & _). unfold notWanted. by rewrite Hf. Qed.

(** Interpreting [name] takes a file on disk that is [start] to one that is
    [goal]. *)
Definition takes (useNew : bool) ti (name : string) (s : R) (start goal : option T -> Prop) : Prop :=
  forall ti1 fs, alike ti ti1 -> start (fs !! GoPath.Join (DBDataDirectory ti) name) ->
    exists ti2 f, Interpret copyFuel useNew ti1 name s fs =
        (Ok ti2, <[GoPath.Join (DBDataDirectory ti) name := f]> fs) /\
      alike ti1 ti2 /\ goal (Some f).

Lemma Interpret_notWanted useNew ti name s fs : notWanted ti name = true ->
  Interpret copyFuel useNew ti name s fs = (Ok ti, fs).
Proof.
  intros Hw. unfold Interpret, unwrapRegularFileNew, unwrapRegularFileOld. rewrite Hw. by destruct useNew.
Qed.

Lemma extract_app useNew files1 files2 : forall ti fs,
  extract copyFuel useNew ti (files1 ++ files2) fs =
    match extract copyFuel useNew ti files1 fs with
    | (Err err, fs) => (Err err, fs)
    | (Ok ti, fs) => extract copyFuel useNew ti files2 fs
    end.
Proof.
  induction files1 as [|[name s] files1 IH]; intros ti fs; [done|]. cbn [app extract].
  destruct (Interpret _ _ _ _ _ _) as [[ti'|e] fs']; [apply IH|done].
Qed.

(** Every wanted file reaches its goal, the other paths are not touched. *)
Lemma extract_ok useNew (start goal : string -> option T -> Prop) files : forall ti ti0 fs,
  alike ti0 ti ->
  NoDup files.*1 ->
  (forall a b, a ∈ files.*1 -> b ∈ files.*1 -> notWanted ti0 a = false -> notWanted ti0 b = false ->
     GoPath.Join (DBDataDirectory ti0) a = GoPath.Join (DBDataDirectory ti0) b -> a = b) ->
  (forall name s, (name, s) ∈ files -> notWanted ti0 name = false ->
     takes useNew ti0 name s (start name) (goal name) /\ start name (fs !! GoPath.Join (DBDataDirectory ti0) name)) ->
  exists ti' fs', extract copyFuel useNew ti files fs = (Ok ti', fs') /\ alike ti0 ti' /\
    (forall name, name ∈ files.*1 -> notWanted ti0 name = false ->
       goal name (fs' !! GoPath.Join (DBDataDirectory ti0) name)) /\
    (forall path, (forall name, name ∈ files.*1 -> notWanted ti0 name = false ->
       path <> GoPath.Join (DBDataDirectory ti0) name) -> fs' !! path = fs !! path).
Proof.
  induction files as [|[name s] files IH]; intros ti ti0 fs Ha Hn Hinj Hstep.
  { exists ti, fs. split_and!; [done|done| |done]. intros name Hin. by apply elem_of_nil in Hin. }
  cbn [fmap list_fmap fst] in *. apply NoDup_cons in Hn as [Hni Hn]. cbn [extract].
  destruct (notWanted ti0 name) eqn:Ew.
  - rewrite Interpret_notWanted by (by rewrite (alike_wanted _ _ _ Ha)).
    destruct (IH ti ti0 fs) as (ti' & fs' & -> & Ha' & Hg & Hu); [done|done| | |].
    { intros a b Hain Hbin. apply Hinj; by right. }
    { intros a s' Hin. apply Hstep. by right. }
    exists ti', fs'. split_and!; [done|done| |].
    + intros a [->|Hain]%elem_of_cons Haw; [congruence|by apply Hg].
    + intros path Hp. apply Hu. intros a Hain. apply Hp. by right.
  - destruct (Hstep name s) as [Htk Hst]; [by left|done|].
    destruct (Htk ti fs Ha Hst) as (ti1 & f & -> & Ha1 & Hgoal).
    destruct (IH ti1 ti0 (<[GoPath.Join (DBDataDirectory ti0) name := f]> fs)) as (ti' & fs' & -> & Ha' & Hg & Hu);
      [by eapply alike_trans|done| | |].
    { intros a b Hain Hbin. apply Hinj; by right. }
    { intros a s' Hin Haw. rewrite lookup_insert_ne; [apply Hstep; [by right|done]|].
      intros He. assert (name = a) as ->; [|done || (apply Hni; by apply (list_elem_of_fmap_2 fst) in Hin)].
      apply Hinj; [by left|right; by apply (list_elem_of_fmap_2 fst) in Hin|done..]. }
    exists ti', fs'. split_and!; [done|done| |].
    + intros a [->|Hain]%elem_of_cons Haw; [|by apply Hg].
      rewrite Hu; [by rewrite lookup_insert_eq|]. intros b Hbin Hbw He.
      apply Hni. by rewrite (Hinj name b (list_elem_of_here _ _) (list_elem_of_further _ _ _ Hbin) Ew Hbw He).
    + intros path Hp. rewrite Hu; [apply lookup_insert_ne; intros <-; by apply (Hp name); [left|done|]|].
      intros a Hain. apply Hp. by right.
Qed.
(** How the sentinel's list describes a file. *)
Definition stored_as (files : BackupFileList) (name : string) (v : version) : Prop :=
  match files !! name with
  | Some d => IsIncremented d = (if v is VIncr _ _ then true else false) /\
              IsSkipped d = (if v is VSkip then true else false)
  | None => name ∈ UtilityFilePaths /\ v = VFull
  end.

(** The file on disk between two backups: final, when there is nothing older
    to look at. *)
Definition disk (path : string) (final : list byte) (h : list (version * list byte)) (file : option T) : Prop :=
  match h with
  | [] => exists f, file = Some f /\ contents f = final
  | _ => on_disk final h file /\ (file <> None -> data_file path = true)
  end.

Lemma getFileUnwrapper_ok ti name path v fs :
  stored_as (Files (content (tiSentinel ti))) name v -> createNewIncrementalFiles ti = false ->
  exists options, getFileUnwrapper ti name path fs = Ok (DefaultFileUnwrapper options) /\
    isIncremented options = (if v is VIncr _ _ then true else false) /\
    forall f, fs !! path = Some f ->
      isPageFile options = isPagedFile false (Z.of_nat (length (contents f))) path.
Proof.
  intros Hs Hc. unfold getFileUnwrapper. rewrite Hc. cbn [NewFileUnwrapper].
  assert ((match Files (content (tiSentinel ti)) !! name with
           | Some fileDescription => IsIncremented fileDescription | None => false end) =
          (if v is VIncr _ _ then true else false)) as ->.
  { unfold stored_as in Hs. destruct (_ !! name) as [d|]; [apply Hs|]. by destruct Hs as [_ ->]. }
  destruct (fs !! path) as [f|].
  - rewrite stat_ok. cbn [mbind res_bind]. eexists. split; [done|]. split; [done|]. by intros f' [= ->].
  - cbn [mbind res_bind]. eexists. split; [done|]. split; [done|]. by intros f'.
Qed.

Lemma local_full s file name path ti fs g final :
  notWanted ti name = false -> createNewIncrementalFiles ti = false ->
  stored_as (Files (content (tiSentinel ti))) name VFull -> avail s = g -> (length g < copyFuel)%nat ->
  blank_stable final [(VFull, g)] -> fs !! path = file -> disk path final [(VFull, g)] file ->
  exists r s' f', unwrapRegularFileNew copyFuel ti s name path fs =
      (Ok tt, (s', withUnwrapResult ti r, <[path := f']> fs)) /\ contents f' = final.
Proof.
  intros Hw Hc Hst Hs Hg Hbl Hfs [Hd Hdf]. unfold unwrapRegularFileNew. rewrite Hw.
  destruct (getFileUnwrapper_ok ti name path VFull fs Hst Hc) as (o & -> & Hi & Hp). rewrite Hfs.
  destruct file as [f|].
  - destruct Hd as (v & g1 & older & n & m & [= <- <- <-] & Hr & Hm).
    assert (isPageFile o = negb (n =? 0)%nat) as Hpo.
    { rewrite (Hp f Hfs). replace (length (contents f)) with (n * psize)%nat by (symmetry; apply Hr).
      by apply isPagedFile_pages, Hdf. }
    destruct (existing_full copyFuel o s f n m g final Hi Hpo Hs Hm Hbl Hr) as (r & s' & f' & -> & Hf').
    by eexists _, s', f'.
  - destruct Hd as (v & older & [= <- <- <-]).
    destruct (new_full copyFuel o s g Hi Hs Hg) as (s' & f' & -> & Hf'). by eexists _, s', f'.
Qed.

Lemma local_increment s file name path ti fs n bl g v g' older final :
  notWanted ti name = false -> createNewIncrementalFiles ti = false ->
  stored_as (Files (content (tiSentinel ti))) name (VIncr n bl) -> avail s = increment n bl ->
  history_ok ((VIncr n bl, g) :: (v, g') :: older) ->
  blank_stable final ((VIncr n bl, g) :: (v, g') :: older) -> data_file path = true ->
  fs !! path = file -> disk path final ((VIncr n bl, g) :: (v, g') :: older) file ->
  exists r s' f', unwrapRegularFileNew copyFuel ti s name path fs =
      (Ok tt, (s', withUnwrapResult ti r, <[path := f']> fs)) /\
    disk path final ((v, g') :: older) (Some f').
Proof.
  intros Hw Hc Hst Hs Hh Hbl Hdf Hfs [Hd _]. unfold unwrapRegularFileNew. rewrite Hw.
  destruct (getFileUnwrapper_ok ti name path _ fs Hst Hc) as (o & -> & Hi & _). rewrite Hfs.
  destruct file as [f|].
  - destruct Hd as (v1 & g1 & older1 & n1 & m & [= <- <- <-] & Hr & Hm).
    destruct (existing_increment copyFuel o s f n1 n bl g g' v older final Hi Hs Hh Hbl Hr)
      as (r & s' & f' & -> & Hf'). by eexists _, s', f'.
  - destruct Hd as (v1 & older1 & [= <- <- <-]).
    destruct (new_increment copyFuel o s n bl g g' v older Hi Hs Hh) as (r & s' & f' & -> & Hf').
    by eexists _, s', f'.
Qed.

(** A turn of the restore that starts with the newest backup. *)
Lemma takes_new ti name s v g older final bytes :
  let path := GoPath.Join (DBDataDirectory ti) name in
  notWanted ti name = false -> createNewIncrementalFiles ti = false ->
  stored_as (Files (content (tiSentinel ti))) name v ->
  history_ok ((v, g) :: older) -> blank_stable final ((v, g) :: older) ->
  version_bytes v g = Some bytes -> avail s = bytes -> (length g < copyFuel)%nat ->
  (v <> VFull -> data_file path = true) ->
  takes true ti name s (disk path final ((v, g) :: older)) (disk path final older).
Proof.
  intros path Hw Hc Hst Hh Hbl Hb Hs Hg Hdf ti1 fs Ha Hd. rewrite <- (alike_wanted _ _ _ Ha) in Hw.
  destruct Ha as (Hdir & Hsen & Hfil & Hcr). rewrite <- Hcr in Hc. rewrite <- Hsen in Hst.
  unfold Interpret. rewrite Hdir. fold path.
  destruct v as [|n bl|]; [|destruct older as [|[v g'] older]; [inversion Hh|]|done]; injection Hb as <-.
  - assert (older = []) as -> by (by inversion Hh).
    destruct (local_full s _ name path ti1 fs g final Hw Hc Hst Hs Hg Hbl eq_refl Hd) as (r & s' & f' & -> & Hf').
    eexists _, f'. split; [done|]. split; [done|]. by exists f'.
  - destruct (local_increment s _ name path ti1 fs n bl g v g' older final Hw Hc Hst Hs Hh Hbl (Hdf ltac:(done)) eq_refl Hd)
      as (r & s' & f' & -> & Hf').
    eexists _, f'. split; [done|]. by split.
Qed.

(** A turn of the one that starts with the oldest. *)
Definition was (h : list (version * list byte)) (file : option T) : Prop :=
  match h with
  | [] => True
  | (_, g) :: _ => exists f, file = Some f /\ contents f = g
  end.

Lemma takes_old ti name s v g older bytes inc :
  notWanted ti name = false -> stored_as (Files (content (tiSentinel ti))) name v ->
  history_ok ((v, g) :: older) -> version_bytes v g = Some bytes -> avail s = bytes -> (length g < copyFuel)%nat ->
  IsIncremental (tiSentinel ti) = Ok inc -> (v <> VFull -> inc = true) ->
  takes false ti name s (was older) (was ((v, g) :: older)).
Proof.
  intros Hw Hst Hh Hb Hs Hg Hinc Hv ti1 fs Ha Hd. rewrite <- (alike_wanted _ _ _ Ha) in Hw.
  destruct Ha as (Hdir & Hsen & Hfil & Hcr). rewrite <- Hsen in Hst, Hinc.
  unfold Interpret, unwrapRegularFileOld. rewrite Hw, Hdir. unfold stored_as in Hst.
  destruct v as [|n bl|]; [|destruct older as [|[v g'] older]; [inversion Hh|]|done]; injection Hb as <-.
  - destruct (writeLocalFile_ok copyFuel s Create g Hs Hg create_ok) as (s' & f' & Hwr & Hf').
    exists ti1, f'. split; [|split; [done|by exists f']].
    destruct (Files _ !! name) as [d|]; unfold panicToError; rewrite ?Hinc; cbn [res_map_err mbind res_bind];
      [destruct Hst as [Hi _]; cbn in Hi; rewrite Hi, andb_false_r|]; by rewrite Hwr.
  - destruct Hd as (f & Hfs & Hf). inversion Hh as [| |? ? ? ? ? ? Hok Hpg [n' Hg'] Hi]; subst.
    rewrite <- (app_nil_r (increment _ _)) in Hs.
    destruct (ApplyFileIncrement_ok (createNewIncrementalFiles ti1) n bl [] s f Hok Hs) as (s' & f' & Hap & Hf' & Hp).
    exists ti1, f'. destruct (Files _ !! name) as [d|]; [|by destruct Hst].
    unfold panicToError. rewrite Hinc, Hv by done. cbn [res_map_err mbind res_bind]. destruct Hst as [-> _].
    cbn [andb]. rewrite Hfs, Hap. split; [done|]. split; [done|]. exists f'. split; [done|].
    apply (pages_ext _ _ n); [exact Hf'|exact Hpg|]. intros i Hin. by rewrite Hp, Hi.
Qed.
End Extract.

(** ** What is wanted of the older backups *)

(** What the older backups have of the file. *)
Definition inherited (files : BackupFileList) (name : string) : bool :=
  match files !! name with Some d => IsSkipped d || IsIncremented d | None => false end.

Lemma GetBaseFilesToUnwrap_known files W :
  (forall name, name ∈ W -> is_Some (files !! name) \/ name ∈ UtilityFilePaths) ->
  GetBaseFilesToUnwrap files (Some W) = Ok (Some (filter (fun name => inherited files name = true) W)).
Proof.
  intros HW. unfold GetBaseFilesToUnwrap. set (step := fun base file => _).
  assert (forall l acc, (forall name, name ∈ l -> is_Some (files !! name) \/ name ∈ UtilityFilePaths) ->
    exists X, foldl step (Ok acc) l = Ok X /\ forall x, x ∈ X <-> x ∈ acc \/ (inherited files x = true /\ x ∈ l)) as Hl.
  { induction l as [|name l IH]; intros acc Hl.
    - exists acc. split; [done|]. intros x. rewrite elem_of_nil. tauto.
    - assert (step (Ok acc) name = Ok (if inherited files name then {[ name ]} ∪ acc else acc)) as Hs.
      { unfold step, inherited. cbn [mbind res_bind]. destruct (Hl name) as [[d ->]|Hu]; [by left|done|].
        destruct (files !! name); [done|]. by rewrite bool_decide_eq_true_2. }
      cbn [foldl]. rewrite Hs.
      destruct (IH (if inherited files name then {[ name ]} ∪ acc else acc)) as (X & HX & Hx).
      { intros y Hy. apply Hl. by right. }
      exists X. split; [done|]. intros x. rewrite Hx, elem_of_cons.
      destruct (inherited files name) eqn:Ek; [rewrite elem_of_union, elem_of_singleton|]; naive_solver congruence. }
  destruct (Hl (elements W) ∅) as (X & HX & Hx).
  { intros name Hn. apply HW. by apply elem_of_elements. }
  rewrite HX. cbn [mbind res_bind]. do 2 f_equal. apply set_eq. intros x.
  rewrite Hx, elem_of_filter, elem_of_elements. set_solver.
Qed.

(** ** What is wanted of the newest backup *)

(** Two sets of wanted files that agree on the names in the archives of the
    backup, and on what is left to the older ones, restore the same. *)
Section Wanted.
Context {UserData : Type} {R : Type} `{Reader R} {T : Type} `{OsFile T}.
Variable copyFuel : nat.
Notation Interpreter := (FileTarInterpreter (UserData := UserData)).
Implicit Types ti : Interpreter.

Definition rewanted (W : option (gset string)) ti : Interpreter :=
  mkInterpreter (DBDataDirectory ti) (tiSentinel ti) W (tiUnwrapResult ti) (createNewIncrementalFiles ti).

Definition rewanted_result (W : option (gset string)) {X} (r : res error Interpreter * X) : res error Interpreter * X :=
  (match r.1 with Ok ti => Ok (rewanted W ti) | Err err => Err err end, r.2).

Lemma Interpret_rewanted useNew ti W name (s : R) (fs : gmap string T) :
  notWanted (rewanted W ti) name = notWanted ti name ->
  Interpret copyFuel useNew (rewanted W ti) name s fs =
    rewanted_result W (Interpret copyFuel useNew ti name s fs) /\
  forall ti' fs', Interpret copyFuel useNew ti name s fs = (Ok ti', fs') -> FilesToUnwrap ti' = FilesToUnwrap ti.
Proof.
  intros Hw. unfold Interpret. destruct useNew.
  - unfold unwrapRegularFileNew. rewrite Hw. cbn [rewanted DBDataDirectory].
    destruct (notWanted ti name); [split; [done|by intros ? ? [= <- _]]|].
    change (getFileUnwrapper (rewanted W ti)) with (getFileUnwrapper ti (T := T)).
    destruct (getFileUnwrapper ti name _ fs) as [u|e]; [|split; [done|by intros ? ? [=]]].
    destruct (match fs !! _ with Some f => _ | None => _ end) as [[r|e] [s' f]]; [|split; [done|by intros ? ? [=]]].
    split; [done|by intros ? ? [= <- _]].
  - unfold unwrapRegularFileOld. rewrite Hw. cbn [rewanted DBDataDirectory tiSentinel createNewIncrementalFiles].
    destruct (notWanted ti name); [split; [done|by intros ? ? [= <- _]]|].
    destruct (match Files _ !! name with Some d => _ | None => _ end) as [[|]|e]; [| |split; [done|by intros ? ? [=]]].
    + destruct (ApplyFileIncrement _ _ _) as [[x|e] [s' f]]; (split; [done|]); [by intros ? ? [= <- _]|by intros ? ? [=]].
    + destruct (writeLocalFile _ _) as [[x|e] [s' f]]; (split; [done|]); [by intros ? ? [= <- _]|by intros ? ? [=]].
Qed.

Definition wants (W : option (gset string)) (name : string) : bool :=
  match W with Some W => bool_decide (name ∈ W) | None => true end.

Definition same_wanted (W W' : option (gset string)) (files : list (string * R)) : Prop :=
  Forall (fun x => wants W' x.1 = wants W x.1) files.

Lemma extract_rewanted useNew W' files : forall ti (fs : gmap string T), same_wanted (FilesToUnwrap ti) W' files ->
  extract copyFuel useNew (rewanted W' ti) files fs = rewanted_result W' (extract copyFuel useNew ti files fs) /\
  forall ti' fs', extract copyFuel useNew ti files fs = (Ok ti', fs') -> FilesToUnwrap ti' = FilesToUnwrap ti.
Proof.
  induction files as [|[name s] files IH]; intros ti fs Hs; cbn [extract].
  { split; [done|by intros ? ? [= <- _]]. }
  apply Forall_cons in Hs as [Hn Hs]. cbn [fst] in Hn.
  destruct (Interpret_rewanted useNew ti W' name s fs) as [-> Hf].
  { unfold notWanted. cbn [rewanted FilesToUnwrap]. unfold wants in Hn.
    destruct W', (FilesToUnwrap ti); first [done|by rewrite Hn|by rewrite <- Hn]. }
  destruct (Interpret copyFuel useNew ti name s fs) as [[ti1|e] fs1]; cbn [rewanted_result fst snd];
    [|split; [done|by intros ? ? [=]]].
  specialize (Hf ti1 fs1 eq_refl). rewrite <- Hf in Hs |- *. by apply IH.
Qed.

Lemma extractBackup_rewanted useNew W' ti tars pg need (fs : gmap string T) :
  same_wanted (FilesToUnwrap ti) W' (tars ≫= snd) ->
  (forall tar, pg = Some tar -> same_wanted (FilesToUnwrap ti) W' (snd tar)) ->
  extractBackup copyFuel useNew (rewanted W' ti) tars pg need fs =
    rewanted_result W' (extractBackup copyFuel useNew ti tars pg need fs).
Proof.
  intros Ht Hpg. unfold extractBackup. destruct (extract_rewanted useNew W' _ ti fs Ht) as [-> Hf].
  destruct (extract copyFuel useNew ti _ fs) as [[ti1|e] fs1]; cbn [rewanted_result fst snd]; [|done].
  specialize (Hf ti1 fs1 eq_refl). destruct pg as [tar|]; [|done]. destruct need; [|done].
  destruct (extract_rewanted useNew W' (snd tar) ti1 fs1) as [-> _]; [by rewrite Hf; apply Hpg|].
  by destruct (extract copyFuel useNew ti1 _ fs1) as [[ti2|e] fs2].
Qed.

(** Every archive that is chosen is one of the backup. *)
Lemma splitTars_in (tars : list (archive (R := R))) wanted : forall pg ts pg', splitTars tars pg wanted = Ok (ts, pg') ->
  (forall tar, tar ∈ ts -> tar ∈ tars) /\ (forall tar, pg' = Some tar -> pg = Some tar \/ tar ∈ tars).
Proof.
  induction tars as [|tar tars IH]; intros pg ts pg' E; cbn [splitTars] in E.
  { injection E as <- <-. split; [by intros ? ?%elem_of_nil|by left]. }
  destruct (isPgControlTar (fst tar)).
  - destruct pg; [done|]. destruct (IH _ _ _ E) as [H1' H2']. split; [intros t Ht; right; auto|].
    intros t Ht. right. destruct (H2' t Ht) as [[= ->]|?]; [by left|by right].
  - destruct (splitTars tars pg wanted) as [[ts1 pg1]|e] eqn:E1; [|done]. cbn [mbind res_bind fst snd] in E.
    destruct (IH _ _ _ E1) as [H1' H2'].
    destruct (wanted (fst tar)); injection E as <- <-; (split; [|intros t Ht; destruct (H2' t Ht); [by left|right; by right]]).
    + intros t [->|Ht]%elem_of_cons; [by left|right; auto].
    + intros t Ht. right. auto.
Qed.

Section Backup.
Variable backup : StoredBackup (UserData := UserData) (R := R).
Variable W W' : option (gset string).
Hypothesis Hsame : same_wanted W W' (archives backup ≫= snd).
Variable name dbDataDirectory : string.
Variable dto : BackupSentinelDto SentinelFiles UserData.

Lemma same_archive tar : tar ∈ archives backup -> same_wanted W W' (snd tar).
Proof.
  intros Ht. unfold same_wanted in *. rewrite Forall_forall in *. intros x Hx. apply Hsame.
  apply list_elem_of_bind. by exists tar.
Qed.

(** The archives to extract do not depend on what is wanted, and agree on it. *)
Lemma chooseTars_rewanted : chooseTars name backup dto W' false = chooseTars name backup dto W false /\
  forall tars pg need, chooseTars name backup dto W false = Ok (tars, pg, need) ->
    same_wanted W W' (tars ≫= snd) /\ forall tar, pg = Some tar -> same_wanted W W' (snd tar).
Proof.
  split; [done|]. intros tars pg need. unfold chooseTars, getTarsToExtract.
  destruct (splitTars (archives backup) None _) as [[ts p]|e] eqn:E; [|done]. cbn [mbind res_bind].
  destruct (IsPgControlRequired name dto) as [n|e]; [|done]. cbn [mbind res_bind]. intros Ho.
  assert (ts = tars /\ p = pg) as [-> ->] by (destruct p, n; by simplify_eq).
  destruct (splitTars_in _ _ _ _ _ E) as [Hin Hpg]. split.
  - unfold same_wanted. rewrite Forall_forall. intros x (tar & Hx & Ht)%list_elem_of_bind.
    pose proof (same_archive tar (Hin tar Ht)) as Hs. unfold same_wanted in Hs. rewrite Forall_forall in Hs. by apply Hs.
  - intros tar Htar. destruct (Hpg tar Htar) as [?|?]; [done|by apply same_archive].
Qed.

Lemma unwrapNew_rewanted d : unwrapNew copyFuel name backup dbDataDirectory dto W' false false d =
  unwrapNew (T := T) copyFuel name backup dbDataDirectory dto W false false d.
Proof.
  unfold unwrapNew. destruct (prepareTablespaces _ _) as [[e|] ls]; [done|].
  destruct chooseTars_rewanted as [-> Hc]. destruct (chooseTars name backup dto W false) as [[[tars pg] need]|e]; [|done].
  destruct (Hc tars pg need eq_refl) as [Ht Hpg]. destruct tars as [|tar tars]; [done|].
  change (NewFileTarInterpreter dbDataDirectory dto W' false) with (rewanted W' (NewFileTarInterpreter dbDataDirectory dto W false)).
  rewrite extractBackup_rewanted by done. by destruct (extractBackup _ _ _ _ _ _ _) as [[ti|e] fs].
Qed.

Lemma unwrapToEmptyDirectory_rewanted d : unwrapToEmptyDirectory copyFuel name backup dbDataDirectory dto W' false d =
  unwrapToEmptyDirectory (T := T) copyFuel name backup dbDataDirectory dto W false d.
Proof.
  unfold unwrapToEmptyDirectory. destruct (checkDBDirectoryForUnwrap dto d) as [[e|] d']; [done|]. unfold unwrapOld.
  destruct chooseTars_rewanted as [-> Hc]. destruct (chooseTars name backup dto W false) as [[[tars pg] need]|e]; [|done].
  destruct (Hc tars pg need eq_refl) as [Ht Hpg]. destruct tars as [|tar tars]; [done|].
  change (NewFileTarInterpreter dbDataDirectory dto W' false) with (rewanted W' (NewFileTarInterpreter dbDataDirectory dto W false)).
  rewrite extractBackup_rewanted by done. by destruct (extractBackup _ _ _ _ _ _ _) as [[ti|e] fs].
Qed.
End Backup.

(** The whole restore. *)
Lemma fetch_rewanted (backups : gmap string (StoredBackup (UserData := UserData) (R := R))) dbDataDirectory fuel name backup spec W W' missing
    (d : Dir (T := T)) :
  backups !! name = Some backup -> same_wanted W W' (archives backup ≫= snd) ->
  GetBaseFilesToUnwrap (Files (content (sentinelDto backup))) W' = GetBaseFilesToUnwrap (Files (content (sentinelDto backup))) W ->
  deltaFetchRecursionOld copyFuel backups dbDataDirectory fuel name spec W' d =
    deltaFetchRecursionOld copyFuel backups dbDataDirectory fuel name spec W d /\
  deltaFetchRecursionNew copyFuel backups dbDataDirectory fuel name spec false (mkFetchConfig W' missing) d =
    deltaFetchRecursionNew copyFuel backups dbDataDirectory fuel name spec false (mkFetchConfig W missing) d.
Proof.
  intros Hb Hs Hg. destruct fuel as [|fuel]; [done|]. cbn [deltaFetchRecursionOld deltaFetchRecursionNew]. rewrite Hb.
  cbv zeta. set (spec' := Some _). set (dto := withTablespaceSpec _ spec').
  change (Files (content dto)) with (Files (content (sentinelDto backup))). cbn [filesToUnwrap missingBlocks]. rewrite Hg.
  assert (forall d, unwrapToEmptyDirectory copyFuel name backup dbDataDirectory dto W' false d =
    unwrapToEmptyDirectory (T := T) copyFuel name backup dbDataDirectory dto W false d) as Ho
    by (intros; by apply unwrapToEmptyDirectory_rewanted).
  rewrite (unwrapNew_rewanted backup W W' Hs name dbDataDirectory dto d), !Ho. split; [|done].
  destruct (IsIncremental dto) as [[|]|]; [|done..]. destruct (seIncrementFrom dto); [|done].
  destruct (GetBaseFilesToUnwrap _ W); [|done]. destruct (deltaFetchRecursionOld _ _ _ _ _ _ _) as [[x|e] d']; [|done]. apply Ho.
Qed.
End Wanted.
