(* ===== verification/FetchTheorems.v ===== *)
(** * Restoring a chain of backups

    Both recursions of [backup-fetch] on a chain of stored backups whose
    archives hold the files as their histories say: the one that starts with
    the oldest backup and the one that starts with the newest leave the same
    files, with the contents they had at the time of the newest backup. *)

From stdpp Require Import gmap strings.
From S2P Require Import Prelude GoIO WalRecord WalPage WalFile PagedFile.
From S2P Require Import GoStrings GoPath Timeline DeltaMap Backups BackupMeta Tablespace IncPages IncSpec Unwrap Fetch FetchSpec.
Open Scope Z_scope.

Section Chain.
Context {UserData : Type} {R : Type} `{LawfulReader R} {T : Type} `{LawfulFile T}.
Variable copyFuel : nat.
Variable backups : gmap string (StoredBackup (UserData := UserData) (R := R)).
Variable dbDataDirectory : string.
Notation FS := (gmap string T).
Notation history := (list (version * list byte)).

(** ** Chains *)

(** A stored backup: its archives, [pg_control] apart. *)
Record stage := mkStage {
  stName : string;
  stBackup : StoredBackup (UserData := UserData) (R := R);
  stTars : list (archive (R := R));
  stPgControl : archive (R := R)
}.

Definition stDto (st : stage) := sentinelDto (stBackup st).
Definition stFiles (st : stage) : list (string * R) := (stTars st ≫= snd) ++ snd (stPgControl st).

(** No tablespace has to be linked. *)
Definition no_tablespaces (spec : option TablespaceSpec) : Prop :=
  match spec with Some spec => specEmpty spec = true | None => True end.

Record stage_ok (st : stage) (base : option string) : Prop := {
  stage_stored : backups !! stName st = Some (stBackup st);
  stage_tars : splitTars (archives (stBackup st)) None (fun _ => true) = Ok (stTars st, Some (stPgControl st));
  stage_some : stTars st <> [];
  stage_pg : IsPgControlRequired (stName st) (stDto st) = Ok true;
  stage_from : seIncrementFrom (stDto st) = base;
  stage_inc : IsIncremental (stDto st) = Ok (if base is Some _ then true else false);
  stage_nodup : NoDup (stFiles st).*1;
  stage_spec : no_tablespaces (sfTablespaceSpec (content (stDto st)))
}.

(** Every backup is an increment of the next one, the last one is not. *)
Fixpoint chain_ok (chain : list stage) : Prop :=
  match chain with
  | [] => False
  | st :: older =>
      stage_ok st (stName <$> head older) /\
      match older with [] => True | _ => chain_ok older end
  end.

Definition pathOf (name : string) : string := GoPath.Join dbDataDirectory name.

(** One file of a backup, as its history says. *)
Definition file_ok (st : stage) (name : string) (h : history) : Prop :=
  exists v g older, h = (v, g) :: older /\
    stored_as (Files (content (stDto st))) name v /\
    match version_bytes v g with
    | Some bytes => exists s, (name, s) ∈ stFiles st /\ avail s = bytes /\ (length g < copyFuel)%nat
    | None => name ∉ (stFiles st).*1
    end.

(** The file is still wanted from the older backups. *)
Definition keeps (h : history) : bool :=
  match h with (VIncr _ _, _) :: _ | (VSkip, _) :: _ => true | _ => false end.

Definition kept (hist : string -> history) (W : gset string) : gset string :=
  filter (fun name => keeps (hist name) = true) W.

Definition older (hist : string -> history) : string -> history := fun name => tail (hist name).

(** The files [W] in every backup of the chain. *)
Fixpoint files_ok (chain : list stage) (hist : string -> history) (W : gset string) : Prop :=
  match chain with
  | [] => W = ∅
  | st :: chain => (forall name, name ∈ W -> file_ok st name (hist name)) /\ files_ok chain (older hist) (kept hist W)
  end.

(** What a history must be like on its own. *)
Definition name_ok (final : string -> list byte) (name : string) (h : history) : Prop :=
  history_ok h /\ blank_stable (final name) h /\
  (forall n bl g, (VIncr n bl, g) ∈ h -> data_file (pathOf name) = true).

Lemma history_tail h : history_ok h -> keeps h = true -> history_ok (tail h).
Proof. intros Hh Hk. by inversion Hh; subst. Qed.

Lemma history_end h : history_ok h -> keeps h = false -> tail h = [].
Proof. intros Hh Hk. by inversion Hh; subst. Qed.

Lemma name_ok_tail final name h : name_ok final name h -> keeps h = true -> name_ok final name (tail h).
Proof.
  intros (Hh & Hb & Hd) Hk. pose proof (history_tail h Hh Hk) as Ht.
  destruct h as [|[v g] h]; [done|]. cbn [tail] in *. split_and!; [done| |].
  - intros i g' Hi Hm Hg. apply Hb; [done|done|by right].
  - intros n bl g' Hin. apply (Hd n bl g'). by right.
Qed.

Lemma elem_of_kept hist W name : name ∈ kept hist W <-> keeps (hist name) = true /\ name ∈ W.
Proof. unfold kept. by rewrite elem_of_filter. Qed.

Lemma stored_keeps files name v g h : stored_as files name v ->
  (is_Some (files !! name) \/ name ∈ UtilityFilePaths) /\ inherited files name = keeps ((v, g) :: h).
Proof.
  unfold stored_as, inherited. destruct (files !! name) as [d|].
  - intros [-> ->]. split; [left; eauto|by destruct v].
  - intros [Hu ->]. split; [by right|done].
Qed.

(** The files wanted from the next older backup. *)
Lemma GetBaseFilesToUnwrap_ok st hist W :
  (forall name, name ∈ W -> file_ok st name (hist name)) ->
  GetBaseFilesToUnwrap (Files (content (stDto st))) (Some W) = Ok (Some (kept hist W)).
Proof.
  intros HW.
  assert (forall name, name ∈ W -> (is_Some (Files (content (stDto st)) !! name) \/ name ∈ UtilityFilePaths) /\
    inherited (Files (content (stDto st))) name = keeps (hist name)) as Hn.
  { intros name Hin. destruct (HW name Hin) as (v & g & h & -> & Hst & _). by apply stored_keeps. }
  rewrite GetBaseFilesToUnwrap_known by (intros name Hin; by apply Hn). do 2 f_equal. apply set_eq. intros x.
  rewrite elem_of_filter, elem_of_kept. naive_solver congruence.
Qed.

(** ** One backup *)

Lemma prepare_nothing spec links : no_tablespaces spec -> prepareTablespaces spec links = (None, links).
Proof. intros Hs. destruct spec as [spec|]; [|done]. cbn in *. by rewrite Hs. Qed.

Lemma choose_nothing spec spec' : no_tablespaces spec -> no_tablespaces spec' ->
  no_tablespaces (Some (chooseTablespaceSpecification spec spec')).
Proof. by destruct spec, spec'. Qed.

Notation dtoWith st spec := (withTablespaceSpec (stDto st) spec).


Definition distinct_paths (W : gset string) : Prop :=
  forall a b, a ∈ W -> b ∈ W -> pathOf a = pathOf b -> a = b.

(** The paths of [W] are as [P] says, and no other path has changed. *)
Definition changed_to (W : gset string) (P : string -> option T -> Prop) (fs fs' : FS) : Prop :=
  (forall name, name ∈ W -> P name (fs' !! pathOf name)) /\
  (forall path, (forall name, name ∈ W -> path <> pathOf name) -> fs' !! path = fs !! path).

(** Every file of [W] that the backup stores is taken from [start] to [goal],
    and one that it does not store is in [goal] as it is. *)
Lemma extract_stage useNew st W spec (start goal : string -> option T -> Prop) fs :
  let ti := NewFileTarInterpreter dbDataDirectory (dtoWith st spec) (Some W) false in
  NoDup (stFiles st).*1 -> distinct_paths W ->
  (forall name, name ∈ W -> start name (fs !! pathOf name)) ->
  (forall name s, name ∈ W -> (name, s) ∈ stFiles st -> takes copyFuel useNew ti name s (start name) (goal name)) ->
  (forall name file, name ∈ W -> name ∉ (stFiles st).*1 -> start name file -> goal name file) ->
  exists ti' fs', extract copyFuel useNew ti (stFiles st) fs = (Ok ti', fs') /\ changed_to W goal fs fs'.
Proof.
  intros ti Hn Hinj Hstart Htakes Hskip.
  assert (forall name, notWanted ti name = false <-> name ∈ W) as Hw.
  { intros name. cbn. rewrite negb_false_iff, bool_decide_eq_true. done. }
  destruct (extract_ok copyFuel useNew start goal (stFiles st) ti ti fs) as (ti' & fs' & Hex & _ & Hg & Hu);
    [done|done| | |].
  { intros a b _ _ Ha%Hw Hb%Hw. by apply Hinj. }
  { intros name s Hin Hwn%Hw. split; [by apply Htakes|by apply Hstart]. }
  exists ti', fs'. split; [done|]. split.
  - intros name HnW. destruct (decide (name ∈ (stFiles st).*1)) as [Hin|Hni].
    + apply Hg; [done|by apply Hw].
    + rewrite Hu; [apply Hskip; [done|done|by apply Hstart]|].
      intros b Hb HbW%Hw He. apply Hni. by rewrite (Hinj name b HnW HbW He).
  - intros path Hp. apply Hu. intros name _ HnW%Hw. by apply Hp.
Qed.

Lemma chooseTars_ok st base W spec : stage_ok st base ->
  chooseTars (stName st) (stBackup st) (dtoWith st spec) (Some W) false = Ok (stTars st, Some (stPgControl st), true).
Proof.
  intros [_ Ht _ Hpg _ _ _ _]. unfold chooseTars, getTarsToExtract.
  change (fun tarName => negb false || _) with (fun _ : string => true). rewrite Ht. cbn [mbind res_bind].
  change (IsPgControlRequired (stName st) (dtoWith st spec)) with (IsPgControlRequired (stName st) (stDto st)).
  by rewrite Hpg.
Qed.

Lemma extractBackup_ok useNew (ti ti' : FileTarInterpreter (UserData := UserData)) st fs fs' : extract copyFuel useNew ti (stFiles st) fs = (Ok ti', fs') ->
  extractBackup copyFuel useNew ti (stTars st) (Some (stPgControl st)) true fs = (Ok ti', fs').
Proof.
  unfold stFiles, extractBackup. rewrite extract_app.
  destruct (extract _ _ _ (_ ≫= snd) fs) as [[ti1|e] fs1]; [|done]. by intros ->.
Qed.

Lemma unwrapNew_ok st base W spec fs links ti' fs' :
  stage_ok st base -> no_tablespaces spec ->
  extract copyFuel true (NewFileTarInterpreter dbDataDirectory (dtoWith st spec) (Some W) false) (stFiles st) fs = (Ok ti', fs') ->
  unwrapNew copyFuel (stName st) (stBackup st) dbDataDirectory (dtoWith st spec) (Some W) false false (mkDir fs links) =
    (Ok (tiUnwrapResult ti'), mkDir fs' links).
Proof.
  intros Hst Hsp He. unfold unwrapNew. cbn [Fetch.links]. rewrite prepare_nothing by done.
  rewrite (chooseTars_ok st base) by done. pose proof (stage_some _ _ Hst).
  destruct (stTars st) as [|tar tars] eqn:E; [done|]. rewrite <- E. cbn [regular].
  by rewrite (extractBackup_ok _ _ _ _ _ _ He).
Qed.

Lemma unwrapOld_ok st base W spec fs links ti' fs' :
  stage_ok st base -> no_tablespaces spec -> (base = None -> fs = ∅ /\ links = ∅) ->
  extract copyFuel false (NewFileTarInterpreter dbDataDirectory (dtoWith st spec) (Some W) false) (stFiles st) fs = (Ok ti', fs') ->
  unwrapToEmptyDirectory copyFuel (stName st) (stBackup st) dbDataDirectory (dtoWith st spec) (Some W) false (mkDir fs links) =
    (Ok tt, mkDir fs' links).
Proof.
  intros Hst Hsp Hbase He. unfold unwrapToEmptyDirectory, checkDBDirectoryForUnwrap.
  change (IsIncremental (dtoWith st spec)) with (IsIncremental (stDto st)). rewrite (stage_inc _ _ Hst).
  cbn [regular Fetch.links].
  assert (negb (if base is Some _ then true else false) && negb (bool_decide (fs = ∅) && bool_decide (links = ∅)) = false) as ->.
  { destruct base; [done|]. destruct Hbase as [-> ->]; [done|]. by rewrite !bool_decide_eq_true_2. }
  rewrite prepare_nothing by done. unfold unwrapOld. rewrite (chooseTars_ok st base) by done.
  pose proof (stage_some _ _ Hst). destruct (stTars st) as [|tar tars] eqn:E; [done|]. rewrite <- E. cbn [regular].
  by rewrite (extractBackup_ok _ _ _ _ _ _ He).
Qed.

(** What [file_ok] says of an entry of the archives. *)
Lemma file_entry st name h s : NoDup (stFiles st).*1 -> file_ok st name h -> (name, s) ∈ stFiles st ->
  exists v g older, h = (v, g) :: older /\ stored_as (Files (content (stDto st))) name v /\
    version_bytes v g = Some (avail s) /\ (length g < copyFuel)%nat.
Proof.
  intros Hn (v & g & h' & -> & Hst & Hv) Hin. exists v, g, h'. split; [done|]. split; [done|].
  destruct (version_bytes v g) as [bytes|].
  - destruct Hv as (s' & Hin' & <- & Hg). split; [|done].
    assert (s' = s) as ->; [|done].
    apply list_elem_of_lookup in Hin as [i Hi]. apply list_elem_of_lookup in Hin' as [j Hj].
    assert (i = j) as ->.
    { eapply (NoDup_lookup (stFiles st).*1); [done| |]; rewrite list_lookup_fmap; [by rewrite Hi|by rewrite Hj]. }
    congruence.
  - exfalso. apply Hv. by apply (list_elem_of_fmap_2 fst) in Hin.
Qed.

Lemma file_skipped st name h : NoDup (stFiles st).*1 -> file_ok st name h -> name ∉ (stFiles st).*1 ->
  exists g older, h = (VSkip, g) :: older.
Proof.
  intros Hn (v & g & h' & -> & Hst & Hv) Hni. destruct v; cbn in Hv; [| |by exists g, h'].
  all: destruct Hv as (s & Hin & _); apply (list_elem_of_fmap_2 fst) in Hin; done.
Qed.

Lemma disk_skip path final g h file :
  history_ok ((VSkip, g) :: h) -> disk path final ((VSkip, g) :: h) file -> disk path final h file.
Proof.
  intros Hh [Hd Hf]. inversion Hh; subst. split; [|done]. destruct file as [f|].
  - destruct Hd as (v1 & g1 & o1 & n & m & [= <- <- <-] & Hr). by eexists _, _, _, n, m.
  - destruct Hd as (v1 & o1 & [= <- <- <-]). by eexists _, _.
Qed.

Lemma stage_new final st base hist W spec fs links :
  stage_ok st base -> no_tablespaces spec -> distinct_paths W ->
  (forall name, name ∈ W -> file_ok st name (hist name) /\ name_ok final name (hist name) /\
     disk (pathOf name) (final name) (hist name) (fs !! pathOf name)) ->
  exists r fs', unwrapNew copyFuel (stName st) (stBackup st) dbDataDirectory (dtoWith st spec) (Some W) false false
      (mkDir fs links) = (Ok r, mkDir fs' links) /\
    changed_to W (fun name => disk (pathOf name) (final name) (older hist name)) fs fs'.
Proof.
  intros Hst Hsp Hinj HW. assert (Hn := stage_nodup _ _ Hst).
  destruct (extract_stage true st W spec (fun name => disk (pathOf name) (final name) (hist name))
    (fun name => disk (pathOf name) (final name) (older hist name)) fs) as (ti' & fs' & He & Hc); [done|done| | | |].
  - intros name HnW. by apply HW.
  - intros name s HnW Hin. destruct (HW name HnW) as (Hf & (Hh & Hb & Hd) & _).
    destruct (file_entry st name _ s Hn Hf Hin) as (v & g & h & Hhe & Hsa & Hv & Hg).
    unfold older. rewrite Hhe in *. cbn [tail].
    eapply takes_new; [cbn; by rewrite bool_decide_eq_true_2|done|done|done|done|done|done|done|].
    intros Hvf. destruct v as [|n bl|]; [done| |done]. apply (Hd n bl g). by left.
  - intros name file HnW Hni Hd. destruct (HW name HnW) as (Hf & (Hh & _) & _).
    destruct (file_skipped st name _ Hn Hf Hni) as (g & h & Hhe). unfold older. rewrite Hhe in *.
    by eapply disk_skip.
  - exists (tiUnwrapResult ti'), fs'. split; [by eapply unwrapNew_ok|done].
Qed.

Lemma stage_old final st base hist W spec fs links :
  stage_ok st base -> no_tablespaces spec -> distinct_paths W -> (base = None -> fs = ∅ /\ links = ∅) ->
  (forall name, name ∈ W -> file_ok st name (hist name) /\ name_ok final name (hist name) /\
     was (older hist name) (fs !! pathOf name)) ->
  (base = None -> kept hist W = ∅) ->
  exists fs', unwrapToEmptyDirectory copyFuel (stName st) (stBackup st) dbDataDirectory (dtoWith st spec) (Some W) false
      (mkDir fs links) = (Ok tt, mkDir fs' links) /\
    changed_to W (fun name => was (hist name)) fs fs'.
Proof.
  intros Hst Hsp Hinj Hempty HW Hk. assert (Hn := stage_nodup _ _ Hst).
  destruct (extract_stage false st W spec (fun name => was (older hist name))
    (fun name => was (hist name)) fs) as (ti' & fs' & He & Hc); [done|done| | | |].
  - intros name HnW. by apply HW.
  - intros name s HnW Hin. destruct (HW name HnW) as (Hf & (Hh & Hb & Hd) & _).
    destruct (file_entry st name _ s Hn Hf Hin) as (v & g & h & Hhe & Hsa & Hv & Hg).
    unfold older. rewrite Hhe in *. cbn [tail].
    eapply takes_old; [cbn; by rewrite bool_decide_eq_true_2|done|done|done|done|done|apply (stage_inc _ _ Hst)|].
    intros Hvf. destruct base; [done|]. exfalso. specialize (Hk eq_refl). apply (not_elem_of_empty (C := gset string) name).
    rewrite <- Hk, elem_of_kept, Hhe. by destruct v.
  - intros name file HnW Hni Hd. destruct (HW name HnW) as (Hf & (Hh & _) & _).
    destruct (file_skipped st name _ Hn Hf Hni) as (g & h & Hhe). unfold older in Hd. rewrite Hhe in *.
    by inversion Hh; subst.
  - exists fs'. split; [by eapply unwrapOld_ok|done].
Qed.
(** ** The chain *)

Definition restored_to (final : string -> list byte) (name : string) (file : option T) : Prop :=
  exists f, file = Some f /\ contents f = final name.

Lemma kept_subset hist W name : name ∈ kept hist W -> name ∈ W.
Proof. by intros [_ ?]%elem_of_kept. Qed.

Lemma distinct_kept hist W : distinct_paths W -> distinct_paths (kept hist W).
Proof. intros Hd a b Ha%kept_subset Hb%kept_subset. by apply Hd. Qed.

(** A file that is not kept has nothing older, and its path is not touched
    again. *)
Lemma not_kept hist W name P fs fs' : name ∈ W -> name ∉ kept hist W -> distinct_paths W ->
  history_ok (hist name) -> changed_to (kept hist W) P fs fs' ->
  older hist name = [] /\ fs' !! pathOf name = fs !! pathOf name.
Proof.
  intros HW Hni Hd Hh [_ Hu]. split.
  - apply history_end; [done|]. destruct (keeps (hist name)) eqn:E; [|done].
    exfalso. apply Hni. by apply elem_of_kept.
  - apply Hu. intros b Hb He. apply Hni. by rewrite (Hd name b HW (kept_subset _ _ _ Hb) He).
Qed.

(** The specification a backup is restored with. *)
Lemma stage_choose st base spec : stage_ok st base -> no_tablespaces spec ->
  no_tablespaces (Some (chooseTablespaceSpecification (sfTablespaceSpec (content (sentinelDto (stBackup st)))) spec)).
Proof. intros Hst Hs. apply choose_nothing; [apply (stage_spec _ _ Hst)|done]. Qed.

(** The file is not looked at in an older backup. *)
Lemma last_of_history final hist W name :
  (forall name, name ∈ W -> name_ok final name (hist name)) -> name ∈ W -> name ∉ kept hist W -> older hist name = [].
Proof.
  intros Hn HnW Hni. apply history_end; [by apply Hn|]. destruct (keeps (hist name)) eqn:E; [|done].
  exfalso. apply Hni. by apply elem_of_kept.
Qed.

Lemma new_chain final chain : forall fuel st hist W missing spec fs links,
  head chain = Some st -> chain_ok chain -> (length chain <= fuel)%nat -> files_ok chain hist W -> distinct_paths W ->
  no_tablespaces spec ->
  (forall name, name ∈ W -> name_ok final name (hist name)) ->
  (forall name, name ∈ W -> disk (pathOf name) (final name) (hist name) (fs !! pathOf name)) ->
  exists fs', deltaFetchRecursionNew copyFuel backups dbDataDirectory fuel (stName st) spec false
      (mkFetchConfig (Some W) missing) (mkDir fs links) = (Ok tt, mkDir fs' links) /\
    changed_to W (restored_to final) fs fs'.
Proof.
  induction chain as [|st' chain IH];
    intros fuel st hist W missing spec fs links [= ->] [Hst Hch] Hf [HW Hfs] Hd Hsp Hn Hdk.
  destruct fuel as [|fuel]; [cbn in Hf; lia|]. cbn [deltaFetchRecursionNew]. rewrite (stage_stored _ _ Hst).
  pose proof (stage_choose st _ spec Hst Hsp) as Hsp'. cbv zeta.
  set (spec' := Some (chooseTablespaceSpecification _ spec)) in *.
  destruct (stage_new final st _ hist W spec' fs links Hst Hsp' Hd) as (r & fs1 & Hu & Hc1).
  { intros name HnW. split; [by apply HW|]. split; [by apply Hn|by apply Hdk]. }
  pose proof (stage_inc _ _ Hst) as Hi. pose proof (stage_from _ _ Hst) as Hfr.
  change (withTablespaceSpec (sentinelDto (stBackup st)) spec') with (dtoWith st spec').
  change (IsIncremental (dtoWith st spec')) with (IsIncremental (stDto st)).
  change (seIncrementFrom (dtoWith st spec')) with (seIncrementFrom (stDto st)).
  rewrite Hi, Hfr. cbn [filesToUnwrap missingBlocks]. destruct chain as [|st2 chain]; cbn [head fmap option_fmap option_map].
  - rewrite Hu. exists fs1. split; [done|]. cbn in Hfs. destruct Hc1 as [Hp Hu1]. split; [|done].
    intros name HnW. specialize (Hp name HnW). cbn beta in Hp.
    by rewrite (last_of_history final hist W name) in Hp by (done || (rewrite Hfs; apply not_elem_of_empty)).
  - change (Files (content (dtoWith st spec'))) with (Files (content (stDto st))).
    rewrite (GetBaseFilesToUnwrap_ok st hist W HW), Hu.
    destruct (IH fuel st2 (older hist) (kept hist W) missing spec' fs1 links) as (fs' & -> & Hc2);
      [done|done|cbn in *; lia|done|by apply distinct_kept|done| | |].
    { intros name [Hk HnW]%elem_of_kept. apply name_ok_tail; [by apply Hn|done]. }
    { intros name [Hk HnW]%elem_of_kept. by apply Hc1. }
    exists fs'. split; [done|]. split.
    + intros name HnW. destruct (decide (name ∈ kept hist W)) as [Hin|Hni]; [by apply Hc2|].
      destruct (not_kept hist W name _ _ _ HnW Hni Hd (proj1 (Hn name HnW)) Hc2) as [Ho Hfe].
      rewrite Hfe. destruct Hc1 as [Hp _]. specialize (Hp name HnW). cbn beta in Hp. by rewrite Ho in Hp.
    + intros path Hp. destruct Hc1 as [_ Hu1], Hc2 as [_ Hu2]. rewrite Hu2; [by apply Hu1|].
      intros name Hk. apply Hp. by eapply kept_subset.
Qed.

Lemma old_chain final chain : forall fuel st hist W spec,
  head chain = Some st -> chain_ok chain -> (length chain <= fuel)%nat -> files_ok chain hist W -> distinct_paths W ->
  no_tablespaces spec ->
  (forall name, name ∈ W -> name_ok final name (hist name)) ->
  exists fs', deltaFetchRecursionOld copyFuel backups dbDataDirectory fuel (stName st) spec (Some W) (mkDir ∅ ∅) =
      (Ok tt, mkDir fs' ∅) /\
    changed_to W (fun name => was (hist name)) ∅ fs'.
Proof.
  induction chain as [|st' chain IH]; intros fuel st hist W spec [= ->] [Hst Hch] Hf [HW Hfs] Hd Hsp Hn.
  destruct fuel as [|fuel]; [cbn in Hf; lia|]. cbn [deltaFetchRecursionOld]. rewrite (stage_stored _ _ Hst).
  pose proof (stage_choose st _ spec Hst Hsp) as Hsp'. cbv zeta.
  set (spec' := Some (chooseTablespaceSpecification _ spec)) in *.
  pose proof (stage_inc _ _ Hst) as Hi. pose proof (stage_from _ _ Hst) as Hfr.
  change (withTablespaceSpec (sentinelDto (stBackup st)) spec') with (dtoWith st spec').
  change (IsIncremental (dtoWith st spec')) with (IsIncremental (stDto st)).
  change (seIncrementFrom (dtoWith st spec')) with (seIncrementFrom (stDto st)).
  rewrite Hi, Hfr. destruct chain as [|st2 chain]; cbn [head fmap option_fmap option_map] in *.
  - apply (stage_old final st None hist W spec' ∅ ∅ Hst Hsp' Hd); [done| |done]. intros name HnW.
    split; [by apply HW|]. split; [by apply Hn|].
    by rewrite (last_of_history final hist W name) by (done || (rewrite Hfs; apply not_elem_of_empty)).
  - change (Files (content (dtoWith st spec'))) with (Files (content (stDto st))).
    rewrite (GetBaseFilesToUnwrap_ok st hist W HW).
    destruct (IH fuel st2 (older hist) (kept hist W) spec') as (fs1 & -> & Hc1);
      [done|done|cbn in *; lia|done|by apply distinct_kept|done| |].
    { intros name [Hk HnW]%elem_of_kept. apply name_ok_tail; [by apply Hn|done]. }
    destruct (stage_old final st _ hist W spec' fs1 ∅ Hst Hsp' Hd) as (fs' & -> & Hc2); [done| |done|].
    { intros name HnW. split; [by apply HW|]. split; [by apply Hn|].
      destruct (decide (name ∈ kept hist W)) as [Hin|Hni]; [by apply Hc1|].
      by rewrite (last_of_history final hist W name). }
    exists fs'. split; [done|]. split; [by apply Hc2|].
    intros path Hp. destruct Hc1 as [_ Hu1], Hc2 as [_ Hu2]. rewrite Hu2 by done. apply Hu1.
    intros name Hk. apply Hp. by eapply kept_subset.
Qed.
End Chain.

(** The contents a file has at the time of the newest backup. *)
Definition final_of (hist : string -> list (version * list byte)) (name : string) : list byte :=
  match hist name with (_, g) :: _ => g | [] => [] end.

(** Both ways to restore the backup [name] into an empty directory, for the
    set [wanted] of files to unwrap, succeed, and leave exactly the regular
    files [W], with the contents [final]. *)
Definition restores {UserData R T} `{Reader R} `{LawfulFile T} (copyFuel fuel : nat)
    (backups : gmap string (StoredBackup (UserData := UserData) (R := R))) (dbDataDirectory name : string)
    (spec : option TablespaceSpec) (wanted : option (gset string)) (W : gset string) (final : string -> list byte) : Prop :=
  exists fsOld fsNew : gmap string T,
    deltaFetchRecursionOld copyFuel backups dbDataDirectory fuel name spec wanted (mkDir ∅ ∅)
      = (Ok tt, mkDir fsOld ∅) /\
    deltaFetchRecursionNew copyFuel backups dbDataDirectory fuel name spec false (NewFetchConfig wanted)
      (mkDir ∅ ∅) = (Ok tt, mkDir fsNew ∅) /\
    forall fs, fs = fsOld \/ fs = fsNew ->
      (forall name, name ∈ W ->
         exists f, fs !! GoPath.Join dbDataDirectory name = Some f /\ contents f = final name) /\
      (forall path, (forall name, name ∈ W -> path <> GoPath.Join dbDataDirectory name) -> fs !! path = None).

(** Both restores of a chain. *)
Lemma fetch_chain {UserData R T} `{LawfulReader R} `{LawfulFile T}
    (copyFuel fuel : nat) (backups : gmap string (StoredBackup (UserData := UserData) (R := R)))
    (dbDataDirectory : string) (chain : list (stage (UserData := UserData) (R := R)))
    (st : stage) (spec : option TablespaceSpec) (hist : string -> list (version * list byte)) (W : gset string) :
  head chain = Some st -> chain_ok backups chain -> (length chain <= fuel)%nat ->
  files_ok copyFuel chain hist W -> distinct_paths dbDataDirectory W -> no_tablespaces spec ->
  (forall name, name ∈ W -> name_ok dbDataDirectory (final_of hist) name (hist name)) ->
  restores (T := T) copyFuel fuel backups dbDataDirectory (stName st) spec (Some W) W (final_of hist).
Proof.
  intros Hhd Hch Hfuel Hfs Hd Hsp Hn.
  assert (forall name, name ∈ W -> exists v older, hist name = (v, final_of hist name) :: older) as Hhist.
  { intros name HnW. destruct (Hn name HnW) as (Hh & _). unfold final_of. destruct (hist name) as [|[v g] h]; [inversion Hh|eauto]. }
  destruct (old_chain copyFuel backups dbDataDirectory (final_of hist) chain fuel st hist W spec)
    as (fsOld & Ho & Hco); [done..|].
  destruct (new_chain copyFuel backups dbDataDirectory (final_of hist) chain fuel st hist W ∅ spec ∅ ∅)
    as (fsNew & Hnw & Hcn); [done..| |].
  { intros name HnW. rewrite lookup_empty. destruct (Hhist name HnW) as (v & h & E).
    unfold disk. rewrite E. split; [|done]. by exists v, h. }
  exists fsOld, fsNew. split; [done|]. split; [done|]. intros fs [-> | ->].
  - destruct Hco as [Hp Hu]. split; [|intros path Hpath; by rewrite Hu by done].
    intros name HnW. specialize (Hp name HnW). destruct (Hhist name HnW) as (v & h & E). by rewrite E in Hp.
  - destruct Hcn as [Hp Hu]. split; [|intros path Hpath; by rewrite Hu by done]. done.
Qed.

(** Names that are wanted as well, but neither in the archives of the newest
    backup nor left to the older ones, make no difference. *)
Lemma restores_wanted {UserData R T} `{LawfulReader R} `{LawfulFile T}
    copyFuel fuel (backups : gmap string (StoredBackup (UserData := UserData) (R := R))) dbDataDirectory name backup spec
    (wanted W : gset string) final :
  backups !! name = Some backup -> W ⊆ wanted ->
  (forall x, x ∈ wanted -> is_Some (Files (content (sentinelDto backup)) !! x) \/ x ∈ UtilityFilePaths) ->
  (forall x, x ∈ wanted -> x ∉ W -> x ∉ (archives backup ≫= snd).*1 /\
    inherited (Files (content (sentinelDto backup))) x = false) ->
  restores (T := T) copyFuel fuel backups dbDataDirectory name spec (Some W) W final ->
  restores (T := T) copyFuel fuel backups dbDataDirectory name spec (Some wanted) W final.
Proof.
  intros Hb Hsub Hknown Hextra (fsOld & fsNew & Ho & Hn & Hfs). exists fsOld, fsNew.
  destruct (fetch_rewanted copyFuel backups dbDataDirectory fuel name backup spec (Some W) (Some wanted) ∅
    (mkDir (∅ : gmap string T) ∅) Hb) as [Eo En].
  { unfold same_wanted. rewrite Forall_forall. intros x Hx. unfold wants. apply bool_decide_ext.
    split; [|apply Hsub]. intros Hxw. destruct (decide (x.1 ∈ W)) as [|Hni]; [done|].
    destruct (Hextra x.1 Hxw Hni) as [Ha _]. destruct Ha. by apply list_elem_of_fmap_2. }
  { rewrite !GetBaseFilesToUnwrap_known by auto. do 2 f_equal. apply set_eq. intros x. rewrite !elem_of_filter.
    split; [|by intros [? ?]; auto]. intros [Hi Hxw]. split; [done|]. destruct (decide (x ∈ W)) as [|Hni]; [done|].
    destruct (Hextra x Hxw Hni) as [_ Hf]. congruence. }
  unfold NewFetchConfig. rewrite Eo, En. by split_and!.
Qed.

(** C4: On a chain of stored backups of a cluster without tablespaces,
    [backup-fetch] into an empty directory succeeds whether it starts with the
    oldest backup or with the newest, and either way the directory then holds
    exactly the wanted files, each with the contents it had at the newest
    backup. The conditions on the chain ([chain_ok]): each backup is stored
    under its name and is an increment of the next one, the last is a full
    backup; each is one that needs [pg_control] and has the archive of it and
    at least one other, with no file in them twice; and neither the sentinels
    nor the restore name a tablespace (with tablespaces an increment is not
    restored, [fetch_tablespaces_again]). The conditions on the files
    ([files_ok], [name_ok]): every archive holds a wanted file as its history
    says - whole, as the increment against the next older backup, or not at
    all because it had not changed -, the sentinel describes it so, and a
    history ends with a full copy; only data files are increments; a page
    whose header is blank is the same in all the versions of the file that
    have it; two wanted names are not the same path. The fuel of the recursion
    is the length of the chain, that of a copy exceeds the length of a file.
    That archives are skipped as redundant is not part of this. *)
Theorem fetch_restores {UserData R T} `{LawfulReader R} `{LawfulFile T}
    (copyFuel fuel : nat) (backups : gmap string (StoredBackup (UserData := UserData) (R := R)))
    (dbDataDirectory : string) (chain : list (stage (UserData := UserData) (R := R)))
    (st : stage) (spec : option TablespaceSpec) (hist : string -> list (version * list byte)) (W : gset string) :
  head chain = Some st -> chain_ok backups chain -> (length chain <= fuel)%nat ->
  files_ok copyFuel chain hist W -> distinct_paths dbDataDirectory W -> no_tablespaces spec ->
  (forall name, name ∈ W -> name_ok dbDataDirectory (final_of hist) name (hist name)) ->
  restores (T := T) copyFuel fuel backups dbDataDirectory (stName st) spec (Some W) W (final_of hist).
Proof. apply fetch_chain. Qed.

(** ** A cluster with an increment *)

Module FetchExample.

Definition data : string := "/base/13/2619".
Definition pgVersionFile : string := "/PG_VERSION".
Definition baseName : string := "base_000000010000000000000002".
Definition deltaName : string := "base_000000010000000000000004_D_000000010000000000000002".

(** A page of a relation, written at LSN [l] and filled with [b]. *)
Definition aPage (l : Z) (b : byte) : list byte :=
  enc_fields [(4%nat, 0); (4%nat, l); (2%nat, 0); (2%nat, 0); (2%nat, 24); (2%nat, 8192);
              (2%nat, 8192); (2%nat, 8196)] ++ replicate (psize - 20) b.

Lemma aPage_length l b : length (aPage l b) = psize.
Proof.
  unfold aPage, enc_fields. cbn [mbind list_bind]. rewrite !length_app, !le_enc_length, length_replicate.
  pose proof psize_pos. cbn. lia.
Qed.

(** The second page changes, and the file grows by a page of zeros. *)
Definition oldData : list byte := aPage 10 Byte.x61 ++ aPage 11 Byte.x62.
Definition newData : list byte := aPage 10 Byte.x61 ++ aPage 20 Byte.x63 ++ zero_page.
Definition dataDelta : list (nat * list byte) := [(1%nat, aPage 20 Byte.x63); (2%nat, zero_page)].

Lemma newData_page i : (i < 3)%nat -> page newData i =
  match i with 0 => aPage 10 Byte.x61 | 1 => aPage 20 Byte.x63 | _ => zero_page end%nat.
Proof.
  intros Hi. unfold newData. destruct i as [|i]; [by rewrite page_app_0 by apply aPage_length|].
  rewrite page_app_S by apply aPage_length.
  destruct i as [|i]; [by rewrite page_app_0 by apply aPage_length|].
  rewrite page_app_S by apply aPage_length. destruct i as [|i]; [|lia].
  rewrite page_0. apply take_ge. by rewrite zero_page_length.
Qed.

Lemma newData_pages : pages_of newData 3.
Proof. unfold pages_of, newData. rewrite !length_app, !aPage_length, zero_page_length. lia. Qed.
Lemma oldData_pages : pages_of oldData 2.
Proof. unfold pages_of, oldData. rewrite !length_app, !aPage_length. lia. Qed.

Lemma dataDelta_ok : increment_ok 3 dataDelta.
Proof.
  constructor; [by vm_compute| | |].
  - unfold dataDelta. cbn. repeat constructor; lia.
  - unfold dataDelta. cbn. repeat constructor; lia.
  - unfold dataDelta. cbn [fmap list_fmap snd]. constructor; [apply aPage_length|].
    constructor; [apply zero_page_length|constructor].
Qed.

Definition control (b : byte) : list byte := [b].
Definition versionText : list byte := [Byte.x31; Byte.x33].

Definition hist (name : string) : list (version * list byte) :=
  if bool_decide (name = data) then [(VIncr 3 dataDelta, newData); (VFull, oldData)]
  else if bool_decide (name = pgVersionFile) then [(VSkip, versionText); (VFull, versionText)]
  else if bool_decide (name = PgControlPath) then [(VFull, control Byte.x02)] else [].

Definition W : gset string := {[ data; pgVersionFile; PgControlPath ]}.

Notation aSentinel := (BackupSentinelDto SentinelFiles unit).
Definition baseSentinel : aSentinel :=
  mkSentinel (Some 12) None None None None
    (mkSentinelFiles {[ data := NewBackupFileDescription false false 1;
                        pgVersionFile := NewBackupFileDescription false false 1 ]} ∅ None)
    130000 (Some 14) None 0 0 tt.
Definition deltaSentinel : aSentinel :=
  mkSentinel (Some 15) (Some 12) (Some baseName) (Some baseName) (Some 1)
    (mkSentinelFiles {[ data := NewBackupFileDescription true false 2;
                        pgVersionFile := NewBackupFileDescription false true 1 ]} ∅ None)
    130000 (Some 20) None 0 0 tt.

Definition tarOf (name : string) (files : list (string * bytesReader)) : archive (R := bytesReader) := (name, files).

Definition baseTars : list archive :=
  [tarOf "part_001.tar.lz4" [(data, oldData : bytesReader); (pgVersionFile, versionText : bytesReader)]].
Definition deltaTars : list archive := [tarOf "part_001.tar.lz4" [(data, increment 3 dataDelta : bytesReader)]].
Definition controlTar (b : byte) : archive := tarOf "pg_control.tar.lz4" [(PgControlPath, control b : bytesReader)].

Definition baseStage : stage (UserData := unit) (R := bytesReader) :=
  mkStage baseName (mkStored baseSentinel (baseTars ++ [controlTar Byte.x01])) baseTars (controlTar Byte.x01).
Definition deltaStage : stage (UserData := unit) (R := bytesReader) :=
  mkStage deltaName (mkStored deltaSentinel (deltaTars ++ [controlTar Byte.x02])) deltaTars (controlTar Byte.x02).

Definition backups := {[ baseName := stBackup baseStage; deltaName := stBackup deltaStage ]} : gmap string StoredBackup.

Lemma in_W name : name ∈ W -> name = data \/ name = pgVersionFile \/ name = PgControlPath.
Proof. unfold W. rewrite !elem_of_union, !elem_of_singleton. tauto. Qed.

Lemma stages_ok : chain_ok backups [deltaStage; baseStage].
Proof.
  split; [|split; [|done]].
  - constructor; [by vm_compute|done|done|by vm_compute|done|done| |done].
    cbn. apply NoDup_cons. split; [|apply NoDup_singleton]. intros [E|E]%elem_of_cons; [by vm_compute in E|by apply elem_of_nil in E].
  - constructor; [by vm_compute|done|done|by vm_compute|done|done| |done].
    cbn. repeat (apply NoDup_cons; split; [intros E; repeat apply elem_of_cons in E as [E|E]; try (by vm_compute in E); by apply elem_of_nil in E|]).
    apply NoDup_nil_2.
Qed.

Lemma hist_ok name : name ∈ W -> name_ok "/data" (final_of hist) name (hist name).
Proof.
  intros [-> | [-> | ->]]%in_W.
  - split_and!.
    + change (hist data) with [(VIncr 3 dataDelta, newData); (VFull, oldData)]. apply history_incr.
      * apply dataDelta_ok.
      * apply newData_pages.
      * exists 2%nat. apply oldData_pages.
      * intros i Hi. rewrite newData_page by done. unfold dataDelta. rewrite !lookup_page_cons.
        destruct i as [|[|[|i]]]; [|done|done|lia]. cbn [decide default from_option].
        rewrite (page_resized oldData 3 2 0 oldData_pages) by lia. rewrite decide_True by lia.
        rewrite !decide_False by done. symmetry. apply page_app_0, aPage_length.
      * constructor.
    + intros i g Hi Hm Hg Hgl. change (final_of hist data) with newData in *. change (hist data).*2 with [newData; oldData] in Hg.
      apply elem_of_cons in Hg as [-> |Hg%list_elem_of_singleton]; [done|subst g].
      apply (pages_length oldData 2 i oldData_pages) in Hgl. rewrite newData_page in Hm |- * by lia.
      destruct i as [|[|i]]; [by vm_compute in Hm|by vm_compute in Hm|lia].
    + intros n bl g _. by vm_compute.
  - split_and!; [apply history_skip, history_full| |].
    + intros i g Hi. exfalso. change (final_of hist pgVersionFile) with versionText in Hi.
      pose proof psize_pos. cbn [length versionText] in Hi. nia.
    + intros n bl g Hin. change (hist pgVersionFile) with [(VSkip, versionText); (VFull, versionText)] in Hin.
      by repeat (apply elem_of_cons in Hin as [Hin|Hin]; [done|]); apply elem_of_nil in Hin.
  - split_and!; [apply history_full| |].
    + intros i g Hi. exfalso. change (final_of hist PgControlPath) with (control Byte.x02) in Hi.
      pose proof psize_pos. cbn [length control] in Hi. nia.
    + intros n bl g Hin. change (hist PgControlPath) with [(VFull, control Byte.x02)] in Hin.
      by apply elem_of_cons in Hin as [Hin|Hin]; [done|]; apply elem_of_nil in Hin.
Qed.
Definition fuel : nat := S (length newData + length oldData + 3).

(** A file of [st] with the version [v], and its entry [s]. *)
Lemma file_stored st name v g h (s : bytesReader) :
  stored_as (Files (content (stDto (UserData := unit) st))) name v ->
  (name, s) ∈ stFiles st -> version_bytes v g = Some s -> (length g < fuel)%nat ->
  file_ok fuel st name ((v, g) :: h).
Proof.
  intros Hst Hin Hv Hg. exists v, g, h. split_and!; [done|done|]. rewrite Hv. by exists s.
Qed.

Lemma delta_files name : name ∈ W -> file_ok fuel deltaStage name (hist name).
Proof.
  intros [-> | [-> | ->]]%in_W.
  - apply (file_stored deltaStage data (VIncr 3 dataDelta) newData _ (increment 3 dataDelta)); [by vm_compute|by left|done|unfold fuel; lia].
  - exists VSkip, versionText, [(VFull, versionText)]. split_and!; [done|by vm_compute|].
    cbn. intros [E|[E|E]%elem_of_cons]%elem_of_cons; [by vm_compute in E|by vm_compute in E|by apply elem_of_nil in E].
  - apply (file_stored deltaStage PgControlPath VFull (control Byte.x02) _ (control Byte.x02));
      [by split; [left|]|by right; left|done|unfold fuel; cbn [length control]; lia].
Qed.

Lemma in_kept name : name ∈ kept hist W -> name = data \/ name = pgVersionFile.
Proof.
  intros [Hk HW]%elem_of_kept. destruct (in_W name HW) as [-> | [-> | ->]]; [by left|by right|done].
Qed.

Lemma example_files : files_ok fuel [deltaStage; baseStage] hist W.
Proof.
  split; [apply delta_files|]. split.
  - intros name [-> | ->]%in_kept.
    + apply (file_stored baseStage data VFull oldData _ oldData); [by vm_compute|by left|done|unfold fuel; lia].
    + apply (file_stored baseStage pgVersionFile VFull versionText _ versionText);
        [by vm_compute|by right; left|done|unfold fuel; cbn [length versionText]; lia].
  - cbn. apply set_eq. intros name. split; [|by intros ?%elem_of_empty].
    intros [Hk Hin%in_kept]%elem_of_kept. by destruct Hin as [-> | ->].
Qed.

Lemma example_paths : distinct_paths "/data" W.
Proof.
  intros a b [-> | [-> | ->]]%in_W [-> | [-> | ->]]%in_W E; try done; by vm_compute in E.
Qed.
End FetchExample.

Lemma fetch_restores_witness :
  exists fsOld fsNew : gmap string memFile,
    deltaFetchRecursionOld FetchExample.fuel FetchExample.backups "/data" 2 FetchExample.deltaName None
      (Some FetchExample.W) (mkDir ∅ ∅) = (Ok tt, mkDir fsOld ∅) /\
    deltaFetchRecursionNew FetchExample.fuel FetchExample.backups "/data" 2 FetchExample.deltaName None false
      (NewFetchConfig (Some FetchExample.W)) (mkDir ∅ ∅) = (Ok tt, mkDir fsNew ∅) /\
    fsOld !! "/data/base/13/2619" = Some FetchExample.newData /\
    fsNew !! "/data/base/13/2619" = Some FetchExample.newData.
Proof.
  destruct (fetch_restores (T := memFile) FetchExample.fuel 2 FetchExample.backups "/data"
    [FetchExample.deltaStage; FetchExample.baseStage] FetchExample.deltaStage None FetchExample.hist FetchExample.W)
    as (fsOld & fsNew & Ho & Hn & Hf).
  - done.
  - exact FetchExample.stages_ok.
  - simpl. lia.
  - exact FetchExample.example_files.
  - exact FetchExample.example_paths.
  - done.
  - exact FetchExample.hist_ok.
  - exists fsOld, fsNew. split; [exact Ho|]. split; [exact Hn|].
    assert (FetchExample.data ∈ FetchExample.W) as HW.
    { unfold FetchExample.W. apply elem_of_union_l, elem_of_union_l, elem_of_singleton. reflexivity. }
    assert (GoPath.Join "/data" FetchExample.data = "/data/base/13/2619") as HJ by (vm_compute; reflexivity).
    split; [destruct (Hf fsOld (or_introl eq_refl)) as [Hd _]|destruct (Hf fsNew (or_intror eq_refl)) as [Hd _]];
      destruct (Hd _ HW) as (f & Hl & Hc); rewrite HJ in Hl; exact (eq_trans Hl (f_equal Some Hc)).
Defined.
