(* ===== verification/FetchSkip.v ===== *)
(** * Two chains that are not restored

    A cluster with tablespaces: the links are made for every backup of the
    chain, and the second time they exist. And with [--skip-redundant-tars] the restore that starts with the newest
    backup counts the missing pages of every file and leaves out a file whose
    count has reached zero. A page of zeros in an increment is not missing
    when the file is created from the increment, and it is restored once more
    by every older increment that has it, so the count can reach zero too
    early: this file has such a chain, taken by full scans of a relation with
    an allocated page that was never written. *)

From stdpp Require Import gmap strings.
From S2P Require Import Prelude GoIO WalRecord WalPage WalFile PagedFile.
From S2P Require Import GoStrings GoPath Timeline DeltaMap Backups BackupMeta Tablespace IncPages IncSpec Unwrap Fetch FetchSpec FetchTheorems.
Open Scope Z_scope.

Module Skip.
Import FetchExample.

(** Two pages: one that was last written at LSN 10, and one of zeros. *)
Definition relation : list byte := aPage 10 Byte.x61 ++ zero_page.
Definition scan : list (nat * list byte) := [(1%nat, zero_page)].

Definition name2 : string := "base_000000010000000000000006_D_000000010000000000000004".
Definition name1 : string := "base_000000010000000000000004_D_000000010000000000000002".
Definition name0 : string := "base_000000010000000000000002".

(** The increments before and after an LSN are both of the page of zeros. *)
Definition aDelta (l : Z) (base : string) (count : Z) : aSentinel :=
  mkSentinel (Some (l + 10)) (Some l) (Some base) (Some name0) (Some count)
    (mkSentinelFiles {[ data := NewBackupFileDescription true false l ]} {[ "part_001.tar.lz4" := [data] ]} None)
    130000 (Some (l + 10)) None 0 0 tt.
Definition aBase : aSentinel :=
  mkSentinel (Some 12) None None None None
    (mkSentinelFiles {[ data := NewBackupFileDescription false false 1 ]} {[ "part_001.tar.lz4" := [data] ]} None)
    130000 (Some 14) None 0 0 tt.

(** With the tablespaces of the restore, which are none. *)
Definition noSpec : option TablespaceSpec := Some (chooseTablespaceSpecification None None).
Definition aDeltaWith (l : Z) (base : string) (count : Z) : aSentinel := withTablespaceSpec (aDelta l base count) noSpec.

Definition stored (dto : aSentinel) (bytes : bytesReader) : StoredBackup (UserData := unit) (R := bytesReader) :=
  mkStored dto [tarOf "part_001.tar.lz4" [(data, bytes)]; controlTar Byte.x01].

Definition chain : gmap string (StoredBackup (UserData := unit) (R := bytesReader)) :=
  {[ name2 := stored (aDelta 22 name1 2) (increment 2 scan);
     name1 := stored (aDelta 12 name0 1) (increment 2 scan);
     name0 := stored aBase relation ]}.

Definition path : string := "/data/base/13/2619".
Definition copyFuel : nat := S (length relation).

Lemma scan_ok : increment_ok 2 scan.
Proof.
  constructor; [by vm_compute| | |].
  - cbn. repeat constructor.
  - cbn. repeat constructor; lia.
  - cbn [fmap list_fmap snd scan]. constructor; [apply zero_page_length|constructor].
Qed.

Lemma scan_page i : (i < 2)%nat -> default zero_page (lookup_page_of scan i) = zero_page.
Proof. intros Hi. unfold scan. rewrite lookup_page_cons. by case_decide. Qed.

Notation interpreter l base count files r :=
  (mkInterpreter "/data" (aDeltaWith l base count) (Some files) r false).

Lemma joined : GoPath.Join "/data" data = path.
Proof. by vm_compute. Qed.

(** The file is created from the newest increment: one page is missing. *)
Lemma create_step : exists f : memFile,
  Interpret copyFuel true (interpreter 22 name1 2 {[ data ]} newUnwrapResult) data (increment 2 scan : bytesReader) ∅ =
    (Ok (interpreter 22 name1 2 {[ data ]} (mkResult [] {[ data := 1 ]} ∅)), {[ path := f ]}) /\
  pages_of f 2 /\ forall i, (i < 2)%nat -> page f i = zero_page.
Proof.
  destruct (CreateFileFromIncrement_ok (T := memFile) 2 scan [] (increment 2 scan : bytesReader) Create scan_ok)
    as (s' & f & Hc & Hf & Hp); [symmetry; apply app_nil_r|done|].
  exists f. split; [|split; [exact Hf|]].
  - unfold Interpret. cbn [DBDataDirectory]. rewrite joined. unfold unwrapRegularFileNew.
    change (notWanted _ data) with false. cbn iota.
    change (getFileUnwrapper _ data path ∅) with (Ok (E := error) (DefaultFileUnwrapper (mkOptions true false))).
    cbn iota. change ((∅ : gmap string memFile) !! path) with (@None memFile). cbn iota.
    unfold UnwrapNewFile, unwrapNewFile, rbind. cbn [isIncremented]. unfold NewReadWriterAtFrom.
    rewrite stat_ok. unfold wrapf, onLocal. rewrite Hc. done.
  - intros i Hi. by rewrite Hp, scan_page.
Qed.

(** The older increment restores the page of zeros again. *)
Lemma write_step (f : memFile) : pages_of f 2 -> (forall i, (i < 2)%nat -> page f i = zero_page) ->
  exists f' : memFile,
  Interpret copyFuel true (interpreter 12 name0 1 {[ data ]} newUnwrapResult) data (increment 2 scan : bytesReader)
    {[ path := f ]} =
    (Ok (interpreter 12 name0 1 {[ data ]} (mkResult [] ∅ {[ data := 1 ]})), {[ path := f' ]}) /\
  pages_of f' 2 /\ forall i, (i < 2)%nat -> page f' i = zero_page.
Proof.
  intros Hf Hz.
  destruct (WritePagesFromIncrement_ok (T := memFile) 2 scan 2 false [] (increment 2 scan : bytesReader) f scan_ok)
    as (s' & f' & Hw & Hf' & Hp); [symmetry; apply app_nil_r|exact Hf|].
  assert (count_wanted 2 false f scan.*1 = 1%nat) as Hcount.
  { unfold count_wanted. cbn [scan fmap list_fmap fst List.filter]. unfold wanted.
    cbn [Nat.ltb Nat.leb andb orb]. by rewrite Hz, missing_zero_page by lia. }
  exists f'. split; [|split; [exact Hf'|]].
  - unfold Interpret. cbn [DBDataDirectory]. rewrite joined. unfold unwrapRegularFileNew.
    change (notWanted _ data) with false. cbn iota.
    assert (exists b, getFileUnwrapper (interpreter 12 name0 1 {[ data ]} newUnwrapResult) data path {[ path := f ]} =
      Ok (DefaultFileUnwrapper (mkOptions true b))) as [b ->].
    { unfold getFileUnwrapper. rewrite lookup_singleton_eq. rewrite stat_ok. cbn [mbind res_bind].
      eexists. done. }
    cbn iota. rewrite lookup_singleton_eq. unfold UnwrapExistingFile. unfold rbind at 1, NewReadWriterAtFrom.
    rewrite stat_ok. cbn [isIncremented]. unfold writeIncrement, rbind, wrapf, onLocal.
    replace (length (contents f)) with (2 * psize)%nat by (symmetry; exact Hf). rewrite Hw.
    rewrite decide_True by reflexivity. change (contents f) with f. rewrite Hcount. cbn [res_map_err]. unfold rret.
    unfold putLocal. rewrite insert_singleton_eq. done.
  - intros i Hi. rewrite Hp by done. cbn [orb]. change (contents f) with f. rewrite Hz, missing_zero_page by done.
    exact (scan_page i Hi).
Qed.

(** ** The fetch that skips *)

(** The archives of one of these backups. *)
Lemma chooseTars_stored name dto0 dto (bytes : bytesReader) W :
  IsPgControlRequired name dto = Ok true ->
  chooseTars name (stored dto0 bytes) dto W true =
    Ok (if shouldUnwrapTar "part_001.tar.lz4" (content dto) W
        then [tarOf "part_001.tar.lz4" [(data, bytes)]] else [], Some (controlTar Byte.x01), true).
Proof.
  intros Hpg. unfold chooseTars, getTarsToExtract. cbn [archives stored].
  change (splitTars _ None _) with
    (Ok (E := error) (if shouldUnwrapTar "part_001.tar.lz4" (content dto) W
       then ([tarOf "part_001.tar.lz4" [(data, bytes)]], Some (controlTar Byte.x01))
       else ([], Some (controlTar Byte.x01)))).
  rewrite Hpg. by destruct (shouldUnwrapTar _ _ _).
Qed.

Lemma unwrap_data name dto0 dto (bytes : bytesReader) W (fs : gmap string memFile) ti' fs' :
  sfTablespaceSpec (content dto) = noSpec ->
  shouldUnwrapTar "part_001.tar.lz4" (content dto) W = true -> IsPgControlRequired name dto = Ok true ->
  Interpret copyFuel true (NewFileTarInterpreter "/data" dto W false) data bytes fs = (Ok ti', fs') ->
  notWanted ti' PgControlPath = true ->
  unwrapNew copyFuel name (stored dto0 bytes) "/data" dto W false true (mkDir fs ∅) =
    (Ok (tiUnwrapResult ti'), mkDir fs' ∅).
Proof.
  intros Hsp Hs Hpg Hi Hw. unfold unwrapNew. rewrite Hsp. cbn [prepareTablespaces noSpec]. cbn iota.
  rewrite chooseTars_stored, Hs by done. unfold extractBackup.
  change ([tarOf "part_001.tar.lz4" [(data, bytes)]] ≫= snd) with [(data, bytes)]. cbn [extract regular].
  rewrite Hi. cbn [controlTar tarOf snd extract]. by rewrite Interpret_notWanted.
Qed.

Lemma unwrap_nothing name dto0 dto (bytes : bytesReader) W (fs : gmap string memFile) :
  sfTablespaceSpec (content dto) = noSpec ->
  shouldUnwrapTar "part_001.tar.lz4" (content dto) W = false -> IsPgControlRequired name dto = Ok true ->
  unwrapNew copyFuel name (stored dto0 bytes) "/data" dto W false true (mkDir fs ∅) = (Ok newUnwrapResult, mkDir fs ∅).
Proof.
  intros Hsp Hs Hpg. unfold unwrapNew. rewrite Hsp. cbn [prepareTablespaces noSpec]. cbn iota.
  by rewrite chooseTars_stored, Hs.
Qed.

(** One page is missing, and then none. *)
Lemma skip_first :
  SkipRedundantFiles (mkFetchConfig (Some {[ data ]}) ∅) (mkResult [] {[ data := 1 ]} ∅) =
    mkFetchConfig (Some {[ data ]}) {[ data := 1 ]}.
Proof. by vm_compute. Qed.
Lemma skip_second :
  SkipRedundantFiles (mkFetchConfig (Some {[ data ]}) {[ data := 1 ]}) (mkResult [] ∅ {[ data := 1 ]}) =
    mkFetchConfig (Some ∅) {[ data := 1 ]}.
Proof. by vm_compute. Qed.

(** A specification with no tablespace is chosen all along the chain. *)
Lemma chosen_first (dto : aSentinel) (bytes : bytesReader) :
  sfTablespaceSpec (content dto) = None ->
  Some (chooseTablespaceSpecification (sfTablespaceSpec (content (sentinelDto (stored dto bytes)))) None) = noSpec.
Proof. cbn [sentinelDto stored]. by intros ->. Qed.
Lemma chosen_again (dto : aSentinel) (bytes : bytesReader) :
  Some (chooseTablespaceSpecification (sfTablespaceSpec (content (sentinelDto (stored dto bytes)))) noSpec) = noSpec.
Proof. done. Qed.

Lemma fetch_skipping : exists f : memFile,
  deltaFetchRecursionNew copyFuel chain "/data" 3 name2 None true (NewFetchConfig (Some {[ data ]})) (mkDir ∅ ∅)
    = (Ok tt, mkDir {[ path := f ]} ∅) /\
  pages_of f 2 /\ forall i, (i < 2)%nat -> page f i = zero_page.
Proof.
  destruct create_step as (f & Hc & Hf & Hz). destruct (write_step f Hf Hz) as (f' & Hw & Hf' & Hz').
  exists f'. split; [|split; [exact Hf'|exact Hz']].
  cbn [deltaFetchRecursionNew].
  change (chain !! name2) with (Some (stored (aDelta 22 name1 2) (increment 2 scan))). cbn iota zeta.
  rewrite (chosen_first (aDelta 22 name1 2)) by done.
  change (withTablespaceSpec (sentinelDto (stored (aDelta 22 name1 2) _)) noSpec) with (aDeltaWith 22 name1 2).
  change (IsIncremental (aDeltaWith 22 name1 2)) with (Ok (E := pgError) true).
  change (seIncrementFrom (aDeltaWith 22 name1 2)) with (Some name1). cbn iota. cbn [filesToUnwrap NewFetchConfig].
  change (GetBaseFilesToUnwrap (Files (content (aDeltaWith 22 name1 2))) (Some {[ data ]})) with
    (Ok (E := pgError) (Some ({[ data ]} : gset string))). cbn iota.
  rewrite (unwrap_data name2 _ (aDeltaWith 22 name1 2) (increment 2 scan) (Some {[ data ]}) ∅ _ _ eq_refl
    ltac:(by vm_compute) ltac:(by vm_compute) Hc eq_refl).
  cbn [tiUnwrapResult missingBlocks NewFetchConfig]. rewrite (skip_first : SkipRedundantFiles _ _ = _).
  change (chain !! name1) with (Some (stored (aDelta 12 name0 1) (increment 2 scan))). cbn iota zeta.
  rewrite (chosen_again (aDelta 12 name0 1)).
  change (withTablespaceSpec (sentinelDto (stored (aDelta 12 name0 1) _)) noSpec) with (aDeltaWith 12 name0 1).
  change (IsIncremental (aDeltaWith 12 name0 1)) with (Ok (E := pgError) true).
  change (seIncrementFrom (aDeltaWith 12 name0 1)) with (Some name0). cbn iota. cbn [filesToUnwrap].
  change (GetBaseFilesToUnwrap (Files (content (aDeltaWith 12 name0 1))) (Some {[ data ]})) with
    (Ok (E := pgError) (Some ({[ data ]} : gset string))). cbn iota.
  rewrite (unwrap_data name1 _ (aDeltaWith 12 name0 1) (increment 2 scan) (Some {[ data ]}) {[ path := f ]} _ _ eq_refl
    ltac:(by vm_compute) ltac:(by vm_compute) Hw eq_refl).
  cbn [tiUnwrapResult missingBlocks]. rewrite (skip_second : SkipRedundantFiles _ _ = _).
  change (chain !! name0) with (Some (stored aBase relation)). cbn iota zeta.
  rewrite (chosen_again aBase).
  change (withTablespaceSpec (sentinelDto (stored aBase _)) noSpec) with (withTablespaceSpec aBase noSpec).
  change (IsIncremental (withTablespaceSpec aBase noSpec)) with (Ok (E := pgError) false).
  cbn [filesToUnwrap].
  by rewrite (unwrap_nothing name0 _ (withTablespaceSpec aBase noSpec) relation (Some ∅) {[ path := f' ]} eq_refl
    ltac:(by vm_compute) ltac:(by vm_compute)).
Qed.

(** ** The fetch that does not *)

Definition aStage (name : string) (dto : aSentinel) (bytes : bytesReader)
    : stage (UserData := unit) (R := bytesReader) :=
  mkStage name (stored dto bytes) [tarOf "part_001.tar.lz4" [(data, bytes)]] (controlTar Byte.x01).

Definition stages : list (stage (UserData := unit) (R := bytesReader)) :=
  [aStage name2 (aDelta 22 name1 2) (increment 2 scan); aStage name1 (aDelta 12 name0 1) (increment 2 scan);
   aStage name0 aBase relation].

Definition versions : list (version * list byte) := [(VIncr 2 scan, relation); (VIncr 2 scan, relation); (VFull, relation)].

Lemma relation_pages : pages_of relation 2.
Proof. unfold pages_of, relation. rewrite length_app, aPage_length, zero_page_length. lia. Qed.

Lemma aStage_ok name dto (bytes : bytesReader) base :
  chain !! name = Some (stored dto bytes) -> IsPgControlRequired name dto = Ok true ->
  seIncrementFrom dto = base -> IsIncremental dto = Ok (if base is Some _ then true else false) ->
  sfTablespaceSpec (content dto) = None ->
  stage_ok chain (aStage name dto bytes) base.
Proof.
  intros Hc Hp Hf Hi Hsp. constructor; [exact Hc|done|done|exact Hp|exact Hf|exact Hi| |].
  2: { change (stDto (aStage name dto bytes)) with dto. by rewrite Hsp. }
  cbn. apply NoDup_cons. split; [|apply NoDup_singleton].
  intros [E|E]%elem_of_cons; [by vm_compute in E|by apply elem_of_nil in E].
Qed.

Lemma skip_stages_ok : chain_ok chain stages.
Proof. split; [|split; [|split; [|done]]]; apply aStage_ok; try done; by vm_compute. Qed.

Lemma versions_ok : name_ok "/data" (fun _ => relation) data versions.
Proof.
  assert (forall i, (i < 2)%nat ->
    page relation i = default (page (resize (2 * psize) zero relation) i) (lookup_page_of scan i)) as Hp.
  { intros i Hi. rewrite (page_resized relation 2 2 i relation_pages Hi), decide_True by exact Hi.
    destruct i as [|[|i]]; [done| |lia]. unfold scan. rewrite lookup_page_cons, decide_True by done. cbn.
    unfold relation. rewrite page_app_S by apply aPage_length. rewrite page_0. apply take_ge.
    by rewrite zero_page_length. }
  split_and!; [|intros i g Hi Hm Hg Hl|intros n bl g _; by vm_compute].
  - apply history_incr; [apply scan_ok|apply relation_pages|exists 2%nat; apply relation_pages|exact Hp|].
    apply history_incr; [apply scan_ok|apply relation_pages|exists 2%nat; apply relation_pages|exact Hp|].
    apply history_full.
  - unfold versions in Hg. cbn in Hg.
    repeat (apply elem_of_cons in Hg as [->|Hg]; [reflexivity|]). by apply elem_of_nil in Hg.
Qed.

Lemma aStage_file name dto (bytes : bytesReader) v h :
  stored_as (Files (content dto)) data v -> version_bytes v relation = Some bytes ->
  file_ok copyFuel (aStage name dto bytes) data ((v, relation) :: h).
Proof.
  intros Hs Hv. exists v, relation, h. split_and!; [done|done|]. rewrite Hv.
  exists bytes. split; [by left|]. split; [done|]. unfold copyFuel. lia.
Qed.

Lemma stages_files : files_ok copyFuel stages (fun _ => versions) {[ data ]}.
Proof.
  assert (forall h, keeps h = true -> kept (fun _ => h) {[ data ]} = {[ data ]}) as Hk.
  { intros h Hh. apply set_eq. intros x. rewrite elem_of_kept. naive_solver. }
  split; [|rewrite Hk by done; split; [|unfold older; rewrite Hk by done; split]].
  1-3: intros name ->%elem_of_singleton; apply aStage_file; [by vm_compute|done].
  cbn. apply set_eq. intros x. unfold older. rewrite elem_of_kept. split; [by intros [? _]|by intros ?%elem_of_empty].
Qed.

Lemma fetch_not_skipping : exists fs : gmap string memFile,
  deltaFetchRecursionNew copyFuel chain "/data" 3 name2 None false (NewFetchConfig (Some {[ data ]})) (mkDir ∅ ∅)
    = (Ok tt, mkDir fs ∅) /\
  fs !! path = Some relation.
Proof.
  destruct (new_chain (T := memFile) copyFuel chain "/data" (fun _ => relation) stages 3
    (aStage name2 (aDelta 22 name1 2) (increment 2 scan)) (fun _ => versions) {[ data ]} ∅ None ∅ ∅) as (fs & Hr & Hc & _).
  - done.
  - exact skip_stages_ok.
  - simpl. lia.
  - exact stages_files.
  - by intros a b ->%elem_of_singleton ->%elem_of_singleton.
  - done.
  - intros name ->%elem_of_singleton. exact versions_ok.
  - intros name ->%elem_of_singleton. rewrite lookup_empty. split; [|done]. by eexists _, _.
  - exists fs. split; [exact Hr|]. destruct (Hc data) as (f & Hl & Hf); [by apply elem_of_singleton|].
    unfold pathOf in Hl. rewrite joined in Hl. exact (eq_trans Hl (f_equal Some Hf)).
Qed.
End Skip.

(** C16: A chain of three backups of one relation - its first page written
    before all of them, its second page allocated and still zeros - that the
    newest-first restore brings back, and that it restores without error as
    two pages of zeros when redundant archives are skipped: the page of zeros
    is in both increments, is counted as restored by the older one, and the
    file is left out before the base backup is reached. *)
Theorem skip_redundant_loses_page :
  (exists fs : gmap string memFile,
     deltaFetchRecursionNew Skip.copyFuel Skip.chain "/data" 3 Skip.name2 None false
       (NewFetchConfig (Some {[ FetchExample.data ]})) (mkDir ∅ ∅) = (Ok tt, mkDir fs ∅) /\
     fs !! "/data/base/13/2619" = Some Skip.relation) /\
  (exists (fs : gmap string memFile) (f : memFile),
     deltaFetchRecursionNew Skip.copyFuel Skip.chain "/data" 3 Skip.name2 None true
       (NewFetchConfig (Some {[ FetchExample.data ]})) (mkDir ∅ ∅) = (Ok tt, mkDir fs ∅) /\
     fs !! "/data/base/13/2619" = Some f /\ page f 0 = zero_page /\ page Skip.relation 0 <> zero_page).
Proof.
  split; [exact Skip.fetch_not_skipping|].
  destruct Skip.fetch_skipping as (f & Hfe & Hf & Hz). exists {[ Skip.path := f ]}, f.
  split; [exact Hfe|]. split; [apply lookup_singleton_eq|]. split; [apply Hz; lia|].
  unfold Skip.relation. rewrite page_app_0 by apply FetchExample.aPage_length.
  intros E. assert (missing (FetchExample.aPage 10 Byte.x61) = false) as Hm by by vm_compute.
  by rewrite E, missing_zero_page in Hm.
Qed.

(** ** Tablespaces *)

Section Again.
Context {UserData : Type} {R : Type} `{Reader R} {T : Type} `{OsFile T}.
Implicit Types (backup base : StoredBackup (UserData := UserData) (R := R)) (d : Dir (T := T)).

(** What [unwrapNew] does first. *)
Lemma unwrapNew_links copyFuel name backup dbDataDirectory dto files create skip d sp :
  sfTablespaceSpec (content dto) = Some sp -> specEmpty sp = false ->
  exists x fs, unwrapNew copyFuel name backup dbDataDirectory dto files create skip d =
    (x, mkDir fs (snd (setTablespacePaths sp (links d)))) /\
    (fst (setTablespacePaths sp (links d)) <> None -> exists err, x = Err err).
Proof.
  intros Hsp He. unfold unwrapNew. rewrite Hsp. cbn [prepareTablespaces]. rewrite He.
  destruct (setTablespacePaths sp (links d)) as [[err|] ls]; cbn [fst snd].
  { eexists _, _. split; [done|]. eauto. }
  destruct (chooseTars _ _ _ _ _) as [[[tars pg] need]|err]; [|eexists _, _; split; [done|done]].
  destruct tars as [|tar tars]; [eexists _, _; split; [done|done]|].
  destruct (extractBackup _ _ _ _ _ _ _) as [x fs]. eexists _, _. split; [done|done].
Qed.

(** An increment of a cluster with tablespaces is not restored by the fetch
    that starts with the newest backup, whatever it holds. *)
Lemma fetch_tablespaces_again copyFuel backups dbDataDirectory fuel name backup baseName base sp skip cfg d :
  backups !! name = Some backup -> IsIncremental (sentinelDto backup) = Ok true ->
  seIncrementFrom (sentinelDto backup) = Some baseName -> backups !! baseName = Some base ->
  specEmpty sp = false -> tablespaceLocationMap sp <> ∅ ->
  exists err d', deltaFetchRecursionNew copyFuel backups dbDataDirectory (S (S fuel)) name (Some sp) skip cfg d = (Err err, d').
Proof.
  intros Hb Hi Hf Hbase He Hne. cbn [deltaFetchRecursionNew]. rewrite Hb. cbv zeta. cbn [chooseTablespaceSpecification].
  change (IsIncremental (withTablespaceSpec (sentinelDto backup) (Some sp))) with (IsIncremental (sentinelDto backup)).
  change (seIncrementFrom (withTablespaceSpec (sentinelDto backup) (Some sp))) with (seIncrementFrom (sentinelDto backup)).
  rewrite Hi, Hf. destruct (GetBaseFilesToUnwrap _ _) as [files|err]; [|by eexists _, _].
  destruct (unwrapNew_links copyFuel name backup dbDataDirectory (withTablespaceSpec (sentinelDto backup) (Some sp))
    (filesToUnwrap cfg) false skip d sp eq_refl He) as (x & fs & -> & Herr).
  destruct x as [r|err]; [|by eexists _, _].
  destruct (setTablespacePaths sp (links d)) as [[err|] ls] eqn:Es; cbn [fst snd] in *.
  { destruct Herr as [err' [=]]; done. }
  destruct (setTablespacePaths_again sp (links d) ls Hne Es) as [err Hagain].
  set (cfg' := if skip then _ else _). rewrite Hbase.
  change (IsIncremental (withTablespaceSpec (sentinelDto base) (Some sp))) with (IsIncremental (sentinelDto base)).
  assert (forall files, exists fs', unwrapNew copyFuel baseName base dbDataDirectory (withTablespaceSpec (sentinelDto base) (Some sp))
    files false skip (mkDir fs ls) = (Err err, mkDir fs' ls)) as Hfail.
  { intros fl. unfold unwrapNew. cbn [withTablespaceSpec content sfTablespaceSpec prepareTablespaces links].
    rewrite He, Hagain. by eexists. }
  destruct (Hfail (filesToUnwrap cfg')) as [fs' Hu].
  destruct (IsIncremental (sentinelDto base)) as [[|]|err']; [|rewrite Hu; by eexists _, _|by eexists _, _].
  destruct (seIncrementFrom (withTablespaceSpec (sentinelDto base) (Some sp))) as [older|]; [|rewrite Hu; by eexists _, _].
  destruct (GetBaseFilesToUnwrap _ _); [rewrite Hu|]; by eexists _, _.
Qed.
End Again.
