(* ===== verification/PageVerify.v ===== *)
(** * Checksums of data pages

    [src/internal/databases/postgres/paged_file_verifier.go]: PostgreSQL's
    page checksum (32 parallel FNV-1a hashes over the page, on a little-endian
    machine), the test of one page against the checksum it stores, and the
    verification of a whole data file or of an increment. *)

From stdpp Require Import gmap.
From S2P Require Import Prelude GoIO WalRecord WalPage WalFile PagedFile GoFS.
From S2P Require Import GoStrings GoPath Timeline DeltaMap Backups BackupMeta IncPages IncSpec IncTheorems Unwrap Fetch FetchSpec.
Open Scope Z_scope.

(** ** The checksum *)

Definition NSums : nat := 32.
Definition FnvPrime : Z := 16777619.
Definition PdChecksumOffset : nat := 8.
Definition PdChecksumLen : nat := 2.

Definition checksumBaseOffsets : list Z :=
  [0x5B1F36E9; 0xB8525960; 0x02AB50AA; 0x1DE66D2A;
   0x79FF467A; 0x9BB9F8A3; 0x217E7CD2; 0x83E13D2C;
   0xF8D4474F; 0xE39EB970; 0x42C6AE16; 0x993216FA;
   0x7B093B5D; 0x98DAFF3C; 0xF718902A; 0x0B1C9CDB;
   0xE58F764B; 0x187636BC; 0x5D7B3BB1; 0xE73DE7DE;
   0x92BEC979; 0xCCA6C0B2; 0x304A0979; 0x85AA43D4;
   0x783125BB; 0x6CA8EAA2; 0xE407EAC6; 0x4B5CFC3E;
   0x9FBF8C76; 0x15CA20BE; 0xF2CA9FD3; 0x959BD756].

Definition ignoredFileNames : list string := ["pg_internal.init"].

(** [(tmp * FnvPrime) ^ (tmp >> 17)] on 32 bits *)
Definition calculateSum (checksum value : Z) : Z :=
  let tmp := Z.lxor checksum value in
  Z.lxor (u32 (tmp * FnvPrime)) (Z.shiftr tmp 17).

(** The page as a [PgChecksummablePage]: rows of [NSums] words. *)
Fixpoint words (k : nat) (bs : list byte) : list Z :=
  match k with
  | O => []
  | S k => le_dec (take 4 bs) :: words k (drop 4 bs)
  end.

Fixpoint rows (k : nat) (bs : list byte) : list (list Z) :=
  match k with
  | O => []
  | S k => words NSums bs :: rows k (drop (NSums * 4) bs)
  end.

Definition hashIterationsCount : nat := Z.to_nat (Z.quot DatabasePageSize (Z.of_nat (NSums * 4))).

Definition pgChecksumBlock (page : list byte) : Z :=
  let sums := foldl (zip_with calculateSum) checksumBaseOffsets (rows hashIterationsCount page) in
  let sums := zip_with calculateSum sums (replicate NSums 0) in
  let sums := zip_with calculateSum sums (replicate NSums 0) in
  foldl Z.lxor 0 sums.

(** The page with [pd_checksum] as [bs]. *)
Definition withChecksum (pageBytes bs : list byte) : list byte :=
  take PdChecksumOffset pageBytes ++ bs ++ drop (PdChecksumOffset + PdChecksumLen) pageBytes.

Definition pgChecksumPage (blockNo : Z) (pageBytes : list byte) : Z :=
  let checksum := pgChecksumBlock (withChecksum pageBytes (replicate PdChecksumLen zero)) in
  let checksum := Z.lxor checksum blockNo in
  u16 (checksum mod 65535 + 1).

(** ** One page *)

(** The number of a block of the file [path] in the whole relation. *)
Definition absoluteBlock (path : string) (blockNo : Z) : res pgError Z :=
  relFileID ← GetRelFileIDFrom path;
  let segmentBlockOffset := u32 (relFileID * BlocksInRelFile) in
  Ok (u32 (segmentBlockOffset + blockNo)).

Definition isPageCorrupted (path : string) (blockNo : Z) (page : list byte) : res pgError bool :=
  match parsePostgresPageHeader (page : bytesReader) with
  | (Err err, _) => Err (WalParsing err)
  | (Ok pageHeader, _) =>
      if isNew pageHeader then Ok false
      else if pdChecksum pageHeader =? 0 then Ok false
      else
        block ← absoluteBlock path blockNo;
        let checksum := pgChecksumPage block page in
        Ok (negb (checksum =? pdChecksum pageHeader))
  end.

(** ** Files *)

Section Verify.
Context {R : Type} `{Reader R}.
Variable copyFuel : nat.

(** The error, and whether the page is corrupt. *)
Definition verifySinglePage (path : string) (blockNo : Z) (pageBlocks : R) : res pgError bool * R :=
  let '(page, err, pageBlocks) := ReadFull pageBlocks psize in
  match err with
  | Some err => (Err (WalParsing err), pageBlocks)
  | None => (isPageCorrupted path blockNo page, pageBlocks)
  end.

Fixpoint verifyLoop (path : string) (blockNumbers : list Z) (pageBlocks : R) (corruptBlockNumbers : list Z)
    : res pgError (list Z) * R :=
  match blockNumbers with
  | [] => (Ok corruptBlockNumbers, pageBlocks)
  | blockNo :: blockNumbers =>
      match verifySinglePage path blockNo pageBlocks with
      | (Err (WalParsing EOF), pageBlocks) => (Ok corruptBlockNumbers, pageBlocks)
      | (Err err, pageBlocks) => (Err err, pageBlocks)
      | (Ok corrupted, pageBlocks) =>
          verifyLoop path blockNumbers pageBlocks
            (if corrupted then corruptBlockNumbers ++ [blockNo] else corruptBlockNumbers)
      end
  end.

(** A file that is not verified is read to its end. The reader is returned as
    well: what is left in it is what the verification did not read. *)
Definition verifyPageBlocks (path : string) (fileInfo : FileInfo) (pageBlocks : R) (blockNumbers : list Z)
    : res pgError (list Z) * R :=
  if bool_decide (fiName fileInfo ∈ ignoredFileNames)
     || negb (isPagedFile (fiIsDir fileInfo) (fiSize fileInfo) path) then
    match ReadAll copyFuel pageBlocks with
    | (_, None, pageBlocks) => (Ok [], pageBlocks)
    | (_, Some err, pageBlocks) => (Err (WalParsing err), pageBlocks)
    end
  else
    match verifyLoop path blockNumbers pageBlocks [] with
    | (Err err, pageBlocks) => (Err err, pageBlocks)
    | (Ok corruptBlockNumbers, pageBlocks) =>
        let '(_, pageBlocks) := isTarReaderEmpty pageBlocks in
        (Ok corruptBlockNumbers, pageBlocks)
    end.

Definition VerifyPagedFileBase (path : string) (fileInfo : FileInfo) (pagedFile : R) : res pgError (list Z) * R :=
  let filePageCount := u32 (Z.quot (fiSize fileInfo) DatabasePageSize) in
  verifyPageBlocks path fileInfo pagedFile (seqZ 0 filePageCount).

Fixpoint incrementBlocks (k : nat) (i : Z) (diffMap : list byte) : res pgError (list Z) :=
  match k with
  | O => Ok []
  | S k =>
      match diffBlock diffMap i with
      | None => Err Panic
      | Some blockNo => rest ← incrementBlocks k (i + 1) diffMap; Ok (blockNo :: rest)
      end
  end.

Definition VerifyPagedFileIncrement (path : string) (fileInfo : FileInfo) (increment : R) : res pgError (list Z) * R :=
  match GetIncrementHeaderFields increment with
  | (Err err, increment) => (Err (WalParsing err), increment)
  | (Ok (_, diffBlockCount, diffMap), increment) =>
      match incrementBlocks (Z.to_nat diffBlockCount) 0 diffMap with
      | Err err => (Err err, increment)
      | Ok blockNumbers => verifyPageBlocks path fileInfo increment blockNumbers
      end
  end.
End Verify.

(** ** The header of a page *)

Fixpoint fieldValues (widths : list nat) (bs : list byte) : list Z :=
  match widths with
  | [] => []
  | w :: widths => le_dec (take w bs) :: fieldValues widths (drop w bs)
  end.

Lemma ParseMultipleFields_values fields (s : list byte) :
  (list_sum (snd <$> fields) <= length s)%nat ->
  ParseMultipleFieldsFromReader fields (s : bytesReader) =
    (Ok (fieldValues (snd <$> fields) s), drop (list_sum (snd <$> fields)) s).
Proof.
  revert s. induction fields as [|[name w] fields IH]; intros s Hl; [done|].
  cbn [fmap list_fmap snd list_sum foldr fieldValues] in *. cbn [ParseMultipleFieldsFromReader].
  unfold rbind. rewrite ParseFrom_ok by (cbn; lia). cbn [avail adv bytesReader_Lawful].
  rewrite IH by (rewrite length_drop; unfold list_sum; lia). unfold rret. by rewrite drop_drop.
Qed.

Lemma headerOf_checksum p : (24 <= length p)%nat ->
  exists h, headerOf p = Some h /\ pdChecksum h = le_dec (take 2 (drop 8 p)).
Proof.
  intros Hl. unfold headerOf, parsePostgresPageHeader, rbind.
  rewrite ParseMultipleFields_values by (change (list_sum _) with 20%nat; lia).
  cbn [pageHeaderFields fmap list_fmap snd fieldValues]. unfold rret. eexists. split; [done|].
  cbn [pdChecksum]. by rewrite drop_drop.
Qed.

(** ** Sealed pages *)

Lemma pgChecksumPage_range block p : 1 <= pgChecksumPage block p <= 65535.
Proof.
  unfold pgChecksumPage. set (c := Z.lxor _ block). pose proof (Z.mod_pos_bound c 65535 ltac:(lia)).
  rewrite wrap_id; [lia|]. unfold in_width. change (2 ^ 16) with 65536. lia.
Qed.

(** The page with the checksum it should have. *)
Definition sealed (block : Z) (p : list byte) : list byte := withChecksum p (le_enc 2 (pgChecksumPage block p)).

Lemma withChecksum_length p bs : (10 <= length p)%nat -> length bs = 2%nat -> length (withChecksum p bs) = length p.
Proof.
  intros Hp Hb. unfold withChecksum. rewrite !length_app, length_take, length_drop, Hb.
  unfold PdChecksumOffset, PdChecksumLen. lia.
Qed.

Lemma withChecksum_twice p bs cs : (10 <= length p)%nat -> length bs = 2%nat ->
  withChecksum (withChecksum p bs) cs = withChecksum p cs.
Proof.
  intros Hp Hb. unfold withChecksum, PdChecksumOffset, PdChecksumLen.
  assert (length (take 8 p) = 8%nat) as Ht by (rewrite length_take; lia). f_equal.
  - by rewrite take_app_length' by done.
  - f_equal. rewrite app_assoc. apply drop_app_length'. rewrite length_app, Ht, Hb. done.
Qed.

Lemma sealed_stored block p : (10 <= length p)%nat ->
  take 2 (drop 8 (sealed block p)) = le_enc 2 (pgChecksumPage block p).
Proof.
  intros Hp. unfold sealed, withChecksum, PdChecksumOffset.
  rewrite drop_app_length' by (rewrite length_take; lia). apply take_app_length'. symmetry. apply le_enc_length.
Qed.

Lemma pgChecksumPage_blank block p q :
  withChecksum p (replicate PdChecksumLen zero) = withChecksum q (replicate PdChecksumLen zero) ->
  pgChecksumPage block p = pgChecksumPage block q.
Proof. intros E. unfold pgChecksumPage. by rewrite E. Qed.

(** The header is that of a page in use, with a checksum, and the checksum is
    not the page's. *)
Definition mismatch (id blockNo : Z) (p : list byte) : bool :=
  match headerOf p with
  | Some h => negb (isNew h) && negb (pdChecksum h =? 0)
              && negb (pgChecksumPage (u32 (u32 (id * BlocksInRelFile) + blockNo)) p =? pdChecksum h)
  | None => false
  end.

Lemma isPageCorrupted_ok path id blockNo p : GetRelFileIDFrom path = Ok id -> (24 <= length p)%nat ->
  isPageCorrupted path blockNo p = Ok (mismatch id blockNo p).
Proof.
  intros Hid Hp. destruct (headerOf_some p Hp) as [h Hh]. unfold isPageCorrupted, mismatch. rewrite Hh.
  unfold headerOf in Hh. destruct (parsePostgresPageHeader (p : bytesReader)) as [[h'|e] s]; simplify_eq.
  destruct (isNew h); [done|]. destruct (pdChecksum h =? 0); [done|].
  unfold absoluteBlock. rewrite Hid. cbn [mbind res_bind negb andb]. done.
Qed.

Lemma mismatch_sealed id blockNo p : (24 <= length p)%nat ->
  mismatch id blockNo (sealed (u32 (u32 (id * BlocksInRelFile) + blockNo)) p) = false.
Proof.
  intros Hp. set (block := u32 _). unfold mismatch. fold block.
  assert (length (sealed block p) = length p) as Hl by (apply withChecksum_length; [lia|apply le_enc_length]).
  destruct (headerOf_checksum (sealed block p)) as (h & -> & ->); [lia|].
  rewrite sealed_stored by lia. pose proof (pgChecksumPage_range block p).
  rewrite le_dec_enc by (unfold fits; apply andb_true_intro; split; [apply Z.leb_le|apply Z.ltb_lt;
    change (2 ^ (8 * Z.of_nat 2)) with 65536]; lia).
  assert (pgChecksumPage block (sealed block p) = pgChecksumPage block p) as ->.
  { apply pgChecksumPage_blank. apply withChecksum_twice; [lia|apply le_enc_length]. }
  by rewrite Z.eqb_refl, andb_false_r.
Qed.

(** ** A whole file *)

Section Verify_spec.
Context {R : Type} `{LawfulReader R}.

Lemma verifyLoop_ok path id f k : GetRelFileIDFrom path = Ok id -> forall i s acc,
  avail s = drop (i * psize) f -> ((i + k) * psize <= length f)%nat ->
  exists s', verifyLoop path (seqZ (Z.of_nat i) (Z.of_nat k)) s acc =
    (Ok (acc ++ List.filter (fun b => mismatch id b (page f (Z.to_nat b))) (seqZ (Z.of_nat i) (Z.of_nat k))), s').
Proof.
  intros Hid. pose proof psize_pos. induction k as [|k IH]; intros i s acc Hs Hl.
  { exists s. cbn. by rewrite app_nil_r. }
  rewrite seqZ_cons by lia. cbn [verifyLoop List.filter]. unfold verifySinglePage.
  rewrite ReadFull_ok by (rewrite Hs, length_drop; nia). rewrite Hs.
  change (take psize (drop (i * psize) f)) with (page f i).
  assert (length (page f i) = psize) as Hpl by (apply page_length; nia).
  rewrite (isPageCorrupted_ok _ _ _ _ Hid) by lia. rewrite Nat2Z.id.
  replace (Z.succ (Z.of_nat i)) with (Z.of_nat (S i)) by lia.
  replace (Z.pred (Z.of_nat (S k))) with (Z.of_nat k) by lia.
  destruct (IH (S i) (adv s psize) (if mismatch id (Z.of_nat i) (page f i) then acc ++ [Z.of_nat i] else acc))
    as (s' & ->); [rewrite avail_adv, Hs, drop_drop; f_equal; lia|lia|].
  exists s'. f_equal. f_equal. destruct (mismatch _ _ _); [by rewrite <- app_assoc|done].
Qed.
End Verify_spec.

(** ** Files that pass the verifier *)

(** The verifier gives no error, whatever blocks it finds corrupt, and reads
    the file to its end. *)
Section Passes.
Implicit Types bs : list byte.

(** The blocks of a data file have numbers: a verifier that is to say so can
    find them in the name of the file, and they fit in 32 bits. *)
Definition block_numbers (path : string) (size : Z) : Prop :=
  isPagedFile false size path = true -> size < 2 ^ 45 /\ exists id, GetRelFileIDFrom path = Ok id.

Lemma verifyLoop_all path id blocks : GetRelFileIDFrom path = Ok id -> forall bs acc,
  length bs = (length blocks * psize)%nat -> exists corrupt, verifyLoop path blocks (bs : bytesReader) acc = (Ok corrupt, []).
Proof.
  intros Hid. pose proof psize_pos. induction blocks as [|b blocks IH]; intros bs acc Hl; cbn [verifyLoop].
  { apply length_zero_iff_nil in Hl as ->. by eexists. }
  cbn [length] in Hl. unfold verifySinglePage. rewrite ReadFull_ok by (cbn [avail bytesReader_Lawful]; lia).
  cbn [avail adv bytesReader_Lawful]. rewrite (isPageCorrupted_ok _ _ _ _ Hid) by (rewrite length_take; lia).
  apply IH. rewrite length_drop. lia.
Qed.

Lemma verifyPageBlocks_all copyFuel path info blocks bs : (length bs < copyFuel)%nat ->
  (isPagedFile (fiIsDir info) (fiSize info) path = true ->
     length bs = (length blocks * psize)%nat /\ exists id, GetRelFileIDFrom path = Ok id) ->
  exists corrupt, verifyPageBlocks copyFuel path info (bs : bytesReader) blocks = (Ok corrupt, []).
Proof.
  intros Hc Hp. unfold verifyPageBlocks.
  destruct (ReadAll_ok copyFuel (bs : bytesReader)) as (s' & Hr & Hs'); [done|]. cbn [avail bytesReader_Lawful] in Hs'. subst s'.
  destruct (bool_decide _); cbn [orb]; [rewrite Hr; by eexists|].
  destruct (isPagedFile _ _ _); cbn [negb]; [|rewrite Hr; by eexists].
  destruct (Hp eq_refl) as (Hl & id & Hid). destruct (verifyLoop_all path id blocks Hid bs [] Hl) as (corrupt & ->).
  by eexists.
Qed.

Lemma isPagedFile_rem isDir size path : isPagedFile isDir size path = true -> Z.rem size DatabasePageSize = 0.
Proof.
  unfold isPagedFile. intros Hp%negb_true_iff. rewrite !orb_false_iff in Hp. destruct Hp as [[[_ _] Hm] _].
  apply negb_false_iff in Hm. by apply Z.eqb_eq.
Qed.

Lemma VerifyPagedFileBase_passes copyFuel path info bs :
  fiIsDir info = false -> fiSize info = Z.of_nat (length bs) -> (length bs < copyFuel)%nat ->
  block_numbers path (fiSize info) ->
  exists corrupt, VerifyPagedFileBase copyFuel path info (bs : bytesReader) = (Ok corrupt, []).
Proof.
  intros Hd Hs Hc Hn. unfold VerifyPagedFileBase. apply verifyPageBlocks_all; [done|]. rewrite Hd. intros Hp.
  destruct (Hn Hp) as [Hlt Hid]. split; [|done]. apply isPagedFile_rem in Hp.
  pose proof psize_Z as Hpz. pose proof psize_pos.
  assert (0 <= Z.quot (fiSize info) DatabasePageSize < 2 ^ 32) as Hq.
  { rewrite Hs in *. rewrite Z.quot_div_nonneg by (rewrite ?Hpz; lia). split; [apply Z.div_pos; lia|].
    apply Z.div_lt_upper_bound; [lia|]. change (2 ^ 45) with (8192 * 2 ^ 32) in Hlt. exact Hlt. }
  rewrite wrap_id by exact Hq. rewrite length_seqZ. apply Nat2Z.inj. rewrite Nat2Z.inj_mul, Z2Nat.id, psize_Z by lia.
  rewrite <- Hs. pose proof (Z.quot_rem' (fiSize info) DatabasePageSize). lia.
Qed.

Lemma incrementBlocks_ok post : forall pre, Z.of_nat (length (pre ++ post)) < 2 ^ 30 ->
  Forall (fun b => Z.of_nat b < 2 ^ 32) post ->
  incrementBlocks (length post) (Z.of_nat (length pre)) (diffMapOf (pre ++ post)) = Ok (Z.of_nat <$> post).
Proof.
  induction post as [|b post IH]; intros pre Hl Hf; [done|]. apply Forall_cons in Hf as [Hb Hf].
  cbn [length incrementBlocks]. rewrite diffBlock_ok by done.
  specialize (IH (pre ++ [b])). rewrite <- app_assoc in IH. cbn [app] in IH.
  replace (Z.of_nat (length (pre ++ [b]))) with (Z.of_nat (length pre) + 1) in IH by (rewrite length_app; cbn; lia).
  by rewrite IH.
Qed.

Lemma VerifyPagedFileIncrement_passes copyFuel path info n bl :
  increment_ok n bl -> fiIsDir info = false -> (length (increment n bl) < copyFuel)%nat -> block_numbers path (fiSize info) ->
  exists corrupt, VerifyPagedFileIncrement copyFuel path info (increment n bl : bytesReader) = (Ok corrupt, []).
Proof.
  intros Hok Hd Hc Hn. unfold VerifyPagedFileIncrement.
  destruct (GetIncrementHeaderFields_ok n bl [] (increment n bl : bytesReader) Hok) as (s' & -> & Hs').
  { cbn [avail bytesReader_Lawful]. by rewrite app_nil_r. }
  rewrite app_nil_r in Hs'. cbn [avail bytesReader_Lawful] in Hs'. subst s'. rewrite Nat2Z.id.
  pose proof (increment_ok_length n bl Hok) as Hl. pose proof (inc_count _ _ Hok) as Hcount.
  pose proof (incrementBlocks_ok bl.*1 []) as Hb. cbn [app length] in Hb. change (Z.of_nat 0) with 0 in Hb.
  rewrite length_fmap in Hb. rewrite Hb by (lia || by eapply small_blocks).
  apply verifyPageBlocks_all.
  - eapply Nat.le_lt_trans; [|exact Hc]. unfold increment. rewrite !length_app. lia.
  - rewrite Hd. intros Hp. destruct (Hn Hp) as [_ Hid]. split; [|done]. rewrite !length_fmap.
    pose proof (inc_pages _ _ Hok) as Hpg. clear -Hpg. induction bl as [|[b p] bl IH]; [done|].
    cbn [fmap list_fmap concat snd length] in *. apply Forall_cons in Hpg as [Hp Hpg]. rewrite length_app, IH by done. lia.
Qed.
End Passes.

(** C18: Verifying a data file reports exactly the blocks whose page is in use,
    stores a checksum, and stores another one than the page's - the checksum of
    the page with its checksum field blank, for the block's number in the whole
    relation. A page sealed with that checksum is never reported. *)
Theorem VerifyPagedFileBase_spec {R} `{LawfulReader R} (copyFuel : nat) (path : string) (fileInfo : FileInfo)
    (s : R) (f : list byte) (id : Z) (n : nat) :
  GetRelFileIDFrom path = Ok id -> pages_of f n -> avail s = f -> Z.of_nat n < 2 ^ 32 ->
  fiSize fileInfo = Z.of_nat (length f) -> fiName fileInfo ∉ ignoredFileNames ->
  isPagedFile (fiIsDir fileInfo) (fiSize fileInfo) path = true ->
  fst (VerifyPagedFileBase copyFuel path fileInfo s) =
    Ok (List.filter (fun b => mismatch id b (page f (Z.to_nat b))) (seqZ 0 (Z.of_nat n))) /\
  forall b p, length p = psize -> mismatch id b (sealed (u32 (u32 (id * BlocksInRelFile) + b)) p) = false.
Proof.
  intros Hid Hf Hs Hn Hsz Hname Hpaged. split.
  - unfold VerifyPagedFileBase, verifyPageBlocks. rewrite Hpaged, bool_decide_eq_false_2 by done. cbn [orb negb].
    rewrite Hsz, Hf, quot_pages, wrap_id by (unfold in_width; lia).
    destruct (verifyLoop_ok path id f n Hid 0 s []) as (s' & Hv);
      [done|cbn [Nat.add]; unfold pages_of in Hf; lia|].
    change (Z.of_nat 0) with 0 in Hv. rewrite Hv. by destruct (isTarReaderEmpty s').
  - intros b p Hp. apply mismatch_sealed. pose proof psize_pos. lia.
Qed.

Lemma VerifyPagedFileBase_spec_witness :
  let f := sealed 0 (ex_page 10 Byte.x61) in
  fst (VerifyPagedFileBase 1 "/data/base/13/2619" (mkFileInfo "2619" ModeRegular (Z.of_nat (length f)) 0)
    (f : bytesReader)) = Ok [].
Proof.
  cbv zeta. set (p := ex_page 10 Byte.x61).
  assert (length (sealed 0 p) = psize) as Hl.
  { pose proof psize_pos. pose proof (ex_page_length 10 Byte.x61 : length p = psize).
    unfold sealed. rewrite withChecksum_length; [assumption|lia|apply le_enc_length]. }
  destruct (VerifyPagedFileBase_spec 1 "/data/base/13/2619" (mkFileInfo "2619" ModeRegular (Z.of_nat (length (sealed 0 p))) 0)
    (sealed 0 p : bytesReader) (sealed 0 p) 0 1) as [Hv Hm].
  - vm_compute. reflexivity.
  - unfold pages_of. lia.
  - reflexivity.
  - lia.
  - reflexivity.
  - intros Hin. apply elem_of_cons in Hin as [Hin|Hin]; [discriminate|by apply elem_of_nil in Hin].
  - change (fiIsDir _) with false. cbn [fiSize]. rewrite Hl. rewrite <- (Nat.mul_1_l psize). rewrite isPagedFile_pages; [reflexivity|by vm_compute].
  - rewrite Hv. change (seqZ 0 (Z.of_nat 1)) with [0]. cbn [List.filter].
    change (page (sealed 0 p) (Z.to_nat 0)) with (take psize (sealed 0 p)). rewrite take_ge by lia.
    rewrite (Hm 0 p (ex_page_length 10 Byte.x61) : mismatch 0 0 (sealed 0 p) = false). reflexivity.
Defined.
