(* ===== verification/TarQueue.v ===== *)
(** * Archives that are being written

    [src/internal]: [tar_ball.go], [storage_tar_ball.go] with its maker, and
    [tar_ball_queue.go]. The upload of an archive is a goroutine that ends the
    process when it fails, so an archive whose writer is closed is in the
    storage: the queue keeps what has been uploaded. The capacities of the two
    channels are those the counters give them; [LastCreatedTarball] is sent to
    the queue, or returned, at once. *)

From stdpp Require Import pretty gmap strings.
From S2P Require Import Prelude GoIO PagedFile GoFS GoStrings.
Open Scope Z_scope.

(** ** [fmt.Sprintf("%0.3d", n)] *)

Fixpoint zeros (k : nat) : string :=
  match k with O => "" | S k => String (Ascii.ascii_of_nat 48) (zeros k) end.

Definition fmtD (width : nat) (n : nat) : string :=
  let digits := pretty (N.of_nat n) in
  zeros (width - slen digits) +s digits.

(** ** [archive/tar.Writer] *)

(** The entries, the last one perhaps not complete. *)
Definition tarWriter : Type := list (Header * list byte).

Definition tarComplete (w : tarWriter) : bool :=
  match last w with
  | None => true
  | Some (h, bs) => hSize h <=? Z.of_nat (length bs)
  end.

Definition ErrMissedWriting : error := Wrapf "archive/tar: missed writing" ForeignError.
Definition ErrWriteTooLong : error := Wrapf "archive/tar: write too long" ForeignError.

Definition WriteHeader (w : tarWriter) (h : Header) : res error tarWriter :=
  if tarComplete w then Ok (w ++ [(h, [])]) else Err ErrMissedWriting.

(** [Write] on the last entry: what does not fit is an error. *)
Definition WriteEntry (w : tarWriter) (bs : list byte) : option error * tarWriter :=
  match rev w with
  | [] => (if (length bs =? 0)%nat then None else Some ErrWriteTooLong, w)
  | (h, old) :: older =>
      let room := Z.to_nat (hSize h - Z.of_nat (length old)) in
      (if (length bs <=? room)%nat then None else Some ErrWriteTooLong, rev older ++ [(h, old ++ take room bs)])
  end.

(** ** [storage_tar_ball.go] *)

Record TarBall := mkTarBall {
  partNumber : nat;
  tbName : string;
  (** nil until [SetUp] *)
  writer : option tarWriter;
  partSize : Z
}.

Definition withWriter (tb : TarBall) (w : tarWriter) : TarBall :=
  mkTarBall (partNumber tb) (tbName tb) (Some w) (partSize tb).

(** The name of an archive, for the extension of the compressor. *)
Definition partName (extension : string) (partNumber : nat) : string :=
  "part_" +s fmtD 3 partNumber +s ".tar." +s extension.

Definition SetUp (extension : string) (tb : TarBall) (names : list string) : TarBall :=
  match writer tb with
  | Some _ => tb
  | None =>
      mkTarBall (partNumber tb)
        (match names with name :: _ => name | [] => partName extension (partNumber tb) end)
        (Some []) (partSize tb)
  end.

Definition AddSize (tb : TarBall) (i : Z) : TarBall :=
  mkTarBall (partNumber tb) (tbName tb) (writer tb) (partSize tb + i).

(** An archive in the storage. *)
Definition upload : Type := string * list (Header * list byte).

(** A nil writer panics. *)
Definition CloseTar (tb : TarBall) : res error upload :=
  match writer tb with
  | None => Err RuntimePanic
  | Some w => if tarComplete w then Ok (tbName tb, w)
              else Err (Wrapf "CloseTar: failed to close tar writer" ErrMissedWriting)
  end.

(** ** [tar_ball.go] *)

(** [fileContent] is what the reader gives: its bytes, and the error that
    ended it if it was not [EOF]. *)
Definition PackFileTo (tb : TarBall) (h : Header) (fileContent : list byte * option error)
    : res error Z * TarBall :=
  match writer tb with
  | None => (Err RuntimePanic, tb)
  | Some w =>
      match WriteHeader w h with
      | Err err => (Err (Wrapf "PackFileTo: failed to write header" err), tb)
      | Ok w =>
          let '(bs, rerr) := fileContent in
          let '(werr, w) := WriteEntry w bs in
          let tb := withWriter tb w in
          match werr, rerr with
          | Some err, _ | None, Some err => (Err (Wrapf "PackFileTo: copy failed" err), tb)
          | None, None => (Ok (Z.of_nat (length bs)), AddSize tb (hSize h))
          end
      end
  end.

(** ** [tar_ball_queue.go] *)

Record TarBallQueue := mkQueue {
  tarsToFillQueue : list TarBall;
  uploadQueue : list TarBall;
  parallelTarballs : nat;
  maxUploadQueue : nat;
  started : bool;
  TarSizeThreshold : Z;
  AllTarballsSize : Z;
  (** of the [StorageTarBallMaker] *)
  partCount : nat;
  uploads : list upload
}.

Definition withToFill (q : TarBallQueue) (tars : list TarBall) : TarBallQueue :=
  mkQueue tars (uploadQueue q) (parallelTarballs q) (maxUploadQueue q) (started q) (TarSizeThreshold q)
    (AllTarballsSize q) (partCount q) (uploads q).
Definition withUploadQueue (q : TarBallQueue) (tars : list TarBall) : TarBallQueue :=
  mkQueue (tarsToFillQueue q) tars (parallelTarballs q) (maxUploadQueue q) (started q) (TarSizeThreshold q)
    (AllTarballsSize q) (partCount q) (uploads q).
Definition withStarted (q : TarBallQueue) (b : bool) : TarBallQueue :=
  mkQueue (tarsToFillQueue q) (uploadQueue q) (parallelTarballs q) (maxUploadQueue q) b (TarSizeThreshold q)
    (AllTarballsSize q) (partCount q) (uploads q).

Definition NewTarBallQueue (tarSizeThreshold : Z) : TarBallQueue :=
  mkQueue [] [] 0 0 false tarSizeThreshold 0 0 [].

(** [StorageTarBallMaker.Make] *)
Definition NewTarBall (q : TarBallQueue) : TarBall * TarBallQueue :=
  let partCount := S (partCount q) in
  (mkTarBall partCount "" None 0,
   mkQueue (tarsToFillQueue q) (uploadQueue q) (parallelTarballs q) (maxUploadQueue q) (started q)
     (TarSizeThreshold q) (AllTarballsSize q) partCount (uploads q)).

Definition EnqueueBack (q : TarBallQueue) (tb : TarBall) : TarBallQueue :=
  withToFill q (tarsToFillQueue q ++ [tb]).

(** [n] new archives in the queue. *)
Fixpoint fillQueue (n : nat) (q : TarBallQueue) : TarBallQueue :=
  match n with
  | O => q
  | S n => let '(tb, q) := NewTarBall q in fillQueue n (EnqueueBack q tb)
  end.

(** The two settings are those of [GetMaxUploadDiskConcurrency] and
    [getMaxUploadQueue]. *)
Definition StartQueue (maxUploadDiskConcurrency maxUploadQueue : nat) (q : TarBallQueue) : res error TarBallQueue :=
  if started q then Err RuntimePanic
  else
    let q := mkQueue [] [] maxUploadDiskConcurrency maxUploadQueue (started q) (TarSizeThreshold q)
      (AllTarballsSize q) (partCount q) (uploads q) in
    Ok (withStarted (fillQueue maxUploadDiskConcurrency q) true).

(** [None]: there is no archive to take, and the caller waits. *)
Definition Deque (q : TarBallQueue) : option (TarBall * TarBallQueue) :=
  match tarsToFillQueue q with
  | [] => None
  | tb :: tars => Some (tb, withToFill q tars)
  end.

(** The size is counted before the archive is closed. *)
Definition CloseTarball (q : TarBallQueue) (tb : TarBall) : option error * TarBallQueue :=
  let closed := CloseTar tb in
  (match closed with Ok _ => None | Err err => Some err end,
   mkQueue (tarsToFillQueue q) (uploadQueue q) (parallelTarballs q) (maxUploadQueue q) (started q)
     (TarSizeThreshold q) (AllTarballsSize q + partSize tb) (partCount q)
     (match closed with Ok up => uploads q ++ [up] | Err _ => uploads q end)).

(** The uploads of the oldest archives of the queue are awaited. *)
Definition awaitUploads (q : TarBallQueue) : TarBallQueue :=
  withUploadQueue q (drop (length (uploadQueue q) - maxUploadQueue q) (uploadQueue q)).

Definition FinishTarBall (q : TarBallQueue) (tb : TarBall) : option error * TarBallQueue :=
  match CloseTarball q tb with
  | (Some err, q) => (Some (Wrapf "HandleWalkedFSObject: failed to close tarball" err), q)
  | (None, q) =>
      let q := awaitUploads (withUploadQueue q (uploadQueue q ++ [tb])) in
      let '(tb, q) := NewTarBall q in
      (None, EnqueueBack q tb)
  end.

Definition CheckSizeAndEnqueueBack (q : TarBallQueue) (tb : TarBall) : option error * TarBallQueue :=
  if TarSizeThreshold q <? partSize tb then FinishTarBall q tb else (None, EnqueueBack q tb).

(** The archives taken from the queue and closed, unless nothing was written
    to them. *)
Fixpoint finishLoop (n : nat) (q : TarBallQueue) : option error * TarBallQueue :=
  match n with
  | O => (None, q)
  | S n =>
      match Deque q with
      | None => (Some ErrNoProgress, q)
      | Some (tb, q) =>
          match writer tb with
          | None => finishLoop n q
          | Some _ =>
              match CloseTarball q tb with
              | (Some err, q) => (Some (Wrapf "HandleWalkedFSObject: failed to close tarball" err), q)
              | (None, q) => finishLoop n q
              end
          end
      end
  end.

(** An archive that never comes back blocks it for ever ([ErrNoProgress]). *)
Definition FinishQueue (q : TarBallQueue) : option error * TarBallQueue :=
  if negb (started q) then (Some RuntimePanic, q)
  else
    match finishLoop (parallelTarballs q) (withStarted q false) with
    | (Some err, q) => (Some err, q)
    | (None, q) => (None, withUploadQueue q [])
    end.

(** ** [TarFileSets]: the names of the files in each archive *)

Notation TarFileSets := (gmap string (list string)).

(** [append(tarFileSets[name], names...)] *)
Definition appendSet (name : string) (names : list string) (sets : TarFileSets) : TarFileSets :=
  <[name := default [] (sets !! name) ++ names]> sets.
