(* ===== verification/BundleFiles.v ===== *)
(** * The files of a backup that is being made

    [src/internal/databases/postgres/bundle_files.go], with
    [src/internal/compose_rating_evaluator.go]: the descriptions of the files
    by name, as the regular composer keeps them and, with the counts of updates
    of the statistics, as the rating composer does. The statistics are read by
    SQL queries; here they are a map. *)

From stdpp Require Import gmap strings.
From S2P Require Import Prelude GoIO GoSort WalRecord PagedFile GoFS GoStrings GoPath Timeline DeltaMap Unwrap.
Open Scope Z_scope.

(** [sync.Map] is a map with atomic operations. *)
Class BundleFiles (F : Type) := {
  AddSkippedFile : Header -> FileInfo -> F -> F;
  AddFile : Header -> FileInfo -> bool -> F -> F;
  AddFileWithCorruptBlocks : Header -> FileInfo -> bool -> list Z -> bool -> F -> F;
  GetUnderlyingMap : F -> BackupFileList
}.

(** What the packer and the composers rely on: the entry of the file is
    replaced by one with these flags and this time, the others stay. *)
Definition describes (isIncremented isSkipped : bool) (info : FileInfo) (d : BackupFileDescription) : Prop :=
  IsIncremented d = isIncremented /\ IsSkipped d = isSkipped /\ MTime d = fiModTime info.

Class BundleFilesLaws (F : Type) `{BundleFiles F} : Prop := {
  map_AddSkippedFile h info files : exists d, describes false true info d /\
    GetUnderlyingMap (AddSkippedFile h info files) = <[hName h := d]> (GetUnderlyingMap files);
  map_AddFile h info inc files : exists d, describes inc false info d /\
    GetUnderlyingMap (AddFile h info inc files) = <[hName h := d]> (GetUnderlyingMap files);
  map_AddFileWithCorruptBlocks h info inc blocks all files : exists d, describes inc false info d /\
    GetUnderlyingMap (AddFileWithCorruptBlocks h info inc blocks all files) = <[hName h := d]> (GetUnderlyingMap files)
}.

Lemma describes_corrupt inc info updates blocks all :
  describes inc false info (SetCorruptBlocks (mkFileDescription inc false (fiModTime info) None updates) blocks all).
Proof. by destruct blocks. Qed.

(** ** [RegularBundleFiles] *)

Record RegularBundleFiles := mkRegularFiles { regularFiles : BackupFileList }.

Definition storeRegular (name : string) (d : BackupFileDescription) (files : RegularBundleFiles) : RegularBundleFiles :=
  mkRegularFiles (<[name := d]> (regularFiles files)).

#[export] Instance RegularBundleFiles_ops : BundleFiles RegularBundleFiles := {
  AddSkippedFile h info := storeRegular (hName h) (mkFileDescription false true (fiModTime info) None 0);
  AddFile h info isIncremented := storeRegular (hName h) (mkFileDescription isIncremented false (fiModTime info) None 0);
  AddFileWithCorruptBlocks h info isIncremented corruptedBlocks storeAllBlocks :=
    storeRegular (hName h)
      (SetCorruptBlocks (mkFileDescription isIncremented false (fiModTime info) None 0) corruptedBlocks storeAllBlocks);
  GetUnderlyingMap := regularFiles
}.

#[export] Instance RegularBundleFiles_laws : BundleFilesLaws RegularBundleFiles.
Proof. constructor; intros; (eexists; split; [|reflexivity]); [done|done|apply describes_corrupt]. Qed.

(** ** [RelFileStatistics] *)

Record PgRelationStat := mkRelationStat {
  insertedTuplesCount : Z; updatedTuplesCount : Z; deletedTuplesCount : Z
}.

Notation RelFileStatistics := (gmap RelFileNode PgRelationStat).

Definition getFileUpdateCount (relStat : RelFileStatistics) (filePath : string) : Z :=
  match GetRelFileNodeFrom filePath with
  | Err _ => 0
  | Ok relFileNode =>
      match relStat !! relFileNode with
      | None => 0
      | Some fileStat =>
          u64 (u64 (deletedTuplesCount fileStat + updatedTuplesCount fileStat) + insertedTuplesCount fileStat)
      end
  end.

(** ** [StatBundleFiles] *)

Record StatBundleFiles := mkStatFiles { statFiles : BackupFileList; fileStats : RelFileStatistics }.

Definition newStatBundleFiles (fileStat : RelFileStatistics) : StatBundleFiles := mkStatFiles ∅ fileStat.

Definition storeStat (name : string) (d : Z -> BackupFileDescription) (files : StatBundleFiles) : StatBundleFiles :=
  let updatesCount := getFileUpdateCount (fileStats files) name in
  mkStatFiles (<[name := d updatesCount]> (statFiles files)) (fileStats files).

#[export] Instance StatBundleFiles_ops : BundleFiles StatBundleFiles := {
  AddSkippedFile h info := storeStat (hName h) (mkFileDescription false true (fiModTime info) None);
  AddFile h info isIncremented := storeStat (hName h) (mkFileDescription isIncremented false (fiModTime info) None);
  AddFileWithCorruptBlocks h info isIncremented corruptedBlocks storeAllBlocks :=
    storeStat (hName h) (fun updatesCount =>
      SetCorruptBlocks (mkFileDescription isIncremented false (fiModTime info) None updatesCount)
        corruptedBlocks storeAllBlocks);
  GetUnderlyingMap := statFiles
}.

#[export] Instance StatBundleFiles_laws : BundleFilesLaws StatBundleFiles.
Proof. constructor; intros; (eexists; split; [|reflexivity]); [done|done|apply describes_corrupt]. Qed.

(** ** [compose_rating_evaluator.go] *)

(** The updates of a file per hundred at the time of the base backup. *)
Definition Evaluate (incrementFromFiles : BackupFileList) (path : string) (updatesCount : Z) (wasInBase : bool) : Z :=
  if negb wasInBase then updatesCount
  else
    let prevUpdateCount :=
      match incrementFromFiles !! path with Some d => UpdatesCount d | None => 0 end in
    if prevUpdateCount =? 0 then updatesCount
    else Z.quot (u64 (updatesCount * 100)) prevUpdateCount.
