(* ===== verification/Packer.v ===== *)
(** * Packing one file into an archive

    [src/internal/databases/postgres]: [tar_ball_file_packer.go], with the
    [ComposeFileInfo] of [tar_ball_composer.go]. The directory that is backed
    up is a function from paths to the files [os.Open] gives; the disk limiter
    only slows the reads. Two goroutines read a file when pages are verified:
    the packer through a tee, the verifier from a pipe that has each byte the
    packer has read. *)

From stdpp Require Import gmap strings.
From S2P Require Import Prelude GoIO GoSort WalRecord WalPage WalFile PagedFile GoFS.
From S2P Require Import GoStrings GoPath Timeline DeltaMap IncPages Unwrap PageVerify TarQueue BundleFiles.
Open Scope Z_scope.

(** ** [tar_ball_composer.go] *)

Record ComposeFileInfo := mkComposeFileInfo {
  cPath : string;
  cFileInfo : FileInfo;
  wasInBase : bool;
  cHeader : Header;
  cIsIncremented : bool
}.

Definition NewComposeFileInfo (path : string) (fileInfo : FileInfo) (wasInBase isIncremented : bool)
    (header : Header) : ComposeFileInfo :=
  mkComposeFileInfo path fileInfo wasInBase header isIncremented.

Record TarBallFilePackerOptions := NewTarBallFilePackerOptions {
  verifyPageChecksums : bool;
  storeAllCorruptBlocks : bool
}.

(** [SkippedFileError], [FileNotExistError] and the other errors. *)
Inductive packError :=
| SkippedFileError (path : string)
| FileNotExistError (path : string)
| PackError (e : pgError).

Definition packPanic : packError := PackError Panic.

Section Packer.
Context {F : Type} `{Reader F, Seeker F} {B : Type} `{Bitmap B} {BF : Type} `{BundleFiles BF}.
Notation PagedFileDeltaMap := (gmap RelFileNode B).
(** The bounds of the loops that read a file: of the scan for changed pages
    and of the copies. *)
Variable scanFuel copyFuel : nat.
(** [os.Open] *)
Variable open : string -> option F.

(** The files the packer describes are threaded apart. *)
Record TarBallFilePacker := newTarBallFilePacker {
  deltaMap : option PagedFileDeltaMap;
  incrementFromLsn : option Z;
  options : TarBallFilePackerOptions
}.
Implicit Types p : TarBallFilePacker.

(** No bitmap when there is no delta map. *)
Definition getDeltaBitmapFor p (filePath : string) : res pgError (option B) :=
  match deltaMap p with
  | None => Ok None
  | Some deltaMap => bitmap ← GetDeltaBitmapFor deltaMap filePath; Ok (Some bitmap)
  end.

Definition UpdateDeltaMap p (deltaMap : PagedFileDeltaMap) : TarBallFilePacker :=
  newTarBallFilePacker (Some deltaMap) (incrementFromLsn p) (options p).

Definition NoBitmapFoundError : pgError := External "GetDeltaBitmapFor: no bitmap found".

(** The reader of a file: an increment or all of it, with the length that was
    announced. *)
Inductive fileReader :=
| IncrementReader (r : paddedReader (IncrementalPageReader F))
| WholeReader (r : paddedReader F).

Definition startReadingFile (h : Header) (info : FileInfo) (path : string) : res packError (fileReader * Header) :=
  match open path with
  | None => Err (FileNotExistError path)
  | Some file =>
      let h := withSize h (fiSize info) in
      Ok (WholeReader (mkPadded file false (Z.to_nat (hSize h))), h)
  end.

Definition withIncremented (cfi : ComposeFileInfo) (isIncremented : bool) (h : Header) : ComposeFileInfo :=
  mkComposeFileInfo (cPath cfi) (cFileInfo cfi) (wasInBase cfi) h isIncremented.

(** [*p.incrementFromLsn] panics when there is none. An invalid page makes a
    full backup of the file of an increment. *)
Definition createFileReadCloser p (cfi : ComposeFileInfo) : res packError (fileReader * ComposeFileInfo) :=
  let whole :=
    '(r, h) ← startReadingFile (cHeader cfi) (cFileInfo cfi) (cPath cfi);
    Ok (r, withIncremented cfi false h) in
  if cIsIncremented cfi then
    match getDeltaBitmapFor p (cPath cfi) with
    | Err err => if bool_decide (err = NoBitmapFoundError) then Err (SkippedFileError (cPath cfi))
                 else Err (PackError (Wrapped "PackFileIntoTar: failed to find corresponding bitmap" err))
    | Ok bitmap =>
        match incrementFromLsn p, open (cPath cfi) with
        | None, _ => Err packPanic
        | Some _, None => Err (FileNotExistError (cPath cfi))
        | Some lsn, Some file =>
            match ReadIncrementalFile scanFuel file (fiSize (cFileInfo cfi)) lsn bitmap with
            | Ok (r, size) =>
                Ok (IncrementReader (mkPadded r false (Z.to_nat size)),
                    withIncremented cfi true (withSize (cHeader cfi) size))
            | Err (InvalidBlockError _) => whole
            | Err err =>
                Err (PackError (Wrapped "PackFileIntoTar: failed reading incremental file" (WalParsing err)))
            end
        end
    end
  else whole.

(** What a copy of the reader gives. *)
Definition copyReader (r : fileReader) : list byte * option error :=
  match r with
  | IncrementReader r => let '(bs, err, _) := ReadAll copyFuel r in (bs, err)
  | WholeReader r => let '(bs, err, _) := ReadAll copyFuel r in (bs, err)
  end.

(** What the verifier says, and what it has left in the pipe. *)
Definition verifyFile (path : string) (fileInfo : FileInfo) (fileReader : bytesReader) (isIncremented : bool)
    : res pgError (list Z) * bytesReader :=
  if negb (isPagedFile (fiIsDir fileInfo) (fiSize fileInfo) path) then
    match ReadAll copyFuel fileReader with
    | (_, None, rest) => (Ok [], rest)
    | (_, Some err, rest) => (Err (WalParsing err), rest)
    end
  else if isIncremented then VerifyPagedFileIncrement copyFuel path fileInfo fileReader
  else VerifyPagedFileBase copyFuel path fileInfo fileReader.

Definition TarSizeError (packedFileSize expectedSize : Z) : pgError := External "packed wrong numbers of bytes".

(** The goroutine that packs. *)
Definition packCopy (cfi : ComposeFileInfo) (tb : TarBall) (copied : list byte * option error)
    : option pgError * TarBall :=
  let '(packedFileSize, tb) := PackFileTo tb (cHeader cfi) copied in
  match packedFileSize with
  | Err err => (Some (Wrapped "PackFileIntoTar: operation failed" (WalParsing err)), tb)
  | Ok packedFileSize =>
      if packedFileSize =? hSize (cHeader cfi) then (None, tb)
      else (Some (TarSizeError packedFileSize (hSize (cHeader cfi))), tb)
  end.

(** The archive can take a new entry. *)
Definition acceptsEntry (tb : TarBall) : bool :=
  match writer tb with Some w => tarComplete w | None => false end.

(** The goroutine that verifies, and the group's [Wait]: [None] when it never
    returns, because the verifier has ended and the packer waits for what it
    wrote to the pipe to be read. Of two errors, the packer's is kept. *)
Definition PackFileIntoTar p (cfi : ComposeFileInfo) (tb : TarBall) (files : BF)
    : option (res pgError (TarBall * BF)) :=
  match createFileReadCloser p cfi with
  | Err (SkippedFileError _) => Some (Ok (tb, AddSkippedFile (cHeader cfi) (cFileInfo cfi) files))
  | Err (FileNotExistError _) => Some (Ok (tb, files))
  | Err (PackError err) => Some (Err err)
  | Ok (fileReader, cfi) =>
      let copied := copyReader fileReader in
      let '(packErr, tb') := packCopy cfi tb copied in
      if verifyPageChecksums (options p) then
        let '(corruptBlocks, unread) := verifyFile (cPath cfi) (cFileInfo cfi) (fst copied : bytesReader) (cIsIncremented cfi) in
        match acceptsEntry tb, unread, packErr with
        | true, _ :: _, _ => None
        | _, _, Some err => Some (Err err)
        | _, _, None =>
            Some (corruptBlocks ← corruptBlocks;
                  Ok (tb', AddFileWithCorruptBlocks (cHeader cfi) (cFileInfo cfi) (cIsIncremented cfi) corruptBlocks
                             (storeAllCorruptBlocks (options p)) files))
        end
      else
        Some (match packErr with
              | Some err => Err err
              | None => Ok (tb', AddFile (cHeader cfi) (cFileInfo cfi) (cIsIncremented cfi) files)
              end)
  end.
End Packer.
Arguments TarBallFilePacker : clear implicits.
Arguments newTarBallFilePacker {B}.
