(* ===== verification/Composer.v ===== *)
(** * Composing archives

    [src/internal/databases/postgres]: [regular_tar_ball_composer.go] and
    [rating_tar_ball_composer.go]. The goroutines that pack files and the
    caller of the composer run in any order: both composers are step
    relations. A step of a goroutine is all it does to a file, since it owns
    its archive and what it shares - the queue, the map of the files - is
    used under locks, by names that differ. *)

From stdpp Require Import gmap strings relations.
From S2P Require Import Prelude GoIO GoSort WalRecord WalPage WalFile PagedFile GoFS.
From S2P Require Import GoStrings GoPath Timeline DeltaMap IncPages Unwrap TarQueue BundleFiles Packer.
Open Scope Z_scope.

(** What is asked of a composer, in the order of the walk. *)
Inductive action :=
| ActFile (info : ComposeFileInfo)
| ActHeader (header : Header) (info : FileInfo)
| ActSkip (header : Header) (info : FileInfo).

(** ** [regular_tar_ball_composer.go] *)

Section Composers.
Context {F : Type} `{Reader F, Seeker F} {B : Type} `{Bitmap B}.
Variable scanFuel copyFuel : nat.
Variable open : string -> option F.
(** The file extension of the compressor. *)
Variable extension : string.

Section Regular.
Variable packer : TarBallFilePacker B.

Record RegularTarBallComposer := mkRegular {
  rTodo : list action;
  rQueue : TarBallQueue;
  rFiles : RegularBundleFiles;
  rSets : TarFileSets;
  (** the files that goroutines pack, with their archives *)
  rRunning : list (ComposeFileInfo * TarBall);
  (** the first error of the group, which cancels its context *)
  rFailed : option pgError
}.

Definition NewRegularTarBallComposer (queue : TarBallQueue) (todo : list action) : RegularTarBallComposer :=
  mkRegular todo queue (mkRegularFiles ∅) ∅ [] None.

Definition fail (failed : option pgError) (err : pgError) : option pgError :=
  Some (match failed with Some first => first | None => err end).

(** Once the context is cancelled, [DequeCtx] may end with its error even if
    there is an archive. *)
Inductive regular_step : RegularTarBallComposer -> RegularTarBallComposer -> Prop :=
| regular_AddFile info todo q tb q' files sets running failed :
    Deque q = Some (tb, q') ->
    let tb := SetUp extension tb [] in
    regular_step (mkRegular (ActFile info :: todo) q files sets running failed)
      (mkRegular todo q' files (appendSet (tbName tb) [hName (cHeader info)] sets) (running ++ [(info, tb)]) failed)
| regular_AddFile_cancelled info todo q files sets running err :
    regular_step (mkRegular (ActFile info :: todo) q files sets running (Some err))
      (mkRegular todo q files sets running (Some err))
| regular_AddHeader h info todo q tb q' w files sets running failed :
    Deque q = Some (tb, q') ->
    let tb := SetUp extension tb [] in
    writer tb = Some w ->
    forall w', WriteHeader w h = Ok w' ->
    regular_step (mkRegular (ActHeader h info :: todo) q files sets running failed)
      (mkRegular todo (EnqueueBack q' (withWriter tb w')) (AddFile h info false files)
        (appendSet (tbName tb) [hName h] sets) running failed)
| regular_AddHeader_error h info todo q tb q' w files sets running failed err :
    Deque q = Some (tb, q') ->
    let tb := SetUp extension tb [] in
    writer tb = Some w -> WriteHeader w h = Err err ->
    regular_step (mkRegular (ActHeader h info :: todo) q files sets running failed)
      (mkRegular [] (EnqueueBack q' tb) (AddFile h info false files)
        (appendSet (tbName tb) [hName h] sets) running (fail failed (WalParsing err)))
| regular_AddHeader_cancelled h info todo q files sets err :
    regular_step (mkRegular (ActHeader h info :: todo) q files sets [] (Some err))
      (mkRegular [] q files sets [] (Some err))
| regular_SkipFile h info todo q files sets running failed :
    regular_step (mkRegular (ActSkip h info :: todo) q files sets running failed)
      (mkRegular todo q (AddSkippedFile h info files) sets running failed)
| regular_pack todo q q' files files' sets before info tb tb' after failed :
    PackFileIntoTar scanFuel copyFuel open packer info tb files = Some (Ok (tb', files')) ->
    CheckSizeAndEnqueueBack q tb' = (None, q') ->
    regular_step (mkRegular todo q files sets (before ++ (info, tb) :: after) failed)
      (mkRegular todo q' files' sets (before ++ after) failed)
| regular_pack_error todo q files sets before info tb after failed err :
    PackFileIntoTar scanFuel copyFuel open packer info tb files = Some (Err err) ->
    regular_step (mkRegular todo q files sets (before ++ (info, tb) :: after) failed)
      (mkRegular todo q files sets (before ++ after) (fail failed err))
| regular_finish_error todo q q' files files' sets before info tb tb' after failed err :
    PackFileIntoTar scanFuel copyFuel open packer info tb files = Some (Ok (tb', files')) ->
    CheckSizeAndEnqueueBack q tb' = (Some err, q') ->
    regular_step (mkRegular todo q files sets (before ++ (info, tb) :: after) failed)
      (mkRegular todo q' files' sets (before ++ after) (fail failed (WalParsing err))).

(** [PackTarballs], once all is added: it waits for the goroutines. *)
Definition regular_PackTarballs (c : RegularTarBallComposer) : option (res pgError TarFileSets) :=
  match rTodo c, rRunning c with
  | [], [] => Some (match rFailed c with Some err => Err err | None => Ok (rSets c) end)
  | _, _ => None
  end.
End Regular.

(** ** [rating_tar_ball_composer.go] *)

Record RatedComposeFileInfo := mkRated {
  rated : ComposeFileInfo;
  updateRating : Z;
  updatesCount : Z;
  expectedSize : Z
}.

Record TarFilesCollection := mkCollection { colFiles : list RatedComposeFileInfo; colExpectedSize : Z }.

Definition newTarFilesCollection : TarFilesCollection := mkCollection [] 0.

Definition collectionAddFile (collection : TarFilesCollection) (file : RatedComposeFileInfo) : TarFilesCollection :=
  mkCollection (colFiles collection ++ [file]) (u64 (colExpectedSize collection + expectedSize file)).

Definition sizeofInt64 : Z := 8.

Section Rating.
Context `{SortSlice}.
Notation PagedFileDeltaMap := (gmap RelFileNode B).
Variable tarSizeThreshold : Z.
(** Of the base backup. *)
Variable incrementFromFiles : BackupFileList.
Variable incrementBaseLsn : option Z.
Variable relFileStats : RelFileStatistics.
Variable deltaMapComplete : bool.

(** [*c.incrementBaseLsn] panics when there is none. *)
Definition scanDeltaMapFor (filePath : string) (fileSize : Z) (deltaMap : PagedFileDeltaMap)
    : res pgError PagedFileDeltaMap :=
  match incrementBaseLsn, open filePath with
  | None, _ => Err Panic
  | Some _, None => Err (External "open: no such file")
  | Some lsn, Some file =>
      locations ← ReadIncrementLocations scanFuel file filePath fileSize lsn;
      Ok (match locations with [] => deltaMap | _ => AddLocationsToDelta deltaMap locations end)
  end.

Definition incrementSize (incrementBlocksCount : Z) : Z :=
  let incrementHeaderSize :=
    u64 (Z.of_nat (length IncrementFileHeader) + sizeofInt64 + sizeofInt32
         + u64 (incrementBlocksCount * sizeofInt32)) in
  let incrementPageDataSize := u64 (incrementBlocksCount * DatabasePageSize) in
  u64 (incrementHeaderSize + incrementPageDataSize).

Definition getExpectedFileSize (cfi : ComposeFileInfo) (deltaMap : PagedFileDeltaMap)
    : res pgError (Z * PagedFileDeltaMap) :=
  if negb (cIsIncremented cfi) then Ok (u64 (fiSize (cFileInfo cfi)), deltaMap)
  else
    deltaMap ← (if deltaMapComplete then Ok deltaMap
                else scanDeltaMapFor (cPath cfi) (fiSize (cFileInfo cfi)) deltaMap);
    match GetDeltaBitmapFor deltaMap (cPath cfi) with
    | Ok bitmap => Ok (incrementSize (Z.of_nat (length (ToArray bitmap))), deltaMap)
    | Err err =>
        if bool_decide (err = NoBitmapFoundError) then Ok (0, deltaMap)
        else Err (Wrapped "getExpectedFileSize: failed to find corresponding bitmap" err)
    end.

Definition addFile (cfi : ComposeFileInfo) (st : PagedFileDeltaMap * list RatedComposeFileInfo)
    : res pgError (PagedFileDeltaMap * list RatedComposeFileInfo) :=
  let '(deltaMap, filesToCompose) := st in
  '(expectedFileSize, deltaMap) ← getExpectedFileSize cfi deltaMap;
  let updatesCount := getFileUpdateCount relFileStats (cPath cfi) in
  let updateRating := Evaluate incrementFromFiles (cPath cfi) updatesCount (wasInBase cfi) in
  Ok (deltaMap, filesToCompose ++ [mkRated cfi updateRating updatesCount expectedFileSize]).

(** The workers take the files from a queue; [cfis] is the order in which
    they finish. *)
Fixpoint addFiles (cfis : list ComposeFileInfo) (st : PagedFileDeltaMap * list RatedComposeFileInfo)
    : res pgError (PagedFileDeltaMap * list RatedComposeFileInfo) :=
  match cfis with
  | [] => Ok st
  | cfi :: cfis => st ← addFile cfi st; addFiles cfis st
  end.

Definition sortFiles (filesToCompose : list RatedComposeFileInfo) : list RatedComposeFileInfo :=
  Slice (fun a b => updateRating a <? updateRating b) filesToCompose.

Fixpoint composeLoop (files : list RatedComposeFileInfo) (collections : list TarFilesCollection)
    (current : TarFilesCollection) (prevUpdateRating : Z) : list TarFilesCollection :=
  match files with
  | [] => collections ++ [current]
  | file :: files =>
      let '(collections, current) :=
        if (tarSizeThreshold <? colExpectedSize current) || ((prevUpdateRating =? 0) && (0 <? updateRating file))
        then (collections ++ [current], newTarFilesCollection) else (collections, current) in
      composeLoop files collections (collectionAddFile current file) (updateRating file)
  end.

Definition composeFiles (filesToCompose : list RatedComposeFileInfo) : list TarFilesCollection :=
  composeLoop (sortFiles filesToCompose) [] newTarFilesCollection 0.

(** The headers and the skipped files are described when they are added. *)
Fixpoint addHeaders (actions : list action) (headers : list Header) (files : StatBundleFiles)
    : list Header * StatBundleFiles :=
  match actions with
  | [] => (headers, files)
  | ActHeader h info :: actions => addHeaders actions (headers ++ [h]) (AddFile h info false files)
  | ActSkip h info :: actions => addHeaders actions headers (AddSkippedFile h info files)
  | ActFile _ :: actions => addHeaders actions headers files
  end.

Definition addedFiles (actions : list action) : list ComposeFileInfo :=
  actions ≫= fun a => match a with ActFile cfi => [cfi] | _ => [] end.

Fixpoint writeHeaderLoop (headers : list Header) (w : tarWriter) : res error tarWriter :=
  match headers with
  | [] => Ok w
  | h :: headers => w ← WriteHeader w h; writeHeaderLoop headers w
  end.

(** [None]: no archive to take. *)
Definition writeHeaders (headers : list Header) (q : TarBallQueue)
    : option (res error (string * list string * TarBallQueue)) :=
  '(tb, q) ← Deque q;
  let tb := SetUp extension tb [] in
  Some (match writer tb with
        | None => Err RuntimePanic
        | Some w =>
            w ← res_map_err (Wrapf "addToBundle: failed to write header") (writeHeaderLoop headers w);
            Ok (tbName tb, hName <$> headers, EnqueueBack q (withWriter tb w))
        end).

Record RatingTarBallComposer := mkRating {
  tTodo : list TarFilesCollection;
  tQueue : TarBallQueue;
  tFiles : StatBundleFiles;
  tSets : TarFileSets;
  (** what each goroutine has left of its collection, with its archive *)
  tRunning : list (list ComposeFileInfo * TarBall);
  (** a goroutine that fails panics *)
  tPanic : option pgError
}.

(** [PackTarballs] up to the loop over the collections, for the actions of
    the walk and the order in which the workers add the files. *)
Definition rating_start (packer : TarBallFilePacker B) (actions : list action) (order : list ComposeFileInfo)
    (deltaMap : PagedFileDeltaMap) (q : TarBallQueue)
    : option (res pgError (TarBallFilePacker B * RatingTarBallComposer)) :=
  let '(headers, files) := addHeaders actions [] (newStatBundleFiles relFileStats) in
  match addFiles order (deltaMap, []) with
  | Err err => Some (Err err)
  | Ok (deltaMap, filesToCompose) =>
      match writeHeaders headers q with
      | None => None
      | Some (Err err) => Some (Err (WalParsing err))
      | Some (Ok (headersTarName, headersNames, q)) =>
          Some (Ok (UpdateDeltaMap packer deltaMap,
                    mkRating (composeFiles filesToCompose) q files {[ headersTarName := headersNames ]} [] None))
      end
  end.

Inductive rating_step (packer : TarBallFilePacker B) : RatingTarBallComposer -> RatingTarBallComposer -> Prop :=
| rating_collection c todo q tb q' files sets running :
    Deque q = Some (tb, q') ->
    let tb := SetUp extension tb [] in
    let cfis := rated <$> colFiles c in
    rating_step packer (mkRating (c :: todo) q files sets running None)
      (mkRating todo q' files
        (match cfis with [] => sets | _ => appendSet (tbName tb) (hName ∘ cHeader <$> cfis) sets end)
        (running ++ [(cfis, tb)]) None)
| rating_pack todo q files files' sets before info infos tb tb' after :
    PackFileIntoTar scanFuel copyFuel open packer info tb files = Some (Ok (tb', files')) ->
    rating_step packer (mkRating todo q files sets (before ++ (info :: infos, tb) :: after) None)
      (mkRating todo q files' sets (before ++ (infos, tb') :: after) None)
| rating_pack_panic todo q files sets before info infos tb after err :
    PackFileIntoTar scanFuel copyFuel open packer info tb files = Some (Err err) ->
    rating_step packer (mkRating todo q files sets (before ++ (info :: infos, tb) :: after) None)
      (mkRating todo q files sets (before ++ after) (Some err))
| rating_finish todo q q' files sets before tb after :
    FinishTarBall q tb = (None, q') ->
    rating_step packer (mkRating todo q files sets (before ++ ([], tb) :: after) None)
      (mkRating todo q' files sets (before ++ after) None)
| rating_finish_panic todo q q' files sets before tb after err :
    FinishTarBall q tb = (Some err, q') ->
    rating_step packer (mkRating todo q files sets (before ++ ([], tb) :: after) None)
      (mkRating todo q' files sets (before ++ after) (Some (WalParsing err))).
End Rating.
End Composers.
