(* ===== verification/QueueSpec.v ===== *)
(** * What the queue of archives keeps

    The archives of a [TarBallQueue] and those that were taken from it, seen
    as one collection ([queue_inv]): their number, their names, the entries
    in them and in the storage, and that the sets of names the composers keep
    cover the entries of each archive. *)

From stdpp Require Import gmap strings pretty.
From S2P Require Import Prelude GoIO PagedFile GoFS GoStrings TarQueue.
Open Scope Z_scope.

(** ** Names *)

Lemma pretty_go_head : forall x s, (0 < x)%N ->
  exists c s', pretty_N_go x s = String c s' /\ c <> Ascii.ascii_of_nat 48.
Proof.
  intros x. induction (N.lt_wf_0 x) as [x _ IH]. intros s Hx.
  rewrite pretty_N_go_step by done.
  destruct (decide (0 < x `div` 10)%N) as [Hd|Hd].
  - apply IH; [|done]. apply N.div_lt; lia.
  - assert (x `div` 10 = 0)%N as E by (apply N.le_0_r; by apply N.nlt_ge).
    rewrite E, pretty_N_go_0. assert (x < 10)%N as Hlt by (by apply N.div_small_iff).
    rewrite N.mod_small by done. eexists _, _. split; [done|].
    assert (forall n, (n < 10)%nat -> (0 < n)%nat -> pretty_N_char (N.of_nat n) <> Ascii.ascii_of_nat 48) as Hc.
    { intros n Hn H0. do 10 (destruct n as [|n]; [try lia; by vm_compute|]). lia. }
    rewrite <- (N2Nat.id x). apply Hc; lia.
Qed.

Lemma pretty_zero_head n s : pretty n = String (Ascii.ascii_of_nat 48) s -> n = 0%N.
Proof.
  intros E. destruct (decide (n = 0%N)) as [|Hn]; [done|]. exfalso.
  unfold pretty, pretty_N in E. rewrite decide_False in E by done.
  destruct (pretty_go_head n "" ltac:(lia)) as (c & s' & E' & Hc). congruence.
Qed.

Lemma zeros_app i j s t : zeros i +s s = zeros j +s t -> (i <= j)%nat -> s = zeros (j - i) +s t.
Proof.
  revert j. induction i as [|i IH]; intros j E Hij; [by rewrite Nat.sub_0_r|].
  destruct j as [|j]; [lia|]. cbn [zeros] in E. injection E as E. apply IH; [exact E|lia].
Qed.

Lemma pretty_nonempty (n : N) : pretty n <> "".
Proof.
  unfold pretty, pretty_N. case_decide as Hn; [done|].
  destruct (pretty_go_head n "" ltac:(lia)) as (c & s' & E' & Hc). congruence.
Qed.

Lemma fmtD_le width n m : fmtD width n = fmtD width m ->
  (width - slen (pretty (N.of_nat n)) <= width - slen (pretty (N.of_nat m)))%nat -> n = m.
Proof.
  unfold fmtD. intros E Hle. apply zeros_app in E; [|exact Hle].
  destruct (_ - _)%nat as [|k] eqn:Ek in E.
  - cbn [zeros String.append] in E. apply (inj pretty) in E. lia.
  - exfalso. cbn [zeros] in E. pose proof (pretty_zero_head _ _ E) as Hz.
    rewrite Hz in E. change (pretty 0%N) with "0" in E. injection E as E.
    destruct (zeros k); [|done]. by apply (pretty_nonempty (N.of_nat m)).
Qed.

Lemma fmtD_inj width n m : fmtD width n = fmtD width m -> n = m.
Proof.
  intros E. destruct (decide (width - slen (pretty (N.of_nat n)) <= width - slen (pretty (N.of_nat m)))%nat) as [Hle|Hgt].
  - by apply (fmtD_le width).
  - symmetry. apply (fmtD_le width); [by symmetry|lia].
Qed.

Lemma app_inv_tail_s a b c : a +s c = b +s c -> a = b.
Proof.
  intros E. assert (slen a = slen b) as Hl by (apply (f_equal slen) in E; rewrite !slen_app in E; lia).
  by apply (app_inv_s _ _ _ _ Hl) in E as [-> _].
Qed.

#[export] Instance partName_inj extension : Inj (=) (=) (partName extension).
Proof.
  intros n m E. unfold partName in E. cbn [String.append] in E. injection E as E.
  apply app_inv_tail_s in E. by apply fmtD_inj in E.
Qed.

(** ** The invariant *)

Notation entry := (Header * list byte)%type.

Definition tb_entries (tb : TarBall) : list entry := default [] (writer tb).
Definition entry_names (es : list entry) : list string := hName ∘ fst <$> es.

Section Queue.
Variable extension : string.
Implicit Types (q : TarBallQueue) (tb : TarBall) (held : list TarBall) (sets : gmap string (list string)).

(** Nothing is written to it yet, or it has a name and whole entries. *)
Definition tb_ok tb : Prop :=
  match writer tb with
  | None => True
  | Some w => tarComplete w = true /\ tbName tb = partName extension (partNumber tb)
  end.

Definition covered sets (name : string) (es : list entry) : Prop :=
  entry_names es ⊆ default [] (sets !! name).

Record queue_inv q held sets (es : list entry) : Prop := {
  qi_count : (length (tarsToFillQueue q) + length held = parallelTarballs q)%nat;
  qi_ok : Forall tb_ok (tarsToFillQueue q ++ held);
  qi_held : Forall (fun tb => is_Some (writer tb)) held;
  qi_names : exists nums, (uploads q).*1 = partName extension <$> nums /\
    NoDup (nums ++ (partNumber <$> tarsToFillQueue q ++ held)) /\
    Forall (fun n => n <= partCount q)%nat (nums ++ (partNumber <$> tarsToFillQueue q ++ held));
  qi_entries : (uploads q ≫= snd) ++ ((tarsToFillQueue q ++ held) ≫= tb_entries) ≡ₚ es;
  qi_uploads : Forall (fun up => covered sets up.1 up.2) (uploads q);
  qi_live : Forall (fun tb => covered sets (tbName tb) (tb_entries tb)) (tarsToFillQueue q ++ held)
}.

Lemma queue_inv_perm q held held' sets es es' : queue_inv q held sets es ->
  held ≡ₚ held' -> es ≡ₚ es' -> queue_inv q held' sets es'.
Proof.
  intros [Hc Ho Hh (nums & Hn & Hd & Hle) He Hu Hl] Hp Hp'.
  constructor; [by rewrite <- Hp|by rewrite <- Hp|by rewrite <- Hp| | |done|by rewrite <- Hp].
  - exists nums. by rewrite <- Hp.
  - by rewrite <- Hp, <- Hp'.
Qed.

Lemma covered_append sets name names name' es : covered sets name' es -> covered (appendSet name names sets) name' es.
Proof.
  unfold covered, appendSet. intros Hs. destruct (decide (name = name')) as [->|Hne].
  - rewrite lookup_insert_eq. cbn. set_solver.
  - by rewrite lookup_insert_ne.
Qed.

Lemma queue_inv_sets q held sets es name names :
  queue_inv q held sets es -> queue_inv q held (appendSet name names sets) es.
Proof.
  intros [Hc Ho Hh Hn He Hu Hl]. constructor; try done.
  - eapply Forall_impl; [exact Hu|]. intros up. apply covered_append.
  - eapply Forall_impl; [exact Hl|]. intros tb. apply covered_append.
Qed.

(** The same archives, the first one in the queue or taken from it. *)
Lemma queue_inv_take q q' held sets es tb :
  (length (tarsToFillQueue q') + length (tb :: held) = parallelTarballs q')%nat ->
  tarsToFillQueue q ++ held ≡ₚ tb :: tarsToFillQueue q' ++ held -> is_Some (writer tb) ->
  uploads q' = uploads q -> partCount q' = partCount q ->
  queue_inv q held sets es -> queue_inv q' (tb :: held) sets es.
Proof.
  intros Hlen Hp Hs Hu Hc [_ Ho Hh (nums & Hn & Hd & Hle) He Hup Hl].
  assert (tarsToFillQueue q' ++ tb :: held ≡ₚ tarsToFillQueue q ++ held) as Hp'.
  { by rewrite Hp, Permutation_middle. }
  constructor; [done|by rewrite Hp'|by constructor| |by rewrite Hu, Hp'|by rewrite Hu|by rewrite Hp'].
  exists nums. by rewrite Hu, Hc, Hp'.
Qed.

(** *** Taking an archive *)

Lemma SetUp_ok tb : tb_ok tb -> tb_ok (SetUp extension tb []) /\ is_Some (writer (SetUp extension tb [])) /\
  partNumber (SetUp extension tb []) = partNumber tb /\ tb_entries (SetUp extension tb []) = tb_entries tb /\
  (writer tb <> None -> SetUp extension tb [] = tb).
Proof.
  unfold tb_ok, SetUp, tb_entries. destruct (writer tb) as [w|] eqn:E; cbn; rewrite ?E.
  - intros [? ?]. split_and!; [done|done|by eexists|done..].
  - intros _. split_and!; [done|done|by eexists|done|done|by intros []].
Qed.

Lemma queue_inv_Deque q held sets es tb q' : queue_inv q held sets es -> Deque q = Some (tb, q') ->
  queue_inv q' (SetUp extension tb [] :: held) sets es.
Proof.
  intros [Hc Ho Hh (nums & Hn & Hd & Hle) He Hu Hl] Hq. unfold Deque in Hq.
  destruct (tarsToFillQueue q) as [|tb0 tars] eqn:Et; [done|]. injection Hq as -> <-.
  cbn [app] in *. apply Forall_cons in Ho as [Htb Ho]. apply Forall_cons in Hl as [Hltb Hl].
  destruct (SetUp_ok tb Htb) as (Hok & Hs & Hnum & Hent & Hsame).
  assert (covered sets (tbName (SetUp extension tb [])) (tb_entries (SetUp extension tb []))) as Hcov.
  { rewrite Hent. unfold tb_entries in *. destruct (writer tb) eqn:Ew; [|apply list_subseteq_nil]. by rewrite Hsame by done. }
  constructor; cbn [withToFill tarsToFillQueue uploads partCount parallelTarballs] in *.
  - cbn [length] in *. lia.
  - rewrite <- Permutation_middle. by constructor.
  - by constructor.
  - exists nums. rewrite <- Permutation_middle. cbn [fmap list_fmap] in *. by rewrite Hnum.
  - rewrite <- Permutation_middle. cbn [mbind list_bind] in *. by rewrite Hent.
  - done.
  - rewrite <- Permutation_middle. by constructor.
Qed.

(** *** Writing to one *)

Definition addEntry tb (e : entry) : TarBall := withWriter tb (default [] (writer tb) ++ [e]).

Lemma tarComplete_app w h bs : hSize h <= Z.of_nat (length bs) -> tarComplete (w ++ [(h, bs)]) = true.
Proof. intros Hl. unfold tarComplete. rewrite last_snoc. by apply Z.leb_le. Qed.

(** The archive [tb'] is [tb] with the entries [new]. *)
Definition extends tb tb' (new : list entry) : Prop :=
  partNumber tb' = partNumber tb /\ tbName tb' = tbName tb /\
  exists w, writer tb = Some w /\ writer tb' = Some (w ++ new) /\ tarComplete (w ++ new) = true.

Lemma queue_inv_write q held sets es tb tb' new :
  queue_inv q (tb :: held) sets es -> extends tb tb' new -> covered sets (tbName tb) new ->
  queue_inv q (tb' :: held) sets (es ++ new).
Proof.
  intros [Hc Ho Hh (nums & Hn & Hd & Hle) He Hu Hl] (Hnum & Hname & w & Hw & Hw' & Hcomp) Hcov.
  rewrite <- Permutation_middle in Ho, Hl, Hd, Hle, He. apply Forall_cons in Ho as [Htb Ho].
  apply Forall_cons in Hl as [Hltb Hl]. apply Forall_cons in Hh as [_ Hh].
  assert (tb_entries tb = w) as Ee by (unfold tb_entries; by rewrite Hw).
  assert (tb_entries tb' = w ++ new) as Ee' by (unfold tb_entries; by rewrite Hw').
  constructor; try done.
  - rewrite <- Permutation_middle. constructor; [|done]. unfold tb_ok in *. rewrite Hw in Htb. rewrite Hw'.
    split; [done|]. rewrite Hname, Hnum. by destruct Htb.
  - constructor; [by rewrite Hw'|done].
  - exists nums. rewrite <- Permutation_middle. cbn [fmap list_fmap] in *. by rewrite Hnum.
  - rewrite <- Permutation_middle. cbn [mbind list_bind] in *. rewrite <- He.
    rewrite Ee, Ee', <- !app_assoc.
    apply Permutation_app_head, Permutation_app_head, Permutation_app_comm.
  - rewrite <- Permutation_middle. constructor; [|done]. rewrite Hname. unfold covered, entry_names in *.
    rewrite Ee in Hltb. rewrite Ee', fmap_app. set_solver.
Qed.

(** *** Giving it back *)

Lemma queue_inv_EnqueueBack q held sets es tb : queue_inv q (tb :: held) sets es ->
  queue_inv (EnqueueBack q tb) held sets es.
Proof.
  intros [Hc Ho Hh (nums & Hn & Hd & Hle) He Hu Hl].
  assert (tarsToFillQueue q ++ tb :: held = tarsToFillQueue (EnqueueBack q tb) ++ held) as E
    by (cbn; by rewrite <- app_assoc).
  constructor; cbn [EnqueueBack withToFill uploads partCount parallelTarballs]; try done; try by rewrite <- E.
  - cbn in *. rewrite length_app. cbn. lia.
  - by apply Forall_cons in Hh as [_ Hh].
  - exists nums. by rewrite <- E.
Qed.

Lemma CloseTar_ok tb w : writer tb = Some w -> tarComplete w = true -> CloseTar tb = Ok (tbName tb, w).
Proof. intros Hw Hc. unfold CloseTar. by rewrite Hw, Hc. Qed.

(** A closed archive is in the storage under its name. *)
Lemma queue_inv_CloseTarball q held sets es tb : queue_inv q (tb :: held) sets es ->
  exists q', CloseTarball q tb = (None, q') /\ tarsToFillQueue q' = tarsToFillQueue q /\
    parallelTarballs q' = parallelTarballs q /\ partCount q' = partCount q /\
    uploadQueue q' = uploadQueue q /\ maxUploadQueue q' = maxUploadQueue q /\ started q' = started q /\
    (exists nums, (uploads q').*1 = partName extension <$> nums /\
      NoDup (nums ++ (partNumber <$> tarsToFillQueue q ++ held)) /\
      Forall (fun n => n <= partCount q)%nat (nums ++ (partNumber <$> tarsToFillQueue q ++ held))) /\
    (uploads q' ≫= snd) ++ ((tarsToFillQueue q ++ held) ≫= tb_entries) ≡ₚ es /\
    Forall (fun up => covered sets up.1 up.2) (uploads q').
Proof.
  intros [Hc Ho Hh (nums & Hn & Hd & Hle) He Hu Hl].
  rewrite <- Permutation_middle in Ho, Hl, Hd, Hle, He. apply Forall_cons in Ho as [Htb Ho].
  apply Forall_cons in Hl as [Hltb Hl]. apply Forall_cons in Hh as [[w Hw] Hh].
  unfold tb_ok in Htb. rewrite Hw in Htb. destruct Htb as [Hcomp Hname].
  unfold CloseTarball. rewrite (CloseTar_ok tb w Hw Hcomp). eexists. split; [done|].
  cbn [tarsToFillQueue parallelTarballs partCount uploads uploadQueue maxUploadQueue started]. split_and!; try done.
  - exists (nums ++ [partNumber tb]). split_and!.
    + rewrite !fmap_app, Hn. cbn. by rewrite Hname.
    + rewrite <- app_assoc. cbn [fmap list_fmap app] in *. done.
    + rewrite <- app_assoc. cbn [fmap list_fmap app] in *. done.
  - rewrite bind_app. cbn [mbind list_bind snd]. rewrite <- He. cbn [mbind list_bind]. unfold tb_entries at 2.
    rewrite Hw, app_nil_r. cbn [default from_option]. by rewrite <- !app_assoc.
  - apply Forall_app. split; [done|]. constructor; [|done]. cbn. unfold tb_entries in Hltb. by rewrite Hw in Hltb.
Qed.

Lemma queue_inv_FinishTarBall q held sets es tb : queue_inv q (tb :: held) sets es ->
  exists q', FinishTarBall q tb = (None, q') /\ queue_inv q' held sets es /\
    parallelTarballs q' = parallelTarballs q /\ started q' = started q.
Proof.
  intros Hq. pose proof Hq as [Hc Ho Hh _ _ _ Hl].
  destruct (queue_inv_CloseTarball q held sets es tb Hq)
    as (q1 & Hclose & Ht & Hpar & Hpc & _ & _ & Hst & (nums & Hn & Hd & Hle) & He & Hu).
  unfold FinishTarBall. rewrite Hclose. unfold awaitUploads, NewTarBall.
  cbn [withUploadQueue tarsToFillQueue parallelTarballs partCount uploads uploadQueue maxUploadQueue started].
  eexists. split; [done|]. split; [|done].
  rewrite <- Permutation_middle in Ho, Hl. apply Forall_cons in Ho as [_ Ho]. apply Forall_cons in Hl as [_ Hl].
  set (fresh := mkTarBall _ _ _ _).
  assert ((tarsToFillQueue q ++ [fresh]) ++ held ≡ₚ fresh :: tarsToFillQueue q ++ held) as Hp.
  { rewrite <- app_assoc. cbn [app]. by rewrite Permutation_middle. }
  constructor; cbn [EnqueueBack withToFill tarsToFillQueue parallelTarballs partCount uploads]; rewrite ?Ht.
  - rewrite length_app, Hpar. cbn in *. lia.
  - rewrite Hp. by constructor.
  - by apply Forall_cons in Hh as [_ Hh].
  - exists nums. rewrite Hp. cbn [fmap list_fmap fresh partNumber]. rewrite <- Permutation_middle, Hpc.
    split; [done|]. split.
    + constructor; [|done]. intros Hin. rewrite Forall_forall in Hle. apply Hle in Hin. lia.
    + constructor; [lia|]. eapply Forall_impl; [exact Hle|]. cbn. lia.
  - by rewrite Hp.
  - done.
  - rewrite Hp. constructor; [|done]. intros x Hx. by apply elem_of_nil in Hx.
Qed.

Lemma queue_inv_CheckSize q held sets es tb : queue_inv q (tb :: held) sets es ->
  exists q', CheckSizeAndEnqueueBack q tb = (None, q') /\ queue_inv q' held sets es /\
    parallelTarballs q' = parallelTarballs q /\ started q' = started q.
Proof.
  intros Hq. unfold CheckSizeAndEnqueueBack. case_match; [by apply queue_inv_FinishTarBall|].
  eexists. split; [done|]. split; [by apply queue_inv_EnqueueBack|done].
Qed.

(** *** The whole queue *)

Lemma finishLoop_ok n : forall q sets es, (n <= length (tarsToFillQueue q))%nat ->
  (exists extra, queue_inv (mkQueue (tarsToFillQueue q) (uploadQueue q) extra (maxUploadQueue q) (started q)
     (TarSizeThreshold q) (AllTarballsSize q) (partCount q) (uploads q)) [] sets es) ->
  exists q', finishLoop n q = (None, q') /\ tarsToFillQueue q' = drop n (tarsToFillQueue q) /\
    exists extra, queue_inv (mkQueue (tarsToFillQueue q') (uploadQueue q') extra (maxUploadQueue q') (started q')
     (TarSizeThreshold q') (AllTarballsSize q') (partCount q') (uploads q')) [] sets es.
Proof.
  induction n as [|n IH]; intros q sets es Hn Hq; [by exists q|]. cbn [finishLoop].
  unfold Deque. destruct (tarsToFillQueue q) as [|tb tars] eqn:Et; [cbn in Hn; lia|].
  destruct Hq as [extra Hq]. set (q0 := mkQueue _ _ _ _ _ _ _ _ _) in Hq.
  destruct (writer tb) as [w|] eqn:Ew.
  - pose proof (queue_inv_Deque q0 [] sets es tb (withToFill q0 tars) Hq eq_refl) as Hd.
    assert (SetUp extension tb [] = tb) as Hsu by (unfold SetUp; by rewrite Ew). rewrite Hsu in Hd.
    pose proof Hd as [Hc1 Ho1 _ _ _ _ Hl1]. rewrite <- Permutation_middle in Ho1, Hl1.
    apply Forall_cons in Ho1 as [_ Ho1]. apply Forall_cons in Hl1 as [_ Hl1].
    destruct (queue_inv_CloseTarball _ [] sets es tb Hd)
      as (q1 & Hclose & Ht1 & _ & Hpc & _ & _ & _ & Hnames & He & Hu).
    assert (exists q2, CloseTarball (withToFill q tars) tb = (None, q2) /\ tarsToFillQueue q2 = tars /\
      uploads q2 = uploads q1 /\ partCount q2 = partCount q0) as (q2 & -> & Ht2 & Hu2 & Hp2).
    { unfold CloseTarball in Hclose |- *. destruct (CloseTar tb); [|done]. injection Hclose as <-. by eexists. }
    destruct (IH q2 sets es) as (q' & Hf & Ht & Hq'); [rewrite Ht2; cbn in Hn; lia| |].
    + exists (length tars). constructor; cbn; rewrite ?Ht2, ?Hu2, ?Hp2, ?app_nil_r in *; try done.

    + exists q'. split; [done|]. split; [by rewrite Ht, Ht2|exact Hq'].
  - destruct (IH (withToFill q tars) sets es) as (q' & Hf & Ht & Hq'); [cbn in *; lia| |].
    + destruct Hq as [Hc Ho Hh (nums & Hnm & Hd & Hle) He Hu Hl]. cbn in Ho, Hl, Hd, Hle, He.
      apply Forall_cons in Ho as [_ Ho]. apply Forall_cons in Hl as [_ Hl].
      exists (length tars). constructor; cbn; [lia|done|done| | |done|done].
      * exists nums. split; [done|]. cbn [fmap list_fmap] in *.
        rewrite <- Permutation_middle in Hd, Hle. apply NoDup_cons in Hd as [_ Hd].
        by apply Forall_cons in Hle as [_ Hle].
      * rewrite <- He. cbn [mbind list_bind].
        assert (tb_entries tb = []) as -> by (unfold tb_entries; by rewrite Ew). done.
    + exists q'. split; [done|]. split; [by rewrite Ht|exact Hq'].
Qed.

(** What is in the storage once the queue is finished: every entry, once, in
    archives with names of their own. *)
Lemma FinishQueue_ok q sets es : queue_inv q [] sets es -> started q = true ->
  exists q', FinishQueue q = (None, q') /\ (uploads q' ≫= snd) ≡ₚ es /\
    Forall (fun up => covered sets up.1 up.2) (uploads q') /\
    exists nums, (uploads q').*1 = partName extension <$> nums /\ NoDup nums.
Proof.
  intros Hq Hs. pose proof (qi_count _ _ _ _ Hq) as Hc. unfold FinishQueue. rewrite Hs. cbn [negb].
  destruct (finishLoop_ok (parallelTarballs q) (withStarted q false) sets es) as (q1 & Hf & Ht & extra & Hi).
  - cbn in *. lia.
  - exists (parallelTarballs q). destruct Hq. by constructor.
  - rewrite Hf. destruct Hi as [_ _ _ (nums & Hn & Hd & _) He Hu _].
    cbn [tarsToFillQueue uploads] in *. rewrite Ht in He, Hd.
    rewrite (drop_ge (tarsToFillQueue (withStarted q false))) in He, Hd by (cbn in *; lia).
    eexists. split; [done|]. cbn [withUploadQueue uploads]. cbn in He, Hd. rewrite app_nil_r in He, Hd.
    split_and!; [done|done|by exists nums].
Qed.


(** *** A new queue *)

Definition emptyTarBall (n : nat) : TarBall := mkTarBall n "" None 0.

Lemma fillQueue_spec n : forall q,
  tarsToFillQueue (fillQueue n q) = tarsToFillQueue q ++ (emptyTarBall <$> seq (S (partCount q)) n) /\
  partCount (fillQueue n q) = (partCount q + n)%nat /\ uploads (fillQueue n q) = uploads q /\
  parallelTarballs (fillQueue n q) = parallelTarballs q.
Proof.
  induction n as [|n IH]; intros q; cbn [fillQueue].
  { cbn. by rewrite app_nil_r, Nat.add_0_r. }
  unfold NewTarBall. set (q1 := EnqueueBack _ _). destruct (IH q1) as (-> & -> & -> & ->).
  cbn [q1 EnqueueBack withToFill tarsToFillQueue partCount uploads parallelTarballs seq fmap list_fmap].
  rewrite <- app_assoc. split_and!; [done|lia|done..].
Qed.

Lemma StartQueue_ok k m threshold sets : exists q, StartQueue k m (NewTarBallQueue threshold) = Ok q /\
  queue_inv q [] sets [] /\ started q = true /\ parallelTarballs q = k.
Proof.
  unfold StartQueue, NewTarBallQueue. cbn [started TarSizeThreshold AllTarballsSize partCount uploads].
  set (q := mkQueue _ _ _ _ _ _ _ _ _). eexists. split; [done|].
  destruct (fillQueue_spec k q) as (Ht & Hp & Hu & Hk).
  split; [|by cbn]. cbn in Ht.
  constructor; cbn [withStarted tarsToFillQueue uploads partCount parallelTarballs]; rewrite ?Ht, ?Hp, ?Hu, ?Hk, ?app_nil_r.
  - cbn [length]. rewrite length_fmap, length_seq. cbn. lia.
  - apply Forall_fmap, Forall_true. done.
  - done.
  - exists []. cbn [fmap list_fmap app]. rewrite <- list_fmap_compose. unfold compose. cbn [emptyTarBall partNumber].
    rewrite list_fmap_id. split; [done|]. split; [apply NoDup_seq|]. apply Forall_seq. cbn. lia.
  - cbn. clear. induction (seq 1 k) as [|x l IHl]; [done|]. exact IHl.
  - done.
  - apply Forall_fmap, Forall_true. intros x. apply list_subseteq_nil.
Qed.
End Queue.
