(* ===== verification/ComposerSpec.v ===== *)
(** * What a composer promises

    The contract of a [TarBallComposer] ([composed]): what the storage and the
    sentinel have, for the files, headers and skipped files of the walk, once
    all goroutines are done. Both composers keep it, in whatever order their
    steps are taken. *)

From stdpp Require Import gmap strings relations.
From S2P Require Import Prelude GoIO GoSort WalRecord WalPage WalFile PagedFile GoFS.
From S2P Require Import GoStrings GoPath Timeline DeltaMap IncPages Unwrap PageVerify TarQueue BundleFiles Packer Composer QueueSpec.
Open Scope Z_scope.

(** ** What becomes of one file *)

(** It is left to the base backup, it is gone, or it is in the archive. *)
Inductive outcome :=
| Skipped_
| Missing
| Packed (h : Header) (bs : list byte) (isIncremented : bool).

Definition outcome_entries (o : outcome) : list entry :=
  match o with Packed h bs _ => [(h, bs)] | _ => [] end.

(** The description of the file [name] after [o]. *)
Definition outcome_file (o : outcome) (info : FileInfo) (d : option BackupFileDescription) : Prop :=
  match o with
  | Skipped_ => exists d', d = Some d' /\ describes false true info d'
  | Missing => d = None
  | Packed _ _ inc => exists d', d = Some d' /\ describes inc false info d'
  end.

Section Spec.
Context {F : Type} `{Reader F, Seeker F} {B : Type} `{Bitmap B}.
Variable scanFuel copyFuel : nat.
Variable open : string -> option F.
Variable extension : string.
Variable packer : TarBallFilePacker B.
Notation pack := (PackFileIntoTar scanFuel copyFuel open packer).

(** The outcome, when packing does not fail. *)
Definition pack_outcome (cfi : ComposeFileInfo) : option outcome :=
  match createFileReadCloser scanFuel open packer cfi with
  | Err (SkippedFileError _) => Some Skipped_
  | Err (FileNotExistError _) => Some Missing
  | Err (PackError _) => None
  | Ok (r, cfi) =>
      match copyReader copyFuel r with
      | (bs, None) => if Z.of_nat (length bs) =? hSize (cHeader cfi)
                      then Some (Packed (cHeader cfi) bs (cIsIncremented cfi)) else None
      | (_, Some _) => None
      end
  end.

(** Packing and verifying end without an error. *)
Definition packs (cfi : ComposeFileInfo) : Prop :=
  match pack_outcome cfi with
  | None => False
  | Some (Packed h bs inc) =>
      verifyPageChecksums (options packer) = true ->
      exists blocks, verifyFile copyFuel (cPath cfi) (cFileInfo cfi) (bs : bytesReader) inc = (Ok blocks, [])
  | Some _ => True
  end.

Lemma createFileReadCloser_same cfi r cfi' : createFileReadCloser scanFuel open packer cfi = Ok (r, cfi') ->
  hName (cHeader cfi') = hName (cHeader cfi) /\ hMode (cHeader cfi') = hMode (cHeader cfi) /\
  cFileInfo cfi' = cFileInfo cfi /\ cPath cfi' = cPath cfi.
Proof.
  unfold createFileReadCloser, startReadingFile.
  destruct (open (cPath cfi)) as [f|]; cbn [mbind res_bind].
  all: destruct (cIsIncremented cfi); [|first [by intros [= <- <-]|done]].
  all: destruct (getDeltaBitmapFor packer (cPath cfi)) as [bm|e]; [|by case_bool_decide].
  all: destruct (incrementFromLsn packer); [|done]; try done.
  destruct (ReadIncrementalFile _ _ _ _ _) as [[rd size]|e]; [by intros [= <- <-]|].
  destruct e; try done; by intros [= <- <-].
Qed.

(** The archive [tb'] is [tb] with what becomes of the file. *)
Definition tb_after (tb tb' : TarBall) (o : outcome) : Prop :=
  match o with
  | Packed h bs _ => extends tb tb' [(h, bs)]
  | _ => tb' = tb
  end.

Lemma PackFileTo_ok tb w h bs : writer tb = Some w -> tarComplete w = true -> Z.of_nat (length bs) = hSize h ->
  exists tb', PackFileTo tb h (bs, None) = (Ok (Z.of_nat (length bs)), tb') /\ extends tb tb' [(h, bs)].
Proof.
  intros Hw Hc Hl. unfold PackFileTo. rewrite Hw. unfold WriteHeader. rewrite Hc.
  unfold WriteEntry. rewrite rev_app_distr. cbn [rev app length].
  rewrite (proj2 (Nat.leb_le _ _)) by lia. rewrite rev_involutive, take_ge by lia.
  eexists. split; [done|]. split_and!; [done|done|]. exists w. split_and!; [done|done|].
  apply tarComplete_app. lia.
Qed.

(** An error of the copy is one of the packer. *)
Lemma packCopy_inv cfi tb w bs rerr tb' : writer tb = Some w -> tarComplete w = true ->
  packCopy cfi tb (bs, rerr) = (None, tb') ->
  rerr = None /\ Z.of_nat (length bs) = hSize (cHeader cfi) /\ extends tb tb' [(cHeader cfi, bs)].
Proof.
  intros Hw Hc. unfold packCopy.
  destruct rerr as [e|].
  { unfold PackFileTo. rewrite Hw. unfold WriteHeader. rewrite Hc.
    destruct (WriteEntry _ _) as [[?|] ?]; done. }
  destruct (PackFileTo tb (cHeader cfi) (bs, None)) as [[n|e] tb1] eqn:Ep; [|done].
  assert (n = Z.of_nat (length bs)) as ->.
  { revert Ep. unfold PackFileTo. rewrite Hw. unfold WriteHeader. rewrite Hc.
    destruct (WriteEntry _ _) as [[?|] ?]; [done|]. by intros [= <- _]. }
  destruct (Z.of_nat (length bs) =? hSize (cHeader cfi)) eqn:El; [|done]. intros [= <-]. bool_to_prop.
  destruct (PackFileTo_ok tb w (cHeader cfi) bs Hw Hc El) as (tb2 & Hp & He). rewrite Hp in Ep.
  injection Ep as <-. done.
Qed.

Section Files.
Context {BF : Type} `{BundleFilesLaws BF}.
Implicit Types files : BF.

Definition file_update (o : outcome) (cfi : ComposeFileInfo) (m m' : BackupFileList) : Prop :=
  match o with
  | Missing => m' = m
  | _ => exists d, outcome_file o (cFileInfo cfi) (Some d) /\ m' = <[hName (cHeader cfi) := d]> m
  end.

Lemma pack_ok cfi tb w files tb' files' : writer tb = Some w -> tarComplete w = true ->
  pack cfi tb files = Some (Ok (tb', files')) ->
  exists o, pack_outcome cfi = Some o /\ tb_after tb tb' o /\
    file_update o cfi (GetUnderlyingMap files) (GetUnderlyingMap files').
Proof.
  intros Hw Hc. unfold PackFileIntoTar, pack_outcome.
  destruct (createFileReadCloser _ _ _ cfi) as [[r cfi']|[path|path|e]] eqn:Ecr; cycle 1.
  { intros [= <- <-]. eexists. split; [done|]. split; [done|].
    destruct (map_AddSkippedFile (cHeader cfi) (cFileInfo cfi) files) as (d & Hd & ->). exists d.
    split; [|done]. by exists d. }
  { intros [= <- <-]. by eexists. }
  { done. }
  destruct (createFileReadCloser_same cfi r cfi' Ecr) as (Hname & _ & Hinfo & _).
  destruct (copyReader copyFuel r) as [bs rerr].
  destruct (packCopy cfi' tb (bs, rerr)) as [err tb1] eqn:Ep.
  assert (err = None -> exists o, (match rerr with
      | None => if Z.of_nat (length bs) =? hSize (cHeader cfi')
                then Some (Packed (cHeader cfi') bs (cIsIncremented cfi')) else None
      | Some _ => None end) = Some o /\ o = Packed (cHeader cfi') bs (cIsIncremented cfi') /\ tb_after tb tb1 o) as Ho.
  { intros ->. destruct (packCopy_inv cfi' tb w bs rerr tb1 Hw Hc Ep) as (-> & Hl & He).
    rewrite (proj2 (Z.eqb_eq _ _)) by done. eexists. split; [done|]. by split. }
  destruct (verifyPageChecksums _).
  - destruct (verifyFile _ _ _ _ _) as [corrupt unread].
    destruct (acceptsEntry tb), unread as [|b unread], err as [err|]; try done.
    all: destruct corrupt as [blocks|e]; [|done]; cbn [mbind res_bind]; intros [= <- <-].
    all: destruct (Ho eq_refl) as (o & Hpo & -> & Hta); exists (Packed (cHeader cfi') bs (cIsIncremented cfi')).
    all: split; [exact Hpo|]; split; [exact Hta|].
    all: destruct (map_AddFileWithCorruptBlocks (cHeader cfi') (cFileInfo cfi') (cIsIncremented cfi') blocks
      (storeAllCorruptBlocks (options packer)) files) as (d & Hd & ->).
    all: exists d; rewrite Hname; split; [|done]; rewrite <- Hinfo; by exists d.
  - destruct err as [err|]; [done|]. intros [= <- <-].
    destruct (Ho eq_refl) as (o & Hpo & -> & Hta). exists (Packed (cHeader cfi') bs (cIsIncremented cfi')).
    split; [exact Hpo|]. split; [exact Hta|].
    destruct (map_AddFile (cHeader cfi') (cFileInfo cfi') (cIsIncremented cfi') files) as (d & Hd & ->).
    exists d. rewrite Hname. split; [|done]. rewrite <- Hinfo. by exists d.
Qed.

(** What is packed without an error has passed the verifier. *)
Lemma pack_ok_packs cfi tb w files tb' files' : writer tb = Some w -> tarComplete w = true ->
  pack cfi tb files = Some (Ok (tb', files')) -> packs cfi.
Proof.
  intros Hw Hc Hp. destruct (pack_ok cfi tb w files tb' files' Hw Hc Hp) as (o & Ho & _).
  unfold packs. rewrite Ho. destruct o as [| |h bs inc]; [done..|]. intros Hv.
  unfold PackFileIntoTar in Hp. unfold pack_outcome in Ho.
  destruct (createFileReadCloser _ _ _ cfi) as [[r cfi']|[path|path|e]] eqn:Ecr; [|done..].
  destruct (createFileReadCloser_same cfi r cfi' Ecr) as (_ & _ & Hinfo & Hpath). rewrite <- Hinfo, <- Hpath.
  destruct (copyReader copyFuel r) as [bs0 [e|]]; [done|]. destruct (_ =? _) in Ho; [|done]. injection Ho as <- -> <-.
  destruct (packCopy cfi' tb (bs, None)) as [err tb1]. rewrite Hv in Hp. unfold acceptsEntry in Hp. rewrite Hw, Hc in Hp.
  cbn [fst] in Hp.
  destruct (verifyFile _ _ _ _ _) as [[blocks|e] unread]; destruct unread, err; try done. by exists blocks.
Qed.

Lemma pack_progress cfi tb w files : writer tb = Some w -> tarComplete w = true -> packs cfi ->
  exists tb' files', pack cfi tb files = Some (Ok (tb', files')).
Proof.
  intros Hw Hc. unfold packs, pack_outcome, PackFileIntoTar.
  destruct (createFileReadCloser _ _ _ cfi) as [[r cfi']|[path|path|e]] eqn:Ecr; [|by eauto..|done].
  destruct (createFileReadCloser_same cfi r cfi' Ecr) as (_ & _ & Hinfo & Hpath). rewrite <- Hinfo, <- Hpath.
  destruct (copyReader copyFuel r) as [bs [e|]]; [done|].
  destruct (Z.of_nat (length bs) =? hSize (cHeader cfi')) eqn:El; [|done]. intros Hv.
  unfold packCopy. bool_to_prop.
  destruct (PackFileTo_ok tb w (cHeader cfi') bs Hw Hc El) as (tb1 & -> & _).
  rewrite (proj2 (Z.eqb_eq _ _)) by done.
  destruct (verifyPageChecksums _); [|by eauto].
  destruct (Hv eq_refl) as [blocks Hvf]. cbn [fst]. rewrite Hvf. destruct (acceptsEntry tb); cbn; eauto.
Qed.
End Files.

Lemma outcome_name cfi h bs inc : pack_outcome cfi = Some (Packed h bs inc) ->
  hName h = hName (cHeader cfi) /\ hMode h = hMode (cHeader cfi).
Proof.
  unfold pack_outcome. destruct (createFileReadCloser _ _ _ cfi) as [[r cfi']|[path|path|e]] eqn:Ecr; [|done..].
  destruct (createFileReadCloser_same cfi r cfi' Ecr) as (Hname & Hmode & _).
  destruct (copyReader copyFuel r) as [bs' [e|]]; [done|]. case_match; [|done]. intros [= <- <- <-]. done.
Qed.

(** ** The contract *)

Definition act_name (a : action) : string :=
  match a with
  | ActFile cfi => hName (cHeader cfi)
  | ActHeader h _ | ActSkip h _ => hName h
  end.

Definition act_entries (a : action) : list entry :=
  match a with
  | ActFile cfi => from_option outcome_entries [] (pack_outcome cfi)
  | ActHeader h _ => [(h, [])]
  | ActSkip _ _ => []
  end.

Definition act_file (a : action) (d : option BackupFileDescription) : Prop :=
  match a with
  | ActFile cfi => packs cfi /\ exists o, pack_outcome cfi = Some o /\ outcome_file o (cFileInfo cfi) d
  | ActHeader _ info => exists d', d = Some d' /\ describes false false info d'
  | ActSkip _ info => exists d', d = Some d' /\ describes false true info d'
  end.

(** The map describes the actions [fin], and nothing else. *)
Definition files_inv (fin : list action) (m : BackupFileList) : Prop :=
  (forall a, a ∈ fin -> act_file a (m !! act_name a)) /\
  (forall name, is_Some (m !! name) -> name ∈ act_name <$> fin).

(** The archives in the storage, the descriptions and the sets of names. *)
Record composed (acts : list action) (ups : list upload) (m : BackupFileList) (sets : TarFileSets) : Prop := {
  composed_entries : (ups ≫= snd) ≡ₚ (acts ≫= act_entries);
  composed_files : files_inv acts m;
  composed_sets : Forall (fun up => covered sets up.1 up.2) ups;
  composed_names : exists nums, ups.*1 = partName extension <$> nums /\ NoDup nums
}.

Lemma files_inv_perm fin fin' m : fin ≡ₚ fin' -> files_inv fin m -> files_inv fin' m.
Proof. intros Hp [Ha Hn]. split; [intros a; rewrite <- Hp; apply Ha|intros name; rewrite <- Hp; apply Hn]. Qed.

Lemma files_inv_cons fin m m' a : NoDup (act_name <$> a :: fin) -> files_inv fin m ->
  act_file a (m' !! act_name a) -> (forall name, name <> act_name a -> m' !! name = m !! name) ->
  files_inv (a :: fin) m'.
Proof.
  cbn [fmap list_fmap]. rewrite NoDup_cons. intros [Hni _] [Ha Hn] Hact Hoth. split.
  - intros b [->|Hb]%elem_of_cons; [done|].
    rewrite Hoth; [by apply Ha|]. intros E. apply Hni. rewrite <- E. by apply list_elem_of_fmap_2.
  - intros name Hs. cbn [fmap list_fmap]. rewrite elem_of_cons. destruct (decide (name = act_name a)) as [->|Hne]; [by left|right].
    rewrite Hoth in Hs by done. by apply Hn.
Qed.

Lemma file_update_other o cfi m m' name : file_update o cfi m m' -> name <> hName (cHeader cfi) -> m' !! name = m !! name.
Proof. intros Hu Hne. destruct o; cbn in Hu; [|by rewrite Hu|]; destruct Hu as (d & _ & ->); by rewrite lookup_insert_ne. Qed.

(** One file more is packed. *)
Lemma files_inv_file fin m m' cfi o : NoDup (act_name <$> ActFile cfi :: fin) -> files_inv fin m ->
  packs cfi -> pack_outcome cfi = Some o -> file_update o cfi m m' -> files_inv (ActFile cfi :: fin) m'.
Proof.
  intros Hnd Hf Hpk Ho Hu. apply (files_inv_cons fin m); [done|done| |].
  - cbn [act_file act_name]. split; [done|]. exists o. split; [done|]. destruct o; cbn in Hu |- *.
    + destruct Hu as (d & (d' & [= <-] & Hd) & ->). exists d. by rewrite lookup_insert_eq.
    + subst m'. destruct (m !! hName (cHeader cfi)) as [d|] eqn:E; [|done].
      destruct Hf as [_ Hn]. exfalso. apply NoDup_cons in Hnd as [Hni _]. apply Hni, (Hn (hName (cHeader cfi))). by eexists.
    + destruct Hu as (d & (d' & [= <-] & Hd) & ->). exists d. by rewrite lookup_insert_eq.
  - intros name Hne. by eapply file_update_other.
Qed.
End Spec.
