(* ===== verification/ComposerRegular.v ===== *)
(** * The regular composer keeps its contract

    Whatever the order in which the caller and the goroutines that pack take
    their turns: no run blocks or goes on for ever, and each that ends leaves
    what the contract says. *)

From stdpp Require Import gmap strings relations.
From S2P Require Import Prelude GoIO GoSort WalRecord WalPage WalFile PagedFile GoFS.
From S2P Require Import GoStrings GoPath Timeline DeltaMap IncPages Unwrap PageVerify TarQueue BundleFiles Packer Composer QueueSpec ComposerSpec.
Open Scope Z_scope.

(** The headers of directories and links have no data behind them. *)
Definition headers_empty (acts : list action) : Prop :=
  forall h info, ActHeader h info ∈ acts -> hSize h = 0.

(** Every file that is given to the composer is packed without an error. *)
Definition all_pack {F} `{Reader F, Seeker F} {B} `{Bitmap B} (scanFuel copyFuel : nat) (open : string -> option F)
    (packer : TarBallFilePacker B) (acts : list action) : Prop :=
  forall cfi, ActFile cfi ∈ acts -> packs scanFuel copyFuel open packer cfi.

(** The error is the one that packing a file gave, which does not pack. *)
Definition refused {F} `{Reader F, Seeker F} {B} `{Bitmap B} (scanFuel copyFuel : nat) (open : string -> option F)
    (packer : TarBallFilePacker B) (acts : list action) (BF : Type) `{BundleFiles BF} (err : pgError) : Prop :=
  exists cfi tb (files : BF), ActFile cfi ∈ acts /\ ~ packs scanFuel copyFuel open packer cfi /\
    PackFileIntoTar scanFuel copyFuel open packer cfi tb files = Some (Err err).

Lemma held_first {A B} (l1 l2 : list (A * B)) a b : (l1 ++ (a, b) :: l2).*2 ≡ₚ b :: (l1 ++ l2).*2.
Proof. rewrite !fmap_app. cbn. by rewrite Permutation_middle. Qed.

(** The action [x] is done, from the front of the list and from among those
    under way. *)
Lemma perm_do {A} (x : A) fin r t : (x :: fin) ++ (r ++ t) ≡ₚ r ++ fin ++ x :: t.
Proof.
  rewrite <- (Permutation_middle fin t x), <- Permutation_middle. cbn. constructor. apply Permutation_app_swap_app.
Qed.
Lemma perm_done {A} (x : A) fin b a t : (x :: fin) ++ ((b ++ a) ++ t) ≡ₚ (b ++ x :: a) ++ fin ++ t.
Proof. rewrite <- Permutation_middle. cbn. constructor. apply Permutation_app_swap_app. Qed.

Lemma held_writer {extension q held sets es tb} : queue_inv extension q (tb :: held) sets es ->
  exists w, writer tb = Some w /\ tarComplete w = true.
Proof.
  intros [_ Ho Hh _ _ _ _]. apply Forall_cons in Hh as [[w Hw] _]. exists w. split; [done|].
  apply Forall_app in Ho as [_ Ho]. apply Forall_cons in Ho as [Ho _]. unfold tb_ok in Ho. rewrite Hw in Ho. apply Ho.
Qed.

(** The queue after a file is packed: its entry is in the archive. *)
Lemma queue_inv_packed {extension q held sets es tb tb'} {o : outcome} {name : string} :
  queue_inv extension q (tb :: held) sets es -> tb_after tb tb' o ->
  entry_names (outcome_entries o) ⊆ [name] -> name ∈ default [] (sets !! tbName tb) ->
  queue_inv extension q (tb' :: held) sets (es ++ outcome_entries o).
Proof.
  intros Hq Ht Hn Hin. destruct o; cbn in Ht; [subst tb'; by rewrite app_nil_r..|].
  eapply queue_inv_write; [done|done|]. unfold covered. intros x Hx. apply Hn in Hx.
  apply list_elem_of_singleton in Hx as ->. done.
Qed.

Section RegularSpec.
Context {F : Type} `{Reader F, Seeker F} {B : Type} `{Bitmap B}.
Variable scanFuel copyFuel : nat.
Variable open : string -> option F.
Variable extension : string.
Variable packer : TarBallFilePacker B.
Variable acts : list action.
Hypothesis acts_nodup : NoDup (act_name <$> acts).
Hypothesis acts_headers : headers_empty acts.
Notation step := (regular_step scanFuel copyFuel open extension packer).
Notation entries := (act_entries scanFuel copyFuel open packer).

(** The actions that are done are in the archives and described; those under
    way have their name in the set of their archive. *)
Definition regular_inv (c : RegularTarBallComposer) : Prop :=
  exists fin, (ActFile ∘ fst <$> rRunning c) ++ fin ++ rTodo c ≡ₚ acts /\
    queue_inv extension (rQueue c) (rRunning c).*2 (rSets c) (fin ≫= entries) /\
    files_inv scanFuel copyFuel open packer fin (regularFiles (rFiles c)) /\
    Forall (fun r => hName (cHeader r.1) ∈ default [] (rSets c !! tbName r.2)) (rRunning c) /\
    started (rQueue c) = true /\ (0 < parallelTarballs (rQueue c))%nat.

Lemma running_sets name names (sets : TarFileSets) (running : list (ComposeFileInfo * TarBall)) :
  Forall (fun r => hName (cHeader r.1) ∈ default [] (sets !! tbName r.2)) running ->
  Forall (fun r => hName (cHeader r.1) ∈ default [] (appendSet name names sets !! tbName r.2)) running.
Proof.
  intros Hf. eapply Forall_impl; [exact Hf|]. intros r Hr. cbn in *. unfold appendSet.
  destruct (decide (name = tbName r.2)) as [->|Hne]; [rewrite lookup_insert_eq|by rewrite lookup_insert_ne].
  cbn. apply elem_of_app. by left.
Qed.

Lemma part_nodup part rest : part ++ rest ≡ₚ acts -> NoDup (act_name <$> part).
Proof. intros Hp. pose proof acts_nodup as Hn. rewrite <- Hp, fmap_app in Hn. by apply NoDup_app in Hn as [? _]. Qed.

(** [Deque] keeps the settings of the queue. *)
Lemma Deque_same q tb q' : Deque q = Some (tb, q') -> parallelTarballs q' = parallelTarballs q /\ started q' = started q.
Proof. unfold Deque. destruct (tarsToFillQueue q); [done|]. by intros [= <- <-]. Qed.

Lemma inv_AddFile cfi todo q files sets running tb q' :
  regular_inv (mkRegular (ActFile cfi :: todo) q files sets running None) -> Deque q = Some (tb, q') ->
  let tb := SetUp extension tb [] in
  regular_inv (mkRegular todo q' files (appendSet (tbName tb) [hName (cHeader cfi)] sets) (running ++ [(cfi, tb)]) None).
Proof.
  intros (fin & Hp & Hq & Hf & Hr & Hst) Hd tb'. cbn in *. exists fin. cbn. split_and!.
  - rewrite <- Hp, fmap_app. cbn. rewrite <- app_assoc. apply Permutation_app_head. cbn.
    by rewrite <- Permutation_middle.
  - apply queue_inv_sets. eapply queue_inv_perm; [by eapply queue_inv_Deque| |done].
    rewrite fmap_app. cbn. by rewrite Permutation_app_comm.
  - done.
  - apply Forall_app. split; [by apply running_sets|]. constructor; [|done]. cbn. unfold appendSet.
    rewrite lookup_insert_eq. cbn. apply elem_of_app. right. by left.
  - destruct (Deque_same _ _ _ Hd) as [_ ->]. apply Hst.
  - destruct (Deque_same _ _ _ Hd) as [-> _]. apply Hst.
Qed.

Lemma inv_AddHeader h info todo q files sets running tb q' w w' :
  regular_inv (mkRegular (ActHeader h info :: todo) q files sets running None) -> Deque q = Some (tb, q') ->
  let tb := SetUp extension tb [] in
  writer tb = Some w -> WriteHeader w h = Ok w' ->
  regular_inv (mkRegular todo (EnqueueBack q' (withWriter tb w')) (AddFile h info false files)
    (appendSet (tbName tb) [hName h] sets) running None).
Proof.
  intros (fin & Hp & Hq & Hf & Hr & Hst) Hd tb' Hw Hwh. cbn in *.
  assert (ActHeader h info ∈ acts) as Hin by (rewrite <- Hp; set_solver).
  assert (hSize h = 0) as Hsz by by eapply acts_headers.
  assert (w' = w ++ [(h, [])]) as -> by (unfold WriteHeader in Hwh; destruct (tarComplete w); by simplify_eq).
  exists (ActHeader h info :: fin). cbn. split_and!.
  - rewrite <- Hp. apply Permutation_app_head. by rewrite Permutation_middle.
  - apply queue_inv_EnqueueBack.
    pose proof (queue_inv_sets _ _ _ _ _ (tbName tb') [hName h] (queue_inv_Deque _ _ _ _ _ _ _ Hq Hd)) as Hd'.
    eapply queue_inv_perm; [eapply (queue_inv_write _ _ _ _ _ tb' (withWriter tb' (w ++ [(h, [])])) [(h, [])]); [exact Hd'| |]|done|].
    + split_and!; [done|done|]. exists w. split_and!; [done|done|]. apply tarComplete_app. cbn. lia.
    + unfold covered, appendSet. rewrite lookup_insert_eq. cbn. set_solver.
    + cbn. by rewrite Permutation_app_comm.
  - apply (files_inv_cons _ _ _ _ _ (regularFiles files)); [|done| |].
    + apply (part_nodup _ ((ActFile ∘ fst <$> running) ++ todo)). rewrite <- Hp. apply perm_do.
    + cbn. eexists. by rewrite lookup_insert_eq.
    + intros name Hne. cbn. by rewrite lookup_insert_ne.
  - by apply running_sets.
  - destruct (Deque_same _ _ _ Hd) as [_ ->]. apply Hst.
  - destruct (Deque_same _ _ _ Hd) as [-> _]. apply Hst.
Qed.

Lemma inv_SkipFile h info todo q files sets running :
  regular_inv (mkRegular (ActSkip h info :: todo) q files sets running None) ->
  regular_inv (mkRegular todo q (AddSkippedFile h info files) sets running None).
Proof.
  intros (fin & Hp & Hq & Hf & Hr & Hst). cbn in *. exists (ActSkip h info :: fin). cbn. split_and!; try done.
  - rewrite <- Hp. apply Permutation_app_head. by rewrite Permutation_middle.
  - apply (files_inv_cons _ _ _ _ _ (regularFiles files)); [|done| |].
    + apply (part_nodup _ ((ActFile ∘ fst <$> running) ++ todo)). rewrite <- Hp. apply perm_do.
    + cbn. eexists. by rewrite lookup_insert_eq.
    + intros name Hne. cbn. by rewrite lookup_insert_ne.
  - apply Hst.
  - apply Hst.
Qed.

Lemma outcome_covered cfi o : pack_outcome scanFuel copyFuel open packer cfi = Some o ->
  entry_names (outcome_entries o) ⊆ [hName (cHeader cfi)].
Proof.
  intros Ho. destruct o; [apply list_subseteq_nil..|]. cbn. destruct (outcome_name _ _ _ _ _ _ _ _ Ho) as [-> _]. done.
Qed.

Lemma inv_pack todo q q' files files' sets before cfi tb tb' after :
  regular_inv (mkRegular todo q files sets (before ++ (cfi, tb) :: after) None) ->
  PackFileIntoTar scanFuel copyFuel open packer cfi tb files = Some (Ok (tb', files')) ->
  CheckSizeAndEnqueueBack q tb' = (None, q') ->
  regular_inv (mkRegular todo q' files' sets (before ++ after) None).
Proof.
  intros (fin & Hp & Hq & Hf & Hr & Hst) Hpk Hcs. cbn in *.
  assert (queue_inv extension q (tb :: (before ++ after).*2) sets (fin ≫= entries)) as Hq1.
  { eapply queue_inv_perm; [exact Hq|apply held_first|done]. }
  destruct (held_writer Hq1) as (w & Hw & Hc).
  destruct (pack_ok _ _ _ _ _ _ _ _ _ _ Hw Hc Hpk) as (o & Ho & Hta & Hfu).
  pose proof (pack_ok_packs _ _ _ _ _ _ _ _ _ _ Hw Hc Hpk) as Hpacks.
  apply Forall_app in Hr as [Hr1 Hr2]. apply Forall_cons in Hr2 as [Hr Hr2].
  pose proof (queue_inv_packed Hq1 Hta (outcome_covered _ _ Ho) Hr) as Hq2.
  destruct (queue_inv_CheckSize _ _ _ _ _ _ Hq2) as (q2 & Hcs2 & Hq3 & Hpar & Hstd). rewrite Hcs in Hcs2.
  injection Hcs2 as <-. exists (ActFile cfi :: fin). cbn. split_and!.
  - rewrite <- Hp, !fmap_app, <- !app_assoc. apply Permutation_app_head. cbn.
    by rewrite <- Permutation_middle.
  - eapply queue_inv_perm; [exact Hq3|done|]. unfold act_entries. cbn. rewrite Ho. apply Permutation_app_comm.
  - eapply files_inv_file; [|done|done|done|done].
    apply (part_nodup _ ((ActFile ∘ fst <$> before ++ after) ++ todo)). rewrite <- Hp, !fmap_app. cbn.
    apply perm_done.
  - apply Forall_app. by split.
  - rewrite Hstd. apply Hst.
  - rewrite Hpar. apply Hst.
Qed.

(** Without an error so far. *)
Definition regular_ok (c : RegularTarBallComposer) : Prop := rFailed c = None /\ regular_inv c.

Definition regular_state (c : RegularTarBallComposer) : Prop :=
  match rFailed c with None => regular_inv c | Some err => refused scanFuel copyFuel open packer acts RegularBundleFiles err end.

Lemma running_act c cfi tb before after : regular_inv c -> rRunning c = before ++ (cfi, tb) :: after -> ActFile cfi ∈ acts.
Proof. intros (fin & Hp & _) Hr. rewrite <- Hp, Hr, fmap_app. cbn. set_solver. Qed.

(** The archive a goroutine has is ready for an entry. *)
Lemma running_writer c cfi tb before after : regular_inv c -> rRunning c = before ++ (cfi, tb) :: after ->
  exists w, writer tb = Some w /\ tarComplete w = true.
Proof.
  intros (fin & _ & Hq & _) Hr. eapply (held_writer (held := (before ++ after).*2)).
  rewrite Hr in Hq. eapply queue_inv_perm; [exact Hq|apply held_first|done].
Qed.

Lemma running_finish c cfi tb before after tb' files' : regular_inv c -> rRunning c = before ++ (cfi, tb) :: after ->
  PackFileIntoTar scanFuel copyFuel open packer cfi tb (rFiles c) = Some (Ok (tb', files')) ->
  exists q', CheckSizeAndEnqueueBack (rQueue c) tb' = (None, q').
Proof.
  intros Hi Hr Hp. destruct (running_writer _ _ _ _ _ Hi Hr) as (w & Hw & Hc).
  destruct Hi as (fin & _ & Hq & _ & Hn & _).
  assert (queue_inv extension (rQueue c) (tb :: (before ++ after).*2) (rSets c) (fin ≫= entries)) as Hq1.
  { rewrite Hr in Hq. eapply queue_inv_perm; [exact Hq|apply held_first|done]. }
  destruct (pack_ok _ _ _ _ _ _ _ _ _ _ Hw Hc Hp) as (o & Ho & Hta & _).
  rewrite Hr in Hn. apply Forall_app in Hn as [_ Hn]. apply Forall_cons in Hn as [Hn _].
  pose proof (queue_inv_packed Hq1 Hta (outcome_covered _ _ Ho) Hn) as Hq2.
  destruct (queue_inv_CheckSize _ _ _ _ _ _ Hq2) as (q2 & Hcs & _). by exists q2.
Qed.

(** What is not packed is a file that does not pack. *)
Lemma running_refused c cfi tb before after : regular_inv c -> rRunning c = before ++ (cfi, tb) :: after ->
  (forall tb' files', PackFileIntoTar scanFuel copyFuel open packer cfi tb (rFiles c) <> Some (Ok (tb', files'))) ->
  ActFile cfi ∈ acts /\ ~ packs scanFuel copyFuel open packer cfi.
Proof.
  intros Hi Hr Hno. split; [by eapply running_act|]. intros Hpk.
  destruct (running_writer _ _ _ _ _ Hi Hr) as (w & Hw & Hc).
  destruct (pack_progress _ _ _ _ cfi tb w (rFiles c) Hw Hc Hpk) as (tb' & files' & Hp). by eapply Hno.
Qed.

Lemma taken_complete c tb q' w : regular_inv c -> Deque (rQueue c) = Some (tb, q') ->
  writer (SetUp extension tb []) = Some w -> tarComplete w = true.
Proof.
  intros (fin & _ & Hq & _) Hd Hw. destruct (held_writer (queue_inv_Deque _ _ _ _ _ _ _ Hq Hd)) as (w' & Hw' & Hc).
  congruence.
Qed.

Lemma regular_step_state c c' : regular_state c -> step c c' -> regular_state c'.
Proof.
  intros Hi Hs. unfold regular_state in *. destruct (rFailed c) as [err|] eqn:Ef.
  { destruct Hs; cbn in Ef; simplify_eq; exact Hi. }
  inversion Hs; subst; cbn in Ef; simplify_eq; cbn [rFailed fail].
  - by eapply inv_AddFile.
  - by eapply inv_AddHeader.
  - exfalso. match goal with Hd : Deque _ = _, Hw : writer _ = _, Hh : WriteHeader _ _ = _ |- _ =>
      pose proof (taken_complete _ _ _ _ Hi Hd Hw) as Hc; unfold WriteHeader in Hh; by rewrite Hc in Hh end.
  - by apply inv_SkipFile.
  - by eapply inv_pack.
  - destruct (running_refused _ info tb before after Hi eq_refl) as [Ha Hno]; [cbn; congruence|].
    by exists info, tb, files.
  - exfalso. destruct (running_finish _ info tb before after tb' files' Hi eq_refl) as (? & Hcs); cbn in *; congruence.
Qed.

(** Each step does something that was left to do. *)
Definition left_to_do (c : RegularTarBallComposer) : nat := (2 * length (rTodo c) + length (rRunning c))%nat.

Lemma step_left c c' : step c c' -> (left_to_do c' < left_to_do c)%nat.
Proof. intros Hs. inversion Hs; subst; unfold left_to_do; cbn; rewrite ?length_app; cbn; lia. Qed.

Lemma step_sn c : sn step c.
Proof.
  induction c as [c IH] using (well_founded_induction (well_founded_ltof _ left_to_do)).
  constructor. intros c' Hs. apply IH. by apply step_left.
Qed.

(** A goroutine that never comes back from packing its file. *)
Definition blocked (c : RegularTarBallComposer) : Prop :=
  exists cfi tb, (cfi, tb) ∈ rRunning c /\ PackFileIntoTar scanFuel copyFuel open packer cfi tb (rFiles c) = None.

(** As long as something is left, there is a step. *)
Lemma regular_next c : regular_state c -> (rTodo c = [] /\ rRunning c = []) \/ blocked c \/ red step c.
Proof.
  intros Hi. destruct c as [todo q files sets running failed]. cbn in *. unfold blocked. cbn.
  destruct running as [|[cfi tb] running].
  - destruct todo as [|a todo]; [by left|right; right]. unfold regular_state in Hi. cbn in Hi.
    destruct failed as [err|].
    { destruct a as [cfi|h info|h info]; eexists;
        [apply regular_AddFile_cancelled|apply regular_AddHeader_cancelled|apply regular_SkipFile]. }
    destruct Hi as (fin & Hp & Hq & _ & _ & _ & Hpar). cbn in *. pose proof (qi_count _ _ _ _ _ Hq) as Hc.
    destruct (tarsToFillQueue q) as [|tb tars] eqn:Et; [cbn in Hc; lia|].
    assert (Deque q = Some (tb, withToFill q tars)) as Hd by (unfold Deque; by rewrite Et).
    destruct a as [cfi|h info|h info].
    + eexists. by eapply regular_AddFile.
    + destruct (held_writer (queue_inv_Deque _ _ _ _ _ _ _ Hq Hd)) as (w & Hw & Hcw).
      eexists. eapply regular_AddHeader; [exact Hd|exact Hw|]. unfold WriteHeader. by rewrite Hcw.
    + eexists. apply regular_SkipFile.
  - right. destruct (PackFileIntoTar scanFuel copyFuel open packer cfi tb files) as [[[tb' files']|err]|] eqn:Hp.
    + right. destruct (CheckSizeAndEnqueueBack q tb') as [[err|] q'] eqn:Hcs.
      * eexists. by eapply (regular_finish_error _ _ _ _ _ _ _ _ _ _ _ []).
      * eexists. by eapply (regular_pack _ _ _ _ _ _ _ _ _ _ _ []).
    + right. eexists. by eapply (regular_pack_error _ _ _ _ _ _ _ _ _ []).
    + left. exists cfi, tb. split; [by left|done].
Qed.

Lemma blocked_refused c : regular_state c -> blocked c ->
  exists cfi, ActFile cfi ∈ acts /\ ~ packs scanFuel copyFuel open packer cfi.
Proof.
  unfold regular_state. destruct (rFailed c); [by intros (cfi & _ & _ & Ha & Hno & _); exists cfi|].
  intros Hi (cfi & tb & (before & after & Hr)%list_elem_of_split & Hp). exists cfi.
  eapply running_refused; [exact Hi|exact Hr|]. by rewrite Hp.
Qed.

Lemma regular_end_nf c : rTodo c = [] -> rRunning c = [] -> nf step c.
Proof.
  intros Ht Hr [c' Hs]. destruct Hs; cbn in Ht, Hr; try done; by apply app_eq_nil in Hr as [_ ?].
Qed.

(** How a run may end. *)
Lemma regular_end c : regular_state c -> nf step c ->
  blocked c \/ rTodo c = [] /\ rRunning c = [] /\
    (rFailed c = None \/ exists err, rFailed c = Some err /\ refused scanFuel copyFuel open packer acts RegularBundleFiles err).
Proof.
  intros Hs Hnf. destruct (regular_next c Hs) as [[Ht Hr]|[Hb|Hred]]; [right|by left|done].
  split; [done|]. split; [done|]. unfold regular_state in Hs. destruct (rFailed c); [right; eauto|by left].
Qed.

Section AllPack.
Hypothesis acts_pack : all_pack scanFuel copyFuel open packer acts.

(** When all files pack, no step of a run fails. *)
Lemma state_ok c : regular_state c -> regular_ok c.
Proof.
  unfold regular_state, regular_ok. destruct (rFailed c); [|done].
  intros (cfi & _ & _ & Ha & Hno & _). by destruct Hno; apply acts_pack.
Qed.

Lemma regular_step_ok c c' : regular_ok c -> step c c' -> regular_ok c'.
Proof.
  intros [Hf Hi] Hs. apply state_ok. eapply regular_step_state; [|exact Hs]. unfold regular_state. by rewrite Hf.
Qed.

(** Some run gets to the end. *)
Lemma regular_runs c : regular_ok c -> exists c', rtc step c c' /\ rTodo c' = [] /\ rRunning c' = [].
Proof.
  induction (step_sn c) as [c _ IH]. intros Hc.
  assert (regular_state c) as Hs by (destruct Hc as [Hf Hi]; unfold regular_state; by rewrite Hf).
  destruct (regular_next c Hs) as [Hend|[Hb|[c1 H1']]]; [by exists c| |].
  { destruct (blocked_refused c Hs Hb) as (cfi & Ha & Hno). by destruct Hno; apply acts_pack. }
  destruct (IH c1 H1' (regular_step_ok c c1 Hc H1')) as (c' & Hr & Hend). exists c'. split; [by eapply rtc_l|done].
Qed.
End AllPack.

Lemma regular_start k m threshold q : (0 < k)%nat -> StartQueue k m (NewTarBallQueue threshold) = Ok q ->
  regular_ok (NewRegularTarBallComposer q acts).
Proof.
  intros Hk Hst. destruct (StartQueue_ok extension k m threshold ∅) as (q' & Hs & Hq & Hstd & Hpar).
  rewrite Hst in Hs. injection Hs as <-. split; [done|]. exists []. cbn. split_and!; try done.
  - split; [|intros name [d Hd]; by rewrite lookup_empty in Hd]. intros a Ha. by apply elem_of_nil in Ha.
  - lia.
Qed.

Lemma regular_final c : regular_ok c -> rTodo c = [] -> rRunning c = [] ->
  exists q', regular_PackTarballs c = Some (Ok (rSets c)) /\ FinishQueue (rQueue c) = (None, q') /\
    composed scanFuel copyFuel open extension packer acts (uploads q') (GetUnderlyingMap (rFiles c)) (rSets c).
Proof.
  intros [Hf (fin & Hp & Hq & Hfi & _ & Hstd & _)] Ht Hr. rewrite Ht, Hr in *. cbn in Hp, Hq. rewrite app_nil_r in Hp.
  destruct (FinishQueue_ok _ _ _ _ Hq Hstd) as (q' & Hfin & He & Hc & Hn). exists q'. split_and!.
  - unfold regular_PackTarballs. by rewrite Ht, Hr, Hf.
  - done.
  - constructor; [by rewrite He, Hp|by eapply files_inv_perm|done|done].
Qed.

(** What is composed has packed every file. *)
Lemma composed_pack ups m sets : composed scanFuel copyFuel open extension packer acts ups m sets ->
  all_pack scanFuel copyFuel open packer acts.
Proof. intros [_ [Ha _] _ _] cfi Hin. by destruct (Ha _ Hin). Qed.

(** *** From the start to the end *)

Section Ends.
Variable k m : nat.
Variable threshold : Z.
Variable q : TarBallQueue.
Variable c : RegularTarBallComposer.
Hypothesis Hk : (0 < k)%nat.
Hypothesis Hstart : StartQueue k m (NewTarBallQueue threshold) = Ok q.
Hypothesis Hreach : rtc step (NewRegularTarBallComposer q acts) c.

Lemma regular_reaches : regular_state c.
Proof.
  eapply rtc_invariant; [by intros; eapply regular_step_state|exact Hreach|].
  by destruct (regular_start k m threshold q Hk Hstart).
Qed.

Hypothesis Hend : nf step c.

Lemma regular_success : all_pack scanFuel copyFuel open packer acts ->
  regular_PackTarballs c = Some (Ok (rSets c)) /\ exists q', FinishQueue (rQueue c) = (None, q') /\
    composed scanFuel copyFuel open extension packer acts (uploads q') (GetUnderlyingMap (rFiles c)) (rSets c).
Proof.
  intros Hp. pose proof regular_reaches as Hs. destruct (state_ok Hp c Hs) as [Hf Hi].
  destruct (regular_end c Hs Hend) as [Hb|(Ht & Hr & _)].
  - destruct (blocked_refused c Hs Hb) as (cfi & Ha & Hno). by destruct Hno; apply Hp.
  - destruct (regular_final c) as (q' & HP & HF & Hcomp); [by split|done|done|]. split; [done|]. by exists q'.
Qed.

(** A run succeeds when all files pack, and only then. *)
Lemma regular_succeeds : regular_PackTarballs c = Some (Ok (rSets c)) <-> all_pack scanFuel copyFuel open packer acts.
Proof.
  split; [|by intros Hp; apply regular_success]. unfold regular_PackTarballs.
  destruct (rTodo c) eqn:Ht; [|done]. destruct (rRunning c) eqn:Hr; [|done]. destruct (rFailed c) eqn:Hf; [done|]. intros _.
  pose proof regular_reaches as Hs. unfold regular_state in Hs. rewrite Hf in Hs.
  destruct (regular_final c) as (q' & _ & _ & Hcomp); [by split|done|done|]. by eapply composed_pack.
Qed.
End Ends.
End RegularSpec.
