(* ===== verification/ComposerRating.v ===== *)
(** * The rating composer keeps its contract

    The files sorted by rating are cut into collections ([composeFiles_spec]),
    each collection is packed into an archive of its own by a goroutine, and
    the runs of these goroutines and of the loop that starts them keep the
    contract of a composer. *)

From stdpp Require Import gmap strings relations.
From S2P Require Import Prelude GoIO GoSort WalRecord WalPage WalFile PagedFile GoFS.
From S2P Require Import GoStrings GoPath Timeline DeltaMap IncPages Unwrap PageVerify TarQueue BundleFiles Packer Composer QueueSpec ComposerSpec ComposerRegular.
Open Scope Z_scope.

(** ** Collections *)

Section Collections.
Variable threshold : Z.
Implicit Types files l : list RatedComposeFileInfo.

(** Sizes in 64 bits. *)
Definition total_size files : Z := foldr Z.add 0 (expectedSize <$> files).

(** Rating zero, all of them or none. *)
Definition same_kind files : Prop :=
  Forall (fun f => updateRating f = 0) files \/ Forall (fun f => 0 < updateRating f) files.

(** A file is added as long as the ones before it are within the threshold. *)
Definition within files : Prop := forall before f, files = before ++ [f] -> total_size before <= threshold.

Record collection_ok (c : TarFilesCollection) : Prop := {
  collection_size : colExpectedSize c = total_size (colFiles c);
  collection_kind : same_kind (colFiles c);
  collection_within : within (colFiles c)
}.

Lemma total_size_app l1 l2 : total_size (l1 ++ l2) = total_size l1 + total_size l2.
Proof. unfold total_size. induction l1 as [|f l1 IH]; cbn in *; lia. Qed.

Lemma collection_empty : 0 <= threshold -> collection_ok newTarFilesCollection.
Proof.
  intros Ht. constructor; [done|by left|]. intros before f E. by destruct before.
Qed.

Definition kind_upto (prev : Z) files : Prop :=
  (prev = 0 -> Forall (fun f => updateRating f = 0) files) /\ (0 < prev -> Forall (fun f => 0 < updateRating f) files).

Lemma collection_add c f prev : collection_ok c -> kind_upto prev (colFiles c) -> 0 <= prev <= updateRating f ->
  0 <= total_size (colFiles c) <= threshold -> 0 <= expectedSize f ->
  total_size (colFiles c) + expectedSize f < 2 ^ 64 ->
  (prev = 0 -> 0 < updateRating f -> colFiles c = []) ->
  collection_ok (collectionAddFile c f) /\ kind_upto (updateRating f) (colFiles (collectionAddFile c f)) /\
  total_size (colFiles (collectionAddFile c f)) = total_size (colFiles c) + expectedSize f.
Proof.
  intros [Hsize Hk Hw] [Hz Hp] Hprev Ht Hs Hlt Hcut.
  change (colFiles (collectionAddFile c f)) with (colFiles c ++ [f]).
  assert (total_size (colFiles c ++ [f]) = total_size (colFiles c) + expectedSize f) as Et.
  { rewrite total_size_app. unfold total_size at 2. cbn. lia. }
  assert (kind_upto (updateRating f) (colFiles c ++ [f])) as Hkind.
  { split; intros Hf; apply Forall_app; (split; [|by constructor]).
    - apply Hz. lia.
    - destruct (decide (prev = 0)) as [E|E]; [by rewrite Hcut|]. apply Hp. lia. }
  split; [|done]. constructor; cbn [collectionAddFile colExpectedSize].
  - change (colFiles (collectionAddFile c f)) with (colFiles c ++ [f]). rewrite Et, Hsize, wrap_id; [done|].
    unfold in_width. lia.
  - change (colFiles (collectionAddFile c f)) with (colFiles c ++ [f]). destruct Hkind as [H0 H1].
    destruct (decide (updateRating f = 0)) as [E|E]; [left|right]; [by apply H0|apply H1; lia].
  - intros before g E. change (colFiles (collectionAddFile c f)) with (colFiles c ++ [f]) in E.
    apply app_inj_tail in E as [<- _]. lia.
Qed.

Lemma total_size_nonneg files : Forall (fun f => 0 <= expectedSize f) files -> 0 <= total_size files.
Proof. unfold total_size. induction 1 as [|f l Hf Hl IH]; cbn in *; lia. Qed.

Lemma composeLoop_ok files : forall collections current prev,
  Forall (fun f => 0 <= expectedSize f) files ->
  StronglySorted (fun a b => updateRating a <= updateRating b) files ->
  Forall (fun f => prev <= updateRating f) files -> 0 <= prev -> 0 <= threshold ->
  0 <= total_size (colFiles current) -> total_size (colFiles current) + total_size files < 2 ^ 64 ->
  Forall collection_ok collections -> collection_ok current -> kind_upto prev (colFiles current) ->
  let cs := composeLoop threshold files collections current prev in
  Forall collection_ok cs /\ (cs ≫= colFiles) = (collections ≫= colFiles) ++ colFiles current ++ files.
Proof.
  induction files as [|f files IH]; intros cols cur prev Hf Hs Hge Hp Ht Hc0 Hsum Hcs Hcur Hk; cbn [composeLoop].
  { split; [apply Forall_app; split; [done|by constructor]|]. rewrite bind_app. cbn. by rewrite !app_nil_r. }
  apply Forall_cons in Hf as [Hsz Hf]. apply StronglySorted_inv in Hs as [Hs Hlt]. apply Forall_cons in Hge as [Hpf _].
  pose proof (total_size_nonneg files Hf) as Hf0.
  change (f :: files) with ([f] ++ files) in Hsum. rewrite total_size_app in Hsum.
  assert (total_size [f] = expectedSize f) as Ef by (unfold total_size; cbn; lia). rewrite Ef in Hsum.
  destruct ((threshold <? colExpectedSize cur) || ((prev =? 0) && (0 <? updateRating f))) eqn:Ecut.
  - destruct (collection_add newTarFilesCollection f prev) as (Ha & Hb & Hc); try done; try lia.
    { by apply collection_empty. }
    { change (total_size (colFiles newTarFilesCollection)) with 0. lia. }
    assert (total_size (colFiles newTarFilesCollection) = 0) as E0 by done.
    destruct (IH (cols ++ [cur]) (collectionAddFile newTarFilesCollection f) (updateRating f)) as [Hd He]; try done; try lia.
    { apply Forall_app. split; [done|by constructor]. }
    split; [done|]. rewrite He, bind_app. cbn. by rewrite app_nil_r, <- app_assoc.
  - bool_to_prop. pose proof (collection_size _ Hcur) as Hsize.
    destruct (collection_add cur f prev) as (Ha & Hb & Hc); try done; try lia.
    destruct (IH cols (collectionAddFile cur f) (updateRating f)) as [Hd He]; try done; try lia.
    split; [done|]. rewrite He. cbn. by rewrite <- app_assoc.
Qed.
End Collections.

Lemma total_size_perm l l' : l ≡ₚ l' -> total_size l = total_size l'.
Proof. unfold total_size. induction 1; cbn in *; lia. Qed.

(** Every file is in one collection. *)
Lemma composeLoop_concat threshold files : forall collections current prev,
  (composeLoop threshold files collections current prev ≫= colFiles) = (collections ≫= colFiles) ++ colFiles current ++ files.
Proof.
  induction files as [|f files IH]; intros cols cur prev; cbn [composeLoop].
  { rewrite bind_app. cbn. by rewrite !app_nil_r. }
  destruct (_ || _).
  - rewrite IH, bind_app. cbn. by rewrite app_nil_r, <- app_assoc.
  - rewrite IH. cbn. by rewrite <- app_assoc.
Qed.

Lemma composeFiles_perm `{SortSlice} threshold files : (composeFiles threshold files ≫= colFiles) ≡ₚ files.
Proof. unfold composeFiles. rewrite composeLoop_concat. cbn. apply Slice_perm. Qed.

Lemma composeFiles_ok `{SortSlice} threshold files : 0 <= threshold ->
  Forall (fun f => 0 <= expectedSize f /\ 0 <= updateRating f) files -> total_size files < 2 ^ 64 ->
  Forall (collection_ok threshold) (composeFiles threshold files) /\
  (composeFiles threshold files ≫= colFiles) = sortFiles files.
Proof.
  intros Ht Hf Hlt. unfold composeFiles.
  assert (sortFiles files ≡ₚ files) as Hp by apply Slice_perm.
  apply composeLoop_ok; try done.
  - rewrite Hp. eapply Forall_impl; [exact Hf|]. by intros f [].
  - eapply StronglySorted_weaken; [|apply Slice_sorted, StrictWeak_key]. unfold not_after. intros a b Hab. cbn in Hab.
    by apply Z.ltb_ge.
  - rewrite Hp. eapply Forall_impl; [exact Hf|]. by intros f [].
  - by rewrite (total_size_perm _ _ Hp).
  - by apply collection_empty.
Qed.

(** ** The run *)

Lemma appendSet_mono name names (sets : TarFileSets) name' :
  default [] (sets !! name') ⊆ default [] (appendSet name names sets !! name').
Proof.
  unfold appendSet. destruct (decide (name = name')) as [->|Hne].
  - rewrite lookup_insert_eq. cbn. set_solver.
  - by rewrite lookup_insert_ne.
Qed.

Section RatingSpec.
Context {F : Type} `{Reader F, Seeker F} {B : Type} `{Bitmap B}.
Variable scanFuel copyFuel : nat.
Variable open : string -> option F.
Variable extension : string.
Variable packer : TarBallFilePacker B.
Variable acts : list action.
Hypothesis acts_nodup : NoDup (act_name <$> acts).
Notation step := (rating_step scanFuel copyFuel open extension packer).
Notation entries := (act_entries scanFuel copyFuel open packer).

Definition collection_files (c : TarFilesCollection) : list ComposeFileInfo := rated <$> colFiles c.

Lemma collection_files_bind cs : rated <$> (cs ≫= colFiles) = cs ≫= collection_files.
Proof. induction cs as [|c cs IH]; [done|]. cbn in *. by rewrite fmap_app, IH. Qed.

(** The names of what is left of a collection are in the set of its archive. *)
Definition announced (sets : TarFileSets) (r : list ComposeFileInfo * TarBall) : Prop :=
  (hName ∘ cHeader <$> r.1) ⊆ default [] (sets !! tbName r.2).

Definition rating_inv (c : RatingTarBallComposer) : Prop :=
  exists fin, (ActFile <$> (tRunning c ≫= fst)) ++ fin ++ (ActFile <$> (tTodo c ≫= collection_files)) ≡ₚ acts /\
    queue_inv extension (tQueue c) (tRunning c).*2 (tSets c) (fin ≫= entries) /\
    files_inv scanFuel copyFuel open packer fin (statFiles (tFiles c)) /\
    Forall (announced (tSets c)) (tRunning c) /\
    started (tQueue c) = true /\ (0 < parallelTarballs (tQueue c))%nat /\ tPanic c = None.

Lemma rating_inv_collection c todo q tb q' files sets running :
  rating_inv (mkRating (c :: todo) q files sets running None) -> Deque q = Some (tb, q') ->
  let tb := SetUp extension tb [] in let cfis := rated <$> colFiles c in
  rating_inv (mkRating todo q' files
    (match cfis with [] => sets | _ => appendSet (tbName tb) (hName ∘ cHeader <$> cfis) sets end)
    (running ++ [(cfis, tb)]) None).
Proof.
  intros (fin & Hp & Hq & Hf & Hr & Hst & Hpar & _) Hd tb' cfis. cbn in *.
  set (sets' := match cfis with [] => sets | _ => _ end).
  assert (forall name, default [] (sets !! name) ⊆ default [] (sets' !! name)) as Hmono.
  { intros name. unfold sets'. destruct cfis; [done|apply appendSet_mono]. }
  destruct (Deque_same _ _ _ Hd) as [Hpar' Hst'].
  exists fin. cbn. split_and!; [| |done| |by rewrite Hst'|by rewrite Hpar'|done].
  - rewrite <- Hp. rewrite bind_app, !fmap_app. cbn. rewrite app_nil_r, <- !app_assoc.
    apply Permutation_app_head. apply Permutation_app_swap_app.
  - assert (queue_inv extension q' (tb' :: running.*2) sets' (fin ≫= entries)) as Hq'.
    { unfold sets'. destruct cfis; [by eapply queue_inv_Deque|]. by eapply queue_inv_sets, queue_inv_Deque. }
    eapply queue_inv_perm; [exact Hq'| |done]. rewrite fmap_app. cbn. by rewrite Permutation_app_comm.
  - apply Forall_app. split.
    + eapply Forall_impl; [exact Hr|]. intros r Hin. unfold announced in *. etrans; [exact Hin|apply Hmono].
    + constructor; [|done]. unfold announced. cbn. unfold sets'. destruct cfis eqn:E; [apply list_subseteq_nil|].
      unfold appendSet. rewrite lookup_insert_eq. cbn. set_solver.
Qed.

(** The file [info] at the front of a running goroutine. *)
Lemma running_front todo q files sets before info infos tb after :
  rating_inv (mkRating todo q files sets (before ++ (info :: infos, tb) :: after) None) ->
  exists fin w, (ActFile info :: fin) ++ ((ActFile <$> ((before ++ (infos, tb) :: after) ≫= fst)) ++
      (ActFile <$> (todo ≫= collection_files))) ≡ₚ acts /\
    queue_inv extension q (tb :: (before ++ after).*2) sets (fin ≫= entries) /\
    files_inv scanFuel copyFuel open packer fin (statFiles files) /\
    writer tb = Some w /\ tarComplete w = true /\ ActFile info ∈ acts /\
    hName (cHeader info) ∈ default [] (sets !! tbName tb) /\
    Forall (announced sets) (before ++ (infos, tb) :: after) /\
    started q = true /\ (0 < parallelTarballs q)%nat.
Proof.
  intros (fin & Hp & Hq & Hf & Hr & Hst & Hpar & _). cbn in *.
  assert (queue_inv extension q (tb :: (before ++ after).*2) sets (fin ≫= entries)) as Hq1.
  { eapply queue_inv_perm; [exact Hq|apply held_first|done]. }
  destruct (held_writer Hq1) as (w & Hw & Hc).
  assert ((ActFile info :: fin) ++ ((ActFile <$> ((before ++ (infos, tb) :: after) ≫= fst)) ++
      (ActFile <$> (todo ≫= collection_files))) ≡ₚ acts) as Hp1.
  { rewrite <- Hp, !bind_app, !fmap_app. apply (perm_done (ActFile info)). }
  apply Forall_app in Hr as [Hr1 Hr2]. apply Forall_cons in Hr2 as [Hr Hr2]. unfold announced in Hr. cbn in Hr.
  exists fin, w. split_and!; try done.
  - rewrite <- Hp1. apply elem_of_app. left. by left.
  - apply Hr. by left.
  - apply Forall_app. split; [done|]. constructor; [|done]. unfold announced. cbn. set_solver.
Qed.

Lemma rating_inv_pack todo q files files' sets before info infos tb tb' after :
  rating_inv (mkRating todo q files sets (before ++ (info :: infos, tb) :: after) None) ->
  PackFileIntoTar scanFuel copyFuel open packer info tb files = Some (Ok (tb', files')) ->
  rating_inv (mkRating todo q files' sets (before ++ (infos, tb') :: after) None).
Proof.
  intros Hi Hpk. destruct (running_front _ _ _ _ _ _ _ _ _ Hi)
    as (fin & w & Hp & Hq & Hf & Hw & Hc & _ & Hn & Hr & Hst & Hpar).
  destruct (pack_ok _ _ _ _ _ _ _ _ _ _ Hw Hc Hpk) as (o & Ho & Hta & Hfu).
  pose proof (pack_ok_packs _ _ _ _ _ _ _ _ _ _ Hw Hc Hpk) as Hpacks.
  pose proof (queue_inv_packed Hq Hta (outcome_covered _ _ _ _ _ _ Ho) Hn) as Hq2.
  exists (ActFile info :: fin). cbn. split_and!; try done.
  - rewrite <- Hp, !bind_app. symmetry. apply (Permutation_app_swap_app (ActFile info :: fin)).
  - eapply queue_inv_perm; [exact Hq2|symmetry; apply held_first|].
    unfold act_entries. cbn. rewrite Ho. apply Permutation_app_comm.
  - eapply files_inv_file; [|done|done|done|exact Hfu]. pose proof acts_nodup as Hnd. rewrite <- Hp, fmap_app in Hnd.
    by apply NoDup_app in Hnd as [? _].
  - apply Forall_app in Hr as [Hr1 Hr2]. apply Forall_cons in Hr2 as [Hr Hr2].
    apply Forall_app. split; [done|]. constructor; [|done]. unfold announced in *. cbn in *.
    assert (tbName tb' = tbName tb) as ->; [|done]. destruct o; cbn in Hta; [by subst..|]. apply Hta.
Qed.

Lemma rating_inv_finish todo q q' files sets before tb after :
  rating_inv (mkRating todo q files sets (before ++ ([], tb) :: after) None) ->
  FinishTarBall q tb = (None, q') -> rating_inv (mkRating todo q' files sets (before ++ after) None).
Proof.
  intros (fin & Hp & Hq & Hf & Hr & Hst & Hpar & _) Hfin. cbn in Hp, Hq, Hf, Hr, Hst, Hpar.
  assert (queue_inv extension q (tb :: (before ++ after).*2) sets (fin ≫= entries)) as Hq1.
  { eapply queue_inv_perm; [exact Hq|apply held_first|done]. }
  destruct (queue_inv_FinishTarBall _ _ _ _ _ _ Hq1) as (q2 & Hf2 & Hq2 & Hpar2 & Hst2).
  rewrite Hfin in Hf2. injection Hf2 as <-. apply Forall_app in Hr as [Hr1 Hr2]. apply Forall_cons in Hr2 as [_ Hr2].
  exists fin. cbn. split_and!; [|done|done|by apply Forall_app|by rewrite Hst2|by rewrite Hpar2|done].
  rewrite <- Hp, !bind_app. done.
Qed.

(** What is not packed is a file that does not pack. *)
Lemma front_refused todo q files sets before info infos tb after :
  rating_inv (mkRating todo q files sets (before ++ (info :: infos, tb) :: after) None) ->
  (forall tb' files', PackFileIntoTar scanFuel copyFuel open packer info tb files <> Some (Ok (tb', files'))) ->
  ActFile info ∈ acts /\ ~ packs scanFuel copyFuel open packer info.
Proof.
  intros Hi Hno. destruct (running_front _ _ _ _ _ _ _ _ _ Hi) as (fin & w & _ & _ & _ & Hw & Hc & Hin & _).
  split; [done|]. intros Hpk. destruct (pack_progress _ _ _ _ info tb w files Hw Hc Hpk) as (tb' & files' & Hp).
  by eapply Hno.
Qed.

Lemma empty_finishes todo q files sets before tb after :
  rating_inv (mkRating todo q files sets (before ++ ([], tb) :: after) None) ->
  exists q', FinishTarBall q tb = (None, q').
Proof.
  intros (fin & _ & Hq & _). cbn in *.
  assert (queue_inv extension q (tb :: (before ++ after).*2) sets (fin ≫= entries)) as Hq1.
  { eapply queue_inv_perm; [exact Hq|apply held_first|done]. }
  destruct (queue_inv_FinishTarBall _ _ _ _ _ _ Hq1) as (q2 & Hf2 & _). by exists q2.
Qed.

Definition rating_state (c : RatingTarBallComposer) : Prop :=
  match tPanic c with
  | None => rating_inv c
  | Some err => refused scanFuel copyFuel open packer acts StatBundleFiles err
  end.

Lemma rating_step_state c c' : rating_state c -> step c c' -> rating_state c'.
Proof.
  intros Hi Hs. inversion Hs; subst; unfold rating_state in *; cbn [tPanic] in *.
  - by eapply rating_inv_collection.
  - by eapply rating_inv_pack.
  - destruct (front_refused _ _ _ _ _ _ _ _ _ Hi) as [Ha Hno]; [congruence|]. by exists info, tb, files.
  - by eapply rating_inv_finish.
  - exfalso. destruct (empty_finishes _ _ _ _ _ _ _ Hi) as (? & E). congruence.
Qed.

(** A collection is taken, its files are packed, its archive is finished. *)
Definition rating_left (c : RatingTarBallComposer) : nat :=
  (sum_list ((fun c => 2 + length (colFiles c)) <$> tTodo c) + sum_list ((fun r => 1 + length r.1) <$> tRunning c))%nat.

Lemma rating_step_left c c' : step c c' -> (rating_left c' < rating_left c)%nat.
Proof.
  intros Hs. inversion Hs; subst; unfold rating_left; cbn [tTodo tRunning fmap list_fmap sum_list sum_list_with];
    rewrite ?fmap_app, ?sum_list_with_app; cbn; unfold id; try subst cfis; rewrite ?length_fmap; lia.
Qed.

Lemma rating_sn c : sn step c.
Proof.
  induction c as [c IH] using (well_founded_induction (well_founded_ltof _ rating_left)).
  constructor. intros c' Hs. apply IH. by apply rating_step_left.
Qed.

(** A goroutine that never comes back from packing a file. *)
Definition rating_blocked (c : RatingTarBallComposer) : Prop :=
  exists info infos tb, (info :: infos, tb) ∈ tRunning c /\
    PackFileIntoTar scanFuel copyFuel open packer info tb (tFiles c) = None.

Lemma rating_blocked_refused c : rating_inv c -> rating_blocked c ->
  exists cfi, ActFile cfi ∈ acts /\ ~ packs scanFuel copyFuel open packer cfi.
Proof.
  intros Hi (info & infos & tb & Hin & Hp). exists info.
  destruct c as [todo q files sets running panic]. cbn in Hin, Hp. apply list_elem_of_split in Hin as (before & after & ->).
  assert (panic = None) as -> by by destruct Hi as (? & _ & _ & _ & _ & _ & _ & ?).
  eapply front_refused; [exact Hi|]. by rewrite Hp.
Qed.

(** All collections are packed and no goroutine has panicked. *)
Definition rating_done (c : RatingTarBallComposer) : Prop := tTodo c = [] /\ tRunning c = [] /\ tPanic c = None.

(** How a run may end. *)
Lemma rating_end c : rating_state c -> nf step c ->
  (exists err, tPanic c = Some err /\ refused scanFuel copyFuel open packer acts StatBundleFiles err) \/
  tPanic c = None /\ rating_inv c /\ (rating_blocked c \/ tTodo c = [] /\ tRunning c = []).
Proof.
  intros Hi Hnf. unfold rating_state in Hi. destruct (tPanic c) as [err|] eqn:Ep; [by left; eauto|right].
  split; [done|]. split; [done|]. pose proof Hi as (fin & _ & Hq & _ & _ & _ & Hpar & _). unfold rating_blocked.
  destruct c as [todo q files sets running panic]. cbn in *. subst panic.
  destruct running as [|[[|info infos] tb] running].
  - right. split; [|done]. destruct todo as [|c todo]; [done|]. exfalso. apply Hnf.
    pose proof (qi_count _ _ _ _ _ Hq) as Hc. destruct (tarsToFillQueue q) as [|tb tars] eqn:Et; [cbn in Hc; lia|].
    eexists. eapply rating_collection. unfold Deque. by rewrite Et.
  - exfalso. apply Hnf. destruct (empty_finishes _ _ _ _ [] _ _ Hi) as (q' & E).
    eexists. by eapply (rating_finish _ _ _ _ _ _ _ _ _ _ []).
  - left. exists info, infos, tb. split; [by left|].
    destruct (PackFileIntoTar _ _ _ _ info tb files) as [[[tb' files']|err]|] eqn:E; [| |done]; exfalso; apply Hnf; eexists.
    + by eapply (rating_pack _ _ _ _ _ _ _ _ _ _ []).
    + by eapply (rating_pack_panic _ _ _ _ _ _ _ _ _ []).
Qed.

Lemma rating_final c : rating_inv c -> tTodo c = [] -> tRunning c = [] ->
  exists q', FinishQueue (tQueue c) = (None, q') /\
    composed scanFuel copyFuel open extension packer acts (uploads q') (GetUnderlyingMap (tFiles c)) (tSets c).
Proof.
  intros (fin & Hp & Hq & Hfi & _ & Hstd & _) Ht Hr. rewrite Ht, Hr in *. cbn in Hp, Hq. rewrite app_nil_r in Hp.
  destruct (FinishQueue_ok _ _ _ _ Hq Hstd) as (q' & Hfin & He & Hc & Hn). exists q'. split; [done|].
  constructor; [by rewrite He, Hp|by eapply files_inv_perm|done|done].
Qed.

(** *** The beginning *)

Definition emptyEntry (h : Header) : entry := (h, []).

Lemma addHeaders_ok rest : forall headers files fin, NoDup (act_name <$> fin ++ rest) ->
  files_inv scanFuel copyFuel open packer fin (statFiles files) ->
  exists new fin', (addHeaders rest headers files).1 = headers ++ new /\
    fin' ++ (ActFile <$> addedFiles rest) ≡ₚ fin ++ rest /\
    files_inv scanFuel copyFuel open packer fin' (statFiles (addHeaders rest headers files).2) /\
    (fin' ≫= entries) ≡ₚ (emptyEntry <$> new) ++ (fin ≫= entries) /\
    (forall h, h ∈ new -> exists info, ActHeader h info ∈ rest).
Proof.
  induction rest as [|a rest IH]; intros headers files fin Hnd Hf; cbn [addHeaders].
  { exists [], fin. rewrite !app_nil_r. split_and!; try done. intros h Hh. by apply elem_of_nil in Hh. }
  assert (NoDup (act_name <$> (a :: fin) ++ rest)) as Hnd'.
  { cbn [app]. by rewrite Permutation_middle. }
  assert (NoDup (act_name <$> a :: fin)) as Hnd1 by (rewrite fmap_app in Hnd'; by apply NoDup_app in Hnd' as [? _]).
  destruct a as [cfi|h info|h info].
  - destruct (IH headers files fin) as (new & fin' & Eh & Hp & Hf' & He & Hin); [|done|].
    { cbn in Hnd'. apply NoDup_cons in Hnd' as [_ Hnd']. done. }
    exists new, fin'. split_and!; try done.
    + unfold addedFiles in *. cbn. rewrite <- Permutation_middle, Hp. by rewrite Permutation_middle.
    + intros h Hh. destruct (Hin h Hh) as [info ?]. exists info. by right.
  - destruct (IH (headers ++ [h]) (AddFile h info false files) (ActHeader h info :: fin)) as (new & fin' & Eh & Hp & Hf' & He & Hin);
      [done| |].
    { apply (files_inv_cons _ _ _ _ _ (statFiles files)); [done|done|cbn; eexists; by rewrite lookup_insert_eq|].
      intros name Hne. cbn. by rewrite lookup_insert_ne. }
    exists (h :: new), fin'. split_and!; try done.
    + rewrite Eh, <- app_assoc. done.
    + unfold addedFiles in *. cbn in *. rewrite Hp. by rewrite Permutation_middle.
    + rewrite He. cbn. by rewrite Permutation_middle.
    + intros h' [->|Hh]%elem_of_cons; [exists info; by left|]. destruct (Hin h' Hh) as [info' ?]. exists info'. by right.
  - destruct (IH headers (AddSkippedFile h info files) (ActSkip h info :: fin)) as (new & fin' & Eh & Hp & Hf' & He & Hin);
      [done| |].
    { apply (files_inv_cons _ _ _ _ _ (statFiles files)); [done|done|cbn; eexists; by rewrite lookup_insert_eq|].
      intros name Hne. cbn. by rewrite lookup_insert_ne. }
    exists new, fin'. split_and!; try done.
    + unfold addedFiles in *. cbn in *. rewrite Hp. by rewrite Permutation_middle.
    + intros h' Hh. destruct (Hin h' Hh) as [info' ?]. exists info'. by right.
Qed.

Lemma writeHeaderLoop_ok headers : forall w, tarComplete w = true -> (forall h, h ∈ headers -> hSize h = 0) ->
  writeHeaderLoop headers w = Ok (w ++ (emptyEntry <$> headers)) /\ tarComplete (w ++ (emptyEntry <$> headers)) = true.
Proof.
  induction headers as [|h headers IH]; intros w Hc Hh; cbn [writeHeaderLoop fmap list_fmap].
  { by rewrite app_nil_r. }
  unfold WriteHeader. rewrite Hc. cbn [mbind res_bind].
  destruct (IH (w ++ [(h, [])])) as [-> E].
  - apply tarComplete_app. rewrite Hh by by left. done.
  - intros h' Hin. apply Hh. by right.
  - rewrite <- app_assoc in *. done.
Qed.

Lemma entry_names_empty headers : entry_names (emptyEntry <$> headers) = hName <$> headers.
Proof. unfold entry_names. induction headers as [|h headers IH]; [done|]. cbn in *. by rewrite IH. Qed.

Lemma writeHeaders_ok k m threshold q headers : (0 < k)%nat -> StartQueue k m (NewTarBallQueue threshold) = Ok q ->
  (forall h, h ∈ headers -> hSize h = 0) ->
  exists name q', writeHeaders extension headers q = Some (Ok (name, hName <$> headers, q')) /\
    queue_inv extension q' [] {[ name := hName <$> headers ]} (emptyEntry <$> headers) /\
    started q' = true /\ (0 < parallelTarballs q')%nat.
Proof.
  intros Hk Hst Hh. unfold writeHeaders.
  destruct (StartQueue_ok extension k m threshold ∅) as (q0 & Hs & Hq0 & Hstd & Hpar).
  rewrite Hst in Hs. injection Hs as <-. pose proof (qi_count _ _ _ _ _ Hq0) as Hc.
  destruct (tarsToFillQueue q) as [|tb tars] eqn:Et; [cbn in Hc; lia|].
  assert (Deque q = Some (tb, withToFill q tars)) as Hd by (unfold Deque; by rewrite Et). rewrite Hd. cbn [mbind option_bind].
  destruct (StartQueue_ok extension k m threshold {[ tbName (SetUp extension tb []) := hName <$> headers ]})
    as (q0 & Hs & Hq & _). rewrite Hst in Hs. injection Hs as <-.
  pose proof (queue_inv_Deque _ _ _ _ _ _ _ Hq Hd) as Hq1. destruct (held_writer Hq1) as (w & Hw & Hcw). rewrite Hw.
  destruct (writeHeaderLoop_ok headers w Hcw Hh) as [-> Hc']. cbn [res_map_err mbind res_bind].
  eexists _, _. split; [done|]. split_and!; [|done|cbn; lia].
  apply queue_inv_EnqueueBack. apply (queue_inv_write _ _ _ _ [] (SetUp extension tb [])); [exact Hq1| |].
  - split_and!; [done|done|]. exists w. split_and!; [done|done|exact Hc'].
  - unfold covered. rewrite lookup_singleton_eq. unfold default, from_option.
    by rewrite entry_names_empty.
Qed.

Section Start.
Context `{SortSlice}.
Variable tarSizeThreshold : Z.
Variable incrementFromFiles : BackupFileList.
Variable incrementBaseLsn : option Z.
Variable relFileStats : RelFileStatistics.
Variable deltaMapComplete : bool.
Notation addFiles := (addFiles scanFuel open incrementFromFiles incrementBaseLsn relFileStats deltaMapComplete).

Lemma addFiles_rated cfis : forall st st', addFiles cfis st = Ok st' -> rated <$> st'.2 = (rated <$> st.2) ++ cfis.
Proof.
  induction cfis as [|cfi cfis IH]; intros [m l] st' E; cbn [Composer.addFiles] in E.
  { injection E as <-. by rewrite app_nil_r. }
  unfold addFile in E. destruct (getExpectedFileSize _ _ _ _ cfi m) as [[size m']|e]; [|done]. cbn [mbind res_bind] in E.
  rewrite (IH _ _ E). cbn. by rewrite fmap_app, <- app_assoc.
Qed.

Lemma rating_start_inv k m threshold q packer0 packer' order deltaMap c : headers_empty acts ->
  (0 < k)%nat -> StartQueue k m (NewTarBallQueue threshold) = Ok q -> order ≡ₚ addedFiles acts ->
  rating_start scanFuel open extension tarSizeThreshold incrementFromFiles incrementBaseLsn relFileStats deltaMapComplete
    packer0 acts order deltaMap q = Some (Ok (packer', c)) -> rating_inv c.
Proof.
  intros Hh Hk Hst Hord. unfold rating_start.
  destruct (addHeaders_ok acts [] (newStatBundleFiles relFileStats) []) as (new & fin & En & Hp & Hf & He & Hin); [done| |].
  { split; [|intros name [d Hd]; cbn in Hd; by rewrite lookup_empty in Hd]. intros a Ha. by apply elem_of_nil in Ha. }
  destruct (addHeaders acts [] (newStatBundleFiles relFileStats)) as [headers files]. cbn in En, Hf. subst headers.
  destruct (addFiles order (deltaMap, [])) as [[deltaMap' toCompose]|e] eqn:Ea; [|done].
  pose proof (addFiles_rated _ _ _ Ea) as Hr. cbn in Hr.
  destruct (writeHeaders_ok k m threshold q new Hk Hst) as (name & q' & -> & Hq & Hstd & Hpar).
  { intros h Hn. destruct (Hin h Hn) as [info ?]. by eapply Hh. }
  intros [= <- <-]. exists fin. cbn. split_and!; try done.
  - rewrite <- Hp. apply Permutation_app_head, fmap_Permutation. rewrite <- Hord, <- Hr.
    rewrite <- collection_files_bind. by rewrite composeFiles_perm.
  - eapply queue_inv_perm; [exact Hq|done|]. by rewrite He, app_nil_r.
Qed.

(** Adding fails at a file whose expected size cannot be found. *)
Definition unsized (cfis : list ComposeFileInfo) (err : pgError) : Prop :=
  exists cfi deltaMap, cfi ∈ cfis /\
    getExpectedFileSize scanFuel open incrementBaseLsn deltaMapComplete cfi deltaMap = Err err.

Lemma addFiles_error cfis : forall st err, addFiles cfis st = Err err -> unsized cfis err.
Proof.
  induction cfis as [|cfi cfis IH]; intros [m l] err E; cbn [Composer.addFiles] in E; [done|].
  unfold addFile in E. destruct (getExpectedFileSize _ _ _ _ cfi m) as [[size m']|e] eqn:Eg; cbn [mbind res_bind] in E.
  - destruct (IH _ _ E) as (cfi' & m1 & Hin & Hm). exists cfi', m1. split; [by right|done].
  - injection E as <-. exists cfi, m. split; [by left|done].
Qed.

(** The start either finds the sizes of all files, or gives the error of one. *)
Lemma rating_starts k m threshold q packer0 order deltaMap : headers_empty acts ->
  (0 < k)%nat -> StartQueue k m (NewTarBallQueue threshold) = Ok q ->
  exists r, rating_start scanFuel open extension tarSizeThreshold incrementFromFiles incrementBaseLsn relFileStats
      deltaMapComplete packer0 acts order deltaMap q = Some r /\
    match r with
    | Err err => addFiles order (deltaMap, []) = Err err
    | Ok (packer', _) => exists deltaMap' files, addFiles order (deltaMap, []) = Ok (deltaMap', files) /\
        packer' = UpdateDeltaMap packer0 deltaMap'
    end.
Proof.
  intros Hh Hk Hst. unfold rating_start.
  destruct (addHeaders_ok acts [] (newStatBundleFiles relFileStats) []) as (new & fin & En & _ & _ & _ & Hin); [done| |].
  { split; [|intros name [d Hd]; cbn in Hd; by rewrite lookup_empty in Hd]. intros a Ha. by apply elem_of_nil in Ha. }
  destruct (addHeaders acts [] (newStatBundleFiles relFileStats)) as [headers files]. cbn in En. subst headers.
  destruct (addFiles order (deltaMap, [])) as [[deltaMap' toCompose]|e]; [|by exists (Err e)].
  destruct (writeHeaders_ok k m threshold q new Hk Hst) as (name & q' & -> & _).
  { intros h Hn. destruct (Hin h Hn) as [info ?]. by eapply Hh. }
  eexists. split; [done|]. exists deltaMap', toCompose. by split.
Qed.

(** *** From the start to the end *)

Section Ends.
Variable k m : nat.
Variable threshold : Z.
Variable q : TarBallQueue.
Variable packer0 : TarBallFilePacker B.
Variable order : list ComposeFileInfo.
Variable deltaMap : gmap RelFileNode B.
Variable start c : RatingTarBallComposer.
Hypothesis acts_headers : headers_empty acts.
Hypothesis Hk : (0 < k)%nat.
Hypothesis Hstart : StartQueue k m (NewTarBallQueue threshold) = Ok q.
Hypothesis Horder : order ≡ₚ addedFiles acts.
Hypothesis Hrating : rating_start scanFuel open extension tarSizeThreshold incrementFromFiles incrementBaseLsn relFileStats
  deltaMapComplete packer0 acts order deltaMap q = Some (Ok (packer, start)).
Hypothesis Hreach : rtc step start c.

Lemma rating_reaches : rating_state c.
Proof.
  eapply rtc_invariant; [by intros; eapply rating_step_state|exact Hreach|].
  pose proof (rating_start_inv k m threshold q packer0 packer order deltaMap start acts_headers Hk Hstart Horder Hrating) as Hi.
  unfold rating_state. assert (tPanic start = None) as -> by by destruct Hi as (? & _ & _ & _ & _ & _ & _ & ?). done.
Qed.

Hypothesis Hend : nf step c.

Lemma rating_success : all_pack scanFuel copyFuel open packer acts ->
  rating_done c /\ exists q', FinishQueue (tQueue c) = (None, q') /\
    composed scanFuel copyFuel open extension packer acts (uploads q') (GetUnderlyingMap (tFiles c)) (tSets c).
Proof.
  intros Hp. destruct (rating_end c rating_reaches Hend) as [(err & _ & cfi & _ & _ & Ha & Hno & _)|(Hpan & Hi & [Hb|[Ht Hr]])].
  - by destruct Hno; apply Hp.
  - destruct (rating_blocked_refused c Hi Hb) as (cfi & Ha & Hno). by destruct Hno; apply Hp.
  - split; [done|]. by apply rating_final.
Qed.

(** A run is done when all files pack, and only then. *)
Lemma rating_succeeds : rating_done c <-> all_pack scanFuel copyFuel open packer acts.
Proof.
  split; [|by intros Hp; apply rating_success]. intros (Ht & Hr & Hpan).
  pose proof rating_reaches as Hs. unfold rating_state in Hs. rewrite Hpan in Hs.
  destruct (rating_final c Hs Ht Hr) as (q' & _ & Hcomp). by eapply composed_pack.
Qed.
End Ends.
End Start.
End RatingSpec.
