(* ===== verification/ComposeScan.v ===== *)
(** * Which blocks a scan adds to the delta map

    Without a complete delta map the rating composer scans each file of the
    base backup and adds what it finds to the map, from which the packer then
    selects the blocks of the file ([scanDeltaMapFor]). *)

From stdpp Require Import gmap strings.
From S2P Require Import Prelude GoIO GoSort WalRecord WalPage WalFile PagedFile GoFS.
From S2P Require Import GoStrings GoPath Timeline DeltaMap IncPages IncSpec IncTheorems Unwrap PageVerify TarQueue BundleFiles Packer Composer.
Open Scope Z_scope.

(** The locations of the blocks of one file, as [convertBlocksToLocations]
    makes them. *)
Definition locations_of (node : RelFileNode) (blocks : list Z) : list BlockLocation := mkBlockLocation node <$> blocks.

#[local] Instance mkBlockLocation_inj node : Inj (=) (=) (mkBlockLocation node).
Proof. by intros x y [= ->]. Qed.

Section Scan.
Context {F : Type} `{LawfulSeeker F} {B : Type} `{BitmapLaws B}.
Variable scanFuel : nat.
Variable open : string -> option F.

Lemma ReadIncrementLocations_ok path node id (f : F) new n lsn : data_path path node id ->
  pages_of new n -> Z.of_nat n < 2 ^ 30 -> bytes_of f = new -> avail f = new ->
  readable (@None B) new n scanFuel ->
  ReadIncrementLocations scanFuel f path (Z.of_nat (length new)) lsn = Ok (locations_of node (scanned lsn new 0 n)).
Proof.
  intros Hp Hf Hn Hb Ha [Hfu Hacc]. unfold ReadIncrementLocations, FullScanInitialize. change 0 with (Z.of_nat 0).
  destruct (fullScanLoop_ok n scanFuel (mkPageReader f (Z.of_nat (length new)) lsn [] []) 0 new) as (g & -> & _);
    [lia|done|cbn [Nat.add]; change (2 ^ 32) with (2 ^ 30 * 4); lia|done|by intros j Hj; apply Hacc; lia|].
  unfold convertBlocksToLocations. destruct (data_path_node _ _ _ Hp) as [-> _]. cbn [mbind res_bind Blocks Lsn app].
  f_equal. unfold locations_of. apply list_fmap_ext. intros i x _. unfold NewBlockLocation. by destruct node.
Qed.

(** A map to which blocks of [node] were added knows it. *)
Lemma AddLocationsToDelta_known node blocks : forall (deltaMap : gmap RelFileNode B),
  is_Some (deltaMap !! node) \/ blocks <> [] -> is_Some (AddLocationsToDelta deltaMap (locations_of node blocks) !! node).
Proof.
  induction blocks as [|b blocks IH]; intros m Hm; [by destruct Hm|]. cbn.
  apply IH. left. unfold AddLocationToDelta. cbn [RelationFileNode].
  case_match; (rewrite lookup_insert_eq; by eexists).
Qed.

Lemma scanned_range lsn new n : Forall (fun x => 0 <= x < Z.of_nat n) (scanned lsn new 0 n).
Proof.
  apply Forall_forall. intros x. unfold scanned. rewrite list_elem_of_fmap. intros (j & -> & Hj).
  apply elem_of_filter_b in Hj as [_ Hj%elem_of_seq]. lia.
Qed.

Lemma scanDeltaMapFor_ok path node id (f : F) new n lsn (deltaMap : gmap RelFileNode B) :
  data_path path node id -> 0 <= id < 2 ^ 15 -> open path = Some f ->
  pages_of new n -> Z.of_nat n <= BlocksInRelFile -> bytes_of f = new -> avail f = new ->
  readable (@None B) new n scanFuel -> deltaMap !! node = None ->
  exists deltaMap', scanDeltaMapFor scanFuel open (Some lsn) path (Z.of_nat (length new)) deltaMap = Ok deltaMap' /\
    match GetDeltaBitmapFor deltaMap' path with
    | Ok blocks => scanned lsn new 0 n <> [] /\ forall x, x ∈ ToArray blocks <-> id = 0 /\ x ∈ scanned lsn new 0 n
    | Err e => e = NoBitmapFoundError /\ scanned lsn new 0 n = []
    end.
Proof.
  intros Hp Hid Ho Hf Hn Hb Ha Hr Hnone. change BlocksInRelFile with 131072 in Hn.
  unfold scanDeltaMapFor. rewrite Ho. rewrite (ReadIncrementLocations_ok path node id f new n lsn) by
    (try done; change (2 ^ 30) with (131072 * 8192); lia).
  cbn [mbind res_bind]. pose proof (scanned_range lsn new n) as Hrg.
  destruct (data_path_node _ _ _ Hp) as [Hnode Hfid]. eexists. split; [reflexivity|].
  unfold GetDeltaBitmapFor. rewrite Hnode, Hfid. cbn [mbind res_bind res_map_err].
  destruct (scanned lsn new 0 n) as [|b blocks] eqn:Es; cbn [locations_of fmap list_fmap]; [by rewrite Hnone|].
  change (mkBlockLocation node b :: (mkBlockLocation node <$> blocks)) with (locations_of node (b :: blocks)).
  destruct (AddLocationsToDelta_known node (b :: blocks) deltaMap) as [bitmap Hbm]; [by right|].
  change (foldl AddLocationToDelta deltaMap (locations_of node (b :: blocks)))
    with (AddLocationsToDelta deltaMap (locations_of node (b :: blocks))). rewrite Hbm.
  split; [done|]. intros x. rewrite SelectRelFileBlocks_ok by done.
  assert (forall y, y ∈ ToArray bitmap <-> y ∈ b :: blocks) as Hin.
  { intros y. pose proof (AddLocationsToDelta_ok (locations_of node (b :: blocks)) deltaMap (mkBlockLocation node y)) as Hok.
    unfold in_map in Hok. cbn [RelationFileNode BlockNo] in Hok. rewrite Hbm, Hnone in Hok.
    unfold locations_of in Hok at 2. rewrite list_elem_of_fmap_inj in Hok by apply _.
    assert (Forall block_u32 (locations_of node (b :: blocks))) as Hu.
    { apply Forall_fmap. eapply Forall_impl; [exact Hrg|]. intros z Hz. unfold block_u32, is_u32. cbn in *. lia. }
    specialize (Hok Hu).
    naive_solver. }
  rewrite Hin. rewrite Forall_forall in Hrg. change BlocksInRelFile with 131072. split.
  - intros [Hx Hi]. specialize (Hrg _ Hi). assert (id = 0) as -> by lia. split; [done|].
    by replace x with (0 * 131072 + x) by lia.
  - intros [-> Hi]. specialize (Hrg _ Hi). split; [lia|]. by replace (0 * 131072 + x) with x by lia.
Qed.
End Scan.
