(* ===== verification/ComposeTheorems.v ===== *)
(** * Composing archives: the theorems

    What the two composers make of a walk, in whatever order their goroutines
    run, that they agree, how files are cut into collections, and what a scan
    adds to the delta map. *)

From stdpp Require Import gmap strings relations.
From S2P Require Import Prelude GoIO GoSort WalRecord WalPage WalFile PagedFile GoFS.
From S2P Require Import GoStrings GoPath Timeline DeltaMap IncPages IncSpec IncTheorems Unwrap PageVerify TarQueue BundleFiles.
From S2P Require Import Packer Composer QueueSpec ComposerSpec ComposerRegular ComposerRating ComposeScan.
Open Scope Z_scope.

(** ** The two composers *)

Section Composers.
Context {F : Type} `{Reader F, Seeker F} {B : Type} `{Bitmap B}.

(** C7: Whatever the order in which the walk and the goroutines that pack take
    their turns, a run of the regular composer is finite, and it ends in one of
    three ways. (1) Every file of the walk packs; then [PackTarballs] and
    [FinishQueue] succeed and the storage has, once each, the entries of the
    files that were packed and of the directories and links, in archives with
    names of their own; the map of files describes every file, with its
    increment and skip flags, and nothing else; and the name of each entry is
    in the set of its archive. (2) [PackTarballs] gives an error: the one that
    packing one of the files gave (it could not be read, had another size than
    announced, or the verifier failed). (3) [PackTarballs] never returns: a
    goroutine waits for a verifier that has stopped reading the file's pipe.
    So when all files pack the run succeeds, and when one does not it does not
    ([packs]: packing and verifying the file ends without an error). The names
    in the walk are distinct, the headers of directories and links announce no
    data, and the queue has at least one archive. *)
Theorem regular_composes (scanFuel copyFuel : nat) (open : string -> option F) (extension : string)
    (packer : TarBallFilePacker B) (acts : list action) (k m : nat) (threshold : Z) (q : TarBallQueue) :
  NoDup (act_name <$> acts) -> headers_empty acts ->
  (0 < k)%nat -> StartQueue k m (NewTarBallQueue threshold) = Ok q ->
  let start := NewRegularTarBallComposer q acts in
  let step := regular_step scanFuel copyFuel open extension packer in
  sn step start /\
  forall c, rtc step start c -> nf step c ->
    (all_pack scanFuel copyFuel open packer acts /\
     exists q', regular_PackTarballs c = Some (Ok (rSets c)) /\ FinishQueue (rQueue c) = (None, q') /\
       composed scanFuel copyFuel open extension packer acts (uploads q') (GetUnderlyingMap (rFiles c)) (rSets c)) \/
    (exists err, regular_PackTarballs c = Some (Err err) /\
       refused scanFuel copyFuel open packer acts RegularBundleFiles err) \/
    (regular_PackTarballs c = None /\ blocked scanFuel copyFuel open packer c /\
     exists cfi, ActFile cfi ∈ acts /\ ~ packs scanFuel copyFuel open packer cfi).
Proof.
  intros Hnd Hh Hk Hst start step. split; [apply step_sn|]. intros c Hc Hnf.
  assert (regular_state scanFuel copyFuel open extension packer acts c) as Hok by by eapply regular_reaches.
  destruct (regular_end _ _ _ _ _ _ c Hok Hnf) as [Hb|(Ht & Hr & [Hf|(err & Hf & Hrf)])].
  - right; right. destruct Hb as (cfi & tb & Hin & Hp). split; [|split; [by exists cfi, tb|]].
    + unfold regular_PackTarballs. destruct (rRunning c); [by apply elem_of_nil in Hin|]. by destruct (rTodo c).
    + eapply blocked_refused; [exact Hnd|exact Hh|exact Hok|by exists cfi, tb].
  - left. assert (regular_ok scanFuel copyFuel open extension packer acts c) as Hok'.
    { split; [done|]. unfold regular_state in Hok. by rewrite Hf in Hok. }
    destruct (regular_final _ _ _ _ _ _ c Hok' Ht Hr) as (q' & HP & HF & Hcomp). split; [by eapply composed_pack|].
    by exists q'.
  - right; left. exists err. split; [|done]. unfold regular_PackTarballs. by rewrite Ht, Hr, Hf.
Qed.

End Composers.

(** *** They agree *)

(** The descriptions agree up to the count of updates and the corrupt blocks. *)
Definition same_description (d1 d2 : BackupFileDescription) : Prop :=
  IsIncremented d1 = IsIncremented d2 /\ IsSkipped d1 = IsSkipped d2 /\ MTime d1 = MTime d2.

Definition same_descriptions (o1 o2 : option BackupFileDescription) : Prop :=
  match o1, o2 with Some d1, Some d2 => same_description d1 d2 | None, None => True | _, _ => False end.

Lemma describes_same inc sk info d1 d2 : describes inc sk info d1 -> describes inc sk info d2 -> same_description d1 d2.
Proof. unfold same_description. intros (-> & -> & ->) (-> & -> & ->). done. Qed.

Section Agree.
Context {F : Type} `{Reader F, Seeker F} {B : Type} `{Bitmap B}.
Variable scanFuel copyFuel : nat.
Variable open : string -> option F.
Variable packer : TarBallFilePacker B.

Lemma act_file_same a o1 o2 : act_file scanFuel copyFuel open packer a o1 ->
  act_file scanFuel copyFuel open packer a o2 -> same_descriptions o1 o2.
Proof.
  destruct a as [cfi|h info|h info]; cbn [act_file].
  - intros (_ & o & Ho & H1') (_ & o' & Ho' & H2'). assert (o' = o) as -> by congruence.
    destruct o; cbn [outcome_file] in *; [|by subst|]; destruct H1' as (d1 & -> & Hd1), H2' as (d2 & -> & Hd2);
      by eapply describes_same.
  - intros (d1 & -> & Hd1) (d2 & -> & Hd2). by eapply describes_same.
  - intros (d1 & -> & Hd1) (d2 & -> & Hd2). by eapply describes_same.
Qed.

Lemma files_inv_same acts m1 m2 name : files_inv scanFuel copyFuel open packer acts m1 ->
  files_inv scanFuel copyFuel open packer acts m2 -> same_descriptions (m1 !! name) (m2 !! name).
Proof.
  intros [Ha1 Hn1] [Ha2 Hn2].
  assert (name ∈ act_name <$> acts -> same_descriptions (m1 !! name) (m2 !! name)) as Hin.
  { intros (a & -> & Hin)%list_elem_of_fmap. apply (act_file_same a); auto. }
  destruct (m1 !! name) as [d1|] eqn:E1; [|destruct (m2 !! name) as [d2|] eqn:E2; [|done]].
  - apply Hin, Hn1. rewrite E1. by eexists.
  - apply Hin, Hn2. rewrite E2. by eexists.
Qed.

Lemma elem_of_addedFiles cfi acts : cfi ∈ addedFiles acts <-> ActFile cfi ∈ acts.
Proof.
  unfold addedFiles. rewrite list_elem_of_bind. split.
  - intros (a & Hc & Ha). destruct a; [|by apply elem_of_nil in Hc..]. by apply list_elem_of_singleton in Hc as ->.
  - intros Ha. exists (ActFile cfi). split; [by left|done].
Qed.

(** A complete delta map stays what it is. *)
Lemma addFiles_deltaMap incrementFromFiles lsn stats cfis : forall st st',
  addFiles scanFuel open incrementFromFiles lsn stats true cfis st = Ok st' -> st'.1 = st.1.
Proof.
  induction cfis as [|cfi cfis IH]; intros [m l] st' E; cbn [addFiles] in E; [by injection E as <-|].
  unfold addFile, getExpectedFileSize in E.
  destruct (cIsIncremented cfi); cbn [negb mbind res_bind] in E; [|by rewrite (IH _ _ E)].
  destruct (GetDeltaBitmapFor m (cPath cfi)) as [bitmap|e]; [|case_bool_decide; [|done]];
    cbn [mbind res_bind] in E; by rewrite (IH _ _ E).
Qed.

(** A file whose size the complete map cannot give cannot be packed either. *)
Lemma unsized_unpacked incrementFromFiles lsn stats cfis map : deltaMap packer = Some map -> forall l err,
  addFiles scanFuel open incrementFromFiles lsn stats true cfis (map, l) = Err err ->
  exists cfi, cfi ∈ cfis /\ ~ packs scanFuel copyFuel open packer cfi.
Proof.
  intros Hmap. induction cfis as [|cfi cfis IH]; intros l err E; cbn [addFiles] in E; [done|].
  assert (forall l, addFiles scanFuel open incrementFromFiles lsn stats true cfis (map, l) = Err err ->
    exists cfi', cfi' ∈ cfi :: cfis /\ ~ packs scanFuel copyFuel open packer cfi') as IH'.
  { intros l' E'. destruct (IH l' err E') as (cfi' & Hin & Hno). exists cfi'. split; [by right|done]. }
  unfold addFile, getExpectedFileSize in E.
  destruct (cIsIncremented cfi) eqn:Ei; cbn [negb mbind res_bind] in E; [|by apply IH' in E].
  destruct (GetDeltaBitmapFor map (cPath cfi)) as [bitmap|e] eqn:Eb; cbn [mbind res_bind] in E; [by apply IH' in E|].
  case_bool_decide as Ee; cbn [mbind res_bind] in E; [by apply IH' in E|]. exists cfi. split; [by left|].
  unfold packs, pack_outcome, createFileReadCloser, getDeltaBitmapFor. rewrite Ei, Hmap, Eb. cbn [mbind res_bind].
  rewrite bool_decide_eq_false_2 by done. by intros [].
Qed.
End Agree.

(** C9: With a complete delta map the two composers succeed for the same walks,
    and then do the same. Take any two runs to their ends, whatever the
    interleaving of each. If the rating composer cannot find the expected size
    of a file, the regular one does not succeed either. Otherwise the regular
    composer's [PackTarballs] succeeds if and only if the rating composer packs
    everything without a panic; and when they do, what they leave in the
    storage are the same entries, and every file has the same description
    (increment and skip flags, time) in both maps of files, or in neither. The
    names in the walk are distinct, the headers of directories and links
    announce no data, and the queue has at least one archive. *)
Theorem composers_agree {F : Type} `{Reader F, Seeker F} {B : Type} `{Bitmap B} `{SortSlice}
    (scanFuel copyFuel : nat) (open : string -> option F)
    (extension : string) (tarSizeThreshold : Z) (incrementFromFiles : BackupFileList) (incrementBaseLsn : option Z)
    (relFileStats : RelFileStatistics) (packer : TarBallFilePacker B)
    (acts : list action) (order : list ComposeFileInfo) (map : gmap RelFileNode B)
    (k m : nat) (threshold : Z) (q : TarBallQueue) (c1 : RegularTarBallComposer) :
  NoDup (act_name <$> acts) -> headers_empty acts -> deltaMap packer = Some map ->
  (0 < k)%nat -> StartQueue k m (NewTarBallQueue threshold) = Ok q -> order ≡ₚ addedFiles acts ->
  rtc (regular_step scanFuel copyFuel open extension packer) (NewRegularTarBallComposer q acts) c1 ->
  nf (regular_step scanFuel copyFuel open extension packer) c1 ->
  exists r, rating_start scanFuel open extension tarSizeThreshold incrementFromFiles incrementBaseLsn relFileStats true
      packer acts order map q = Some r /\
  match r with
  | Err _ => regular_PackTarballs c1 <> Some (Ok (rSets c1))
  | Ok (packer', start) => forall c2,
      rtc (rating_step scanFuel copyFuel open extension packer') start c2 ->
      nf (rating_step scanFuel copyFuel open extension packer') c2 ->
      (regular_PackTarballs c1 = Some (Ok (rSets c1)) <-> rating_done c2) /\
      (rating_done c2 ->
       (uploads (FinishQueue (rQueue c1)).2 ≫= snd) ≡ₚ (uploads (FinishQueue (tQueue c2)).2 ≫= snd) /\
       forall name, same_descriptions (GetUnderlyingMap (rFiles c1) !! name) (GetUnderlyingMap (tFiles c2) !! name))
  end.
Proof.
  intros Hnd Hh Hmap Hk Hst Hord Hc1 Hn1.
  destruct (rating_starts scanFuel copyFuel open extension packer acts Hnd tarSizeThreshold incrementFromFiles incrementBaseLsn
    relFileStats true k m threshold q packer order map Hh Hk Hst) as (r & Hrs & Hr).
  exists r. split; [done|].
  pose proof (regular_succeeds scanFuel copyFuel open extension packer acts Hnd Hh k m threshold q c1 Hk Hst Hc1 Hn1) as Hreg.
  destruct r as [[packer' start]|err].
  - destruct Hr as (map' & files & Ha & ->). apply addFiles_deltaMap in Ha. cbn in Ha. subst map'.
    assert (UpdateDeltaMap packer map = packer) as Eq.
    { unfold UpdateDeltaMap. destruct packer as [dm lsn opts]. cbn in *. by rewrite Hmap. }
    rewrite Eq in *. intros c2 Hc2 Hn2.
    pose proof (rating_succeeds scanFuel copyFuel open extension packer acts Hnd tarSizeThreshold incrementFromFiles incrementBaseLsn
      relFileStats true k m threshold q packer order map start c2 Hh Hk Hst Hord Hrs Hc2 Hn2) as Hrat.
    split; [by rewrite Hreg, Hrat|]. rewrite Hrat. intros Hp.
    destruct (regular_success scanFuel copyFuel open extension packer acts Hnd Hh k m threshold q c1 Hk Hst Hc1 Hn1 Hp)
      as (_ & q1 & -> & [He1 Hf1 _ _]).
    destruct (rating_success scanFuel copyFuel open extension packer acts Hnd tarSizeThreshold incrementFromFiles incrementBaseLsn
      relFileStats true k m threshold q packer order map start c2 Hh Hk Hst Hord Hrs Hc2 Hn2 Hp)
      as (_ & q2 & -> & [He2 Hf2 _ _]).
    cbn [snd]. split; [by rewrite He1, He2|]. intros name. by eapply files_inv_same.
  - rewrite Hreg. intros Hp. destruct (unsized_unpacked scanFuel copyFuel open packer _ _ _ _ map Hmap _ _ Hr)
      as (cfi & Hin & Hno). apply Hno, Hp. rewrite Hord in Hin. by apply elem_of_addedFiles.
Qed.

(** ** Collections *)

(** C29: The rating composer cuts the files, sorted by their rating, into
    collections: every file is in one of them, in the order of the ratings; no
    collection mixes files that were never updated with others; and it is over
    the threshold by at most its last file. *)
Theorem composeFiles_collections `{SortSlice} (threshold : Z) (files : list RatedComposeFileInfo) :
  0 <= threshold -> Forall (fun f => 0 <= expectedSize f /\ 0 <= updateRating f) files -> total_size files < 2 ^ 64 ->
  let cs := composeFiles threshold files in
  (cs ≫= colFiles) ≡ₚ files /\ StronglySorted (fun a b => updateRating a <= updateRating b) (cs ≫= colFiles) /\
  forall c, c ∈ cs -> colExpectedSize c = total_size (colFiles c) /\ same_kind (colFiles c) /\
    forall before f, colFiles c = before ++ [f] -> total_size before <= threshold.
Proof.
  intros Ht Hf Hlt cs. destruct (composeFiles_ok threshold files Ht Hf Hlt) as [Hok Hcat]. split_and!.
  - apply composeFiles_perm.
  - unfold cs. rewrite Hcat. eapply StronglySorted_weaken; [|apply Slice_sorted, StrictWeak_key].
    unfold not_after. intros a b Hab. cbn in Hab. by apply Z.ltb_ge.
  - intros c Hc. rewrite Forall_forall in Hok. destruct (Hok c Hc) as [Hs Hk Hw]. by split_and!.
Qed.

(** ** Scanning for changed blocks *)

(** Without a complete delta map, the rating composer scans a data file
    for the blocks changed since the base backup and adds them to the map,
    numbered from the start of the file. The bitmap that the packer then gets
    is right for the first gigabyte of a relation: it has exactly the blocks
    that the scan found. For a further segment of a relation (a file [.1],
    [.2], ...) it is empty, whatever was found: the increment of that segment
    has no blocks. A file where nothing was found has no bitmap, and is
    skipped. *)
Theorem scanDeltaMapFor_first_segment_only {F} `{LawfulSeeker F} {B} `{BitmapLaws B} (scanFuel : nat)
    (open : string -> option F) (path : string) (node : RelFileNode) (id : Z) (f : F) (new : list byte) (n : nat)
    (lsn : Z) (deltaMap : gmap RelFileNode B) :
  data_path path node id -> 0 <= id < 2 ^ 15 -> open path = Some f ->
  pages_of new n -> Z.of_nat n <= BlocksInRelFile -> bytes_of f = new -> avail f = new ->
  (n < scanFuel)%nat -> (forall i, (i < n)%nat -> acceptable (page new i) = true) -> deltaMap !! node = None ->
  exists deltaMap', scanDeltaMapFor scanFuel open (Some lsn) path (Z.of_nat (length new)) deltaMap = Ok deltaMap' /\
    match GetDeltaBitmapFor deltaMap' path with
    | Ok blocks => scanned lsn new 0 n <> [] /\ forall x, x ∈ ToArray blocks <-> id = 0 /\ x ∈ scanned lsn new 0 n
    | Err e => e = NoBitmapFoundError /\ scanned lsn new 0 n = []
    end.
Proof. intros. by eapply scanDeltaMapFor_ok. Qed.

(** ** Example walk *)

Definition ex_version : list byte := [Byte.x31; Byte.x33; Byte.x0a].

Definition ex_open (path : string) : option (openFile) :=
  if bool_decide (path = "/data/PG_VERSION") then Some (Open ex_version) else None.

(** A file that is packed, one of which the map has no changes, and one that
    is gone; a directory, and a file that the walk skips. *)
Definition ex_info (name : string) (mode : FileMode) (size : Z) : FileInfo := mkFileInfo name mode size 7.
Definition ex_file (path : string) (size : Z) (inc : bool) : ComposeFileInfo :=
  mkComposeFileInfo ("/data" +s path) (ex_info path ModeRegular size) inc (mkHeader path ModeRegular size) inc.

Definition ex_acts : list action :=
  [ActHeader (mkHeader "/base" ModeDir 0) (ex_info "base" ModeDir 0); ActFile (ex_file "/PG_VERSION" 3 false);
   ActFile (ex_file "/base/13/2619" 8192 true); ActFile (ex_file "/gone" 5 false);
   ActSkip (mkHeader "/base/13/2620" ModeRegular 8192) (ex_info "2620" ModeRegular 8192)].

Definition ex_map : gmap RelFileNode (gset Z) := {[ mkRelFileNode 1663 13 1259 := {[ 4 ]} ]}.

Definition ex_packer : TarBallFilePacker (gset Z) :=
  newTarBallFilePacker (Some ex_map) (Some 5) (NewTarBallFilePackerOptions true false).

Definition ex_queue : TarBallQueue :=
  match StartQueue 2 1 (NewTarBallQueue 1000000) with Ok q => q | Err _ => NewTarBallQueue 0 end.

Lemma ex_all_pack : all_pack 9 9 ex_open ex_packer ex_acts.
Proof.
  intros cfi Hin. unfold ex_acts in Hin. rewrite !elem_of_cons, elem_of_nil in Hin.
  destruct Hin as [?|[E|[E|[E|[?|[]]]]]]; try done; injection E as ->; [|by vm_compute..].
  intros _. exists []. by vm_compute.
Qed.

Lemma ex_nodup : NoDup (act_name <$> ex_acts).
Proof. by apply (bool_decide_unpack _); vm_compute. Qed.

Lemma ex_headers : headers_empty ex_acts.
Proof.
  intros h info Hin. unfold ex_acts in Hin. rewrite !elem_of_cons, elem_of_nil in Hin.
  by destruct Hin as [E|[E|[E|[E|[E|[]]]]]]; simplify_eq.
Qed.

(** An increment is asked of a file that has no relation node in its name. *)
Definition ex_bad : ComposeFileInfo := ex_file "/base/13/x" 8192 true.

Lemma ex_bad_refused : ~ packs 9 9 ex_open ex_packer ex_bad.
Proof. intros Hp. by vm_compute in Hp. Qed.

(** The files of the walk pack, and the run succeeds; with [ex_bad] alone it
    does not. *)
Lemma regular_composes_witness :
  sn (regular_step 9 9 ex_open "lz4" ex_packer) (NewRegularTarBallComposer ex_queue ex_acts) /\
  (forall c, rtc (regular_step 9 9 ex_open "lz4" ex_packer) (NewRegularTarBallComposer ex_queue ex_acts) c ->
    nf (regular_step 9 9 ex_open "lz4" ex_packer) c ->
    exists q', regular_PackTarballs c = Some (Ok (rSets c)) /\ FinishQueue (rQueue c) = (None, q') /\
      composed 9 9 ex_open "lz4" ex_packer ex_acts (uploads q') (GetUnderlyingMap (rFiles c)) (rSets c)) /\
  (forall c, rtc (regular_step 9 9 ex_open "lz4" ex_packer) (NewRegularTarBallComposer ex_queue [ActFile ex_bad]) c ->
    nf (regular_step 9 9 ex_open "lz4" ex_packer) c ->
    (exists err, regular_PackTarballs c = Some (Err err)) \/ regular_PackTarballs c = None).
Proof.
  split; [|split].
  - refine (proj1 (regular_composes 9 9 ex_open "lz4" ex_packer ex_acts 2 1 1000000 ex_queue ex_nodup ex_headers _ eq_refl)). lia.
  - intros c Hc Hn.
    destruct (regular_composes 9 9 ex_open "lz4" ex_packer ex_acts 2 1 1000000 ex_queue ex_nodup ex_headers) as [_ H]; [lia|reflexivity|].
    destruct (H c Hc Hn) as [[_ Hok]|[(err & _ & cfi & _ & _ & Ha & Hno & _)|(_ & _ & cfi & Ha & Hno)]]; [exact Hok|destruct Hno; by apply ex_all_pack..].
  - intros c Hc Hn.
    destruct (regular_composes 9 9 ex_open "lz4" ex_packer [ActFile ex_bad] 2 1 1000000 ex_queue) as [_ H];
      [by apply (bool_decide_unpack _); vm_compute|by intros h info ?%list_elem_of_singleton|lia|reflexivity|].
    destruct (H c Hc Hn) as [[Hp _]|[(err & HP & _)|(HP & _)]]; [|left; by exists err|by right].
    destruct ex_bad_refused. apply Hp. by left.
Defined.

#[local] Existing Instance InsertionSort.

Definition ex_start : option (res pgError (TarBallFilePacker (gset Z) * RatingTarBallComposer)) :=
  rating_start 9 ex_open "lz4" 100 ∅ None ∅ true ex_packer ex_acts (addedFiles ex_acts) ex_map ex_queue.



(** There are runs to the end, both succeed, and agree. *)
Lemma composers_agree_witness : exists c1,
  rtc (regular_step 9 9 ex_open "lz4" ex_packer) (NewRegularTarBallComposer ex_queue ex_acts) c1 /\
  nf (regular_step 9 9 ex_open "lz4" ex_packer) c1 /\
  exists packer' start, ex_start = Some (Ok (packer', start)) /\
  forall c2, rtc (rating_step 9 9 ex_open "lz4" packer') start c2 -> nf (rating_step 9 9 ex_open "lz4" packer') c2 ->
    rating_done c2 /\
    (uploads (FinishQueue (rQueue c1)).2 ≫= snd) ≡ₚ (uploads (FinishQueue (tQueue c2)).2 ≫= snd) /\
    forall name, same_descriptions (GetUnderlyingMap (rFiles c1) !! name) (GetUnderlyingMap (tFiles c2) !! name).
Proof.
  destruct (regular_runs 9 9 ex_open "lz4" ex_packer ex_acts ex_nodup ex_headers ex_all_pack
    (NewRegularTarBallComposer ex_queue ex_acts)) as (c1 & Hc1 & Ht & Hr).
  { eapply (regular_start 9 9 ex_open "lz4" ex_packer ex_acts 2 1 1000000); [lia|reflexivity]. }
  exists c1. assert (nf (regular_step 9 9 ex_open "lz4" ex_packer) c1) as Hn1 by by apply regular_end_nf.
  split; [exact Hc1|]. split; [exact Hn1|].
  destruct (composers_agree 9 9 ex_open "lz4" 100 ∅ None ∅ ex_packer ex_acts (addedFiles ex_acts) ex_map
    2 1 1000000 ex_queue c1 ex_nodup ex_headers eq_refl) as (r & Hrs & H); [lia|reflexivity|reflexivity|exact Hc1|exact Hn1|].
  destruct r as [[packer' start]|err]; [|by vm_compute in Hrs]. exists packer', start. split; [exact Hrs|]. intros c2 Hc2 Hn2.
  destruct (H c2 Hc2 Hn2) as [Hiff Hagree].
  assert (regular_PackTarballs c1 = Some (Ok (rSets c1))) as Hok.
  { eapply (regular_succeeds 9 9 ex_open "lz4" ex_packer ex_acts ex_nodup ex_headers 2 1 1000000 ex_queue);
      [lia|reflexivity|exact Hc1|exact Hn1|exact ex_all_pack]. }
  apply Hiff in Hok. split; [exact Hok|]. by apply Hagree.
Defined.

Definition ex_rated (rating size : Z) : RatedComposeFileInfo := mkRated (ex_file "/x" size false) rating rating size.

Lemma composeFiles_collections_witness :
  let files := [ex_rated 3 60; ex_rated 0 10; ex_rated 2 70; ex_rated 1 70] in
  let cs := composeFiles 100 files in
  colFiles <$> cs = [[ex_rated 0 10]; [ex_rated 1 70; ex_rated 2 70]; [ex_rated 3 60]] /\ (cs ≫= colFiles) ≡ₚ files.
Proof.
  split; [by vm_compute|].
  refine (proj1 (composeFiles_collections 100 [ex_rated 3 60; ex_rated 0 10; ex_rated 2 70; ex_rated 1 70] _ _ _)).
  - lia.
  - do 4 (constructor; [cbn; lia|]). constructor.
  - reflexivity.
Defined.

(** The second page of the file was written after the base backup. *)
Lemma scanDeltaMapFor_first_segment_only_witness :
  exists map, scanDeltaMapFor (B := gset Z) 9 (fun _ => Some (Open ex_new)) (Some 15) "/srv/pgdata/base/13/2619.1"
      (Z.of_nat (length ex_new)) ∅ = Ok map /\
    match GetDeltaBitmapFor map "/srv/pgdata/base/13/2619.1" with
    | Ok blocks => forall x, x ∉ ToArray blocks
    | Err e => False
    end.
Proof.
  destruct (scanDeltaMapFor_first_segment_only (B := gset Z) 9 (fun _ => Some (Open ex_new)) "/srv/pgdata/base/13/2619.1"
    (mkRelFileNode 1663 13 2619) 1 (Open ex_new) ex_new 3 15 ∅) as (map & Hs & Hm).
  - exact (default_path "/srv/pgdata" "13" "2619" (Some "1") 13 2619 1 eq_refl eq_refl eq_refl eq_refl eq_refl eq_refl).
  - lia.
  - reflexivity.
  - unfold pages_of, ex_new. rewrite !length_app, !ex_page_length, zero_page_length. lia.
  - unfold BlocksInRelFile. vm_compute. discriminate.
  - reflexivity.
  - reflexivity.
  - lia.
  - intros i Hi. rewrite page_ex_new by done. do 3 (destruct i as [|i]; [by vm_compute|]). lia.
  - reflexivity.
  - exists map. split; [exact Hs|]. destruct (GetDeltaBitmapFor map _) as [blocks|e].
    + intros x Hx. destruct Hm as [_ Hm]. apply Hm in Hx as [Hx _]. discriminate.
    + destruct Hm as [_ Hm]. by vm_compute in Hm.
Defined.
