(* ===== verification/Bundle.v ===== *)
(** * The directory that is backed up

    [src/internal/databases/postgres/bundle.go]: the walk over the data
    directory and its tablespaces, what it asks of the composer for each
    object ([action]s, in the order of the walk), and the archives of
    [pg_control] and of the label files. [filepath.Walk] is written out over
    the system calls it makes; an error of the composer's [AddHeader], which
    ends the walk, is a step of the composer. The answers of Postgres are
    arguments. *)

From stdpp Require Import gmap strings.
From S2P Require Import Prelude GoIO GoSort WalRecord WalPage WalFile PagedFile GoFS.
From S2P Require Import GoStrings GoPath GoFilepath Timeline DeltaMap IncPages Tablespace Unwrap TarQueue BundleFiles Packer Composer.
Open Scope Z_scope.

Definition PgControl : string := "pg_control".

Definition ExcludedFilenames : list string :=
  ["log"; "pg_log"; "pg_xlog"; "pg_wal";
   "pgsql_tmp"; "postgresql.auto.conf.tmp"; "postmaster.pid"; "postmaster.opts"; "recovery.conf";
   "pg_dynshmem"; "pg_notify"; "pg_replslot"; "pg_serial"; "pg_stat_tmp"; "pg_snapshots"; "pg_subtrans"].

(** The zero [time.Time], in nanoseconds. *)
Definition zeroTime : Z := -62135596800000000000.

(** What [os.IsNotExist] tells from the other errors of a system call. *)
Inductive osError := NotExist | OsError.

(** [filepath.SkipDir] and the errors that end a walk. *)
Inductive walkStop := SkipDir | Stop (e : pgError).

(** The fields that do not change once the bundle is made. *)
Record BundleConfig := NewBundle {
  Directory : string;
  IncrementFromLsn : option Z;
  IncrementFromFiles : BackupFileList;
  forceIncremental : bool
}.

(** The fields that the walk sets, and what it has asked of the composer. *)
Record Bundle := mkBundle {
  Sentinel : option (FileInfo * string);
  bundleTablespaces : TablespaceSpec;
  asked : list action
}.

Definition newBundle (c : BundleConfig) : Bundle := mkBundle None (NewTablespaceSpec (Directory c)) [].

Definition withSentinel (b : Bundle) (info : FileInfo) (path : string) : Bundle :=
  mkBundle (Some (info, path)) (bundleTablespaces b) (asked b).
Definition withTablespaces (b : Bundle) (spec : TablespaceSpec) : Bundle := mkBundle (Sentinel b) spec (asked b).
Definition ask (b : Bundle) (a : action) : Bundle := mkBundle (Sentinel b) (bundleTablespaces b) (asked b ++ [a]).

Section Bundle.
Variable c : BundleConfig.

Definition getFileRelPath (fileAbsPath : string) : string :=
  "/" +s GetSubdirectoryRelativePath fileAbsPath (Directory c).

Definition addToBundle (path : string) (info : FileInfo) (b : Bundle) : option walkStop * Bundle :=
  let fileName := fiName info in
  let excluded := bool_decide (fileName ∈ ExcludedFilenames) in
  let isDir := fiIsDir info in
  if excluded && negb isDir then (None, b)
  else
    match FileInfoHeader info with
    | Err err => (Some (Stop (Wrapped "addToBundle: could not grab header info" (WalParsing err))), b)
    | Ok h =>
        let h := withName h (getFileRelPath path) in
        if negb excluded && fiIsRegular info then
          let baseFile := IncrementFromFiles c !! hName h in
          let wasInBase := bool_decide (is_Some baseFile) in
          let baseTime := match baseFile with Some d => MTime d | None => zeroTime end in
          if (wasInBase || forceIncremental c) && (fiModTime info =? baseTime) then
            (None, ask b (ActSkip h info))
          else
            let isIncremented :=
              bool_decide (is_Some (IncrementFromLsn c)) && (wasInBase || forceIncremental c)
              && isPagedFile (fiIsDir info) (fiSize info) path in
            (None, ask b (ActFile (NewComposeFileInfo path info wasInBase isIncremented h)))
        else
          (if excluded && isDir then Some SkipDir else None, ask b (ActHeader h info))
    end.

(** The system calls. *)
Variable Lstat : string -> res osError FileInfo.
(** The names in a directory, sorted. *)
Variable readDirNames : string -> res osError (list string).
Variable ReadDir : string -> res osError (list FileInfo).
Variable Readlink : string -> option string.

Section Handle.
(** [filepath.Walk] with this handler. *)
Variable Walk : string -> Bundle -> option walkStop * Bundle.

Fixpoint walkTablespaces (path : string) (tablespaceInfos : list FileInfo) (b : Bundle) : option pgError * Bundle :=
  match tablespaceInfos with
  | [] => (None, b)
  | tablespaceInfo :: tablespaceInfos =>
      if bool_decide (fiMode tablespaceInfo = ModeSymlink) then
        let symlinkName := fiName tablespaceInfo in
        match Readlink (Join path symlinkName) with
        | None => (Some (External "could not read symlink for tablespace"), b)
        | Some actualPath =>
            let b := withTablespaces b (addTablespace (bundleTablespaces b) symlinkName actualPath) in
            match Walk actualPath b with
            | (Some _, b) => (Some (External "could not walk tablespace symlink tree error"), b)
            | (None, b) => walkTablespaces path tablespaceInfos b
            end
        end
      else walkTablespaces path tablespaceInfos b
  end.

Definition readTablespaces (path : string) (b : Bundle) : option pgError * Bundle :=
  if bool_decide (Base path = TablespaceFolder) then
    match ReadDir path with
    | Err _ => (Some (External "could not read directory structure in pg_tblspc"), b)
    | Ok tablespaceInfos => walkTablespaces path tablespaceInfos b
    end
  else (None, b).

Definition HandleWalkedFSObject (path : string) (info : res osError FileInfo) (b : Bundle) : option walkStop * Bundle :=
  match info with
  | Err NotExist => (None, b)
  | Err OsError => (Some (Stop (External "HandleWalkedFSObject: walk failed")), b)
  | Ok info =>
      match makeTablespaceSymlinkPath (bundleTablespaces b) path with
      | Err err => (Some (Stop (Wrapped "could not make symlink path for location" (WalParsing err))), b)
      | Ok path =>
          match isTablespaceSymlink (bundleTablespaces b) path with
          | Err err => (Some (Stop (Wrapped "could not check whether path is symlink or not" (WalParsing err))), b)
          | Ok true => (None, b)
          | Ok false =>
              match readTablespaces path b with
              | (Some err, b) => (Some (Stop err), b)
              | (None, b) =>
                  if bool_decide (fiName info = PgControl) then (None, withSentinel b info path)
                  else match addToBundle path info b with
                       | (Some (Stop err), b) => (Some (Stop (Wrapped "HandleWalkedFSObject: handle tar failed" err)), b)
                       | stop => stop
                       end
              end
          end
      end
  end.
End Handle.

(** ** [filepath.Walk] *)

Definition skipped (x : option walkStop * Bundle) : option walkStop * Bundle :=
  match x with (Some SkipDir, b) => (None, b) | x => x end.

(** The objects below a directory, by [walk] on each. *)
Fixpoint walkNames (walk : string -> FileInfo -> Bundle -> option walkStop * Bundle)
    (fn : string -> res osError FileInfo -> Bundle -> option walkStop * Bundle)
    (path : string) (names : list string) (b : Bundle) : option walkStop * Bundle :=
  match names with
  | [] => (None, b)
  | name :: names =>
      let filename := Join path name in
      match Lstat filename with
      | Err err =>
          match fn filename (Err err) b with
          | (Some (Stop err), b) => (Some (Stop err), b)
          | (_, b) => walkNames walk fn path names b
          end
      | Ok info =>
          match walk filename info b with
          | (None, b) => walkNames walk fn path names b
          | (Some SkipDir, b) => if fiIsDir info then walkNames walk fn path names b else (Some SkipDir, b)
          | stop => stop
          end
      end
  end.

(** Directories [fuel] deep at most; a tablespace counts as one step down. *)
Fixpoint walk (fuel : nat) (path : string) (info : FileInfo) (b : Bundle) : option walkStop * Bundle :=
  match fuel with
  | O => (Some (Stop (WalParsing ErrNoProgress)), b)
  | S fuel =>
      let Walk root b :=
        match Lstat root with
        | Err err => skipped (HandleWalkedFSObject (fun _ b => (None, b)) root (Err err) b)
        | Ok info => skipped (walk fuel root info b)
        end in
      let fn := HandleWalkedFSObject Walk in
      if negb (fiIsDir info) then fn path (Ok info) b
      else match readDirNames path with
           | Err err => fn path (Err err) b
           | Ok names =>
               match fn path (Ok info) b with
               | (Some stop, b) => (Some stop, b)
               | (None, b) => walkNames (walk fuel) fn path names b
               end
           end
  end.

Definition Walk (fuel : nat) (root : string) (b : Bundle) : option walkStop * Bundle :=
  match Lstat root with
  | Err err => skipped (HandleWalkedFSObject (fun _ b => (None, b)) root (Err err) b)
  | Ok info => skipped (walk fuel root info b)
  end.

(** ** The archives that are not composed *)

(** [io.LimitedReader] *)
Record limitedReader (F : Type) := mkLimited { limSource : F; limLeft : nat }.
Arguments mkLimited {F}.
Arguments limSource {F}.
Arguments limLeft {F}.

#[export] Instance limitedReader_Reader {F} `{Reader F} : Reader (limitedReader F) := fun l n =>
  if (limLeft l =? 0)%nat then ([], Some EOF, l)
  else let '(bs, e, source) := Read (limSource l) (Nat.min n (limLeft l)) in
       (bs, e, mkLimited source (limLeft l - length bs)).

Context {F : Type} `{Reader F}.
Variable copyFuel : nat.
Variable open : string -> option F.

(** The file is read up to the size it had in the walk. *)
Definition copyPgControl (path : string) (info : FileInfo) (h : Header) (tb : TarBall) : res pgError TarBall :=
  if fiIsRegular info then
    match open path with
    | None => Err (External "UploadPgControl: failed to open file")
    | Some file =>
        let '(bs, rerr, _) := ReadAll copyFuel (mkLimited file (Z.to_nat (hSize h))) in
        match writer tb with
        | None => Err Panic
        | Some w =>
            let '(werr, w) := WriteEntry w bs in
            match werr, rerr with
            | Some err, _ | None, Some err => Err (Wrapped "UploadPgControl: copy failed" (WalParsing err))
            | None, None => Ok (AddSize (withWriter tb w) (hSize h))
            end
        end
    end
  else Ok tb.

(** The sentinel is nil when the walk has not met [pg_control]. *)
Definition UploadPgControl (compressorFileExtension : string) (b : Bundle) (q : TarBallQueue) : res pgError TarBallQueue :=
  match Sentinel b with
  | None => Err Panic
  | Some (info, path) =>
      let '(tb, q) := NewTarBall q in
      let tb := SetUp compressorFileExtension tb ["pg_control.tar." +s compressorFileExtension] in
      match FileInfoHeader info with
      | Err err => Err (Wrapped "UploadPgControl: failed to grab header info" (WalParsing err))
      | Ok h =>
          let h := withName h (getFileRelPath path) in
          match writer tb with
          | None => Err Panic
          | Some w =>
              w ← res_map_err (fun err => Wrapped "UploadPgControl: failed to write header" (WalParsing err)) (WriteHeader w h);
              tb ← copyPgControl path info h (withWriter tb w);
              match CloseTarball q tb with
              | (Some err, _) => Err (Wrapped "UploadPgControl: failed to close tarball" (WalParsing err))
              | (None, q) => Ok q
              end
          end
      end
  end.

(** What [stopBackup] of the query runner gives: the contents of the two files
    and the LSN. *)
Record stoppedBackup := mkStopped { bkLabel : list byte; bkOffsetMap : list byte; bkLsn : Z }.

Definition labelHeader (name : string) (content : list byte) : Header :=
  mkHeader name ModeRegular (Z.of_nat (length content)).

Definition uploadLabelFiles (extension : string) (stopBackup : res pgError stoppedBackup) (isTablespaceMapExists : bool)
    (q : TarBallQueue) : res pgError (string * list string * Z * TarBallQueue) :=
  stopped ← res_map_err (Wrapped "UploadLabelFiles: failed to stop backup") stopBackup;
  if negb isTablespaceMapExists then Ok ("", [], bkLsn stopped, q)
  else
    let '(tb, q) := NewTarBall q in
    let tb := SetUp extension tb [] in
    match PackFileTo tb (labelHeader BackupLabelFilename (bkLabel stopped)) (bkLabel stopped, None) with
    | (Err err, _) => Err (Wrapped "UploadLabelFiles: failed to put backup_label to tar" (WalParsing err))
    | (Ok _, tb) =>
        match PackFileTo tb (labelHeader TablespaceMapFilename (bkOffsetMap stopped)) (bkOffsetMap stopped, None) with
        | (Err err, _) => Err (Wrapped "UploadLabelFiles: failed to put tablespace_map to tar" (WalParsing err))
        | (Ok _, tb) =>
            match CloseTarball q tb with
            | (Some err, _) => Err (Wrapped "UploadLabelFiles: failed to close tarball" (WalParsing err))
            | (None, q) => Ok (tbName tb, [TablespaceMapFilename; BackupLabelFilename], bkLsn stopped, q)
            end
        end
    end.
End Bundle.
