(* ===== verification/BundleSpec.v ===== *)
(** * What the walk asks for

    A data directory is a tree ([tree]) that the system calls show ([holds]).
    On one without tablespaces the walk visits every object that is not below
    an excluded directory, in order, and asks of the composer what
    [object_actions] says of it. *)

From stdpp Require Import gmap strings.
From S2P Require Import Prelude GoIO GoSort WalRecord WalPage WalFile PagedFile GoFS.
From S2P Require Import GoStrings GoPath GoFilepath Timeline DeltaMap IncPages Tablespace Unwrap TarQueue BundleFiles Packer Composer.
From S2P Require Import PageVerify QueueSpec ComposerSpec ComposerRegular Bundle.
Open Scope Z_scope.

(** ** Trees *)

Inductive tree := Node (info : FileInfo) (children : list (string * tree)).

Definition rootInfo (t : tree) : FileInfo := match t with Node info _ => info end.

Fixpoint height (t : tree) : nat :=
  match t with Node _ children => S (foldr (fun ch n => Nat.max (height ch.2) n) 0%nat children) end.

Definition excludedName (info : FileInfo) : bool := bool_decide (fiName info ∈ ExcludedFilenames).
Definition isPgControl (info : FileInfo) : bool := bool_decide (fiName info = PgControl).

(** The objects that are visited, by the elements of their paths. *)
Fixpoint visits (rel : list string) (t : tree) : list (list string * FileInfo) :=
  match t with
  | Node info children =>
      (rel, info) :: if excludedName info && fiIsDir info then []
                     else concat ((fun ch => visits (rel ++ [ch.1]) ch.2) <$> children)
  end.

(** Names are those of the objects, each once; there are no sockets among
    what is backed up, and no links in [pg_tblspc]. *)
Inductive proper : list string -> tree -> Prop :=
| proper_node es info children :
    (fiMode info = ModeSocket -> excludedName info = true \/ isPgControl info = true) ->
    NoDup children.*1 ->
    (last es = Some TablespaceFolder -> fiIsDir info = true /\ Forall (fun ch => fiMode (rootInfo ch.2) <> ModeSymlink) children) ->
    Forall (fun ch => simple ch.1 = true /\ fiName (rootInfo ch.2) = ch.1 /\ proper (es ++ [ch.1]) ch.2) children ->
    proper es (Node info children).

Lemma height_child info children ch n : ch ∈ children -> (height (Node info children) <= S n)%nat -> (height ch.2 <= n)%nat.
Proof.
  cbn [height]. intros Hin Hle. apply le_S_n in Hle. revert Hle.
  induction Hin as [|ch' x l Hin IH]; cbn [foldr]; lia.
Qed.

Section Walk.
Variable c : BundleConfig.
Variable ds : list string.
Hypothesis Hdir : Directory c = absPath ds.
Hypothesis Hds : ds <> [].
Hypothesis Hsimple : Forall (fun e => simple e = true) ds.
Variable Lstat : string -> res osError FileInfo.
Variable readDirNames : string -> res osError (list string).
Variable ReadDir : string -> res osError (list FileInfo).
Variable Readlink : string -> option string.

(** The system calls show the tree. *)
Inductive holds : list string -> tree -> Prop :=
| holds_node es info children :
    Lstat (absPath es) = Ok info ->
    (if fiIsDir info then readDirNames (absPath es) = Ok children.*1 /\
       ReadDir (absPath es) = Ok (rootInfo ∘ snd <$> children) else children = []) ->
    Forall (fun ch => holds (es ++ [ch.1]) ch.2) children ->
    holds es (Node info children).

(** *** One object *)

Definition relName (rel : list string) : string := match rel with [] => "/" | _ => absPath rel end.

(** It is in the base backup with the same time. *)
Definition unchanged (name : string) (info : FileInfo) : bool :=
  match IncrementFromFiles c !! name with
  | Some d => fiModTime info =? MTime d
  | None => forceIncremental c && (fiModTime info =? zeroTime)
  end.

Definition object_actions (v : list string * FileInfo) : list action :=
  let '(rel, info) := v in
  let name := relName rel in
  let path := absPath (ds ++ rel) in
  let h size := mkHeader name (fiMode info) size in
  if isPgControl info then []
  else if excludedName info then (if fiIsDir info then [ActHeader (h 0) info] else [])
  else if fiIsRegular info then
    if unchanged name info then [ActSkip (h (fiSize info)) info]
    else
      let wasInBase := bool_decide (is_Some (IncrementFromFiles c !! name)) in
      let isIncremented := bool_decide (is_Some (IncrementFromLsn c)) && (wasInBase || forceIncremental c)
                           && isPagedFile false (fiSize info) path in
      [ActFile (mkComposeFileInfo path info wasInBase (h (fiSize info)) isIncremented)]
  else [ActHeader (h 0) info].

Definition visit (b : Bundle) (v : list string * FileInfo) : Bundle :=
  mkBundle (if isPgControl v.2 then Some (v.2, absPath (ds ++ v.1)) else Sentinel b) (bundleTablespaces b)
    (asked b ++ object_actions v).

(** Nothing is known of tablespaces. *)
Definition plain (b : Bundle) : Prop := bundleTablespaces b = NewTablespaceSpec (Directory c).

Lemma plain_visit b v : plain b -> plain (visit b v).
Proof. done. Qed.

Lemma plain_visits vs : forall b, plain b -> plain (foldl visit b vs).
Proof. induction vs as [|v vs IH]; intros b Hb; [done|]. cbn. by apply IH, plain_visit. Qed.

Lemma basePrefix_plain b : plain b -> basePrefix (bundleTablespaces b) = absPath ds.
Proof. unfold plain. intros ->. unfold NewTablespaceSpec, setBasePrefix. cbn. rewrite Hdir. by apply NormalizePath_absPath. Qed.

Lemma isTablespaceSymlink_plain b path : plain b -> isTablespaceSymlink (bundleTablespaces b) path = Ok false.
Proof.
  intros Hb. unfold isTablespaceSymlink, BasePrefix. rewrite (basePrefix_plain b Hb).
  rewrite bool_decide_eq_false_2 by by destruct ds. unfold plain in Hb. rewrite Hb. unfold tablespaceLocations.
  cbn. by rewrite map_to_list_empty.
Qed.

Definition stops (info : FileInfo) : option walkStop :=
  if excludedName info && fiIsDir info && negb (isPgControl info) then Some SkipDir else None.

Lemma excluded_not_control info : excludedName info = true -> isPgControl info = false.
Proof.
  unfold excludedName, isPgControl. intros E%bool_decide_eq_true. apply bool_decide_eq_false_2. intros Hn. rewrite Hn in E.
  by apply (bool_decide_eq_true_2 _) in E.
Qed.

Lemma addToBundle_spec rel info b : Forall (fun e => simple e = true) rel -> isPgControl info = false ->
  (fiMode info = ModeSocket -> excludedName info = true) ->
  addToBundle c (absPath (ds ++ rel)) info b = (stops info, visit b (rel, info)).
Proof.
  intros Hrel Hpg Hsock. unfold addToBundle, visit, object_actions, stops. cbn [fst snd]. rewrite Hpg.
  fold (excludedName info).
  assert (getFileRelPath c (absPath (ds ++ rel)) = relName rel) as Hname.
  { unfold getFileRelPath. rewrite Hdir. apply GetSubdirectoryRelativePath_below. by apply Forall_app. }
  rewrite Hname. unfold fiIsDir, fiIsRegular, FileInfoHeader in *. destruct (excludedName info) eqn:Eex; cbn [andb negb].
  - destruct (fiMode info) eqn:Em; rewrite ?bool_decide_eq_false_2, ?bool_decide_eq_true_2 by done; cbn [negb andb].
    all: rewrite ?app_nil_r; by destruct b.
  - assert (fiMode info <> ModeSocket) as Hns by (intros E; by specialize (Hsock E)).
    destruct (fiMode info) eqn:Em; [|by rewrite ?bool_decide_eq_false_2 by done..|done].
    rewrite (bool_decide_eq_true_2 (ModeRegular = ModeRegular)), ?(bool_decide_eq_false_2 (ModeRegular = ModeDir)) by done. cbn [withName hName hMode hSize].
    unfold unchanged. destruct (IncrementFromFiles c !! relName rel) as [d|].
    + rewrite bool_decide_eq_true_2 by done. cbn [orb andb]. by destruct (fiModTime info =? MTime d).
    + rewrite bool_decide_eq_false_2 by (intros [? [=]]). cbn [orb].
      by destruct (forceIncremental c && (fiModTime info =? zeroTime)).
Qed.

(** *** The walk *)

Lemma walkTablespaces_none Walk path infos b : Forall (fun info => fiMode info <> ModeSymlink) infos ->
  walkTablespaces Readlink Walk path infos b = (None, b).
Proof.
  induction 1 as [|info infos Hi Hl IH]; [done|]. cbn [walkTablespaces]. by rewrite bool_decide_eq_false_2.
Qed.

Lemma Handle_visit Walk rel info children b : plain b -> Forall (fun e => simple e = true) rel ->
  holds (ds ++ rel) (Node info children) -> proper (ds ++ rel) (Node info children) ->
  HandleWalkedFSObject c ReadDir Readlink Walk (absPath (ds ++ rel)) (Ok info) b = (stops info, visit b (rel, info)).
Proof.
  intros Hb Hrel Hh Hp. inversion Hh as [es info' ch Hl Hdirs Hch]; subst. inversion Hp as [es info' ch Hsock Hnd Hlink Hpc]; subst.
  unfold HandleWalkedFSObject.
  rewrite (makeTablespaceSymlinkPath_below _ ds rel); [|by apply basePrefix_plain|done|by apply Forall_app].
  rewrite isTablespaceSymlink_plain by done.
  assert (readTablespaces ReadDir Readlink Walk (absPath (ds ++ rel)) b = (None, b)) as ->.
  { unfold readTablespaces. case_bool_decide as Hbase; [|done].
    assert (exists es e, ds ++ rel = es ++ [e] /\ simple e = true) as (es & e & E & He).
    { destruct (exists_last (l := ds ++ rel)) as (es & e & E); [by destruct ds|]. exists es, e. split; [exact E|].
      assert (Forall (fun e => simple e = true) (ds ++ rel)) as Hall by by apply Forall_app.
      rewrite E in Hall. apply Forall_app in Hall as [_ Hall]. by apply Forall_cons in Hall as [? _]. }
    rewrite E in Hbase, Hlink. rewrite Base_absPath in Hbase by done. subst e. rewrite last_snoc in Hlink.
    destruct (Hlink eq_refl) as [Hd Hl']. rewrite Hd in Hdirs. rewrite E in Hdirs. destruct Hdirs as [_ Hdirs].
    rewrite E, Hdirs. apply walkTablespaces_none. by apply Forall_fmap. }
  destruct (isPgControl info) eqn:Epg.
  - unfold isPgControl in Epg. rewrite Epg. unfold stops, visit. cbn [fst snd]. unfold isPgControl, object_actions. rewrite Epg.
    unfold isPgControl. rewrite Epg. by rewrite andb_false_r, app_nil_r.
  - change (bool_decide (fiName info = PgControl)) with (isPgControl info). rewrite Epg.
    rewrite addToBundle_spec; [|done|done|by intros Hs; destruct (Hsock Hs)]. unfold stops. by destruct (_ && _).
Qed.

Notation walk := (walk c Lstat readDirNames ReadDir Readlink).

Lemma stops_dir info : stops info = Some SkipDir \/ stops info = None.
Proof. unfold stops. destruct (_ && _); auto. Qed.

Lemma stops_skip info : stops info = Some SkipDir -> fiIsDir info = true.
Proof. unfold stops. destruct (_ && _) eqn:E; [|done]. by bool_to_prop. Qed.

Lemma stops_excluded info : stops info = if excludedName info && fiIsDir info then Some SkipDir else None.
Proof.
  unfold stops. destruct (excludedName info) eqn:E; [|done]. rewrite (excluded_not_control _ E). by rewrite andb_true_r.
Qed.

(** The children of a directory, when [walk] does what it should on each. *)
Lemma walkNames_visits fuel fn rel children : forall b,
  Forall (fun e => simple e = true) rel -> plain b ->
  Forall (fun ch => holds ((ds ++ rel) ++ [ch.1]) ch.2) children ->
  Forall (fun ch => simple ch.1 = true /\ fiName (rootInfo ch.2) = ch.1 /\ proper ((ds ++ rel) ++ [ch.1]) ch.2) children ->
  (forall ch b, ch ∈ children -> plain b ->
     walk fuel (absPath (ds ++ rel ++ [ch.1])) (rootInfo ch.2) b =
       (stops (rootInfo ch.2), foldl visit b (visits (rel ++ [ch.1]) ch.2))) ->
  walkNames Lstat (walk fuel) fn (absPath (ds ++ rel)) children.*1 b =
    (None, foldl visit b (concat ((fun ch => visits (rel ++ [ch.1]) ch.2) <$> children))).
Proof.
  induction children as [|[name t] children IH]; intros b Hrel Hb Hh Hp Hw; [done|].
  apply Forall_cons in Hh as [Hht Hh]. apply Forall_cons in Hp as [(Hs & Hn & Hpt) Hp]. cbn in Hs, Hn, Hht, Hpt.
  cbn [fmap list_fmap walkNames fst snd concat].
  rewrite Join_absPath by (first [done|by destruct ds|by apply Forall_app]). rewrite <- !app_assoc in *.
  assert (Lstat (absPath (ds ++ rel ++ [name])) = Ok (rootInfo t)) as ->.
  { by inversion Hht; subst. }
  pose proof (Hw (name, t) b ltac:(by left) Hb) as Hwt. cbn [fst snd] in Hwt. rewrite Hwt, foldl_app.
  assert (walkNames Lstat (walk fuel) fn (absPath (ds ++ rel)) children.*1 (foldl visit b (visits (rel ++ [name]) t)) =
    (None, foldl visit (foldl visit b (visits (rel ++ [name]) t))
       (concat ((fun ch => visits (rel ++ [ch.1]) ch.2) <$> children)))) as Hrest.
  { apply IH; [done|by apply plain_visits|exact Hh|exact Hp|].
    intros ch b' Hin. apply Hw. by right. }
  destruct (stops_dir (rootInfo t)) as [E| E]; rewrite E; [rewrite (stops_skip _ E)|]; exact Hrest.
Qed.

Lemma walk_visits fuel : forall rel t b, (height t <= fuel)%nat -> plain b -> Forall (fun e => simple e = true) rel ->
  holds (ds ++ rel) t -> proper (ds ++ rel) t ->
  walk fuel (absPath (ds ++ rel)) (rootInfo t) b = (stops (rootInfo t), foldl visit b (visits rel t)).
Proof.
  induction fuel as [|fuel IH]; intros rel [info children] b Hf Hb Hrel Hh Hp; [cbn in Hf; lia|].
  cbn [Bundle.walk rootInfo visits]. set (WalkFn := fun (root : string) (b : Bundle) => _).
  pose proof (Handle_visit WalkFn rel info children b Hb Hrel Hh Hp) as Hv.
  inversion Hh as [es info' ch Hl Hdirs Hch]; subst. inversion Hp as [es info' ch Hsock Hnd Hlink Hpc]; subst.
  rewrite stops_excluded in Hv |- *. destruct (fiIsDir info) eqn:Ed; cbn [negb].
  - destruct Hdirs as [-> _]. rewrite Hv. rewrite andb_true_r. destruct (excludedName info) eqn:Eex; [done|].
    rewrite (walkNames_visits fuel) ; [done|done|by apply plain_visit|exact Hch|exact Hpc|].
    intros ch b' Hin Hb'. rewrite Forall_forall in Hch, Hpc. destruct (Hpc ch Hin) as (Hs & _ & Hpt).
    apply IH; [by eapply height_child|done|by apply Forall_app; split; [|constructor]| |].
    + rewrite app_assoc. by apply Hch.
    + by rewrite app_assoc.
  - rewrite Hv, andb_false_r. subst children. done.
Qed.

(** What is asked of the composer, and where [pg_control] is. *)
Definition walk_actions (t : tree) : list action := visits [] t ≫= object_actions.

Lemma foldl_visit vs : forall b, bundleTablespaces (foldl visit b vs) = bundleTablespaces b /\
  asked (foldl visit b vs) = asked b ++ (vs ≫= object_actions) /\
  Sentinel (foldl visit b vs) = from_option (fun v => Some (v.2, absPath (ds ++ v.1))) (Sentinel b)
    (last (List.filter (fun v => isPgControl v.2) vs)).
Proof.
  induction vs as [|v vs IH]; intros b; [by rewrite app_nil_r|]. cbn [foldl].
  destruct (IH (visit b v)) as (-> & -> & ->). cbn [visit bundleTablespaces asked Sentinel mbind list_bind List.filter].
  rewrite <- app_assoc. split; [done|]. split; [done|]. destruct (isPgControl v.2); [|done].
  destruct (List.filter _ vs) as [|v' l]; [done|]. rewrite last_cons_cons. by destruct (last (v' :: l)) eqn:E; [|apply last_None in E].
Qed.

Lemma Walk_ok fuel t : (height t <= fuel)%nat -> holds ds t -> proper ds t ->
  Walk c Lstat readDirNames ReadDir Readlink fuel (absPath ds) (newBundle c) =
    (None, foldl visit (newBundle c) (visits [] t)).
Proof.
  intros Hf Hh Hp. unfold Walk. assert (Lstat (absPath ds) = Ok (rootInfo t)) as -> by by inversion Hh; subst.
  pose proof (walk_visits fuel [] t (newBundle c) Hf) as Hw. rewrite app_nil_r in Hw.
  rewrite Hw; [|done|done|done|done]. unfold skipped. by destruct (stops_dir (rootInfo t)) as [-> | ->].
Qed.
End Walk.

(** ** The names *)

Lemma elem_of_concat {A} (x : A) ls : x ∈ concat ls <-> exists l, l ∈ ls /\ x ∈ l.
Proof. rewrite list_elem_of_In, in_concat. by setoid_rewrite list_elem_of_In. Qed.

Section Names.
Context {c : BundleConfig} {ds : list string}.

Lemma visits_below n : forall rel es t v, (height t <= n)%nat -> proper es t -> v ∈ visits rel t ->
  exists s, v.1 = rel ++ s /\ Forall (fun e => simple e = true) s.
Proof.
  induction n as [|n IH]; intros rel es [info children] v Hn Hp Hv; [cbn in Hn; lia|].
  inversion Hp as [es' info' ch _ _ _ Hpc]; subst. cbn [visits] in Hv.
  apply elem_of_cons in Hv as [->|Hv]; [exists []; by rewrite app_nil_r|].
  destruct (_ && _); [by apply elem_of_nil in Hv|].
  apply elem_of_concat in Hv as (l & Hl & Hv). apply list_elem_of_fmap in Hl as (ch & -> & Hin).
  rewrite Forall_forall in Hpc. destruct (Hpc ch Hin) as (Hs & _ & Hpt).
  destruct (IH (rel ++ [ch.1]) _ ch.2 v (height_child _ _ _ _ Hin Hn) Hpt Hv) as (s & -> & Hss).
  exists (ch.1 :: s). split; [by rewrite <- app_assoc|by constructor].
Qed.

Lemma NoDup_concat_below {A} (f : string * tree -> list (list string * A)) rel children :
  NoDup children.*1 -> (forall ch, ch ∈ children -> NoDup (f ch).*1) ->
  (forall ch v, ch ∈ children -> v ∈ f ch -> exists s, v.1 = rel ++ ch.1 :: s) ->
  NoDup (concat (f <$> children)).*1.
Proof.
  induction children as [|ch children IH]; intros Hnd Hf Hb; [constructor|].
  cbn [fmap list_fmap] in *. apply NoDup_cons in Hnd as [Hni Hnd]. cbn [concat]. rewrite fmap_app.
  apply NoDup_app. split; [apply Hf; by left|]. split; [|apply IH; [done| |]; intros; [apply Hf|eapply Hb]; eauto; by right].
  intros r Hr Hr'. apply list_elem_of_fmap in Hr as (v & -> & Hv). apply list_elem_of_fmap in Hr' as (v' & E & Hv').
  apply elem_of_concat in Hv' as (l & Hl & Hv'). apply list_elem_of_fmap in Hl as (ch' & -> & Hin').
  destruct (Hb ch v) as [s Es]; [by left|done|]. destruct (Hb ch' v') as [s' Es']; [by right|done|].
  rewrite E, Es' in Es. apply app_inv_head in Es as [= Ech _]. apply Hni. rewrite <- Ech. by apply list_elem_of_fmap_2.
Qed.

Lemma visits_nodup n : forall rel es t, (height t <= n)%nat -> proper es t -> NoDup (visits rel t).*1.
Proof.
  induction n as [|n IH]; intros rel es [info children] Hn Hp; [cbn in Hn; lia|].
  inversion Hp as [es' info' ch _ Hnd _ Hpc]; subst. cbn [visits fmap list_fmap fst]. rewrite Forall_forall in Hpc.
  assert (forall ch v, ch ∈ children -> v ∈ visits (rel ++ [ch.1]) ch.2 -> exists s, v.1 = rel ++ ch.1 :: s) as Hb.
  { intros ch v Hin Hv. destruct (Hpc ch Hin) as (_ & _ & Hpt).
    destruct (visits_below n (rel ++ [ch.1]) _ ch.2 v (height_child _ _ _ _ Hin Hn) Hpt Hv) as (s & -> & _).
    exists s. by rewrite <- app_assoc. }
  destruct (_ && _); [by apply NoDup_singleton|]. apply NoDup_cons. split.
  - intros Hr. apply list_elem_of_fmap in Hr as (v & E & Hv). apply elem_of_concat in Hv as (l & Hl & Hv).
    apply list_elem_of_fmap in Hl as (ch & -> & Hin). destruct (Hb ch v Hin Hv) as [s Es].
    rewrite Es in E. apply (f_equal length) in E. rewrite length_app in E. cbn in E. lia.
  - apply (NoDup_concat_below _ rel); [done| |done].
    intros ch Hin. destruct (Hpc ch Hin) as (_ & _ & Hpt). eapply IH; [by eapply height_child|exact Hpt].
Qed.

Lemma relName_inj r r' : Forall (fun e => simple e = true) r -> Forall (fun e => simple e = true) r' ->
  relName r = relName r' -> r = r'.
Proof.
  intros Hr Hr' E. destruct r as [|e r], r' as [|e' r']; cbn [relName] in E; [done| | |by apply absPath_inj].
  - exfalso. apply Forall_cons in Hr' as [(Hne & _)%simple_ok _]. injection E as E. by destruct e'.
  - exfalso. apply Forall_cons in Hr as [(Hne & _)%simple_ok _]. injection E as E. by destruct e.
Qed.

(** Each object is asked for once at most, under its own name. *)
Lemma object_action v a : a ∈ object_actions c ds v -> object_actions c ds v = [a] /\ act_name a = relName v.1.
Proof.
  destruct v as [rel info]. unfold object_actions. cbn [fst].
  repeat (case_match; try by intros ?%elem_of_nil); intros ->%list_elem_of_singleton; done.
Qed.

Lemma walk_names vs : NoDup vs.*1 -> (forall v, v ∈ vs -> Forall (fun e => simple e = true) v.1) ->
  NoDup (act_name <$> (vs ≫= object_actions c ds)).
Proof.
  induction vs as [|v vs IH]; intros Hnd Hs; [constructor|]. cbn [mbind list_bind]. rewrite fmap_app.
  cbn [fmap list_fmap] in Hnd. apply NoDup_cons in Hnd as [Hni Hnd].
  apply NoDup_app. split; [|split; [|apply IH; [done|]; intros v' Hv; apply Hs; by right]].
  - destruct (object_actions c ds v) as [|a l] eqn:E; [constructor|].
    destruct (object_action v a) as [E' _]; [rewrite E; by left|]. rewrite E in E'. injection E' as ->. apply NoDup_singleton.
  - intros name Hn Hn'. apply list_elem_of_fmap in Hn as (a & -> & Ha).
    destruct (object_action v a Ha) as [_ Ea]. apply list_elem_of_fmap in Hn' as (a' & E & Ha').
    apply list_elem_of_bind in Ha' as (v' & Ha' & Hv'). destruct (object_action v' a' Ha') as [_ Ea'].
    rewrite Ea, Ea' in E. apply relName_inj in E; [|apply Hs; by left|apply Hs; by right].
    apply Hni. rewrite E. by apply list_elem_of_fmap_2.
Qed.

Lemma walk_nodup t : proper ds t -> NoDup (act_name <$> walk_actions c ds t).
Proof.
  intros Hp. apply walk_names; [by eapply visits_nodup|]. intros v Hv.
  destruct (visits_below (height t) [] ds t v) as (s & -> & Hs); done.
Qed.

Lemma walk_headers t : headers_empty (walk_actions c ds t).
Proof.
  intros h info Hin. apply list_elem_of_bind in Hin as ([rel info'] & Hin & _). unfold object_actions in Hin.
  repeat (case_match; try by apply elem_of_nil in Hin); apply list_elem_of_singleton in Hin; by simplify_eq.
Qed.
End Names.
