(* ===== verification/BackupPush.v ===== *)
(** * Making a backup

    [src/internal/databases/postgres/backup_push_handler.go]: which backup the
    new one is an increment of, the guards before it, the archives that follow
    those of the composer, and what is written at the end - the marks of the
    bases of a permanent increment, the metadata, the sentinel. What exits the
    process is an error. Backups streamed over a connection are not part of
    the model; answers of Postgres and the clock are arguments. *)

From stdpp Require Import gmap strings relations.
From S2P Require Import Prelude GoIO GoSort WalRecord WalPage WalFile PagedFile GoFS.
From S2P Require Import GoStrings GoPath GoFilepath Timeline Storage DeltaMap Backups BackupMeta BackupMark IncPages Tablespace Unwrap.
From S2P Require Import TarQueue BundleFiles Packer Composer Bundle.
Open Scope Z_scope.

Definition backupFromFuture (backupName : string) : pgError :=
  External ("Finish LSN of backup " +s backupName +s " greater than current LSN").
Definition backupFromOtherBD : pgError := External "Current database and database of base backup are not equal.".

(** [maxDeltas] and the origin, when it is set. *)
Definition getDeltaConfig (maxDeltas : Z) (origin : option string) : res pgError (Z * bool) :=
  match origin with
  | None => Ok (maxDeltas, false)
  | Some origin =>
      if bool_decide (origin = LatestString) then Ok (maxDeltas, false)
      else if bool_decide (origin = "LATEST_FULL") then Ok (maxDeltas, true)
      else Err (External "Unknown delta origin")
  end.

Section Push.
Context {UserData : Type} {Folder : Type} `{!BackupFolder Folder} `{!ObjectStore Folder}
  `{!ListedStore Folder} `{!Json (BackupSentinelDto SentinelFiles UserData)} `{!Json (ExtendedMetadataDto UserData)}.
Notation Sentinel := (BackupSentinelDto SentinelFiles UserData).
Notation Extended := (ExtendedMetadataDto UserData).
(** The zero value of the user data. *)
Variable noUserData : UserData.

Definition emptySentinel : Sentinel :=
  mkSentinel None None None None None (mkSentinelFiles ∅ ∅ None) 0 None None 0 0 noUserData.

Record PrevBackupInfo := mkPrevBackup { prevName : string; prevSentinel : Sentinel }.

Definition noBackup : PrevBackupInfo := mkPrevBackup "" emptySentinel.

(** ** The base of the new backup *)

(** The increment count, and the base; [folder] is the folder of the backups
    and [selected] what the selector says. *)
Definition configureDeltaBackup (maxDeltas : Z) (fromFull isPermanent : bool) (selected : res pgError string)
    (folder : Folder) : res pgError (Z * PrevBackupInfo) :=
  if maxDeltas =? 0 then Ok (0, noBackup)
  else
    match selected with
    | Err NoBackupsFoundError => Ok (0, noBackup)
    | Err err => Err err
    | Ok previousBackupName =>
        prev ← FetchSentinel (Content := SentinelFiles) (UserData := UserData) folder previousBackupName;
        let incrementCount := match seIncrementCount prev with Some count => count + 1 | None => 1 end in
        if maxDeltas <? incrementCount then Ok (incrementCount, noBackup)
        else match BackupStartLSN prev with
             | None => Ok (incrementCount, noBackup)
             | Some _ =>
                 match FetchMeta (UserData := UserData) folder previousBackupName with
                 | Err _ => Ok (incrementCount, noBackup)
                 | Ok previousBackupMeta =>
                     if negb isPermanent && negb fromFull && emIsPermanent previousBackupMeta
                     then Ok (incrementCount, noBackup)
                     else if fromFull then
                       let previousBackupName := default previousBackupName (seIncrementFullName prev) in
                       prev ← FetchSentinel folder previousBackupName;
                       match BackupStartLSN prev with
                       | None => Err Panic
                       | Some _ => Ok (incrementCount, mkPrevBackup previousBackupName prev)
                       end
                     else Ok (incrementCount, mkPrevBackup previousBackupName prev)
                 end
             end
    end.

(** Whether there is a base. *)
Definition isDelta (prev : PrevBackupInfo) : bool :=
  negb (bool_decide (prevName prev = "")) && bool_decide (is_Some (BackupStartLSN (prevSentinel prev))).

(** The name of the backup, and the delta map if there is one: [loaded] is
    what [DownloadDeltaMap] gives. *)
Definition handleDeltaBackup {Map : Type} (prev : PrevBackupInfo) (systemIdentifier : option Z) (startLSN : Z)
    (useWalDelta : bool) (loaded : res pgError Map) (name : string) : res pgError (string * option Map) :=
  if negb (isDelta prev) then Ok (name, None)
  else
    match BackupFinishLSN (prevSentinel prev) with
    | None => Err Panic
    | Some finishLSN =>
        if startLSN <? finishLSN then Err (backupFromFuture (prevName prev))
        else if match seSystemIdentifier (prevSentinel prev), systemIdentifier with
                | Some theirs, Some ours => negb (ours =? theirs)
                | _, _ => false
                end
        then Err backupFromOtherBD
        else
          let deltaMap := if useWalDelta then match loaded with Ok map => Some map | Err _ => None end else None in
          Ok (name +s "_D_" +s StripWalFileName (prevName prev), deltaMap)
    end.

(** The bundle of [createAndPushBackup]. *)
Definition pushBundle (pgDataDirectory : string) (prev : PrevBackupInfo) (forceIncremental : bool) : BundleConfig :=
  NewBundle pgDataDirectory (BackupStartLSN (prevSentinel prev)) (Files (content (prevSentinel prev))) forceIncremental.

(** ** [uploadBackup] after the composer *)

Section Upload.
Context {F : Type} `{Reader F}.
Variable copyFuel : nat.
Variable open : string -> option F.
Variable c : BundleConfig.
Variable extension : string.

Record uploaded := mkUploaded { upQueue : TarBallQueue; upSets : TarFileSets; upFinishLsn : Z; upSize : Z }.

(** The queue and the result of [PackTarballs] that the composer leaves. *)
Definition finishUpload (stopBackup : res pgError stoppedBackup) (isTablespaceMapExists timelineChanged : bool)
    (b : Bundle) (q : TarBallQueue) (tarFileSets : TarFileSets) : res pgError uploaded :=
  match FinishQueue q with
  | (Some err, _) => Err (WalParsing err)
  | (None, q) =>
      q ← UploadPgControl c copyFuel open extension b q;
      '(labelFilesTarBallName, labelFilesList, finishLsn, q) ←
        uploadLabelFiles extension stopBackup isTablespaceMapExists q;
      if timelineChanged then Err (External "Cannot finish backup because of changed timeline.")
      else Ok (mkUploaded q (appendSet labelFilesTarBallName labelFilesList tarFileSets) finishLsn (AllTarballsSize q))
  end.

(** *** With the regular composer *)

Section Regular.
Context {B : Type} `{Seeker F, Bitmap B}.
Variable Lstat : string -> res osError FileInfo.
Variable readDirNames : string -> res osError (list string).
Variable ReadDir : string -> res osError (list FileInfo).
Variable Readlink : string -> option string.
Variable walkFuel scanFuel : nat.
(** The settings of the queue. *)
Variable maxUploadDiskConcurrency maxUploadQueue : nat.
Variable tarSizeThreshold : Z.

(** [RegularTarBallComposerMaker.Make] *)
Definition regularPacker (deltaMap : option (gmap RelFileNode B)) (opts : TarBallFilePackerOptions) : TarBallFilePacker B :=
  newTarBallFilePacker deltaMap (IncrementFromLsn c) opts.

(** A run of [uploadBackup] that does not end the process: the walk, a run of
    the composer for what the walk asks, and what follows. The files that are
    described and the tablespaces go to the sentinel. *)
Inductive uploadBackup (deltaMap : option (gmap RelFileNode B)) (opts : TarBallFilePackerOptions)
    (stopBackup : res pgError stoppedBackup) (isTablespaceMapExists timelineChanged : bool)
    : uploaded -> BackupFileList -> TablespaceSpec -> Prop :=
| uploadBackup_run b q comp tarFileSets u :
    Walk c Lstat readDirNames ReadDir Readlink walkFuel (Directory c) (newBundle c) = (None, b) ->
    StartQueue maxUploadDiskConcurrency maxUploadQueue (NewTarBallQueue tarSizeThreshold) = Ok q ->
    rtc (regular_step scanFuel copyFuel open extension (regularPacker deltaMap opts))
      (NewRegularTarBallComposer q (asked b)) comp ->
    regular_PackTarballs comp = Some (Ok tarFileSets) ->
    finishUpload stopBackup isTablespaceMapExists timelineChanged b (rQueue comp) tarFileSets = Ok u ->
    uploadBackup deltaMap opts stopBackup isTablespaceMapExists timelineChanged
      u (GetUnderlyingMap (rFiles comp)) (bundleTablespaces b).
End Regular.
End Upload.

(** ** Metadata and sentinel *)

Definition setupDTO (prev : PrevBackupInfo) (cur : backupInfo) (pgVersion : Z) (systemIdentifier : option Z)
    (data : UserData) (spec : TablespaceSpec) (files : BackupFileList) (tarFileSets : TarFileSets) : res pgError Sentinel :=
  let tablespaceSpec := if specEmpty spec then None else Some spec in
  NewBackupSentinelDto cur (prevName prev) (prevSentinel prev) pgVersion systemIdentifier
    (mkSentinelFiles files tarFileSets tablespaceSpec) data.

(** A permanent increment marks its bases first; an error of marking ends the
    process. [fuel] bounds the chain of bases. *)
Definition markBackups (fuel : nat) (isPermanent : bool) (prev : PrevBackupInfo) (sentinelDto : Sentinel)
    (folder : Folder) : Folder * option pgError :=
  if isPermanent then
    match IsIncremental sentinelDto with
    | Err err => (folder, Some err)
    | Ok false => (folder, None)
    | Ok true => MarkBackup (UserData := UserData) fuel (prevName prev) true folder
    end
  else (folder, None).

(** The storage is left as it is when an upload fails. *)
Definition uploadMetadata (isPermanent : bool) (dataDir : string) (startTime now : Z) (hostname : string)
    (curBackupName : string) (sentinelDto : Sentinel) (folder : Folder) : Folder * option pgError :=
  match (meta ← NewExtendedMetadataDto isPermanent dataDir startTime now hostname sentinelDto;
         UploadMetadata folder curBackupName meta) with
  | Err err => (folder, Some err)
  | Ok folder =>
      match UploadSentinel folder curBackupName sentinelDto with
      | Err err => (folder, Some err)
      | Ok folder => (folder, None)
      end
  end.

(** [createAndPushBackup] once the archives are uploaded. *)
Definition finishBackup (fuel : nat) (isPermanent : bool) (prev : PrevBackupInfo) (dataDir : string)
    (startTime now : Z) (hostname curBackupName : string) (sentinelDto : Sentinel) (folder : Folder)
    : Folder * option pgError :=
  match markBackups fuel isPermanent prev sentinelDto folder with
  | (folder, Some err) => (folder, Some err)
  | (folder, None) => uploadMetadata isPermanent dataDir startTime now hostname curBackupName sentinelDto folder
  end.
End Push.
