(* ===== verification/PushSpec.v ===== *)
(** * The archives of a backup

    What becomes of a file that is packed: the [outcome] of a file that keeps
    still while it is read is all of it, the increment that [backup-fetch] can
    apply, or nothing. Then what [finishUpload] adds to the archives of the
    composer - the one of [pg_control], which is read up to its announced size,
    and the one of the label files - and what a fetch sees of them: the regular
    files, under names of their own. *)

From stdpp Require Import gmap strings pretty.
From S2P Require Import Prelude GoIO GoSort WalRecord WalPage WalFile PagedFile GoFS.
From S2P Require Import GoStrings GoPath GoFilepath Timeline DeltaMap Backups BackupMeta IncPages IncSpec IncTheorems Tablespace Unwrap PageVerify Fetch.
From S2P Require Import TarQueue BundleFiles Packer Composer QueueSpec ComposerSpec Bundle BackupPush.
Open Scope Z_scope.

(** ** Packing a file *)

Section Pack.
Context {F : Type} `{LawfulSeeker F} {B : Type} `{BitmapLaws B}.
Variable scanFuel copyFuel : nat.
Variable open : string -> option F.
Variable packer : TarBallFilePacker B.
Notation pack_outcome := (pack_outcome scanFuel copyFuel open packer).
Implicit Types cfi : ComposeFileInfo.

(** The increment as a stream that a length can be put on. *)
Lemma reader_streams : streams reader_ok (reader_stream (F := F)).
Proof.
  intros r n Hr Hn. change (Read r n) with (readLoop (S (length (Blocks r))) r n []).
  destruct (readLoop_stream (S (length (Blocks r))) r n []) as (r' & -> & Hs & Hr' & _); [lia|done|].
  eexists _, r'. split; [done|]. split; [done|]. split; [done|].
  destruct (n <=? length (reader_stream r))%nat eqn:E; bool_to_prop; [left|right; split; [done|lia]].
  split; [done|]. intros E'. rewrite E' in E. cbn in E. lia.
Qed.

(** The whole file, as long as it was in the walk: cut, or padded with zeros,
    when it has changed since. *)
Definition asAnnounced (info : FileInfo) (bs : list byte) : list byte := resize (Z.to_nat (fiSize info)) zero bs.

Definition wholeHeader cfi : Header := withSize (cHeader cfi) (fiSize (cFileInfo cfi)).

Lemma whole_copied (f : F) size : (Z.to_nat size < copyFuel)%nat ->
  copyReader copyFuel (WholeReader (mkPadded f false (Z.to_nat size))) = (resize (Z.to_nat size) zero (avail f), None).
Proof.
  intros Hc. unfold copyReader.
  destruct (ReadAll_padded (fun _ => True) avail lawful_streams copyFuel (mkPadded f false (Z.to_nat size)))
    as [p' ->]; [by right|done|]. done.
Qed.

Lemma packed_whole cfi f : 0 <= fiSize (cFileInfo cfi) -> (Z.to_nat (fiSize (cFileInfo cfi)) < copyFuel)%nat ->
  open (cPath cfi) = Some f -> cIsIncremented cfi = false ->
  pack_outcome cfi = Some (Packed (wholeHeader cfi) (asAnnounced (cFileInfo cfi) (avail f)) false).
Proof.
  intros Hs Hc Ho Hi. unfold ComposerSpec.pack_outcome, createFileReadCloser, startReadingFile. rewrite Hi, Ho.
  cbn [mbind res_bind withSize hSize]. rewrite whole_copied by done. cbn [withIncremented cHeader hSize cIsIncremented].
  rewrite length_resize, Z2Nat.id, Z.eqb_refl by done. done.
Qed.

(** A page that is not one makes it a copy of the whole file. *)
Lemma packed_invalid cfi f bitmap lsn b : 0 <= fiSize (cFileInfo cfi) -> (Z.to_nat (fiSize (cFileInfo cfi)) < copyFuel)%nat ->
  open (cPath cfi) = Some f -> getDeltaBitmapFor packer (cPath cfi) = Ok bitmap -> incrementFromLsn packer = Some lsn ->
  ReadIncrementalFile scanFuel f (fiSize (cFileInfo cfi)) lsn bitmap = Err (InvalidBlockError b) ->
  pack_outcome cfi = Some (Packed (wholeHeader cfi) (asAnnounced (cFileInfo cfi) (avail f)) false).
Proof.
  intros Hs Hc Ho Hb Hl Hr. unfold ComposerSpec.pack_outcome, createFileReadCloser, startReadingFile.
  rewrite Ho, Hb, Hl, Hr. cbn [mbind res_bind withSize hSize].
  destruct (cIsIncremented cfi); rewrite whole_copied by done; cbn [withIncremented cHeader hSize cIsIncremented];
    by rewrite length_resize, Z2Nat.id, Z.eqb_refl.
Qed.

(** The increment of the blocks that the delta map names, or of those that a
    scan finds. *)
Lemma packed_increment cfi f new n bitmap lsn :
  let bl := numberedOf new (selected bitmap lsn new n) in
  cIsIncremented cfi = true -> open (cPath cfi) = Some f -> getDeltaBitmapFor packer (cPath cfi) = Ok bitmap ->
  incrementFromLsn packer = Some lsn ->
  pages_of new n -> Z.of_nat n < 2 ^ 30 -> bytes_of f = new -> avail f = new -> fiSize (cFileInfo cfi) = Z.of_nat (length new) ->
  readable bitmap new n scanFuel -> (length (increment n bl) < copyFuel)%nat ->
  pack_outcome cfi = Some (Packed (withSize (cHeader cfi) (Z.of_nat (length (increment n bl)))) (increment n bl) true) /\
  increment_ok n bl.
Proof.
  intros bl Hi Ho Hb Hl Hp Hn Hby Hav Hsz Hr Hc. unfold ComposerSpec.pack_outcome, createFileReadCloser.
  rewrite Hi, Hb, Hl, Ho, Hsz.
  destruct (ReadIncrementalFile_ok bitmap f new n scanFuel lsn Hp Hn Hby Hav Hr) as (r & -> & Hs & Hok & Hinc).
  fold bl in Hs, Hinc |- *. cbn [mbind res_bind]. unfold copyReader.
  destruct (ReadAll_padded reader_ok reader_stream reader_streams copyFuel
    (mkPadded r false (Z.to_nat (Z.of_nat (length (increment n bl)))))) as [p' ->];
    [by right|cbn [padLeft]; by rewrite Nat2Z.id|].
  unfold padBytes. cbn [padEnded padLeft padSource]. rewrite Hs, Nat2Z.id, resize_all.
  cbn [withIncremented cHeader withSize hSize cIsIncremented]. by rewrite Z.eqb_refl.
Qed.

Lemma packed_nothing cfi e : cIsIncremented cfi = true -> getDeltaBitmapFor packer (cPath cfi) = Err e ->
  e = NoBitmapFoundError -> pack_outcome cfi = Some Skipped_.
Proof.
  intros Hi Hb ->. unfold ComposerSpec.pack_outcome, createFileReadCloser. rewrite Hi, Hb. by rewrite bool_decide_eq_true_2.
Qed.
End Pack.

(** ** Reading up to a length *)

Lemma Read_limited {F} `{Reader F} (f : F) n k : Read (mkLimited _ f n) k =
  if (n =? 0)%nat then ([], Some EOF, mkLimited _ f n)
  else let '(bs, e, source) := Read f (Nat.min k n) in (bs, e, mkLimited _ source (n - length bs)).
Proof. done. Qed.

Lemma ReadAll_limited {F} `{LawfulReader F} fuel : forall (f : F) n, (n < fuel)%nat ->
  exists l, ReadAll fuel (mkLimited _ f n) = (take n (avail f), None, l).
Proof.
  induction fuel as [|fuel IH]; intros f n Hn; [lia|]. cbn [ReadAll].
  rewrite Read_limited.
  destruct (decide (n = 0%nat)) as [->|Hne]; [by eexists|]. rewrite (proj2 (Nat.eqb_neq n 0)) by done.
  set (k := Nat.min 512 n). assert (0 < k <= n)%nat as Hk by lia.
  destruct (decide (avail f = [])) as [E|E].
  - rewrite read_eof by (done || lia). eexists. by rewrite E, take_nil.
  - rewrite read_some by (done || lia). set (bs := take k (avail f)).
    destruct (IH (adv f (Nat.min k (length (avail f)))) (n - length bs)%nat) as [l Hl].
    { unfold bs. rewrite length_take. destruct (avail f); [done|]. cbn [length] in *. lia. }
    rewrite Hl. exists l. f_equal. f_equal. rewrite avail_adv. unfold bs. rewrite length_take.
    destruct (decide (k <= length (avail f))%nat) as [Hle|Hgt].
    + rewrite Nat.min_l by done.
      rewrite <- (take_drop k (take n (avail f))). rewrite take_take, Nat.min_l by lia. f_equal. by rewrite skipn_firstn_comm.
    + rewrite Nat.min_r by lia. rewrite drop_all, take_nil, app_nil_r. by rewrite !take_ge by lia.
Qed.

(** ** [pg_control] and the labels *)

Section Finish.
Context {F : Type} `{LawfulReader F}.
Variable c : BundleConfig.
Variable copyFuel : nat.
Variable open : string -> option F.
Variable extension : string.

Definition controlTar (h : Header) (bs : list byte) : upload := ("pg_control.tar." +s extension, [(h, bs)]).

Lemma UploadPgControl_ok b q info path f : Bundle.Sentinel b = Some (info, path) -> fiMode info = ModeRegular ->
  open path = Some f -> fiSize info = Z.of_nat (length (avail f)) -> (length (avail f) < copyFuel)%nat ->
  exists q', UploadPgControl c copyFuel open extension b q = Ok q' /\
    uploads q' = uploads q ++ [controlTar (mkHeader (getFileRelPath c path) ModeRegular (fiSize info)) (avail f)] /\
    partCount q' = S (partCount q).
Proof.
  intros Hs Hm Ho Hsz Hf. unfold UploadPgControl. rewrite Hs. unfold NewTarBall, SetUp. cbn [writer].
  unfold FileInfoHeader. rewrite Hm. cbn [writer WriteHeader tarComplete last mbind res_bind res_map_err].
  unfold copyPgControl, fiIsRegular. rewrite Hm, bool_decide_eq_true_2 by done. rewrite Ho. cbn [withName hSize hName hMode].
  destruct (ReadAll_limited copyFuel f (Z.to_nat (fiSize info))) as [l ->]; [lia|].
  rewrite Hsz, Nat2Z.id, take_ge by lia. cbn [withWriter writer WriteEntry rev app length withName hSize hName hMode Z.of_nat].
  rewrite !Z.sub_0_r, !Nat2Z.id, Nat.leb_refl, take_ge by lia.
  cbn [mbind res_bind]. unfold CloseTarball, CloseTar, AddSize. cbn [writer withWriter].
  unfold tarComplete. cbn [last hSize]. rewrite Z.leb_refl.
  eexists. split; [reflexivity|]. cbn [uploads partCount tbName]. split; reflexivity.
Qed.

Definition labelTar (n : nat) (stopped : stoppedBackup) : upload :=
  (partName extension n,
   [(labelHeader BackupLabelFilename (bkLabel stopped), bkLabel stopped);
    (labelHeader TablespaceMapFilename (bkOffsetMap stopped), bkOffsetMap stopped)]).

Lemma uploadLabelFiles_ok q stopped :
  exists q', uploadLabelFiles extension (Ok stopped) true q =
      Ok (partName extension (S (partCount q)), [TablespaceMapFilename; BackupLabelFilename], bkLsn stopped, q') /\
    uploads q' = uploads q ++ [labelTar (S (partCount q)) stopped].
Proof.
  unfold uploadLabelFiles. cbn [res_map_err mbind res_bind negb]. unfold NewTarBall.
  set (tb0 := SetUp _ _ _).
  destruct (PackFileTo_ok tb0 [] (labelHeader BackupLabelFilename (bkLabel stopped)) (bkLabel stopped)) as (tb1 & -> & E1);
    [done..|].
  destruct E1 as (_ & Hn1 & w1 & [= <-] & Hw1 & Hc1).
  destruct (PackFileTo_ok tb1 _ (labelHeader TablespaceMapFilename (bkOffsetMap stopped)) (bkOffsetMap stopped) Hw1 Hc1)
    as (tb2 & -> & E2); [done|].
  destruct E2 as (_ & Hn2 & w2 & Hw2 & Hw2' & Hc2). rewrite Hw1 in Hw2. injection Hw2 as <-.
  unfold CloseTarball, CloseTar. rewrite Hw2', Hc2. cbn [uploads]. rewrite Hn2, Hn1.
  eexists. split; [reflexivity|]. reflexivity.
Qed.
End Finish.

(** ** What a fetch sees *)

(** The regular file of an entry. *)
Definition entryFile (e : entry) : list (string * bytesReader) :=
  if bool_decide (hMode e.1 = ModeRegular) then [(hName e.1, e.2)] else [].

Definition asArchive (up : upload) : archive (R := bytesReader) := (up.1, up.2 ≫= entryFile).

(** *** Their names *)

Definition notP (ch : Ascii.ascii) : bool := negb (bool_decide (ch = Ascii.ascii_of_nat 112)).

Lemma isPgControlTar_skip a s : allIn notP a = true -> isPgControlTar (a +s s) = isPgControlTar s.
Proof.
  induction a as [|ch a IH]; [done|]. cbn [allIn String.append]. intros Ha. bool_to_prop. unfold notP in *. bool_to_prop.
  cbn [isPgControlTar]. rewrite IH by done. cbn [String.prefix].
  destruct (Ascii.ascii_dec _ ch) as [E|Hne]; [by destruct H|done].
Qed.

Lemma notP_digit k : notP (pretty_N_char k) = true.
Proof. destruct k as [|p]; [done|]. by repeat (destruct p as [p|p|]; try done). Qed.

Lemma notP_pretty_go x : forall s, allIn notP s = true -> allIn notP (pretty_N_go x s) = true.
Proof.
  induction (N.lt_wf_0 x) as [x _ IH]. intros s Hs. destruct (decide (0 < x)%N) as [Hx|Hx].
  - rewrite pretty_N_go_step by done. apply IH; [apply N.div_lt; lia|]. cbn [allIn]. by rewrite notP_digit.
  - assert (x = 0)%N as -> by lia. by rewrite pretty_N_go_0.
Qed.

Lemma notP_fmtD width n : allIn notP (fmtD width n) = true.
Proof.
  unfold fmtD. rewrite allIn_app. apply andb_true_iff. split.
  - generalize (width - slen (pretty (N.of_nat n)))%nat. intros k. by induction k.
  - unfold pretty, pretty_N. case_decide; [done|]. by apply notP_pretty_go.
Qed.

Lemma partName_not_control extension n : isPgControlTar (".tar." +s extension) = false ->
  isPgControlTar (partName extension n) = false.
Proof.
  intros He. unfold partName. change ("part_" +s ?x) with (String (Ascii.ascii_of_nat 112) ("art_" +s x)).
  cbn [isPgControlTar]. rewrite (isPgControlTar_skip "art_") by done. rewrite isPgControlTar_skip by apply notP_fmtD.
  rewrite He. done.
Qed.

Lemma controlTar_control extension : extension <> "" -> isPgControlTar ("pg_control.tar." +s extension) = true.
Proof.
  intros He. destruct extension as [|ch rest]; [done|].
  pose proof (HasPrefix_app "pg_control.tar" (String (Ascii.ascii_of_nat 46) (String ch rest))) as Hpre.
  unfold HasPrefix in Hpre. cbn [String.append] in Hpre |- *. cbn [isPgControlTar].
  apply orb_true_iff. left. apply andb_true_iff. split; [exact Hpre|by vm_compute].
Qed.

(** The archive of [pg_control] is set apart, whatever the order in which the
    storage lists the archives. *)
Lemma splitTars_control (tars : list (archive (R := bytesReader))) (pg : archive) others :
  tars ≡ₚ pg :: others -> isPgControlTar pg.1 = true -> Forall (fun a => isPgControlTar a.1 = false) others ->
  exists others', splitTars tars None (fun _ => true) = Ok (others', Some pg) /\ others' ≡ₚ others.
Proof.
  assert (forall l pg0, Forall (fun a : archive (R := bytesReader) => isPgControlTar a.1 = false) l ->
    splitTars l pg0 (fun _ => true) = Ok (l, pg0)) as Hnone.
  { induction l as [|a l IH]; intros pg0 Hl; [done|]. apply Forall_cons in Hl as [Ha Hl]. cbn [splitTars].
    by rewrite Ha, IH. }
  intros Hp Hpg Ho.
  assert (pg ∈ tars) as Hin by (rewrite Hp; by left). apply list_elem_of_split in Hin as (l1 & l2 & ->).
  rewrite <- Permutation_middle in Hp. apply Permutation_cons_inv in Hp. rewrite <- Hp in Ho.
  apply Forall_app in Ho as [H1' H2']. exists (l1 ++ l2). split; [|done].
  clear Hp. induction l1 as [|a l1 IH]; cbn [splitTars app].
  - by rewrite Hpg, Hnone.
  - apply Forall_cons in H1' as [Ha H1']. by rewrite Ha, IH.
Qed.
