(* ===== verification/PushFetch.v ===== *)
(** * What is pushed can be fetched

    The archives that a composer, [UploadPgControl] and [uploadLabelFiles]
    have left, with the sentinel of the backup, are a stage of a chain that
    [backup-fetch] restores ([pushed_stage]), and each file is in it as its
    treatment in the walk and its state on disk say ([pushed_file]). *)

From stdpp Require Import gmap strings pretty.
From S2P Require Import Prelude GoIO GoSort WalRecord WalPage WalFile PagedFile GoFS.
From S2P Require Import GoStrings GoPath GoFilepath Timeline DeltaMap Backups BackupMeta IncPages IncSpec IncTheorems Tablespace Unwrap PageVerify.
From S2P Require Import Fetch FetchSpec FetchTheorems.
From S2P Require Import TarQueue BundleFiles Packer Composer QueueSpec ComposerSpec Bundle BackupPush PushSpec.
Open Scope Z_scope.

Section PushFetch.
Context {UserData : Type} {F : Type} `{LawfulSeeker F} {B : Type} `{BitmapLaws B}.
Variable scanFuel copyFuel fetchFuel : nat.
Variable open : string -> option F.
Variable extension : string.
Variable packer : TarBallFilePacker B.
Variable acts : list action.
Notation outcome_of := (pack_outcome scanFuel copyFuel open packer).
Notation entries := (act_entries scanFuel copyFuel open packer).

(** ** How the new backup stores a file *)

(** By the action of the walk, the delta map and the file on disk; [g] is what
    the file holds. *)
Inductive pushed_as : action -> version -> list byte -> Prop :=
| pushed_copy cfi f :
    cIsIncremented cfi = false -> open (cPath cfi) = Some f ->
    fiSize (cFileInfo cfi) = Z.of_nat (length (avail f)) -> (length (avail f) < copyFuel)%nat ->
    pushed_as (ActFile cfi) VFull (avail f)
| pushed_fallback cfi f bitmap lsn b :
    open (cPath cfi) = Some f -> getDeltaBitmapFor packer (cPath cfi) = Ok bitmap -> incrementFromLsn packer = Some lsn ->
    ReadIncrementalFile scanFuel f (fiSize (cFileInfo cfi)) lsn bitmap = Err (InvalidBlockError b) ->
    fiSize (cFileInfo cfi) = Z.of_nat (length (avail f)) -> (length (avail f) < copyFuel)%nat ->
    pushed_as (ActFile cfi) VFull (avail f)
| pushed_increment cfi f new n bitmap lsn :
    let bl := numberedOf new (selected bitmap lsn new n) in
    cIsIncremented cfi = true -> open (cPath cfi) = Some f -> getDeltaBitmapFor packer (cPath cfi) = Ok bitmap ->
    incrementFromLsn packer = Some lsn ->
    pages_of new n -> Z.of_nat n < 2 ^ 30 -> bytes_of f = new -> avail f = new ->
    fiSize (cFileInfo cfi) = Z.of_nat (length new) -> readable bitmap new n scanFuel ->
    (length (increment n bl) < copyFuel)%nat ->
    pushed_as (ActFile cfi) (VIncr n bl) new
| pushed_no_bitmap cfi g :
    cIsIncremented cfi = true -> getDeltaBitmapFor packer (cPath cfi) = Err NoBitmapFoundError ->
    pushed_as (ActFile cfi) VSkip g
| pushed_unchanged h info g : pushed_as (ActSkip h info) VSkip g.

Definition outcome_version (o : outcome) (v : version) (g : list byte) : Prop :=
  match o, v with
  | Packed _ bs false, VFull => bs = g
  | Packed _ bs true, VIncr n bl => bs = increment n bl
  | Skipped_, VSkip => True
  | _, _ => False
  end.

Lemma asAnnounced_same info bs : fiSize info = Z.of_nat (length bs) -> asAnnounced info bs = bs.
Proof. intros Hs. unfold asAnnounced. by rewrite Hs, Nat2Z.id, resize_all. Qed.

Lemma pushed_outcome cfi v g : pushed_as (ActFile cfi) v g ->
  exists o, outcome_of cfi = Some o /\ outcome_version o v g.
Proof.
  intros Hp. inversion Hp; subst.
  - eexists. split; [apply packed_whole; [lia| |done|done]; lia|]. by apply asAnnounced_same.
  - eexists. split; [eapply packed_invalid; [lia|lia|done..]|]. by apply asAnnounced_same.
  - match goal with Hc : (length (increment _ _) < copyFuel)%nat |- _ =>
      eexists; split; [eapply packed_increment; try exact Hc; done|done] end.
  - eexists. split; [by eapply packed_nothing|done].
Qed.

(** What is copied, whole or as an increment, passes the verifier. *)
Lemma pushed_verified cfi h bs inc v g : pushed_as (ActFile cfi) v g -> outcome_of cfi = Some (Packed h bs inc) ->
  fiIsDir (cFileInfo cfi) = false -> block_numbers (cPath cfi) (fiSize (cFileInfo cfi)) ->
  exists blocks, verifyFile copyFuel (cPath cfi) (cFileInfo cfi) (bs : bytesReader) inc = (Ok blocks, []).
Proof.
  intros Hp Ho Hd Hn.
  assert ((length bs < copyFuel)%nat /\
    if inc then exists n bl, bs = increment n bl /\ increment_ok n bl else fiSize (cFileInfo cfi) = Z.of_nat (length bs)) as [Hc Hb].
  { inversion Hp; subst.
    - erewrite packed_whole in Ho by (done || lia). injection Ho as _ <- <-. by rewrite asAnnounced_same.
    - erewrite packed_invalid in Ho by (done || lia). injection Ho as _ <- <-. by rewrite asAnnounced_same.
    - match goal with Hc : (length (increment _ _) < copyFuel)%nat |- _ =>
        edestruct packed_increment as [Hpk Hok]; try exact Hc; try done end.
      rewrite Hpk in Ho. injection Ho as _ <- <-. split; [done|]. by eexists _, _.
    - erewrite packed_nothing in Ho by done. done. }
  unfold verifyFile. destruct (isPagedFile _ _ _) eqn:Ep; cbn [negb].
  - destruct inc; [destruct Hb as (n & bl & -> & Hok); by apply VerifyPagedFileIncrement_passes|].
    by apply VerifyPagedFileBase_passes.
  - destruct (ReadAll_ok copyFuel (bs : bytesReader)) as (s' & -> & Hs'); [done|]. exists [].
    f_equal. exact Hs'.
Qed.

(** That is all a file needs to be packed. *)
Lemma pushed_packs cfi v g : fiIsDir (cFileInfo cfi) = false ->
  (verifyPageChecksums (options packer) = true -> block_numbers (cPath cfi) (fiSize (cFileInfo cfi))) ->
  pushed_as (ActFile cfi) v g -> packs scanFuel copyFuel open packer cfi.
Proof.
  intros Hd Hv Hp. destruct (pushed_outcome cfi v g Hp) as (o & Ho & _). unfold packs. rewrite Ho.
  destruct o as [| |h bs inc]; [done..|]. intros Hon. eapply pushed_verified; eauto.
Qed.

(** ** The files in the archives *)

(** What the walk asks for: names below the directory, and headers that are
    not of regular files. *)
Record walked : Prop := {
  walked_nodup : NoDup (act_name <$> acts);
  walked_names : forall a, a ∈ acts -> HasPrefix (act_name a) "/" = true /\ act_name a <> PgControlPath;
  walked_files : forall cfi, ActFile cfi ∈ acts -> hMode (cHeader cfi) = ModeRegular;
  walked_headers : forall h info, ActHeader h info ∈ acts -> hMode h <> ModeRegular
}.

Definition action_files (a : action) : list (string * bytesReader) := entries a ≫= entryFile.

Lemma action_files_name a : a ∈ acts -> walked -> action_files a = [] \/ exists bs, action_files a = [(act_name a, bs)].
Proof.
  intros Hin Hw. unfold action_files, act_entries. destruct a as [cfi|h info|h info].
  - destruct (outcome_of cfi) as [[| |h bs inc]|] eqn:E; cbn [from_option outcome_entries mbind list_bind]; [by left..| |by left].
    right. exists bs. unfold entryFile. cbn [fst snd]. destruct (outcome_name _ _ _ _ _ _ _ _ E) as [Hn Hm].
    rewrite Hm, (walked_files Hw), bool_decide_eq_true_2 by done. cbn [app]. by rewrite Hn.
  - left. cbn. unfold entryFile. cbn. by rewrite bool_decide_eq_false_2 by (by eapply walked_headers).
  - by left.
Qed.

Lemma action_files_names l : (forall a, a ∈ l -> a ∈ acts) -> walked -> ((l ≫= action_files).*1) `sublist_of` (act_name <$> l).
Proof.
  intros Hl Hw. induction l as [|a l IH]; [done|]. cbn [mbind list_bind fmap list_fmap]. rewrite fmap_app.
  assert ((l ≫= action_files).*1 `sublist_of` (act_name <$> l)) as IH'.
  { apply IH. intros b Hb. apply Hl. by right. }
  destruct (action_files_name a (Hl a ltac:(by left)) Hw) as [E|[bs E]]; rewrite E; cbn;
    [by apply sublist_cons|by apply sublist_skip].
Qed.

Lemma bind_assoc {X Y Z} (l : list X) (f : X -> list Y) (g : Y -> list Z) : ((l ≫= f) ≫= g) = (l ≫= fun x => f x ≫= g).
Proof. induction l as [|x l IH]; [done|]. cbn [mbind list_bind]. by rewrite bind_app, IH. Qed.

Lemma asArchive_files ups : ((asArchive <$> ups) ≫= snd) = ((ups ≫= snd) ≫= entryFile).
Proof. induction ups as [|up ups IH]; [done|]. cbn. rewrite bind_app. by rewrite IH. Qed.

Definition utilityFiles (stopped : stoppedBackup) : list (string * bytesReader) :=
  [(BackupLabelFilename, bkLabel stopped); (TablespaceMapFilename, bkOffsetMap stopped)].

Lemma pushed_stage backups name dto tars ups m sets control size stopped n base :
  walked -> composed scanFuel copyFuel open extension packer acts ups m sets ->
  tars ≡ₚ asArchive <$> ups ++ [controlTar extension (mkHeader PgControlPath ModeRegular size) control; labelTar extension n stopped] ->
  isPgControlTar (".tar." +s extension) = false -> extension <> "" ->
  backups !! name = Some (mkStored (UserData := UserData) dto tars) ->
  no_tablespaces (sfTablespaceSpec (content dto)) -> seIncrementFrom dto = base ->
  IsIncremental dto = Ok (if base is Some _ then true else false) -> IsPgControlRequired name dto = Ok true ->
  exists st, stName st = name /\ stBackup st = mkStored dto tars /\ stage_ok backups st base /\
    stFiles st ≡ₚ (acts ≫= action_files) ++ utilityFiles stopped ++ [(PgControlPath, control)].
Proof.
  intros Hw [He _ _ (nums & Hn & _)] Ht Hext Hne Hb Hsp Hfrom Hinc Hreq.
  assert (asArchive (controlTar extension (mkHeader PgControlPath ModeRegular size) control) =
    ("pg_control.tar." +s extension, [(PgControlPath, control)])) as Epg by done.
  assert (asArchive (labelTar extension n stopped) = (partName extension n, utilityFiles stopped)) as Elab by done.
  rewrite fmap_app in Ht. cbn [fmap list_fmap] in Ht. rewrite Epg, Elab in Ht.
  rewrite <- Permutation_middle in Ht.
  destruct (splitTars_control tars _ _ Ht) as (others & Hs & Ho).
  { by apply controlTar_control. }
  { apply Forall_app. split; [|constructor; [by apply partName_not_control|constructor]].
    apply Forall_fmap, Forall_forall. intros up Hup. cbn.
    assert (up.1 ∈ ups.*1) as Hin by by apply list_elem_of_fmap_2. rewrite Hn in Hin.
    apply list_elem_of_fmap in Hin as (k & -> & _). by apply partName_not_control. }
  exists (mkStage name (mkStored dto tars) others ("pg_control.tar." +s extension, [(PgControlPath, control)])).
  assert ((others ≫= snd) ++ [(PgControlPath, control)] ≡ₚ (acts ≫= action_files) ++ utilityFiles stopped ++ [(PgControlPath, control)]) as Hfiles.
  { rewrite Ho, bind_app, asArchive_files, He, bind_assoc. cbn [mbind list_bind snd]. by rewrite app_nil_r, <- app_assoc. }
  split; [done|]. split; [done|]. split; [|exact Hfiles].
  constructor; try done.
  - cbn. intros ->. apply Permutation_nil_l in Ho. by destruct (asArchive <$> ups).
  - unfold stFiles. cbn [stTars stPgControl snd]. rewrite Hfiles, !fmap_app.
    pose proof (action_files_names acts ltac:(done) Hw) as Hsub.
    apply NoDup_app. split; [eapply sublist_NoDup; [apply (walked_nodup Hw)|exact Hsub]|]. split.
    + intros x Hx0. pose proof (elem_of_sublist _ _ x Hx0 Hsub) as Hx. apply list_elem_of_fmap in Hx as (a & -> & Ha).
      destruct (walked_names Hw a Ha) as [Hp Hc]. cbn. rewrite !elem_of_cons, elem_of_nil.
      intros [E|[E|[E|[]]]]; [by rewrite E in Hp..|done].
    + apply (bool_decide_unpack _). by vm_compute.
Qed.

(** ** One file *)

Lemma pushed_file (st : stage (UserData := UserData) (R := bytesReader)) m a v g h : walked -> files_inv scanFuel copyFuel open packer acts m -> Files (content (stDto st)) = m ->
  (forall x, x ∈ (acts ≫= action_files) -> x ∈ stFiles st) ->
  (forall x, x ∈ stFiles st -> x.1 ∈ act_name <$> acts -> x ∈ (acts ≫= action_files)) ->
  a ∈ acts -> pushed_as a v g -> (length g < fetchFuel)%nat ->
  file_ok fetchFuel st (act_name a) ((v, g) :: h).
Proof.
  intros Hw [Hact _] Hm Hin Hout Ha Hp Hg. exists v, g, h. split; [done|]. unfold stored_as. rewrite Hm.
  pose proof (Hact a Ha) as Hd.
  assert (forall bs, action_files a = [(act_name a, bs)] -> exists s : bytesReader, (act_name a, s) ∈ stFiles st /\ avail s = bs /\ (length g < fetchFuel)%nat) as Hsome.
  { intros bs E. exists bs. split; [|done]. apply Hin, list_elem_of_bind. exists a. split; [|done]. rewrite E. by left. }
  assert (action_files a = [] -> act_name a ∉ (stFiles st).*1) as Hnone.
  { intros E Hx. apply list_elem_of_fmap in Hx as ([x s] & Ex & Hx). cbn in Ex. subst x.
    apply Hout in Hx; [|cbn; by apply list_elem_of_fmap_2].
    apply list_elem_of_bind in Hx as (a' & Hx & Ha'). pose proof (walked_nodup Hw) as Hnd.
    destruct (action_files_name a' Ha' Hw) as [E'|[bs E']]; rewrite E' in Hx; [by apply elem_of_nil in Hx|].
    apply list_elem_of_singleton in Hx. injection Hx as Ex _.
    assert (a' = a) as ->; [|by rewrite E in E'].
    apply list_elem_of_lookup in Ha as [i Hi]. apply list_elem_of_lookup in Ha' as [j Hj].
    assert (i = j) as ->; [|congruence].
    eapply NoDup_lookup; [exact Hnd|by rewrite list_lookup_fmap, Hi|rewrite list_lookup_fmap, Hj; cbn; by rewrite Ex]. }
  unfold action_files, act_entries in Hsome, Hnone. destruct a as [cfi|h' info|h' info]; [|by inversion Hp|].
  - destruct (pushed_outcome _ _ _ Hp) as (o & Ho & Hov). rewrite Ho in Hsome, Hnone.
    cbn [act_file] in Hd. destruct Hd as (_ & o' & Ho' & Hd). assert (o' = o) as -> by congruence.
    destruct o as [| |h1 bs inc]; cbn [outcome_version] in Hov; [| done|].
    + destruct v; [done..|]. cbn [outcome_file] in Hd. destruct Hd as (d & -> & (-> & -> & _)). split; [done|]. by apply Hnone.
    + destruct (outcome_name _ _ _ _ _ _ _ _ Ho) as [Hn1 Hm1].
      assert (entryFile (h1, bs) = [(act_name (ActFile cfi), bs)]) as Ee.
      { unfold entryFile. cbn [fst snd act_name]. by rewrite Hm1, (walked_files Hw _ Ha), bool_decide_eq_true_2, Hn1. }
      cbn [outcome_file] in Hd. destruct Hd as (d & Ed & (Hdi & Hds & _)). cbn [act_name] in Ed |- *. rewrite Ed.
      cbn [from_option outcome_entries mbind list_bind] in Hsome. rewrite Ee in Hsome.
      destruct inc, v; try done; (split; [done|]); subst bs; by apply Hsome.
  - inversion Hp; subst. cbn [act_file] in Hd. destruct Hd as (d & -> & (-> & -> & _)). split; [done|]. by apply Hnone.
Qed.
End PushFetch.
