(* ===== verification/PushRestore.v ===== *)
(** * A pushed backup is a stage of a chain

    Lemmas from a run of [uploadBackup] over a tree to what [backup-fetch]
    needs of the backup: that some run ends, which archives every run leaves
    ([run_stage]), and that the chain with the new backup restores. *)

From stdpp Require Import gmap strings relations.
From S2P Require Import Prelude GoIO GoSort WalRecord WalPage WalFile PagedFile GoFS.
From S2P Require Import GoStrings GoPath GoFilepath Timeline DeltaMap Backups BackupMeta BackupMark IncPages IncSpec IncTheorems Tablespace.
From S2P Require Import Unwrap PageVerify Fetch FetchSpec FetchTheorems.
From S2P Require Import TarQueue BundleFiles Packer Composer QueueSpec ComposerSpec ComposerRegular ComposeTheorems.
From S2P Require Import Bundle BundleSpec BackupPush PushSpec PushFetch.
Open Scope Z_scope.

(** ** The walk *)

(** The names of a tree's objects. *)
Lemma visits_fiName n : forall rel es t v r e, (height t <= n)%nat -> proper es t -> v ∈ visits rel t -> v.1 = rel ++ r ++ [e] ->
  fiName v.2 = e.
Proof.
  induction n as [|n IH]; intros rel es [info children] v r e Hn Hp Hv Hr; [cbn in Hn; lia|].
  inversion Hp as [es' info' ch _ _ _ Hpc]; subst. cbn [visits] in Hv. rewrite Forall_forall in Hpc.
  apply elem_of_cons in Hv as [->|Hv].
  { cbn [fst] in Hr. exfalso. apply (f_equal length) in Hr. rewrite !length_app in Hr. cbn in Hr. lia. }
  destruct (_ && _); [by apply elem_of_nil in Hv|].
  apply elem_of_concat in Hv as (l & Hl & Hv). apply list_elem_of_fmap in Hl as (ch & -> & Hin).
  destruct (Hpc ch Hin) as (_ & Hname & Hpt).
  destruct (visits_below n (rel ++ [ch.1]) _ ch.2 v (height_child _ _ _ _ Hin Hn) Hpt Hv) as (s & Es & _).
  rewrite Hr, <- app_assoc in Es. apply app_inv_head in Es.
  destruct r as [|e0 r]; cbn in Es; injection Es as -> Es.
  - destruct s; [|done]. destruct ch.2 as [info' children'] eqn:Et. cbn [visits] in Hv.
    apply elem_of_cons in Hv as [->|Hv]; [exact Hname|]. exfalso.
    assert (v ∈ visits (rel ++ [ch.1]) ch.2) as Hv' by (rewrite Et; cbn [visits]; by right).
    assert (NoDup (visits (rel ++ [ch.1]) ch.2).*1) as Hnd.
    { rewrite Et. eapply (visits_nodup (height (Node info' children'))); [done|exact Hpt]. }
    rewrite Et in Hnd. cbn [visits fmap list_fmap fst] in Hnd. apply NoDup_cons in Hnd as [Hni _]. apply Hni.
    apply list_elem_of_fmap. exists v. split; [by rewrite Hr|exact Hv].
  - apply (IH (rel ++ [ch.1]) _ ch.2 v r e (height_child _ _ _ _ Hin Hn) Hpt Hv). by rewrite Hr, <- app_assoc.
Qed.

Lemma relName_prefix rel : HasPrefix (relName rel) "/" = true.
Proof. destruct rel as [|e rel]; [done|]. cbn [relName absPath foldr]. apply (HasPrefix_app "/"). Qed.

Lemma walk_walked c ds t : proper ds t -> walked (walk_actions c ds t).
Proof.
  intros Hp. constructor.
  - by apply walk_nodup.
  - intros a Ha. apply list_elem_of_bind in Ha as (v & Ha & Hv).
    destruct (object_action v a Ha) as [_ ->]. split; [apply relName_prefix|]. intros E.
    destruct (visits_below (height t) [] ds t v ltac:(done) Hp Hv) as (s & Es & Hs). cbn [app] in Es.
    assert (s = ["global"; "pg_control"]) as ->.
    { apply relName_inj; [done|by repeat constructor|]. rewrite <- Es, E. done. }
    assert (fiName v.2 = "pg_control") as Hn by by apply (visits_fiName (height t) [] ds t v ["global"] "pg_control").
    destruct v as [rel info]. cbn in Hn. unfold object_actions, isPgControl in Ha. rewrite Hn in Ha.
    by apply elem_of_nil in Ha.
  - intros cfi Ha. apply list_elem_of_bind in Ha as ([rel info] & Ha & _). unfold object_actions in Ha.
    repeat (case_match; try by apply elem_of_nil in Ha); apply list_elem_of_singleton in Ha; simplify_eq. cbn.
    by match goal with Hr : fiIsRegular info = true |- _ => unfold fiIsRegular in Hr; apply bool_decide_eq_true in Hr end.
  - intros h info' Ha. apply list_elem_of_bind in Ha as ([rel info] & Ha & _). unfold object_actions in Ha.
    repeat (case_match; try by apply elem_of_nil in Ha); apply list_elem_of_singleton in Ha; simplify_eq; cbn.
    + match goal with Hr : fiIsDir _ = true |- _ => unfold fiIsDir in Hr; apply bool_decide_eq_true in Hr; by rewrite Hr end.
    + by match goal with Hr : fiIsRegular _ = false |- _ => unfold fiIsRegular in Hr; apply bool_decide_eq_false in Hr end.
Qed.

(** ** The files that every backup has *)

Definition labelFiles (stopped : stoppedBackup) (control : list byte) : list (string * bytesReader) :=
  utilityFiles stopped ++ [(PgControlPath, control)].

Lemma labelFiles_names stopped control : (labelFiles stopped control).*1 = [BackupLabelFilename; TablespaceMapFilename; PgControlPath].
Proof. done. Qed.

(** They are utility files, and no names of a walk. *)
Lemma labelFiles_name stopped control x g : (x, g) ∈ labelFiles stopped control ->
  x ∈ UtilityFilePaths /\ ~ (HasPrefix x "/" = true /\ x <> PgControlPath).
Proof.
  intros Hx. apply (list_elem_of_fmap_2 fst) in Hx. rewrite labelFiles_names in Hx. cbn in Hx.
  rewrite !elem_of_cons, elem_of_nil in Hx. unfold UtilityFilePaths. rewrite !elem_of_cons.
  destruct Hx as [->|[->|[->|[]]]]; (split; [tauto|]); intros [Hp Hc]; done.
Qed.

(** ** Pushing and fetching *)

Section Restore.
Context {UserData : Type} {F : Type} `{LawfulSeeker F} {B : Type} `{BitmapLaws B} {T : Type} `{LawfulFile T}.
Notation Stored := (StoredBackup (UserData := UserData) (R := bytesReader)).

Lemma chain_ok_insert (backups : gmap string Stored) name (s : Stored) chain : backups !! name = None ->
  chain_ok backups chain -> chain_ok (<[name := s]> backups) chain.
Proof.
  intros Hn. induction chain as [|st chain IH]; [done|]. cbn [chain_ok]. intros [Hst Hch]. split.
  - destruct Hst. constructor; try done. rewrite lookup_insert_ne; [done|]. intros ->. congruence.
  - destruct chain; [done|]. by apply IH.
Qed.

(** The sentinel of an increment has all it needs. *)
Lemma setupDTO_incremental (prev : PrevBackupInfo (UserData := UserData)) cur pgVersion sysid data spec files sets dto :
  setupDTO prev cur pgVersion sysid data spec files sets = Ok dto ->
  Files (content dto) = files /\ sfTablespaceSpec (content dto) = (if specEmpty spec then None else Some spec) /\
  seIncrementFrom dto = (if BackupStartLSN (prevSentinel prev) then Some (prevName prev) else None) /\
  IsIncremental dto = Ok (if seIncrementFrom dto then true else false).
Proof.
  unfold setupDTO, NewBackupSentinelDto. destruct (BackupStartLSN (prevSentinel prev)) as [lsn|] eqn:El.
  - unfold IsIncremental at 1. destruct (seIncrementFrom (prevSentinel prev)); cbn [mbind res_bind].
    + destruct (IncrementFromLSN (prevSentinel prev)); [|done].
      destruct (seIncrementFullName (prevSentinel prev)) eqn:Ef; [|done].
      destruct (seIncrementCount (prevSentinel prev)); [|done].
      intros [= <-]. unfold IsIncremental. cbn. by rewrite ?Ef.
    + intros [= <-]. done.
  - intros [= <-]. done.
Qed.

Section Run.
Variable c : BundleConfig.
Variable ds : list string.
Hypothesis Hdir : Directory c = absPath ds.
Hypothesis Hds : ds <> [].
Hypothesis Hsimple : Forall (fun e => simple e = true) ds.
Variable Lstat : string -> res osError FileInfo.
Variable readDirNames : string -> res osError (list string).
Variable ReadDir : string -> res osError (list FileInfo).
Variable Readlink : string -> option string.
Variable walkFuel scanFuel copyFuel fetchFuel : nat.
Variable open : string -> option F.
Variable t : tree.
Hypothesis Hholds : holds Lstat readDirNames ReadDir ds t.
Hypothesis Hproper : proper ds t.
Hypothesis Hheight : (height t <= walkFuel)%nat.
Variable extension : string.
Hypothesis Hext : isPgControlTar (".tar." +s extension) = false.
Hypothesis Hne : extension <> "".
Variable deltaMap : option (gmap RelFileNode B).
Variable opts : TarBallFilePackerOptions.
Notation packer := (regularPacker c deltaMap opts).
Notation acts := (walk_actions c ds t).

(** When pages are verified, their blocks have numbers. *)
Definition files_numbered : Prop := verifyPageChecksums opts = true ->
  forall cfi, ActFile cfi ∈ acts -> block_numbers (cPath cfi) (fiSize (cFileInfo cfi)).
Hypothesis Hverify : files_numbered.

(** [pg_control] is where it should be, and nowhere else. *)
Definition has_control (control : list byte) : Prop :=
  exists info f, List.filter (fun v => isPgControl v.2) (visits [] t) = [(["global"; "pg_control"], info)] /\
    fiMode info = ModeRegular /\ open (absPath (ds ++ ["global"; "pg_control"])) = Some f /\ avail f = control /\
    fiSize info = Z.of_nat (length control).

(** Every file that is copied keeps still. *)
Definition files_still : Prop :=
  forall cfi, ActFile cfi ∈ acts -> exists v g, pushed_as scanFuel copyFuel open packer (ActFile cfi) v g.

(** What the walk leaves. *)
Lemma walked_bundle b : Walk c Lstat readDirNames ReadDir Readlink walkFuel (Directory c) (newBundle c) = (None, b) ->
  asked b = acts /\ bundleTablespaces b = NewTablespaceSpec (Directory c) /\
  forall control, has_control control -> exists info, fiMode info = ModeRegular /\ fiSize info = Z.of_nat (length control) /\
    Bundle.Sentinel b = Some (info, absPath (ds ++ ["global"; "pg_control"])).
Proof.
  intros HW. rewrite Hdir, (Walk_ok c ds Hdir Hds Hsimple Lstat readDirNames ReadDir Readlink walkFuel t Hheight Hholds Hproper) in HW.
  injection HW as <-. destruct (foldl_visit c ds (visits [] t) (newBundle c)) as (-> & -> & Hsent).
  split; [done|]. split; [done|]. intros control (info & f & Hctl & Hm & _ & _ & Hsz). rewrite Hctl in Hsent.
  by exists info.
Qed.

(** The archives after those of the composer. *)
Lemma finishUpload_ok stopped b q q' sets control :
  Walk c Lstat readDirNames ReadDir Readlink walkFuel (Directory c) (newBundle c) = (None, b) ->
  FinishQueue q = (None, q') -> has_control control -> (length control < copyFuel)%nat ->
  exists u n size, finishUpload copyFuel open c extension (Ok stopped) true false b q sets = Ok u /\
    uploads (upQueue u) = uploads q' ++
      [controlTar extension (mkHeader PgControlPath ModeRegular size) control; labelTar extension n stopped].
Proof.
  intros HW Hfq Hctl Hcf. destruct (walked_bundle b HW) as (_ & _ & Hs).
  destruct (Hs control Hctl) as (info & Hm & Hsz & Hsent). destruct Hctl as (_ & f & _ & _ & Ho & Hav & _).
  unfold finishUpload. rewrite Hfq.
  destruct (UploadPgControl_ok c copyFuel open extension b q' info _ f Hsent Hm Ho) as (q2 & -> & Hu2 & _);
    [by rewrite Hav|by rewrite Hav|]. cbn [mbind res_bind].
  destruct (uploadLabelFiles_ok extension q2 stopped) as (q3 & -> & Hu3). cbn [mbind res_bind].
  assert (getFileRelPath c (absPath (ds ++ ["global"; "pg_control"])) = PgControlPath) as Hrel.
  { unfold getFileRelPath. rewrite Hdir. rewrite GetSubdirectoryRelativePath_below; [done|].
    apply Forall_app. split; [done|]. by repeat constructor. }
  eexists _, _, _. split; [done|]. cbn [upQueue]. by rewrite Hu3, Hu2, <- app_assoc, Hrel, Hav.
Qed.

Lemma walk_file cfi : ActFile cfi ∈ acts -> fiIsDir (cFileInfo cfi) = false.
Proof.
  intros Ha. apply list_elem_of_bind in Ha as ([rel info] & Ha & _). unfold object_actions in Ha.
  repeat (case_match; try by apply elem_of_nil in Ha); apply list_elem_of_singleton in Ha; simplify_eq. cbn.
  unfold fiIsRegular, fiIsDir in *. by bool_to_prop; match goal with Hr : fiMode _ = _ |- _ => rewrite Hr end.
Qed.

Lemma still_pack : files_still -> all_pack scanFuel copyFuel open packer acts.
Proof.
  intros Hstill cfi Hin. destruct (Hstill cfi Hin) as (v & g & Hp). eapply pushed_packs; [by apply walk_file|by auto|exact Hp].
Qed.

Lemma still_step c1 c2 : files_still -> regular_ok scanFuel copyFuel open extension packer acts c1 ->
  regular_step scanFuel copyFuel open extension packer c1 c2 -> regular_ok scanFuel copyFuel open extension packer acts c2.
Proof.
  intros Hstill Hok. pose proof (still_pack Hstill) as Hpack.
  eapply regular_step_ok; try done; [by apply walk_nodup|by apply walk_headers].
Qed.

Notation run k m threshold stopped := (uploadBackup copyFuel open c extension Lstat readDirNames ReadDir Readlink
  walkFuel scanFuel k m threshold deltaMap opts (Ok stopped) true false).

(** There is a run that ends. *)
Lemma upload_runs k m threshold stopped control : (0 < k)%nat -> files_still -> has_control control ->
  (length control < copyFuel)%nat -> exists u files spec, run k m threshold stopped u files spec.
Proof.
  intros Hk Hstill Hctl Hcf. pose proof (still_pack Hstill) as Hpack.
  destruct (StartQueue_ok extension k m threshold ∅) as (q & Hst & _).
  pose proof (Walk_ok c ds Hdir Hds Hsimple Lstat readDirNames ReadDir Readlink walkFuel t Hheight Hholds Hproper) as HW.
  rewrite <- Hdir in HW. destruct (walked_bundle _ HW) as (Ha & _). revert HW Ha. generalize (foldl (visit c ds) (newBundle c) (visits [] t)).
  intros b HW Ha.
  destruct (regular_runs scanFuel copyFuel open extension packer acts (walk_nodup t Hproper) (walk_headers t) Hpack
    (NewRegularTarBallComposer q acts)) as (comp & Hrun & Htd & Hrn).
  { by eapply regular_start. }
  assert (regular_ok scanFuel copyFuel open extension packer acts comp) as Hok.
  { eapply rtc_invariant; [|exact Hrun|by eapply regular_start]. intros. by eapply still_step. }
  destruct (regular_final scanFuel copyFuel open extension packer acts comp Hok Htd Hrn) as (q' & HP & Hfq & _).
  destruct (finishUpload_ok stopped b _ q' (rSets comp) control HW Hfq Hctl Hcf) as (u & _ & _ & Hfin & _).
  exists u, (GetUnderlyingMap (rFiles comp)), (bundleTablespaces b). econstructor; try done. by rewrite Ha.
Qed.

(** What every run leaves. *)
Lemma run_composed k m threshold stopped u files spec control :
  (0 < k)%nat -> files_still -> has_control control -> (length control < copyFuel)%nat ->
  run k m threshold stopped u files spec ->
  spec = NewTablespaceSpec (Directory c) /\
  exists ups n size sets, composed scanFuel copyFuel open extension packer acts ups files sets /\
    uploads (upQueue u) = ups ++
      [controlTar extension (mkHeader PgControlPath ModeRegular size) control; labelTar extension n stopped].
Proof.
  intros Hk Hstill Hctl Hcf Hup. inversion Hup as [b q comp sets u' HW Hst Hrun HP Hfin]; subst u' files spec.
  destruct (walked_bundle b HW) as (Ha & Hsp & _). split; [done|]. rewrite Ha in Hrun.
  assert (regular_ok scanFuel copyFuel open extension packer acts comp) as Hok.
  { eapply rtc_invariant; [|exact Hrun|by eapply regular_start]. intros. by eapply still_step. }
  unfold regular_PackTarballs in HP. destruct (rTodo comp) eqn:Etd; [|done]. destruct (rRunning comp) eqn:Ern; [|done].
  destruct (regular_final scanFuel copyFuel open extension packer acts comp Hok Etd Ern) as (q' & _ & Hfq & Hcomp).
  destruct (finishUpload_ok stopped b _ q' sets control HW Hfq Hctl Hcf) as (u2 & n & size & Hfin2 & Hups).
  rewrite Hfin in Hfin2. injection Hfin2 as <-. by exists (uploads q'), n, size, (rSets comp).
Qed.

Lemma run_stage k m threshold stopped u files spec control name (dto : BackupSentinelDto SentinelFiles UserData)
    tars base (backups : gmap string Stored) :
  (0 < k)%nat -> files_still -> has_control control -> (length control < copyFuel)%nat ->
  run k m threshold stopped u files spec ->
  Files (content dto) = files -> sfTablespaceSpec (content dto) = (if specEmpty spec then None else Some spec) ->
  seIncrementFrom dto = base -> IsIncremental dto = Ok (if base is Some _ then true else false) ->
  isWalEName name = false \/ base <> None ->
  backups !! name = Some (mkStored dto tars) -> tars ≡ₚ asArchive <$> uploads (upQueue u) ->
  files_inv scanFuel copyFuel open packer acts files /\
  exists st, stName st = name /\ stBackup st = mkStored dto tars /\ stage_ok backups st base /\
    stFiles st ≡ₚ (acts ≫= action_files scanFuel copyFuel open packer) ++ labelFiles stopped control.
Proof.
  intros Hk Hstill Hctl Hcf Hup HF HS Hfrom Hinc Hname Hstored Htars.
  destruct (run_composed k m threshold stopped u files spec control Hk Hstill Hctl Hcf Hup)
    as (Hspec & ups & n & size & sets & Hcomp & Hups).
  pose proof Hcomp as [_ Hfi _ _]. split; [exact Hfi|]. rewrite Hups in Htars.
  eapply pushed_stage; try done.
  - by apply walk_walked.
  - rewrite HS, Hspec. done.
  - unfold IsPgControlRequired. destruct (isWalEName name) eqn:Ew; [|done]. cbn [negb].
    destruct Hname as [?|Hb]; [done|]. rewrite Hinc. destruct base; [done|]. by destruct Hb.
Qed.

(** *** The chain with the new backup *)

Lemma walked_unlisted {files} : walked acts -> files_inv scanFuel copyFuel open packer acts files -> forall x,
  ~ (HasPrefix x "/" = true /\ x <> PgControlPath) -> files !! x = None.
Proof.
  intros Hw [_ Hn] x Hx. destruct (files !! x) as [d|] eqn:E; [|done].
  destruct (list_elem_of_fmap_1 act_name acts x) as (a & -> & Ha); [apply Hn; by rewrite E|].
  by destruct Hx; apply (walked_names _ Hw).
Qed.

Lemma run_restores k m threshold stopped u files spec control name (dto : BackupSentinelDto SentinelFiles UserData)
    tars (backups : gmap string Stored) chain hist W dbDataDirectory fuel rspec :
  (0 < k)%nat -> files_still -> has_control control -> (length control < copyFuel)%nat ->
  run k m threshold stopped u files spec ->
  Files (content dto) = files -> sfTablespaceSpec (content dto) = (if specEmpty spec then None else Some spec) ->
  seIncrementFrom dto = stName <$> head chain ->
  IsIncremental dto = Ok (match head chain with Some _ => true | None => false end) ->
  isWalEName name = false \/ chain <> [] ->
  tars ≡ₚ asArchive <$> uploads (upQueue u) -> backups !! name = None ->
  (chain = [] \/ chain_ok backups chain) ->
  (forall x, x ∈ W -> exists v g older, hist x = (v, g) :: older /\ (length g < fetchFuel)%nat /\
     (v = VFull /\ (x, g) ∈ labelFiles stopped control \/
      exists a, a ∈ acts /\ act_name a = x /\ pushed_as scanFuel copyFuel open packer a v g)) ->
  files_ok fetchFuel chain (older hist) (kept hist W) ->
  (forall x, x ∈ W -> name_ok dbDataDirectory (final_of hist) x (hist x)) ->
  distinct_paths dbDataDirectory W -> no_tablespaces rspec -> (length chain < fuel)%nat ->
  restores (T := T) fetchFuel fuel (<[name := mkStored dto tars]> backups) dbDataDirectory name rspec (Some W) W (final_of hist).
Proof.
  intros Hk Hstill Hctl Hcf Hup HF HS Hfrom Hinc Hname Htars Hfresh Hchain HW Hfiles Hnok Hdist Hrs Hfuel.
  destruct (run_stage k m threshold stopped u files spec control name dto tars (stName <$> head chain)
    (<[name := mkStored dto tars]> backups)) as (Hfi & st & Hsn & Hsb & Hst & Hsf); try done.
  { rewrite Hinc. by destruct chain. }
  { destruct Hname as [?|Hc]; [by left|right]. by destruct chain. }
  { by rewrite lookup_insert_eq. }
  pose proof (walk_walked c ds t Hproper) as Hw.
  pose proof (fetch_chain (T := T) fetchFuel fuel (<[name := mkStored dto tars]> backups) dbDataDirectory (st :: chain) st rspec hist W)
    as Hfetch. rewrite Hsn in Hfetch. apply Hfetch; clear Hfetch; try done.
  - split; [exact Hst|]. destruct chain as [|st0 chain]; [done|]. destruct Hchain as [?|Hch]; [done|]. by apply chain_ok_insert.
  - split; [|exact Hfiles]. intros x Hx. destruct (HW x Hx) as (v & g & old & -> & Hg & [(-> & Hl)|(a & Ha & <- & Hp)]).
    + exists VFull, g, old. split; [done|]. unfold stored_as, stDto. rewrite Hsb. cbn [sentinelDto]. rewrite HF.
      destruct (labelFiles_name _ _ _ _ Hl) as [Hu Hna]. split.
      * rewrite (walked_unlisted (files := files) Hw Hfi x) by done. done.
      * cbn [version_bytes]. exists g. split; [|done]. rewrite Hsf. apply elem_of_app. by right.
    + apply (pushed_file scanFuel copyFuel fetchFuel open packer acts st files a v g old); try done.
      * unfold stDto. by rewrite Hsb.
      * intros y Hy. rewrite Hsf. apply elem_of_app. by left.
      * intros y Hy Hya. rewrite Hsf in Hy. apply elem_of_app in Hy as [Hy|Hy]; [done|].
        apply list_elem_of_fmap in Hya as (a' & Ea & Ha'). destruct (walked_names _ Hw a' Ha') as [Hpre Hc].
        rewrite <- Ea in Hpre, Hc. destruct y as [y g0]. cbn [fst] in *. destruct (labelFiles_name _ _ _ _ Hy) as [_ Hn].
        by destruct Hn.
Qed.

(** *** What [backup-fetch] unwraps *)

(** Not a directory or a link. *)
Definition copied (a : action) : bool := match a with ActHeader _ _ => false | _ => true end.

(** The files of the walk, [pg_control] and the label files. *)
Definition restored_files : gset string :=
  list_to_set (act_name <$> List.filter copied acts) ∪ list_to_set UtilityFilePaths.

Lemma elem_of_restored x : x ∈ restored_files <->
  (exists a, a ∈ acts /\ copied a = true /\ act_name a = x) \/ x ∈ UtilityFilePaths.
Proof.
  unfold restored_files. rewrite elem_of_union, !elem_of_list_to_set, list_elem_of_fmap. split; (intros [Hx|Hx]; [left|by right]).
  - destruct Hx as (a & -> & Ha). apply list_elem_of_In, filter_In in Ha as [Ha Hc]. apply list_elem_of_In in Ha. by exists a.
  - destruct Hx as (a & Ha & Hc & <-). exists a. split; [done|]. apply list_elem_of_In, filter_In. by rewrite <- list_elem_of_In.
Qed.

(** The names in the archives. *)
Lemma run_names k m threshold stopped u files spec control (tars : list (archive (R := bytesReader))) :
  (0 < k)%nat -> files_still -> has_control control -> (length control < copyFuel)%nat ->
  run k m threshold stopped u files spec -> tars ≡ₚ asArchive <$> uploads (upQueue u) ->
  files_inv scanFuel copyFuel open packer acts files /\ forall x, x ∈ (tars ≫= snd).*1 -> x ∈ restored_files.
Proof.
  intros Hk Hstill Hctl Hcf Hup Htars. pose proof (walk_walked c ds t Hproper) as Hw.
  destruct (run_composed k m threshold stopped u files spec control Hk Hstill Hctl Hcf Hup)
    as (_ & ups & n & size & sets & [He Hfi _ _] & Hups). split; [exact Hfi|]. intros x. rewrite Htars, Hups.
  rewrite fmap_app, bind_app, asArchive_files, He, bind_assoc, fmap_app, elem_of_app, elem_of_restored.
  intros [Hx|Hx].
  - left. apply list_elem_of_fmap in Hx as ([y s] & -> & Hx). apply list_elem_of_bind in Hx as (a & Hx & Ha). exists a. split; [done|].
    destruct (action_files_name scanFuel copyFuel open packer acts a Ha Hw) as [E|[bs E]]; unfold action_files in E; rewrite E in Hx;
      [by apply elem_of_nil in Hx|]. apply list_elem_of_singleton in Hx. injection Hx as -> ->. split; [|done].
    destruct a as [cfi|h info|h info]; [done| |done]. cbn in E. unfold entryFile in E. cbn in E.
    by rewrite bool_decide_eq_false_2 in E by (by eapply (walked_headers _ Hw)).
  - right. change (x ∈ [PgControlPath; BackupLabelFilename; TablespaceMapFilename]) in Hx. done.
Qed.

(** The files that the sentinel lists, the directories and links among them,
    and the utility files bring back the same. *)
Lemma run_wanted k m threshold stopped u files spec control name (dto : BackupSentinelDto SentinelFiles UserData)
    tars (backups : gmap string Stored) dbDataDirectory fuel rspec final :
  (0 < k)%nat -> files_still -> has_control control -> (length control < copyFuel)%nat ->
  run k m threshold stopped u files spec -> Files (content dto) = files ->
  tars ≡ₚ asArchive <$> uploads (upQueue u) -> backups !! name = Some (mkStored dto tars) ->
  restores (T := T) fetchFuel fuel backups dbDataDirectory name rspec (Some restored_files) restored_files final ->
  restores (T := T) fetchFuel fuel backups dbDataDirectory name rspec (GetFilesToUnwrap (mkStored dto tars) true)
    restored_files final.
Proof.
  intros Hk Hstill Hctl Hcf Hup HF Htars Hst.
  destruct (run_names k m threshold stopped u files spec control tars Hk Hstill Hctl Hcf Hup Htars) as [[Ha Hn] Hnames].
  unfold GetFilesToUnwrap. cbn [sentinelDto]. rewrite HF. eapply restores_wanted; [exact Hst| | |].
  - intros x. rewrite elem_of_restored, elem_of_union, elem_of_list_to_set, elem_of_dom. intros [(a & Hin & Hc & <-)|Hx]; [left|by right].
    specialize (Ha a Hin). destruct a as [cfi|h info|h info]; [|done|by destruct Ha as (d & -> & _)].
    destruct Ha as (_ & o & Ho & Hd). destruct (Hstill cfi Hin) as (v & g & Hp).
    destruct (pushed_outcome _ _ _ _ _ _ _ Hp) as (o' & Ho' & Hov). assert (o' = o) as -> by congruence.
    cbn [act_name] in Hd |- *. destruct o; [by destruct Hd as (d & -> & _)|by destruct v|by destruct Hd as (d & -> & _)].
  - intros x. rewrite elem_of_union, elem_of_list_to_set, elem_of_dom. cbn [sentinelDto]. by rewrite HF.
  - intros x. rewrite elem_of_union, elem_of_list_to_set, elem_of_dom. cbn [sentinelDto archives]. rewrite HF.
    intros Hx Hni. split; [intros Hin; by apply Hni, Hnames|]. unfold inherited. destruct Hx as [Hx|Hx].
    + destruct (list_elem_of_fmap_1 act_name acts x) as (a & -> & Hin); [by apply Hn|]. specialize (Ha a Hin).
      destruct a as [cfi|h info|h info]; [|by destruct Ha as (d & -> & (-> & -> & _))|]; destruct Hni; apply elem_of_restored; left; eauto.
    + destruct Hni. apply elem_of_restored. by right.
Qed.

(** *** A full backup *)

Section Full.
Hypothesis Hfull : IncrementFromFiles c = ∅.
Hypothesis Hforce : forceIncremental c = false.
Hypothesis Hlsn : IncrementFromLsn c = None.
Hypothesis Hroot : fiIsDir (rootInfo t) = true.

(** The files of the tree that a backup has. *)
Definition backed_up (v : list string * FileInfo) : bool := fiIsRegular v.2 && negb (excludedName v.2).
Definition tree_files : gset string := list_to_set ((fun v => absPath v.1) <$> List.filter backed_up (visits [] t)).

(** What a file holds. *)
Definition data_of (name : string) : list byte := from_option avail [] (open (Directory c +s name)).

(** Each can be read, as long as the walk said. *)
Definition tree_still : Prop := forall rel info, (rel, info) ∈ visits [] t -> backed_up (rel, info) = true ->
  exists f, open (absPath (ds ++ rel)) = Some f /\ fiSize info = Z.of_nat (length (avail f)) /\ (length (avail f) < copyFuel)%nat /\
    (length (avail f) < fetchFuel)%nat.

Lemma visits_root rel info : (rel, info) ∈ visits [] t -> rel = [] -> fiIsDir info = true.
Proof.
  intros Hv ->. destruct t as [info0 ch] eqn:Et. cbn [visits] in Hv. apply elem_of_cons in Hv as [Hv|Hv].
  - by injection Hv as ->.
  - exfalso. pose proof (visits_nodup (height t) [] ds t ltac:(done) ltac:(rewrite Et; exact Hproper)) as Hnd. rewrite Et in Hnd.
    cbn [visits fmap list_fmap fst] in Hnd. apply NoDup_cons in Hnd as [Hni _]. apply Hni.
    by apply (list_elem_of_fmap_2 fst) in Hv.
Qed.

(** The blocks of the paged files have numbers, when pages are verified. *)
Definition tree_numbered : Prop := verifyPageChecksums opts = true -> forall rel info, (rel, info) ∈ visits [] t ->
  backed_up (rel, info) = true -> block_numbers (absPath (ds ++ rel)) (fiSize info).

Lemma full_numbered : tree_numbered -> files_numbered.
Proof.
  intros Hn Hv cfi Ha. apply list_elem_of_bind in Ha as ([rel info] & Ha & Hvis). unfold object_actions in Ha.
  repeat (case_match; try by apply elem_of_nil in Ha); apply list_elem_of_singleton in Ha; simplify_eq.
  apply (Hn Hv rel info Hvis). unfold backed_up. cbn. apply andb_true_iff. split; [done|]. by apply negb_true_iff.
Qed.

Lemma full_still : tree_still -> files_still.
Proof.
  intros Hstill cfi Ha. apply list_elem_of_bind in Ha as ([rel info] & Ha & Hv). unfold object_actions in Ha.
  repeat (case_match; try by apply elem_of_nil in Ha); apply list_elem_of_singleton in Ha; simplify_eq.
  destruct (Hstill rel info Hv) as (f & Ho & Hsz & Hf & _).
  { unfold backed_up. cbn. apply andb_true_iff. split; [done|]. by apply negb_true_iff. }
  exists VFull, (avail f). apply pushed_copy; [|done..]. cbn. by rewrite Hlsn.
Qed.

Lemma tree_file x : x ∈ tree_files -> exists rel info, (rel, info) ∈ visits [] t /\ backed_up (rel, info) = true /\
  x = absPath rel /\ rel <> [] /\ Forall (fun e => simple e = true) rel.
Proof.
  unfold tree_files. rewrite elem_of_list_to_set. intros ([rel info] & -> & Hf)%list_elem_of_fmap.
  apply list_elem_of_In, filter_In in Hf as [Hv Hb]. apply list_elem_of_In in Hv. exists rel, info.
  split; [done|]. split; [done|]. split; [done|]. split.
  - intros E. pose proof (visits_root rel info Hv E) as Hd. unfold backed_up, fiIsRegular, fiIsDir in *. cbn in *. by bool_to_prop; congruence.
  - destruct (visits_below (height t) [] ds t (rel, info)) as (s & E & Hs); [done..|]. cbn in E. by subst.
Qed.

Lemma data_below rel f : open (absPath (ds ++ rel)) = Some f -> data_of (absPath rel) = avail f.
Proof. intros Ho. unfold data_of. rewrite Hdir, <- absPath_app. by rewrite Ho. Qed.

Lemma full_file x control : tree_still -> has_control control -> x ∈ tree_files ->
  (length (data_of x) < fetchFuel)%nat /\
  (x = PgControlPath /\ data_of x = control \/
   exists a, a ∈ acts /\ act_name a = x /\ pushed_as scanFuel copyFuel open packer a VFull (data_of x)).
Proof.
  intros Hstill (ci & cf & Hctl & _ & Hco & Hcav & _) Hx. destruct (tree_file x Hx) as (rel & info & Hv & Hb & -> & Hrel & Hs).
  destruct (Hstill rel info Hv Hb) as (f & Ho & Hsz & Hf & Hff). rewrite (data_below rel f Ho). split; [done|].
  destruct (isPgControl info) eqn:Epg.
  - left. assert ((rel, info) ∈ List.filter (fun v => isPgControl v.2) (visits [] t)) as Hin.
    { apply list_elem_of_In, filter_In. split; [by apply list_elem_of_In|done]. }
    rewrite Hctl in Hin. apply list_elem_of_singleton in Hin. injection Hin as -> ->. split; [done|].
    rewrite Hco in Ho. by injection Ho as <-.
  - right. unfold backed_up in Hb. cbn in Hb. apply andb_true_iff in Hb as [Hreg Hex]. apply negb_true_iff in Hex.
    assert (unchanged c (relName rel) info = false) as Hun.
    { unfold unchanged. by rewrite Hfull, lookup_empty, Hforce. }
    assert (object_actions c ds (rel, info) = [ActFile (mkComposeFileInfo (absPath (ds ++ rel)) info false
      (mkHeader (absPath rel) (fiMode info) (fiSize info)) false)]) as Ea.
    { unfold object_actions. rewrite Epg, Hex, Hreg, Hun, Hfull, Hlsn. destruct rel; [done|]. cbn [relName]. by rewrite lookup_empty. }
    eexists. split; [apply list_elem_of_bind; eexists; split; [|exact Hv]; rewrite Ea; by left|].
    split; [done|]. by apply pushed_copy.
Qed.

(** *** The files that come back *)

(** Files of the tree with the names of the label files would be in their way. *)
Definition no_labels : Prop := "/backup_label" ∉ tree_files /\ "/tablespace_map" ∉ tree_files.

Definition full_files : gset string := tree_files ∪ {[ BackupLabelFilename; TablespaceMapFilename ]}.

(** What they hold. *)
Definition full_data (stopped : stoppedBackup) (name : string) : list byte :=
  if bool_decide (name = BackupLabelFilename) then bkLabel stopped
  else if bool_decide (name = TablespaceMapFilename) then bkOffsetMap stopped else data_of name.

Lemma elem_of_full x : x ∈ full_files <-> x ∈ tree_files \/ x = BackupLabelFilename \/ x = TablespaceMapFilename.
Proof. unfold full_files. set_solver. Qed.

Lemma tree_data stopped x : x ∈ tree_files -> full_data stopped x = data_of x.
Proof.
  intros (rel & _ & _ & _ & -> & Hrel & _)%tree_file. destruct rel as [|e rel]; [done|].
  unfold full_data. by rewrite !bool_decide_eq_false_2.
Qed.

Lemma control_in_tree control : has_control control -> PgControlPath ∈ tree_files.
Proof.
  intros (info & f & Hf & Hm & _). unfold tree_files. apply elem_of_list_to_set, list_elem_of_fmap.
  exists (["global"; "pg_control"], info). split; [done|]. apply list_elem_of_In, filter_In.
  assert ((["global"; "pg_control"], info) ∈ List.filter (fun v => isPgControl v.2) (visits [] t)) as Hin by (rewrite Hf; by left).
  apply list_elem_of_In, filter_In in Hin as [Hv Hc]. split; [done|]. unfold backed_up, fiIsRegular. cbn in Hc |- *.
  rewrite Hm, bool_decide_eq_true_2 by done. apply negb_true_iff. destruct (excludedName info) eqn:Ex; [|done].
  by rewrite excluded_not_control in Hc.
Qed.

(** They are what [backup-fetch] unwraps. *)
Lemma full_restored control : tree_still -> has_control control -> restored_files = full_files.
Proof.
  intros Hstill Hctl. apply set_eq. intros x. rewrite elem_of_restored, elem_of_full.
  unfold UtilityFilePaths. rewrite !elem_of_cons, elem_of_nil. split.
  - intros [(a & Ha & Hc & <-)|[->|[->|[->|[]]]]]; [|left; by eapply control_in_tree|tauto|tauto].
    left. apply list_elem_of_bind in Ha as ([rel info] & Ha & Hv). destruct (object_action _ _ Ha) as [_ ->].
    unfold object_actions in Ha. unfold tree_files. apply elem_of_list_to_set, list_elem_of_fmap. exists (rel, info).
    assert (backed_up (rel, info) = true) as Hb.
    { unfold backed_up. cbn. repeat (case_match; try by apply elem_of_nil in Ha); apply list_elem_of_singleton in Ha; by subst. }
    split; [|apply list_elem_of_In, filter_In; by rewrite <- list_elem_of_In]. cbn [fst]. destruct rel; [|done].
    pose proof (visits_root [] info Hv eq_refl) as Hd. unfold backed_up, fiIsRegular, fiIsDir in *. cbn in *. by bool_to_prop; congruence.
  - intros [Hx|[-> | ->]]; [|tauto|tauto]. destruct (full_file x control Hstill Hctl Hx) as [_ [[-> _]|(a & Ha & <- & Hp)]]; [tauto|].
    left. exists a. split; [done|]. split; [by destruct a; inversion Hp|done].
Qed.

(** How the backup has each of them. *)
Lemma full_version stopped control x : tree_still -> has_control control ->
  (length (bkLabel stopped) < fetchFuel)%nat -> (length (bkOffsetMap stopped) < fetchFuel)%nat -> x ∈ full_files ->
  (length (full_data stopped x) < fetchFuel)%nat /\
  (VFull = VFull /\ (x, full_data stopped x) ∈ labelFiles stopped control \/
   exists a, a ∈ acts /\ act_name a = x /\ pushed_as scanFuel copyFuel open packer a VFull (full_data stopped x)).
Proof.
  intros Hstill Hctl Hl Hm [Hx|[-> | ->]]%elem_of_full; cycle 1.
  { change (full_data stopped BackupLabelFilename) with (bkLabel stopped). split; [done|left]. split; [done|]. by left. }
  { change (full_data stopped TablespaceMapFilename) with (bkOffsetMap stopped). split; [done|left]. split; [done|]. right. by left. }
  rewrite (tree_data stopped x Hx). destruct (full_file x control Hstill Hctl Hx) as [Hlen [[-> Hd]|Ha]]; (split; [done|]); [left|by right].
  split; [done|]. rewrite Hd. unfold labelFiles. apply elem_of_app. right. by left.
Qed.

Lemma full_paths rs : rs <> [] -> Forall (fun e => simple e = true) rs -> no_labels -> distinct_paths (absPath rs) full_files.
Proof.
  intros Hrne Hrs [Hl Hm].
  assert (forall x, x ∈ full_files -> exists rel, pathOf (absPath rs) x = absPath (rs ++ rel) /\
    Forall (fun e => simple e = true) rel /\ (x = absPath rel /\ x ∈ tree_files \/ x <> absPath rel /\ rel = [x])) as Hpath.
  { intros x [Hx|Hx]%elem_of_full.
    - destruct (tree_file x Hx) as (rel & _ & _ & _ & -> & _ & Hs). exists rel. split; [by apply Join_below|]. by split; [|left].
    - exists [x]. assert (simple x = true) as Hs by by destruct Hx as [-> | ->]; vm_compute.
      assert (Forall (fun e => simple e = true) [x]) as Hs1 by by constructor.
      split; [|split; [done|right; split; [by destruct Hx as [-> | ->]|done]]].
      transitivity (Clean (absPath (rs ++ [x]))).
      + rewrite absPath_app. unfold pathOf, Join. rewrite bool_decide_eq_false_2 by by destruct rs. by destruct Hx as [-> | ->].
      + apply Clean_absPath; [by destruct rs|]. by apply Forall_app. }
  intros a b Ha Hb E. destruct (Hpath a Ha) as (ra & Ea & Hsa & Hca), (Hpath b Hb) as (rb & Eb & Hsb & Hcb).
  rewrite Ea, Eb in E. apply absPath_inj in E; [|by apply Forall_app..]. apply app_inv_head in E. subst rb.
  assert (forall x, x ∈ full_files -> simple x = true -> absPath [x] ∈ tree_files -> False) as Hno.
  { intros x [(rel & _ & _ & _ & -> & Hrel & _)%tree_file|[-> | ->]]%elem_of_full Hs Ht; [|by apply Hl|by apply Hm].
    destruct rel as [|e rel]; [done|]. unfold simple in Hs. cbn [absPath foldr allIn] in Hs.
    change (notSlash slash) with false in Hs. by rewrite !andb_false_r in Hs. }
  destruct Hca as [[-> Hta]|[_ ->]], Hcb as [[-> Htb]|[_ E']]; [done| | |by injection E' as ->].
  - subst ra. apply Forall_cons in Hsa as [Hs _]. by destruct (Hno b Hb Hs Hta).
  - apply Forall_cons in Hsa as [Hs _]. by destruct (Hno a Ha Hs Htb).
Qed.
End Full.
End Run.
End Restore.

