(* ===== verification/PushTheorems.v ===== *)
(** * Backups: the theorems

    What the walk over a data directory asks for; that a backup that was
    pushed, full or an increment of a chain, is restored by [backup-fetch]; and
    that a full backup of a data directory ends and brings it back. The examples
    are a small data directory as a tree that the system calls show, and the
    backup of it that is an increment of the chain of two backups of
    [FetchTheorems.FetchExample]. *)

From stdpp Require Import gmap strings relations.
From S2P Require Import Prelude GoIO GoSort WalRecord WalPage WalFile PagedFile GoFS.
From S2P Require Import GoStrings GoPath GoFilepath Timeline DeltaMap Backups BackupMeta BackupMark IncPages IncSpec IncTheorems Tablespace.
From S2P Require Import Unwrap PageVerify Fetch FetchSpec FetchTheorems.
From S2P Require Import TarQueue BundleFiles Packer Composer QueueSpec ComposerSpec ComposerRegular ComposeTheorems.
From S2P Require Import Bundle BundleSpec BackupPush PushSpec PushFetch PushRestore.
Open Scope Z_scope.

(** ** The example *)

Module PushExample.
Import FetchExample.

(** ** The tree *)

Definition dir (name : string) (children : list (string * tree)) : string * tree :=
  (name, Node (mkFileInfo name ModeDir 4096 9) children).
Definition file (name : string) (size : Z) (time : Z) : string * tree :=
  (name, Node (mkFileInfo name ModeRegular size time) []).

(** The files of the excluded ones cannot be opened. *)
Definition theTree : tree := snd (dir "data"
  [file "PG_VERSION" 2 1;
   dir "base" [dir "13" [file "2619" (Z.of_nat (length newData)) 5]];
   dir "global" [file "pg_control" 1 9];
   dir "pg_wal" [file "000000010000000000000001" 16777216 9];
   file "postmaster.pid" 90 9]).

Fixpoint objects (es : list string) (t : tree) : list (string * tree) :=
  match t with
  | Node info children => (absPath es, t) :: concat ((fun ch => objects (es ++ [ch.1]) ch.2) <$> children)
  end.

Definition find (path : string) : option tree := snd <$> List.find (fun o => bool_decide (o.1 = path)) (objects ["data"] theTree).

Definition Lstat (path : string) : res osError FileInfo :=
  match find path with Some t => Ok (rootInfo t) | None => Err NotExist end.
Definition readDirNames (path : string) : res osError (list string) :=
  match find path with Some (Node _ children) => Ok children.*1 | None => Err NotExist end.
Definition ReadDir (path : string) : res osError (list FileInfo) :=
  match find path with Some (Node _ children) => Ok (rootInfo ∘ snd <$> children) | None => Err NotExist end.
Definition Readlink (path : string) : option string := None.

Definition newControl : list byte := control Byte.x03.

Definition open (path : string) : option openFile :=
  if bool_decide (path = "/data/PG_VERSION") then Some (Open versionText)
  else if bool_decide (path = "/data/base/13/2619") then Some (Open newData)
  else if bool_decide (path = "/data/global/pg_control") then Some (Open newControl)
  else None.

Lemma data_simple : Forall (fun e => simple e = true) ["data"].
Proof. apply Forall_singleton. by vm_compute. Qed.

Lemma tree_holds : holds Lstat readDirNames ReadDir ["data"] theTree.
Proof. unfold theTree. cbn [snd dir]. repeat first [constructor|split|by vm_compute]. Qed.

Lemma tree_proper : proper ["data"] theTree.
Proof.
  unfold theTree. cbn [snd dir].
  repeat first [apply proper_node|apply Forall_cons; split|apply Forall_nil_2|apply (bool_decide_unpack (NoDup _)); by vm_compute
    |split; [by vm_compute|split; [by vm_compute|]]|by intros ?].
Qed.

Lemma tree_visits : visits [] theTree =
  [([], mkFileInfo "data" ModeDir 4096 9); (["PG_VERSION"], mkFileInfo "PG_VERSION" ModeRegular 2 1);
   (["base"], mkFileInfo "base" ModeDir 4096 9); (["base"; "13"], mkFileInfo "13" ModeDir 4096 9);
   (["base"; "13"; "2619"], mkFileInfo "2619" ModeRegular (Z.of_nat (length newData)) 5);
   (["global"], mkFileInfo "global" ModeDir 4096 9);
   (["global"; "pg_control"], mkFileInfo "pg_control" ModeRegular 1 9);
   (["pg_wal"], mkFileInfo "pg_wal" ModeDir 4096 9); (["postmaster.pid"], mkFileInfo "postmaster.pid" ModeRegular 90 9)].
Proof. reflexivity. Qed.

Lemma tree_control : has_control ["data"] open theTree newControl.
Proof.
  exists (mkFileInfo "pg_control" ModeRegular 1 9), (Open newControl). rewrite tree_visits. by split_and!.
Qed.

Lemma tree_stays : tree_still ["data"] fuel fuel open theTree.
Proof.
  intros rel info Hv. rewrite tree_visits in Hv. rewrite !elem_of_cons, elem_of_nil in Hv. unfold fuel.
  destruct Hv as [E|[E|[E|[E|[E|[E|[E|[E|[E|[]]]]]]]]]]; injection E as -> ->; intros Hb; try (by vm_compute in Hb).
  - exists (Open versionText). split; [done|]. split; [done|]. cbn [avail length versionText]. change (length (avail (Open versionText))) with 2%nat. lia.
  - exists (Open newData). split; [done|]. change (avail (Open newData)) with newData. split; [done|]. lia.
  - exists (Open newControl). split; [done|]. split; [done|]. change (length (avail (Open newControl))) with 1%nat. lia.
Qed.

(** Page checksums are verified. *)
Definition opts : TarBallFilePackerOptions := NewTarBallFilePackerOptions true false.
Definition stopped : stoppedBackup := mkStopped [Byte.x4c] [] 30.

Lemma newData_numbered : block_numbers "/data/base/13/2619" (Z.of_nat (length newData)).
Proof.
  intros _. split; [|by exists 0; vm_compute]. rewrite (newData_pages : length newData = (3 * psize)%nat).
  rewrite Nat2Z.inj_mul, psize_Z. by vm_compute.
Qed.

Lemma tree_numbers : tree_numbered ["data"] theTree opts.
Proof.
  intros _ rel info Hv. rewrite tree_visits in Hv. rewrite !elem_of_cons, elem_of_nil in Hv.
  destruct Hv as [E|[E|[E|[E|[E|[E|[E|[E|[E|[]]]]]]]]]]; injection E as -> ->; intros Hb; try (by vm_compute in Hb).
  exact newData_numbered.
Qed.

Lemma tree_labels : no_labels theTree.
Proof. split; apply (bool_decide_unpack _); by vm_compute. Qed.

(** ** The increment *)

(** The time of the data file is new, but no block of it is in the delta map. *)
Definition prev : PrevBackupInfo (UserData := unit) := mkPrevBackup deltaName deltaSentinel.
Definition newConfig : BundleConfig := pushBundle (absPath ["data"]) prev false.

Definition newHist (name : string) : list (version * list byte) :=
  if bool_decide (name = PgControlPath) then [(VFull, newControl)]
  else if bool_decide (name = BackupLabelFilename) then [(VFull, bkLabel stopped)]
  else if bool_decide (name = TablespaceMapFilename) then [(VFull, bkOffsetMap stopped)]
  else (VSkip, final_of hist name) :: hist name.

Lemma new_actions : exists dataInfo dataHeader versionInfo versionHeader,
  walk_actions newConfig ["data"] theTree =
    [ActHeader (mkHeader "/" ModeDir 0) (mkFileInfo "data" ModeDir 4096 9); ActSkip versionHeader versionInfo;
     ActHeader (mkHeader "/base" ModeDir 0) (mkFileInfo "base" ModeDir 4096 9);
     ActHeader (mkHeader "/base/13" ModeDir 0) (mkFileInfo "13" ModeDir 4096 9);
     ActFile (mkComposeFileInfo "/data/base/13/2619" dataInfo true dataHeader true);
     ActHeader (mkHeader "/global" ModeDir 0) (mkFileInfo "global" ModeDir 4096 9);
     ActHeader (mkHeader "/pg_wal" ModeDir 0) (mkFileInfo "pg_wal" ModeDir 4096 9)] /\
  hName versionHeader = pgVersionFile /\ hName dataHeader = data.
Proof. unfold walk_actions. rewrite tree_visits. eexists _, _, _, _. split; [by vm_compute|done]. Qed.

Lemma new_file cfi : ActFile cfi ∈ walk_actions newConfig ["data"] theTree ->
  cPath cfi = "/data/base/13/2619" /\ cIsIncremented cfi = true.
Proof.
  destruct new_actions as (i1 & h1 & i2 & h2 & -> & _). rewrite !elem_of_cons, elem_of_nil.
  by intros [E|[E|[E|[E|[E|[E|[E|[]]]]]]]]; simplify_eq.
Qed.

Lemma new_pushed cfi g : ActFile cfi ∈ walk_actions newConfig ["data"] theTree ->
  pushed_as 1 fuel open (regularPacker newConfig (Some ex_map) opts) (ActFile cfi) VSkip g.
Proof. intros [Hp Hi]%new_file. apply pushed_no_bitmap; [done|]. rewrite Hp. by vm_compute. Qed.

Lemma new_still : files_still newConfig ["data"] 1 fuel open theTree (Some ex_map) opts.
Proof. intros cfi Ha. eexists _, []. by apply new_pushed. Qed.

Lemma new_numbers : files_numbered newConfig ["data"] theTree opts.
Proof.
  intros _ cfi Ha. destruct new_actions as (i1 & h1 & i2 & h2 & Ea & _). revert Ha.
  unfold walk_actions. rewrite tree_visits. intros Ha.
  assert (ActFile cfi ∈ object_actions newConfig ["data"] (["base"; "13"; "2619"], mkFileInfo "2619" ModeRegular (Z.of_nat (length newData)) 5)) as Hin.
  { clear Ea. revert Ha. cbn [mbind list_bind]. rewrite !elem_of_app, elem_of_nil.
    intros [H|[H|[H|[H|[H|[H|[H|[H|[H|[]]]]]]]]]]; [..|exact H| | | |]; exfalso; revert H; vm_compute; intros H;
      repeat (apply elem_of_cons in H as [H|H]; [done|]); by apply elem_of_nil in H. }
  unfold object_actions in Hin. repeat (case_match; try by apply elem_of_nil in Hin);
    apply list_elem_of_singleton in Hin; try done. injection Hin as ->. exact newData_numbered.
Qed.

(** What comes back. *)
Definition newW : gset string := restored_files newConfig ["data"] theTree.

Lemma in_new x : x ∈ newW -> (x = data \/ x = pgVersionFile) \/
  x = PgControlPath \/ x = BackupLabelFilename \/ x = TablespaceMapFilename.
Proof.
  unfold newW. rewrite elem_of_restored. destruct new_actions as (i1 & h1 & i2 & h2 & -> & E2 & E1).
  unfold UtilityFilePaths. rewrite !elem_of_cons, elem_of_nil. intros [(a & Ha & Hc & <-)|Hx]; [left|right; tauto].
  rewrite !elem_of_cons, elem_of_nil in Ha. destruct Ha as [->|[->|[->|[->|[->|[->|[->|[]]]]]]]]; try done; [right|left]; done.
Qed.

Lemma newHist_skip x : x = data \/ x = pgVersionFile -> x ∈ W /\
  newHist x = (VSkip, final_of hist x) :: hist x /\ final_of newHist x = final_of hist x.
Proof.
  intros [-> | ->]; (split; [unfold W; set_solver|by split]).
Qed.

Lemma final_length x : x ∈ W -> (length (final_of hist x) < fuel)%nat.
Proof.
  unfold fuel. intros [-> | [-> | ->]]%in_W.
  - change (final_of hist data) with newData. lia.
  - change (length (final_of hist pgVersionFile)) with 2%nat. lia.
  - change (length (final_of hist PgControlPath)) with 1%nat. lia.
Qed.

(** The files that are in the backup for itself. *)
Lemma newHist_label x : x = PgControlPath \/ x = BackupLabelFilename \/ x = TablespaceMapFilename ->
  exists g, newHist x = [(VFull, g)] /\ final_of newHist x = g /\ (length g < 2)%nat /\ (x, g) ∈ labelFiles stopped newControl.
Proof.
  intros [-> | [-> | ->]]; eexists; (split; [reflexivity|]); (split; [reflexivity|]); (split; [vm_compute; lia|]).
  - right. right. by left.
  - by left.
  - right. by left.
Qed.

Lemma new_wanted x : x ∈ newW -> exists v g older, newHist x = (v, g) :: older /\ (length g < fuel)%nat /\
  (v = VFull /\ (x, g) ∈ labelFiles stopped newControl \/
   exists a, a ∈ walk_actions newConfig ["data"] theTree /\ act_name a = x /\
     pushed_as 1 fuel open (regularPacker newConfig (Some ex_map) opts) a v g).
Proof.
  intros [Hx|Hx]%in_new; cycle 1.
  { destruct (newHist_label x Hx) as (g & -> & _ & Hl & Hin). eexists _, _, _. split; [done|]. split; [unfold fuel; lia|by left]. }
  destruct (newHist_skip x Hx) as (HW & -> & _). eexists _, _, _. split; [done|]. split; [by apply final_length|right].
  destruct new_actions as (i1 & h1 & i2 & h2 & Ea & E2 & E1). destruct Hx as [-> | ->].
  - eexists. split; [rewrite Ea; do 4 right; by left|]. split; [exact E1|].
    apply new_pushed. rewrite Ea. do 4 right. by left.
  - eexists. split; [rewrite Ea; right; by left|]. split; [exact E2|]. apply pushed_unchanged.
Qed.

Lemma new_names x : x ∈ newW -> name_ok "/data" (final_of newHist) x (newHist x).
Proof.
  intros [Hx|Hx]%in_new; cycle 1.
  { destruct (newHist_label x Hx) as (g & Eh & Ef & _). rewrite Eh. split_and!; [apply history_full| |].
    - intros i g' _ _ Hg _. rewrite Ef. by apply list_elem_of_singleton in Hg as ->.
    - intros n bl g' Hg. by apply list_elem_of_singleton in Hg. }
  destruct (newHist_skip x Hx) as (HW & Eh & Ef). destruct (hist_ok x HW) as (Hh & Hb & Hd).
  assert (exists v older, hist x = (v, final_of hist x) :: older) as (v & older & E).
  { unfold final_of. destruct (hist x) as [|[v g] l]; [by inversion Hh|eauto]. }
  rewrite Eh. split_and!.
  - rewrite E in Hh |- *. by apply history_skip.
  - intros i g Hi Hm Hg. rewrite Ef in *. apply elem_of_cons in Hg as [-> |Hg]; [done|]. by apply Hb.
  - intros n bl g [Hg|Hg]%elem_of_cons; [done|]. by eapply Hd.
Qed.

Lemma new_files : files_ok fuel [deltaStage; baseStage] (older newHist) (kept newHist newW).
Proof.
  assert (forall x, x ∈ kept newHist newW -> x ∈ W /\ older newHist x = hist x) as Hkept.
  { intros x [Hk [Hx|Hx]%in_new]%elem_of_kept; unfold older.
    - by destruct (newHist_skip x Hx) as (HW & -> & _).
    - destruct (newHist_label x Hx) as (g & E & _). by rewrite E in Hk. }
  assert (forall x, x ∈ kept (older newHist) (kept newHist newW) -> x ∈ kept hist W) as Hkept2.
  { intros x [Hk Hx]%elem_of_kept. destruct (Hkept x Hx) as [HW Eo]. rewrite Eo in Hk. apply elem_of_kept. exact (conj Hk HW). }
  destruct example_files as (Hd & Hb & _). split; [|split].
  - intros x Hx. destruct (Hkept x Hx) as [HW ->]. exact (Hd x HW).
  - intros x Hx. destruct (in_kept x (Hkept2 x Hx)) as [-> | ->]; exact (Hb _ (Hkept2 _ Hx)).
  - apply set_eq. intros x. split; [|by intros ?%elem_of_empty].
    intros [Hk Hin%Hkept2%in_kept]%elem_of_kept. destruct Hin as [-> | ->]; discriminate Hk.
Qed.

Lemma new_paths : distinct_paths "/data" newW.
Proof.
  intros a b Ha%in_new Hb%in_new E.
  destruct Ha as [[->| ->]|[->|[->| ->]]], Hb as [[->| ->]|[->|[->| ->]]]; try done; by vm_compute in E.
Qed.

Lemma new_runs : exists u files spec, uploadBackup fuel open newConfig "lz4" Lstat readDirNames ReadDir Readlink 5 1 2 1 1000000
  (Some ex_map) opts (Ok stopped) true false u files spec.
Proof.
  eapply (upload_runs newConfig ["data"]); [done|done|exact data_simple|exact tree_holds|exact tree_proper|vm_compute; lia|done|exact new_numbers|lia
    |exact new_still|exact tree_control|].
  unfold fuel. change (length newControl) with 1%nat. lia.
Qed.
End PushExample.

(** ** The theorems *)

(** The walk over a data directory without tablespaces succeeds: in the
    order of the directory it asks the composer, for every object that is not
    below an excluded directory, to copy the file (as an increment if it is a
    paged file of the base backup), to skip it when its time is that of the
    base backup, or to add a header - each under a name of its own, headers
    without data -, leaves out the excluded files, and remembers where
    [pg_control] is. *)
Theorem Walk_asks (c : BundleConfig) (ds : list string) (Lstat : string -> res osError FileInfo)
    (readDirNames : string -> res osError (list string)) (ReadDir : string -> res osError (list FileInfo))
    (Readlink : string -> option string) (fuel : nat) (t : tree) :
  Directory c = absPath ds -> ds <> [] -> Forall (fun e => simple e = true) ds ->
  holds Lstat readDirNames ReadDir ds t -> proper ds t -> (height t <= fuel)%nat ->
  exists b, Walk c Lstat readDirNames ReadDir Readlink fuel (Directory c) (newBundle c) = (None, b) /\
    asked b = visits [] t ≫= object_actions c ds /\
    NoDup (act_name <$> asked b) /\ headers_empty (asked b) /\
    bundleTablespaces b = NewTablespaceSpec (Directory c) /\
    Sentinel b = from_option (fun v => Some (v.2, absPath (ds ++ v.1))) None
      (last (List.filter (fun v => isPgControl v.2) (visits [] t))).
Proof.
  intros Hd Hne Hs Hh Hp Hf. eexists. rewrite Hd. split; [by eapply Walk_ok|].
  destruct (foldl_visit c ds (visits [] t) (newBundle c)) as (Ht & Ha & Hsent).
  rewrite Ha, Ht, Hsent. cbn [newBundle asked app bundleTablespaces Bundle.Sentinel]. rewrite Hd.
  split_and!; [done|by apply walk_nodup|by apply walk_headers|done|done].
Qed.

(** C6: A backup of a cluster without tablespaces that was pushed restores, full
    or as an increment of a chain: when [backup-push] has walked the data
    directory, run the regular composer, uploaded [pg_control] and the label
    files and made the sentinel, then [backup-fetch] of that backup - both ways
    to restore, with the archives listed in any order, asked for what the
    sentinel lists and the utility files - leaves exactly the files of the walk
    (no directories or links), [pg_control], [backup_label] and
    [tablespace_map], with the contents they had when they were read.
    What is assumed: the walk sees a tree without tablespace links; each file
    can be read and stays as long as it was, and the new backup stores it
    whole, as an increment against the base, or not at all, as the walk, the
    delta map and the file on disk say ([pushed_as]); if page checksums are
    verified, the blocks of paged files have numbers ([files_numbered]); the
    server stops the backup with both label files on the same timeline; the
    base of an increment is the newest backup of a stored chain, whose
    archives hold the files that are not stored whole as their histories say;
    no two restored names have the same path in the directory; pages with a
    blank header are the same in all versions ([name_ok]); the fuels exceed the
    lengths of the files and of the chain. *)
Theorem push_restores {UserData F B T} `{LawfulSeeker F} `{BitmapLaws B} `{LawfulFile T}
    (ds : list string) (prev : PrevBackupInfo (UserData := UserData)) (force : bool)
    (Lstat : string -> res osError FileInfo) (readDirNames : string -> res osError (list string))
    (ReadDir : string -> res osError (list FileInfo)) (Readlink : string -> option string) (t : tree)
    (open : string -> option F) (extension : string) (deltaMap : option (gmap RelFileNode B)) (opts : TarBallFilePackerOptions)
    (walkFuel scanFuel copyFuel fetchFuel fuel k m : nat) (threshold : Z) (stopped : stoppedBackup)
    (u : uploaded) (files : BackupFileList) (spec : TablespaceSpec) (control : list byte)
    (cur : backupInfo) (pgVersion : Z) (sysid : option Z) (data : UserData) (name : string)
    (dto : BackupSentinelDto SentinelFiles UserData) (tars : list archive)
    (backups : gmap string (StoredBackup (UserData := UserData) (R := bytesReader))) (chain : list stage)
    (hist : string -> list (version * list byte)) (dbDataDirectory : string) (rspec : option TablespaceSpec) :
  let c := pushBundle (absPath ds) prev force in
  let W := restored_files c ds t in
  ds <> [] -> Forall (fun e => simple e = true) ds ->
  holds Lstat readDirNames ReadDir ds t -> proper ds t -> (height t <= walkFuel)%nat ->
  isPgControlTar (".tar." +s extension) = false -> extension <> "" -> files_numbered c ds t opts ->
  files_still c ds scanFuel copyFuel open t deltaMap opts -> has_control ds open t control ->
  (length control < copyFuel)%nat -> (0 < k)%nat ->
  uploadBackup copyFuel open c extension Lstat readDirNames ReadDir Readlink walkFuel scanFuel k m threshold deltaMap opts
    (Ok stopped) true false u files spec ->
  setupDTO prev cur pgVersion sysid data spec files (upSets u) = Ok dto ->
  tars ≡ₚ asArchive <$> uploads (upQueue u) -> backups !! name = None ->
  match BackupStartLSN (prevSentinel prev), chain with
  | None, [] => isWalEName name = false
  | Some _, base :: _ => prevName prev = stName base /\ chain_ok backups chain
  | _, _ => False
  end ->
  (forall x, x ∈ W -> exists v g older, hist x = (v, g) :: older /\ (length g < fetchFuel)%nat /\
     (v = VFull /\ (x, g) ∈ labelFiles stopped control \/
      exists a, a ∈ walk_actions c ds t /\ act_name a = x /\
        pushed_as scanFuel copyFuel open (regularPacker c deltaMap opts) a v g)) ->
  files_ok fetchFuel chain (older hist) (kept hist W) ->
  (forall x, x ∈ W -> name_ok dbDataDirectory (final_of hist) x (hist x)) ->
  distinct_paths dbDataDirectory W -> no_tablespaces rspec -> (length chain < fuel)%nat ->
  restores (T := T) fetchFuel fuel (<[name := mkStored dto tars]> backups) dbDataDirectory name rspec
    (GetFilesToUnwrap (mkStored dto tars) true) W (final_of hist).
Proof.
  intros c W Hds Hs Hh Hp Hht He Hne Hv Hstill Hctl Hcf Hk Hup Hset Htars Hfresh Hbase HW Hfiles Hnok Hdist Hrs Hfuel.
  destruct (setupDTO_incremental prev cur pgVersion sysid data spec files (upSets u) dto Hset) as (HF & HS & Hfrom & Hinc).
  eapply (run_wanted c ds eq_refl Hds Hs); try done; [by rewrite lookup_insert_eq|].
  destruct (BackupStartLSN (prevSentinel prev)) as [lsn|], chain as [|base chain]; try done.
  - destruct Hbase as [Hb Hc].
    eapply (run_restores c ds eq_refl Hds Hs); try done; [by rewrite Hfrom, Hb|by rewrite Hinc, Hfrom|by right|by right].
  - eapply (run_restores c ds eq_refl Hds Hs) with (k := k); try done; [by rewrite Hfrom|by rewrite Hinc, Hfrom|by left|by left].
Qed.

(** ** A full backup, from directory to directory *)

(** C5: A full backup of a data directory without tablespaces ends, whatever
    the order in which the goroutines of its composer run - there is a run
    that ends, and what follows is true of each one - and its sentinel can be
    made; and once the archives and the sentinel are stored, [backup-fetch]
    into an empty directory, asked for what the program asks for - the files
    that the sentinel lists and the utility files -, gives back exactly the
    files of the tree that a backup has, the regular ones that are not excluded
    by their names or below an excluded directory, [pg_control] included, each
    under its own path with what it held, and [backup_label] and
    [tablespace_map] with what the server said when the backup was stopped.
    What is assumed: every file can be read and stays as long as the walk said;
    [pg_control] is in [global] and nowhere else; the tree has no file with the
    path of a label file; if page checksums are verified, the blocks of paged
    files have numbers ([tree_numbered]); the server stops the backup with both
    label files on the same timeline; the fuels exceed the lengths of the
    files and the height of the tree. *)
Theorem full_push_restores {UserData F B T} `{LawfulSeeker F} `{BitmapLaws B} `{LawfulFile T} (noUserData : UserData)
    (ds : list string) (Lstat : string -> res osError FileInfo) (readDirNames : string -> res osError (list string))
    (ReadDir : string -> res osError (list FileInfo)) (Readlink : string -> option string) (t : tree)
    (open : string -> option F) (extension : string) (opts : TarBallFilePackerOptions) (control : list byte)
    (walkFuel scanFuel copyFuel fetchFuel fuel k m : nat) (threshold : Z) (stopped : stoppedBackup) (rs : list string) :
  let prev := noBackup noUserData in
  let c := pushBundle (absPath ds) prev false in
  let run := uploadBackup copyFuel open c extension Lstat readDirNames ReadDir Readlink walkFuel scanFuel k m threshold
    (None : option (gmap RelFileNode B)) opts (Ok stopped) true false in
  ds <> [] -> Forall (fun e => simple e = true) ds -> rs <> [] -> Forall (fun e => simple e = true) rs ->
  holds Lstat readDirNames ReadDir ds t -> proper ds t -> fiIsDir (rootInfo t) = true -> (height t <= walkFuel)%nat ->
  isPgControlTar (".tar." +s extension) = false -> extension <> "" -> tree_numbered ds t opts ->
  tree_still ds copyFuel fetchFuel open t -> has_control ds open t control -> (length control < copyFuel)%nat -> no_labels t ->
  (length (bkLabel stopped) < fetchFuel)%nat -> (length (bkOffsetMap stopped) < fetchFuel)%nat ->
  (0 < k)%nat -> (0 < fuel)%nat ->
  (exists u files spec, run u files spec) /\
  forall u files spec cur pgVersion sysid data name (tars : list archive)
      (backups : gmap string (StoredBackup (UserData := UserData) (R := bytesReader))) rspec,
    run u files spec -> isWalEName name = false -> tars ≡ₚ asArchive <$> uploads (upQueue u) ->
    backups !! name = None -> no_tablespaces rspec ->
    exists dto, setupDTO prev cur pgVersion sysid data spec files (upSets u) = Ok dto /\
      restores (T := T) fetchFuel fuel (<[name := mkStored dto tars]> backups) (absPath rs) name rspec
        (GetFilesToUnwrap (mkStored dto tars) true) (full_files t) (full_data c open stopped).
Proof.
  intros prev c run Hds Hs Hrs Hrs' Hh Hp Hroot Hht He Hne Hv Hstill Hctl Hcf Hnl Hl1 Hl2 Hk Hfuel.
  pose proof (full_still (B := B) c ds scanFuel copyFuel fetchFuel open t extension Hne None opts eq_refl Hstill) as Hfs.
  assert (files_numbered c ds t opts) as Hnum by by eapply full_numbered.
  pose proof (full_restored (B := B) c ds eq_refl Hds Hs Lstat readDirNames ReadDir Readlink walkFuel scanFuel copyFuel fetchFuel
    open t Hh Hp Hht extension He Hne None opts Hnum eq_refl eq_refl eq_refl Hroot control Hstill Hctl) as Hres.
  split; [by eapply (upload_runs c ds eq_refl Hds Hs)|].
  intros u files spec cur pgVersion sysid data name tars backups rspec Hrun Hname Htars Hfresh Hrspec.
  assert (exists dto, setupDTO prev cur pgVersion sysid data spec files (upSets u) = Ok dto) as [dto Hset].
  { unfold setupDTO, NewBackupSentinelDto. cbn. by eexists. }
  exists dto. split; [done|].
  destruct (setupDTO_incremental prev cur pgVersion sysid data spec files (upSets u) dto Hset) as (HF & HS & Hfrom & Hinc).
  rewrite <- Hres.
  eapply (run_wanted c ds eq_refl Hds Hs) with (k := k); try done; [by rewrite lookup_insert_eq|].
  pose proof (run_restores (T := T) c ds eq_refl Hds Hs Lstat readDirNames ReadDir Readlink walkFuel scanFuel copyFuel fetchFuel open t
    Hh Hp Hht extension He Hne None opts Hnum k m threshold stopped u files spec control name dto tars backups []
    (fun x => [(VFull, full_data c open stopped x)]) (restored_files c ds t) (absPath rs) fuel rspec) as Hr.
  cbn [head stName fmap option_fmap option_map length] in Hr. apply Hr; clear Hr; try done.
  - by rewrite Hfrom in Hinc.
  - by left.
  - by left.
  - intros x Hx. eexists _, _, _. split; [done|].
    rewrite Hres in Hx. apply (full_version (B := B) c ds eq_refl Hds Hs Lstat readDirNames ReadDir Readlink walkFuel
      scanFuel copyFuel fetchFuel open t Hh Hp Hht extension He Hne None opts Hnum); done.
  - cbn. apply set_eq. intros x. rewrite elem_of_kept. cbn. set_solver.
  - intros x _. split_and!; [apply history_full| |].
    + intros i g _ _ Hg _. cbn in Hg. apply list_elem_of_singleton in Hg. by subst g.
    + intros n bl g Hg. by apply list_elem_of_singleton in Hg.
  - rewrite Hres. by apply (full_paths (B := B) c ds eq_refl Hds Hs Lstat readDirNames ReadDir Readlink walkFuel open t Hh Hp Hht
      extension He Hne opts Hnum eq_refl eq_refl eq_refl Hroot rs Hrs Hrs' Hnl).
Qed.

(** ** Witnesses *)

Lemma Walk_asks_witness :
  let c := PushExample.newConfig in
  exists b, Walk c PushExample.Lstat PushExample.readDirNames PushExample.ReadDir PushExample.Readlink 5 "/data" (newBundle c) = (None, b) /\
    act_name <$> asked b = ["/"; "/PG_VERSION"; "/base"; "/base/13"; "/base/13/2619"; "/global"; "/pg_wal"] /\
    snd <$> Bundle.Sentinel b = Some "/data/global/pg_control".
Proof.
  destruct (Walk_asks PushExample.newConfig ["data"] PushExample.Lstat PushExample.readDirNames PushExample.ReadDir
    PushExample.Readlink 5 PushExample.theTree) as (b & Hw & Ha & _ & _ & _ & Hs).
  - reflexivity.
  - discriminate.
  - exact PushExample.data_simple.
  - exact PushExample.tree_holds.
  - exact PushExample.tree_proper.
  - vm_compute. lia.
  - exists b. split; [exact Hw|]. split; [rewrite Ha; vm_compute; reflexivity|rewrite Hs; vm_compute; reflexivity].
Defined.

(** An increment on top of the two backups of the chain: the data file and
    [PG_VERSION] are skipped, and come from the older backups. *)
Lemma push_restores_witness : exists u files spec dto,
  uploadBackup FetchExample.fuel PushExample.open PushExample.newConfig "lz4" PushExample.Lstat PushExample.readDirNames
    PushExample.ReadDir PushExample.Readlink 5 1 2 1 1000000 (Some ex_map) PushExample.opts (Ok PushExample.stopped) true false
    u files spec /\
  setupDTO PushExample.prev (mkBackupInfo 25 30 1 0 0) 130000 None tt spec files (upSets u) = Ok dto /\
  restores (T := memFile) FetchExample.fuel 3
    (<["base_000000010000000000000006_D_000000010000000000000004" := mkStored dto (asArchive <$> uploads (upQueue u))]>
       FetchExample.backups) "/data" "base_000000010000000000000006_D_000000010000000000000004" None
    (GetFilesToUnwrap (mkStored dto (asArchive <$> uploads (upQueue u))) true) PushExample.newW (final_of PushExample.newHist).
Proof.
  destruct PushExample.new_runs as (u & files & spec & Hrun). exists u, files, spec.
  destruct (setupDTO PushExample.prev (mkBackupInfo 25 30 1 0 0) 130000 None tt spec files (upSets u)) as [dto|e] eqn:Hset;
    [|discriminate Hset]. exists dto. split; [exact Hrun|]. split; [reflexivity|].
  apply (push_restores ["data"] PushExample.prev false PushExample.Lstat PushExample.readDirNames PushExample.ReadDir
    PushExample.Readlink PushExample.theTree PushExample.open "lz4" (Some ex_map) PushExample.opts 5 1 FetchExample.fuel
    FetchExample.fuel 3 2 1 1000000 PushExample.stopped u files spec PushExample.newControl (mkBackupInfo 25 30 1 0 0) 130000 None tt
    "base_000000010000000000000006_D_000000010000000000000004" dto _ FetchExample.backups
    [FetchExample.deltaStage; FetchExample.baseStage] PushExample.newHist).
  - discriminate.
  - exact PushExample.data_simple.
  - exact PushExample.tree_holds.
  - exact PushExample.tree_proper.
  - vm_compute. lia.
  - reflexivity.
  - discriminate.
  - exact PushExample.new_numbers.
  - exact PushExample.new_still.
  - exact PushExample.tree_control.
  - unfold FetchExample.fuel. change (length PushExample.newControl) with 1%nat. lia.
  - lia.
  - exact Hrun.
  - exact Hset.
  - reflexivity.
  - vm_compute. reflexivity.
  - split; [reflexivity|exact FetchExample.stages_ok].
  - exact PushExample.new_wanted.
  - exact PushExample.new_files.
  - exact PushExample.new_names.
  - exact PushExample.new_paths.
  - exact I.
  - simpl. lia.
Defined.

Lemma full_push_restores_witness :
  let c := pushBundle (absPath ["data"]) (noBackup tt) false in
  let run := uploadBackup FetchExample.fuel PushExample.open c "lz4" PushExample.Lstat PushExample.readDirNames
    PushExample.ReadDir PushExample.Readlink 5 1 2 1 1000000 (None : option (gmap RelFileNode (gset Z))) PushExample.opts
    (Ok PushExample.stopped) true false in
  full_files PushExample.theTree =
    {[ "/PG_VERSION"; "/base/13/2619"; "/global/pg_control"; "backup_label"; "tablespace_map" ]} /\
  (exists u files spec, run u files spec) /\
  forall u files spec, run u files spec ->
    exists dto, setupDTO (noBackup tt) (mkBackupInfo 25 30 1 0 0) 130000 None tt spec files (upSets u) = Ok dto /\
      restores (T := memFile) FetchExample.fuel 1 {[ "base_0" := mkStored dto (asArchive <$> uploads (upQueue u)) ]}
        "/restored" "base_0" None (GetFilesToUnwrap (mkStored dto (asArchive <$> uploads (upQueue u))) true)
        (full_files PushExample.theTree) (full_data c PushExample.open PushExample.stopped).
Proof.
  split; [vm_compute; reflexivity|].
  destruct (full_push_restores (B := gset Z) (T := memFile) tt ["data"] PushExample.Lstat PushExample.readDirNames PushExample.ReadDir
    PushExample.Readlink PushExample.theTree PushExample.open "lz4" PushExample.opts PushExample.newControl 5 1 FetchExample.fuel
    FetchExample.fuel 1 2 1 1000000 PushExample.stopped ["restored"]) as [Hex Hall].
  - discriminate.
  - exact PushExample.data_simple.
  - discriminate.
  - apply Forall_singleton. reflexivity.
  - exact PushExample.tree_holds.
  - exact PushExample.tree_proper.
  - reflexivity.
  - vm_compute. lia.
  - reflexivity.
  - discriminate.
  - exact PushExample.tree_numbers.
  - exact PushExample.tree_stays.
  - exact PushExample.tree_control.
  - unfold FetchExample.fuel. change (length PushExample.newControl) with 1%nat. lia.
  - exact PushExample.tree_labels.
  - unfold FetchExample.fuel. change (length (bkLabel PushExample.stopped)) with 1%nat. lia.
  - unfold FetchExample.fuel. change (length (bkOffsetMap PushExample.stopped)) with 0%nat. lia.
  - lia.
  - lia.
  - split; [exact Hex|]. intros u files spec Hrun.
    exact (Hall u files spec (mkBackupInfo 25 30 1 0 0) 130000 None tt "base_0" _ ∅ None Hrun eq_refl (Permutation_refl _) eq_refl I).
Defined.
