(* ===== verification/PushMark.v ===== *)
(** * The end of a push: marks, metadata and sentinel

    A push leaves the storage so that what a permanent backup is an increment
    of is permanent ([closed]), wherever it stops; and the base that a new
    backup is given is a backup of the storage that it may be an increment
    of. *)

From stdpp Require Import gmap strings relations.
From S2P Require Import Prelude GoIO GoSort WalRecord WalPage WalFile PagedFile GoFS.
From S2P Require Import GoStrings GoPath GoFilepath Timeline Storage DeltaMap Backups BackupMeta BackupMark IncPages Tablespace Unwrap.
From S2P Require Import TarQueue BundleFiles Packer Composer Bundle BackupPush PushRestore.
Open Scope Z_scope.

(** What a folder lists after an object is put is that object or was listed
    before. *)
Class ListingStore (Folder : Type) `{BackupFolder Folder} `{ObjectStore Folder} : Prop :=
  PutObject_listed : forall folder name content folder' objects subs o,
    PutObject folder name content = Ok folder' -> ListFolder folder' = Ok (objects, subs) -> o ∈ objects ->
    GetName o = name \/
    exists objects' subs' o', ListFolder folder = Ok (objects', subs') /\ o' ∈ objects' /\ GetName o' = GetName o.

Section Push.
Context {UserData : Type} {Folder : Type} `{!BackupFolder Folder} `{!ObjectStore Folder}
  `{!ListedStore Folder} `{!ListingStore Folder} `{!Json (BackupSentinelDto SentinelFiles UserData)} `{!Json (ExtendedMetadataDto UserData)}.
Notation Sentinel := (BackupSentinelDto SentinelFiles UserData).
Notation closed := (closed (UserData := UserData)).
Notation permanent := (permanent (UserData := UserData)).
Notation increment_of := (increment_of (UserData := UserData)).
Implicit Types (folder : Folder) (name : string).

Lemma getStopSentinelPath_inj name name' : getStopSentinelPath name = getStopSentinelPath name' -> name = name'.
Proof.
  unfold getStopSentinelPath, SentinelNameFromBackup. intros E. apply (f_equal (fun s => TrimSuffix s SentinelSuffix)) in E.
  by rewrite !TrimSuffix_app in E.
Qed.

(** ** Putting a sentinel *)

Lemma Put_sentinel_fetch folder name body folder' name' :
  PutObject folder (getStopSentinelPath name) body = Ok folder' -> name' <> name ->
  miFetch (UserData := UserData) name' folder' = miFetch name' folder.
Proof.
  intros Hp Hn. cbn. unfold Fetch, FetchMeta, FetchMetadata, IncrementDetailsFetcher_Fetch, FetchSentinel.
  rewrite (PutObject_other _ _ _ _ (getMetadataPath name') Hp) by (apply not_eq_sym, sentinel_not_metadata).
  by rewrite (PutObject_other _ _ _ _ _ Hp) by (intros E; by apply getStopSentinelPath_inj in E).
Qed.

Lemma Put_sentinel_same folder name (dto : Sentinel) body folder' : Marshal dto = Ok body ->
  PutObject folder (getStopSentinelPath name) body = Ok folder' -> FetchSentinel folder' name = Ok dto.
Proof.
  intros Hm Hp. unfold FetchSentinel. rewrite (PutObject_same _ _ _ _ Hp). cbn. by rewrite (Unmarshal_Marshal _ _ Hm).
Qed.

Lemma Put_sentinel_listed folder name body folder' x : backup_name_ok name = true ->
  PutObject folder (getStopSentinelPath name) body = Ok folder' -> listed folder' x -> x = name \/ listed folder x.
Proof.
  intros Hn Hp (objects & subs & o & Hl & Ho & Hs & <-).
  destruct (PutObject_listed _ _ _ _ _ _ _ Hp Hl Ho) as [E|(objects' & subs' & o' & Hl' & Ho' & E)].
  - left. rewrite E. by apply Strip_sentinel.
  - right. exists objects', subs', o'. unfold isSentinel in *. by rewrite E.
Qed.

(** ** The new backup *)

(** Nothing is known of [name] yet. *)
Definition new_name folder name : Prop :=
  backup_name_ok name = true /\ ~ listed folder name /\ forall x, x <> name -> ~ increment_of folder x name.

Lemma new_name_same folder folder' P name : same_but (UserData := UserData) folder folder' P -> new_name folder name -> new_name folder' name.
Proof.
  intros Hs (Hn & Hl & Hi). split; [done|]. split.
  - intros Hl'. by apply Hl, (same_but_listed _ _ _ _ Hs).
  - intros x Hn' Hx. by apply (Hi x Hn'), (same_but_increment _ _ _ _ _ Hs).
Qed.

(** What follows the marks keeps the invariant. *)
Lemma Put_metadata_closed folder name body folder' : new_name folder name -> closed folder ->
  PutObject folder (getMetadataPath name) body = Ok folder' -> closed folder' /\
  (forall x, x <> name -> miFetch (UserData := UserData) x folder' = miFetch x folder) /\
  (forall x, listed folder' x <-> listed folder x) /\ forall x base, increment_of folder' x base -> x <> name -> increment_of folder x base.
Proof.
  intros (_ & Hl & Hi) Hc Hp.
  assert (forall x, x <> name -> miFetch (UserData := UserData) x folder' = miFetch x folder) as Hf.
  { intros x Hx. by apply (Put_metadata_other _ _ _ _ _ Hp). }
  assert (forall x, listed folder' x <-> listed folder x) as Hll.
  { pose proof (PutObject_below _ _ _ _ Hp (getMetadataPath_below name)) as El. intros x. unfold listed.
    destruct (ListFolder folder') as [[o1 s1]|], (ListFolder folder) as [[o2 s2]|]; cbn in El; simplify_eq; [|naive_solver..].
    split; intros (objects & subs & o & E & Ho); injection E as <- <-; eauto. }
  assert (forall x base, increment_of folder' x base -> x <> name -> increment_of folder x base) as Hinc.
  { intros x base (m & d & Hm & Hd) Hx. rewrite Hf in Hm by done. by exists m, d. }
  split_and!; [|done..]. intros x base m Hx (mx & Hmx & Hpx) Hxi Hm. apply Hll in Hx.
  assert (x <> name) as Hxn by (by intros ->). apply Hinc in Hxi; [|done].
  assert (base <> name) as Hbn by (intros ->; by apply (Hi x)).
  rewrite Hf in Hm, Hmx by done. apply (Hc x base m); try done. by exists mx.
Qed.

Lemma Put_sentinel_closed folder name (dto : Sentinel) body folder' : new_name folder name -> closed folder ->
  Marshal dto = Ok body -> PutObject folder (getStopSentinelPath name) body = Ok folder' ->
  (permanent folder' name -> forall base, seIncrementFrom dto = Some base -> base <> name /\ permanent folder base) ->
  closed folder'.
Proof.
  intros (Hn & Hl & Hi) Hc Hm Hp Hbase x base m Hx Hpx Hxi Hmb.
  pose proof (fun y => Put_sentinel_fetch _ _ _ _ y Hp) as Hf.
  destruct (decide (x = name)) as [->|Hxn].
  - specialize (Hbase Hpx base). destruct Hxi as (mn & d & Hmn & Hd & <-).
    assert (seIncrementFrom dto = Some (IncrementFrom d)) as Hfrom.
    { cbn in Hmn. unfold Fetch in Hmn. destruct (FetchMeta folder' name) as [meta|]; [|done]. injection Hmn as <-. cbn in Hd.
      unfold IncrementDetailsFetcher_Fetch in Hd. rewrite (Put_sentinel_same _ _ _ _ _ Hm Hp) in Hd. cbn in Hd.
      destruct (IsIncremental dto) as [[]|]; [|done..]. cbn in Hd. destruct (seIncrementFrom dto); [|done].
      destruct (seIncrementFullName dto); [|done]. destruct (seIncrementCount dto); [|done]. by injection Hd as <-. }
    destruct (Hbase Hfrom) as (Hne & mb & Hmb' & Hpb). rewrite (Hf _ Hne) in Hmb. congruence.
  - destruct (Put_sentinel_listed _ _ _ _ x Hn Hp Hx) as [?|Hlx]; [done|].
    destruct Hxi as (mx & d & Hmx & Hd & Eb). rewrite Hf in Hmx by done.
    assert (increment_of folder x base) as Hxi by by exists mx, d.
    assert (base <> name) as Hbn by (intros ->; by apply (Hi x)). rewrite (Hf _ Hbn) in Hmb.
    destruct Hpx as (mp & Hmp & Hpp). rewrite Hf in Hmp by done. apply (Hc x base m); try done. by exists mp.
Qed.

(** ** The steps *)

Lemma markBackups_ok fuel isPermanent (prev : PrevBackupInfo (UserData := UserData)) (dto : Sentinel) folder folder' oe :
  closed folder -> IsIncremental dto = Ok (if seIncrementFrom dto then true else false) ->
  (forall base, seIncrementFrom dto = Some base -> base = prevName prev) ->
  markBackups fuel isPermanent prev dto folder = (folder', oe) ->
  closed folder' /\ same_but (UserData := UserData) folder folder' (fun _ => True) /\
  (forall x, permanent folder x -> permanent folder' x) /\
  (oe = None -> isPermanent = true -> forall base a, seIncrementFrom dto = Some base ->
     ancestor (UserData := UserData) folder base a -> permanent folder' a).
Proof.
  intros Hc Hinc Hfrom. unfold markBackups. destruct isPermanent.
  - rewrite Hinc. destruct (seIncrementFrom dto) as [base|].
    + rewrite <- (Hfrom base eq_refl). intros Hm.
      destruct (MarkBackup_marked fuel base folder folder' oe Hc Hm) as (Hc' & Hs & Hg & Ha).
      split; [done|]. split; [by eapply same_but_weaken|]. split; [done|]. intros Ho _ ? a [= <-]. by apply Ha.
    + intros [= <- <-]. split; [done|]. split; [apply same_but_refl|done].
  - intros [= <- <-]. split; [done|]. split; [apply same_but_refl|done].
Qed.

Lemma uploadMetadata_ok isPermanent dataDir startTime now hostname name (dto : Sentinel) folder folder' oe :
  closed folder -> new_name folder name ->
  (forall base, seIncrementFrom dto = Some base -> base <> name /\ (isPermanent = true -> permanent folder base)) ->
  uploadMetadata isPermanent dataDir startTime now hostname name dto folder = (folder', oe) ->
  closed folder' /\ (forall x, x <> name -> miFetch (UserData := UserData) x folder' = miFetch x folder) /\
  (oe = None -> FetchSentinel folder' name = Ok dto /\ exists meta, FetchMetadata folder' name = Ok meta /\ emIsPermanent meta = isPermanent).
Proof.
  intros Hc Hnew Hbase. unfold uploadMetadata.
  destruct (NewExtendedMetadataDto isPermanent dataDir startTime now hostname dto) as [meta|] eqn:Emeta; cbn [mbind res_bind];
    [|by intros [= <- <-]].
  assert (emIsPermanent meta = isPermanent) as Hmp.
  { unfold NewExtendedMetadataDto in Emeta. destruct (BackupStartLSN dto), (BackupFinishLSN dto); [|done..]. by injection Emeta as <-. }
  unfold UploadMetadata. destruct (Marshal meta) as [body|] eqn:Em; cbn [mbind res_bind]; [|by intros [= <- <-]].
  destruct (PutObject folder (getMetadataPath name) body) as [f2|] eqn:Ep; [|by intros [= <- <-]].
  destruct (Put_metadata_closed folder name body f2 Hnew Hc Ep) as (Hc2 & Hf2 & Hl2 & Hi2).
  unfold UploadSentinel. destruct (Marshal dto) as [body'|] eqn:Em'; cbn [mbind res_bind]; [|by intros [= <- <-]].
  destruct (PutObject f2 (getStopSentinelPath name) body') as [f3|] eqn:Ep'; intros [= <- <-]; [|by split_and!].
  assert (FetchMetadata f3 name = Ok meta) as Hm3.
  { unfold FetchMetadata. rewrite (PutObject_other _ _ _ _ (getMetadataPath name) Ep') by (apply not_eq_sym, sentinel_not_metadata).
    exact (Put_metadata_same _ _ _ _ _ Em Ep). }
  destruct Hnew as (Hn & Hl & Hi).
  assert (~ listed f2 name) as Hl2' by (by rewrite Hl2).
  assert (new_name f2 name) as Hnew2.
  { split; [done|]. split; [done|]. intros x Hx Hxi. by apply (Hi x Hx), Hi2. }
  split; [|split].
  - apply (Put_sentinel_closed f2 name dto body' f3 Hnew2 Hc2 Em' Ep'). intros (mn & Hmn & Hpn) base Eb.
    destruct (Hbase base Eb) as [Hne Hperm]. split; [done|].
    cbn in Hmn. unfold Fetch in Hmn. rewrite (proj2 (FetchMeta_ok _ _ _) Hm3) in Hmn. injection Hmn as <-. cbn in Hpn.
    destruct Hperm as (mb & Hmb & Hpb); [congruence|]. exists mb. by rewrite Hf2.
  - intros x Hx. by rewrite (Put_sentinel_fetch _ _ _ _ _ Ep' Hx), Hf2.
  - intros _. split; [by eapply Put_sentinel_same|]. by exists meta.
Qed.

(** The bases of the new backup, before and after. *)
Lemma new_ancestor folder folder1 folder' P name base a : new_name folder name -> same_but (UserData := UserData) folder folder1 P ->
  (forall x, x <> name -> miFetch (UserData := UserData) x folder' = miFetch x folder1) ->
  base <> name -> ancestor (UserData := UserData) folder' base a -> ancestor (UserData := UserData) folder base a /\ a <> name.
Proof.
  intros (_ & _ & Hi) Hs Hf Hne Ha. induction Ha as [|x y z Hxy _ IH]; [split; [apply rtc_refl|done]|].
  assert (increment_of folder x y) as Hxy'.
  { apply (same_but_increment _ _ _ _ _ Hs). destruct Hxy as (m & d & Hm & Hd). rewrite Hf in Hm by done. by exists m, d. }
  destruct IH as [IH Hz]; [intros ->; by apply (Hi x)|]. split; [by eapply rtc_l|done].
Qed.

Lemma sentinel_increment folder name (dto : Sentinel) base : FetchSentinel folder name = Ok dto ->
  increment_of folder name base -> seIncrementFrom dto = Some base.
Proof.
  intros Hs (m & d & Hm & Hd & <-). cbn in Hm. unfold Fetch in Hm. destruct (FetchMeta folder name); [|done].
  injection Hm as <-. cbn in Hd. unfold IncrementDetailsFetcher_Fetch in Hd. rewrite Hs in Hd. cbn in Hd.
  destruct (IsIncremental dto) as [[]|]; [|done..]. cbn in Hd. destruct (seIncrementFrom dto); [|done].
  destruct (seIncrementFullName dto); [|done]. destruct (seIncrementCount dto); [|done]. by injection Hd as <-.
Qed.

(** C14: The end of a push - the marks of the bases of a permanent increment,
    the metadata, the sentinel - leaves the storage, wherever it stops, so
    that what a permanent backup is an increment of is permanent; no backup
    loses its permanence; and when it succeeds, the sentinel of the new backup
    is as it was made, the backup is permanent if and only if that was asked,
    and then so is every backup it is, directly or not, an increment of. The
    name of the new backup must not be in use: one that is stored is not this
    one, nor an increment of it. *)
Theorem finishBackup_closed (fuel : nat) (isPermanent : bool) (prev : PrevBackupInfo (UserData := UserData))
    (cur : backupInfo) (pgVersion : Z) (sysid : option Z) (data : UserData) (spec : TablespaceSpec) (files : BackupFileList)
    (sets : TarFileSets) (dataDir : string) (startTime now : Z) (hostname name : string) (dto : Sentinel)
    (folder folder' : Folder) (oe : option pgError) :
  closed folder -> new_name folder name -> name <> prevName prev ->
  setupDTO prev cur pgVersion sysid data spec files sets = Ok dto ->
  finishBackup fuel isPermanent prev dataDir startTime now hostname name dto folder = (folder', oe) ->
  closed folder' /\ (forall x, x <> name -> permanent folder x -> permanent folder' x) /\
  (oe = None -> FetchSentinel folder' name = Ok dto /\ (permanent folder' name <-> isPermanent = true) /\
     (isPermanent = true -> forall a, ancestor (UserData := UserData) folder' name a -> permanent folder' a)).
Proof.
  intros Hc Hnew Hne Hset. destruct (setupDTO_incremental prev cur pgVersion sysid data spec files sets dto Hset) as (_ & _ & Hfrom & Hinc).
  assert (forall base, seIncrementFrom dto = Some base -> base = prevName prev) as Hbase.
  { intros base Eb. rewrite Hfrom in Eb. destruct (BackupStartLSN _); [by injection Eb|done]. }
  unfold finishBackup. destruct (markBackups fuel isPermanent prev dto folder) as [folder1 oe1] eqn:Em.
  destruct (markBackups_ok fuel isPermanent prev dto folder folder1 oe1 Hc Hinc Hbase Em) as (Hc1 & Hs & Hg & Ha).
  destruct oe1 as [err|]; [intros [= <- <-]; split_and!; [done|by auto|done]|]. intros Hu.
  pose proof (uploadMetadata_ok isPermanent dataDir startTime now hostname name dto folder1 folder' oe Hc1
    (new_name_same _ _ _ _ Hs Hnew)) as Hup.
  destruct Hup as (Hc' & Hf & Hok); [|exact Hu|].
  { intros base Eb. pose proof (Hbase base Eb) as ->. split; [by apply not_eq_sym|]. intros Hp. apply (Ha eq_refl Hp (prevName prev)); [exact Eb|apply rtc_refl]. }
  split; [done|]. split; [intros x Hx (m & Hm & Hp)%Hg; exists m; by rewrite Hf|]. intros Ho.
  destruct (Hok Ho) as (Hsent & meta & Hmeta & Hmp). split; [done|].
  assert (permanent folder' name <-> isPermanent = true) as Hpn.
  { rewrite <- Hmp. unfold BackupMark.permanent. cbn. unfold Fetch. rewrite (proj2 (FetchMeta_ok _ _ _) Hmeta). cbn.
    split; [by intros (m & [= <-] & Hp)|eauto]. }
  split; [done|]. intros Hp a Hna. apply rtc_inv in Hna as [<-|(base & Hi & Hba)]; [by apply Hpn|].
  pose proof (sentinel_increment _ _ _ _ Hsent Hi) as Eb.
  destruct (new_ancestor folder folder1 folder' _ name base a Hnew Hs Hf) as [Hanc Han]; [by rewrite (Hbase base Eb)|done|].
  destruct (Ha eq_refl Hp base a Eb Hanc) as (m & Hm & Hpm). exists m. by rewrite Hf.
Qed.

(** ** The base *)

(** The base of a new backup, if it is given one, is a backup of the
    storage that can be one: the selected backup has its sentinel and its
    metadata, the chain that the new backup makes longer stays within
    [maxDeltas], and unless the new backup is permanent or starts from the
    full one, the selected backup is not permanent; the base is that backup,
    or the full backup of its chain, its sentinel is the one that is stored,
    and it has a start LSN. Without a usable selection there is no base. *)
Theorem configureDeltaBackup_spec (noUserData : UserData) (maxDeltas : Z) (fromFull isPermanent : bool)
    (selected : res pgError string) (folder : Folder) (count : Z) (prev : PrevBackupInfo (UserData := UserData)) :
  configureDeltaBackup noUserData maxDeltas fromFull isPermanent selected folder = Ok (count, prev) ->
  (prev = noBackup noUserData /\ isDelta prev = false) \/
  exists name (s : Sentinel) meta, selected = Ok name /\ maxDeltas <> 0 /\
    FetchSentinel folder name = Ok s /\ FetchMeta folder name = Ok meta /\
    count = from_option (fun c => c + 1) 1 (seIncrementCount s) /\ count <= maxDeltas /\
    (isPermanent = true \/ fromFull = true \/ emIsPermanent meta = false) /\
    prevName prev = (if fromFull then default name (seIncrementFullName s) else name) /\
    FetchSentinel folder (prevName prev) = Ok (prevSentinel prev) /\ is_Some (BackupStartLSN (prevSentinel prev)).
Proof.
  unfold configureDeltaBackup. destruct (maxDeltas =? 0) eqn:E0; [intros [= <- <-]; by left|].
  apply Z.eqb_neq in E0. destruct selected as [name|err]; [|destruct err; try done; intros [= <- <-]; by left].
  destruct (FetchSentinel folder name) as [s|] eqn:Es; [|done]. cbn [mbind res_bind].
  set (n := match seIncrementCount s with Some c => c + 1 | None => 1 end).
  destruct (maxDeltas <? n) eqn:En; [intros [= <- <-]; by left|]. apply Z.ltb_ge in En.
  destruct (BackupStartLSN s) as [lsn|] eqn:El; [|intros [= <- <-]; by left].
  destruct (FetchMeta folder name) as [meta|] eqn:Em; [|intros [= <- <-]; by left].
  destruct (negb isPermanent && negb fromFull && emIsPermanent meta) eqn:Eg; [intros [= <- <-]; by left|].
  assert (isPermanent = true \/ fromFull = true \/ emIsPermanent meta = false) as Hp.
  { destruct isPermanent, fromFull, (emIsPermanent meta); cbn in Eg; auto. }
  assert (n = from_option (fun c => c + 1) 1 (seIncrementCount s)) as Hn by (unfold n; by destruct (seIncrementCount s)).
  destruct fromFull.
  - destruct (FetchSentinel folder (default name (seIncrementFullName s))) as [s'|] eqn:Es'; [|done]. cbn [mbind res_bind].
    destruct (BackupStartLSN s') eqn:El'; [|done]. intros [= <- <-]. right. exists name, s, meta. cbn. rewrite El'. by split_and!.
  - intros [= <- <-]. right. exists name, s, meta. cbn. rewrite El. by split_and!.
Qed.
End Push.

(** ** Example storage *)

Module PushMem.
Import PgMem.

Lemma below_put_listed p name c l o : o ∈ Mem.below (Mem.mkFolder (fst <$> put (p +s name) c l) p) ->
  GetName o = name \/ o ∈ Mem.below (Mem.mkFolder (fst <$> l) p).
Proof.
  unfold Mem.below. cbn [Mem.files Mem.path]. induction l as [|oc l IH]; cbn [put].
  - cbn [fmap list_fmap fst mbind list_bind GetName]. rewrite HasPrefix_app, sdrop_app by done.
    intros Ho. left. apply elem_of_app in Ho as [->%list_elem_of_singleton|Ho%elem_of_nil]; done.
  - destruct (named (p +s name) oc) eqn:E; [by right|]. cbn [fmap list_fmap mbind list_bind]. rewrite !elem_of_app.
    intros [Ho|[?|?]%IH]; auto.
Qed.

#[global] Instance pgListing : ListingStore Folder.
Proof.
  intros f name c f' objects subs o [= <-] [= <- _] Ho. apply list_elem_of_In, filter_In in Ho as [Ho Hn].
  apply list_elem_of_In, below_put_listed in Ho as [?|Ho]; [by left|right].
  eexists _, _, o. split; [reflexivity|]. split; [|done]. apply list_elem_of_In, filter_In. by rewrite <- list_elem_of_In.
Qed.

(** The sentinels of a full backup and of an increment of it are one byte. *)
Definition fullSentinel : BackupSentinelDto SentinelFiles unit :=
  mkSentinel (Some 5) None None None None (mkSentinelFiles ∅ ∅ None) 0 (Some 6) None 0 0 tt.
Definition incrSentinel : BackupSentinelDto SentinelFiles unit :=
  mkSentinel (Some 7) (Some 5) (Some base2) (Some base2) (Some 1) (mkSentinelFiles ∅ ∅ None) 0 (Some 8) None 0 0 tt.

#[global] Instance location_eq : EqDecision TablespaceLocation.
Proof. solve_decision. Defined.
#[global] Instance tablespaceSpec_eq : EqDecision TablespaceSpec.
Proof. solve_decision. Defined.
#[global] Instance corrupt_eq : EqDecision CorruptBlocksInfo.
Proof. solve_decision. Defined.
#[global] Instance description_eq : EqDecision BackupFileDescription.
Proof. solve_decision. Defined.
#[global] Instance sentinelFiles_eq : EqDecision SentinelFiles.
Proof. solve_decision. Defined.
#[global] Instance sentinel_eq : EqDecision (BackupSentinelDto SentinelFiles unit).
Proof. solve_decision. Defined.

#[global] Program Instance filesJson : Json (BackupSentinelDto SentinelFiles unit) := {|
  Marshal dto := if decide (dto = fullSentinel) then Ok [Byte.x00] else if decide (dto = incrSentinel) then Ok [Byte.x01]
                 else Err (External "unsupported value");
  Unmarshal c := if decide (c = [Byte.x00]) then Ok fullSentinel else if decide (c = [Byte.x01]) then Ok incrSentinel
                 else Err (External "unexpected end of JSON input")
|}.
Next Obligation. intros dto c. cbn. repeat case_decide; intros [= <-]; by subst. Qed.

(** A full backup that is not permanent. *)
Definition before : Folder := mkFolder
  [(mkObject (SentinelNameFromBackup base2) 1 1, [Byte.x00]);
   (mkObject (getMetadataPath base2) 1 1, encodeMetadata (metadataOf false 5 6))] "".

Definition fullBackup : PrevBackupInfo (UserData := unit) := mkPrevBackup base2 fullSentinel.
End PushMem.

Lemma finishBackup_closed_witness : exists folder',
  finishBackup 5 true PushMem.fullBackup "" 0 0 "" PgMem.base4 PushMem.incrSentinel PushMem.before = (folder', None) /\
  permanent (UserData := unit) folder' PgMem.base4 /\ permanent (UserData := unit) folder' PgMem.base2.
Proof.
  assert (exists folder', finishBackup 5 true PushMem.fullBackup "" 0 0 "" PgMem.base4 PushMem.incrSentinel PushMem.before = (folder', None))
    as [folder' E] by (eexists; vm_compute; reflexivity).
  exists folder'. split; [exact E|].
  assert (forall x base, ~ increment_of (UserData := unit) PushMem.before x base) as Hno.
  { intros x base (m & d & Hm & Hd & _). revert Hd. cbn in Hm. unfold Fetch in Hm.
    destruct (FetchMeta PushMem.before x) as [meta|]; [|discriminate Hm]. injection Hm as <-. cbn [incrementDetails].
    unfold IncrementDetailsFetcher_Fetch, FetchSentinel. destruct (ReadObject _ _) as [c|] eqn:Er; [|discriminate]. cbn.
    repeat case_decide; try discriminate. subst c. exfalso. revert Er. cbn -[PgMem.get]. unfold PgMem.get. cbn.
    unfold PgMem.named. repeat case_bool_decide; discriminate. }
  destruct (finishBackup_closed 5 true PushMem.fullBackup (mkBackupInfo 7 8 1 0 0) 0 None tt (NewTablespaceSpec "/data") ∅ ∅ "" 0 0 ""
    PgMem.base4 PushMem.incrSentinel PushMem.before folder' None) as (_ & _ & Hok).
  - intros x base m _ _ Hi. by apply Hno in Hi.
  - split; [vm_compute; reflexivity|]. split; [|intros x _; apply Hno].
    intros (objects & subs & o & El & Ho & _ & En). injection El as <- _. revert En. vm_compute in Ho.
    apply elem_of_cons in Ho as [->|Ho]; [by vm_compute|by apply elem_of_nil in Ho].
  - discriminate.
  - vm_compute. reflexivity.
  - exact E.
  - destruct (Hok eq_refl) as (_ & Hp & Ha). split; [by apply Hp|]. apply (Ha eq_refl). eapply rtc_l; [|apply rtc_refl].
    assert (miFetch PgMem.base4 folder' = Ok (mkMetadata PgMem.base4 0 0 "" 0 0 true
      (Ok (Some (mkIncrementDetails PgMem.base2 PgMem.base2 1))) tt)) as Em.
    { assert (folder' = (finishBackup 5 true PushMem.fullBackup "" 0 0 "" PgMem.base4 PushMem.incrSentinel PushMem.before).1) as -> by by rewrite E.
      vm_compute. reflexivity. }
    exists (mkMetadata PgMem.base4 0 0 "" 0 0 true (Ok (Some (mkIncrementDetails PgMem.base2 PgMem.base2 1))) tt),
      (mkIncrementDetails PgMem.base2 PgMem.base2 1). split; [exact Em|]. split; reflexivity.
Defined.

Lemma configureDeltaBackup_spec_witness :
  configureDeltaBackup tt 6 false false (Ok PgMem.base2) PushMem.before = Ok (1, PushMem.fullBackup) /\
  FetchSentinel PushMem.before PgMem.base2 = Ok PushMem.fullSentinel.
Proof.
  assert (configureDeltaBackup tt 6 false false (Ok PgMem.base2) PushMem.before = Ok (1, PushMem.fullBackup)) as E
    by (vm_compute; reflexivity).
  split; [exact E|].
  destruct (configureDeltaBackup_spec tt 6 false false (Ok PgMem.base2) PushMem.before 1 PushMem.fullBackup E)
    as [[En _]|(name & s & meta & _ & _ & _ & _ & _ & _ & _ & _ & Hs & _)]; [discriminate En|exact Hs].
Defined.
