(* ===== verification/WalArchive.v ===== *)
(** * Archiving one WAL file

    [src/internal/asm] (which files the archive has already), [uploader.go]
    and, in [src/internal/databases/postgres], [wal_uploader.go] and the
    functions of [wal_push_handler.go] that upload one file. The local files,
    the storage, the compressor with the crypter, and the folder of the marks
    are parameters. *)

From stdpp Require Import gmap strings.
From S2P Require Import Prelude GoIO WalRecord WalPage WalFile GoStrings GoPath GoFilepath Timeline Storage BackupMeta Delta DeltaManager Tablespace.
Open Scope Z_scope.

(** ** [asm] *)

(** [filepath.Dir] *)
Definition Dir (path : string) : string := Clean (fst (Split path)).

Definition GetOnlyWalName (filePath : string) : string :=
  let filePath := Base filePath in TrimSuffix filePath (Ext filePath).

(** [asm.ArchiveStatusManager] *)
Class ArchiveStatusManager (A : Type) := {
  IsWalAlreadyUploaded : A -> string -> bool;
  MarkWalUploaded : A -> string -> res pgError A;
  UnmarkWalFile : A -> string -> res pgError A;
  RenameReady : A -> string -> res pgError A
}.

(** What marking and unmarking promise: a mark is seen only for a file with
    the same key as one that was marked. *)
Class ArchiveStatusLaws (A : Type) `{ArchiveStatusManager A} := {
  statusKey : string -> string;
  mark_seen a x a' y : MarkWalUploaded a x = Ok a' -> IsWalAlreadyUploaded a' y = true ->
    IsWalAlreadyUploaded a y = true \/ statusKey y = statusKey x;
  unmark_seen a x a' y : UnmarkWalFile a x = Ok a' -> IsWalAlreadyUploaded a' y = true ->
    IsWalAlreadyUploaded a y = true
}.

(** The files of [fsutil.DataFolder] that [DataFolderASM] uses; an operation
    that succeeds does what it says. *)
Class StatusFolder (D : Type) := {
  FileExists : D -> string -> bool;
  CreateFile : D -> string -> res pgError D;
  DeleteFile : D -> string -> res pgError D;
  RenameFile : D -> string -> string -> res pgError D;
  CreateFile_ok d x d' y : CreateFile d x = Ok d' -> FileExists d' y = bool_decide (y = x) || FileExists d y;
  DeleteFile_ok d x d' y : DeleteFile d x = Ok d' -> FileExists d' y = negb (bool_decide (y = x)) && FileExists d y;
  RenameFile_ok d x x' d' y : RenameFile d x x' = Ok d' ->
    FileExists d' y = bool_decide (y = x') || (negb (bool_decide (y = x)) && FileExists d y)
}.

(** [asm.DataFolderASM] *)
Record DataFolderASM (D : Type) := NewDataFolderASM { asmFolder : D }.
Arguments NewDataFolderASM {D}.
Arguments asmFolder {D}.

Section DataFolder.
Context {D : Type} `{StatusFolder D}.

#[export] Instance DataFolderASM_ops : ArchiveStatusManager (DataFolderASM D) := {
  IsWalAlreadyUploaded asm walFilePath := FileExists (asmFolder asm) (GetOnlyWalName walFilePath);
  MarkWalUploaded asm walFilePath := NewDataFolderASM <$> CreateFile (asmFolder asm) (GetOnlyWalName walFilePath);
  UnmarkWalFile asm walFilePath := NewDataFolderASM <$> DeleteFile (asmFolder asm) (GetOnlyWalName walFilePath);
  RenameReady asm walFileName :=
    NewDataFolderASM <$> RenameFile (asmFolder asm) (walFileName +s ".ready") (walFileName +s ".done")
}.

#[export] Program Instance DataFolderASM_laws : ArchiveStatusLaws (DataFolderASM D) := {| statusKey := GetOnlyWalName |}.
Next Obligation.
  intros a x a' y. cbn. destruct (CreateFile _ _) as [d|] eqn:E; [|done]. intros [= <-]. cbn.
  rewrite (CreateFile_ok _ _ _ _ E), orb_true_iff, bool_decide_eq_true. tauto.
Qed.
Next Obligation.
  intros a x a' y. cbn. destruct (DeleteFile _ _) as [d|] eqn:E; [|done]. intros [= <-]. cbn.
  rewrite (DeleteFile_ok _ _ _ _ E), andb_true_iff. tauto.
Qed.
End DataFolder.

(** [asm.NopASM] *)
Inductive NopASM := NewNopASM.

#[export] Instance NopASM_ops : ArchiveStatusManager NopASM := {
  IsWalAlreadyUploaded _ _ := false;
  MarkWalUploaded asm _ := Ok asm;
  UnmarkWalFile asm _ := Ok asm;
  RenameReady asm _ := Ok asm
}.

#[export] Program Instance NopASM_laws : ArchiveStatusLaws NopASM := {| statusKey x := x |}.
Next Obligation. done. Qed.
Next Obligation. done. Qed.

(** ** Uploading *)

Definition CantOverwriteWalFileError (walFilePath : string) : pgError :=
  External ("WAL file '" +s walFilePath +s "' already archived, contents differ, unable to overwrite").

Section Upload.
Context {cfg : WalConfig} {Folder : Type} `{ObjectStore Folder} {DF : Type} `{DataFolder DF}.
Notation Manager := (DeltaFileManager DF).

#[export] Instance objectStorageFolder : StorageFolder Folder := BackupMeta.ReadObject.

(** [CompressAndEncrypt] with its extension, and [compression.Decompressors]. *)
Variable compress : list byte -> res pgError (list byte).
Variable extension : string.
Variable Decompressors : list Decompressor.
(** The bytes of a local file. *)
Variable readFile : string -> res pgError (list byte).
(** The buffers with which the compressor reads so many bytes to their end. *)
Variable readSizes : nat -> list nat.

(** The uploader: its folder, and its delta manager when deltas are used. *)
Record WalUploader := mkWalUploader { UploadingFolder : Folder; DeltaManager_ : option Manager }.

(** [Uploader.UploadFile] of a reader that gives [content]. *)
Definition UploadFile (filename : string) (content : res pgError (list byte)) (folder : Folder) : res pgError Folder :=
  fileReader ← content;
  compressedFile ← compress fileReader;
  PutObject folder (SanitizePath (Base filename +s "." +s extension)) compressedFile.

(** What is read of a WAL file while its blocks are recorded. *)
Definition readRecording (file : list byte) (filename : string) (m : Manager) : res pgError (list byte) * Manager :=
  match NewWalDeltaRecordingReader (file : bytesReader) filename m with
  | (Err _, m) => (Ok file, m)
  | (Ok recordingReader, m) =>
      match reads (readSizes (length file)) recordingReader m with
      | (bs, err, recordingReader, m) =>
          let '(_, m) := Close recordingReader m in
          (match err with None | Some EOF => Ok bs | Some err => Err (WalParsing err) end, m)
      end
  end.

Definition UploadWalFile (file : list byte) (name : string) (u : WalUploader) : option pgError * WalUploader :=
  let filename := Base name in
  let '(content, m) :=
    match DeltaManager_ u with
    | Some m => if isWalFilename filename then let '(content, m) := readRecording file filename m in (content, Some m)
                else (Ok file, Some m)
    | None => (Ok file, None)
    end in
  match UploadFile name content (UploadingFolder u) with
  | Ok folder => (None, mkWalUploader folder m)
  | Err err => (Some err, mkWalUploader (UploadingFolder u) m)
  end.

(** Whether the archive has the file, with an error if it differs. [cache] is
    the cached extension of the last decompressor. *)
Definition checkWALOverwrite (cache : option string) (folder : Folder) (walFilePath : string) : bool * option pgError :=
  match fst (DownloadAndDecompressStorageFile Decompressors cache folder (Base walFilePath)) with
  | Err (ArchiveNonExistenceError _) => (false, None)
  | Err err => (false, Some err)
  | Ok (archived, Some err) => (false, Some err)
  | Ok (archived, None) =>
      match readFile walFilePath with
      | Err err => (false, Some err)
      | Ok localBytes => if bool_decide (archived = localBytes) then (true, None)
                         else (true, Some (CantOverwriteWalFileError walFilePath))
      end
  end.

(** [uploadWALFile] is its two halves: whether the file is to be uploaded, and
    the upload. [None]: it is. *)
Definition beforeUpload (preventWalOverwrite : bool) (cache : option string) (folder : Folder) (walFilePath : string)
    : option (option pgError) :=
  if preventWalOverwrite then
    match checkWALOverwrite cache folder walFilePath with
    | (true, err) => Some err
    | (false, Some err) => Some (Some (Wrapped "Couldn't check whether there is an overwrite attempt due to inner error" err))
    | (false, None) => None
    end
  else None.

Definition openAndUpload (walFilePath : string) (u : WalUploader) : option pgError * WalUploader :=
  match readFile walFilePath with
  | Err err => (Some (Wrapped "upload: could not open" err), u)
  | Ok walFile =>
      match UploadWalFile walFile walFilePath u with
      | (Some err, u) => (Some (Wrapped "upload: could not Upload" err), u)
      | (None, u) => (None, u)
      end
  end.

Definition uploadWALFile (preventWalOverwrite : bool) (cache : option string) (walFilePath : string) (u : WalUploader)
    : option pgError * WalUploader :=
  match beforeUpload preventWalOverwrite cache (UploadingFolder u) walFilePath with
  | Some err => (err, u)
  | None => openAndUpload walFilePath u
  end.
End Upload.
Arguments WalUploader : clear implicits.

(** ** Names *)

Definition notDot (c : Ascii.ascii) : bool := negb (bool_decide (c = Ascii.ascii_of_nat 46)).

(** The extension of an object is what follows its last dot. *)
Lemma dotted_inj x : forall y e e', allIn notDot e = true -> allIn notDot e' = true ->
  x +s "." +s e = y +s "." +s e' -> x = y /\ e = e'.
Proof.
  assert (forall y e, allIn notDot (y +s "." +s e) = false) as Hdot.
  { intros y e. induction y as [|c y IH]; [done|]. cbn. cbn in IH. rewrite IH. by rewrite andb_false_r. }
  induction x as [|c x IH]; intros [|c' y] e e' He He' E; cbn in E.
  - by injection E as ->.
  - injection E as <- E. assert (allIn notDot e = false) as Hf by (rewrite E; apply Hdot). congruence.
  - injection E as -> E. assert (allIn notDot e' = false) as Hf by (rewrite <- E; apply Hdot). congruence.
  - injection E as -> E. destruct (IH y e e' He He' E) as [-> ->]. done.
Qed.

Lemma Dir_absPath es e : es <> [] -> Forall (fun e => simple e = true) es -> simple e = true ->
  Dir (absPath (es ++ [e])) = absPath es.
Proof.
  intros Hne Hes He. unfold Dir. rewrite absPath_app. cbn [absPath foldr]. rewrite append_nil_r.
  pose proof (simple_ok e He) as (_ & _ & _ & Hn). rewrite Split_app by done.
  cbn [fst]. pose proof (Join_below es [] Hne Hes ltac:(constructor)) as HJ. rewrite app_nil_r in HJ. rewrite <- HJ at 2.
  unfold Join. rewrite bool_decide_eq_false_2 by by destruct es. done.
Qed.

Lemma SanitizePath_name x y : simple x = true -> SanitizePath (x +s y) = x +s y.
Proof.
  intros (Hne & _ & _ & Hs)%simple_ok. destruct x as [|c x]; [done|]. cbn in Hs |- *. unfold SanitizePath. cbn.
  apply andb_true_iff in Hs as [Hc _]. unfold notSlash in Hc. bool_to_prop. by rewrite bool_decide_eq_false_2.
Qed.

(** ** Lemmas: one upload *)

Section UploadLemmas.
Context {cfg : WalConfig} {Folder : Type} `{ObjectStore Folder} {DF : Type} `{DataFolder DF}.
Variable compress : list byte -> res pgError (list byte).
Variable extension : string.
Variable Decompressors : list Decompressor.
Variable readFile : string -> res pgError (list byte).
Variable readSizes : nat -> list nat.
Notation Uploader := (WalUploader Folder DF).

(** Every reader reads to the end; what is compressed is decompressed again by
    the decompressor of its extension; extensions have no dots. *)
Record CompressionLaws : Prop := {
  reads_all n : (n < sum_list (readSizes n))%nat;
  decompresses d file c : d ∈ Decompressors -> FileExtension d = extension -> compress file = Ok c ->
    Decompress d c = (file, None);
  own_decompressor : exists d, d ∈ Decompressors /\ FileExtension d = extension;
  extension_dots d : d ∈ Decompressors -> allIn notDot (FileExtension d) = true
}.
Context (laws : CompressionLaws).

(** The archive has the file: under one of the known extensions, an object
    that decompresses to these bytes. *)
Definition archived (folder : Folder) (x : string) (file : list byte) : Prop :=
  exists d content, d ∈ Decompressors /\ BackupMeta.ReadObject folder (x +s "." +s FileExtension d) = Ok content /\
    Decompress d content = (file, None).

(** A WAL segment is whole pages. *)
Definition whole (x : string) (file : list byte) : Prop :=
  isWalFilename x = true -> whole_pages (length file) = true.

Lemma extension_noDot : allIn notDot extension = true.
Proof. destruct (own_decompressor laws) as (d & Hd & <-). by apply (extension_dots laws). Qed.

Lemma readRecording_ok file filename m : whole_pages (length file) = true ->
  fst (readRecording (DF := DF) readSizes file filename m) = Ok file.
Proof.
  intros Hw. unfold readRecording, NewWalDeltaRecordingReader.
  destruct (tryOpenParserAndRecorders filename m) as [[[[p c] w]|e] m1]; [|done].
  destruct (reads_ok (S := bytesReader) (readSizes (length file)) (mkRecordingReader (file : bytesReader) p [] (Some c) w true) m1)
    as (r' & m' & Hr & _); [exact Hw|]. rewrite Hr. pose proof (reads_all laws (length file)) as Hlt.
  change (stream (mkRecordingReader (file : bytesReader) p [] (Some c) w true)) with file in *.
  rewrite (proj2 (Nat.leb_gt _ _)) by lia. rewrite take_ge by lia. by destruct (Close r' m').
Qed.

(** An upload that succeeds has put the compressed file. *)
Lemma UploadWalFile_ok file name (u u' : Uploader) : simple (Base name) = true -> whole (Base name) file ->
  UploadWalFile compress extension readSizes file name u = (None, u') ->
  exists c, compress file = Ok c /\
    PutObject (UploadingFolder u) (Base name +s "." +s extension) c = Ok (UploadingFolder u').
Proof.
  intros Hs Hw. unfold UploadWalFile.
  assert (forall m, fst (readRecording (DF := DF) readSizes file (Base name) m) = Ok file \/ isWalFilename (Base name) = false) as Hr.
  { intros m. destruct (isWalFilename (Base name)) eqn:E; [left|by right]. by apply readRecording_ok, Hw. }
  set (cm := match DeltaManager_ u with Some m => _ | None => _ end).
  assert (fst cm = Ok file) as Hc.
  { unfold cm. destruct (DeltaManager_ u) as [m|]; [|done]. destruct (Hr m) as [Ha| ->]; [|done].
    destruct (isWalFilename (Base name)); [|done]. by destruct (readRecording _ _ _ m) as [c' m']; cbn in *. }
  destruct cm as [content m]. cbn in Hc. subst content. unfold UploadFile. cbn [mbind res_bind].
  destruct (compress file) as [c|]; [|done]. cbn [mbind res_bind]. rewrite SanitizePath_name by done.
  destruct (PutObject _ _ c) as [f|] eqn:E; [|done]. intros [= <-]. by exists c.
Qed.

Lemma UploadWalFile_failed file name (u u' : Uploader) err :
  UploadWalFile compress extension readSizes file name u = (Some err, u') -> UploadingFolder u' = UploadingFolder u.
Proof.
  unfold UploadWalFile. destruct (match DeltaManager_ u with Some m => _ | None => _ end) as [content m].
  destruct (UploadFile _ _ _ _ _); [done|]. by intros [= _ <-].
Qed.

Lemma openAndUpload_ok path (u u' : Uploader) err : simple (Base path) = true ->
  (forall file, readFile path = Ok file -> whole (Base path) file) ->
  openAndUpload compress extension readFile readSizes path u = (err, u') ->
  UploadingFolder u' = UploadingFolder u \/
  exists file c, readFile path = Ok file /\ compress file = Ok c /\
    PutObject (UploadingFolder u) (Base path +s "." +s extension) c = Ok (UploadingFolder u') .
Proof.
  intros Hs Hw. unfold openAndUpload. destruct (readFile path) as [file|e]; [|intros [= <- <-]; by left].
  destruct (UploadWalFile _ _ _ file path u) as [[e|] u1] eqn:E; intros [= <- <-].
  - left. by eapply UploadWalFile_failed.
  - right. destruct (UploadWalFile_ok file path u u1 Hs (Hw _ eq_refl) E) as (c & Hc & Hp). by exists file, c.
Qed.

Lemma openAndUpload_done path (u u' : Uploader) : simple (Base path) = true ->
  (forall file, readFile path = Ok file -> whole (Base path) file) ->
  openAndUpload compress extension readFile readSizes path u = (None, u') ->
  exists file c, readFile path = Ok file /\ compress file = Ok c /\
    PutObject (UploadingFolder u) (Base path +s "." +s extension) c = Ok (UploadingFolder u').
Proof.
  intros Hs Hw. unfold openAndUpload. destruct (readFile path) as [file|e]; [|done].
  destruct (UploadWalFile _ _ _ file path u) as [[e|] u1] eqn:E; intros [= <-].
  destruct (UploadWalFile_ok file path u u1 Hs (Hw _ eq_refl) E) as (c & Hc & Hp). by exists file, c.
Qed.

(** *** The archive after it *)

Lemma put_archives (folder folder' : Folder) x file c : compress file = Ok c ->
  PutObject folder (x +s "." +s extension) c = Ok folder' -> archived folder' x file.
Proof.
  intros Hc Hp. destruct (own_decompressor laws) as (d & Hd & He). exists d, c. split; [done|]. split.
  - rewrite He. by eapply PutObject_same.
  - by eapply (decompresses laws).
Qed.

Lemma put_keeps_archived (folder folder' : Folder) x c y file : PutObject folder (x +s "." +s extension) c = Ok folder' ->
  y <> x -> archived folder y file -> archived folder' y file.
Proof.
  intros Hp Hne (d & content & Hd & Hr & Hdec). exists d, content. split; [done|]. split; [|done].
  rewrite (PutObject_other _ _ _ _ _ Hp); [done|]. intros E. apply Hne.
  apply dotted_inj in E as [-> _]; [done|by apply (extension_dots laws)|apply extension_noDot].
Qed.

(** Nothing under the names of the file. *)
Definition not_archived (folder : Folder) (x : string) : Prop :=
  forall d content, d ∈ Decompressors -> BackupMeta.ReadObject folder (x +s "." +s FileExtension d) <> Ok content.

Lemma put_keeps_not_archived (folder folder' : Folder) x c y : PutObject folder (x +s "." +s extension) c = Ok folder' ->
  y <> x -> not_archived folder y -> not_archived folder' y.
Proof.
  intros Hp Hne Hn d content Hd. rewrite (PutObject_other _ _ _ _ _ Hp); [by apply Hn|]. intros E. apply Hne.
  apply dotted_inj in E as [-> _]; [done|by apply (extension_dots laws)|apply extension_noDot].
Qed.

Hypothesis Hnodup : NoDup (FileExtension <$> Decompressors).
(** The storage has errors of its own. *)
Hypothesis Hstorage : forall (folder : Folder) path name, BackupMeta.ReadObject folder path <> Err (ArchiveNonExistenceError name).

Lemma beforeUpload_none cache (folder : Folder) path :
  beforeUpload Decompressors readFile true cache folder path = None -> not_archived folder (Base path).
Proof.
  unfold beforeUpload, checkWALOverwrite, DownloadAndDecompressStorageFile. intros Hb d content Hd Hr.
  pose proof (downloadLoop_spec folder (Base path) cache (putCachedDecompressorInFirstPlace Decompressors cache Decompressors)) as Hs.
  destruct (downloadLoop _ _ _ _) as [[[archived [err|]]|err] cache']; cbn [fst] in Hb; [done| |].
  - destruct (readFile path); [|done]. by case_bool_decide.
  - destruct Hs as (_ & [(d' & Hd' & Ho)|(-> & Ho)]).
    + destruct err; try done. unfold object_of, TryDownloadFile in Ho.
      change (Storage.ReadObject folder (Base path +s "." +s FileExtension d')) with
        (BackupMeta.ReadObject folder (Base path +s "." +s FileExtension d')) in Ho.
      destruct (BackupMeta.ReadObject folder (Base path +s "." +s FileExtension d')) as [c0|e0] eqn:E0; [done|].
      assert (e0 = ArchiveNonExistenceError name) as -> by (by destruct (PgCause e0); simplify_eq).
      by apply Hstorage in E0.
    + specialize (Ho d ltac:(by apply putCached_elem)). unfold object_of, TryDownloadFile in Ho.
      change (Storage.ReadObject folder (Base path +s "." +s FileExtension d)) with
        (BackupMeta.ReadObject folder (Base path +s "." +s FileExtension d)) in Ho. by rewrite Hr in Ho.
Qed.

Lemma beforeUpload_same cache (folder : Folder) path :
  beforeUpload Decompressors readFile true cache folder path = Some None ->
  exists file, readFile path = Ok file /\ archived folder (Base path) file.
Proof.
  unfold beforeUpload, checkWALOverwrite, DownloadAndDecompressStorageFile. intros Hb.
  pose proof (downloadLoop_spec folder (Base path) cache (putCachedDecompressorInFirstPlace Decompressors cache Decompressors)) as Hs.
  destruct (downloadLoop _ _ _ _) as [[[archived [err|]]|err] cache']; cbn [fst] in Hb; [done| |by destruct err].
  destruct (readFile path) as [file|]; [|done]. case_bool_decide as E; [|done]. exists file. split; [done|].
  destruct Hs as (d & content & Hd & Ho & Ed & _). exists d, content.
  split; [by apply putCached_elem in Hd|]. subst archived. split; [|done].
  unfold object_of, TryDownloadFile in Ho.
  change (Storage.ReadObject folder (Base path +s "." +s FileExtension d)) with
    (BackupMeta.ReadObject folder (Base path +s "." +s FileExtension d)) in Ho.
  destruct (BackupMeta.ReadObject folder _) as [c0|e0]; [by injection Ho as ->|by destruct (PgCause e0)].
Qed.
End UploadLemmas.
Arguments reads_all {_ _ _ _} _ _.
Arguments decompresses {_ _ _ _} _ _ _ _.
Arguments own_decompressor {_ _ _ _} _.
Arguments extension_dots {_ _ _ _} _ _ _.
