(* ===== verification/WalMetadata.v ===== *)
(** * Metadata of WAL files

    [src/internal/databases/postgres/wal_metadata_uploader.go]: the time of a
    WAL file goes to the storage in an object of its own or, in bulk, is kept
    in a local folder until the last of the sixteen files of a series is
    archived, when one object takes them all. *)

From stdpp Require Import gmap strings.
From S2P Require Import Prelude GoIO GoStrings GoPath Timeline BackupMeta.
Open Scope Z_scope.

Definition WalBulkMetadataLevel : string := "BULK".
Definition WalIndividualMetadataLevel : string := "INDIVIDUAL".
Definition WalNoMetadataLevel : string := "NOMETADATA".
Definition WalMetadataLevels : list string := [WalBulkMetadataLevel; WalIndividualMetadataLevel; WalNoMetadataLevel].

Record WalMetadataDescription := mkWalMetadata { CreatedTime : Z; wmDatetimeFormat : string }.

Notation WalMetadataMap := (gmap string WalMetadataDescription).

(** The local folder of the metadata: [filepath.Glob] gives the names of its
    files that have a prefix and end in [.json]; a file that is removed is
    gone, and a failure leaves it. *)
Class MetadataFolder (M : Type) `{ObjectStore M} := {
  Glob : M -> string -> list string;
  RemoveFile : M -> string -> option pgError * M;
  Glob_ok m prefix f : f ∈ Glob m prefix <->
    (exists content, ReadObject m f = Ok content) /\ HasPrefix f prefix = true /\ HasSuffix f ".json" = true;
  RemoveFile_other m f m' err f' : RemoveFile m f = (err, m') -> f' <> f -> ReadObject m' f' = ReadObject m f';
  RemoveFile_same m f m' : RemoveFile m f = (None, m') -> forall content, ReadObject m' f <> Ok content;
  RemoveFile_failed m f m' err : RemoveFile m f = (Some err, m') -> m' = m
}.

Section Metadata.
Context {Folder : Type} `{ObjectStore Folder} {M : Type} `{MetadataFolder M} `{!Json WalMetadataMap}.

Definition checkWalMetadataLevel (walMetadataLevel : string) : bool := bool_decide (walMetadataLevel ∈ WalMetadataLevels).

(** Whether the metadata are uploaded in bulk. *)
Definition NewWalMetadataUploader (walMetadataSetting : string) : res pgError bool :=
  if negb (checkWalMetadataLevel walMetadataSetting) then Err (External ("got incorrect Wal metadata level: " +s walMetadataSetting))
  else Ok (bool_decide (walMetadataSetting = WalBulkMetadataLevel)).

(** The maps of the files one after the other; an entry of a later file
    replaces that of an earlier one. *)
Fixpoint readMetadataFiles (walMetadataFiles : list string) (meta : M) (walMetadata : WalMetadataMap) : res pgError WalMetadataMap :=
  match walMetadataFiles with
  | [] => Ok walMetadata
  | walMetadataFile :: walMetadataFiles =>
      file ← ReadObject meta walMetadataFile;
      entries ← Unmarshal file;
      readMetadataFiles walMetadataFiles meta (entries ∪ walMetadata)
  end.

(** The error that is left is that of the last file. *)
Fixpoint removeMetadataFiles (walMetadataFiles : list string) (meta : M) (err : option pgError) : option pgError * M :=
  match walMetadataFiles with
  | [] => (err, meta)
  | walMetadataFile :: walMetadataFiles =>
      let '(err, meta) := RemoveFile meta walMetadataFile in removeMetadataFiles walMetadataFiles meta err
  end.

(** The storage and the local folder as they are left, with the error. *)
Definition uploadBulkMetadataFile (walFileName : string) (folder : Folder) (meta : M) : option pgError * (Folder * M) :=
  if bool_decide (walFileName = "") then (Some Panic, (folder, meta))
  else if negb (bool_decide (sdrop (slen walFileName - 1) walFileName = "F")) then (None, (folder, meta))
  else
    let walSearchString := stake (slen walFileName - 1) walFileName in
    let walMetadataFiles := Glob meta walSearchString in
    match (walMetadata ← readMetadataFiles walMetadataFiles meta ∅;
           dtoBody ← Marshal walMetadata;
           PutObject folder (walSearchString +s ".json") dtoBody) with
    | Err err => (Some err, (folder, meta))
    | Ok folder =>
        match removeMetadataFiles walMetadataFiles meta None with
        | (Some err, meta) => (Some (Wrapped "Unable to upload bulk wal metadata" err), (folder, meta))
        | (None, meta) => (None, (folder, meta))
        end
    end.

Definition UploadWalMetadata (useBulkMetadataUpload : bool) (walFileName : string) (createdTime : Z) (folder : Folder) (meta : M)
    : option pgError * (Folder * M) :=
  let walMetadataName := walFileName +s ".json" in
  let walMetadataMap : WalMetadataMap := {[ walFileName := mkWalMetadata createdTime MetadataDatetimeFormat ]} in
  match Marshal walMetadataMap with
  | Err err => (Some (Wrapped "Unable to marshal walmetadata" err), (folder, meta))
  | Ok dtoBody =>
      if useBulkMetadataUpload then
        match PutObject meta walMetadataName dtoBody with
        | Err err => (Some (Wrapped "upload: could not Upload metadata" err), (folder, meta))
        | Ok meta =>
            match uploadBulkMetadataFile walFileName folder meta with
            | (Some err, rest) => (Some (Wrapped "upload: could not Upload metadata" err), rest)
            | (None, rest) => (None, rest)
            end
        end
      else match PutObject folder walMetadataName dtoBody with
           | Err err => (Some (Wrapped "upload: could not Upload metadata" err), (folder, meta))
           | Ok folder => (None, (folder, meta))
           end
  end.

(** [uploadLocalWalMetadata]; [modTime] is what [os.Stat] says of the file. *)
Definition uploadLocalWalMetadata (walMetadataSetting : string) (modTime : string -> res pgError Z) (walFilePath : string)
    (folder : Folder) (meta : M) : option pgError * (Folder * M) :=
  if bool_decide (walMetadataSetting = WalNoMetadataLevel) then (None, (folder, meta))
  else match NewWalMetadataUploader walMetadataSetting with
       | Err err => (Some err, (folder, meta))
       | Ok useBulkMetadataUpload =>
           match modTime walFilePath with
           | Err err => (Some (Wrapped "upload: could not stat wal file" err), (folder, meta))
           | Ok createdTime => UploadWalMetadata useBulkMetadataUpload (Base walFilePath) createdTime folder meta
           end
       end.

(** [uploadRemoteWalMetadata]: the time is the clock's. *)
Definition uploadRemoteWalMetadata (walMetadataSetting : string) (now : Z) (walFileName : string)
    (folder : Folder) (meta : M) : option pgError * (Folder * M) :=
  if bool_decide (walMetadataSetting = WalNoMetadataLevel) then (None, (folder, meta))
  else match NewWalMetadataUploader walMetadataSetting with
       | Err err => (Some err, (folder, meta))
       | Ok useBulkMetadataUpload => UploadWalMetadata useBulkMetadataUpload walFileName now folder meta
       end.

(** ** Lemmas *)

Definition unread (meta : M) (f : string) : Prop := forall content, ReadObject meta f <> Ok content.

Lemma removeMetadataFiles_ok l : forall meta meta' err err', removeMetadataFiles l meta err = (err', meta') ->
  (forall f, f ∉ l -> ReadObject meta' f = ReadObject meta f) /\
  (forall f, unread meta f -> unread meta' f).
Proof.
  induction l as [|f0 l IH]; intros meta meta' err err' E; cbn in E; [by injection E as <- <-|].
  destruct (RemoveFile meta f0) as [e1 m1] eqn:Er. destruct (IH _ _ _ _ E) as [Ho Hu]. split.
  - intros f Hf. apply not_elem_of_cons in Hf as [Hne Hf]. rewrite Ho by done. by eapply RemoveFile_other.
  - intros f Hf. apply Hu. destruct (decide (f = f0)) as [->|Hne].
    + destruct e1 as [e|]; [by rewrite (RemoveFile_failed _ _ _ _ Er)|intros c Hc; by eapply RemoveFile_same; [exact Er|exact Hc]].
    + intros c. rewrite (RemoveFile_other _ _ _ _ _ Er Hne). apply Hf.
Qed.

(** The entries are those of the files, each file overriding those before. *)
Lemma readMetadataFiles_ok l meta : forall m0 m, readMetadataFiles l meta m0 = Ok m ->
  (forall f, f ∈ l -> exists content entries, ReadObject meta f = Ok content /\ Unmarshal content = Ok entries /\ dom entries ⊆ dom m) /\
  forall x d, m !! x = Some d -> m0 !! x = Some d \/
    exists f content (entries : WalMetadataMap), f ∈ l /\ ReadObject meta f = Ok content /\ Unmarshal content = Ok entries /\ entries !! x = Some d.
Proof.
  induction l as [|f l IH]; intros m0 m E; cbn in E.
  { injection E as <-. split; [by intros f ?%elem_of_nil|by left]. }
  destruct (ReadObject meta f) as [content|] eqn:Er; [|done]. cbn in E.
  destruct (Unmarshal content) as [entries|] eqn:Eu; [|done]. cbn in E. destruct (IH _ _ E) as [Hd Hx].
  assert (forall x d, (entries ∪ m0) !! x = Some d -> is_Some (m !! x)) as Hmono.
  { clear -E. revert m E. generalize (entries ∪ m0). clear. induction l as [|f l IH]; intros m1 m E x d Hx; cbn in E; [injection E as <-; eauto|].
    destruct (ReadObject meta f) as [c|]; [|done]. cbn in E. destruct (Unmarshal c) as [e|]; [|done]. cbn in E.
    destruct ((e ∪ m1) !! x) as [d'|] eqn:Ex; [by eapply IH|]. apply lookup_union_None in Ex as [_ Ex]. congruence. }
  split.
  - intros f' [->|Hf]%elem_of_cons; [|by apply Hd]. exists content, entries. split; [done|]. split; [done|].
    intros x [d Hxd]%elem_of_dom. apply elem_of_dom. eapply Hmono. by apply lookup_union_Some_l.
  - intros x d Hm. destruct (Hx x d Hm) as [Hu|(f' & c & e & Hf & Hr)]; [|right; exists f', c, e; split; [by right|done]].
    apply lookup_union_Some_raw in Hu as [He|[_ H0']]; [right|by left]. exists f, content, entries. split; [by left|done].
Qed.

(** Only objects whose names end in [.json] are written. *)
Definition json_only (folder folder' : Folder) : Prop :=
  forall name, (forall x, name <> x +s ".json") -> ReadObject folder' name = ReadObject folder name.

Lemma uploadBulkMetadataFile_json walFileName folder meta err folder' meta' :
  uploadBulkMetadataFile walFileName folder meta = (err, (folder', meta')) -> json_only folder folder'.
Proof.
  unfold uploadBulkMetadataFile. case_bool_decide; [by intros [= _ <- _]|]. case_match; [by intros [= _ <- _]|].
  destruct (readMetadataFiles _ _ _) as [m|]; cbn [mbind res_bind]; [|by intros [= _ <- _]].
  destruct (Marshal m) as [dtoBody|]; cbn [mbind res_bind]; [|by intros [= _ <- _]].
  destruct (PutObject folder _ dtoBody) as [f|] eqn:E; [|by intros [= _ <- _]].
  destruct (removeMetadataFiles _ _ _) as [[e|] m']; intros [= _ <- _] name Hn; eapply PutObject_other; eauto.
Qed.

Lemma uploadLocalWalMetadata_json setting modTime path folder meta err folder' meta' :
  uploadLocalWalMetadata setting modTime path folder meta = (err, (folder', meta')) -> json_only folder folder'.
Proof.
  unfold uploadLocalWalMetadata, UploadWalMetadata. case_bool_decide; [by intros [= _ <- _]|].
  destruct (NewWalMetadataUploader _) as [[]|]; [| |by intros [= _ <- _]];
    (destruct (modTime path) as [t|]; [|by intros [= _ <- _]]); (destruct (Marshal _) as [dtoBody|]; [|by intros [= _ <- _]]).
  - destruct (PutObject meta _ dtoBody) as [meta1|]; [|by intros [= _ <- _]].
    destruct (uploadBulkMetadataFile _ folder meta1) as [[e|] [f m]] eqn:E; intros [= _ <- <-]; by eapply uploadBulkMetadataFile_json.
  - destruct (PutObject folder _ dtoBody) as [f|] eqn:E; intros [= _ <- _]; [|done].
    intros name Hn. eapply PutObject_other; eauto.
Qed.

(** The last file of a series. *)
Lemma bulk_series (series : string) (folder folder' : Folder) (meta meta' : M) :
  uploadBulkMetadataFile (series +s "F") folder meta = (None, (folder', meta')) ->
  exists content (m : WalMetadataMap), ReadObject folder' (series +s ".json") = Ok content /\ Unmarshal content = Ok m /\
    (forall f c (entries : WalMetadataMap), HasPrefix f series = true -> HasSuffix f ".json" = true ->
      ReadObject meta f = Ok c -> Unmarshal c = Ok entries -> dom entries ⊆ dom m) /\
    (forall x d, m !! x = Some d -> exists f c (entries : WalMetadataMap),
      HasPrefix f series = true /\ ReadObject meta f = Ok c /\ Unmarshal c = Ok entries /\ entries !! x = Some d) /\
    (forall f, HasPrefix f series = false -> ReadObject meta' f = ReadObject meta f).
Proof.
  unfold uploadBulkMetadataFile. rewrite bool_decide_eq_false_2 by (by destruct series).
  assert (slen (series +s "F") - 1 = slen series)%nat as -> by (rewrite slen_app; cbn; lia).
  rewrite sdrop_app, stake_app, bool_decide_eq_true_2 by done. cbn [negb].
  destruct (readMetadataFiles _ _ _) as [m|] eqn:Er; cbn [mbind res_bind]; [|done].
  destruct (Marshal m) as [content|] eqn:Em; cbn [mbind res_bind]; [|done].
  destruct (PutObject folder _ content) as [f1|] eqn:Ep; [|done].
  destruct (removeMetadataFiles _ _ _) as [[e|] m1] eqn:Erm; intros [= <- <-].
  destruct (readMetadataFiles_ok _ _ _ _ Er) as [Hd Hx]. destruct (removeMetadataFiles_ok _ _ _ _ _ Erm) as [Ho _].
  exists content, m. split; [by eapply PutObject_same|]. split; [by apply Unmarshal_Marshal|]. split; [|split].
  - intros f c entries Hp Hs Hf Hu. destruct (Hd f) as (c' & e' & Hf' & Hu' & Hdom); [apply Glob_ok; eauto|].
    rewrite Hf in Hf'. injection Hf' as <-. rewrite Hu in Hu'. by injection Hu' as <-.
  - intros x d [He|(f & c & entries & Hg & Hr & Hu & He)]%Hx; [by rewrite lookup_empty in He|].
    apply Glob_ok in Hg as (_ & Hp & _). by exists f, c, entries.
  - intros f Hp. apply Ho. intros (_ & Hp' & _)%Glob_ok. congruence.
Qed.

(** C37: with bulk metadata, when the metadata of the last file of a series are
    uploaded without an error, one object of the storage has an entry for every
    file that any of the local metadata of the series has one for, the last
    file's included, and no entries of other origin; and local files of other
    series are as they were. *)
Theorem bulk_metadata (series : string) createdTime (folder folder' : Folder) (meta meta' : M) :
  let walFileName := series +s "F" in
  UploadWalMetadata true walFileName createdTime folder meta = (None, (folder', meta')) ->
  exists content (m : WalMetadataMap), ReadObject folder' (series +s ".json") = Ok content /\ Unmarshal content = Ok m /\
    is_Some (m !! walFileName) /\
    (forall f c (entries : WalMetadataMap), f <> walFileName +s ".json" -> HasPrefix f series = true -> HasSuffix f ".json" = true ->
      ReadObject meta f = Ok c -> Unmarshal c = Ok entries -> dom entries ⊆ dom m) /\
    (forall x d, m !! x = Some d -> (x = walFileName /\ CreatedTime d = createdTime) \/
      exists f c (entries : WalMetadataMap), HasPrefix f series = true /\ ReadObject meta f = Ok c /\ Unmarshal c = Ok entries /\ entries !! x = Some d) /\
    (forall f, HasPrefix f series = false -> ReadObject meta' f = ReadObject meta f).
Proof.
  cbv zeta. unfold UploadWalMetadata. set (own := {[ series +s "F" := _ ]} : WalMetadataMap).
  destruct (Marshal own) as [dtoBody|] eqn:Em; [|done].
  destruct (PutObject meta _ dtoBody) as [meta1|] eqn:Ep; [|done].
  destruct (uploadBulkMetadataFile _ folder meta1) as [[err|] rest] eqn:E; intros [= ->].
  destruct (bulk_series _ _ _ _ _ E) as (content & m & Hr & Hu & Hd & Hx & Ho). exists content, m.
  pose proof (PutObject_same _ _ _ _ Ep) as Hown. split; [exact Hr|]. split; [exact Hu|]. split; [|split; [|split]].
  - apply elem_of_dom, (Hd (series +s "F" +s ".json") dtoBody own).
    + apply HasPrefix_app.
    + rewrite <- app_assoc_s. apply HasSuffix_app.
    + by rewrite <- app_assoc_s.
    + by apply Unmarshal_Marshal.
    + unfold own. set_solver.
  - intros f c entries Hne Hp Hs Hf Huf. apply (Hd f c entries Hp Hs); [|done]. by rewrite (PutObject_other _ _ _ _ _ Ep Hne).
  - intros x d Hm. destruct (Hx x d Hm) as (f & c & entries & Hp & Hf & Huf & He).
    destruct (decide (f = (series +s "F") +s ".json")) as [->|Hne].
    + left. rewrite Hown in Hf. injection Hf as <-. rewrite (Unmarshal_Marshal _ _ Em) in Huf. injection Huf as <-.
      unfold own in He. by apply lookup_singleton_Some in He as [<- <-].
    + right. rewrite (PutObject_other _ _ _ _ _ Ep Hne) in Hf. by exists f, c, entries.
  - intros f Hp. rewrite (Ho f Hp). apply (PutObject_other _ _ _ _ _ Ep). intros ->.
    by rewrite app_assoc_s, HasPrefix_app in Hp.
Qed.
End Metadata.

(** ** Examples *)

(** The storage and the local folder are maps from names; the metadata of two
    files, and of both, are one byte each. *)
Module MetaMem.
#[global] Program Instance gmapStore : ObjectStore (gmap string (list byte)) := {|
  ReadObject f name := match f !! name with Some content => Ok content | None => Err (ObjectNotFoundError name) end;
  PutObject f name content := Ok (<[name := content]> f)
|}.
Next Obligation. intros f name content f'. cbn. intros [= <-]. by rewrite lookup_insert_eq. Qed.
Next Obligation. intros f name content f' name'. cbn. intros [= <-] Hne. by rewrite lookup_insert_ne. Qed.

#[global] Program Instance gmapMetadata : MetadataFolder (gmap string (list byte)) := {|
  Glob m prefix := filter (fun f => HasPrefix f prefix = true /\ HasSuffix f ".json" = true) (elements (dom m));
  RemoveFile m f := (None, delete f m)
|}.
Next Obligation.
  intros m prefix f. rewrite list_elem_of_filter, elem_of_elements, elem_of_dom. cbn.
  destruct (m !! f) as [content|].
  - split; [intros [[Hp Hs] _]; split_and!; [by exists content|done|done]|]. intros (_ & Hp & Hs). split; [done|by exists content].
  - split; [by intros [_ [c Hc]]|by intros [[c Hc] _]].
Qed.
Next Obligation. intros m f m' err f'. cbn. intros [= <- <-] Hne. by rewrite lookup_delete_ne. Qed.
Next Obligation. intros m f m'. cbn. intros [= <-] c. by rewrite lookup_delete_eq. Qed.
Next Obligation. done. Qed.

#[global] Instance description_eq : EqDecision WalMetadataDescription.
Proof. solve_decision. Defined.

Definition series : string := "00000001000000000000000".
Definition fileE : WalMetadataMap := {[ series +s "E" := mkWalMetadata 5 MetadataDatetimeFormat ]}.
Definition fileF : WalMetadataMap := {[ series +s "F" := mkWalMetadata 6 MetadataDatetimeFormat ]}.
Definition both : WalMetadataMap := fileE ∪ fileF.

#[global] Program Instance metaJson : Json WalMetadataMap := {|
  Marshal m := if decide (m = fileE) then Ok [Byte.x01] else if decide (m = fileF) then Ok [Byte.x02]
               else if decide (m = both) then Ok [Byte.x03] else Err (External "unsupported value");
  Unmarshal c := if decide (c = [Byte.x01]) then Ok fileE else if decide (c = [Byte.x02]) then Ok fileF
                 else if decide (c = [Byte.x03]) then Ok both else Err (External "unexpected end of JSON input")
|}.
Next Obligation. intros m c. cbn. repeat case_decide; intros [= <-]; by subst. Qed.

Definition folder0 : gmap string (list byte) := ∅.
Definition meta0 : gmap string (list byte) := {[ series +s "E.json" := [Byte.x01] ]}.
End MetaMem.

Lemma bulk_metadata_witness : exists folder' meta',
  UploadWalMetadata true (MetaMem.series +s "F") 6 MetaMem.folder0 MetaMem.meta0 = (None, (folder', meta')) /\
  exists content (m : WalMetadataMap), ReadObject folder' (MetaMem.series +s ".json") = Ok content /\ Unmarshal content = Ok m /\
    is_Some (m !! (MetaMem.series +s "F")) /\ dom MetaMem.fileE ⊆ dom m.
Proof.
  destruct (UploadWalMetadata true (MetaMem.series +s "F") 6 MetaMem.folder0 MetaMem.meta0) as [err [folder' meta']] eqn:E.
  assert (err = None) as ->.
  { apply (f_equal fst) in E. vm_compute in E. exact (eq_sym E). }
  exists folder', meta'. split; [reflexivity|].
  destruct (bulk_metadata MetaMem.series 6 MetaMem.folder0 folder' MetaMem.meta0 meta' E) as (content & m & Hr & Hu & Hs & Hd & _).
  exists content, m. split; [exact Hr|]. split; [exact Hu|]. split; [exact Hs|].
  apply (Hd (MetaMem.series +s "E.json") [Byte.x01]); [discriminate|reflexivity|reflexivity|vm_compute; reflexivity|reflexivity].
Defined.
