(* ===== verification/WalPush.v ===== *)
(** * Pushing WAL

    [bguploader.go] and [HandleWALPush] of [wal_push_handler.go], in
    [src/internal/databases/postgres], as steps of the goroutines: the main
    one uploads the file it was asked for, one scans [archive_status], one
    takes the names it sends, and one per file uploads. A label says whose
    step is taken, with what [select] chose and what the directory held, so
    that a run is a list of labels; [exec] does one step.

    The semaphore is the count of its permits, by its documentation: an
    [Acquire] takes them when there are enough, and may fail only once its
    context is done. *)

From stdpp Require Import gmap strings relations.
From S2P Require Import Prelude GoIO WalRecord WalPage WalFile GoStrings GoPath GoFilepath Timeline Storage BackupMeta Delta DeltaManager.
From S2P Require Import WalArchive.
From S2P Require Import WalMetadata.
Open Scope Z_scope.

Definition readySuffix : string := ".ready".

(** The settings, and the arguments of [NewBgUploader]. *)
Record PushConfig := mkPushConfig {
  walFilePath : string;
  maxParallelWorkers : Z;
  maxNumUploaded : Z;
  preventWalOverwrite : bool;
  readyRename : bool;
  walMetadataSetting : string
}.

Definition bgDir (cfg : PushConfig) : string := Dir (walFilePath cfg).
Definition firstWalName (cfg : PushConfig) : string := Base (walFilePath cfg).

(** [scanAndProcessFiles]: in its first loop, about to stat the [i]-th file
    or to send it; listing the directory; with the files still to send, the
    pause being the end of them; returned. *)
Inductive scanner :=
| ScanNext (i : Z) (walName : string)
| ScanSendNext (i : Z) (walName : string)
| ScanList
| ScanFiles (files : list string)
| ScanClosed.

(** [processFiles]: receiving; with a name; waiting for a permit; returned. *)
Inductive processor :=
| ProcReceive
| ProcHas (name : string)
| ProcAcquire (name : string)
| ProcEnd.

(** The goroutine of one file. *)
Inductive phase :=
| WCheck
| WPut
| WMark
| WRename
| WRelease (uploadedFile : bool)
| WCount
| WEnd.

(** [HandleWALPush]; [MainReturn] is its early return. *)
Inductive mainPhase :=
| MainUploaded
| MainCheck
| MainPut
| MainMetadata
| MainCancel
| MainAcquire
| MainDone
| MainReturn
| MainFatal (err : pgError).

Inductive scanEvent :=
| CtxDone
| Sent
| StatOf (found : bool)
| DirOf (files : option (list string))
| Timer.

(** A step of one goroutine; [cache] is the cached extension of the last
    decompressor that an upload finds. *)
Inductive label :=
| Scan (ev : scanEvent)
| Process (acquired : bool)
| Work (i : nat) (cache : option string)
| Main (cache : option string).

#[export] Instance processor_eq_dec : EqDecision processor.
Proof. solve_decision. Defined.
#[export] Instance scanner_eq_dec : EqDecision scanner.
Proof. solve_decision. Defined.

Section Push.
Context {wcfg : WalConfig} {Folder : Type} `{ObjectStore Folder} {DF : Type} `{DataFolder DF}.
Context {A : Type} `{ArchiveStatusManager A} {P : Type} `{ArchiveStatusManager P}.
Context {M : Type} `{ObjectStore M} `{!MetadataFolder M} `{!Json WalMetadataMap}.

Variable compress : list byte -> res pgError (list byte).
Variable extension : string.
Variable Decompressors : list Decompressor.
Variable readFile : string -> res pgError (list byte).
Variable readSizes : nat -> list nat.
(** What [os.Stat] says of the time of a file. *)
Variable modTime : string -> res pgError Z.
(** The names that [archive_status] may hold. *)
Variable statusName : string -> bool.
Variable cfg : PushConfig.

(** The storage with the deltas, the two status managers and the metadata. *)
Record Shared := mkShared { uploader : WalUploader Folder DF; statusManager : A; PGstatusManager : P; metadataFolder : M }.

Record BgState := mkBg {
  shared : Shared;
  scan : scanner;
  proc : processor;
  started : gset string;
  workers : list (string * phase);
  inUse : Z;
  numUploaded : Z;
  cancelled : bool;
  main : mainPhase
}.

Definition set_shared (x : Shared) (s : BgState) : BgState :=
  mkBg x (scan s) (proc s) (started s) (workers s) (inUse s) (numUploaded s) (cancelled s) (main s).
Definition set_scan (x : scanner) (s : BgState) : BgState :=
  mkBg (shared s) x (proc s) (started s) (workers s) (inUse s) (numUploaded s) (cancelled s) (main s).
Definition set_proc (x : processor) (s : BgState) : BgState :=
  mkBg (shared s) (scan s) x (started s) (workers s) (inUse s) (numUploaded s) (cancelled s) (main s).
Definition set_worker (i : nat) (x : string * phase) (s : BgState) : BgState :=
  mkBg (shared s) (scan s) (proc s) (started s) (<[i := x]> (workers s)) (inUse s) (numUploaded s) (cancelled s) (main s).
Definition set_main (x : mainPhase) (s : BgState) : BgState :=
  mkBg (shared s) (scan s) (proc s) (started s) (workers s) (inUse s) (numUploaded s) (cancelled s) x.
Definition set_inUse (x : Z) (s : BgState) : BgState :=
  mkBg (shared s) (scan s) (proc s) (started s) (workers s) x (numUploaded s) (cancelled s) (main s).
Definition set_cancelled (s : BgState) : BgState :=
  mkBg (shared s) (scan s) (proc s) (started s) (workers s) (inUse s) (numUploaded s) true (main s).

(** [NewBgUploader] and [Start], or the file that is uploaded already. *)
Definition HandleWALPush_start (sh : Shared) : BgState :=
  if IsWalAlreadyUploaded (statusManager sh) (walFilePath cfg) then
    mkBg sh ScanClosed ProcEnd ∅ [] 0 0 false MainUploaded
  else
    let started := {[ firstWalName cfg +s readySuffix ]} in
    if (maxParallelWorkers cfg <? 1) || (maxNumUploaded cfg <? 1) then
      mkBg sh ScanClosed ProcEnd started [] 0 0 false MainCheck
    else mkBg sh (ScanNext 0 (firstWalName cfg)) ProcReceive started [] 0 0 false MainCheck.

(** [fileChan <- f]: the other side has to be receiving. *)
Definition sendFile (name : string) (next : scanner) (s : BgState) : option BgState :=
  if bool_decide (proc s = ProcReceive) then Some (set_scan next (set_proc (ProcHas name) s)) else None.

Definition scanAndProcessFiles (ev : scanEvent) (s : BgState) : option BgState :=
  match scan s, ev with
  | ScanNext i walName, StatOf found =>
      if negb (i <? maxNumUploaded cfg) then Some (set_scan ScanList s)
      else match GetNextWalFilename walName with
           | Err _ => Some (set_scan ScanList s)
           | Ok walName =>
               if found then if statusName (walName +s readySuffix) then Some (set_scan (ScanSendNext i walName) s) else None
               else Some (set_scan ScanList s)
           end
  | ScanSendNext i walName, Sent => sendFile (walName +s readySuffix) (ScanNext (i + 1) walName) s
  | ScanList, DirOf None => Some (set_scan ScanClosed s)
  | ScanList, DirOf (Some files) => if forallb statusName files then Some (set_scan (ScanFiles files) s) else None
  | ScanFiles (f :: files), Sent => sendFile f (ScanFiles files) s
  | ScanFiles [], Timer => Some (set_scan ScanList s)
  | ScanSendNext _ _, CtxDone | ScanFiles _, CtxDone => if cancelled s then Some (set_scan ScanClosed s) else None
  | _, _ => None
  end.

Definition shouldSkipFile (asm : A) (filename : string) : bool :=
  negb (HasSuffix filename readySuffix) || IsWalAlreadyUploaded asm filename.

Definition start_worker (name : string) (s : BgState) : BgState :=
  mkBg (shared s) (scan s) ProcReceive (started s) (workers s ++ [(name, WCheck)]) (inUse s + 1) (numUploaded s) (cancelled s) (main s).

Definition processFiles (acquired : bool) (s : BgState) : option BgState :=
  match proc s with
  | ProcReceive => if bool_decide (scan s = ScanClosed) then Some (set_proc ProcEnd s) else None
  | ProcHas name =>
      if shouldSkipFile (statusManager (shared s)) name then Some (set_proc ProcReceive s)
      else if bool_decide (name ∈ started s) then Some (set_proc ProcReceive s)
      else Some (mkBg (shared s) (scan s) (ProcAcquire name) ({[ name ]} ∪ started s) (workers s) (inUse s) (numUploaded s) (cancelled s) (main s))
  | ProcAcquire name =>
      if acquired then if inUse s + 1 <=? maxParallelWorkers cfg then Some (start_worker name s) else None
      else if cancelled s then Some (set_proc ProcReceive s) else None
  | ProcEnd => None
  end.

(** What a status manager is left as: an error is logged. *)
Definition logged {X : Type} (x : X) (r : res pgError X) : X := match r with Ok x' => x' | Err _ => x end.

(** [upload], and what [processFiles] does around it. *)
Definition upload (i : nat) (walStatusFilename : string) (ph : phase) (cache : option string) (s : BgState) : option BgState :=
  let walFilename := TrimSuffix walStatusFilename readySuffix in
  let path := Join (bgDir cfg) walFilename in
  let sh := shared s in
  match ph with
  | WCheck =>
      match beforeUpload Decompressors readFile (preventWalOverwrite cfg) cache (UploadingFolder (uploader sh)) path with
      | None => Some (set_worker i (walStatusFilename, WPut) s)
      | Some None => Some (set_worker i (walStatusFilename, WMark) s)
      | Some (Some _) => Some (set_worker i (walStatusFilename, WRelease false) s)
      end
  | WPut =>
      let '(err, u) := openAndUpload compress extension readFile readSizes path (uploader sh) in
      let s := set_shared (mkShared u (statusManager sh) (PGstatusManager sh) (metadataFolder sh)) s in
      Some (set_worker i (walStatusFilename, match err with None => WMark | Some _ => WRelease false end) s)
  | WMark =>
      let asm := logged (statusManager sh) (MarkWalUploaded (statusManager sh) walFilename) in
      let s := set_shared (mkShared (uploader sh) asm (PGstatusManager sh) (metadataFolder sh)) s in
      Some (set_worker i (walStatusFilename, if readyRename cfg then WRename else WRelease true) s)
  | WRename =>
      let pg := logged (PGstatusManager sh) (RenameReady (PGstatusManager sh) walFilename) in
      let s := set_shared (mkShared (uploader sh) (statusManager sh) pg (metadataFolder sh)) s in
      Some (set_worker i (walStatusFilename, WRelease true) s)
  | WRelease uploadedFile =>
      Some (set_worker i (walStatusFilename, if uploadedFile then WCount else WEnd) (set_inUse (inUse s - 1) s))
  | WCount =>
      let numUploaded := numUploaded s + 1 in
      let s := mkBg sh (scan s) (proc s) (started s) (workers s) (inUse s) numUploaded (cancelled s) (main s) in
      let s := if maxNumUploaded cfg <=? numUploaded then set_cancelled s else s in
      Some (set_worker i (walStatusFilename, WEnd) s)
  | WEnd => None
  end.

Definition bgWorker (i : nat) (cache : option string) (s : BgState) : option BgState :=
  match workers s !! i with
  | Some (name, ph) => upload i name ph cache s
  | None => None
  end.

(** [uploadLocalWalMetadata], ending in the phase [next]. *)
Definition mainMetadata (next : mainPhase) (s : BgState) : BgState :=
  let sh := shared s in
  let u := uploader sh in
  let '(err, (folder, meta)) :=
    uploadLocalWalMetadata (walMetadataSetting cfg) modTime (walFilePath cfg) (UploadingFolder u) (metadataFolder sh) in
  let s := set_shared (mkShared (mkWalUploader folder (DeltaManager_ u)) (statusManager sh) (PGstatusManager sh) meta) s in
  set_main (match err with Some err => MainFatal err | None => next end) s.

(** The upload and the metadata; then [Stop] cancels the context and takes
    all permits. [FlushFiles], which comes last, is that of the manager of
    deltas. *)
Definition HandleWALPush (cache : option string) (s : BgState) : option BgState :=
  let sh := shared s in
  match main s with
  | MainUploaded =>
      let asm := logged (statusManager sh) (UnmarkWalFile (statusManager sh) (walFilePath cfg)) in
      Some (mainMetadata MainReturn (set_shared (mkShared (uploader sh) asm (PGstatusManager sh) (metadataFolder sh)) s))
  | MainCheck =>
      match beforeUpload Decompressors readFile (preventWalOverwrite cfg) cache (UploadingFolder (uploader sh)) (walFilePath cfg) with
      | None => Some (set_main MainPut s)
      | Some None => Some (set_main MainMetadata s)
      | Some (Some err) => Some (set_main (MainFatal err) s)
      end
  | MainPut =>
      let '(err, u) := openAndUpload compress extension readFile readSizes (walFilePath cfg) (uploader sh) in
      let s := set_shared (mkShared u (statusManager sh) (PGstatusManager sh) (metadataFolder sh)) s in
      Some (set_main (match err with Some err => MainFatal err | None => MainMetadata end) s)
  | MainMetadata => Some (mainMetadata MainCancel s)
  | MainCancel => Some (set_main MainAcquire (set_cancelled s))
  | MainAcquire =>
      if inUse s + maxParallelWorkers cfg <=? maxParallelWorkers cfg then
        Some (set_main MainDone (set_inUse (inUse s + maxParallelWorkers cfg) s))
      else None
  | MainDone | MainReturn | MainFatal _ => None
  end.

(** One step; a fatal error ends the process. *)
Definition exec (l : label) (s : BgState) : option BgState :=
  match main s, l with
  | MainFatal _, _ => None
  | _, Scan ev => scanAndProcessFiles ev s
  | _, Process acquired => processFiles acquired s
  | _, Work i cache => bgWorker i cache s
  | _, Main cache => HandleWALPush cache s
  end.

Definition step (s s' : BgState) : Prop := exists l, exec l s = Some s'.

Fixpoint run (ls : list label) (s : BgState) : option BgState :=
  match ls with
  | [] => Some s
  | l :: ls => s ← exec l s; run ls s
  end.
End Push.
