(* ===== verification/WalPushSpec.v ===== *)
(** * Pushing WAL: what every run keeps

    The steps of [WalPush.v], thread by thread: what each leaves alone, that the
    permits of the semaphore are those the workers hold, and that a file has one
    worker. Then what they do to the storage and to the marks: which files a
    state says are archived, and that they are. *)

From stdpp Require Import gmap strings relations.
From S2P Require Import Prelude GoIO WalRecord WalPage WalFile GoStrings GoPath GoFilepath Timeline Storage BackupMeta Delta DeltaManager.
From S2P Require Import WalArchive.
From S2P Require Import WalMetadata.
From S2P Require Import WalPush.
Open Scope Z_scope.

(** A phase in which the worker has its permit. *)
Definition holds (ph : phase) : bool := match ph with WCount | WEnd => false | _ => true end.

Definition permit (w : string * phase) : Z := Z.b2z (holds w.2).

Fixpoint permits (workers : list (string * phase)) : Z :=
  match workers with [] => 0 | w :: workers => permit w + permits workers end.

Lemma permits_app ws ws' : permits (ws ++ ws') = permits ws + permits ws'.
Proof. induction ws as [|w ws IH]; cbn [permits app]; lia. Qed.

Lemma permits_insert ws i w w' : ws !! i = Some w -> permits (<[i := w']> ws) = permits ws + permit w' - permit w.
Proof.
  revert i. induction ws as [|x ws IH]; intros [|i] Hi; try done.
  - injection Hi as ->. change (permits (<[0%nat := w']> (w :: ws))) with (permit w' + permits ws). cbn [permits]. lia.
  - change (permits (<[S i := w']> (x :: ws))) with (permit x + permits (<[i := w']> ws)). rewrite (IH i Hi). cbn [permits]. lia.
Qed.

Lemma permit_range w : 0 <= permit w <= 1.
Proof. unfold permit. destruct (holds w.2); cbn; lia. Qed.

Lemma permits_nonneg ws : 0 <= permits ws.
Proof. induction ws as [|w ws IH]; cbn [permits]; [lia|]. pose proof (permit_range w). lia. Qed.

Lemma permits_none ws i w : permits ws <= 0 -> ws !! i = Some w -> holds w.2 = false.
Proof.
  revert i. induction ws as [|x ws IH]; intros [|i] Hp Hi; try done; cbn [permits] in Hp; pose proof (permit_range x).
  - injection Hi as ->. pose proof (permits_nonneg ws). destruct (holds w.2) eqn:E; [|done].
    unfold permit in Hp. rewrite E in Hp. cbn in Hp. lia.
  - eapply IH; [lia|exact Hi].
Qed.

Lemma permits_positive ws : 0 < permits ws -> exists i w, ws !! i = Some w /\ holds w.2 = true.
Proof.
  induction ws as [|w ws IH]; cbn [permits]; [lia|]. intros Hp.
  destruct (holds w.2) eqn:E; [by exists 0%nat, w|]. unfold permit in Hp. rewrite E in Hp. cbn in Hp.
  destruct (IH ltac:(lia)) as (i & w' & Hi & Hw). by exists (S i), w'.
Qed.

Section Inv.
Context {wcfg : WalConfig} {Folder : Type} `{ObjectStore Folder} {DF : Type} `{DataFolder DF}.
Context {A : Type} `{ArchiveStatusManager A} {P : Type} `{ArchiveStatusManager P}.
Context {M : Type} `{ObjectStore M} `{!MetadataFolder M} `{!Json WalMetadataMap}.
Variable compress : list byte -> res pgError (list byte).
Variable extension : string.
Variable Decompressors : list Decompressor.
Variable readFile : string -> res pgError (list byte).
Variable readSizes : nat -> list nat.
Variable modTime : string -> res pgError Z.
Variable statusName : string -> bool.
Variable cfg : PushConfig.
Hypothesis Hmax : 0 <= maxParallelWorkers cfg.

Notation State := (BgState (Folder := Folder) (DF := DF) (A := A) (P := P) (M := M)).
Notation scanAndProcessFiles := (scanAndProcessFiles statusName cfg).
Notation processFiles := (processFiles cfg).
Notation upload := (upload compress extension Decompressors readFile readSizes cfg).
Notation HandleWALPush := (HandleWALPush compress extension Decompressors readFile readSizes modTime cfg).
Notation exec := (exec compress extension Decompressors readFile readSizes modTime statusName cfg).
Notation step := (step compress extension Decompressors readFile readSizes modTime statusName cfg).
Notation start := (HandleWALPush_start cfg).

(** ** Frames *)

(** Everything but the scanner and the processor. *)
Definition same_rest (s s' : State) : Prop :=
  shared s' = shared s /\ started s' = started s /\ workers s' = workers s /\ inUse s' = inUse s /\
  cancelled s' = cancelled s /\ main s' = main s.

Definition scan_names (c : scanner) : list string :=
  match c with ScanSendNext _ w => [w +s readySuffix] | ScanFiles files => files | _ => [] end.

Lemma scan_frame ev (s s' : State) : scanAndProcessFiles ev s = Some s' ->
  same_rest s s' /\
  (forall n, n ∈ scan_names (scan s') -> n ∈ scan_names (scan s) \/ statusName n = true) /\
  (proc s' = proc s \/ exists n, proc s = ProcReceive /\ proc s' = ProcHas n /\ n ∈ scan_names (scan s)) /\
  scan s <> ScanClosed.
Proof.
  unfold scanAndProcessFiles, sendFile. destruct (scan s) as [i w|i w| |[|f fs]|] eqn:Es; destruct ev as [| |[]|[files|]|]; try done;
    repeat match goal with
    | |- context [match GetNextWalFilename ?w with _ => _ end] => destruct (GetNextWalFilename w)
    | |- context [if ?b then _ else _] => destruct b eqn:?
    end; try done; intros [= <-]; cbn; (split; [done|]); (split; [|split; [|done]]);
    try (by left); try (intros n Hn; by left);
    try (intros n Hn; cbn in Hn; by apply elem_of_nil in Hn);
    try (right; eexists; split; [by bool_to_prop|]; split; [reflexivity|]; by constructor).
  - intros n ->%list_elem_of_singleton. right; done.
  - intros n Hn. right. match goal with Hf : forallb _ _ = true |- _ => rewrite forallb_forall in Hf; apply Hf end.
    by apply list_elem_of_In.
  - intros n Hn. left. by right.
Qed.

(** The processor drops a name, waits with a new one, or starts its worker. *)
Inductive process_case (s : State) : State -> Prop :=
| process_end : proc s = ProcReceive -> process_case s (set_proc ProcEnd s)
| process_skip n : proc s = ProcHas n \/ proc s = ProcAcquire n -> process_case s (set_proc ProcReceive s)
| process_wait n : proc s = ProcHas n -> HasSuffix n readySuffix = true -> IsWalAlreadyUploaded (statusManager (shared s)) n = false ->
    n ∉ started s ->
    process_case s (mkBg (shared s) (scan s) (ProcAcquire n) ({[ n ]} ∪ started s) (workers s) (inUse s) (numUploaded s) (cancelled s) (main s))
| process_start n : proc s = ProcAcquire n -> inUse s + 1 <= maxParallelWorkers cfg -> process_case s (start_worker n s).

Lemma process_frame acquired (s s' : State) : processFiles acquired s = Some s' -> process_case s s'.
Proof.
  unfold processFiles, shouldSkipFile. destruct (proc s) as [|n|n|] eqn:Ep; [| | |done].
  - case_bool_decide; [|done]. intros [= <-]. by apply process_end.
  - destruct (HasSuffix n readySuffix) eqn:Eh; cbn [negb orb]; [|intros [= <-]; eapply process_skip; by left].
    destruct (IsWalAlreadyUploaded _ n) eqn:Ei; [intros [= <-]; eapply process_skip; by left|].
    case_bool_decide; intros [= <-]; [eapply process_skip; by left|]. by apply process_wait.
  - destruct acquired; [|destruct (cancelled s); [|done]; intros [= <-]; eapply process_skip; by right].
    destruct (_ <=? _) eqn:E; [|done]. intros [= <-]. apply process_start; [done|lia].
Qed.

(** A worker changes its own phase and the shared state, and frees its permit
    when it is done. *)
Lemma upload_frame i n ph cache (s s' : State) : upload i n ph cache s = Some s' ->
  exists ph', workers s' = <[i := (n, ph')]> (workers s) /\
    inUse s' = inUse s + permit (n, ph') - permit (n, ph) /\
    scan s' = scan s /\ proc s' = proc s /\ started s' = started s /\ main s' = main s /\
    (cancelled s = true -> cancelled s' = true).
Proof.
  unfold upload. destruct ph as [| | | |u| |]; [| | | | | |done].
  - destruct (beforeUpload _ _ _ _ _ _) as [[e|]|]; intros [= <-]; eexists; (split; [reflexivity|]); cbn; split_and!; done || lia.
  - destruct (openAndUpload _ _ _ _ _ _) as [[e|] u]; intros [= <-]; eexists; (split; [reflexivity|]); cbn; split_and!; done || lia.
  - intros [= <-]. destruct (readyRename cfg); eexists; (split; [reflexivity|]); cbn; split_and!; done || lia.
  - intros [= <-]. eexists. (split; [reflexivity|]). cbn. split_and!; done || lia.
  - intros [= <-]. destruct u; eexists; (split; [reflexivity|]); cbn; split_and!; done || lia.
  - intros [= <-]. destruct (_ <=? _); eexists; (split; [reflexivity|]); cbn; split_and!; done || lia.
Qed.

Lemma mainMetadata_frame next (s : State) : let s' := mainMetadata modTime cfg next s in
  scan s' = scan s /\ proc s' = proc s /\ started s' = started s /\ workers s' = workers s /\ inUse s' = inUse s /\
  cancelled s' = cancelled s /\ statusManager (shared s') = statusManager (shared s) /\
  (main s' = next \/ exists err, main s' = MainFatal err).
Proof.
  unfold mainMetadata. destruct (uploadLocalWalMetadata _ _ _ _ _) as [[err|] [f m]]; cbn; split_and!; try done; [right; by eexists|by left].
Qed.

(** The main goroutine leaves the others alone, but for the context; it
    finishes when it has all permits. *)
Lemma main_frame cache (s s' : State) : HandleWALPush cache s = Some s' ->
  scan s' = scan s /\ proc s' = proc s /\ started s' = started s /\ workers s' = workers s /\
  (cancelled s = true -> cancelled s' = true) /\
  ((main s <> MainAcquire /\ main s' <> MainDone /\ inUse s' = inUse s) \/
   (main s = MainAcquire /\ main s' = MainDone /\ inUse s <= 0 /\ inUse s' = inUse s + maxParallelWorkers cfg)).
Proof.
  unfold HandleWALPush. destruct (main s) eqn:Em; try done.
  - intros [= <-]. match goal with |- context [mainMetadata modTime cfg ?n ?s] => pose proof (mainMetadata_frame n s) as Hf end.
    cbn -[mainMetadata] in Hf |- *. destruct Hf as (-> & -> & -> & -> & -> & -> & _ & [-> |[err ->]]); split_and!; try done; by left.
  - destruct (beforeUpload _ _ _ _ _ _) as [[e|]|]; intros [= <-]; cbn; split_and!; try done; by left.
  - destruct (openAndUpload _ _ _ _ _ _) as [[e|] u]; intros [= <-]; cbn; split_and!; try done; by left.
  - intros [= <-]. match goal with |- context [mainMetadata modTime cfg ?n ?s] => pose proof (mainMetadata_frame n s) as Hf end.
    cbn -[mainMetadata] in Hf |- *. destruct Hf as (-> & -> & -> & -> & -> & -> & _ & [-> |[err ->]]); split_and!; try done; by left.
  - intros [= <-]. cbn. split_and!; try done. by left.
  - destruct (_ <=? _) eqn:E; [|done]. intros [= <-]. cbn. split_and!; try done. right. split_and!; try done. lia.
Qed.

(** ** The invariant *)

Definition held_by_main (s : State) : Z := match main s with MainDone => maxParallelWorkers cfg | _ => 0 end.

(** A file that has, or is about to have, a worker. *)
Definition taken (s : State) (n : string) : Prop :=
  statusName n = true /\ HasSuffix n readySuffix = true /\ n ∈ started s /\ n <> firstWalName cfg +s readySuffix.

Record Wf (s : State) : Prop := {
  wf_scan n : n ∈ scan_names (scan s) -> statusName n = true;
  wf_has n : proc s = ProcHas n -> statusName n = true;
  wf_first : firstWalName cfg +s readySuffix ∈ started s \/ (proc s = ProcEnd /\ workers s = []);
  wf_acquire n : proc s = ProcAcquire n -> taken s n /\ n ∉ (workers s).*1;
  wf_workers n : n ∈ (workers s).*1 -> taken s n;
  wf_unique : NoDup (workers s).*1;
  wf_permits : inUse s = permits (workers s) + held_by_main s;
  wf_bound : inUse s <= maxParallelWorkers cfg
}.

Lemma start_Wf sh : Wf (start sh).
Proof.
  unfold HandleWALPush_start. destruct (IsWalAlreadyUploaded _ _); [|destruct (_ || _)];
    split; cbn; try done; try (intros n Hn; by apply elem_of_nil in Hn); try (right; by split); try constructor; try set_solver; try lia; try done.
Qed.

Lemma fmap_insert_fst (ws : list (string * phase)) i n ph ph' : ws !! i = Some (n, ph) -> (<[i := (n, ph')]> ws).*1 = ws.*1.
Proof. intros Hi. rewrite list_fmap_insert. cbn. apply list_insert_id. by rewrite list_lookup_fmap, Hi. Qed.

Lemma scan_Wf ev (s s' : State) : Wf s -> scanAndProcessFiles ev s = Some s' -> Wf s'.
Proof.
  intros [] E. destruct (scan_frame _ _ _ E) as ((Hsh & Hst & Hw & Hu & Hc & Hm) & Hn & Hp & _).
  unfold taken, held_by_main in *. split; unfold taken, held_by_main; rewrite ?Hst, ?Hw, ?Hu, ?Hm; try done.
  - intros n [Hn'|Hn']%Hn; auto.
  - intros n Ep. destruct Hp as [Hp|(n' & _ & Hp & Hn')]; [rewrite Hp in Ep; eauto|]. rewrite Hp in Ep. injection Ep as ->. auto.
  - destruct wf_first0 as [Hf|[Hf1 Hf2]]; [by left|right]. split; [|done].
    destruct Hp as [->|(n' & Hf & _)]; [done|congruence].
  - intros n Ep. destruct Hp as [Hp|(n' & _ & Hp & Hn')]; rewrite Hp in Ep; [by apply wf_acquire0|done].
Qed.

Lemma process_Wf acquired (s s' : State) : Wf s -> processFiles acquired s = Some s' -> Wf s'.
Proof.
  intros [] E. destruct (process_frame _ _ _ E) as [Ep|n Ep|n Ep Hs Hi Hn|n Ep Hle].
  - split; cbn; try done. destruct wf_first0 as [?|[? ?]]; [by left|by right].
  - split; cbn; try done. destruct wf_first0 as [?|[Hf _]]; [by left|]. destruct Ep; congruence.
  - assert (firstWalName cfg +s readySuffix ∈ started s) as Hf by (destruct wf_first0 as [?|[? _]]; [done|congruence]).
    unfold taken in *. split; unfold taken; cbn; try done.
    + left. set_solver.
    + intros n' [= <-]. split; [split_and!; [auto|done|set_solver|intros ->; done]|].
      intros Hin. by destruct (wf_workers0 n Hin) as (_ & _ & ? & _).
    + intros n' (? & ? & ? & ?)%wf_workers0. split_and!; try done. set_solver.
  - assert (main s <> MainDone) as Hd.
    { intros Hd. unfold held_by_main in *. rewrite Hd in *. pose proof (permits_nonneg (workers s)). lia. }
    destruct (wf_acquire0 n Ep) as [Ht Hnew]. unfold taken in *. split; unfold taken; cbn; try done.
    + destruct wf_first0 as [?|[? _]]; [by left|congruence].
    + intros n'. rewrite fmap_app. intros [Hin|Hin]%elem_of_app; [|]; [by apply wf_workers0|by apply list_elem_of_singleton in Hin as ->].
    + rewrite fmap_app. apply NoDup_app. split; [done|]. split; [|apply NoDup_singleton].
      intros x Hx ->%list_elem_of_singleton. done.
    + rewrite permits_app. cbn [permits]. unfold held_by_main in *. cbn. lia.
Qed.

Lemma worker_Wf i n ph cache (s s' : State) : Wf s -> workers s !! i = Some (n, ph) -> upload i n ph cache s = Some s' -> Wf s'.
Proof.
  intros [] Hi E. destruct (upload_frame _ _ _ _ _ _ E) as (ph' & Hw & Hu & Hs & Hp & Hst & Hm & _).
  assert ((workers s').*1 = (workers s).*1) as Hf by (rewrite Hw; by eapply fmap_insert_fst).
  unfold taken in *. split; unfold taken; rewrite ?Hs, ?Hp, ?Hst, ?Hf; try done.
  - destruct wf_first0 as [?|[_ Hn]]; [by left|]. by rewrite Hn in Hi.
  - rewrite Hw, Hu, wf_permits0. unfold held_by_main. rewrite Hm. rewrite (permits_insert _ _ _ _ Hi). lia.
  - rewrite Hu. destruct (holds ph') eqn:E'; unfold permit; cbn; rewrite E'; [|destruct (holds ph); cbn; lia].
    assert (holds ph = true) as ->; [|cbn; lia]. destruct ph; try done.
    exfalso. cbn in E. injection E as <-. cbn in Hw. destruct (_ <=? _) in Hw; cbn in Hw;
      apply (f_equal (.!! i)) in Hw; rewrite !list_lookup_insert_eq in Hw by (by eapply lookup_lt_Some); by injection Hw as <-.
Qed.

Lemma main_Wf cache (s s' : State) : Wf s -> HandleWALPush cache s = Some s' -> Wf s'.
Proof.
  intros [] E. destruct (main_frame _ _ _ E) as (Hs & Hp & Hst & Hw & _ & Hu).
  unfold taken, held_by_main in *. split; unfold taken, held_by_main; rewrite ?Hs, ?Hp, ?Hst, ?Hw; try done.
  - destruct Hu as [(_ & Hd & ->)|(Ha & -> & Hle & ->)].
    + rewrite wf_permits0. destruct (main s) eqn:Em; try done; try (by destruct (main s')).
      by unfold HandleWALPush in E; rewrite Em in E.
    + rewrite wf_permits0, Ha. lia.
  - destruct Hu as [(_ & _ & ->)|(_ & _ & Hle & ->)]; lia.
Qed.

Lemma step_Wf (s s' : State) : Wf s -> step s s' -> Wf s'.
Proof.
  intros Hw [l E]. unfold exec in E. destruct (main s) eqn:Em; destruct l as [ev|a|i cache|cache]; try done;
    try (by eapply scan_Wf); try (by eapply process_Wf); try (by eapply main_Wf);
    unfold bgWorker in E; destruct (workers s !! i) as [[n ph]|] eqn:Ei; try done; by eapply worker_Wf.
Qed.

Lemma reachable_Wf sh (s : State) : rtc step (start sh) s -> Wf s.
Proof. intros Hr. eapply rtc_invariant; [apply step_Wf|exact Hr|apply start_Wf]. Qed.
End Inv.

(** ** The archive *)

(** A worker list with one worker stepped. *)
Lemma worker_elem (ws : list (string * phase)) i n ph ph' m q : NoDup ws.*1 -> ws !! i = Some (n, ph) ->
  (m, q) ∈ <[i := (n, ph')]> ws -> (m = n /\ q = ph') \/ (m <> n /\ (m, q) ∈ ws).
Proof.
  intros Hnd Hi [j Hj]%list_elem_of_lookup. destruct (decide (i = j)) as [<-|Hne].
  - rewrite list_lookup_insert_eq in Hj by by eapply lookup_lt_Some. injection Hj as <- <-. by left.
  - rewrite list_lookup_insert_ne in Hj by done. right. split; [|by eapply list_elem_of_lookup_2].
    intros ->. apply Hne. eapply NoDup_lookup; [exact Hnd| |]; rewrite list_lookup_fmap; [rewrite Hi|rewrite Hj]; done.
Qed.

Section Archive.
Context {wcfg : WalConfig} {Folder : Type} `{ObjectStore Folder} {DF : Type} `{DataFolder DF}.
Context {A : Type} `{Hasm : ArchiveStatusManager A} `{!ArchiveStatusLaws A} {P : Type} `{ArchiveStatusManager P}.
Context {M : Type} `{ObjectStore M} `{!MetadataFolder M} `{!Json WalMetadataMap}.
Variable compress : list byte -> res pgError (list byte).
Variable extension : string.
Variable Decompressors : list Decompressor.
Variable readFile : string -> res pgError (list byte).
Variable readSizes : nat -> list nat.
Variable modTime : string -> res pgError Z.
Variable statusName : string -> bool.
Variable cfg : PushConfig.
Variable es : list string.
Variable x0 : string.

Notation State := (BgState (Folder := Folder) (DF := DF) (A := A) (P := P) (M := M)).
Notation HandleWALPush := (HandleWALPush compress extension Decompressors readFile readSizes modTime cfg).
Notation upload := (upload compress extension Decompressors readFile readSizes cfg).
Notation step := (step compress extension Decompressors readFile readSizes modTime statusName cfg).
Notation start := (HandleWALPush_start cfg).
Notation archived := (archived Decompressors).
Notation not_archived := (not_archived Decompressors).

(** The names of the files that may be uploaded. *)
Definition source (x : string) : Prop := x = x0 \/ statusName (x +s readySuffix) = true.

Definition pathOf (x : string) : string := absPath (es ++ [x]).

(** The directory of the WAL, its files, and the marks. *)
Record PushLaws : Prop := {
  push_max : 0 <= maxParallelWorkers cfg;
  push_dir : es <> [] /\ Forall (fun e => simple e = true) es;
  push_path : walFilePath cfg = pathOf x0;
  push_simple x : source x -> simple x = true;
  push_whole x file : source x -> readFile (pathOf x) = Ok file -> whole x file;
  push_mark (a : A) : IsWalAlreadyUploaded a (walFilePath cfg) = IsWalAlreadyUploaded a x0
}.

(** The storage keeps its objects under the names of the decompressors. *)
Record StorageLaws : Prop := {
  storage_compression : CompressionLaws compress extension Decompressors readSizes;
  storage_extensions : NoDup (FileExtension <$> Decompressors);
  storage_json d : d ∈ Decompressors -> FileExtension d <> "json";
  storage_errors (folder : Folder) path name : BackupMeta.ReadObject folder path <> Err (ArchiveNonExistenceError name)
}.
Context (push : PushLaws) (stor : StorageLaws).
Notation claws := (storage_compression stor).

Lemma source_x0 : source x0.
Proof. by left. Qed.

Lemma bgDir_eq : bgDir cfg = absPath es.
Proof.
  unfold bgDir. rewrite (push_path push). destruct (push_dir push). apply Dir_absPath; [done|done|].
  apply (push_simple push), source_x0.
Qed.

Lemma path_join x : source x -> Join (bgDir cfg) x = pathOf x.
Proof. intros Hx. rewrite bgDir_eq. destruct (push_dir push). apply Join_absPath; [done|done|by apply (push_simple push)]. Qed.

Lemma Base_pathOf x : source x -> Base (pathOf x) = x.
Proof. intros Hx. by apply Base_absPath, (push_simple push). Qed.

Lemma firstWalName_eq : firstWalName cfg = x0.
Proof. unfold firstWalName. rewrite (push_path push). apply Base_pathOf, source_x0. Qed.

Definition storage (s : State) : Folder := UploadingFolder (uploader (shared s)).
Definition asm (s : State) : A := statusManager (shared s).

(** About to put the object of a file. *)
Definition putting (s : State) (x : string) : Prop :=
  (x +s readySuffix, WPut) ∈ workers s \/ (main s = MainPut /\ x = x0).

(** The file is in the storage with the bytes it has on disk. *)
Definition present (folder : Folder) (x : string) : Prop :=
  exists file, readFile (pathOf x) = Ok file /\ archived folder x file.

(** So is a file that has its mark: the mark of a file is kept under its name
    up to the first dot. *)
Definition backed (folder : Folder) (x : string) : Prop :=
  exists y, source y /\ statusKey y = statusKey x /\ present folder y.

Definition marked (s : State) (x : string) : Prop := IsWalAlreadyUploaded (asm s) x = true.

(** What the state says is archived, by how far the upload of the file has
    come. *)
Definition uploaded (ph : phase) : Prop := match ph with WMark | WRename | WRelease true | WCount => True | _ => False end.

Definition main_uploaded (m : mainPhase) : Prop :=
  match m with MainMetadata | MainCancel | MainAcquire | MainDone => True | _ => False end.

Definition says_archived (s : State) (x : string) : Prop :=
  (exists ph, (x +s readySuffix, ph) ∈ workers s /\ uploaded ph) \/ (x = x0 /\ main_uploaded (main s)).

(** The file is not uploaded because it is marked. *)
Definition early (m : mainPhase) : Prop := match m with MainUploaded | MainReturn => True | _ => False end.

(** How a step changes the storage. *)
Inductive change (s s' : State) : Prop :=
| change_none : storage s' = storage s -> change s s'
| change_put x file c : source x -> putting s x -> ~ putting s' x -> readFile (pathOf x) = Ok file -> compress file = Ok c ->
    PutObject (storage s) (x +s "." +s extension) c = Ok (storage s') -> change s s'
| change_json : json_only (storage s) (storage s') -> change s s'.

(** What a step may say that was not said before, and may come to put. *)
Record effect (s s' : State) : Prop := {
  effect_change : change s s';
  effect_says x : source x -> says_archived s' x -> says_archived s x \/ present (storage s') x;
  effect_marks x : source x -> marked s' x -> marked s x \/ exists y, source y /\ statusKey y = statusKey x /\ says_archived s y;
  effect_early : early (main s') -> early (main s);
  effect_putting x : putting s' x -> putting s x \/ (preventWalOverwrite cfg = true -> not_archived (storage s') x)
}.

(** ** The main goroutine *)

Lemma json_archived (folder folder' : Folder) x file : json_only folder folder' -> archived folder x file -> archived folder' x file.
Proof.
  intros Hj (d & content & Hd & Hr & Hdec). exists d, content. split; [done|]. split; [|done]. rewrite Hj; [done|].
  intros y E. replace ".json" with ("." +s "json") in E by done. apply dotted_inj in E as [_ E]; [| |done].
  - by apply (storage_json stor d).
  - by apply (extension_dots claws).
Qed.

Lemma metadata_effect next (s s1 : State) : storage s1 = storage s -> workers s1 = workers s -> main s1 = main s ->
  (forall x, marked s1 x -> marked s x) ->
  (main_uploaded next -> main_uploaded (main s)) -> (early next -> early (main s)) -> next <> MainPut ->
  effect s (mainMetadata modTime cfg next s1).
Proof.
  intros Hst Hw1 Hm1 Ha1 Hn He Hp.
  pose proof (mainMetadata_frame (Folder := Folder) (DF := DF) (A := A) (P := P) (M := M) modTime cfg next s1)
    as (_ & _ & _ & Hw & _ & _ & Ha & Hm).
  split.
  - apply change_json. rewrite <- Hst. unfold mainMetadata, storage.
    destruct (uploadLocalWalMetadata _ _ _ _ _) as [err [f m]] eqn:E. cbn. by eapply uploadLocalWalMetadata_json.
  - intros x Hx. unfold says_archived. rewrite Hw, Hw1. intros [?|[-> Hm']]; [left; by left|].
    left. right. split; [done|]. destruct Hm as [Hm|[e Hm]]; rewrite Hm in Hm'; [by apply Hn|done].
  - intros x Hx. unfold marked, asm. rewrite Ha. left. by apply Ha1.
  - destruct Hm as [-> |[e ->]]; [exact He|done].
  - intros x [?|[Hm' ->]]; [left; left; by rewrite <- Hw1, <- Hw|]. destruct Hm as [Hm|[e Hm]]; rewrite Hm in Hm'; done.
Qed.

(** An upload of the file [x], by the thread that is putting it. *)
Lemma put_effect_change (s s' : State) x err u : source x -> putting s x -> ~ putting s' x ->
  openAndUpload compress extension readFile readSizes (pathOf x) (uploader (shared s)) = (err, u) -> storage s' = UploadingFolder u ->
  change s s' /\ (err = None -> present (storage s') x).
Proof.
  intros Hx Hp Hp' E Hst. split.
  - destruct (openAndUpload_ok (Folder := Folder) _ _ _ _ _ claws _ _ _ _ ltac:(rewrite Base_pathOf by done; by apply (push_simple push))
      ltac:(intros f Hf; rewrite Base_pathOf by done; by apply (push_whole push)) E) as [Hs|(file & c & Hr & Hc & Hput)].
    + apply change_none. by rewrite Hst, Hs.
    + rewrite Base_pathOf in Hput by done. eapply change_put; try done. by rewrite Hst.
  - intros ->. destruct (openAndUpload_done (Folder := Folder) _ _ _ _ _ claws _ _ _ ltac:(rewrite Base_pathOf by done; by apply (push_simple push))
      ltac:(intros f Hf; rewrite Base_pathOf by done; by apply (push_whole push)) E) as (file' & c & Hr' & Hc & Hput).
    rewrite Base_pathOf in Hput by done. exists file'. split; [done|]. rewrite Hst. eapply put_archives; eauto using storage_compression.
Qed.

Lemma check_none cache (s : State) x : source x ->
  beforeUpload Decompressors readFile (preventWalOverwrite cfg) cache (storage s) (pathOf x) = None ->
  preventWalOverwrite cfg = true -> not_archived (storage s) x.
Proof.
  intros Hx E Hp. rewrite Hp in E. rewrite <- (Base_pathOf x Hx). eapply beforeUpload_none; [exact (storage_extensions stor)|exact (storage_errors stor)|exact E].
Qed.

Lemma check_same cache (s : State) x : source x ->
  beforeUpload Decompressors readFile (preventWalOverwrite cfg) cache (storage s) (pathOf x) = Some None ->
  present (storage s) x.
Proof.
  intros Hx E. assert (preventWalOverwrite cfg = true) as Hp by (unfold beforeUpload in E; by destruct (preventWalOverwrite cfg)).
  rewrite Hp in E. destruct (beforeUpload_same (Folder := Folder) _ _ (storage_extensions stor) _ _ _ E) as (file' & Hr' & Ha).
  rewrite (Base_pathOf x Hx) in Ha. by exists file'.
Qed.

(** A step of the main goroutine that changes its phase only. *)
Lemma phase_main_effect (s s1 : State) m : shared s1 = shared s -> workers s1 = workers s ->
  (main_uploaded m -> main_uploaded (main s) \/ present (storage s) x0) ->
  (early m -> early (main s)) -> (m = MainPut -> preventWalOverwrite cfg = true -> not_archived (storage s) x0) ->
  effect s (set_main m s1).
Proof.
  intros Hs Hw Hu He Hp. assert (storage (set_main m s1) = storage s) as Est by (unfold storage; cbn; by rewrite Hs).
  split; [by apply change_none| | |exact He|].
  - intros x Hx. unfold says_archived. cbn. rewrite Hw, Est. intros [?|[-> Hm]]; [left; by left|]. destruct (Hu Hm); [left; by right|by right].
  - intros x Hx. unfold marked, asm. cbn. rewrite Hs. by left.
  - intros x. unfold putting. cbn. rewrite Hw. intros [?|[-> ->]]; [left; by left|right]. rewrite Est. by apply Hp.
Qed.

Lemma main_effect cache (s s' : State) : Wf statusName cfg s -> HandleWALPush cache s = Some s' -> effect s s'.
Proof.
  intros Hwf. unfold HandleWALPush. rewrite (push_path push). pose proof source_x0 as Hx0. destruct (main s) eqn:Em; try done.
  - intros [= <-]. apply metadata_effect; cbn; rewrite ?Em; try done. intros x. unfold marked, asm. cbn. rewrite <- (push_path push).
    destruct (UnmarkWalFile _ _) as [a|] eqn:E; cbn; [|done]. by eapply unmark_seen.
  - destruct (beforeUpload _ _ _ _ _ _) as [[e|]|] eqn:E; intros [= <-]; apply phase_main_effect; try done.
    + intros _. right. by eapply check_same.
    + intros _. by eapply check_none.
  - destruct (openAndUpload _ _ _ _ _ _) as [err u] eqn:E. intros [= <-].
    assert (putting s x0) as Hp by by right.
    match goal with |- effect s ?s1 => assert (~ putting s1 x0) as Hn end.
    { intros [Hin|[Hm _]]; [|by destruct err]. cbn in Hin.
      apply (list_elem_of_fmap_2 fst) in Hin. apply (wf_workers _ _ _ Hwf) in Hin as (_ & _ & _ & Hn). by rewrite firstWalName_eq in Hn. }
    match goal with |- effect s ?s1 => destruct (put_effect_change s s1 x0 err u Hx0 Hp Hn E eq_refl) as [Hc Ha] end.
    split; [exact Hc| | |by destruct err|].
    + intros x Hx [?|[-> Hm]]; [left; by left|right]. destruct err; [done|by apply Ha].
    + intros x Hx ?. by left.
    + intros x [?|[Hm ->]]; [left; by left|by destruct err].
  - intros [= <-]. apply metadata_effect; cbn; rewrite ?Em; done.
  - intros [= <-]. apply (phase_main_effect s (set_cancelled s)); rewrite ?Em; try done. by left.
  - destruct (_ <=? _); [|done]. intros [= <-]. apply (phase_main_effect s (set_inUse _ s)); rewrite ?Em; try done. by left.
Qed.

(** ** The workers *)

Lemma ready_inj x y : x +s readySuffix = y +s readySuffix -> x = y.
Proof. intros E. rewrite <- (TrimSuffix_app x readySuffix), E. apply TrimSuffix_app. Qed.

Lemma phase_effect i w ph ph' (s s' : State) : Wf statusName cfg s -> workers s !! i = Some (w +s readySuffix, ph) ->
  workers s' = <[i := (w +s readySuffix, ph')]> (workers s) -> main s' = main s ->
  (forall x, source x -> marked s' x -> marked s x \/ (statusKey w = statusKey x /\ uploaded ph)) ->
  change s s' -> source w ->
  (uploaded ph' -> uploaded ph \/ present (storage s') w) ->
  (ph' = WPut -> preventWalOverwrite cfg = true -> not_archived (storage s') w) ->
  effect s s'.
Proof.
  intros Hwf Hi Hw Hm Ha Hc Hsw Hu Hp. pose proof (wf_unique _ _ _ Hwf) as Hnd. pose proof (list_elem_of_lookup_2 _ _ _ Hi) as Hin.
  split; [done| | |by rewrite Hm|].
  - intros x Hx [(q & Hq & Huq)|[-> Hs]].
    + rewrite Hw in Hq. destruct (worker_elem _ _ _ _ _ _ _ Hnd Hi Hq) as [[->%ready_inj ->]|[_ Hq']].
      * destruct (Hu Huq) as [Hph|Har]; [left; left; by exists ph|by right].
      * left. left. by exists q.
    + left. right. by rewrite <- Hm.
  - intros x Hx [Hs|[Hk Hph]]%Ha; [by left|right|done]. exists w. split; [done|]. split; [done|]. left. by exists ph.
  - intros x [Hq|[Hs ->]]; [|left; right; by rewrite <- Hm]. rewrite Hw in Hq.
    destruct (worker_elem _ _ _ _ _ _ _ Hnd Hi Hq) as [[->%ready_inj <-]|[_ Hq']]; [right; by apply Hp|left; by left].
Qed.

Lemma worker_effect i n ph cache (s s' : State) : Wf statusName cfg s -> workers s !! i = Some (n, ph) ->
  upload i n ph cache s = Some s' -> effect s s'.
Proof.
  intros Hwf Hi. pose proof (wf_unique _ _ _ Hwf) as Hnd. pose proof (list_elem_of_lookup_2 _ _ _ Hi) as Hin.
  pose proof (list_elem_of_fmap_2 fst _ _ Hin) as Hn. cbn in Hn.
  apply (wf_workers _ _ _ Hwf) in Hn as (Hsn & Hsuf & _ & Hne). rewrite firstWalName_eq in Hne.
  apply HasSuffix_inv in Hsuf. unfold upload. set (w := TrimSuffix n readySuffix) in *. clearbody w. subst n.
  assert (source w) as Hx by by right. rewrite (path_join w Hx). destruct ph as [| | | |u| |]; [| | | | | |done].
  - destruct (beforeUpload _ _ _ _ _ _) as [[e|]|] eqn:E; intros [= <-]; eapply phase_effect; try done; try (by left); try (by apply change_none).
    + intros _. right. by eapply check_same.
    + intros _. by eapply check_none.
  - destruct (openAndUpload _ _ _ _ _ _) as [err u] eqn:E. intros [= <-].
    assert (putting s w) as Hp by by left.
    match goal with |- effect s ?s1 => assert (~ putting s1 w) as Hn end.
    { intros [Hq|[_ ->]]; [|done]. cbn in Hq. destruct (worker_elem _ _ _ _ _ _ _ Hnd Hi Hq) as [[_ Eq]|[Hf _]]; [by destruct err|done]. }
    match goal with |- effect s ?s1 => destruct (put_effect_change s s1 w err u Hx Hp Hn E eq_refl) as [Hc Ha] end.
    eapply phase_effect; try done; [by left| |by destruct err]. intros Hu. right. destruct err; [done|by apply Ha].
  - intros [= <-]. eapply phase_effect; try done; [|by apply change_none|by left|by destruct (readyRename cfg)].
    intros x Hsx. unfold marked, asm. cbn. destruct (MarkWalUploaded _ w) as [a|] eqn:E; cbn; [|by left].
    intros Hs. destruct (mark_seen _ _ _ _ E Hs) as [?|Hk]; [by left|by right].
  - intros [= <-]. eapply phase_effect; try done; [by left|by apply change_none|by left].
  - intros [= <-]. eapply phase_effect; try done; [by left|by apply change_none|left; by destruct u|by destruct u].
  - intros [= <-]. destruct (_ <=? _); eapply phase_effect; try done; try (by left); by apply change_none.
Qed.

(** ** Every step *)

Lemma quiet_effect (s s' : State) : shared s' = shared s -> main s' = main s ->
  (forall n ph, (n, ph) ∈ workers s' -> (n, ph) ∈ workers s \/ ph = WCheck) -> effect s s'.
Proof.
  intros Hs Hm Hw. split.
  - apply change_none. unfold storage. by rewrite Hs.
  - intros x Hx. unfold says_archived. rewrite Hm. intros [(ph & [Hin| ->]%Hw & Hph)|?]; [left; left; by exists ph|done|left; by right].
  - intros x Hx. unfold marked, asm. rewrite Hs. by left.
  - by rewrite Hm.
  - intros x [[Hin|[=]]%Hw|Hp]; left; [by left|right; by rewrite <- Hm].
Qed.

Lemma step_effect (s s' : State) : Wf statusName cfg s -> step s s' -> effect s s'.
Proof.
  intros Hwf [l E]. unfold exec in E. destruct l as [ev|a|i cache|cache].
  - assert (scanAndProcessFiles statusName cfg ev s = Some s') as Es by by destruct (main s).
    destruct (scan_frame _ _ _ _ _ Es) as ((Hsh & _ & Hw & _ & _ & Hm) & _).
    apply quiet_effect; [done|done|]. intros n ph. rewrite Hw. by left.
  - assert (processFiles cfg a s = Some s') as Es by by destruct (main s).
    destruct (process_frame _ _ _ _ Es); apply quiet_effect; try done; intros n0 ph Hin; try by left.
    cbn in Hin. apply elem_of_app in Hin as [?|Hin]; [by left|right]. apply list_elem_of_singleton in Hin. by injection Hin as -> ->.
  - assert (bgWorker compress extension Decompressors readFile readSizes cfg i cache s = Some s') as Es by by destruct (main s).
    unfold bgWorker in Es. destruct (workers s !! i) as [[n ph]|] eqn:Ei; [|done]. by eapply worker_effect.
  - assert (HandleWALPush cache s = Some s') as Es by by destruct (main s). by eapply main_effect.
Qed.
End Archive.
