(* ===== verification/WalPushTheorems.v ===== *)
(** * Pushing WAL: the theorems

    What every run of [HandleWALPush] with its background uploads keeps and
    reaches, and two runs that go wrong. *)

From stdpp Require Import gmap strings relations.
From S2P Require Import Prelude GoIO WalRecord WalPage WalFile GoStrings GoPath GoFilepath Timeline Storage BackupMeta Delta DeltaManager.
From S2P Require Import WalArchive.
From S2P Require Import WalMetadata.
From S2P Require Import WalPush.
From S2P Require Import WalPushSpec.
Open Scope Z_scope.

Section Archive.
Context {wcfg : WalConfig} {Folder : Type} `{ObjectStore Folder} {DF : Type} `{DataFolder DF}.
Context {A : Type} `{Hasm : ArchiveStatusManager A} `{!ArchiveStatusLaws A} {P : Type} `{ArchiveStatusManager P}.
Context {M : Type} `{ObjectStore M} `{!MetadataFolder M} `{!Json WalMetadataMap}.
Variable compress : list byte -> res pgError (list byte).
Variable extension : string.
Variable Decompressors : list Decompressor.
Variable readFile : string -> res pgError (list byte).
Variable readSizes : nat -> list nat.
Variable modTime : string -> res pgError Z.
Variable statusName : string -> bool.
Variable cfg : PushConfig.
Variable es : list string.
Variable x0 : string.

Notation State := (BgState (Folder := Folder) (DF := DF) (A := A) (P := P) (M := M)).
Notation step := (step compress extension Decompressors readFile readSizes modTime statusName cfg).
Notation exec := (exec compress extension Decompressors readFile readSizes modTime statusName cfg).
Notation run := (run compress extension Decompressors readFile readSizes modTime statusName cfg).
Notation start := (HandleWALPush_start cfg).
Notation archived := (archived Decompressors).
Notation not_archived := (not_archived Decompressors).
Notation source := (source statusName x0).
Notation pathOf := (pathOf es).
Notation says_archived := (says_archived x0).

Lemma run_rtc ls : forall (s s' : State), run ls s = Some s' -> rtc step s s'.
Proof.
  induction ls as [|l ls IH]; intros s s' E; cbn in E; [by injection E as ->|].
  destruct (exec l s) as [s1|] eqn:El; [|done]. eapply rtc_l; [by exists l|by apply IH].
Qed.

Lemma run_app ls ls' : forall (s s1 s' : State), run ls s = Some s1 -> run ls' s1 = Some s' -> run (ls ++ ls') s = Some s'.
Proof.
  induction ls as [|l ls IH]; intros s s1 s' E E'; cbn in E |- *; [by injection E as ->|].
  destruct (exec l s) as [s2|]; [|done]. by eapply IH.
Qed.

(** ** The end of a run *)

(** The steps a worker has before its permit is free, at most. *)
Definition steps_left (ph : phase) : nat :=
  match ph with WCheck => 5 | WPut => 4 | WMark => 3 | WRename => 2 | WRelease _ => 1 | _ => 0 end.

Fixpoint work_left (ws : list (string * phase)) : nat :=
  match ws with [] => 0 | w :: ws => steps_left w.2 + work_left ws end.

Lemma work_left_insert ws i w w' : ws !! i = Some w -> (steps_left w'.2 < steps_left w.2)%nat ->
  (work_left (<[i := w']> ws) < work_left ws)%nat.
Proof.
  revert i. induction ws as [|x ws IH]; intros [|i] Hi Hlt; try done.
  - injection Hi as ->. change (work_left (<[0%nat := w']> (w :: ws))) with (steps_left w'.2 + work_left ws)%nat. cbn [work_left]. lia.
  - change (work_left (<[S i := w']> (x :: ws))) with (steps_left x.2 + work_left (<[i := w']> ws))%nat.
    specialize (IH i Hi Hlt). cbn [work_left]. lia.
Qed.

Definition fatal (m : mainPhase) : Prop := match m with MainFatal _ => True | _ => False end.

(** A worker with a permit can always take its next step. *)
Lemma worker_progress i n ph (s : State) : ~ fatal (main s) -> workers s !! i = Some (n, ph) -> holds ph = true ->
  exists s' ph', exec (Work i None) s = Some s' /\ workers s' = <[i := (n, ph')]> (workers s) /\
    (steps_left ph' < steps_left ph)%nat /\ main s' = main s.
Proof.
  intros Hf Hi Hh. unfold exec. assert (forall o : option State, match main s with MainFatal _ => None | _ => o end = o) as ->
    by (intros; by destruct (main s)).
  unfold bgWorker. rewrite Hi. unfold upload. destruct ph as [| | | |u| |]; try done.
  - destruct (beforeUpload _ _ _ _ _ _) as [[e|]|]; do 2 eexists; cbn; split_and!; try reflexivity; cbn; lia.
  - destruct (openAndUpload _ _ _ _ _ _) as [[e|] u]; do 2 eexists; cbn; split_and!; try reflexivity; cbn; lia.
  - destruct (readyRename cfg); do 2 eexists; cbn; split_and!; try reflexivity; cbn; lia.
  - do 2 eexists. cbn. split_and!; try reflexivity. cbn. lia.
  - destruct u; do 2 eexists; cbn; split_and!; try reflexivity; cbn; lia.
Qed.

Definition is_work (l : label) : Prop := match l with Work _ _ => True | _ => False end.
Definition is_own (l : label) : Prop := match l with Work _ _ | Main _ => True | _ => False end.

(** The workers that run can be run to where all permits are free. *)
Lemma workers_drain k : forall s : State, 0 <= maxParallelWorkers cfg -> Wf statusName cfg s -> ~ fatal (main s) -> (work_left (workers s) <= k)%nat ->
  exists ls s', run ls s = Some s' /\ Forall is_work ls /\ main s' = main s /\ Wf statusName cfg s' /\ permits (workers s') = 0.
Proof.
  induction k as [|k IH]; intros s Hmax Hwf Hf Hk.
  all: destruct (Z.eq_dec (permits (workers s)) 0) as [Hz|Hz]; [by exists [], s|].
  all: pose proof (permits_nonneg (workers s)) as Hnn.
  all: destruct (permits_positive (workers s) ltac:(lia)) as (i & [n ph] & Hi & Hh).
  all: destruct (worker_progress i n ph s Hf Hi Hh) as (s1 & ph' & E & Hw & Hlt & Hm).
  all: pose proof (work_left_insert _ _ _ (n, ph') Hi Hlt) as Hl.
  { lia. }
  destruct (IH s1) as (ls & s' & Hr & Hls & Hm' & Hwf' & Hp); [done| |by rewrite Hm|rewrite Hw; lia|].
  { eapply step_Wf; [done|exact Hwf|by eexists]. }
  exists (Work i None :: ls), s'. cbn. rewrite E. split; [done|]. split; [by constructor|]. split; [congruence|done].
Qed.

Definition finished (m : mainPhase) : Prop := match m with MainDone | MainReturn | MainFatal _ => True | _ => False end.

(** How many steps the main goroutine has left. *)
Definition main_left (m : mainPhase) : nat :=
  match m with MainUploaded => 1 | MainCheck => 5 | MainPut => 4 | MainMetadata => 3 | MainCancel => 2 | MainAcquire => 1 | _ => 0 end.

Lemma main_progress (s : State) : ~ finished (main s) -> (main s = MainAcquire -> inUse s = 0) ->
  exists s', exec (Main None) s = Some s' /\ (main_left (main s') < main_left (main s))%nat /\ workers s' = workers s /\
    (main s' = MainDone -> main s = MainAcquire).
Proof.
  intros Hf Hu. unfold exec, HandleWALPush. destruct (main s) eqn:Em; try (by destruct Hf).
  - eexists. split; [reflexivity|].
    match goal with |- context [mainMetadata modTime cfg ?n ?s1] => pose proof (mainMetadata_frame modTime cfg n s1) as Hm end.
    cbn -[mainMetadata] in Hm |- *. destruct Hm as (_ & _ & _ & -> & _ & _ & _ & [-> |[e ->]]); split_and!; cbn; try done; lia.
  - destruct (beforeUpload _ _ _ _ _ _) as [[e|]|]; eexists; (split; [reflexivity|]); cbn; split_and!; try done; lia.
  - destruct (openAndUpload _ _ _ _ _ _) as [[e|] u]; eexists; (split; [reflexivity|]); cbn; split_and!; try done; lia.
  - eexists. split; [reflexivity|].
    match goal with |- context [mainMetadata modTime cfg ?n ?s1] => pose proof (mainMetadata_frame modTime cfg n s1) as Hm end.
    cbn -[mainMetadata] in Hm |- *. destruct Hm as (_ & _ & _ & -> & _ & _ & _ & [-> |[e ->]]); split_and!; cbn; try done; lia.
  - eexists. split; [reflexivity|]. cbn. split_and!; try done; lia.
  - rewrite (Hu eq_refl), Z.add_0_l, Z.leb_refl. eexists. split; [reflexivity|]. cbn. split_and!; try done; lia.
Qed.

Lemma main_finishes k : forall s : State, 0 <= maxParallelWorkers cfg -> Wf statusName cfg s -> (main_left (main s) <= k)%nat ->
  exists ls s', run ls s = Some s' /\ Forall is_own ls /\ finished (main s').
Proof.
  assert (forall s : State, {finished (main s)} + {~ finished (main s)}) as Hdec by (intros s; destruct (main s); cbn; tauto).
  induction k as [|k IH]; intros s Hmax Hwf Hk; (destruct (Hdec s) as [Hf|Hf]; [by exists [], s; split; [|split; [constructor|]]|]).
  { destruct (main s); cbn in Hk, Hf; try lia; tauto. }
  assert (exists ls s1, run ls s = Some s1 /\ Forall is_work ls /\ main s1 = main s /\ Wf statusName cfg s1 /\
    (main s1 = MainAcquire -> inUse s1 = 0)) as (ls & s1 & Hr & Hls & Hm & Hwf1 & Hu).
  { destruct (workers_drain _ s Hmax Hwf ltac:(destruct (main s); cbn in *; tauto) (Nat.le_refl _)) as (ls & s1 & Hr & Hls & Hm & Hwf1 & Hp).
    exists ls, s1. split_and!; try done. intros Ha. rewrite (wf_permits _ _ _ Hwf1), Hp. unfold held_by_main. by rewrite Ha. }
  destruct (main_progress s1) as (s2 & E & Hlt & _ & _); [by rewrite Hm|done|].
  destruct (IH s2) as (ls' & s' & Hr' & Hls' & Hfin); [done|eapply step_Wf; [done|exact Hwf1|by eexists]|rewrite Hm in Hlt; lia|].
  exists (ls ++ Main None :: ls'), s'. split; [eapply run_app; [exact Hr|]; cbn; by rewrite E|]. split; [|done].
  apply Forall_app. split; [|by constructor]. eapply Forall_impl; [exact Hls|]. by intros [].
Qed.

Section Laws.
Context (push : PushLaws (A := A) readFile statusName cfg es x0)
  (stor : StorageLaws (Folder := Folder) compress extension Decompressors readSizes).

Lemma start_Wf' sh : Wf statusName cfg (start sh : State).
Proof. apply start_Wf. exact (push_max _ _ _ _ _ push). Qed.

(** ** The archive *)

Notation present := (present (Folder := Folder) Decompressors readFile es).
Notation backed := (backed (Folder := Folder) (A := A) Decompressors readFile statusName es x0).

(** A step leaves what is archived. *)
Lemma change_present (s s' : State) x : change compress extension readFile statusName es x0 s s' ->
  present (storage s) x -> present (storage s') x.
Proof.
  intros Hc (file & Hr & Har). exists file. split; [done|]. destruct Hc as [Hst|y file' c Hy _ _ Hry Hcy Hput|Hj].
  - by rewrite Hst.
  - destruct (decide (y = x)) as [->|Hne].
    + assert (file' = file) as -> by congruence. eapply put_archives; [exact (storage_compression _ _ _ _ stor)|exact Hcy|exact Hput].
    + eapply put_keeps_archived; [exact (storage_compression _ _ _ _ stor)|exact Hput|by intros ->|exact Har].
  - by eapply json_archived.
Qed.

(** Whatever is said to be archived is, and a mark is of such a file, or of one
    with the same mark. *)
Record Archived (s : State) : Prop := {
  archived_says x : source x -> says_archived s x -> present (storage s) x;
  archived_marks x : source x -> marked s x -> backed (storage s) x;
  archived_early : early (main s) -> backed (storage s) x0
}.

Lemma step_Archived (s s' : State) : Wf statusName cfg s /\ Archived s -> step s s' -> Wf statusName cfg s' /\ Archived s'.
Proof.
  intros [Hwf [Hsay Hmark Hearly]] Hs. split; [eapply step_Wf; [exact (push_max _ _ _ _ _ push)|exact Hwf|exact Hs]|].
  destruct (step_effect _ _ _ _ _ _ _ _ _ _ push stor _ _ Hwf Hs) as [Hc Hsays Hmarks He _].
  pose proof (fun x => change_present s s' x Hc) as Hp.
  assert (forall x, backed (storage s) x -> backed (storage s') x) as Hb.
  { intros x (y & Hy & Hk & Hpy). exists y. auto. }
  split; [|intros x Hx [Hm|(y & Hy & Hk & Hm)]%Hmarks; [by apply Hb, Hmark| |done]|by intros Hm%He; apply Hb, Hearly].
  - intros x Hx [Hold|]%Hsays; [|done..]. by apply Hp, Hsay.
  - exists y. auto.
Qed.

Lemma start_Archived sh :
  (forall x, source x -> IsWalAlreadyUploaded (statusManager sh) x = true -> backed (UploadingFolder (uploader sh)) x) ->
  Archived (start sh).
Proof.
  intros Hm.
  assert (shared (start sh) = sh /\ workers (start sh) = [] /\ ~ main_uploaded (main (start sh)) /\
    (early (main (start sh)) -> IsWalAlreadyUploaded (statusManager sh) x0 = true)) as (Es & Ew & Hu & He).
  { rewrite <- (push_mark _ _ _ _ _ push). unfold HandleWALPush_start. destruct (IsWalAlreadyUploaded _ _); [by split_and!; try intros []|].
    destruct (_ || _); by split_and!; try intros []. }
  unfold storage, marked, asm. split; unfold storage, marked, asm; rewrite Es.
  - intros x Hx [(ph & Hin & _)|[-> Hs]]; [|done]. rewrite Ew in Hin. by apply elem_of_nil in Hin.
  - exact Hm.
  - intros Hs. apply Hm; [by left|by apply He].
Qed.

(** ** Nothing is overwritten *)

Definition Kept (f0 : Folder) (s : State) : Prop :=
  (forall x d content, source x -> d ∈ Decompressors -> BackupMeta.ReadObject f0 (x +s "." +s FileExtension d) = Ok content ->
     BackupMeta.ReadObject (storage s) (x +s "." +s FileExtension d) = Ok content) /\
  (forall x, putting x0 s x -> not_archived (storage s) x).

Lemma step_Kept f0 (s s' : State) : preventWalOverwrite cfg = true ->
  Wf statusName cfg s /\ Kept f0 s -> step s s' -> Wf statusName cfg s' /\ Kept f0 s'.
Proof.
  intros Hprev [Hwf [Hk Hn]] Hs. split; [eapply step_Wf; [exact (push_max _ _ _ _ _ push)|exact Hwf|exact Hs]|].
  destruct (step_effect _ _ _ _ _ _ _ _ _ _ push stor _ _ Hwf Hs) as [Hc _ _ _ Hput].
  pose proof (storage_compression _ _ _ _ stor) as claws.
  destruct Hc as [Hst|y file' c Hy Hpy Hpy' Hry Hcy Hp|Hj].
  - split; rewrite Hst; [done|]. intros x [Hx|Hx]%Hput; [by apply Hn|]. rewrite <- Hst. by apply Hx.
  - split.
    + intros x d content Hx Hd Hr. destruct (decide (y = x)) as [->|Hne]; [by destruct (Hn x Hpy d content Hd); apply Hk|].
      rewrite (PutObject_other _ _ _ _ _ Hp); [by apply Hk|]. intros E. apply Hne.
      apply dotted_inj in E as [-> _]; [done|by apply (extension_dots claws)|by eapply extension_noDot].
    + intros x Hx. destruct (Hput x Hx) as [Hx'|Hx']; [|by apply Hx']. assert (x <> y) as Hne by by intros ->.
      eapply put_keeps_not_archived; [exact claws|exact Hp|exact Hne|by apply Hn].
  - assert (forall x d, d ∈ Decompressors ->
      BackupMeta.ReadObject (storage s') (x +s "." +s FileExtension d) = BackupMeta.ReadObject (storage s) (x +s "." +s FileExtension d)) as Hj'.
    { intros x d Hd. apply Hj. intros y E. replace ".json" with ("." +s "json") in E by done.
      apply dotted_inj in E as [_ E]; [by apply (storage_json _ _ _ _ stor d)|by apply (extension_dots claws)|done]. }
    split; [intros x d content Hx Hd Hr; rewrite Hj' by done; by apply Hk|].
    intros x Hx d content Hd. rewrite Hj' by done. destruct (Hput x Hx) as [Hx'|Hx']; [by apply Hn|].
    rewrite <- Hj' by done. by apply Hx'.
Qed.

Lemma start_Kept sh : Kept (UploadingFolder (uploader sh)) (start sh).
Proof.
  unfold Kept, storage, putting, HandleWALPush_start. destruct (IsWalAlreadyUploaded _ _); [|destruct (_ || _)];
    (split; [done|]); intros x [Hin|[? _]]; try done; by apply elem_of_nil in Hin.
Qed.

(** ** The claims *)

(** C10: Suppose that when a push starts, every file that is marked as uploaded
    is backed: it is in the archive with the bytes it has on disk, or a file
    that the directory may show and that has the same mark is (the mark of a
    file is its name up to the first dot, so a [.partial] segment has the mark
    of the segment). Then in every state that the push reaches, however its
    goroutines interleave and whatever the directory shows them, every marked
    file is backed. When the push is done, having uploaded its own file, that
    file is in the archive with the bytes it has on disk; when it returns early
    because its file was marked, that file is backed. So where no two files
    share a mark, a marked file is in the archive itself; where they do it need
    not be ([wal_push_partial]). The names that the directory may show have no
    slash, a segment's file is whole pages, the compressor and the
    decompressors undo each other, and no decompressor is for [json]. *)
Theorem wal_push_archives sh (s : State) :
  (forall x, source x -> IsWalAlreadyUploaded (statusManager sh) x = true -> backed (UploadingFolder (uploader sh)) x) ->
  rtc step (start sh) s ->
  (forall x, source x -> IsWalAlreadyUploaded (statusManager (shared s)) x = true ->
    backed (UploadingFolder (uploader (shared s))) x) /\
  (main s = MainDone -> present (UploadingFolder (uploader (shared s))) x0) /\
  (main s = MainReturn -> backed (UploadingFolder (uploader (shared s))) x0).
Proof.
  intros Hm Hr. assert (Wf statusName cfg s /\ Archived s) as [_ [Hsay Hmark Hearly]].
  { eapply (rtc_invariant _ (fun s => Wf statusName cfg s /\ Archived s)); [exact step_Archived|exact Hr|]. split; [apply start_Wf'|by apply start_Archived]. }
  split; [exact Hmark|]. split; intros Hd.
  - apply Hsay; [by left|]. right. by rewrite Hd.
  - apply Hearly. by rewrite Hd.
Qed.

(** C24: when overwriting is to be prevented, no step of a push changes an
    object that the storage holds of a WAL file when it starts. *)
Theorem wal_push_keeps sh (s : State) x d content : preventWalOverwrite cfg = true -> rtc step (start sh) s ->
  source x -> d ∈ Decompressors ->
  BackupMeta.ReadObject (UploadingFolder (uploader sh)) (x +s "." +s FileExtension d) = Ok content ->
  BackupMeta.ReadObject (UploadingFolder (uploader (shared s))) (x +s "." +s FileExtension d) = Ok content.
Proof.
  intros Hp Hr Hx Hd Hc.
  assert (Wf statusName cfg s /\ Kept (UploadingFolder (uploader sh)) s) as [_ [Hk _]]; [|by apply Hk].
  eapply (rtc_invariant _ (fun s => Wf statusName cfg s /\ Kept _ s)); [exact (fun a b => step_Kept _ a b Hp)|exact Hr|].
  split; [apply start_Wf'|apply start_Kept].
Qed.
End Laws.

(** In every state of a push a file has one background upload, that of a
    [.ready] file other than the one being pushed; no more of them run than
    the settings allow; and none runs once the push is done. *)
Theorem wal_push_uploads sh (s : State) : 0 <= maxParallelWorkers cfg -> rtc step (start sh) s ->
  NoDup (workers s).*1 /\
  (forall n, n ∈ (workers s).*1 -> HasSuffix n readySuffix = true /\ n <> firstWalName cfg +s readySuffix) /\
  permits (workers s) <= maxParallelWorkers cfg /\
  (main s = MainDone -> forall i w, workers s !! i = Some w -> holds w.2 = false).
Proof.
  intros Hmax Hr. pose proof (reachable_Wf _ _ _ _ _ _ _ _ Hmax _ _ Hr) as Hwf.
  pose proof (wf_permits _ _ _ Hwf) as Hp. pose proof (wf_bound _ _ _ Hwf) as Hb. unfold held_by_main in Hp.
  split; [by eapply wf_unique|]. split; [by intros n (_ & ? & _ & ?)%(wf_workers _ _ _ Hwf)|]. split; [destruct (main s); lia|].
  intros Hd i w. apply permits_none. rewrite Hd in Hp. lia.
Qed.

(** C11: a push can always end: from every state it reaches, the uploads that
    run and the main goroutine alone have a run to its end. *)
Theorem wal_push_finishes sh (s : State) : 0 <= maxParallelWorkers cfg -> rtc step (start sh) s ->
  exists ls s', run ls s = Some s' /\ Forall is_own ls /\ finished (main s').
Proof. intros Hmax Hr. eapply main_finishes; [done|by eapply reachable_Wf|done]. Qed.
End Archive.

(** ** Examples *)

Module WalMem.
(** The marks are a set of names. *)
#[global] Program Instance gsetStatus : StatusFolder (gset string) := {|
  FileExists d x := bool_decide (x ∈ d);
  CreateFile d x := Ok ({[ x ]} ∪ d);
  DeleteFile d x := Ok (d ∖ {[ x ]});
  RenameFile d x x' := if bool_decide (x ∈ d) then Ok ({[ x' ]} ∪ d ∖ {[ x ]}) else Err (External "no such file")
|}.
Next Obligation.
  intros d x d' y [= <-]. rewrite <- bool_decide_or. apply bool_decide_ext. set_solver.
Qed.
Next Obligation.
  intros d x d' y [= <-]. rewrite <- bool_decide_not, <- bool_decide_and. apply bool_decide_ext. set_solver.
Qed.
Next Obligation.
  intros d x x' d' y. cbn. case_bool_decide; [|done]. intros [= <-].
  rewrite <- bool_decide_not, <- bool_decide_and, <- bool_decide_or. apply bool_decide_ext. set_solver.
Qed.

Definition compress (f : list byte) : res pgError (list byte) := Ok (Byte.x07 :: f).
Definition lz4 : Decompressor := mkDecompressor "lz4" (fun c => (tail c, None)).
Definition readSizes (n : nat) : list nat := [S n].
Definition modTime (_ : string) : res pgError Z := Ok 0.

Definition wal1 : string := "000000010000000000000001".
Definition wal2 : string := "000000010000000000000002".
Definition partial1 : string := wal1 +s ".partial".
Definition page : list byte := replicate 8192 Byte.x01.

Definition readFile (path : string) : res pgError (list byte) :=
  if HasPrefix path "/pg_wal/" then Ok page else Err (External "no such file").

Definition config (path : string) (prevent : bool) : PushConfig := mkPushConfig path 1 1 prevent true WalNoMetadataLevel.
Definition statusName (n : string) : bool := bool_decide (n = wal2 +s ".ready").

Notation memShared := (Shared (Folder := gmap string (list byte)) (DF := gmap string (list byte))
  (A := DataFolderASM (gset string)) (P := DataFolderASM (gset string)) (M := gmap string (list byte))).

(** What the storage has at first, and the status files of PostgreSQL. *)
Definition shared0 (stored : gmap string (list byte)) (ready : gset string) : memShared :=
  mkShared (mkWalUploader stored None) (NewDataFolderASM ∅) (NewDataFolderASM ready) ∅.

(** One file is uploaded in the background while another is pushed. *)
Definition labels (steps : nat) : list label :=
  [Scan (StatOf true); Scan Sent; Process true; Process true; Main None] ++ replicate 6 (Work 0 None) ++ replicate steps (Main None).

Notation run := (run (wcfg := DefaultWalConfig) (Folder := gmap string (list byte)) (DF := gmap string (list byte))
  (A := DataFolderASM (gset string)) (P := DataFolderASM (gset string)) (M := gmap string (list byte))
  compress "lz4" [lz4] readFile readSizes modTime).

Definition cfg1 : PushConfig := config ("/pg_wal/" +s wal1) true.
Definition first_push : memShared := shared0 ∅ {[ wal2 +s ".ready" ]}.
(** The file is in the storage already. *)
Definition second_push : memShared := shared0 {[ wal1 +s ".lz4" := Byte.x07 :: page ]} {[ wal2 +s ".ready" ]}.

Lemma source_names x : source statusName wal1 x -> x = wal1 \/ x = wal2.
Proof. intros [->|Hx]; [by left|right]. unfold statusName in Hx. apply bool_decide_eq_true in Hx. by apply ready_inj. Qed.

Lemma laws1 : PushLaws (wcfg := DefaultWalConfig) (A := DataFolderASM (gset string)) readFile statusName cfg1 ["pg_wal"] wal1.
Proof.
  split.
  - exact (Z.le_0_1).
  - split; [discriminate|]. by constructor.
  - reflexivity.
  - intros x [->| ->]%source_names; reflexivity.
  - intros x file Hx Hr _. assert (readFile (pathOf ["pg_wal"] x) = Ok page) as E by (apply source_names in Hx as [->| ->]; reflexivity).
    rewrite E in Hr. injection Hr as <-. vm_compute. reflexivity.
  - reflexivity.
Qed.

Lemma storageLaws1 : StorageLaws (Folder := gmap string (list byte)) compress "lz4" [lz4] readSizes.
Proof.
  split; [split| | |].
  - intros n. cbn. lia.
  - intros d file c ->%list_elem_of_singleton _ [= <-]. reflexivity.
  - exists lz4. split; [by constructor|reflexivity].
  - intros d ->%list_elem_of_singleton. reflexivity.
  - apply NoDup_singleton.
  - intros d ->%list_elem_of_singleton. discriminate.
  - intros folder path name. cbn. by destruct (folder !! path).
Qed.

Notation State := (BgState (Folder := gmap string (list byte)) (DF := gmap string (list byte))
  (A := DataFolderASM (gset string)) (P := DataFolderASM (gset string)) (M := gmap string (list byte))).

Definition first_run (n : nat) : option State :=
  run statusName cfg1 (take n (labels 4)) (HandleWALPush_start cfg1 first_push).
Definition second_run : option State := run statusName cfg1 (labels 3) (HandleWALPush_start cfg1 second_push).

(** What is looked at in the state a run ends in. *)
Definition seen (s : State) : mainPhase * list (string * phase) * bool :=
  (main s, workers s, IsWalAlreadyUploaded (statusManager (shared s)) wal2).

Lemma seen_run (o : option State) v : seen <$> o = Some v -> exists s, o = Some s /\ seen s = v.
Proof. destruct o as [s|]; [|done]. intros [= E]. by exists s. Qed.

Lemma first_run_seen : exists s, first_run 15 = Some s /\ seen s = (MainDone, [(wal2 +s ".ready", WEnd)], true).
Proof. apply seen_run. vm_compute. reflexivity. Qed.

Lemma first_run_early : exists s, first_run 7 = Some s /\ seen s = (MainPut, [(wal2 +s ".ready", WMark)], false).
Proof. apply seen_run. vm_compute. reflexivity. Qed.

Lemma second_run_seen : exists s, second_run = Some s /\ seen s = (MainDone, [(wal2 +s ".ready", WEnd)], true).
Proof. apply seen_run. vm_compute. reflexivity. Qed.
End WalMem.

Lemma wal_push_archives_witness : exists s, WalMem.first_run 15 = Some s /\ main s = MainDone /\
  archived [WalMem.lz4] (UploadingFolder (uploader (shared s))) WalMem.wal2 WalMem.page /\
  archived [WalMem.lz4] (UploadingFolder (uploader (shared s))) WalMem.wal1 WalMem.page.
Proof.
  destruct WalMem.first_run_seen as (s & E & Hs). injection Hs as Hd _ Hu. exists s. split; [exact E|]. split; [exact Hd|].
  destruct (wal_push_archives WalMem.compress "lz4" [WalMem.lz4] WalMem.readFile WalMem.readSizes WalMem.modTime WalMem.statusName
    WalMem.cfg1 ["pg_wal"] WalMem.wal1 WalMem.laws1 WalMem.storageLaws1 WalMem.first_push s) as (Hm & Hf & _).
  - intros x _ Hx. discriminate Hx.
  - eapply run_rtc. exact E.
  - split.
    + destruct (Hm WalMem.wal2) as (y & Hy & Hk & file & Hr & Ha); [right; reflexivity|exact Hu|].
      apply WalMem.source_names in Hy as [->| ->]; [discriminate Hk|]. injection Hr as <-. exact Ha.
    + destruct (Hf Hd) as (file & Hr & Ha). injection Hr as <-. exact Ha.
Defined.

Lemma wal_push_keeps_witness : exists s, WalMem.second_run = Some s /\ main s = MainDone /\
  BackupMeta.ReadObject (UploadingFolder (uploader (shared s))) (WalMem.wal1 +s "." +s "lz4") = Ok (Byte.x07 :: WalMem.page).
Proof.
  destruct WalMem.second_run_seen as (s & E & Hs). injection Hs as Hd _ _. exists s. split; [exact E|]. split; [exact Hd|].
  eapply (wal_push_keeps WalMem.compress "lz4" [WalMem.lz4] WalMem.readFile WalMem.readSizes WalMem.modTime WalMem.statusName
    WalMem.cfg1 ["pg_wal"] WalMem.wal1 WalMem.laws1 WalMem.storageLaws1 WalMem.second_push s _ WalMem.lz4).
  - reflexivity.
  - eapply run_rtc. exact E.
  - left. reflexivity.
  - apply list_elem_of_here.
  - vm_compute. reflexivity.
Defined.

Lemma wal_push_uploads_witness : exists s, WalMem.first_run 15 = Some s /\
  (workers s).*1 = [WalMem.wal2 +s ".ready"] /\ (forall i w, workers s !! i = Some w -> holds w.2 = false).
Proof.
  destruct WalMem.first_run_seen as (s & E & Hs). injection Hs as Hd Hw _. exists s. split; [exact E|].
  split; [rewrite Hw; reflexivity|].
  destruct (wal_push_uploads (wcfg := DefaultWalConfig) WalMem.compress "lz4" [WalMem.lz4] WalMem.readFile WalMem.readSizes WalMem.modTime
    WalMem.statusName WalMem.cfg1 WalMem.first_push s) as (_ & _ & _ & Hh).
  - exact Z.le_0_1.
  - eapply run_rtc. exact E.
  - exact (Hh Hd).
Defined.

Lemma wal_push_finishes_witness : exists s ls s', WalMem.first_run 7 = Some s /\
  (workers s).*2 = [WMark] /\ main s = MainPut /\
  WalMem.run WalMem.statusName WalMem.cfg1 ls s = Some s' /\ finished (main s').
Proof.
  destruct WalMem.first_run_early as (s & E & Hs). injection Hs as Hd Hw _.
  destruct (wal_push_finishes (wcfg := DefaultWalConfig) WalMem.compress "lz4" [WalMem.lz4] WalMem.readFile WalMem.readSizes WalMem.modTime
    WalMem.statusName WalMem.cfg1 WalMem.first_push s) as (ls & s' & Hr & _ & Hf).
  - exact Z.le_0_1.
  - eapply run_rtc. exact E.
  - exists s, ls, s'. split; [exact E|]. split; [rewrite Hw; reflexivity|]. split; [exact Hd|]. split; [exact Hr|exact Hf].
Defined.

(** ** Two runs that go wrong *)

Module WalRuns.
Import WalMem.

(** A history file is pushed while the partial segment of the old timeline is
    ready. *)
Definition historyConfig : PushConfig := config "/pg_wal/00000002.history" false.
Definition partialReady (n : string) : bool := bool_decide (n = partial1 +s ".ready").
Definition partial_run : option State := run partialReady historyConfig
  ([Scan (StatOf false); Scan (DirOf (Some [partial1 +s ".ready"])); Scan Sent; Process true; Process true] ++
   replicate 6 (Work 0 None) ++ replicate 5 (Main None))
  (HandleWALPush_start historyConfig (shared0 ∅ {[ partial1 +s ".ready" ]})).

(** The segment itself is pushed next. *)
Definition segment_run : option (State * State) :=
  s ← partial_run; s' ← run statusName cfg1 [Main None] (HandleWALPush_start cfg1 (shared s)); Some (s, s').

(** With one upload at a time, and one to be made, three files are uploaded:
    the permit is free before the upload is counted. *)
Definition three (n : string) : bool := HasSuffix n ".ready".
Definition upload_steps (i : nat) : list label := [Scan Sent; Process true; Process true] ++ replicate 5 (Work i None).
Definition limit_run : option State := run three cfg1
  ([Scan (StatOf true)] ++ upload_steps 0 ++ [Scan (StatOf false); Scan (DirOf (Some ["a.ready"; "b.ready"]))] ++
   upload_steps 1 ++ upload_steps 2 ++ [Work 0 None; Work 1 None; Work 2 None])
  (HandleWALPush_start cfg1 (shared0 ∅ ∅)).
End WalRuns.

(** The mark of a file is kept under its name without the extension, so the
    background upload of a [.partial] segment marks the segment itself: a later
    push of that segment returns without an error, and the storage has nothing
    of it. *)
Theorem wal_push_partial : exists s s', WalRuns.segment_run = Some (s, s') /\
  main s = MainDone /\ main s' = MainReturn /\ WalMem.readFile (walFilePath WalMem.cfg1) = Ok WalMem.page /\
  not_archived [WalMem.lz4] (UploadingFolder (uploader (shared s'))) WalMem.wal1.
Proof.
  assert ((fun '(s, s') => (main s, main s', UploadingFolder (uploader (shared s')) !! (WalMem.wal1 +s ".lz4"))) <$> WalRuns.segment_run =
    Some (MainDone, MainReturn, None)) as E by (vm_compute; reflexivity).
  destruct WalRuns.segment_run as [[s s']|]; [|discriminate E]. injection E as Hs Hs' Hn. exists s, s'.
  split; [reflexivity|]. split; [exact Hs|]. split; [exact Hs'|]. split; [reflexivity|].
  intros d content ->%list_elem_of_singleton. cbn. rewrite Hn. discriminate.
Qed.

Lemma wal_push_over_limit : exists s, WalRuns.limit_run = Some s /\ numUploaded s = 3 /\
  maxNumUploaded WalMem.cfg1 + maxParallelWorkers WalMem.cfg1 = 2.
Proof.
  assert (numUploaded <$> WalRuns.limit_run = Some 3) as E by (vm_compute; reflexivity).
  destruct WalRuns.limit_run as [s|]; [|discriminate E]. injection E as Hs. by exists s.
Qed.
