(* ===== verification/WalFetch.v ===== *)
(** * Fetching WAL

    [wal_fetch_handler.go], [prefetch.go] and [cleaner.go], in
    [src/internal/databases/postgres], with [DownloadFileTo] of
    [fetch_helper.go]. [wal-fetch] takes a file that an earlier
    [wal-prefetch] has left, waits for one that is being prefetched while it
    grows, or downloads the file itself. The local files and what other
    processes do to them in the meantime are parameters; the prefault of the
    data directory is not modelled. *)

From stdpp Require Import gmap strings.
From S2P Require Import Prelude GoIO WalRecord WalPage GoStrings GoPath GoFilepath Timeline Storage BackupMeta.
From S2P Require Import WalArchive.
Open Scope Z_scope.

(** ** Local files *)

Inductive fileStat := StatSize (size : Z) | StatNotExist | StatError (err : pgError).

Class LocalFiles (F : Type) := {
  fileContent : F -> string -> option (list byte);
  Stat : F -> string -> fileStat;
  Rename : F -> string -> string -> option pgError * F;
  Remove : F -> string -> F;
  (** [os.O_CREATE|os.O_EXCL] *)
  CreateExcl : F -> string -> option pgError * F;
  (** Writing to a file that was just created. *)
  WriteTo : F -> string -> list byte -> option pgError * F;
  MkdirAll : F -> string -> F;
  GetFiles : F -> string -> res pgError (list string)
}.

(** What the model relies on. *)
Class LocalFilesLaws (F : Type) `{LocalFiles F} := {
  Stat_size f p n : Stat f p = StatSize n -> exists c, fileContent f p = Some c /\ Z.of_nat (length c) = n;
  Stat_absent f p : Stat f p = StatNotExist -> fileContent f p = None;
  Rename_to f p q f' : Rename f p q = (None, f') -> fileContent f' q = fileContent f p;
  Rename_from f p q f' : Rename f p q = (None, f') -> p <> q -> fileContent f' p = None;
  Rename_failed f p q err f' : Rename f p q = (Some err, f') -> f' = f;
  Rename_other f p q err f' r : Rename f p q = (err, f') -> r <> q -> r <> p -> fileContent f' r = fileContent f r;
  Remove_other f p r : r <> p -> fileContent (Remove f p) r = fileContent f r;
  Remove_self f p : fileContent (Remove f p) p = fileContent f p \/ fileContent (Remove f p) p = None;
  CreateExcl_failed f p err f' : CreateExcl f p = (Some err, f') -> f' = f;
  CreateExcl_new f p f' : CreateExcl f p = (None, f') -> fileContent f' p = Some [];
  CreateExcl_other f p err f' r : CreateExcl f p = (err, f') -> r <> p -> fileContent f' r = fileContent f r;
  WriteTo_all f p bs f' : WriteTo f p bs = (None, f') -> fileContent f' p = Some bs;
  WriteTo_some f p bs err f' : WriteTo f p bs = (err, f') -> exists bs', fileContent f' p = Some bs' /\ bs' `prefix_of` bs;
  WriteTo_other f p bs err f' r : WriteTo f p bs = (err, f') -> r <> p -> fileContent f' r = fileContent f r;
  MkdirAll_same f p r : fileContent (MkdirAll f p) r = fileContent f r;
  GetFiles_names f p files : GetFiles f p = Ok files -> Forall (fun e => simple e = true) files
}.

Definition InvalidWalFileMagicError : pgError := External "WAL-G: WAL file magic is invalid ".

Section Fetch.
Context {wcfg : WalConfig} {Folder : Type} `{StorageFolder Folder} {F : Type} `{LocalFiles F}.
Variable Decompressors : list Decompressor.

(** [internal.DownloadFileTo]; [cache] is the cached extension of the last
    decompressor. *)
Definition DownloadFileTo (cache : option string) (folder : Folder) (fileName dstPath : string) (f : F) : option pgError * F :=
  match CreateExcl f dstPath with
  | (Some err, f) => (Some err, f)
  | (None, f) =>
      match fst (DownloadAndDecompressStorageFile Decompressors cache folder fileName) with
      | Err err => (Some err, Remove f dstPath)
      | Ok (bs, readErr) =>
          let '(writeErr, f) := WriteTo f dstPath bs in
          (match writeErr with Some err => Some err | None => readErr end, f)
      end
  end.

(** The prefetch directory, that of the running downloads, and the file in
    each. *)
Definition getPrefetchLocations (location walFileName : string) : string * string * string * string :=
  let prefetchLocation := Join (Join location ".wal-g") "prefetch" in
  let runningLocation := Join prefetchLocation "running" in
  (prefetchLocation, runningLocation, Join runningLocation walFileName, Join prefetchLocation walFileName).

(** Four bytes are read into a buffer of zeroes. *)
Definition checkWALFileMagic (f : F) (path : string) : option pgError :=
  match fileContent f path with
  | None => Some (External "open: no such file or directory")
  | Some [] => Some (External "EOF")
  | Some file =>
      let magic := take 4 (file ++ replicate 4 Byte.x00) in
      if le_dec magic <? 0xD061 then Some InvalidWalFileMagicError else None
  end.

(** How the loop of [HandleWALFetch] is left: with the file, with an error
    that ends the process, or for a download, then perhaps with the running
    and the prefetched file to be removed. *)
Inductive fetchOutcome := Fetched | FetchFatal (err : pgError) | FetchDownload (cleanup : bool).

Definition maxSizeStallTerations : Z := 100.

Section Loop.
Variables (running prefetched location : string).
(** What the others do to the files before the [t]-th look at them. *)
Variable others : nat -> F -> F.

Fixpoint fetchLoop (fuel t : nat) (seenSize sizeStallInterations : Z) (f : F) : option (fetchOutcome * F) :=
  match fuel with
  | O => None
  | S fuel =>
      let f := others t f in
      match Stat f prefetched with
      | StatSize size =>
          if negb (size =? WalSegmentSize) then Some (FetchDownload false, f)
          else match Rename (others (S t) f) prefetched location with
               | (Some err, f) => Some (FetchFatal err, f)
               | (None, f) =>
                   match checkWALFileMagic f location with
                   | Some _ => Some (FetchDownload false, Remove f location)
                   | None => Some (Fetched, f)
                   end
               end
      | StatError err => Some (FetchFatal err, f)
      | StatNotExist =>
          let f := others (S t) f in
          match Stat f running with
          | StatSize observedSize =>
              if observedSize <=? seenSize then
                let sizeStallInterations := sizeStallInterations + 1 in
                if maxSizeStallTerations <=? sizeStallInterations then Some (FetchDownload true, f)
                else fetchLoop fuel (S (S t)) seenSize sizeStallInterations f
              else fetchLoop fuel (S (S t)) observedSize 0 f
          | _ => Some (FetchDownload false, f)
          end
      end
  end.
End Loop.

(** [HandleWALFetch] without the fork; the deferred removals are not reached
    when the download fails. *)
Definition HandleWALFetch (others : nat -> F -> F) (fuel : nat) (cache : option string) (folder : Folder) (walFileName location : string) (f : F)
    : option (option pgError * F) :=
  let '(_, _, running, prefetched) := getPrefetchLocations (Dir location) walFileName in
  '(outcome, f) ← fetchLoop running prefetched location others fuel 0 (-1) 0 f;
  Some match outcome with
       | Fetched => (None, f)
       | FetchFatal err => (Some err, f)
       | FetchDownload cleanup =>
           match DownloadFileTo cache folder walFileName location f with
           | (Some err, f) => (Some err, f)
           | (None, f) => (None, if cleanup then Remove (Remove f running) prefetched else f)
           end
       end.

(** Whether [forkPrefetch] starts a prefetch. *)
Definition forkPrefetch (walFileName : string) (concurrency : Z) : bool :=
  negb (Contains walFileName "history" || Contains walFileName "partial" || (concurrency =? 1)).

Definition known (s : fileStat) : bool := match s with StatNotExist => false | _ => true end.

Definition exists_ (s : fileStat) : bool := match s with StatSize _ => true | _ => false end.

(** [prefetchFile] by itself; the first look at the files may be answered
    before others act. *)
Definition prefetchFile (cache : option string) (location : string) (folder : Folder) (walFileName : string) (f : F) : F :=
  let '(_, runningLocation, oldPath, newPath) := getPrefetchLocations location walFileName in
  if known (Stat f oldPath) || known (Stat f newPath) then f
  else
    let f := MkdirAll f runningLocation in
    let '(_, f) := DownloadFileTo cache folder walFileName oldPath f in
    if exists_ (Stat f oldPath) && negb (known (Stat f newPath)) then snd (Rename f oldPath newPath)
    else Remove f oldPath.

(** The names that [HandleWALPrefetch] starts a download for: after a failure
    the name is empty. *)
Fixpoint prefetchNames (concurrency : nat) (fileName : string) : list string :=
  match concurrency with
  | O => []
  | S concurrency =>
      let fileName := match GetNextWalFilename fileName with Ok name => name | Err _ => "" end in
      fileName :: prefetchNames concurrency fileName
  end.

(** The downloads of [HandleWALPrefetch], one after the other. *)
Definition HandleWALPrefetch (concurrency : nat) (cache : option string) (folder : Folder) (walFileName location : string) (f : F) : F :=
  foldl (fun f fileName => prefetchFile cache (Dir location) folder fileName f) f (prefetchNames concurrency walFileName).

(** ** [cleaner.go] *)

Definition olderFile (timelineID logSegNo : Z) (f : string) : bool :=
  match ParseWALFilename f with
  | Err _ => false
  | Ok (fileTimelineID, fileLogSegNo) =>
      (fileTimelineID <? timelineID) || ((fileTimelineID =? timelineID) && (fileLogSegNo <? logSegNo))
  end.

Definition cleanupPrefetchDirectory (directory : string) (timelineID logSegNo : Z) (f : F) : F :=
  match GetFiles f directory with
  | Err _ => f
  | Ok files => foldl (fun f name => if olderFile timelineID logSegNo name then Remove f (Join directory name) else f) f files
  end.

Definition CleanupPrefetchDirectories (walFileName location : string) (f : F) : F :=
  match ParseWALFilename walFileName with
  | Err _ => f
  | Ok (timelineID, logSegNo) =>
      let '(prefetchLocation, runningLocation, _, _) := getPrefetchLocations location walFileName in
      foldl (fun f directory => cleanupPrefetchDirectory directory timelineID logSegNo f) f [prefetchLocation; runningLocation]
  end.
End Fetch.

(** ** Lemmas *)

Section FetchLemmas.
Context {wcfg : WalConfig} {Folder : Type} `{StorageFolder Folder} {F : Type} `{LocalFilesLaws F}.
Variable Decompressors : list Decompressor.
Hypothesis Hnodup : NoDup (FileExtension <$> Decompressors).

(** The objects of a file decompress to the file, or break off. *)
Definition stored (folder : Folder) (x : string) (file : list byte) : Prop :=
  forall d content, d ∈ Decompressors -> Storage.ReadObject folder (x +s "." +s FileExtension d) = Ok content ->
    (Decompress d content).1 `prefix_of` file /\ ((Decompress d content).2 = None -> (Decompress d content).1 = file).

Lemma download_stored cache folder x file bs err : stored folder x file ->
  fst (DownloadAndDecompressStorageFile Decompressors cache folder x) = Ok (bs, err) ->
  bs `prefix_of` file /\ (err = None -> bs = file).
Proof.
  intros Hst. unfold DownloadAndDecompressStorageFile.
  pose proof (downloadLoop_spec folder x cache (putCachedDecompressorInFirstPlace Decompressors cache Decompressors)) as Hs.
  destruct (downloadLoop _ _ _ _) as [[stream|e] cache']; cbn [fst]; [|done]. intros [= ->].
  destruct Hs as (d & content & Hd & Ho & E & _). apply putCached_elem in Hd; [|done].
  unfold object_of, TryDownloadFile in Ho. destruct (Storage.ReadObject folder _) as [c|e] eqn:Er; [|by destruct (PgCause e)].
  injection Ho as ->. pose proof (Hst d content Hd Er) as Hp. by rewrite <- E in Hp.
Qed.

Lemma DownloadFileTo_other cache folder x dst f err f' r : DownloadFileTo Decompressors cache folder x dst f = (err, f') ->
  r <> dst -> fileContent f' r = fileContent f r.
Proof.
  unfold DownloadFileTo. intros E Hr. destruct (CreateExcl f dst) as [[e|] f1] eqn:Ec.
  { injection E as <- <-. by rewrite (CreateExcl_failed _ _ _ _ Ec). }
  rewrite <- (CreateExcl_other _ _ _ _ r Ec Hr). destruct (fst _) as [[bs readErr]|e] eqn:Ed.
  - destruct (WriteTo f1 dst bs) as [writeErr f2] eqn:Ew. injection E as <- <-. by rewrite (WriteTo_other _ _ _ _ _ _ Ew Hr).
  - injection E as <- <-. by rewrite Remove_other.
Qed.

(** Without an error the file is there. *)
Lemma DownloadFileTo_ok cache folder x file dst f f' : stored folder x file ->
  DownloadFileTo Decompressors cache folder x dst f = (None, f') -> fileContent f' dst = Some file.
Proof.
  intros Hst. unfold DownloadFileTo. destruct (CreateExcl f dst) as [[e|] f1] eqn:Ec; [done|].
  destruct (fst _) as [[bs readErr]|e] eqn:Ed; [|done]. destruct (download_stored _ _ _ _ _ _ Hst Ed) as [_ Hall].
  destruct (WriteTo f1 dst bs) as [[e|] f2] eqn:Ew; [done|]. intros [= -> <-]. rewrite (WriteTo_all _ _ _ _ Ew). by rewrite Hall.
Qed.

(** *** The places of the files *)

Definition below (es : list string) (rest : list string) : string := absPath (es ++ [".wal-g"; "prefetch"] ++ rest).

Definition directory (es : list string) : Prop := es <> [] /\ Forall (fun e => simple e = true) es.

Lemma locations es x : directory es -> x = "" \/ simple x = true ->
  getPrefetchLocations (absPath es) x =
    (below es [], below es ["running"], below es ("running" :: if bool_decide (x = "") then [] else [x]),
     below es (if bool_decide (x = "") then [] else [x])).
Proof.
  intros [Hne Hes] Hx. unfold getPrefetchLocations, below.
  assert (forall l e, Forall (fun e => simple e = true) l -> l <> [] -> simple e = true -> Join (absPath l) e = absPath (l ++ [e])) as HJ
    by (intros; by apply Join_absPath).
  assert (forall l, Forall (fun e => simple e = true) l -> l <> [] -> Join (absPath l) "" = absPath l) as HJ0.
  { intros l Hl Hn. pose proof (Join_below l [] Hn Hl ltac:(constructor)) as E. by rewrite app_nil_r in E. }
  assert (Forall (fun e => simple e = true) (es ++ [".wal-g"])) as Hd1 by (apply Forall_app; split; [done|by constructor]).
  assert (Forall (fun e => simple e = true) ((es ++ [".wal-g"]) ++ ["prefetch"])) as Hd2 by (apply Forall_app; split; [done|by constructor]).
  assert (Forall (fun e => simple e = true) (((es ++ [".wal-g"]) ++ ["prefetch"]) ++ ["running"])) as Hd3 by (apply Forall_app; split; [done|by constructor]).
  rewrite (HJ es ".wal-g") by done. rewrite (HJ _ "prefetch") by (done || by destruct es). rewrite (HJ _ "running") by (done || by destruct es).
  destruct Hx as [->|Hx].
  - rewrite !HJ0 by (done || by destruct es). cbn [bool_decide decide_rel]. rewrite <- !app_assoc. done.
  - rewrite bool_decide_eq_false_2 by by intros ->. rewrite !HJ by (done || by destruct es). rewrite <- !app_assoc. done.
Qed.

Lemma below_inj es l l' : directory es -> Forall (fun e => simple e = true) l -> Forall (fun e => simple e = true) l' ->
  below es l = below es l' -> l = l'.
Proof.
  intros [_ Hes] Hl Hl' E. unfold below in E. apply absPath_inj in E;
    [|apply Forall_app; split; [done|repeat constructor; done]|apply Forall_app; split; [done|repeat constructor; done]].
  apply app_inv_head in E. by injection E.
Qed.

(** *** What prefetching does to the two files *)

Lemma prefix_full (c file : list byte) : c `prefix_of` file -> Z.of_nat (length file) <= WalSegmentSize ->
  Z.of_nat (length c) = WalSegmentSize -> c = file.
Proof. intros [k ->] Hf Hc. rewrite length_app in Hf. destruct k; [by rewrite app_nil_r|cbn in Hf; lia]. Qed.

Lemma unknown_absent f p : known (Stat f p) = false -> fileContent f p = None.
Proof. destruct (Stat f p) eqn:E; try done. intros _. by apply Stat_absent. Qed.

Section Prefetching.
Variables (running prefetched x : string) (folder : Folder).

Definition same (p : string) (f f' : F) : Prop := fileContent f' p = fileContent f p.

(** A process that has the file open writes more of what it downloads. *)
Definition grows (p : string) (f f' : F) : Prop := exists c c' cache bs err,
  fst (DownloadAndDecompressStorageFile Decompressors cache folder x) = Ok (bs, err) /\
  fileContent f p = Some c /\ fileContent f' p = Some c' /\ c `prefix_of` c' /\ c' `prefix_of` bs.

(** A step of one of the processes that prefetch: it leaves the two files
    alone, creates the running one, writes to either (another process may have
    renamed the one it has open), renames the running one to the prefetched
    one when there is none, or removes the running one. *)
Inductive prefetch_step (f f' : F) : Prop :=
| ps_else : same running f f' -> same prefetched f f' -> prefetch_step f f'
| ps_create : fileContent f running = None -> fileContent f' running = Some [] -> same prefetched f f' -> prefetch_step f f'
| ps_running : grows running f f' -> same prefetched f f' -> prefetch_step f f'
| ps_prefetched : grows prefetched f f' -> same running f f' -> prefetch_step f f'
| ps_publish : fileContent f prefetched = None -> fileContent f' prefetched = fileContent f running -> fileContent f' running = None -> prefetch_step f f'
| ps_drop : fileContent f' running = None -> same prefetched f f' -> prefetch_step f f'.

(** A [wal-fetch] of the file takes or removes what was prefetched. *)
Definition fetch_takes (f f' : F) : Prop :=
  fileContent f' prefetched = None /\ (same running f f' \/ fileContent f' running = None).

(** The files are what prefetching and earlier fetches have made of a
    directory with neither. *)
Definition prefetched_from_nothing (f : F) : Prop := exists f0,
  fileContent f0 running = None /\ fileContent f0 prefetched = None /\
  rtc (fun f f' => prefetch_step f f' \/ fetch_takes f f') f0 f.

(** **** The steps keep beginnings of the archived file *)

Definition partial (file : list byte) (f : F) : Prop := forall p c, p = running \/ p = prefetched -> fileContent f p = Some c -> c `prefix_of` file.

Lemma grows_prefix file p f f' c : stored folder x file -> grows p f f' -> fileContent f' p = Some c -> c `prefix_of` file.
Proof.
  intros Hst (c0 & c' & cache & bs & err & Hd & _ & Hc' & _ & Hp) Hc. rewrite Hc in Hc'. injection Hc' as ->.
  etrans; [exact Hp|]. by destruct (download_stored _ _ _ _ _ _ Hst Hd).
Qed.

Lemma partial_pair file f :
  partial file f <-> (forall c, fileContent f running = Some c -> c `prefix_of` file) /\ (forall c, fileContent f prefetched = Some c -> c `prefix_of` file).
Proof. split; [intros Hp; split; intros c; apply Hp; tauto|]. intros [Hr Hp] p c [->| ->]; auto. Qed.

Lemma prefetch_step_partial file f f' : stored folder x file -> prefetch_step f f' -> partial file f -> partial file f'.
Proof.
  unfold same. intros Hst Hs. rewrite !partial_pair. intros [Hr Hp].
  destruct Hs as [E1 E2|_ E1 E2|Hg E2|Hg E2|_ E1 E2|E1 E2]; unfold same in *; split; intros c Hc; rewrite ?E1, ?E2 in Hc; try done; eauto using grows_prefix.
  injection Hc as <-. apply prefix_nil.
Qed.

Lemma prefetch_steps_partial file f f' : stored folder x file -> rtc prefetch_step f f' -> partial file f -> partial file f'.
Proof. intros Hst. induction 1; [done|]. intros Hp. eauto using prefetch_step_partial. Qed.

Lemma from_nothing_partial file f : stored folder x file -> prefetched_from_nothing f -> partial file f.
Proof.
  intros Hst (f0 & Hr & Hp & Hs). assert (partial file f0) as Hpart by (apply partial_pair; split; congruence). clear Hr Hp.
  induction Hs as [|f0 f1 f2 [Hs|[Ht Hr]] _ IH]; [done|eauto using prefetch_step_partial|]. apply IH.
  apply partial_pair in Hpart as [Hpart _]. apply partial_pair. unfold same in *. split; intros c Hc; [|congruence].
  destruct Hr as [E|E]; rewrite E in Hc; [auto|done].
Qed.

(** The whole file stays. *)
Lemma prefetch_steps_whole file f f' : stored folder x file -> rtc prefetch_step f f' ->
  fileContent f prefetched = Some file -> fileContent f' prefetched = Some file.
Proof.
  intros Hst. induction 1 as [|f0 f1 f2 Hs _ IH]; [done|]. intros Hf. apply IH.
  destruct Hs as [_ E|_ _ E|_ E|Hg _|E _ _|_ E]; unfold same in *; try congruence.
  pose proof Hg as (c & c' & _ & _ & _ & _ & Hc & Hc' & Hpre & _). rewrite Hf in Hc. injection Hc as <-.
  rewrite Hc'. f_equal. apply (anti_symm prefix); [|done]. by eapply grows_prefix.
Qed.

(** **** Prefetching takes these steps *)

Lemma DownloadFileTo_steps cache f : running <> prefetched -> fileContent f running = None ->
  rtc prefetch_step f (snd (DownloadFileTo Decompressors cache folder x running f)).
Proof.
  intros Hne Habs. unfold DownloadFileTo. destruct (CreateExcl f running) as [[e|] f1] eqn:Ec.
  { cbn [snd]. by rewrite (CreateExcl_failed _ _ _ _ Ec). }
  assert (prefetch_step f f1) as Hs1 by (apply ps_create; [done|by eapply CreateExcl_new|by eapply CreateExcl_other]).
  eapply rtc_l; [exact Hs1|]. pose proof (CreateExcl_new _ _ _ Ec) as Hnew. destruct (fst _) as [[bs readErr]|e] eqn:Ed.
  - destruct (WriteTo f1 running bs) as [writeErr f2] eqn:Ew. cbn [snd]. apply rtc_once. apply ps_running; [|by eapply WriteTo_other].
    destruct (WriteTo_some _ _ _ _ _ Ew) as (bs' & Hc & Hp). exists [], bs', cache, bs, readErr. split_and!; try done. apply prefix_nil.
  - cbn [snd]. apply rtc_once. unfold same. destruct (Remove_self f1 running) as [E|E]; [apply ps_else|apply ps_drop]; unfold same;
      try done; by apply Remove_other.
Qed.

Lemma finish_steps f : running <> prefetched ->
  rtc prefetch_step f (if exists_ (Stat f running) && negb (known (Stat f prefetched)) then snd (Rename f running prefetched) else Remove f running).
Proof.
  intros Hne. destruct (exists_ _ && _) eqn:E.
  - apply andb_true_iff in E as [_ E]. apply negb_true_iff in E. destruct (Rename f running prefetched) as [[e|] f1] eqn:Er; cbn [snd].
    + by rewrite (Rename_failed _ _ _ _ _ Er).
    + apply rtc_once. apply ps_publish; [by apply unknown_absent|by apply Rename_to|by eapply Rename_from].
  - apply rtc_once. destruct (Remove_self f running) as [E1|E1]; [apply ps_else|apply ps_drop]; unfold same; try done; by apply Remove_other.
Qed.
End Prefetching.

Lemma prefetchFile_other es y cache folder f r : directory es -> y = "" \/ simple y = true ->
  (let l := if bool_decide (y = "") then [] else [y] in r <> below es l /\ r <> below es ("running" :: l)) ->
  fileContent (prefetchFile Decompressors cache (absPath es) folder y f) r = fileContent f r.
Proof.
  intros Hes Hy [Hnew Hold]. unfold prefetchFile. rewrite (locations es y Hes Hy).
  destruct (_ || _); [done|]. destruct (DownloadFileTo _ _ _ y _ _) as [err f1] eqn:Ed.
  pose proof (DownloadFileTo_other _ _ _ _ _ _ _ _ Ed Hold) as Hf1. rewrite MkdirAll_same in Hf1.
  destruct (exists_ _ && _); [|by rewrite Remove_other].
  destruct (Rename f1 _ _) as [err' f2] eqn:Er. cbn [snd]. by rewrite (Rename_other _ _ _ _ _ r Er).
Qed.

Notation steps_of es x folder := (rtc (prefetch_step (below es ["running"; x]) (below es [x]) x folder)).

(** A prefetch of any file that runs by itself is such steps. *)
Lemma prefetchFile_steps es x y cache folder f : directory es -> simple x = true -> x <> "running" -> y = "" \/ simple y = true ->
  steps_of es x folder f (prefetchFile Decompressors cache (absPath es) folder y f).
Proof.
  intros Hes Hx Hrun Hy. assert (Forall (fun e => simple e = true) [x]) as Hx1 by by constructor.
  assert (Forall (fun e => simple e = true) ["running"; x]) as Hx2 by by repeat constructor.
  destruct (decide (y = x)) as [->|Hne].
  - assert (below es ["running"; x] <> below es [x]) as Hne by by intros E%below_inj.
    unfold prefetchFile. rewrite (locations es x Hes Hy), bool_decide_eq_false_2 by by intros ->.
    destruct (known (Stat f (below es ["running"; x]))) eqn:Ek; [done|]. destruct (known (Stat f (below es [x]))); [done|]. cbn [orb].
    etrans; [apply rtc_once, ps_else; apply MkdirAll_same|].
    pose proof (DownloadFileTo_steps _ _ x folder cache (MkdirAll f (below es ["running"])) Hne) as Hd.
    destruct (DownloadFileTo _ _ _ x _ _) as [err f1]. etrans; [apply Hd; rewrite MkdirAll_same; by apply unknown_absent|]. by apply finish_steps.
  - assert (Forall (fun e => simple e = true) (if bool_decide (y = "") then [] else [y])) as Hl.
    { case_bool_decide; [constructor|]. destruct Hy; [done|]. by constructor. }
    apply rtc_once, ps_else; apply prefetchFile_other; try done; cbv zeta; split; intros E; apply below_inj in E; try done; try by constructor.
    all: case_bool_decide; by simplify_eq.
Qed.

Lemma hex_simple s : s <> "" -> allIn isUpperHex s = true -> simple s = true.
Proof.
  intros Hne Hs. unfold simple. rewrite !andb_true_iff. repeat (rewrite bool_decide_eq_false_2 by (intros ->; done)).
  split_and!; try done. eapply allIn_impl; [|exact Hs]. intros c Hc. unfold notSlash. destruct (bool_decide (c = slash)) eqn:E; [|done].
  apply bool_decide_eq_true in E as ->. done.
Qed.

Lemma prefetchNames_simple n : forall x, Forall (fun y => y = "" \/ simple y = true) (prefetchNames n x).
Proof.
  induction n as [|n IH]; intros x; cbn [prefetchNames]; constructor; [|apply IH].
  unfold GetNextWalFilename. destruct (ParseWALFilename x) as [[tli seg]|]; [|by left]. right. cbn [mbind res_bind].
  unfold formatWALFileName. apply hex_simple; [|by rewrite !allIn_app, !andb_true_iff; split_and!; apply allIn_hexn].
  intros E. apply (f_equal slen) in E. rewrite !slen_app in E. unfold fmt08X in E. rewrite !slen_hexn in E. cbn in E. lia.
Qed.

Lemma HandleWALPrefetch_steps es loc x n first cache folder f : directory es -> simple loc = true -> simple x = true -> x <> "running" ->
  steps_of es x folder f (HandleWALPrefetch Decompressors n cache folder first (absPath (es ++ [loc])) f).
Proof.
  intros [Hne Hes] Hloc Hx Hrun. unfold HandleWALPrefetch. rewrite Dir_absPath by done.
  pose proof (prefetchNames_simple n first) as Hns. revert f. induction Hns as [|y ns Hy _ IH]; intros f; [done|].
  cbn [foldl]. etrans; [|apply IH]. by apply prefetchFile_steps.
Qed.

(** *** The loop *)

Section LoopLemmas.
Variables (running prefetched location x : string) (folder : Folder) (file : list byte).
Variable others : nat -> F -> F.
Hypothesis Hst : stored folder x file.
Hypothesis Hothers : forall t f, rtc (prefetch_step running prefetched x folder) f (others t f).
Notation fetchLoop := (fetchLoop running prefetched location others).
Notation partial := (partial running prefetched file).

Lemma others_partial t f : partial f -> partial (others t f).
Proof. by apply prefetch_steps_partial with (x := x) (folder := folder). Qed.

(** What the loop leaves with: a file that was prefetched whole. *)
Lemma fetchLoop_fetched fuel : Z.of_nat (length file) <= WalSegmentSize -> forall t seen stall f f', partial f ->
  fetchLoop fuel t seen stall f = Some (Fetched, f') -> fileContent f' location = Some file.
Proof.
  intros Hlen. induction fuel as [|fuel IH]; intros t seen stall f f' Hg E; cbn in E; [done|].
  pose proof (others_partial t _ Hg) as Hg1. pose proof (others_partial (S t) _ Hg1) as Hg2.
  destruct (Stat (others t f) prefetched) as [size| |e] eqn:Est; [| |done].
  - destruct (size =? WalSegmentSize) eqn:Es; cbn in E; [|done]. apply Z.eqb_eq in Es as ->.
    destruct (Stat_size _ _ _ Est) as (c & Hc & Hl).
    assert (c = file) as -> by (eapply prefix_full; [by eapply Hg1; [right|]|done|done]).
    apply (prefetch_steps_whole _ _ _ _ _ _ _ Hst (Hothers (S t) _)) in Hc.
    destruct (Rename _ prefetched location) as [[e|] f1] eqn:Er; [done|].
    destruct (checkWALFileMagic f1 location); [done|]. injection E as <-. by rewrite (Rename_to _ _ _ _ Er).
  - destruct (Stat _ running) as [observed| |e]; [|done|done].
    destruct (observed <=? seen); [|by eapply IH]. destruct (_ <=? _); [done|by eapply IH].
Qed.

(** The file that is waited for cannot grow forever, nor stand still. *)
Lemma fetchLoop_ends fuel : let size := Z.of_nat (length file) in forall t seen stall f, partial f ->
  -1 <= seen <= size -> 0 <= stall < maxSizeStallTerations ->
  maxSizeStallTerations * (size - seen) + (maxSizeStallTerations - stall) < Z.of_nat fuel ->
  exists o, fetchLoop fuel t seen stall f = Some o.
Proof.
  intros size. unfold maxSizeStallTerations. induction fuel as [|fuel IH]; intros t seen stall f Hg Hs Hstall Hf; [lia|]. cbn [WalFetch.fetchLoop].
  destruct (Stat (others t f) prefetched) as [n| |e]; [| |by eexists].
  - destruct (negb _); [by eexists|]. destruct (Rename _ _ _) as [[e|] f1]; [by eexists|].
    destruct (checkWALFileMagic _ _); by eexists.
  - pose proof (others_partial (S t) _ (others_partial t _ Hg)) as Hg'.
    destruct (Stat (others (S t) _) running) as [observed| |e] eqn:Er; [|by eexists|by eexists].
    destruct (Stat_size _ _ _ Er) as (c & Hc & Hl). apply Hg' in Hc as Hp; [|by left]. apply prefix_length in Hp.
    destruct (observed <=? seen) eqn:E.
    + unfold maxSizeStallTerations. destruct (100 <=? stall + 1) eqn:E1; [by eexists|]. apply IH; [done|done|lia|lia].
    + apply IH; [done|lia|lia|lia].
Qed.
End LoopLemmas.

(** *** The cleaner *)

Lemma cleanup_other directory tli seg f p : (forall name, simple name = true -> olderFile tli seg name = true -> Join directory name <> p) ->
  fileContent (cleanupPrefetchDirectory directory tli seg f) p = fileContent f p.
Proof.
  intros Hp. unfold cleanupPrefetchDirectory. destruct (GetFiles f directory) as [files|] eqn:E; [|done].
  pose proof (GetFiles_names _ _ _ E) as Hs. clear E. revert f. induction files as [|name files IH]; intros f; cbn [foldl]; [done|].
  inversion_clear Hs. rewrite IH by done. destruct (olderFile tli seg name) eqn:Eo; [|done].
  rewrite Remove_other; [done|]. intros ->. by eapply Hp.
Qed.

Lemma below_Join es l x : directory es -> Forall (fun e => simple e = true) l -> simple x = true ->
  Join (below es l) x = below es (l ++ [x]).
Proof.
  intros [Hne Hes] Hl Hx. unfold below. rewrite Join_absPath; [by rewrite <- !app_assoc|by destruct es| |done].
  apply Forall_app; split; [done|]. apply Forall_app; split; [repeat constructor; done|done].
Qed.

(** The target of a fetch is not below the prefetch directory. *)
Lemma location_above es l loc : directory es -> Forall (fun e => simple e = true) l -> simple loc = true ->
  absPath (es ++ [loc]) <> below es l.
Proof.
  intros [_ Hes] Hl Hloc E. unfold below in E. apply absPath_inj in E.
  - by apply app_inv_head in E.
  - apply Forall_app; split; [done|by constructor].
  - apply Forall_app; split; [done|repeat constructor; done].
Qed.

(** ** The claims *)

(** C17: when [wal-fetch] returns without an error its target has the bytes
    of the archived file, whether it downloaded them or took a file that a
    prefetch left, and it does return: it waits for a running download for a
    bounded number of looks. Between any two looks the others may take any
    number of the steps of any number of prefetching processes
    ([prefetch_step]: a download may be created, written to while it is waited
    for or after it was renamed, break off, be renamed while it is short, be
    removed; [prefetchFile_steps] and [HandleWALPrefetch_steps] show that the
    modelled code takes only these), and the two files of this name are at the
    start what such steps and earlier fetches have made of a directory with
    neither. This holds for a file that is no longer than a segment, whose
    archived copies under every extension of the decompressors, which are
    distinct, decompress to it or break off with an error, in a directory and
    for names whose components are plain, the name not being [running]. Two
    races are not covered: another [wal-fetch] of the same file at the same
    time, and something done between the last look of a prefetch and its
    renaming, which are one step ([late_rename_loses] is what happens). *)
Theorem wal_fetch_restores es loc x file fuel cache (folder : Folder) others f :
  directory es -> simple loc = true -> simple x = true ->
  stored folder x file -> Z.of_nat (length file) <= WalSegmentSize ->
  prefetched_from_nothing (below es ["running"; x]) (below es [x]) x folder f -> (forall t f, steps_of es x folder f (others t f)) ->
  maxSizeStallTerations * (Z.of_nat (length file) + 2) < Z.of_nat fuel ->
  exists err f', HandleWALFetch Decompressors others fuel cache folder x (absPath (es ++ [loc])) f = Some (err, f') /\
    (err = None -> fileContent f' (absPath (es ++ [loc])) = Some file).
Proof.
  intros Hes Hloc Hx Hst Hlen Hf Ho Hfuel. pose proof Hes as [Hne Hes']. unfold HandleWALFetch. rewrite Dir_absPath by done.
  assert (x <> "") as Hxne by by intros ->. pose proof (from_nothing_partial _ _ _ _ _ _ Hst Hf) as Hp.
  rewrite (locations es x Hes (or_intror Hx)). rewrite bool_decide_eq_false_2 by done. set (location := absPath (es ++ [loc])).
  destruct (fetchLoop_ends (below es ["running"; x]) (below es [x]) location x folder file others Hst Ho fuel 0 (-1) 0 f Hp) as [[outcome f1] E];
    [lia|unfold maxSizeStallTerations; lia|unfold maxSizeStallTerations in *; lia|].
  rewrite E. cbn [mbind option_bind]. destruct outcome as [|err|cleanup].
  - exists None, f1. split; [done|]. intros _. by eapply fetchLoop_fetched.
  - by exists (Some err), f1.
  - destruct (DownloadFileTo _ _ _ x location f1) as [[err|] f2] eqn:Ed; [by exists (Some err), f2|].
    eexists None, _. split; [reflexivity|]. intros _. pose proof (DownloadFileTo_ok _ _ _ _ _ _ _ Hst Ed) as Hc.
    destruct cleanup; [|done]. rewrite !Remove_other; [done| |]; (apply location_above; [done|repeat constructor; done|done]).
Qed.

(** Cleaning the prefetch directories after a WAL file leaves the
    prefetched and the running files of every name that is not a WAL file
    before it. *)
Theorem cleanup_keeps es walFileName tli seg y f : directory es -> simple walFileName = true -> simple y = true -> y <> "running" ->
  ParseWALFilename walFileName = Ok (tli, seg) -> olderFile tli seg y = false ->
  let f' := CleanupPrefetchDirectories walFileName (absPath es) f in
  fileContent f' (below es [y]) = fileContent f (below es [y]) /\
  fileContent f' (below es ["running"; y]) = fileContent f (below es ["running"; y]).
Proof.
  intros Hes Hw Hy Hrun Hp Hold. cbv zeta. unfold CleanupPrefetchDirectories. rewrite Hp, (locations es walFileName Hes (or_intror Hw)). cbn [foldl].
  assert (forall l name, Forall (fun e => simple e = true) l -> simple name = true -> olderFile tli seg name = true ->
    Join (below es l) name <> below es [y] /\ Join (below es l) name <> below es ["running"; y]) as Hj.
  { intros l name Hl Hn Ho. rewrite below_Join by done.
    assert (Forall (fun e => simple e = true) (l ++ [name])) as Hln by (apply Forall_app; split; [done|by constructor]).
    split; intros E; apply below_inj in E; try done; try (repeat constructor; done).
    - destruct l as [|e [|]]; try done. injection E as ->. congruence.
    - destruct l as [|e [|e' l]]; [done|injection E as -> ->; congruence|]. injection E as _ _ E. by destruct l. }
  split; rewrite !cleanup_other; try done; intros name Hn Ho; apply Hj; try done; repeat constructor; done.
Qed.
End FetchLemmas.

Lemma lor_byte a t : 0 <= a < 2 ^ 8 -> 0 <= t -> Z.lor a (Z.shiftl t 8) = a + 256 * t.
Proof.
  intros Ha Ht. pose proof (Z.add_lor_land a (Z.shiftl t 8)) as E.
  assert (Z.land a (Z.shiftl t 8) = 0) as E0; [|rewrite E0, Z.add_0_r in E; rewrite E, Z.shiftl_mul_pow2 by lia; lia].
  apply Z.bits_inj'. intros n Hn. rewrite Z.land_spec, Z.shiftl_spec, Z.bits_0 by done.
  destruct (Z.lt_ge_cases n 8); [by rewrite (Z.testbit_neg_r t) by lia; rewrite andb_false_r|].
  rewrite <- (Z.mod_small a (2 ^ 8)) by done. by rewrite Z.mod_pow2_bits_high by lia.
Qed.

(** The magic number is read with the flags of the page after it, so a file
    whose flags are not all zero passes with any magic. *)
Lemma magic_with_flags {F} `{LocalFiles F} (f : F) p b0 b1 b2 b3 rest :
  fileContent f p = Some (b0 :: b1 :: b2 :: b3 :: rest) -> b2 <> Byte.x00 \/ b3 <> Byte.x00 -> checkWALFileMagic f p = None.
Proof.
  intros E Hb. unfold checkWALFileMagic. rewrite E. cbn [take app]. unfold LittleEndianList.le_combine.
  pose proof (coqutil.Byte.byte.unsigned_range b0). pose proof (coqutil.Byte.byte.unsigned_range b1).
  pose proof (coqutil.Byte.byte.unsigned_range b2). pose proof (coqutil.Byte.byte.unsigned_range b3).
  assert (b2z b2 <> 0 \/ b2z b3 <> 0).
  { destruct Hb as [Hb|Hb]; [left|right]; intros E0; apply Hb, coqutil.Byte.byte.unsigned_inj; done. }
  set (t := (fix le_combine (l : list byte) : Z := match l with [] => 0 | _ => _ end) (take 0 _)). replace t with 0 by done. clear t.
  rewrite (lor_byte (b2z b3)), (lor_byte (b2z b2)), (lor_byte (b2z b1)), (lor_byte (b2z b0)) by lia. rewrite (proj2 (Z.ltb_ge _ _)); [done|lia].
Qed.

(** ** Examples *)

Module LocalMem.
#[global] Instance mapFiles : LocalFiles (gmap string (list byte)) := {
  fileContent f p := f !! p;
  Stat f p := match f !! p with Some c => StatSize (Z.of_nat (length c)) | None => StatNotExist end;
  Rename f p q := match f !! p with Some c => (None, <[q := c]> (delete p f)) | None => (Some (External "no such file"), f) end;
  Remove f p := delete p f;
  CreateExcl f p := match f !! p with Some _ => (Some (External "file exists"), f) | None => (None, <[p := []]> f) end;
  WriteTo f p bs := (None, <[p := bs]> f);
  MkdirAll f _ := f;
  GetFiles f p := Ok (filter (fun e => simple e = true)
    (omap (fun q => if HasPrefix q (p +s "/") then Some (sdrop (slen p + 1) q) else None) (elements (dom f))))
}.

#[global] Program Instance mapFilesLaws : LocalFilesLaws (gmap string (list byte)).
Next Obligation. intros f p n. cbn. destruct (f !! p) as [c|]; [|done]. intros [= <-]. by exists c. Qed.
Next Obligation. intros f p. cbn. by destruct (f !! p). Qed.
Next Obligation. intros f p q f'. cbn. destruct (f !! p) as [c|]; [|done]. intros [= <-]. by rewrite lookup_insert_eq. Qed.
Next Obligation. intros f p q f'. cbn. destruct (f !! p) as [c|]; [|done]. intros [= <-] Hne. rewrite lookup_insert_ne by done. apply lookup_delete_eq. Qed.
Next Obligation. intros f p q err f'. cbn. destruct (f !! p) as [c|]; [done|]. by intros [= _ <-]. Qed.
Next Obligation.
  intros f p q err f' r. cbn. destruct (f !! p) as [c|]; intros [= _ <-] Hq Hp; [|done].
  by rewrite lookup_insert_ne, lookup_delete_ne.
Qed.
Next Obligation. intros f p r Hr. cbn. by rewrite lookup_delete_ne. Qed.
Next Obligation. intros f p. cbn. right. apply lookup_delete_eq. Qed.
Next Obligation. intros f p err f'. cbn. destruct (f !! p); [|done]. by intros [= _ <-]. Qed.
Next Obligation. intros f p f'. cbn. destruct (f !! p); [done|]. intros [= <-]. by rewrite lookup_insert_eq. Qed.
Next Obligation. intros f p err f' r. cbn. destruct (f !! p); intros [= _ <-] Hr; [done|]. by rewrite lookup_insert_ne. Qed.
Next Obligation. intros f p bs f'. cbn. intros [= <-]. by rewrite lookup_insert_eq. Qed.
Next Obligation. intros f p bs err f'. cbn. intros [= _ <-]. exists bs. by rewrite lookup_insert_eq. Qed.
Next Obligation. intros f p bs err f' r. cbn. intros [= _ <-] Hr. by rewrite lookup_insert_ne. Qed.
Next Obligation. done. Qed.
Next Obligation.
  intros f p files. cbn. intros [= <-]. apply Forall_forall. by intros e [? _]%list_elem_of_filter.
Qed.
End LocalMem.

(** A download of the file has been begun and stands still. *)
Module FetchMem.
#[global] Instance gmapFolder : StorageFolder (gmap string (list byte)) := fun f name =>
  match f !! name with Some content => Ok content | None => Err (ObjectNotFoundError name) end.

Definition lz4 : Decompressor := mkDecompressor "lz4" (fun c => (tail c, None)).
Definition wal1 : string := "000000010000000000000001".
Definition file : list byte := [Byte.x01; Byte.x02; Byte.x03].
Definition stored0 : gmap string (list byte) := {[ wal1 +s ".lz4" := Byte.x07 :: file ]}.
Definition running : string := "/data/pg_wal/.wal-g/prefetch/running/" +s wal1.
Definition files0 : gmap string (list byte) := {[ running := [Byte.x01] ]}.
Definition others (t : nat) (f : gmap string (list byte)) : gmap string (list byte) := f.

(** Cleaned after the second file. *)
Definition wal2 : string := "000000010000000000000002".
Definition wal3 : string := "000000010000000000000003".
Definition prefetchDir : string := "/data/pg_wal/.wal-g/prefetch".
Definition files1 : gmap string (list byte) :=
  {[ prefetchDir +s "/" +s wal1 := file; prefetchDir +s "/" +s wal3 := file; prefetchDir +s "/running/" +s wal3 := [] ]}.

(** Segments of four bytes; a download that has been begun is finished and
    then published while it is waited for. *)
Definition short : WalConfig := mkWalConfig 4 (2 ^ 30).
Definition segment : list byte := [Byte.x61; Byte.xd0; Byte.x00; Byte.x00].
Definition stored2 : gmap string (list byte) := {[ wal1 +s ".lz4" := Byte.x07 :: segment ]}.
Definition files2 : gmap string (list byte) := {[ running := [Byte.x61] ]}.
Definition prefetched : string := "/data/pg_wal/.wal-g/prefetch/" +s wal1.

Definition finish (f : gmap string (list byte)) : gmap string (list byte) :=
  match f !! running with
  | Some c => if decide (c `prefix_of` segment) then <[running := segment]> f else f
  | None => f
  end.

Definition publish (f : gmap string (list byte)) : gmap string (list byte) :=
  match f !! prefetched, f !! running with
  | None, Some c => <[prefetched := c]> (delete running f)
  | _, _ => f
  end.

Definition others2 (t : nat) (f : gmap string (list byte)) : gmap string (list byte) :=
  match t with 2%nat => finish f | 4%nat => publish f | _ => f end.

(** What a prefetch that has looked before another one published, and renames
    after that, does with a download of its own. *)
Definition publish_late (f : gmap string (list byte)) : gmap string (list byte) :=
  <[prefetched := [Byte.x61; Byte.xd0]]> f.
End FetchMem.

Lemma others2_steps t f : rtc (prefetch_step [FetchMem.lz4] FetchMem.running FetchMem.prefetched FetchMem.wal1 FetchMem.stored2) f (FetchMem.others2 t f).
Proof.
  destruct t as [|[|[|[|[|t]]]]]; cbn [FetchMem.others2]; try reflexivity.
  - unfold FetchMem.finish. destruct (f !! FetchMem.running) as [c|] eqn:Er; [|reflexivity]. destruct (decide _) as [Hp|]; [|reflexivity].
    apply rtc_once, ps_running; [|by unfold same; cbn; rewrite lookup_insert_ne].
    exists c, FetchMem.segment, None, FetchMem.segment, None. split_and!; try done. cbn. by rewrite lookup_insert_eq.
  - unfold FetchMem.publish. destruct (f !! FetchMem.prefetched) eqn:Ep; [reflexivity|]. destruct (f !! FetchMem.running) as [c|] eqn:Er; [|reflexivity].
    apply rtc_once, ps_publish; [done| |].
    + etrans; [apply lookup_insert_eq|by symmetry].
    + cbn. rewrite lookup_insert_ne by done. apply lookup_delete_eq.
Qed.

Lemma files2_from_nothing :
  prefetched_from_nothing [FetchMem.lz4] FetchMem.running FetchMem.prefetched FetchMem.wal1 FetchMem.stored2 FetchMem.files2.
Proof.
  exists ∅. split_and!; [done|done|]. apply rtc_l with {[ FetchMem.running := [] ]}; [left; by apply ps_create|]. apply rtc_once. left.
  apply ps_running; [|done]. exists [], [Byte.x61], None, FetchMem.segment, None. split_and!; try done; by eexists.
Qed.

Lemma files0_from_nothing :
  prefetched_from_nothing [FetchMem.lz4] FetchMem.running FetchMem.prefetched FetchMem.wal1 FetchMem.stored0 FetchMem.files0.
Proof.
  exists ∅. split_and!; [done|done|]. apply rtc_l with {[ FetchMem.running := [] ]}; [left; by apply ps_create|]. apply rtc_once. left.
  apply ps_running; [|done]. exists [], [Byte.x01], None, FetchMem.file, None. split_and!; try done; by eexists.
Qed.

(** A prefetch that stands still, after which the file is downloaded, and one
    that is waited for and taken. *)
Lemma wal_fetch_restores_witness :
  (exists f', HandleWALFetch (wcfg := DefaultWalConfig) [FetchMem.lz4] FetchMem.others 501 None FetchMem.stored0 FetchMem.wal1
     "/data/pg_wal/RECOVERYXLOG" FetchMem.files0 = Some (None, f') /\
   fileContent f' "/data/pg_wal/RECOVERYXLOG" = Some FetchMem.file) /\
  (exists f', HandleWALFetch (wcfg := FetchMem.short) [FetchMem.lz4] FetchMem.others2 601 None FetchMem.stored2 FetchMem.wal1
     "/data/pg_wal/RECOVERYXLOG" FetchMem.files2 = Some (None, f') /\
   fileContent f' "/data/pg_wal/RECOVERYXLOG" = Some FetchMem.segment).
Proof.
  split.
  - destruct (wal_fetch_restores (wcfg := DefaultWalConfig) [FetchMem.lz4] (NoDup_singleton _) ["data"; "pg_wal"] "RECOVERYXLOG" FetchMem.wal1
      FetchMem.file 501 None FetchMem.stored0 FetchMem.others FetchMem.files0) as (err & f' & E & Hf);
      [split; [discriminate|repeat constructor]|reflexivity|reflexivity| |vm_compute; discriminate|exact files0_from_nothing|intros t f; reflexivity|vm_compute; reflexivity|].
    + intros d content ->%list_elem_of_singleton Hr. vm_compute in Hr. injection Hr as <-. split; reflexivity.
    + exists f'. assert (err = None) as ->.
      { apply (f_equal (fun o => fst <$> o)) in E. vm_compute in E. by injection E. }
      split; [exact E|exact (Hf eq_refl)].
  - destruct (wal_fetch_restores (wcfg := FetchMem.short) [FetchMem.lz4] (NoDup_singleton _) ["data"; "pg_wal"] "RECOVERYXLOG" FetchMem.wal1
      FetchMem.segment 601 None FetchMem.stored2 FetchMem.others2 FetchMem.files2) as (err & f' & E & Hf);
      [split; [discriminate|repeat constructor]|reflexivity|reflexivity| |vm_compute; discriminate|exact files2_from_nothing|exact others2_steps|vm_compute; reflexivity|].
    + intros d content ->%list_elem_of_singleton Hr. vm_compute in Hr. injection Hr as <-. split; reflexivity.
    + exists f'. assert (err = None) as ->.
      { apply (f_equal (fun o => fst <$> o)) in E. vm_compute in E. by injection E. }
      split; [exact E|exact (Hf eq_refl)].
Defined.

(** The two looks and the renaming of [prefetchFile] are no single step: when
    another prefetch renames a short download over the complete one after
    [wal-fetch] has looked at it, [wal-fetch] takes the short one without an
    error. *)
Example late_rename_loses :
  (fun o => (fst <$> o, o ≫= fun o => fileContent (snd o) "/data/pg_wal/RECOVERYXLOG")) (HandleWALFetch (wcfg := FetchMem.short) [FetchMem.lz4]
    (fun t f => match t with 5%nat => FetchMem.publish_late f | _ => FetchMem.others2 t f end) 601 None FetchMem.stored2 FetchMem.wal1
    "/data/pg_wal/RECOVERYXLOG" FetchMem.files2) = (Some None, Some [Byte.x61; Byte.xd0]).
Proof. vm_compute. reflexivity. Qed.

Lemma cleanup_keeps_witness :
  let f' := CleanupPrefetchDirectories (wcfg := DefaultWalConfig) FetchMem.wal2 "/data/pg_wal" FetchMem.files1 in
  fileContent f' (FetchMem.prefetchDir +s "/" +s FetchMem.wal1) = None /\
  fileContent f' (FetchMem.prefetchDir +s "/" +s FetchMem.wal3) = Some FetchMem.file /\
  fileContent f' (FetchMem.prefetchDir +s "/running/" +s FetchMem.wal3) = Some [].
Proof.
  split; [vm_compute; reflexivity|].
  destruct (cleanup_keeps (wcfg := DefaultWalConfig) ["data"; "pg_wal"] FetchMem.wal2 1 2 FetchMem.wal3 FetchMem.files1) as [E1 E2].
  - split; [discriminate|]. repeat constructor.
  - reflexivity.
  - reflexivity.
  - discriminate.
  - vm_compute. reflexivity.
  - vm_compute. reflexivity.
  - change (absPath ["data"; "pg_wal"]) with "/data/pg_wal" in E1, E2.
    split; [exact (eq_trans E1 eq_refl)|exact (eq_trans E2 eq_refl)].
Defined.
