(* ===== verification/GoDecimal.v ===== *)
(** * Decimal numbers

    [fmt]'s [%d] of unsigned numbers and the numbers [strconv] reads. *)

From stdpp Require Import strings pretty.
From S2P Require Import Prelude GoStrings.
Open Scope Z_scope.

(** [%d] of a number that is not negative. *)
Definition fmtDec (z : Z) : string := pretty (Z.to_N z).

Definition isDigit (c : Ascii.ascii) : bool := match digitValue c with Some d => d <? 10 | None => false end.

Lemma pretty_N_char_digit x : (x < 10)%N -> digitValue (pretty_N_char x) = Some (Z.of_N x).
Proof.
  intros Hx. assert (x = 0 \/ x = 1 \/ x = 2 \/ x = 3 \/ x = 4 \/ x = 5 \/ x = 6 \/ x = 7 \/ x = 8 \/ x = 9)%N as Hc by lia.
  repeat destruct Hc as [->|Hc]; try reflexivity. by subst.
Qed.

Lemma parse_pretty_go maxVal x : Z.of_N x <= maxVal -> forall s,
  parseUintLoop 10 maxVal (pretty_N_go x s) 0 = parseUintLoop 10 maxVal s (Z.of_N x).
Proof.
  induction (N.lt_wf_0 x) as [x _ IH]. intros Hm s. destruct (decide (0 < x)%N) as [Hx|Hx].
  - rewrite pretty_N_go_step by done. rewrite IH; [|by apply N.div_lt|].
    + cbn [parseUintLoop]. rewrite pretty_N_char_digit by (apply N.mod_lt; lia).
      rewrite (proj2 (Z.leb_gt _ _)) by (pose proof (N.mod_lt x 10 ltac:(lia)); lia). cbv zeta.
      assert (Z.of_N (x / 10) * 10 + Z.of_N (x mod 10) = Z.of_N x) as -> by (pose proof (N.div_mod x 10 ltac:(lia)); lia).
      by rewrite (proj2 (Z.ltb_ge _ _)).
    + assert (x / 10 <= x)%N by (apply N.div_le_upper_bound; lia). lia.
  - assert (x = 0)%N as -> by lia. by rewrite pretty_N_go_0.
Qed.

Lemma digits_go x s : allIn isDigit s = true -> allIn isDigit (pretty_N_go x s) = true.
Proof.
  revert s. induction (N.lt_wf_0 x) as [x _ IH]. intros s Hs. destruct (decide (0 < x)%N) as [Hx|Hx].
  - rewrite pretty_N_go_step by done. apply IH; [by apply N.div_lt|]. cbn [allIn]. rewrite Hs, andb_true_r.
    unfold isDigit. rewrite pretty_N_char_digit by (apply N.mod_lt; lia). apply Z.ltb_lt. pose proof (N.mod_lt x 10 ltac:(lia)). lia.
  - assert (x = 0)%N as -> by lia. by rewrite pretty_N_go_0.
Qed.

Lemma fmtDec_digits z : allIn isDigit (fmtDec z) = true.
Proof. unfold fmtDec, pretty, pretty_N. case_decide; [done|by apply digits_go]. Qed.

Lemma pretty_go_nonempty x s : s <> "" -> pretty_N_go x s <> "".
Proof.
  revert s. induction (N.lt_wf_0 x) as [x _ IH]. intros s Hs. destruct (decide (0 < x)%N) as [Hx|Hx].
  - rewrite pretty_N_go_step by done. apply IH; [by apply N.div_lt|done].
  - assert (x = 0)%N as -> by lia. by rewrite pretty_N_go_0.
Qed.

Lemma fmtDec_nonempty z : fmtDec z <> "".
Proof.
  unfold fmtDec, pretty, pretty_N. case_decide; [done|].
  rewrite pretty_N_go_step by lia. by apply pretty_go_nonempty.
Qed.

Lemma ParseUint_fmtDec w z : 0 < w -> in_width w z -> ParseUint (fmtDec z) 10 w = Ok z.
Proof.
  unfold in_width. intros Hw Hz. unfold ParseUint. pose proof (fmtDec_nonempty z) as Hne. destruct (fmtDec z) as [|c s] eqn:E; [done|].
  rewrite <- E. unfold fmtDec, pretty, pretty_N. case_decide as Ez.
  - assert (z = 0) as -> by lia. cbn. change (digitValue _) with (Some 0). cbv iota beta. cbn -[Z.pow Z.sub Z.ltb]. by rewrite (proj2 (Z.ltb_ge _ _)) by lia.
  - rewrite parse_pretty_go by lia. cbn. f_equal. lia.
Qed.

Lemma fmtDec_inj a b : 0 <= a -> 0 <= b -> fmtDec a = fmtDec b -> a = b.
Proof. unfold fmtDec. intros Ha Hb E%(inj _). lia. Qed.
