(* ===== verification/MongoModels.v ===== *)
(** * MongoDB: timestamps, archives and backups

    [src/internal/databases/mongo/models]: the timestamps of oplog records, the
    names under which archives of them are stored, and how an archive and a
    backup overlap. *)

From stdpp Require Import gmap strings pretty.
From S2P Require Import Prelude GoStrings.
From S2P Require Import GoDecimal.
Open Scope Z_scope.

(** ** [oplog.go] *)

Record Timestamp := mkTimestamp { TS : Z; Inc : Z }.

#[export] Instance Timestamp_eq_dec : EqDecision Timestamp.
Proof. solve_decision. Defined.

#[export] Program Instance Timestamp_countable : Countable Timestamp :=
  inj_countable' (fun t => (TS t, Inc t)) (fun p => mkTimestamp p.1 p.2) _.
Next Obligation. by intros []. Qed.

Definition zeroTS : Timestamp := mkTimestamp 0 0.

(** [Timestamp.String] *)
Definition String_ (ots : Timestamp) : string := fmtDec (TS ots) +s "." +s fmtDec (Inc ots).

Inductive modelError :=
| ErrTimestampParts (s : string)
| ErrTimestampNumber (e : NumError)
| ErrArchiveOrder (start end_ : Timestamp)
| ErrArchiveType (atype : string)
| ErrArchivePath (path : string).

(** [strings.Split] at a dot. *)
Fixpoint splitDots (s : string) : list string :=
  match s with
  | "" => [""]
  | String c s =>
      if bool_decide (c = Ascii.ascii_of_nat 46) then "" :: splitDots s
      else match splitDots s with [] => [String c ""] | x :: l => String c x :: l end
  end.

Definition TimestampFromStr (s : string) : res modelError Timestamp :=
  match splitDots s with
  | [s0; s1] =>
      match ParseUint s0 10 32 with
      | Err err => Err (ErrTimestampNumber err)
      | Ok ts =>
          match ParseUint s1 10 32 with
          | Err err => Err (ErrTimestampNumber err)
          | Ok inc => Ok (mkTimestamp (u32 ts) (u32 inc))
          end
      end
  | _ => Err (ErrTimestampParts s)
  end.

Definition LessTS (ots1 ots2 : Timestamp) : bool :=
  if TS ots1 <? TS ots2 then true
  else if TS ots2 <? TS ots1 then false
  else Inc ots1 <? Inc ots2.

Definition MaxTS (ots1 ots2 : Timestamp) : Timestamp := if LessTS ots1 ots2 then ots2 else ots1.

(** [Oplog]: a record with its raw bytes. *)
Record Oplog := mkOplog { opTS : Timestamp; opData : list byte }.

(** ** [archive.go] *)

Definition ArchiveTypeOplog : string := "oplog".
Definition ArchiveTypeGap : string := "gap".

Record Archive := mkArchive { Start : Timestamp; End_ : Timestamp; Ext_ : string; Type_ : string }.

#[export] Instance Archive_eq_dec : EqDecision Archive.
Proof. solve_decision. Defined.

Definition NewArchive (start end_ : Timestamp) (ext atype : string) : res modelError Archive :=
  if LessTS end_ start then Err (ErrArchiveOrder start end_)
  else if negb (bool_decide (atype = ArchiveTypeOplog)) && negb (bool_decide (atype = ArchiveTypeGap)) then Err (ErrArchiveType atype)
  else Ok (mkArchive start end_ ext atype).

(** [Archive.In]: the start is not in the archive, the end is. *)
Definition In_ (a : Archive) (ts : Timestamp) : bool :=
  (LessTS (Start a) ts && LessTS ts (End_ a)) || bool_decide (End_ a = ts).

Definition Filename (a : Archive) : string :=
  Type_ a +s "_" +s String_ (Start a) +s "_" +s String_ (End_ a) +s "." +s Ext_ a.

(** The digits at the front, and the rest. *)
Fixpoint spanDigits (s : string) : string * string :=
  match s with
  | "" => ("", "")
  | String c s' => if isDigit c then let '(d, r) := spanDigits s' in (String c d, r) else ("", s)
  end.

(** What follows [p]. *)
Definition cutPrefix (p s : string) : option string := if HasPrefix s p then Some (sdrop (slen p) s) else None.

(** [[0-9]+\.[0-9]+] at the front: every match of it takes all digits. *)
Definition matchTS (s : string) : option (string * string) :=
  let '(d1, s) := spanDigits s in
  s ← cutPrefix "." s;
  let '(d2, s) := spanDigits s in
  if bool_decide (d1 = "") || bool_decide (d2 = "") then None else Some (d1 +s "." +s d2, s).

Definition notDollar (c : Ascii.ascii) : bool := negb (bool_decide (c = Ascii.ascii_of_nat 36)).

(** [ArchRegexp]: the type, the two timestamps and the extension. *)
Definition ArchRegexp (path : string) : option (string * string * string * string) :=
  '(atype, s) ← match cutPrefix "oplog_" path with
                | Some s => Some (ArchiveTypeOplog, s)
                | None => s ← cutPrefix "gap_" path; Some (ArchiveTypeGap, s)
                end;
  '(startTS, s) ← matchTS s;
  s ← cutPrefix "_" s;
  '(endTS, s) ← matchTS s;
  ext ← cutPrefix "." s;
  if bool_decide (ext = "") || negb (allIn notDollar ext) then None else Some (atype, startTS, endTS, ext).

Definition ArchFromFilename (path : string) : res modelError Archive :=
  match ArchRegexp path with
  | None => Err (ErrArchivePath path)
  | Some (archiveType, start, end_, ext) =>
      match TimestampFromStr start, TimestampFromStr end_ with
      | Ok startTS, Ok endTS => NewArchive startTS endTS ext archiveType
      | _, _ => Err (ErrArchivePath path)
      end
  end.

(** ** [backup.go] *)

Record NodeMeta := mkNodeMeta { LastTS : Timestamp; LastMajTS : Timestamp }.
Record MongoMeta := mkMongoMeta { Before : NodeMeta; After : NodeMeta }.

#[export] Instance NodeMeta_eq_dec : EqDecision NodeMeta.
Proof. solve_decision. Defined.
#[export] Instance MongoMeta_eq_dec : EqDecision MongoMeta.
Proof. solve_decision. Defined.

Definition zeroNode : NodeMeta := mkNodeMeta zeroTS zeroTS.
Definition zeroMeta : MongoMeta := mkMongoMeta zeroNode zeroNode.

(** The zero time: nanoseconds from 1970 to the first year. *)
Definition zeroTime : Z := -62135596800 * 10 ^ 9.

Section Backups.
Context {U : Type} `{EqDecision U}.

(** [Backup]; [None] is a nil [UserData]. *)
Record Backup := mkBackup {
  BackupName : string;
  StartLocalTime : Z;
  FinishLocalTime : Z;
  UserData : option U;
  MongoMeta_ : MongoMeta;
  Permanent : bool;
  DataSize : Z
}.

#[export] Instance Backup_eq_dec : EqDecision Backup.
Proof. solve_decision. Defined.

Definition emptyBackup : Backup := mkBackup "" zeroTime zeroTime None zeroMeta false 0.

Definition TimestampInInterval (ts begin end_ : Timestamp) : bool :=
  (LessTS begin ts && LessTS ts end_) || bool_decide (ts = begin) || bool_decide (ts = end_).

Definition ArchInBackup (arch : Archive) (backup : Backup) : bool :=
  let backupStart := LastMajTS (Before (MongoMeta_ backup)) in
  let backupEnd := LastMajTS (After (MongoMeta_ backup)) in
  TimestampInInterval (Start arch) backupStart backupEnd ||
  TimestampInInterval (End_ arch) backupStart backupEnd ||
  TimestampInInterval backupStart (Start arch) (End_ arch) ||
  TimestampInInterval backupEnd (Start arch) (End_ arch).

Fixpoint FirstOverlappingBackupForArch (arch : Archive) (backups : list Backup) : Backup :=
  match backups with
  | [] => emptyBackup
  | backup :: backups => if ArchInBackup arch backup then backup else FirstOverlappingBackupForArch arch backups
  end.
End Backups.
Arguments Backup : clear implicits.

(** ** Lemmas: order *)

Definition tsOk (t : Timestamp) : Prop := in_width 32 (TS t) /\ in_width 32 (Inc t).

(** A timestamp as one number. *)
Definition tsKey (t : Timestamp) : Z := TS t * 2 ^ 32 + Inc t.

Lemma LessTS_key a b : tsOk a -> tsOk b -> LessTS a b = (tsKey a <? tsKey b).
Proof.
  unfold tsOk, in_width, LessTS, tsKey. intros [? ?] [? ?].
  destruct (TS a <? TS b) eqn:E1; [symmetry; apply Z.ltb_lt; lia|].
  destruct (TS b <? TS a) eqn:E2; [symmetry; apply Z.ltb_ge; lia|].
  assert (TS a = TS b) as -> by lia. destruct (Inc a <? Inc b) eqn:E3; symmetry; [apply Z.ltb_lt|apply Z.ltb_ge]; lia.
Qed.

Lemma tsKey_inj a b : tsOk a -> tsOk b -> tsKey a = tsKey b -> a = b.
Proof.
  destruct a as [a1 a2], b as [b1 b2]. unfold tsOk, in_width, tsKey. cbn [TS Inc]. intros [? ?] [? ?] E.
  assert (a1 = b1) as -> by lia. assert (a2 = b2) as -> by lia. done.
Qed.

Lemma LessTS_irrefl a : LessTS a a = false.
Proof. unfold LessTS. by rewrite !Z.ltb_irrefl. Qed.

Lemma LessTS_spec a b : LessTS a b = true <-> TS a < TS b \/ (TS a = TS b /\ Inc a < Inc b).
Proof. unfold LessTS. destruct (Z.ltb_spec (TS a) (TS b)), (Z.ltb_spec (TS b) (TS a)); rewrite ?Z.ltb_lt; (split; [intros|intros [?|?]]); try done; lia. Qed.

Lemma LessTS_total a b : LessTS a b = true \/ a = b \/ LessTS b a = true.
Proof.
  rewrite !LessTS_spec. destruct a as [a1 a2], b as [b1 b2]. cbn.
  destruct (Z.lt_trichotomy a1 b1) as [?|[->|?]]; [lia| |lia].
  destruct (Z.lt_trichotomy a2 b2) as [?|[->|?]]; [lia|auto|lia].
Qed.

Lemma LessTS_trans a b c : LessTS a b = true -> LessTS b c = true -> LessTS a c = true.
Proof. rewrite !LessTS_spec. lia. Qed.

Lemma LessTS_asym a b : LessTS a b = true -> LessTS b a = false.
Proof. intros Hab. destruct (LessTS b a) eqn:E; [|done]. by rewrite <- (LessTS_irrefl a), (LessTS_trans a b a). Qed.

(** ** Lemmas: names *)

(** What the digits of a number are followed by. *)
Definition stops (s : string) : Prop := match s with "" => True | String c _ => isDigit c = false end.

Lemma spanDigits_stops d s : allIn isDigit d = true -> stops s -> spanDigits (d +s s) = (d, s).
Proof.
  intros Hd Hs. induction d as [|c d IH]; cbn [allIn] in Hd.
  - destruct s as [|c s]; [done|]. cbn in *. by rewrite Hs.
  - apply andb_true_iff in Hd as [Hc Hd]. change (String c d +s s) with (String c (d +s s)). cbn [spanDigits]. by rewrite Hc, IH.
Qed.

Lemma cutPrefix_app p s : cutPrefix p (p +s s) = Some s.
Proof. unfold cutPrefix. by rewrite HasPrefix_app, sdrop_app. Qed.

Lemma splitDots_digits d s : allIn isDigit d = true -> splitDots (d +s "." +s s) = d :: splitDots s.
Proof.
  intros Hd. induction d as [|c d IH]; [done|]. cbn [allIn] in Hd. apply andb_true_iff in Hd as [Hc Hd].
  change (String c d +s "." +s s) with (String c (d +s "." +s s)). cbn [splitDots]. rewrite bool_decide_eq_false_2 by (intros ->; done).
  by rewrite IH.
Qed.

Lemma splitDots_end d : allIn isDigit d = true -> splitDots d = [d].
Proof.
  intros Hd. induction d as [|c d IH]; [done|]. cbn [allIn] in Hd. apply andb_true_iff in Hd as [Hc Hd]. cbn [splitDots].
  rewrite bool_decide_eq_false_2 by (intros ->; done). by rewrite IH.
Qed.

Lemma TimestampFromStr_String t : tsOk t -> TimestampFromStr (String_ t) = Ok t.
Proof.
  intros [H1 H2]. unfold TimestampFromStr, String_.
  rewrite splitDots_digits, splitDots_end by apply fmtDec_digits. rewrite !ParseUint_fmtDec by (done || lia).
  rewrite !wrap_id by done. by destruct t.
Qed.

Lemma matchTS_String t s : stops s -> matchTS (String_ t +s s) = Some (String_ t, s).
Proof.
  intros Hs. unfold matchTS, String_. rewrite !app_assoc_s. rewrite spanDigits_stops by (done || apply fmtDec_digits).
  rewrite cutPrefix_app. cbn [mbind option_bind]. rewrite spanDigits_stops by (done || apply fmtDec_digits).
  by rewrite !bool_decide_eq_false_2 by apply fmtDec_nonempty.
Qed.

(** An archive that [NewArchive] makes of timestamps in range, with an
    extension. *)
Definition archiveOk (a : Archive) : Prop :=
  tsOk (Start a) /\ tsOk (End_ a) /\ LessTS (End_ a) (Start a) = false /\
  (Type_ a = ArchiveTypeOplog \/ Type_ a = ArchiveTypeGap) /\ Ext_ a <> "" /\ allIn notDollar (Ext_ a) = true.

(** [ArchFromFilename] reads what [Filename] writes. *)
Lemma filename_roundtrip a : archiveOk a -> ArchFromFilename (Filename a) = Ok a.
Proof.
  intros (Hs & He & Hle & Ht & Hx & Hd). unfold ArchFromFilename.
  assert (ArchRegexp (Filename a) = Some (Type_ a, String_ (Start a), String_ (End_ a), Ext_ a)) as ->.
  { unfold ArchRegexp, Filename.
    assert (match cutPrefix "oplog_" (Type_ a +s "_" +s String_ (Start a) +s "_" +s String_ (End_ a) +s "." +s Ext_ a) with
            | Some s => Some (ArchiveTypeOplog, s)
            | None => s ← cutPrefix "gap_" (Type_ a +s "_" +s String_ (Start a) +s "_" +s String_ (End_ a) +s "." +s Ext_ a); Some (ArchiveTypeGap, s)
            end = Some (Type_ a, String_ (Start a) +s "_" +s String_ (End_ a) +s "." +s Ext_ a)) as ->.
    { destruct Ht as [-> | ->]; reflexivity || idtac.
      - change (ArchiveTypeOplog +s "_" +s ?s) with ("oplog_" +s s). by rewrite cutPrefix_app.
      - change (ArchiveTypeGap +s "_" +s ?s) with ("gap_" +s s). by rewrite cutPrefix_app. }
    cbn [mbind option_bind]. rewrite matchTS_String by done. cbn [mbind option_bind]. rewrite cutPrefix_app. cbn [mbind option_bind].
    rewrite matchTS_String by done. cbn [mbind option_bind]. rewrite cutPrefix_app. cbn [mbind option_bind].
    rewrite bool_decide_eq_false_2 by done. by rewrite Hd. }
  rewrite !TimestampFromStr_String by done. unfold NewArchive. rewrite Hle.
  destruct Ht as [Ht|Ht]; rewrite Ht; cbn; by destruct a; cbn in Ht; subst.
Qed.
