(* ===== verification/MongoLayout.v ===== *)
(** * MongoDB: the order of archives, and what is purged

    [src/internal/databases/mongo/archive/layout.go]. *)

From stdpp Require Import gmap strings list.
From S2P Require Import Prelude GoStrings GoDecimal MongoModels.
Open Scope Z_scope.

(** ** [Sequence] *)

(** The loop of [Reverse]; the two indices meet before the fuel is used up. *)
Fixpoint reverseLoop {A} (fuel : nat) (i j : nat) (p : list A) : list A :=
  match fuel with
  | O => p
  | S fuel =>
      if (i <? j)%nat then
        match p !! i, p !! j with
        | Some pi, Some pj => reverseLoop fuel (i + 1) (j - 1) (<[j := pi]> (<[i := pj]> p))
        | _, _ => p
        end
      else p
  end.

Definition Reverse {A} (p : list A) : list A := reverseLoop (length p) 0 (length p - 1) p.

Inductive sequenceError :=
| ErrUntilBeforeSince
| ErrNoUntil (until : Timestamp)
| ErrNoPrevious (ts : Timestamp)
| ErrCycles.

(** The first loop: the archive of a last timestamp, the last of them when
    there are several, and the first archive that has [until]. *)
Fixpoint scanArchives (archives : list Archive) (until : Timestamp) (seqEnd : option Archive) (lastTSArch : gmap Timestamp Archive)
    : option Archive * gmap Timestamp Archive :=
  match archives with
  | [] => (seqEnd, lastTSArch)
  | arch :: archives =>
      if negb (bool_decide (Type_ arch = ArchiveTypeOplog)) then scanArchives archives until seqEnd lastTSArch
      else scanArchives archives until
             (match seqEnd with Some a => Some a | None => if In_ arch until then Some arch else None end)
             (<[End_ arch := arch]> lastTSArch)
  end.

(** The second loop, backwards from [seqEnd]. *)
Fixpoint walkBack (iterations : nat) (lastTSArch : gmap Timestamp Archive) (since : Timestamp) (seqEnd : Archive) (archPath : list Archive)
    : res sequenceError (list Archive) :=
  match iterations with
  | O => Err ErrCycles
  | S iterations =>
      let archPath := archPath ++ [seqEnd] in
      if In_ seqEnd since then Ok (Reverse archPath)
      else match lastTSArch !! Start seqEnd with
           | None => Err (ErrNoPrevious (Start seqEnd))
           | Some seqEnd => walkBack iterations lastTSArch since seqEnd archPath
           end
  end.

Definition SequenceBetweenTS (archives : list Archive) (since until : Timestamp) : res sequenceError (list Archive) :=
  if LessTS until since then Err ErrUntilBeforeSince
  else match scanArchives archives until None ∅ with
       | (None, _) => Err (ErrNoUntil until)
       | (Some seqEnd, lastTSArch) => walkBack (length archives + 1) lastTSArch since seqEnd []
       end.

(** ** Backups and purging *)

Inductive layoutError :=
| ErrEmptyBackups
| ErrNoNewerBackups
| ErrBackupsNotSorted.

Section Purge.
Context {U : Type} `{EqDecision U}.
Notation Backup := (Backup U).

Definition BackupNamesFromBackups (backups : list Backup) : list string := BackupName <$> backups.

Definition LastKnownInBackupTS (backups : list Backup) : res layoutError Timestamp :=
  match backups with
  | [] => Err ErrEmptyBackups
  | b :: backups =>
      Ok (foldl (fun minTS b => let ts := LastMajTS (Before (MongoMeta_ b)) in if LessTS ts minTS then ts else minTS)
            (LastMajTS (Before (MongoMeta_ b))) backups)
  end.

(** The backups to purge and those to retain. *)
Fixpoint SplitMongoBackups (backups : list Backup) (purgeBackups retainBackups : gset string) : list Backup * list Backup :=
  match backups with
  | [] => ([], [])
  | backup :: backups =>
      let '(purge, retain) := SplitMongoBackups backups purgeBackups retainBackups in
      if bool_decide (BackupName backup ∈ purgeBackups) then (backup :: purge, retain)
      else if bool_decide (BackupName backup ∈ retainBackups) then (purge, backup :: retain)
      else (purge, retain)
  end.

Definition SplitPurgingOplogArchivesByTS (archives : list Archive) (purgeBeforeTS : Timestamp) : list Archive :=
  List.filter (fun arch => LessTS (End_ arch) purgeBeforeTS) archives.

(** [time.Time.Unix] of a time in nanoseconds. *)
Definition Unix (t : Z) : Z := t / 10 ^ 9.

(** The loop over the backups after the first. *)
Fixpoint oldestLoop (backups : list Backup) (retainAfterTS fromRetain : Z) (oldestBackup : Backup) : res layoutError Backup :=
  match backups with
  | [] => Ok oldestBackup
  | curBackup :: backups =>
      let curFromRetain := Unix (FinishLocalTime curBackup) - retainAfterTS in
      if fromRetain <? curFromRetain then Err ErrBackupsNotSorted
      else if curFromRetain <? 0 then Ok oldestBackup
      else oldestLoop backups retainAfterTS curFromRetain curBackup
  end.

Definition OldestBackupAfterTime (backups : list Backup) (after : Z) : res layoutError Backup :=
  match backups with
  | [] => Err ErrEmptyBackups
  | oldestBackup :: backups =>
      let retainAfterTS := Unix after in
      let fromRetain := Unix (FinishLocalTime oldestBackup) - retainAfterTS in
      if fromRetain <? 0 then Err ErrNoNewerBackups
      else oldestLoop backups retainAfterTS fromRetain oldestBackup
  end.

Definition SelectPurgingOplogArchives (archives : list Archive) (backups : list Backup) (retainAfterTS : option Timestamp) : list Archive :=
  List.filter (fun arch =>
    negb (match retainAfterTS with Some ts => LessTS ts (End_ arch) | None => false end) &&
    negb (negb (bool_decide (FirstOverlappingBackupForArch arch backups = emptyBackup)))) archives.
End Purge.

(** ** Lemmas: reversing *)

Lemma reverseLoop_lookup {A} fuel : forall i j (p : list A), (i + j + 1 = length p)%nat -> (j < i + 2 * fuel + 1)%nat ->
  forall x, (x < length p)%nat ->
  reverseLoop fuel i j p !! x = if decide (i <= x <= j)%nat then p !! (i + j - x)%nat else p !! x.
Proof.
  induction fuel as [|fuel IH]; intros i j p Hl Hf x Hx; cbn [reverseLoop].
  - case_decide; [|done]. assert (x = i + j - x)%nat as <- by lia. done.
  - destruct (i <? j)%nat eqn:E; [apply Nat.ltb_lt in E|apply Nat.ltb_ge in E; case_decide; [by assert (x = i + j - x)%nat as <- by lia|done]].
    destruct (lookup_lt_is_Some_2 p i ltac:(lia)) as [pi Hi], (lookup_lt_is_Some_2 p j ltac:(lia)) as [pj Hj]. rewrite Hi, Hj.
    assert (length (<[j:=pi]> (<[i:=pj]> p)) = length p) as Hlen by by rewrite !length_insert.
    rewrite IH by (rewrite ?Hlen; lia). replace (i + 1 + (j - 1) - x)%nat with (i + j - x)%nat by lia.
    destruct (decide (x = i)) as [->|Hxi]; [|destruct (decide (x = j)) as [->|Hxj]].
    + rewrite (decide_False (P := (i + 1 <= i <= j - 1)%nat)), decide_True by lia.
      rewrite list_lookup_insert_ne, list_lookup_insert_eq by lia. by replace (i + j - i)%nat with j by lia.
    + rewrite (decide_False (P := (i + 1 <= j <= j - 1)%nat)), decide_True by lia.
      rewrite list_lookup_insert_eq by (rewrite length_insert; lia). by replace (i + j - j)%nat with i by lia.
    + destruct (decide (i <= x <= j)%nat).
      * rewrite decide_True by lia. by rewrite !list_lookup_insert_ne by lia.
      * rewrite decide_False by lia. by rewrite !list_lookup_insert_ne by lia.
Qed.

Lemma reverseLoop_length {A} fuel : forall i j (p : list A), length (reverseLoop fuel i j p) = length p.
Proof.
  induction fuel as [|fuel IH]; intros i j p; cbn [reverseLoop]; [done|]. destruct (i <? j)%nat; [|done].
  destruct (p !! i) as [a|]; [|done]. destruct (p !! j) as [b|]; [|done]. by rewrite IH, !length_insert.
Qed.

Lemma Reverse_reverse {A} (p : list A) : Reverse p = reverse p.
Proof.
  apply list_eq. intros x. destruct (decide (x < length p)%nat) as [Hx|Hx].
  - unfold Reverse. rewrite reverseLoop_lookup by (destruct p; cbn in *; lia). rewrite decide_True by lia.
    rewrite reverse_lookup by done. f_equal. lia.
  - rewrite !lookup_ge_None_2; [done|rewrite length_reverse; lia|].
    unfold Reverse. rewrite reverseLoop_length. lia.
Qed.

(** ** Lemmas: sequences *)

(** Each archive ends where the next one starts. *)
Inductive linked : list Archive -> Prop :=
| linked_one a : linked [a]
| linked_cons a b p : End_ a = Start b -> linked (b :: p) -> linked (a :: b :: p).

Definition isOplog (a : Archive) : Prop := Type_ a = ArchiveTypeOplog.

Lemma LessTS_false a b : LessTS a b = false <-> ~ (TS a < TS b \/ (TS a = TS b /\ Inc a < Inc b)).
Proof. rewrite <- LessTS_spec. by destruct (LessTS a b). Qed.

(** Orders of timestamps by arithmetic. *)
Ltac ts_lia := rewrite ?LessTS_spec, ?LessTS_false in *; try lia.

Lemma In_le a ts : In_ a ts = true -> LessTS (End_ a) ts = false.
Proof. unfold In_. rewrite orb_true_iff, andb_true_iff, bool_decide_eq_true. intros [[_ ?]|<-]; [by apply LessTS_asym|apply LessTS_irrefl]. Qed.

Lemma In_gt a ts : LessTS (Start a) (End_ a) = true -> In_ a ts = true -> LessTS (Start a) ts = true.
Proof. unfold In_. rewrite orb_true_iff, andb_true_iff, bool_decide_eq_true. by intros ? [[? _]|<-]. Qed.

Lemma In_intro a ts : LessTS (Start a) ts = true -> LessTS (End_ a) ts = false -> In_ a ts = true.
Proof.
  intros H1 H2. unfold In_. rewrite orb_true_iff, andb_true_iff, bool_decide_eq_true.
  destruct (LessTS_total ts (End_ a)) as [?|[->|?]]; [by left|by right|congruence].
Qed.

Lemma scan_seqEnd l until : forall o m e m', scanArchives l until o m = (Some e, m') ->
  o = Some e \/ (o = None /\ e ∈ l /\ isOplog e /\ In_ e until = true).
Proof.
  induction l as [|a l IH]; intros o m e m' E; cbn in E; [left; congruence|]. case_bool_decide as Ht; cbn in E.
  - destruct (IH _ _ _ _ E) as [Ho|(Ho & Hin & ?)]; [|destruct o; [done|]; right; split; [done|]; split; [by right|done]].
    destruct o as [o|]; [by left|]. destruct (In_ a until) eqn:Ei; [|done]. injection Ho as ->.
    right. split; [done|]. split; [by left|done].
  - destruct (IH _ _ _ _ E) as [Ho|(Ho & Hin & ?)]; [by left|]. right. split; [done|]. split; [by right|done].
Qed.

Lemma scan_map l until : forall o m o' m', scanArchives l until o m = (o', m') ->
  forall ts a, m' !! ts = Some a -> m !! ts = Some a \/ (a ∈ l /\ isOplog a /\ End_ a = ts).
Proof.
  induction l as [|x l IH]; intros o m o' m' E ts a Ha; cbn in E; [left; congruence|]. case_bool_decide as Ht; cbn in E.
  - destruct (IH _ _ _ _ E ts a Ha) as [Hm|(Hin & ?)]; [|right; split; [by right|done]].
    apply lookup_insert_Some in Hm as [[<- <-]|[_ Hm]]; [right; split; [by left|done]|by left].
  - destruct (IH _ _ _ _ E ts a Ha) as [Hm|(Hin & ?)]; [by left|right; split; [by right|done]].
Qed.

Lemma scan_map_some l until : forall o m o' m', scanArchives l until o m = (o', m') ->
  forall ts, is_Some (m !! ts) \/ (exists a, a ∈ l /\ isOplog a /\ End_ a = ts) -> is_Some (m' !! ts).
Proof.
  induction l as [|x l IH]; intros o m o' m' E ts Hs; cbn in E.
  - injection E as _ <-. destruct Hs as [?|(a & Hin & _)]; [done|by apply elem_of_nil in Hin].
  - case_bool_decide as Ht; cbn in E; apply (IH _ _ _ _ E).
    + destruct Hs as [Hs|(a & [->|Hin]%elem_of_cons & Hty & He)].
      * left. destruct (decide (End_ x = ts)) as [->|]; [by rewrite lookup_insert_eq|by rewrite lookup_insert_ne].
      * left. by rewrite He, lookup_insert_eq.
      * right. by exists a.
    + destruct Hs as [?|(a & [->|Hin]%elem_of_cons & Hty & He)]; [by left|done|right; by exists a].
Qed.

Lemma scan_seqEnd_some l until : forall o m, is_Some o \/ (exists a, a ∈ l /\ isOplog a /\ In_ a until = true) ->
  exists e m', scanArchives l until o m = (Some e, m').
Proof.
  induction l as [|x l IH]; intros o m Hs; cbn.
  - destruct Hs as [[e ->]|(a & Hin & _)]; [by exists e, m|by apply elem_of_nil in Hin].
  - case_bool_decide as Ht; cbn; apply IH.
    + destruct o as [o|]; [left; by eexists|]. destruct Hs as [[e He]|(a & [->|Hin]%elem_of_cons & Hty & Hi)]; [done| |right; by exists a].
      rewrite Hi. left. by eexists.
    + destruct Hs as [?|(a & [->|Hin]%elem_of_cons & Hty & Hi)]; [by left|done|right; by exists a].
Qed.

(** What the walk returns ends with what it has. *)
Lemma walkBack_sound (P : Archive -> Prop) m since n : forall e path p,
  (forall ts a, m !! ts = Some a -> P a /\ End_ a = ts) -> P e -> Forall P path -> linked (e :: reverse path) ->
  walkBack n m since e path = Ok p ->
  linked p /\ Forall P p /\ (exists a, head p = Some a /\ In_ a since = true) /\ last p = last (e :: reverse path).
Proof.
  induction n as [|n IH]; intros e path p Hm He Hp Hl E; cbn in E; [done|]. destruct (In_ e since) eqn:Ei.
  - injection E as <-. rewrite Reverse_reverse, reverse_snoc. split; [done|]. split; [|split; [by exists e|done]].
    constructor; [done|]. by apply Forall_reverse.
  - destruct (m !! Start e) as [b|] eqn:Eb; [|done]. destruct (Hm _ _ Eb) as [Hb Hbe].
    destruct (IH b (path ++ [e]) p Hm Hb) as (H1 & H2 & H3 & H4); [apply Forall_app; by split; [|constructor]| |done|].
    + rewrite reverse_snoc. by constructor.
    + split; [done|]. split; [done|]. split; [done|]. rewrite H4, reverse_snoc. by rewrite last_cons_cons.
Qed.

(** *** One chain of archives *)

(** Only the first archive may have one timestamp. *)
Definition proper (q : list Archive) : Prop := linked q /\
  Forall (fun a => isOplog a /\ LessTS (End_ a) (Start a) = false) q /\ Forall (fun a => LessTS (Start a) (End_ a) = true) (tail q).

Lemma proper_at q i a : proper q -> q !! i = Some a -> isOplog a /\ LessTS (End_ a) (Start a) = false.
Proof. intros (_ & Hq & _) Hi. exact (Forall_lookup_1 _ _ _ _ Hq Hi). Qed.

Lemma proper_tail q i a : proper q -> q !! S i = Some a -> LessTS (Start a) (End_ a) = true.
Proof. intros (_ & _ & Hq) Hi. apply (Forall_lookup_1 _ _ i _ Hq). by rewrite lookup_tail. Qed.

Lemma linked_next q : linked q -> forall i a b, q !! i = Some a -> q !! S i = Some b -> End_ a = Start b.
Proof.
  induction 1 as [a|a b p E Hl IH]; intros i x y Hx Hy.
  - by destruct i.
  - destruct i as [|i]; cbn in Hx, Hy; [by injection Hx as ->; injection Hy as ->|]. by eapply IH.
Qed.

Lemma chain_order q : proper q -> forall d i a b, q !! i = Some a -> q !! (i + S d)%nat = Some b -> LessTS (Start b) (End_ a) = false.
Proof.
  intros Hq. induction d as [|d IH]; intros i a b Hi Hj.
  - replace (i + 1)%nat with (S i) in Hj by lia. rewrite (linked_next q (proj1 Hq) i a b Hi Hj). apply LessTS_irrefl.
  - destruct (lookup_lt_is_Some_2 q (i + S d)) as [c Hc]; [apply lookup_lt_Some in Hj; lia|].
    pose proof (IH i a c Hi Hc) as H1. destruct (proper_at q _ c Hq Hc) as [_ H2].
    replace (i + S (S d))%nat with (S (i + S d)) in Hj by lia. rewrite (linked_next q (proj1 Hq) _ c b Hc Hj) in H2. ts_lia.
Qed.

Lemma chain_before q i j a b ts ts' : proper q -> (i < j)%nat -> q !! i = Some a -> q !! j = Some b -> In_ a ts = true -> In_ b ts' = true ->
  LessTS ts ts' = true.
Proof.
  intros Hq Hlt Hi Hj Ha Hb. pose proof (chain_order q Hq (j - i - 1) i a b Hi) as Ho.
  replace (i + S (j - i - 1))%nat with j in Ho by lia. specialize (Ho Hj). apply In_le in Ha.
  apply In_gt in Hb; [ts_lia|]. apply (proper_tail q (j - 1)); [done|]. by replace (S (j - 1)) with j by lia.
Qed.

Lemma chain_unique q i j a b ts : proper q -> q !! i = Some a -> q !! j = Some b -> In_ a ts = true -> In_ b ts = true -> i = j.
Proof.
  intros Hq Hi Hj Ha Hb. destruct (Nat.lt_trichotomy i j) as [Hlt|[->|Hlt]]; [|done|].
  - pose proof (chain_before q i j a b ts ts Hq Hlt Hi Hj Ha Hb) as E. by rewrite LessTS_irrefl in E.
  - pose proof (chain_before q j i b a ts ts Hq Hlt Hj Hi Hb Ha) as E. by rewrite LessTS_irrefl in E.
Qed.

Lemma In_end a : In_ a (End_ a) = true.
Proof. unfold In_. by rewrite (bool_decide_eq_true_2 (End_ a = End_ a)), orb_true_r. Qed.

Lemma chain_NoDup q : proper q -> NoDup q.
Proof.
  intros Hq. apply NoDup_alt. intros i j a Hi Hj. eapply (chain_unique q i j a a (End_ a)); try done; apply In_end.
Qed.

Lemma walkBack_chain q m since i a n : proper q -> q !! i = Some a -> In_ a since = true ->
  (forall k b, q !! k = Some b -> m !! End_ b = Some b) ->
  forall k b path, (i <= k)%nat -> (k - i < n)%nat -> q !! k = Some b ->
  walkBack n m since b path = Ok (take (S (k - i)) (drop i q) ++ reverse path).
Proof.
  intros Hq Hi Ha Hm. revert n. intros n k. revert n. induction k as [k IH] using lt_wf_ind. intros n b path Hik Hn Hk.
  destruct n as [|n]; [lia|]. cbn [walkBack]. destruct (decide (i = k)) as [<-|Hne].
  - assert (b = a) as -> by congruence. rewrite Ha, Reverse_reverse, reverse_snoc, Nat.sub_diag.
    rewrite (drop_S q a i Hi). cbn [take]. by rewrite take_0.
  - destruct (In_ b since) eqn:Eb; [by destruct Hne; eapply chain_unique|].
    destruct (lookup_lt_is_Some_2 q (k - 1)) as [c Hc]; [apply lookup_lt_Some in Hk; lia|].
    assert (End_ c = Start b) as Hcb by (eapply (linked_next q (proj1 Hq) (k - 1)); [done|by replace (S (k - 1)) with k by lia]).
    rewrite <- Hcb, (Hm _ _ Hc). rewrite (IH (k - 1)%nat) by (done || lia). rewrite reverse_snoc.
    f_equal. replace (S (k - i)) with (S (S (k - 1 - i))) by lia.
    rewrite (take_S_r (drop i q) (S (k - 1 - i)) b); [by rewrite <- app_assoc|].
    rewrite lookup_drop. by replace (i + S (k - 1 - i))%nat with k by lia.
Qed.

(** Of archives that are one chain, and any gaps, the piece is found that
    starts at the archive with [since] and ends at the one with [until]. *)
Lemma SequenceBetweenTS_chain archives q since until i j a b : proper q ->
  (forall x, x ∈ archives /\ isOplog x <-> x ∈ q) -> LessTS until since = false ->
  q !! i = Some a -> In_ a since = true -> q !! j = Some b -> In_ b until = true ->
  (i <= j)%nat /\ SequenceBetweenTS archives since until = Ok (take (S (j - i)) (drop i q)).
Proof.
  intros Hq Hin Hsu Hi Ha Hj Hb.
  assert (i <= j)%nat as Hij.
  { destruct (decide (i <= j)%nat); [done|].
    pose proof (chain_before q j i b a until since Hq ltac:(lia) Hj Hi Hb Ha). congruence. }
  split; [done|]. unfold SequenceBetweenTS. rewrite Hsu.
  destruct (scan_seqEnd_some archives until None ∅) as (e & m & E).
  { right. exists b. apply and_assoc. split; [|done]. apply Hin. by eapply list_elem_of_lookup_2. }
  rewrite E. destruct (scan_seqEnd _ _ _ _ _ _ E) as [?|(_ & He1 & He2 & He3)]; [done|].
  assert (e ∈ q) as [k Hk]%list_elem_of_lookup by (apply Hin; by split).
  assert (k = j) as -> by (by eapply chain_unique). assert (e = b) as -> by congruence.
  assert (forall k b, q !! k = Some b -> m !! End_ b = Some b) as Hm.
  { intros k' c Hc. destruct (scan_map_some _ _ _ _ _ _ E (End_ c)) as [c' Hc'].
    { right. exists c. apply and_assoc. split; [|done]. apply Hin. by eapply list_elem_of_lookup_2. }
    rewrite Hc'. f_equal. destruct (scan_map _ _ _ _ _ _ E _ _ Hc') as [?|(H1 & H2 & H3)]; [by rewrite lookup_empty in *|].
    assert (c' ∈ q) as [k'' Hk'']%list_elem_of_lookup by (apply Hin; by split).
    assert (k'' = k') as ->; [|congruence]. eapply (chain_unique q k'' k' c' c (End_ c)); try done; [rewrite <- H3|]; apply In_end. }
  rewrite (walkBack_chain q m since i a _ Hq Hi Ha Hm j b []); [by rewrite app_nil_r|done| |done].
  assert (length q <= length archives)%nat; [|apply lookup_lt_Some in Hj; lia].
  apply submseteq_length, NoDup_submseteq; [by apply chain_NoDup|]. intros x Hx. by apply Hin in Hx as [? _].
Qed.
