(* ===== verification/MongoStorage.v ===== *)
(** * MongoDB: backups and archives in the storage

    [src/internal/databases/mongo]: [archive/loader.go] and
    [archive/backup.go], the purge and delete handlers, and
    [discovery/discovery.go]. The storage, the compressor with the crypter,
    the database and the clock are parameters; the listings as tables are not
    modelled. *)

From stdpp Require Import gmap strings list.
From S2P Require Import Prelude GoStrings GoPath GoSort Timeline Storage Backups BackupMeta Tablespace.
From S2P Require Import WalArchive.
From S2P Require Import GoDecimal.
From S2P Require Import MongoModels.
From S2P Require Import MongoLayout.
Open Scope Z_scope.

Inductive mongoError :=
| MStorage (e : pgError)
| MModel (e : modelError)
| MLayout (e : layoutError)
| MSequence (e : sequenceError)
| MText (message : string)
| MNilPointer.

Definition liftStorage {A} (m : res pgError A) : res mongoError A := res_map_err MStorage m.
Definition liftModel {A} (m : res modelError A) : res mongoError A := res_map_err MModel m.
Definition liftLayout {A} (m : res layoutError A) : res mongoError A := res_map_err MLayout m.

(** [storage.Folder.DeleteObjects]: other objects are as they were. *)
Class ObjectDeleter (Folder : Type) `{ObjectStore Folder} := {
  DeleteObjects : Folder -> list string -> res pgError Folder;
  DeleteObjects_other folder keys folder' name : DeleteObjects folder keys = Ok folder' -> name ∉ keys ->
    BackupMeta.ReadObject folder' name = BackupMeta.ReadObject folder name
}.

(** [PurgeSettings] and its options. *)
Record PurgeSettings := mkPurgeSettings {
  retainCount : option Z;
  retainAfter : option Z;
  purgeOplog : bool;
  purgeGarbage : bool;
  dryRun : bool
}.

Definition PurgeOption : Type := PurgeSettings -> PurgeSettings.

Definition PurgeRetainAfter (t : Z) : PurgeOption := fun args =>
  mkPurgeSettings (retainCount args) (Some t) (purgeOplog args) (purgeGarbage args) (dryRun args).
Definition PurgeRetainCount (n : Z) : PurgeOption := fun args =>
  mkPurgeSettings (Some n) (retainAfter args) (purgeOplog args) (purgeGarbage args) (dryRun args).
Definition PurgeOplog (b : bool) : PurgeOption := fun args =>
  mkPurgeSettings (retainCount args) (retainAfter args) b (purgeGarbage args) (dryRun args).
Definition PurgeGarbage (b : bool) : PurgeOption := fun args =>
  mkPurgeSettings (retainCount args) (retainAfter args) (purgeOplog args) b (dryRun args).
Definition PurgeDryRun (b : bool) : PurgeOption := fun args =>
  mkPurgeSettings (retainCount args) (retainAfter args) (purgeOplog args) (purgeGarbage args) b.

Section Mongo.
Context {sorter : SortSlice} {U : Type} `{EqDecision U}.
Context {Folder : Type} `{BackupFolder Folder} `{ObjectStore Folder} `{!ObjectDeleter Folder} `{!Json (Backup U)}.
Variable compress : list byte -> res pgError (list byte).
Variable extension : string.
Variable Decompressors : list Decompressor.
Implicit Types folder oplogs backups : Folder.

(** ** [StorageDownloader] *)

(** [BackupMeta]: a sentinel without a name gets the one asked for. *)
Definition DownloadBackupMeta folder (name : string) : res mongoError (Backup U) :=
  content ← liftStorage (BackupMeta.ReadObject folder (SentinelNameFromBackup name));
  sentinel ← liftStorage (Unmarshal content);
  Ok (if bool_decide (BackupName sentinel = "") then
        mkBackup name (StartLocalTime sentinel) (FinishLocalTime sentinel) (UserData sentinel) (MongoMeta_ sentinel)
          (Permanent sentinel) (DataSize sentinel)
      else sentinel).

Fixpoint loadAll folder (names : list string) : res mongoError (list (Backup U)) :=
  match names with
  | [] => Ok []
  | name :: names =>
      backup ← DownloadBackupMeta folder name;
      backups ← loadAll folder names;
      Ok (backup :: backups)
  end.

(** [StorageDownloader.LoadBackups]: the latest finished first. *)
Definition DownloadBackups folder (names : list string) : res mongoError (list (Backup U)) :=
  backups ← loadAll folder names;
  Ok (Slice (fun a b => FinishLocalTime b <? FinishLocalTime a) backups).

Definition ListBackups folder : res mongoError (list BackupTime * list string) := liftStorage (GetBackupsAndGarbage folder).

(** [internal.DownloadFile]: what is written to the stream, and the error. *)
Definition DownloadFile folder (filename ext : string) : list byte * option pgError :=
  match FindDecompressor Decompressors ext with
  | None => ([], Some (External "decompressor for extension was not found"))
  | Some decompressor =>
      match TryDownloadFile folder filename with
      | Err err => ([], Some err)
      | Ok None => ([], Some (External "file does not exist"))
      | Ok (Some archiveReader) => Decompress decompressor archiveReader
      end
  end.

Definition DownloadOplogArchive folder (arch : Archive) : list byte * option pgError := DownloadFile folder (Filename arch) (Ext_ arch).

Fixpoint archivesOf (objects : list Object) : res mongoError (list Archive) :=
  match objects with
  | [] => Ok []
  | key :: objects =>
      arch ← liftModel (ArchFromFilename (GetName key));
      archives ← archivesOf objects;
      Ok (arch :: archives)
  end.

Definition ListOplogArchives folder : res mongoError (list Archive) :=
  '(objects, _) ← liftStorage (ListFolder folder);
  archivesOf objects.

Definition LastKnownArchiveTS folder : res mongoError Timestamp :=
  '(keys, _) ← liftStorage (ListFolder folder);
  archives ← archivesOf keys;
  Ok (foldl (fun maxTS arch => MaxTS maxTS (End_ arch)) zeroTS archives).

(** ** [StorageUploader] *)

Definition UploadOplogArchive folder (stream : list byte) (firstTS lastTS : Timestamp) : res mongoError Folder :=
  arch ← liftModel (NewArchive firstTS lastTS extension ArchiveTypeOplog);
  buf ← liftStorage (compress stream);
  liftStorage (PutObject folder (Filename arch) buf).

(** [archErr] is the text of the error, if there is one. *)
Definition UploadGapArchive folder (archErr : option (list byte)) (firstTS lastTS : Timestamp) : res mongoError Folder :=
  match archErr with
  | None => Err (MText "archErr must not be nil")
  | Some message =>
      arch ← liftModel (NewArchive firstTS lastTS extension ArchiveTypeGap);
      compressed ← liftStorage (compress message);
      liftStorage (PutObject folder (Filename arch) compressed)
  end.

(** ** [MongoMetaConstructor] *)

(** [models.BackupMeta] *)
Record MetaFields := mkMetaFields {
  bmMongo : MongoMeta;
  bmDataSize : Z;
  bmPermanent : bool;
  bmUser : option U;
  bmStartTime : Z;
  bmFinishTime : Z
}.

Record MongoMetaConstructor := mkConstructor { mMeta : MetaFields; mMongo : MongoMeta; mPermanent : bool }.

Definition NewBackupMongoMetaConstructor (permanent : bool) : MongoMetaConstructor :=
  mkConstructor (mkMetaFields zeroMeta 0 false None zeroTime zeroTime) zeroMeta permanent.

(** [lastWrite] is the answer of the database: the last timestamps, of any and
    of a majority write. *)
Definition Init (lastWrite : res pgError (Timestamp * Timestamp)) (user : option U) (now : Z) (m : MongoMetaConstructor)
    : res mongoError MongoMetaConstructor :=
  match lastWrite with
  | Err _ => Err (MText "can not initialize backup mongo")
  | Ok (lastTS, lastMajTS) =>
      let mongo := mkMongoMeta (mkNodeMeta lastTS lastMajTS) (After (mMongo m)) in
      Ok (mkConstructor (mkMetaFields mongo 0 (mPermanent m) user now zeroTime) mongo (mPermanent m))
  end.

Definition Finalize folder (lastWrite : res pgError (Timestamp * Timestamp)) (now : Z) (backupName : string) (m : MongoMetaConstructor)
    : res mongoError MongoMetaConstructor :=
  match FolderSize folder backupName with
  | Err _ => Err (MText "can not get backup size")
  | Ok dataSize =>
      match lastWrite with
      | Err _ => Err (MText "can not finalize backup mongo")
      | Ok (lastTS, lastMajTS) =>
          let mongo := mkMongoMeta (Before (mMongo m)) (mkNodeMeta lastTS lastMajTS) in
          let meta := mMeta m in
          Ok (mkConstructor (mkMetaFields (bmMongo meta) dataSize (bmPermanent meta) (bmUser meta) (bmStartTime meta) now) mongo (mPermanent m))
      end
  end.

Definition MetaInfo (m : MongoMetaConstructor) : Backup U :=
  let meta := mMeta m in
  mkBackup "" (bmStartTime meta) (bmFinishTime meta) (bmUser meta) (bmMongo meta) (bmPermanent meta) (bmDataSize meta).

(** What the database and the clock answer while a backup is made. *)
Record Answers := mkAnswers {
  writesBefore : res pgError (Timestamp * Timestamp);
  timeBefore : Z;
  writesAfter : res pgError (Timestamp * Timestamp);
  timeAfter : Z
}.

(** [PushStream] under its name, with the folder as it is left. *)
Definition PushStream folder (stream : list byte) (backupName : string) : res mongoError Folder :=
  compressed ← liftStorage (compress stream);
  liftStorage (PutObject folder (SanitizePath (GoPath.Join backupName "stream.") +s extension) compressed).

(** [UploadBackup]: [waitErr] is how the command that gives the stream ends. *)
Definition UploadBackup (answers : Answers) (user : option U) (waitErr : option pgError) folder (stream : list byte) (backupName : string)
    (m : MongoMetaConstructor) : option mongoError * Folder :=
  match Init (writesBefore answers) user (timeBefore answers) m with
  | Err err => (Some err, folder)
  | Ok m =>
      match PushStream folder stream backupName with
      | Err err => (Some err, folder)
      | Ok folder =>
          match Finalize folder (writesAfter answers) (timeAfter answers) backupName m with
          | Err err => (Some err, folder)
          | Ok m =>
              match waitErr with
              | Some err => (Some (MStorage err), folder)
              | None =>
                  match (dtoBody ← Marshal (MetaInfo m); PutObject folder (SentinelNameFromBackup backupName) dtoBody) with
                  | Err err => (Some (MStorage err), folder)
                  | Ok folder => (None, folder)
                  end
              end
          end
      end
  end.

(** ** [StoragePurger] *)

Definition DeleteMongoBackups folder (backups : list (Backup U)) : res mongoError Folder :=
  keys ← liftStorage (DeleteBackups folder (BackupNamesFromBackups backups));
  liftStorage (DeleteObjects folder keys).

Definition DeleteMongoGarbage folder (garbage : list string) : res mongoError Folder :=
  keys ← liftStorage (DeleteGarbage folder garbage);
  liftStorage (DeleteObjects folder keys).

Definition DeleteOplogArchives folder (archives : list Archive) : res mongoError Folder :=
  liftStorage (DeleteObjects folder (Filename <$> archives)).

(** ** The handlers: the folder of the backups, and that of the archives *)

(** [LoadBackups] of [oplog_purge_handler.go]. *)
Definition LoadBackups backups : res mongoError (list (Backup U)) :=
  '(backupTimes, _) ← ListBackups backups;
  if (length backupTimes =? 0)%nat then Ok [] else DownloadBackups backups (bName <$> backupTimes).

Definition HandleOplogPurge backups oplogs (retainAfter : option Z) (dryRun : bool) : res mongoError Folder :=
  archives ← ListOplogArchives oplogs;
  if (length archives =? 0)%nat then Ok oplogs
  else
    loaded ← LoadBackups backups;
    if (length loaded =? 0)%nat then Err (MText "can not find any existed backups")
    else match retainAfter with
         | None => Err MNilPointer
         | Some retainAfter =>
             pitrBackup ← liftLayout (OldestBackupAfterTime loaded retainAfter);
             let retainArchivesAfterTS := LastMajTS (Before (MongoMeta_ pitrBackup)) in
             let purgeArchives := SelectPurgingOplogArchives archives loaded (Some retainArchivesAfterTS) in
             if dryRun then Ok oplogs else DeleteOplogArchives oplogs purgeArchives
         end.

(** [models.Backup] as a [TimedBackup]. *)
Definition MongoModelToTimedBackup (backups : list (Backup U)) : list TimedBackup :=
  (fun b => mkTimedBackup (BackupName b) (StartLocalTime b) (Permanent b)) <$> backups.

(** The backups that are deleted and those that stay, with the folder. *)
Definition HandleBackupsPurge (backupTimes : list BackupTime) backups (opts : PurgeSettings)
    : res mongoError (list (Backup U) * list (Backup U) * Folder) :=
  if (length backupTimes =? 0)%nat then Ok ([], [], backups)
  else
    loaded ← DownloadBackups backups (bName <$> backupTimes);
    let '(purgeBackups, retainBackups) :=
      SplitPurgingBackups (SortTimedBackup (MongoModelToTimedBackup loaded)) (retainCount opts) (retainAfter opts) in
    let '(purge, retain) := SplitMongoBackups loaded purgeBackups retainBackups in
    if dryRun opts then Ok (purge, retain, backups)
    else
      backups ← DeleteMongoBackups backups purge;
      Ok (purge, retain, backups).

Definition HandlePurge backups oplogs (setters : list PurgeOption) : res mongoError (Folder * Folder) :=
  let opts := foldl (fun opts setter => setter opts) (mkPurgeSettings None None false false true) setters in
  '(backupTimes, garbage) ← ListBackups backups;
  '(_, _, backups) ← HandleBackupsPurge backupTimes backups opts;
  oplogs ← (if purgeOplog opts then HandleOplogPurge backups oplogs (retainAfter opts) (dryRun opts) else Ok oplogs);
  backups ← (if purgeGarbage opts && negb (dryRun opts) then DeleteMongoGarbage backups garbage else Ok backups);
  Ok (backups, oplogs).

Definition HandleBackupDelete (backupName : string) backups (dryRun : bool) : res mongoError Folder :=
  backup ← DownloadBackupMeta backups backupName;
  if dryRun then Ok backups else DeleteMongoBackups backups [backup].

(** ** [discovery.go] *)

(** [majorityTS] is the answer of [isMaster]. *)
Definition ResolveStartingTS oplogs (majorityTS : res pgError Timestamp) : res mongoError Timestamp :=
  since ← LastKnownArchiveTS oplogs;
  if negb (bool_decide (since = zeroTS)) then Ok since else liftStorage majorityTS.

(** The timestamp of a raw record, and the records the oplog has from a
    timestamp on. *)
Variable lookupTS : list byte -> option Timestamp.
Variable TailOplogFrom : Timestamp -> res pgError (list (list byte)).

Definition OplogFromRaw (raw : list byte) : res mongoError Oplog :=
  match lookupTS raw with
  | None => Err (MText "can not cast oplog 'ts' field to timestamp")
  | Some ts => Ok (mkOplog ts raw)
  end.

(** The text of the gap. *)
Variable gapErr : Timestamp -> Timestamp -> list byte.

(** The records to read, the timestamp they start from, and the archives. *)
Definition BuildCursorFromTS oplogs (since : Timestamp) (majorityTS : res pgError Timestamp)
    : res mongoError (list (list byte) * Timestamp * Folder) :=
  oplogCursor ← liftStorage (TailOplogFrom since);
  match oplogCursor with
  | [] => Err (MText "can not fetch first document")
  | rawDoc :: _ =>
      op ← OplogFromRaw rawDoc;
      if bool_decide (opTS op = since) then Ok (oplogCursor, since, oplogs)
      else
        newestTS ← liftStorage majorityTS;
        oplogs ← UploadGapArchive oplogs (Some (gapErr since (opTS op))) since newestTS;
        oplogCursor ← liftStorage (TailOplogFrom newestTS);
        Ok (oplogCursor, newestTS, oplogs)
  end.
End Mongo.
