(* ===== verification/MongoStages.v ===== *)
(** * MongoDB: archiving the oplog and replaying it

    [src/internal/databases/mongo/stages] with the two handlers that join its
    stages. A channel is the list of what is sent on it; the [select] of the
    archiving stage takes the events it is given. The documents of a stream
    ([go.mongodb.org/mongo-driver/bson]), the database and the storage are
    parameters; the buffer in a file, which is there for debugging, is not
    modelled. *)

From stdpp Require Import gmap strings list.
From S2P Require Import Prelude GoStrings Timeline Storage BackupMeta.
From S2P Require Import WalArchive.
From S2P Require Import GoDecimal.
From S2P Require Import MongoModels.
From S2P Require Import MongoLayout.
From S2P Require Import MongoStorage.
Open Scope Z_scope.

(** ** [buffer.go] *)

(** [Buffer]: [bReader] gives what is read to the end. *)
Class Buffer (B : Type) := {
  bWrite : B -> list byte -> res mongoError B;
  bReader : B -> res mongoError (list byte * B);
  bReset : B -> res mongoError B;
  bLen : B -> Z
}.

(** A buffer holds what was written since it was reset. *)
Class BufferLaws (B : Type) `{Buffer B} := {
  holdsBytes : B -> list byte -> Prop;
  holds_len b c : holdsBytes b c -> bLen b = Z.of_nat (length c);
  holds_write b c p b' : holdsBytes b c -> bWrite b p = Ok b' -> holdsBytes b' (c ++ p);
  holds_reader b c c' b' : holdsBytes b c -> bReader b = Ok (c', b') -> c' = c;
  holds_reset b c c' b' b'' : holdsBytes b c -> bReader b = Ok (c', b') -> bReset b' = Ok b'' -> holdsBytes b'' []
}.

Record MemoryBuffer := mkMemoryBuffer { bytes_ : list byte; reading : bool }.

Definition NewMemoryBuffer : MemoryBuffer := mkMemoryBuffer [] false.

#[export] Instance MemoryBuffer_ops : Buffer MemoryBuffer := {
  bWrite mb p := if reading mb then Err (MText "buffer is not fully readed or reset") else Ok (mkMemoryBuffer (bytes_ mb ++ p) false);
  bReader mb := Ok (bytes_ mb, mkMemoryBuffer [] true);
  bReset _ := Ok (mkMemoryBuffer [] false);
  bLen mb := Z.of_nat (length (bytes_ mb))
}.

#[export] Program Instance MemoryBuffer_laws : BufferLaws MemoryBuffer := {| holdsBytes mb c := mb = mkMemoryBuffer c false |}.
Next Obligation. by intros b c ->. Qed.
Next Obligation. intros b c p b' ->. cbn. by intros [= <-]. Qed.
Next Obligation. intros b c c' b' ->. cbn. by intros [= <- _]. Qed.
Next Obligation. intros b c c' b' b'' _ _. cbn. by intros [= <-]. Qed.

(** What [bson.NewFromIOReader] gives. *)
Inductive document := Document (raw rest : list byte) | DocumentEOF | DocumentError (err : pgError).

Section Stages.
Context {Folder : Type} `{ObjectStore Folder} {B : Type} `{Buffer B}.
Variable compress : list byte -> res pgError (list byte).
Variable extension : string.
Variable Decompressors : list Decompressor.
Variable readDocument : list byte -> document.
Variable lookupTS : list byte -> option Timestamp.
Implicit Types folder : Folder.

(** ** [StorageApplier] *)

Record ApplierState := mkApplier {
  buf : B;
  batchStartTS : Timestamp;
  lastKnownTS : Timestamp;
  restartBatch : bool
}.

Definition NewStorageApplier (buf : B) : ApplierState := mkApplier buf zeroTS zeroTS true.

Inductive applyEvent := GotOp (op : Oplog) | OplogClosed | TimerExpired.

(** The second half of the loop: the archive is uploaded. *)
Definition uploadBatch (sa : ApplierState) folder : option mongoError * ApplierState * Folder :=
  if bLen (buf sa) =? 0 then (None, sa, folder)
  else match bReader (buf sa) with
       | Err err => (Some err, sa, folder)
       | Ok (bufReader, b) =>
           let sa := mkApplier b (batchStartTS sa) (lastKnownTS sa) (restartBatch sa) in
           match UploadOplogArchive compress extension folder bufReader (batchStartTS sa) (lastKnownTS sa) with
           | Err err => (Some err, sa, folder)
           | Ok folder =>
               match bReset (buf sa) with
               | Err err => (Some err, sa, folder)
               | Ok b => (None, mkApplier b (lastKnownTS sa) (lastKnownTS sa) (restartBatch sa), folder)
               end
           end
       end.

(** One turn of the loop; [size] is when an archive is large enough. *)
Definition applyStep (size : Z) (ev : applyEvent) (sa : ApplierState) folder : option mongoError * ApplierState * Folder :=
  match ev with
  | GotOp op =>
      let start := if restartBatch sa then opTS op else batchStartTS sa in
      match bWrite (buf sa) (opData op) with
      | Err err => (Some err, sa, folder)
      | Ok b =>
          let sa := mkApplier b start (opTS op) false in
          if bLen (buf sa) <? size then (None, sa, folder) else uploadBatch sa folder
      end
  | OplogClosed | TimerExpired => uploadBatch sa folder
  end.

(** [StorageApplier.Apply] up to an error or the end of the events. *)
Fixpoint StorageApply (size : Z) (events : list applyEvent) (sa : ApplierState) folder : option mongoError * ApplierState * Folder :=
  match events with
  | [] => (None, sa, folder)
  | ev :: events =>
      match applyStep size ev sa folder with
      | (Some err, sa, folder) => (Some err, sa, folder)
      | (None, sa, folder) => match ev with OplogClosed => (None, sa, folder) | _ => StorageApply size events sa folder end
      end
  end.

(** ** [StorageFetcher] *)

(** How the records of one archive end. *)
Inductive archiveEnd := ArchiveRead (firstFound : bool) | FetchCompleted | FetchFailed (errs : list mongoError).

Fixpoint fetchArchive (fuel : nat) (data : list byte) (from until : Timestamp) (firstFound : bool) : list Oplog * archiveEnd :=
  match fuel with
  | O => ([], FetchFailed [])
  | S fuel =>
      match readDocument data with
      | DocumentEOF => ([], ArchiveRead firstFound)
      | DocumentError err => ([], FetchFailed [MStorage err; MText "oplog record decoding failed"])
      | Document raw rest =>
          match OplogFromRaw lookupTS raw with
          | Err err => ([], FetchFailed [err])
          | Ok op =>
              if negb firstFound && negb (bool_decide (opTS op = from)) then fetchArchive fuel rest from until false
              else if LessTS until (opTS op) || bool_decide (opTS op = until) then ([], FetchCompleted)
              else let '(ops, e) := fetchArchive fuel rest from until true in (op :: ops, e)
          end
      end
  end.

(** The records that are sent, and the errors. *)
Fixpoint fetchPath (path : list Archive) folder (from until : Timestamp) (firstFound : bool) : list Oplog * list mongoError :=
  match path with
  | [] => ([], [MText "restore sequence was fetched, but restore point is not reached"])
  | arch :: path =>
      match DownloadOplogArchive Decompressors folder arch with
      | (_, Some err) => ([], [MStorage err])
      | (data, None) =>
          match fetchArchive (length data + 1) data from until firstFound with
          | (ops, FetchCompleted) => (ops, [])
          | (ops, FetchFailed errs) => (ops, errs)
          | (ops, ArchiveRead false) => (ops, [MText "'from' timestamp was not found in first archive"])
          | (ops, ArchiveRead true) => let '(ops', errs) := fetchPath path folder from until true in (ops ++ ops', errs)
          end
      end
  end.

Definition FetchBetween (path : list Archive) folder (from until : Timestamp) : res mongoError (list Oplog * list mongoError) :=
  if LessTS until from then Err (MText "fromTS must be less than untilTS")
  else Ok (fetchPath path folder from until false).

(** ** [GenericApplier], [HandleOplogReplay] and [oplog-replay] *)

Section Generic.
Context {S : Type}.
(** [oplog.Applier.Apply] *)
Variable applyOp : S -> Oplog -> option mongoError * S.

Fixpoint GenericApply (ops : list Oplog) (s : S) : option mongoError * S :=
  match ops with
  | [] => (None, s)
  | op :: ops => match applyOp s op with (Some err, s) => (Some err, s) | (None, s) => GenericApply ops s end
  end.

(** The first error of the two stages. *)
Definition HandleOplogReplay (path : list Archive) folder (since until : Timestamp) (s : S) : option mongoError * S :=
  match FetchBetween path folder since until with
  | Err err => (Some err, s)
  | Ok (ops, errs) =>
      match GenericApply ops s with
      | (Some err, s) => (Some err, s)
      | (None, s) => (head errs, s)
      end
  end.

(** [runOplogReplay], with the archives of the storage. *)
Definition runOplogReplay (archives : list Archive) folder (since until : Timestamp) (s : S) : option mongoError * S :=
  match SequenceBetweenTS archives since until with
  | Err err => (Some (MSequence err), s)
  | Ok path => HandleOplogReplay path folder since until s
  end.
End Generic.

(** ** [CursorMajFetcher] *)

(** Waiting until the majority has a timestamp: the answers of [isMaster] that
    are left. [None]: no answer comes any more. *)
Fixpoint waitMajority (answers : list (res pgError (bool * Timestamp))) (majTS ts : Timestamp)
    : option (res mongoError (Timestamp * list (res pgError (bool * Timestamp)))) :=
  if LessTS majTS ts then
    match answers with
    | [] => None
    | Err err :: _ => Some (Err (MStorage err))
    | Ok (isMaster, lastMajority) :: answers =>
        if negb isMaster then Some (Err (MText "current node is not a primary"))
        else waitMajority answers lastMajority ts
    end
  else Some (Ok (majTS, answers)).

(** [Fetch]: the records sent, and the error it ends with if it has ended. *)
Fixpoint majFetch (docs : list (list byte)) (curErr : option pgError) (answers : list (res pgError (bool * Timestamp))) (majTS : Timestamp)
    : list Oplog * option mongoError :=
  match docs with
  | [] => ([], Some match curErr with Some err => MStorage err | None => MText "oplog cursor exhausted" end)
  | doc :: docs =>
      match OplogFromRaw lookupTS doc with
      | Err err => ([], Some err)
      | Ok op =>
          match waitMajority answers majTS (opTS op) with
          | None => ([], None)
          | Some (Err err) => ([], Some err)
          | Some (Ok (majTS, answers)) =>
              let '(ops, err) := majFetch docs curErr answers majTS in (op :: ops, err)
          end
      end
  end.
(** ** [HandleOplogPush] *)

(** The events of the archiving stage: how often its timer expires before each
    record. *)
Fixpoint schedule (timers : list nat) (ops : list Oplog) : list applyEvent :=
  match ops with
  | [] => []
  | op :: ops => replicate (hd 0%nat timers) TimerExpired ++ GotOp op :: schedule (tl timers) ops
  end.

(** The errors of the two stages, the first of which is returned, and the
    archives. The stream that is fetched has ended. *)
Definition HandleOplogPush (size : Z) (timers : list nat) (docs : list (list byte)) (curErr : option pgError)
    (answers : list (res pgError (bool * Timestamp))) (buf : B) folder : option mongoError * option mongoError * Folder :=
  let '(ops, fetchErr) := majFetch docs curErr answers zeroTS in
  let '(applyErr, _, folder) := StorageApply size (schedule timers ops ++ [OplogClosed]) (NewStorageApplier buf) folder in
  (fetchErr, applyErr, folder).
End Stages.
