(* ===== verification/MongoReplay.v ===== *)
(** * MongoDB: what is archived is what is replayed

    The proof that the archives which [StorageApplier] uploads, found again in
    the storage and put in order, give [StorageFetcher] the records that were
    archived. *)

From stdpp Require Import gmap strings list sorting.
From S2P Require Import Prelude GoStrings GoPath GoSort Timeline Storage Backups BackupMeta.
From S2P Require Import WalArchive.
From S2P Require Import WalMetadata.
From S2P Require Import GoDecimal.
From S2P Require Import MongoModels.
From S2P Require Import MongoLayout.
From S2P Require Import MongoStorage.
From S2P Require Import MongoStages.
Open Scope Z_scope.

(** Records in the order of the oplog. *)
Definition before_ (a b : Oplog) : Prop := LessTS (opTS a) (opTS b) = true.
Notation ordered := (StronglySorted before_).

(** A folder lists the objects that are put directly into it. *)
Class OplogListing (Folder : Type) `{BackupFolder Folder} `{ObjectStore Folder} : Prop :=
  ListFolder_put (folder : Folder) name content folder' objects subs :
    Contains name "/" = false -> PutObject folder name content = Ok folder' -> ListFolder folder = Ok (objects, subs) ->
    exists objects', ListFolder folder' = Ok (objects', subs) /\
      forall n, n ∈ GetName <$> objects' <-> n = name \/ n ∈ GetName <$> objects.

(** ** Reading records *)

(** [fetchArchive] of records instead of bytes. *)
Fixpoint fetchOps (ops : list Oplog) (from until : Timestamp) (firstFound : bool) : list Oplog * archiveEnd :=
  match ops with
  | [] => ([], ArchiveRead firstFound)
  | op :: ops =>
      if negb firstFound && negb (bool_decide (opTS op = from)) then fetchOps ops from until false
      else if LessTS until (opTS op) || bool_decide (opTS op = until) then ([], FetchCompleted)
      else let '(l, e) := fetchOps ops from until true in (op :: l, e)
  end.

Lemma fetchOps_app a b from until : forall ff, fetchOps (a ++ b) from until ff =
  match fetchOps a from until ff with
  | (s, ArchiveRead ff') => let '(s', e) := fetchOps b from until ff' in (s ++ s', e)
  | r => r
  end.
Proof.
  induction a as [|op a IH]; intros ff; cbn [fetchOps app]; [by destruct (fetchOps b from until ff)|].
  destruct (negb ff && _); [apply IH|]. destruct (_ || _); [done|]. rewrite IH.
  destruct (fetchOps a from until true) as [s [ff'| |errs]]; [|done|done]. by destruct (fetchOps b from until ff').
Qed.

Lemma fetchOps_true ops from until : snd (fetchOps ops from until true) <> ArchiveRead false.
Proof.
  induction ops as [|op ops IH]; cbn [fetchOps]; [done|]. cbn [negb andb]. destruct (_ || _); [done|].
  by destruct (fetchOps ops from until true).
Qed.

Lemma fetchOps_found ops from until s : from ∈ opTS <$> ops -> fetchOps ops from until false <> (s, ArchiveRead false).
Proof.
  revert s. induction ops as [|op ops IH]; intros s Hin; cbn [fetchOps fmap list_fmap] in *; [by apply elem_of_nil in Hin|].
  cbn [negb andb]. destruct (bool_decide (opTS op = from)) eqn:E; cbn [negb].
  - destruct (_ || _); [done|]. pose proof (fetchOps_true ops from until) as Ht.
    destruct (fetchOps ops from until true) as [l e]. intros [= <- ->]. done.
  - apply bool_decide_eq_false in E. apply elem_of_cons in Hin as [->|Hin]; [done|]. by apply IH.
Qed.

Lemma fetchOps_send ops from until : Forall (fun op => LessTS (opTS op) until = true) ops ->
  fetchOps ops from until true = (ops, ArchiveRead true).
Proof.
  induction 1 as [|op ops Hop _ IH]; [done|]. cbn [fetchOps negb andb]. rewrite (LessTS_asym _ _ Hop).
  rewrite bool_decide_eq_false_2; [|intros E; by rewrite E, LessTS_irrefl in Hop]. by rewrite IH.
Qed.

Lemma fetchOps_skip ops from until : Forall (fun op => opTS op <> from) ops -> fetchOps ops from until false = ([], ArchiveRead false).
Proof. induction 1 as [|op ops Hop _ IH]; [done|]. cbn [fetchOps negb andb]. by rewrite bool_decide_eq_false_2. Qed.

Lemma ordered_lt l i j x y : ordered l -> l !! i = Some x -> l !! j = Some y -> (i < j)%nat -> before_ x y.
Proof.
  intros Hl. revert i j. induction Hl as [|a l Hl IH Ha]; intros i j Hi Hj Hlt; [done|].
  destruct j as [|j]; [lia|]. destruct i as [|i]; cbn in Hi, Hj; [injection Hi as ->; by eapply Forall_lookup_1|].
  eapply IH; [exact Hi|exact Hj|lia].
Qed.

(** From one record to another. *)
Lemma fetchOps_segment l p r x y : ordered l -> l !! p = Some x -> l !! r = Some y -> (p <= r)%nat ->
  fetchOps l (opTS x) (opTS y) false = (take (r - p) (drop p l), FetchCompleted).
Proof.
  intros Hl Hp Hr Hle. rewrite <- (take_drop p l) at 1. rewrite fetchOps_app, fetchOps_skip.
  2: { apply Forall_lookup_2. intros k z Hz. apply lookup_take_Some in Hz as [Hz Hk].
       pose proof (ordered_lt l k p z x Hl Hz Hp Hk) as Hb. unfold before_ in Hb. intros E. by rewrite E, LessTS_irrefl in Hb. }
  assert (forall r : list Oplog * archiveEnd, (let '(s', e) := r in ([] ++ s', e)) = r) as Hnil by by intros []. rewrite Hnil. clear Hnil.
  assert (fetchOps (drop p l) (opTS x) (opTS y) false = fetchOps (drop p l) (opTS x) (opTS y) true) as ->.
  { rewrite (drop_S l x p Hp). cbn [fetchOps negb andb]. by rewrite (bool_decide_eq_true_2 (opTS x = opTS x)). }
  rewrite <- (take_drop (r - p) (drop p l)) at 1. rewrite fetchOps_app, fetchOps_send.
  - rewrite drop_drop. replace (p + (r - p))%nat with r by lia. rewrite (drop_S l y r Hr). cbn [fetchOps negb andb].
    rewrite LessTS_irrefl, (bool_decide_eq_true_2 (opTS y = opTS y)) by done. cbn. by rewrite app_nil_r.
  - apply Forall_lookup_2. intros k z Hz. apply lookup_take_Some in Hz as [Hz Hk]. rewrite lookup_drop in Hz.
    eapply (ordered_lt l (p + k) r); [done|done|done|lia].
Qed.

Lemma ordered_app a b x y : ordered (a ++ b) -> x ∈ a -> y ∈ b -> before_ x y.
Proof.
  intros Ho [i Hi]%list_elem_of_lookup [j Hj]%list_elem_of_lookup. pose proof (lookup_lt_Some _ _ _ Hi).
  eapply (ordered_lt (a ++ b) i (length a + j)); [done|by rewrite lookup_app_l|by rewrite lookup_app_r, Nat.add_comm, Nat.add_sub by lia|lia].
Qed.

Lemma ordered_app_r a b : ordered (a ++ b) -> ordered b.
Proof. induction a as [|x a IH]; [done|]. intros Ho. apply IH. by inversion Ho. Qed.

Lemma ordered_app_l a b : ordered (a ++ b) -> ordered a.
Proof.
  induction a as [|x a IH]; [constructor|]. intros Ho. inversion Ho as [|? ? H1 H2]; subst. constructor; [by apply IH|].
  by apply Forall_app in H2 as [? _].
Qed.

(** ** Names *)

Lemma noSlash_Contains s : allIn notSlash s = true -> Contains s "/" = false.
Proof.
  induction s as [|c s IH]; [done|]. cbn [allIn Contains]. intros [Hc Hs]%andb_true_iff. rewrite (IH Hs), orb_false_r.
  unfold notSlash in Hc. apply negb_true_iff, bool_decide_eq_false in Hc. cbn. case_match; [|done]. by subst.
Qed.

Lemma digits_noSlash s : allIn isDigit s = true -> allIn notSlash s = true.
Proof.
  apply allIn_impl. intros c Hc. unfold notSlash. destruct (bool_decide (c = slash)) eqn:E; [|done].
  apply bool_decide_eq_true in E as ->. done.
Qed.

Lemma Filename_noSlash a : isOplog a -> allIn notSlash (Ext_ a) = true -> Contains (Filename a) "/" = false.
Proof.
  intros Ht He. apply noSlash_Contains. unfold Filename, String_. rewrite Ht, !allIn_app, He, !andb_true_iff.
  split_and!; try done; apply digits_noSlash, fmtDec_digits.
Qed.

Lemma Filename_inj a b : archiveOk a -> archiveOk b -> Filename a = Filename b -> a = b.
Proof. intros Ha Hb E. apply filename_roundtrip in Ha, Hb. rewrite E, Hb in Ha. by injection Ha. Qed.

Lemma linked_snoc q a x : linked q -> last q = Some x -> End_ x = Start a -> linked (q ++ [a]).
Proof.
  induction 1 as [y|y z p E Hl IH]; intros Hlast Hx.
  - injection Hlast as ->. cbn. constructor; [done|constructor].
  - cbn. constructor; [done|]. by apply IH.
Qed.

Lemma proper_snoc q a x : proper q -> last q = Some x -> End_ x = Start a -> isOplog a -> LessTS (Start a) (End_ a) = true -> proper (q ++ [a]).
Proof.
  intros (Hl & Hq & Ht) Hx E Hty Hlt. split; [by eapply linked_snoc|]. split; [apply Forall_app; split; [done|]|].
  - constructor; [split; [done|by apply LessTS_asym]|constructor].
  - destruct q as [|y q]; [done|]. cbn. apply Forall_app. split; [done|by constructor].
Qed.

(** ** A piece of a list of lists *)

Lemma join_take_drop {A} (ls : list (list A)) k n :
  mjoin ls = mjoin (take k ls) ++ mjoin (take n (drop k ls)) ++ mjoin (drop n (drop k ls)).
Proof. by rewrite <- !join_app, !take_drop. Qed.

Lemma join_take_length {A} (ls : list (list A)) k : length (mjoin (take k ls)) = sum_list (length <$> take k ls).
Proof. by rewrite length_join. Qed.

(** From the list with one element to the list with a later one. *)
Lemma join_segment {A} (ls : list (list A)) k1 k2 l1 l2 p r x y : ls !! k1 = Some l1 -> l1 !! p = Some x -> ls !! k2 = Some l2 -> l2 !! r = Some y ->
  (k1 <= k2)%nat -> exists r', mjoin (take (S (k2 - k1)) (drop k1 ls)) !! p = Some x /\ mjoin (take (S (k2 - k1)) (drop k1 ls)) !! r' = Some y /\
  (sum_list (length <$> take k1 ls) + r' = sum_list (length <$> take k2 ls) + r)%nat /\
  forall m, (m <= r')%nat -> take (m - p) (drop p (mjoin (take (S (k2 - k1)) (drop k1 ls)))) =
    take (m - p) (drop (sum_list (length <$> take k1 ls) + p) (mjoin ls)).
Proof.
  intros H1 Hx H2 Hy Hle. set (mid := mjoin (take (S (k2 - k1)) (drop k1 ls))).
  assert (mid = l1 ++ mjoin (take (k2 - k1) (drop (S k1) ls))) as Hm1 by (unfold mid; by rewrite (drop_S ls l1 k1 H1)).
  assert (mid = mjoin (take (k2 - k1) (drop k1 ls)) ++ l2) as Hm2.
  { unfold mid. rewrite (take_S_r _ _ l2); [by rewrite join_app; cbn; rewrite app_nil_r|].
    rewrite lookup_drop. by replace (k1 + (k2 - k1))%nat with k2 by lia. }
  assert (take k2 ls = take k1 ls ++ take (k2 - k1) (drop k1 ls)) as Ht.
  { by rewrite <- (take_drop k1 (take k2 ls)), take_take, skipn_firstn_comm, Nat.min_l. }
  exists (length (mjoin (take (k2 - k1) (drop k1 ls))) + r)%nat. split; [|split; [|split]].
  - rewrite Hm1. by apply lookup_app_l_Some.
  - rewrite Hm2, lookup_app_r by lia. by rewrite Nat.add_comm, Nat.add_sub.
  - rewrite Ht, fmap_app, sum_list_with_app, length_join. lia.
  - intros m Hm. rewrite (join_take_drop ls k1 (S (k2 - k1))). fold mid. rewrite <- join_take_length, <- drop_drop, drop_app_length.
    apply lookup_lt_Some in Hx, Hy. rewrite drop_app_le by (rewrite Hm1, length_app; lia).
    rewrite take_app_le; [done|]. rewrite length_drop, Hm2, length_app. lia.
Qed.

Section Replay.
Context {Folder : Type} `{BackupFolder Folder} `{ObjectStore Folder} `{!OplogListing Folder} {B : Type} `{Hbuf : Buffer B} `{!BufferLaws B}.
Variable compress : list byte -> res pgError (list byte).
Variable extension : string.
Variable Decompressors : list Decompressor.
Variable readDocument : list byte -> document.
Variable lookupTS : list byte -> option Timestamp.

Notation Download := (DownloadOplogArchive Decompressors).
Notation fetchArchive := (fetchArchive readDocument lookupTS).
Notation fetchPath := (fetchPath Decompressors readDocument lookupTS).

(** A record is one document, with its timestamp. *)
Definition opOk (op : Oplog) : Prop :=
  tsOk (opTS op) /\ opData op <> [] /\ lookupTS (opData op) = Some (opTS op) /\
  forall rest, readDocument (opData op ++ rest) = Document (opData op) rest.

(** The codec, the names and the documents. *)
Record ReplayLaws : Prop := {
  replay_codec : exists d, FindDecompressor Decompressors extension = Some d /\
    forall file c, compress file = Ok c -> Decompress d c = (file, None);
  replay_extension : extension <> "" /\ allIn notDollar extension = true /\ allIn notSlash extension = true;
  replay_eof : readDocument [] = DocumentEOF
}.
Context (laws : ReplayLaws).

Definition dataOf (ops : list Oplog) : list byte := mjoin (opData <$> ops).

Lemma fetchArchive_ops ops from until : forall fuel ff, Forall opOk ops -> (length ops < fuel)%nat ->
  fetchArchive fuel (dataOf ops) from until ff = fetchOps ops from until ff.
Proof.
  induction ops as [|op ops IH]; intros fuel ff Hok Hf; (destruct fuel as [|fuel]; [cbn in Hf; lia|]).
  - cbn [MongoStages.fetchArchive]. change (dataOf []) with (@nil byte). by rewrite (replay_eof laws).
  - apply Forall_cons in Hok as [(_ & _ & Hts & Hdoc) Hok]. change (dataOf (op :: ops)) with (opData op ++ dataOf ops).
    cbn [MongoStages.fetchArchive fetchOps]. rewrite Hdoc. unfold OplogFromRaw. rewrite Hts. cbn [opTS].
    cbn in Hf. rewrite !IH by (done || lia). destruct op as [ts data]. done.
Qed.

Lemma dataOf_length ops : Forall opOk ops -> (length ops <= length (dataOf ops))%nat.
Proof.
  induction 1 as [|op ops (_ & Hne & _) _ IH]; [done|]. change (dataOf (op :: ops)) with (opData op ++ dataOf ops).
  rewrite length_app. destruct (opData op); [done|]. cbn. lia.
Qed.

(** An archive with the records it has. *)
Definition holdsOps (folder : Folder) (g : Archive * list Oplog) : Prop :=
  Download folder g.1 = (dataOf g.2, None) /\ Forall opOk g.2.

Lemma fetchPath_true folder from until gs : forall s, Forall (holdsOps folder) gs ->
  fetchOps (mjoin gs.*2) from until true = (s, FetchCompleted) -> fetchPath gs.*1 folder from until true = (s, []).
Proof.
  induction gs as [|[a l] gs IH]; intros s Hgs Hs; [done|]. apply Forall_cons in Hgs as [[Hd Hl] Hgs].
  change (mjoin ((a, l) :: gs).*2) with (l ++ mjoin gs.*2) in Hs. rewrite fetchOps_app in Hs.
  cbn [fmap list_fmap fst MongoStages.fetchPath]. cbn [fst snd] in Hd. rewrite Hd.
  rewrite fetchArchive_ops by (done || (pose proof (dataOf_length l Hl); lia)).
  destruct (fetchOps l from until true) as [s1 [ff| |errs]] eqn:E; [|by injection Hs as ->|done].
  pose proof (fetchOps_true l from until) as Ht. rewrite E in Ht. destruct ff; [|done].
  destruct (fetchOps (mjoin gs.*2) from until true) as [s2 e2] eqn:E2. injection Hs as <- ->. by rewrite (IH s2).
Qed.

Lemma fetchPath_first folder from until a l gs s : Forall (holdsOps folder) ((a, l) :: gs) -> from ∈ opTS <$> l ->
  fetchOps (l ++ mjoin gs.*2) from until false = (s, FetchCompleted) ->
  fetchPath ((a, l) :: gs).*1 folder from until false = (s, []).
Proof.
  intros [[Hd Hl] Hgs]%Forall_cons Hfrom Hs. rewrite fetchOps_app in Hs. cbn [fmap list_fmap fst MongoStages.fetchPath].
  cbn [fst snd] in Hd. rewrite Hd. rewrite fetchArchive_ops by (done || (pose proof (dataOf_length l Hl); lia)).
  destruct (fetchOps l from until false) as [s1 [[]| |errs]] eqn:E; [|by apply fetchOps_found in E|by injection Hs as ->|done].
  destruct (fetchOps (mjoin gs.*2) from until true) as [s2 e2] eqn:E2. injection Hs as <- ->.
  by rewrite (fetchPath_true folder from until gs s2).
Qed.

(** ** What has been archived *)

Notation State := (ApplierState (B := B)).
Notation uploadBatch := (uploadBatch compress extension).
Notation applyStep := (applyStep compress extension).
Notation StorageApply := (StorageApply compress extension).

(** The records that are in archives, and those that wait in the buffer. *)
Definition allOps (gs : list (Archive * list Oplog)) (pending : list Oplog) : list Oplog := mjoin gs.*2 ++ pending.

(** Where the next archive starts. *)
Definition nextStart (gs : list (Archive * list Oplog)) (pending : list Oplog) : option Timestamp :=
  match last gs with Some g => Some (End_ g.1) | None => opTS <$> head pending end.

Record Pushed (gs : list (Archive * list Oplog)) (pending : list Oplog) (sa : State) (folder : Folder) : Prop := {
  pu_chain : gs = [] \/ proper gs.*1;
  pu_ok : Forall (fun g => archiveOk g.1 /\ Ext_ g.1 = extension) gs;
  pu_holds : Forall (holdsOps folder) gs;
  pu_end : Forall (fun g => opTS <$> last g.2 = Some (End_ g.1)) gs;
  pu_bounds : forall k a l op, gs !! k = Some (a, l) -> op ∈ l -> LessTS (End_ a) (opTS op) = false /\
    (LessTS (Start a) (opTS op) = true \/ head (allOps gs pending) = Some op);
  pu_buffer : holdsBytes (buf sa) (dataOf pending);
  pu_pending : Forall opOk pending;
  pu_last : allOps gs pending = [] \/ (restartBatch sa = false /\ opTS <$> last (allOps gs pending) = Some (lastKnownTS sa) /\
    nextStart gs pending = Some (batchStartTS sa));
  pu_fresh : allOps gs pending = [] -> restartBatch sa = true;
  pu_listing : exists objects subs, ListFolder folder = Ok (objects, subs) /\
    forall n, n ∈ GetName <$> objects <-> n ∈ Filename <$> gs.*1
}.

Lemma dataOf_app a b : dataOf (a ++ b) = dataOf a ++ dataOf b.
Proof. unfold dataOf. by rewrite fmap_app, join_app. Qed.

(** A record goes to the buffer. *)
Lemma write_Pushed gs pending sa folder op b : Pushed gs pending sa folder -> opOk op -> ordered (allOps gs (pending ++ [op])) ->
  bWrite (buf sa) (opData op) = Ok b ->
  Pushed gs (pending ++ [op]) (mkApplier b (if restartBatch sa then opTS op else batchStartTS sa) (opTS op) false) folder.
Proof.
  intros [] Hop Hord Hb. assert (allOps gs (pending ++ [op]) = allOps gs pending ++ [op]) as Hall by (unfold allOps; by rewrite app_assoc).
  split; cbn [buf restartBatch lastKnownTS batchStartTS]; try done.
  - intros k a l o Hk Ho. destruct (pu_bounds0 k a l o Hk Ho) as [He Hs]. split; [done|]. destruct Hs as [?|Hs]; [by left|right].
    rewrite Hall. destruct (allOps gs pending); [done|]. done.
  - rewrite dataOf_app. change (dataOf [op]) with (opData op ++ []). rewrite app_nil_r. by eapply holds_write.
  - apply Forall_app. split; [done|by constructor].
  - right. split; [done|]. rewrite Hall, last_snoc. split; [done|]. destruct pu_last0 as [Hnil|(Hr & _ & Hn)].
    + rewrite (pu_fresh0 Hnil). unfold allOps in Hnil. apply app_nil in Hnil as [Hg ->].
      assert (gs = []) as ->; [|done]. destruct gs as [|[a l] gs]; [done|]. apply Forall_cons in pu_end0 as [He _].
      cbn in Hg. apply app_nil in Hg as [-> _]. done.
    + rewrite Hr. unfold nextStart in *. destruct (last gs); [done|]. by destruct pending.
  - intros E. rewrite Hall in E. by apply app_nil in E as [_ ?].
Qed.

Lemma Download_put (folder folder' : Folder) a c ops : Ext_ a = extension -> compress (dataOf ops) = Ok c ->
  PutObject folder (Filename a) c = Ok folder' -> Download folder' a = (dataOf ops, None).
Proof.
  intros He Hc Hp. unfold DownloadOplogArchive, DownloadFile. rewrite He. destruct (replay_codec laws) as (d & Hd & Hdec). rewrite Hd.
  unfold TryDownloadFile. change (Storage.ReadObject folder' (Filename a)) with (BackupMeta.ReadObject folder' (Filename a)).
  rewrite (PutObject_same _ _ _ _ Hp). by apply Hdec.
Qed.

Lemma Download_other (folder folder' : Folder) a name c : PutObject folder name c = Ok folder' -> Filename a <> name ->
  Download folder' a = Download folder a.
Proof.
  intros Hp Hne. unfold DownloadOplogArchive, DownloadFile, TryDownloadFile.
  change (Storage.ReadObject folder' (Filename a)) with (BackupMeta.ReadObject folder' (Filename a)).
  change (Storage.ReadObject folder (Filename a)) with (BackupMeta.ReadObject folder (Filename a)).
  by rewrite (PutObject_other _ _ _ _ _ Hp Hne).
Qed.

(** The last record of an archive is before those that wait. *)
Lemma end_before gs pending sa folder g z : Pushed gs pending sa folder -> ordered (allOps gs pending) -> g ∈ gs -> z ∈ pending ->
  LessTS (End_ g.1) (opTS z) = true.
Proof.
  intros Hp Ho Hg Hz. pose proof (pu_end _ _ _ _ Hp) as He. rewrite Forall_forall in He. specialize (He g Hg).
  destruct (last g.2) as [o|] eqn:El; [|done]. injection He as <-. apply last_Some_elem_of in El.
  eapply (ordered_app (mjoin gs.*2) pending); [exact Ho| |done]. apply list_elem_of_join. exists g.2. split; [done|].
  apply list_elem_of_fmap. by exists g.
Qed.
Definition batchArchive (sa : State) : Archive := mkArchive (batchStartTS sa) (lastKnownTS sa) extension ArchiveTypeOplog.

Lemma allOps_pending gs pending : pending <> [] -> allOps gs pending <> [] /\ last (allOps gs pending) = last pending.
Proof.
  intros Hne. unfold allOps. destruct (exists_last Hne) as (l & x & ->). rewrite app_assoc, !last_snoc. split; [|done].
  intros E. by apply app_nil in E as [_ ?].
Qed.

(** Where the next archive starts and ends. *)
Lemma batch_bounds gs pending sa folder : Pushed gs pending sa folder -> pending <> [] ->
  restartBatch sa = false /\ (exists o, last pending = Some o /\ opTS o = lastKnownTS sa) /\
  nextStart gs pending = Some (batchStartTS sa).
Proof.
  intros Hp Hne. destruct (allOps_pending gs pending Hne) as [Hall Hlast].
  destruct (pu_last _ _ _ _ Hp) as [?|(Hr & Hl & Hn)]; [done|]. split; [done|]. split; [|done].
  rewrite Hlast in Hl. apply fmap_Some in Hl as (o & Ho & ->). by exists o.
Qed.

Lemma batch_ok gs pending sa folder : Pushed gs pending sa folder -> pending <> [] ->
  LessTS (lastKnownTS sa) (batchStartTS sa) = false -> archiveOk (batchArchive sa).
Proof.
  intros Hp Hne Hle. destruct (batch_bounds _ _ _ _ Hp Hne) as (_ & (o & Ho & Hoe) & Hn).
  pose proof (pu_pending _ _ _ _ Hp) as Hpend. rewrite Forall_forall in Hpend. destruct (replay_extension laws) as (He1 & He2 & _).
  unfold archiveOk, batchArchive. cbn [Start End_ Ext_ Type_]. split_and!; try done; [| |by left].
  - unfold nextStart in Hn. destruct (last gs) as [g|] eqn:Eg.
    + injection Hn as <-. pose proof (pu_ok _ _ _ _ Hp) as Hok. rewrite Forall_forall in Hok.
      by destruct (Hok g (last_Some_elem_of _ _ Eg)) as [(_ & ? & _) _].
    + destruct pending as [|op pending]; [done|]. injection Hn as <-. by destruct (Hpend op ltac:(left)).
  - rewrite <- Hoe. by destruct (Hpend o (last_Some_elem_of _ _ Ho)).
Qed.

Lemma batch_after gs pending sa folder g : Pushed gs pending sa folder -> ordered (allOps gs pending) -> pending <> [] -> g ∈ gs ->
  LessTS (End_ g.1) (lastKnownTS sa) = true.
Proof.
  intros Hp Ho Hne Hg. destruct (batch_bounds _ _ _ _ Hp Hne) as (_ & (o & Hl & <-) & _).
  eapply end_before; [done|done|done|by apply last_Some_elem_of].
Qed.

Lemma batch_chain gs pending sa folder : Pushed gs pending sa folder -> ordered (allOps gs pending) -> pending <> [] ->
  LessTS (lastKnownTS sa) (batchStartTS sa) = false -> proper (gs.*1 ++ [batchArchive sa]).
Proof.
  intros Hp Ho Hne Hle. destruct (batch_bounds _ _ _ _ Hp Hne) as (_ & _ & Hn). unfold nextStart in Hn.
  destruct (pu_chain _ _ _ _ Hp) as [->|Hc].
  - split; [constructor|]. split; [by constructor|constructor].
  - destruct (last gs) as [g|] eqn:Eg; [|apply last_None in Eg as ->; by destruct Hc as [Hl _]; inversion Hl].
    injection Hn as Hn. apply (proper_snoc _ _ g.1); [done|by rewrite fmap_last, Eg|done|done|].
    cbn. rewrite <- Hn. eapply batch_after; [done..|]. by apply last_Some_elem_of.
Qed.

Lemma ordered_last l o x : ordered l -> last l = Some o -> x ∈ l -> LessTS (opTS o) (opTS x) = false.
Proof.
  intros Hl Ho [i Hi]%list_elem_of_lookup. rewrite last_lookup in Ho. pose proof (lookup_lt_Some _ _ _ Hi).
  destruct (decide (i = pred (length l))) as [->|]; [assert (x = o) as -> by congruence; apply LessTS_irrefl|].
  apply LessTS_asym. eapply ordered_lt; [exact Hl|exact Hi|exact Ho|lia].
Qed.

Lemma batch_In gs pending sa folder op : Pushed gs pending sa folder -> ordered (allOps gs pending) -> op ∈ pending ->
  LessTS (lastKnownTS sa) (opTS op) = false /\
  (LessTS (batchStartTS sa) (opTS op) = true \/ head (allOps gs pending) = Some op).
Proof.
  intros Hp Ho Hop. assert (pending <> []) as Hne by (intros ->; by apply elem_of_nil in Hop).
  destruct (batch_bounds _ _ _ _ Hp Hne) as (_ & (o & Hl & <-) & Hn). split.
  - eapply ordered_last; [|done|done]. by eapply ordered_app_r.
  - unfold nextStart in Hn. destruct (last gs) as [g|] eqn:Eg.
    + injection Hn as <-. left. eapply end_before; [done|done|by apply last_Some_elem_of|done].
    + apply last_None in Eg as ->. destruct pending as [|o' l]; [done|]. injection Hn as <-.
      apply elem_of_cons in Hop as [->|Hop]; [by right|left]. unfold allOps in Ho. cbn in Ho. inversion Ho as [|? ? _ Hall]; subst.
      by eapply Forall_forall in Hall.
Qed.
Lemma batch_name gs pending sa folder g : Pushed gs pending sa folder -> ordered (allOps gs pending) -> pending <> [] ->
  LessTS (lastKnownTS sa) (batchStartTS sa) = false -> g ∈ gs -> Filename g.1 <> Filename (batchArchive sa).
Proof.
  intros Hp Ho Hne Hle Hg E. pose proof (pu_ok _ _ _ _ Hp) as Hok. rewrite Forall_forall in Hok.
  pose proof (batch_after _ _ _ _ _ Hp Ho Hne Hg) as Ha.
  rewrite (Filename_inj g.1 (batchArchive sa)) in Ha; [by rewrite LessTS_irrefl in Ha|by apply Hok|by eapply batch_ok|done].
Qed.

(** The batch is an archive now. *)
Lemma batch_Pushed gs pending sa folder b c folder' : Pushed gs pending sa folder -> ordered (allOps gs pending) -> pending <> [] ->
  LessTS (lastKnownTS sa) (batchStartTS sa) = false -> compress (dataOf pending) = Ok c ->
  PutObject folder (Filename (batchArchive sa)) c = Ok folder' -> holdsBytes b [] ->
  Pushed (gs ++ [(batchArchive sa, pending)]) [] (mkApplier b (lastKnownTS sa) (lastKnownTS sa) (restartBatch sa)) folder'.
Proof.
  intros Hp Ho Hne Hle Hc Hput Hb. pose proof (batch_bounds _ _ _ _ Hp Hne) as (Hr & (o & Hlast & Hoe) & _).
  assert (allOps (gs ++ [(batchArchive sa, pending)]) [] = allOps gs pending) as Hall.
  { unfold allOps. rewrite fmap_app, join_app, app_nil_r. cbn. by rewrite app_nil_r. }
  split; cbn [buf restartBatch lastKnownTS batchStartTS]; rewrite ?Hall.
  - right. rewrite fmap_app. by eapply batch_chain.
  - apply Forall_app. split; [apply Hp|]. constructor; [|done]. split; [by eapply batch_ok|done].
  - apply Forall_app. split; [|constructor; [split; [by eapply Download_put|apply Hp]|done]].
    pose proof (pu_holds _ _ _ _ Hp) as Hh. rewrite Forall_forall in *. intros g Hg. destruct (Hh g Hg) as [Hd Hl]. split; [|done].
    rewrite <- Hd. eapply Download_other; [done|by eapply batch_name].
  - apply Forall_app. split; [apply Hp|]. constructor; [|done]. cbn. by rewrite Hlast, <- Hoe.
  - intros k a l op Hk Hop. apply lookup_app_Some in Hk as [Hk|[_ Hk]]; [by eapply pu_bounds|].
    apply list_lookup_singleton_Some in Hk as [_ [= <- <-]]. by eapply batch_In.
  - done.
  - done.
  - right. split; [done|]. destruct (allOps_pending gs pending Hne) as [_ ->]. rewrite Hlast. cbn. rewrite Hoe. split; [done|].
    unfold nextStart. by rewrite last_snoc.
  - intros E. by apply (allOps_pending gs pending) in Hne as [? _].
  - destruct (pu_listing _ _ _ _ Hp) as (objects & subs & Hls & Hn). destruct (replay_extension laws) as (_ & _ & Hes).
    destruct (ListFolder_put folder (Filename (batchArchive sa)) c folder' objects subs) as (objects' & Hls' & Hn'); [by apply Filename_noSlash|done|done|].
    exists objects', subs. split; [done|]. intros n. rewrite Hn', Hn, !fmap_app, elem_of_app. cbn.
    rewrite list_elem_of_singleton. tauto.
Qed.

Lemma upload_Pushed gs pending sa folder sa' folder' : Pushed gs pending sa folder -> ordered (allOps gs pending) ->
  uploadBatch sa folder = (None, sa', folder') -> exists gs', Pushed gs' [] sa' folder' /\ allOps gs' [] = allOps gs pending.
Proof.
  intros Hp Ho. unfold MongoStages.uploadBatch. rewrite (holds_len _ _ (pu_buffer _ _ _ _ Hp)).
  destruct (Z.of_nat (length (dataOf pending)) =? 0) eqn:E0.
  { intros [= <- <-]. exists gs. pose proof (dataOf_length pending (pu_pending _ _ _ _ Hp)). apply Z.eqb_eq in E0.
    destruct pending; [done|cbn in *; lia]. }
  assert (pending <> []) as Hne by (intros ->; done). destruct (bReader (buf sa)) as [[r b]|err] eqn:Er; [|done].
  rewrite (holds_reader _ _ _ _ (pu_buffer _ _ _ _ Hp) Er) in *. cbn [buf restartBatch lastKnownTS batchStartTS].
  unfold UploadOplogArchive, NewArchive. destruct (LessTS (lastKnownTS sa) (batchStartTS sa)) eqn:Hle; [done|].
  rewrite bool_decide_eq_true_2 by done. cbn [negb andb]. destruct (compress (dataOf pending)) as [c|err] eqn:Ec; [|done].
  change (mkArchive (batchStartTS sa) (lastKnownTS sa) extension ArchiveTypeOplog) with (batchArchive sa).
  cbn -[Filename]. destruct (PutObject folder (Filename (batchArchive sa)) c) as [f|err] eqn:Ep; [|done]. cbn.
  destruct (bReset b) as [b'|err] eqn:Eb; [|done]. intros [= <- <-].
  eexists. split; [eapply (batch_Pushed gs pending sa folder b' c f); try done; by eapply holds_reset; [apply Hp|exact Er|]|].
  unfold allOps. rewrite fmap_app, join_app, app_nil_r. cbn. by rewrite app_nil_r.
Qed.

(** The records of the events. *)
Definition opsOf (events : list applyEvent) : list Oplog := omap (fun ev => match ev with GotOp op => Some op | _ => None end) events.

Lemma step_Pushed size ev gs pending sa folder sa' folder' : Pushed gs pending sa folder ->
  ordered (allOps gs pending ++ opsOf [ev]) -> Forall opOk (opsOf [ev]) -> applyStep size ev sa folder = (None, sa', folder') ->
  exists gs' pending', Pushed gs' pending' sa' folder' /\ allOps gs' pending' = allOps gs pending ++ opsOf [ev].
Proof.
  intros Hp Ho Hok. destruct ev as [op| |]; cbn [MongoStages.applyStep opsOf omap list_omap] in *; rewrite ?app_nil_r in *.
  - destruct (bWrite (buf sa) (opData op)) as [b|err] eqn:Eb; [|done]. apply Forall_inv in Hok.
    assert (allOps gs (pending ++ [op]) = allOps gs pending ++ [op]) as Hall by (unfold allOps; by rewrite app_assoc).
    rewrite <- Hall in *. pose proof (write_Pushed _ _ _ _ _ _ Hp Hok Ho Eb) as Hw. destruct (_ <? size).
    + intros [= <- <-]. by eexists _, _.
    + intros E. destruct (upload_Pushed _ _ _ _ _ _ Hw Ho E) as (gs' & ? & ?). by exists gs', [].
  - intros E. destruct (upload_Pushed _ _ _ _ _ _ Hp Ho E) as (gs' & ? & ?). by exists gs', [].
  - intros E. destruct (upload_Pushed _ _ _ _ _ _ Hp Ho E) as (gs' & ? & ?). by exists gs', [].
Qed.

Lemma Apply_Pushed size events : forall gs pending sa folder sa' folder', Pushed gs pending sa folder ->
  ordered (allOps gs pending ++ opsOf events) -> Forall opOk (opsOf events) ->
  StorageApply size (events ++ [OplogClosed]) sa folder = (None, sa', folder') -> OplogClosed ∉ events ->
  exists gs', Pushed gs' [] sa' folder' /\ allOps gs' [] = allOps gs pending ++ opsOf events.
Proof.
  induction events as [|ev events IH]; intros gs pending sa folder sa' folder' Hp Ho Hok E Hc.
  - cbn in E. destruct (MongoStages.uploadBatch _ _ sa folder) as [[[err|] sa1] f1] eqn:E1; [done|]. injection E as <- <-.
    rewrite app_nil_r in *. by eapply upload_Pushed.
  - cbn [app MongoStages.StorageApply] in E. apply not_elem_of_cons in Hc as [Hev Hc].
    change (opsOf (ev :: events)) with (opsOf ([ev] ++ events)) in *.
    assert (opsOf ([ev] ++ events) = opsOf [ev] ++ opsOf events) as Hopsof by (by destruct ev). rewrite Hopsof in *.
    rewrite app_assoc in Ho |- *. apply Forall_app in Hok as [Hok1 Hok2].
    destruct (MongoStages.applyStep _ _ size ev sa folder) as [[[err|] sa1] f1] eqn:E1; [done|].
    destruct (step_Pushed size ev gs pending sa folder sa1 f1 Hp) as (gs1 & p1 & Hp1 & Hall1); [by eapply ordered_app_l|done|done|].
    rewrite <- Hall1 in *. apply (IH gs1 p1 sa1 f1 sa' folder'); try done. by destruct ev.
Qed.
Lemma Pushed_nil b0 (folder : Folder) subs : holdsBytes b0 [] -> ListFolder folder = Ok ([], subs) ->
  Pushed [] [] (NewStorageApplier b0) folder.
Proof.
  intros Hb Hls. split; try done; [by left|by left|]. exists [], subs. split; [done|]. by intros n.
Qed.

(** ** Reading it back *)

Lemma archivesOf_names q objects : Forall archiveOk q -> (forall n, n ∈ GetName <$> objects -> n ∈ Filename <$> q) ->
  exists archives, archivesOf objects = Ok archives /\ forall x, x ∈ archives <-> x ∈ q /\ Filename x ∈ GetName <$> objects.
Proof.
  intros Hq. rewrite Forall_forall in Hq. induction objects as [|o objects IH]; intros Hn; cbn [archivesOf fmap list_fmap] in *.
  - exists []. split; [done|]. intros x. split; [by intros ?%elem_of_nil|by intros [_ ?%elem_of_nil]].
  - destruct IH as (archives & HE & Hin); [intros n Hx; apply Hn; by right|].
    destruct (list_elem_of_fmap_1 _ _ _ (Hn (GetName o) ltac:(left))) as (a & Ha & Haq).
    rewrite Ha, (filename_roundtrip a) by by apply Hq. cbn. rewrite HE. cbn. exists (a :: archives). split; [done|].
    intros x. rewrite !elem_of_cons, Hin. split.
    + intros [->|[H1 H2]]; [split; [done|by left]|split; [done|by right]].
    + intros [H1 [H2|H2]]; [left|by right]. apply Filename_inj; [by apply Hq|by apply Hq|done].
Qed.

Lemma Pushed_list gs sa folder : Pushed gs [] sa folder ->
  exists archives, ListOplogArchives folder = Ok archives /\ forall x, x ∈ archives <-> x ∈ gs.*1.
Proof.
  intros Hp. destruct (pu_listing _ _ _ _ Hp) as (objects & subs & Hls & Hn). unfold ListOplogArchives. rewrite Hls. cbn.
  destruct (archivesOf_names gs.*1 objects) as (archives & HE & Hin); [|by intros n; apply Hn|].
  - apply Forall_fmap. eapply Forall_impl; [apply Hp|]. by intros g [? _].
  - exists archives. split; [done|]. intros x. rewrite Hin, Hn. split; [by intros [? _]|]. intros Hx. split; [done|].
    apply list_elem_of_fmap. by exists x.
Qed.

(** Where a record is, the first one apart. *)
Lemma Pushed_find gs sa folder i op : Pushed gs [] sa folder -> ordered (allOps gs []) -> allOps gs [] !! i = Some op -> (1 <= i)%nat ->
  exists k a l p, gs !! k = Some (a, l) /\ l !! p = Some op /\ i = (sum_list (length <$> take k gs.*2) + p)%nat /\ In_ a (opTS op) = true.
Proof.
  intros Hp Ho Hi H1. assert (allOps gs [] = mjoin gs.*2) as Ha by (unfold allOps; by rewrite app_nil_r).
  rewrite Ha in Hi. apply join_lookup_Some in Hi as (k & l & p & Hk & Hl & Hi). apply list_lookup_fmap_Some in Hk as ([a l'] & -> & Hk).
  exists k, a, l', p. split; [done|]. split; [done|]. split; [done|].
  destruct (pu_bounds _ _ _ _ Hp k a l' op Hk (list_elem_of_lookup_2 _ _ _ Hl)) as [He [Hs|Hh]]; [by apply In_intro|].
  rewrite head_lookup in Hh. assert (allOps gs [] !! i = Some op) as Hi' by (rewrite Ha; apply join_lookup_Some; eexists k, l', p; by rewrite list_lookup_fmap, Hk).
  pose proof (ordered_lt _ 0 i op op Ho Hh Hi' ltac:(lia)) as Hb. unfold before_ in Hb. by rewrite LessTS_irrefl in Hb.
Qed.

Lemma allOps_join gs : allOps gs [] = mjoin gs.*2.
Proof. unfold allOps. by rewrite app_nil_r. Qed.

(** The archives on the way. *)
Lemma Pushed_path gs sa folder ki kj ai aj li lj since until : Pushed gs [] sa folder ->
  gs !! ki = Some (ai, li) -> gs !! kj = Some (aj, lj) -> In_ ai since = true -> In_ aj until = true -> LessTS until since = false ->
  (ki <= kj)%nat /\ exists archives, ListOplogArchives folder = Ok archives /\
    SequenceBetweenTS archives since until = Ok (take (S (kj - ki)) (drop ki gs)).*1.
Proof.
  intros Hp Hki Hkj Hi Hj Hle. destruct (Pushed_list _ _ _ Hp) as (archives & Hls & Hin).
  destruct (pu_chain _ _ _ _ Hp) as [->|Hc]; [done|].
  destruct (SequenceBetweenTS_chain archives gs.*1 since until ki kj ai aj) as [Hk Hseq]; try done.
  - intros x. rewrite Hin. split; [by intros [? _]|]. intros Hx. split; [done|]. apply list_elem_of_lookup in Hx as [k Hk].
    by apply (proper_at _ _ _ Hc Hk).
  - by rewrite list_lookup_fmap, Hki.
  - by rewrite list_lookup_fmap, Hkj.
  - split; [done|]. exists archives. split; [done|]. by rewrite Hseq, <- fmap_drop, <- fmap_take.
Qed.

(** What is fetched from them. *)
Lemma Pushed_fetch gs sa folder ki kj ai aj li lj pi pj oi oj : Pushed gs [] sa folder -> ordered (allOps gs []) ->
  gs !! ki = Some (ai, li) -> gs !! kj = Some (aj, lj) -> li !! pi = Some oi -> lj !! pj = Some oj -> (ki <= kj)%nat ->
  let i := (sum_list (length <$> take ki gs.*2) + pi)%nat in let j := (sum_list (length <$> take kj gs.*2) + pj)%nat in (i <= j)%nat ->
  fetchPath (take (S (kj - ki)) (drop ki gs)).*1 folder (opTS oi) (opTS oj) false = (take (j - i) (drop i (allOps gs [])), []).
Proof.
  intros Hp Ho Hki Hkj Hli Hlj Hk i j Hij. rewrite allOps_join in *.
  destruct (join_segment gs.*2 ki kj li lj pi pj oi oj) as (r & Hx & Hy & Er & Hseg); try done;
    [by rewrite list_lookup_fmap, Hki|by rewrite list_lookup_fmap, Hkj|].
  assert ((take (S (kj - ki)) (drop ki gs)) = (ai, li) :: take (kj - ki) (drop (S ki) gs)) as Hgs by (by rewrite (drop_S gs (ai, li) ki Hki)).
  rewrite Hgs. apply fetchPath_first.
  - rewrite <- Hgs. apply Forall_take, Forall_drop, Hp.
  - apply list_elem_of_fmap. exists oi. split; [done|]. by eapply list_elem_of_lookup_2.
  - change (li ++ mjoin (take (kj - ki) (drop (S ki) gs)).*2) with (mjoin ((ai, li) :: take (kj - ki) (drop (S ki) gs)).*2).
    rewrite <- Hgs, fmap_take, fmap_drop. rewrite (join_take_drop gs.*2 ki (S (kj - ki))) in Ho.
    rewrite (fetchOps_segment _ pi r oi oj); [|by eapply ordered_app_l, ordered_app_r|done|done|lia].
    rewrite Hseg by lia. by replace (j - i)%nat with (r - pi)%nat by lia.
Qed.

Lemma Pushed_between gs sa folder i j oi oj : Pushed gs [] sa folder -> ordered (allOps gs []) ->
  allOps gs [] !! i = Some oi -> allOps gs [] !! j = Some oj -> (1 <= i <= j)%nat ->
  exists archives path, ListOplogArchives folder = Ok archives /\ SequenceBetweenTS archives (opTS oi) (opTS oj) = Ok path /\
    FetchBetween Decompressors readDocument lookupTS path folder (opTS oi) (opTS oj) = Ok (take (j - i) (drop i (allOps gs [])), []).
Proof.
  intros Hp Ho Hi Hj Hij.
  destruct (Pushed_find _ _ _ _ _ Hp Ho Hi ltac:(lia)) as (ki & ai & li & pi & Hki & Hli & Ei & Iai).
  destruct (Pushed_find _ _ _ _ _ Hp Ho Hj ltac:(lia)) as (kj & aj & lj & pj & Hkj & Hlj & Ej & Iaj).
  assert (LessTS (opTS oj) (opTS oi) = false) as Hle.
  { destruct (decide (i = j)) as [->|Hne]; [assert (oi = oj) as -> by congruence; apply LessTS_irrefl|].
    apply LessTS_asym. eapply ordered_lt; [exact Ho|exact Hi|exact Hj|lia]. }
  destruct (Pushed_path _ _ _ _ _ _ _ _ _ _ _ Hp Hki Hkj Iai Iaj Hle) as (Hk & archives & Hls & Hseq).
  exists archives, (take (S (kj - ki)) (drop ki gs)).*1. split; [done|]. split; [done|].
  unfold FetchBetween. rewrite Hle. f_equal. subst i j. eapply (Pushed_fetch gs sa folder ki kj ai aj li lj pi pj); (done || lia).
Qed.

(** ** Archiving ends *)

(** The storage takes what it is given, and so does the buffer. *)
Record PushWorks : Prop := {
  works_compress c : exists c', compress c = Ok c';
  works_put folder name c : exists folder' : Folder, PutObject folder name c = Ok folder';
  works_write b c p : holdsBytes b c -> exists b', bWrite b p = Ok b';
  works_read b c : holdsBytes b c -> exists c' b' b'', bReader b = Ok (c', b') /\ bReset b' = Ok b''
}.
Context (works : PushWorks).

Lemma upload_works gs pending sa folder : Pushed gs pending sa folder -> ordered (allOps gs pending) ->
  exists sa' folder', uploadBatch sa folder = (None, sa', folder').
Proof.
  intros Hp Ho. unfold MongoStages.uploadBatch. rewrite (holds_len _ _ (pu_buffer _ _ _ _ Hp)).
  destruct (_ =? 0) eqn:E0; [by eexists _, _|]. assert (pending <> []) as Hne by (intros ->; done).
  destruct (works_read works _ _ (pu_buffer _ _ _ _ Hp)) as (c & b & b' & -> & Hreset). cbn [buf restartBatch lastKnownTS batchStartTS].
  assert (LessTS (lastKnownTS sa) (batchStartTS sa) = false) as Hle.
  { destruct (batch_bounds _ _ _ _ Hp Hne) as (_ & (o & Hl & <-) & Hn). unfold nextStart in Hn. destruct (last gs) as [g|] eqn:Eg.
    - injection Hn as <-. apply LessTS_asym. eapply end_before; [done|done|by apply last_Some_elem_of|by apply last_Some_elem_of].
    - destruct pending as [|o' l]; [done|]. injection Hn as <-. eapply ordered_last; [by eapply ordered_app_r|done|by left]. }
  unfold UploadOplogArchive, NewArchive. rewrite Hle, bool_decide_eq_true_2 by done. cbn [negb andb].
  destruct (works_compress works c) as [c' Hc]. destruct (works_put works folder (Filename (batchArchive sa)) c') as [f Hf].
  cbn -[Filename]. rewrite Hc. cbn -[Filename]. change (mkArchive (batchStartTS sa) (lastKnownTS sa) extension ArchiveTypeOplog) with (batchArchive sa).
  rewrite Hf. cbn. rewrite Hreset. by eexists _, _.
Qed.

Lemma step_works size ev gs pending sa folder : Pushed gs pending sa folder -> ordered (allOps gs pending ++ opsOf [ev]) ->
  Forall opOk (opsOf [ev]) -> exists sa' folder', applyStep size ev sa folder = (None, sa', folder').
Proof.
  intros Hp Ho Hok. destruct ev as [op| |]; cbn [MongoStages.applyStep opsOf omap list_omap] in *; rewrite ?app_nil_r in *;
    [|by eapply upload_works|by eapply upload_works].
  destruct (works_write works _ _ (opData op) (pu_buffer _ _ _ _ Hp)) as [b Hb]. rewrite Hb. destruct (_ <? size); [by eexists _, _|].
  apply Forall_inv in Hok. assert (allOps gs (pending ++ [op]) = allOps gs pending ++ [op]) as Hall by (unfold allOps; by rewrite app_assoc).
  rewrite <- Hall in *. eapply upload_works; [by eapply write_Pushed|done].
Qed.

Lemma Apply_works size events : forall gs pending sa folder, Pushed gs pending sa folder ->
  ordered (allOps gs pending ++ opsOf events) -> Forall opOk (opsOf events) ->
  exists sa' folder', StorageApply size events sa folder = (None, sa', folder').
Proof.
  induction events as [|ev events IH]; intros gs pending sa folder Hp Ho Hok; [by eexists _, _|].
  assert (opsOf (ev :: events) = opsOf [ev] ++ opsOf events) as Hev by (by destruct ev). rewrite Hev, ?app_assoc in *.
  apply Forall_app in Hok as [Hok1 Hok2]. cbn [MongoStages.StorageApply].
  destruct (step_works size ev gs pending sa folder Hp) as (sa1 & f1 & E); [by eapply ordered_app_l|done|]. rewrite E.
  destruct (step_Pushed size ev gs pending sa folder sa1 f1 Hp) as (gs1 & p1 & Hp1 & Hall); [by eapply ordered_app_l|done|done|].
  rewrite <- Hall in Ho. destruct (IH gs1 p1 sa1 f1 Hp1 Ho Hok2) as (sa2 & f2 & E2). destruct ev; eauto.
Qed.

(** C26: archiving the oplog never stops before it is closed while the storage
    and the buffer take what they are given, whatever the batches are. *)
Theorem oplog_push_finishes size b0 events (folder : Folder) subs :
  ListFolder folder = Ok ([], subs) -> holdsBytes b0 [] -> ordered (opsOf events) -> Forall opOk (opsOf events) ->
  exists sa folder', StorageApply size events (NewStorageApplier b0) folder = (None, sa, folder').
Proof. intros Hls Hb Ho Hok. exact (Apply_works size events [] [] _ folder (Pushed_nil b0 folder subs Hb Hls) Ho Hok). Qed.

Lemma events_replay size b0 events sa folder folder' subs i j oi oj :
  ListFolder folder = Ok ([], subs) -> holdsBytes b0 [] -> OplogClosed ∉ events ->
  ordered (opsOf events) -> Forall opOk (opsOf events) ->
  StorageApply size (events ++ [OplogClosed]) (NewStorageApplier b0) folder = (None, sa, folder') ->
  opsOf events !! i = Some oi -> opsOf events !! j = Some oj -> (1 <= i <= j)%nat ->
  exists archives, ListOplogArchives folder' = Ok archives /\
    forall (T : Type) (applyOp : T -> Oplog -> option mongoError * T) s,
      runOplogReplay Decompressors readDocument lookupTS applyOp archives folder' (opTS oi) (opTS oj) s =
      GenericApply applyOp (take (j - i) (drop i (opsOf events))) s.
Proof.
  intros Hls Hb Hcl Ho Hok E Hi Hj Hij.
  destruct (Apply_Pushed size events [] [] _ folder sa folder' (Pushed_nil b0 folder subs Hb Hls) Ho Hok E Hcl) as (gs & Hp & Hall).
  cbn [allOps app fmap list_fmap mjoin list_join] in Hall. change (allOps [] [] ++ opsOf events) with (opsOf events) in Hall. rewrite <- Hall in *.
  destruct (Pushed_between _ _ _ _ _ _ _ Hp Ho Hi Hj Hij) as (archives & path & Hl & Hseq & Hf).
  exists archives. split; [done|]. intros T applyOp s. unfold runOplogReplay, HandleOplogReplay. rewrite Hseq, Hf.
  by destruct (GenericApply applyOp _ s) as [[err|] s'].
Qed.

Lemma opsOf_app a b : opsOf (a ++ b) = opsOf a ++ opsOf b.
Proof. apply omap_app. Qed.

Lemma opsOf_timers n : opsOf (replicate n TimerExpired) = [].
Proof. induction n; [done|]. cbn. done. Qed.

Lemma opsOf_schedule ops : forall timers, opsOf (schedule timers ops) = ops.
Proof.
  induction ops as [|op ops IH]; intros timers; [done|]. cbn [schedule]. rewrite opsOf_app, opsOf_timers. cbn. f_equal. apply IH.
Qed.

Lemma schedule_open ops : forall timers, OplogClosed ∉ schedule timers ops.
Proof.
  induction ops as [|op ops IH]; intros timers; cbn [schedule]; [apply not_elem_of_nil|].
  rewrite not_elem_of_app, not_elem_of_cons. split; [|by split; [|apply IH]]. by intros [? _]%elem_of_replicate.
Qed.

(** C12: the records that are fetched and archived, in any batches, are replayed
    from the archives: from one of them (not the first) up to a later one, which
    is left out, exactly those between are applied, in order. *)
Theorem oplog_replay size timers docs curErr answers b0 ops fetchErr folder folder' subs i j oi oj :
  ListFolder folder = Ok ([], subs) -> holdsBytes b0 [] ->
  majFetch lookupTS docs curErr answers zeroTS = (ops, fetchErr) -> ordered ops -> Forall opOk ops ->
  HandleOplogPush compress extension lookupTS size timers docs curErr answers b0 folder = (fetchErr, None, folder') ->
  ops !! i = Some oi -> ops !! j = Some oj -> (1 <= i <= j)%nat ->
  exists archives, ListOplogArchives folder' = Ok archives /\
    forall (T : Type) (applyOp : T -> Oplog -> option mongoError * T) s,
      runOplogReplay Decompressors readDocument lookupTS applyOp archives folder' (opTS oi) (opTS oj) s =
      GenericApply applyOp (take (j - i) (drop i ops)) s.
Proof.
  intros Hls Hb Hm Ho Hok E Hi Hj Hij. unfold HandleOplogPush in E. rewrite Hm in E.
  destruct (StorageApply size (schedule timers ops ++ [OplogClosed]) _ folder) as [[err sa] f] eqn:Es. injection E as -> ->.
  rewrite <- (opsOf_schedule ops timers) in Ho, Hok, Hi, Hj |- *.
  eapply events_replay; [exact Hls|exact Hb|apply schedule_open|exact Ho|exact Hok|exact Es|exact Hi|exact Hj|exact Hij].
Qed.
End Replay.

(** ** Examples *)

(** A storage in memory without folders; a document is one byte, which is also
    its timestamp. *)
Module OplogMem.
Notation Folder := (gmap string (list byte)).

#[global] Instance folderListing : BackupFolder Folder := {|
  GetSubFolder f _ := f;
  GetPath _ := "";
  ListFolder f := Ok ((fun n => mkObject n 0 0) <$> filter (fun n => Contains n "/" = false) (elements (dom f : gset string)), []);
  Exists f name := Ok (bool_decide (is_Some (f !! name)))
|}.

#[global] Instance listing : OplogListing Folder.
Proof.
  intros folder name content folder' objects subs Hn [= <-] [= <- <-]. eexists. split; [reflexivity|]. intros n.
  rewrite <- !list_fmap_compose, !list_elem_of_fmap. cbn.
  setoid_rewrite list_elem_of_filter. setoid_rewrite elem_of_elements. setoid_rewrite dom_insert. split.
  - intros (x & -> & Hc & [->%elem_of_singleton|Hx]%elem_of_union); [by left|right; by exists x].
  - intros [->|(x & -> & Hc & Hx)]; [exists name|exists x]; (split; [done|]; split; [done|]; set_solver).
Qed.

Definition compress (c : list byte) : res pgError (list byte) := Ok c.
Definition lz4 : Decompressor := mkDecompressor "lz4" (fun c => (c, None)).
Definition readDocument (c : list byte) : document := match c with [] => DocumentEOF | x :: c => Document [x] c end.
Definition lookupTS (c : list byte) : option Timestamp := match c with [x] => Some (mkTimestamp (Z.of_N (Byte.to_N x)) 1) | _ => None end.
Definition op (x : byte) : Oplog := mkOplog (mkTimestamp (Z.of_N (Byte.to_N x)) 1) [x].

Definition events : list applyEvent :=
  [GotOp (op Byte.x01); GotOp (op Byte.x02); GotOp (op Byte.x03); TimerExpired; GotOp (op Byte.x04); GotOp (op Byte.x05)].

(** The cursor, and a primary whose majority has the first two records, then
    all. *)
Definition docs : list (list byte) := opData <$> opsOf events.
Definition answers : list (res pgError (bool * Timestamp)) := [Ok (true, mkTimestamp 2 1); Ok (true, mkTimestamp 7 1)].

Lemma laws : ReplayLaws compress "lz4" [lz4] readDocument.
Proof. split; [|done|done]. exists lz4. split; [done|]. by intros file c [= <-]. Qed.

Lemma works : PushWorks (Folder := Folder) (B := MemoryBuffer) compress.
Proof.
  split; [by eexists|by eexists| |].
  - intros b c p ->. by eexists.
  - intros b c ->. by eexists _, _, _.
Qed.

Lemma events_ordered : ordered (opsOf events).
Proof. repeat constructor. Qed.

Lemma events_ok : Forall (opOk readDocument lookupTS) (opsOf events).
Proof. repeat (constructor; [split; [split; by vm_compute|done]|]). constructor. Qed.
End OplogMem.

Lemma oplog_push_finishes_witness : exists sa (folder : gmap string (list byte)),
  StorageApply OplogMem.compress "lz4" 2 (OplogMem.events ++ [OplogClosed]) (NewStorageApplier NewMemoryBuffer) ∅ = (None, sa, folder).
Proof.
  apply (oplog_push_finishes (Folder := gmap string (list byte)) OplogMem.compress "lz4" [OplogMem.lz4] OplogMem.readDocument OplogMem.lookupTS
    OplogMem.laws OplogMem.works 2 NewMemoryBuffer (OplogMem.events ++ [OplogClosed]) ∅ []);
    [reflexivity|reflexivity|exact OplogMem.events_ordered|exact OplogMem.events_ok].
Defined.

Lemma oplog_replay_witness : exists (folder : gmap string (list byte)) archives,
  HandleOplogPush OplogMem.compress "lz4" OplogMem.lookupTS 2 [0; 0; 1]%nat OplogMem.docs None OplogMem.answers NewMemoryBuffer ∅ =
    (Some (MText "oplog cursor exhausted"), None, folder) /\
  ListOplogArchives folder = Ok archives /\
  runOplogReplay [OplogMem.lz4] OplogMem.readDocument OplogMem.lookupTS (fun s op => (None, s ++ opData op)) archives folder
    (mkTimestamp 2 1) (mkTimestamp 5 1) [] = (None, [Byte.x02; Byte.x03; Byte.x04]).
Proof.
  destruct (HandleOplogPush OplogMem.compress "lz4" OplogMem.lookupTS 2 [0; 0; 1]%nat OplogMem.docs None OplogMem.answers NewMemoryBuffer
    (∅ : gmap string (list byte))) as [[ferr err] folder] eqn:E.
  assert (ferr = Some (MText "oplog cursor exhausted") /\ err = None) as [-> ->].
  { apply (f_equal fst) in E. vm_compute in E. injection E as <- <-. split; reflexivity. }
  destruct (oplog_replay OplogMem.compress "lz4" [OplogMem.lz4] OplogMem.readDocument OplogMem.lookupTS OplogMem.laws
    2 [0; 0; 1]%nat OplogMem.docs None OplogMem.answers NewMemoryBuffer (opsOf OplogMem.events) (Some (MText "oplog cursor exhausted")) ∅ folder [] 1 4
    (OplogMem.op Byte.x02) (OplogMem.op Byte.x05)) as (archives & Hl & Hr);
    [reflexivity|reflexivity|reflexivity|exact OplogMem.events_ordered|exact OplogMem.events_ok|exact E|reflexivity|reflexivity|lia|].
  exists folder, archives. split; [reflexivity|]. split; [exact Hl|].
  exact (Hr (list byte) (fun s op => (None, s ++ opData op)) []).
Defined.
