(* ===== verification/MongoPurge.v ===== *)
(** * MongoDB: sequences of archives, purging them, and majority reads

    What the operations of [MongoLayout], [MongoStorage] and [MongoStages]
    promise, one by one. *)

From stdpp Require Import gmap strings list sorting.
From S2P Require Import Prelude GoStrings GoSort Timeline Storage Backups BackupMeta.
From S2P Require Import WalArchive.
From S2P Require Import WalMetadata.
From S2P Require Import GoDecimal.
From S2P Require Import MongoModels.
From S2P Require Import MongoLayout.
From S2P Require Import MongoStorage.
From S2P Require Import MongoStages.
From S2P Require Import MongoReplay.
Open Scope Z_scope.

(** ** Archives that are listed *)

Lemma tsOk_wrap a b : tsOk (mkTimestamp (u32 a) (u32 b)).
Proof. split; apply wrap_range; lia. Qed.

Lemma TimestampFromStr_ok s t : TimestampFromStr s = Ok t -> tsOk t.
Proof.
  unfold TimestampFromStr. destruct (splitDots s) as [|s0 [|s1 [|]]]; try done.
  destruct (ParseUint s0 10 32); [|done]. destruct (ParseUint s1 10 32); [|done]. intros [= <-]. apply tsOk_wrap.
Qed.

Lemma ArchRegexp_some path atype start end_ ext : ArchRegexp path = Some (atype, start, end_, ext) ->
  (atype = ArchiveTypeOplog \/ atype = ArchiveTypeGap) /\ ext <> "" /\ allIn notDollar ext = true.
Proof.
  unfold ArchRegexp. destruct (match cutPrefix "oplog_" path with Some s => _ | None => _ end) as [[t s]|] eqn:Et; [|done].
  cbn [mbind option_bind]. destruct (matchTS s) as [[s1 s2]|]; [|done]. cbn [mbind option_bind]. destruct (cutPrefix "_" s2) as [s3|]; [|done].
  cbn [mbind option_bind]. destruct (matchTS s3) as [[s4 s5]|]; [|done]. cbn [mbind option_bind]. destruct (cutPrefix "." s5) as [s6|]; [|done].
  cbn [mbind option_bind]. destruct (bool_decide (s6 = "")) eqn:E6; [done|]. destruct (allIn notDollar s6) eqn:Ed; [|done].
  intros [= <- <- <- <-]. apply bool_decide_eq_false in E6. split; [|done].
  destruct (cutPrefix "oplog_" path); [injection Et as <- _; by left|]. destruct (cutPrefix "gap_" path); [injection Et as <- _; by right|done].
Qed.

Lemma ArchFromFilename_ok path a : ArchFromFilename path = Ok a -> archiveOk a.
Proof.
  unfold ArchFromFilename. destruct (ArchRegexp path) as [[[[atype start] end_] ext]|] eqn:Er; [|done].
  apply ArchRegexp_some in Er as (Ht & He & Hd). destruct (TimestampFromStr start) as [s|] eqn:Es; [|done].
  destruct (TimestampFromStr end_) as [e|] eqn:Ee; [|done]. unfold NewArchive. destruct (LessTS e s) eqn:El; [done|].
  destruct (negb _ && _); [done|]. intros [= <-]. apply TimestampFromStr_ok in Es, Ee. by split_and!.
Qed.

Lemma archivesOf_ok objects archives : archivesOf objects = Ok archives -> Forall archiveOk archives.
Proof.
  revert archives. induction objects as [|o objects IH]; intros archives E; cbn [archivesOf] in E; [by injection E as <-|].
  destruct (ArchFromFilename (GetName o)) as [a|] eqn:Ea; [|done]. cbn in E. destruct (archivesOf objects) as [l|] eqn:El; [|done].
  injection E as <-. constructor; [by eapply ArchFromFilename_ok|by apply IH].
Qed.

(** The name of an archive is read back as that archive, and every name
    that is read gives an archive for which that holds: timestamps of 32 bits,
    the end not before the start, one of the two types. *)
Theorem archive_name_roundtrip :
  (forall a, archiveOk a -> ArchFromFilename (Filename a) = Ok a) /\
  (forall path a, ArchFromFilename path = Ok a -> archiveOk a).
Proof. split; [apply filename_roundtrip|apply ArchFromFilename_ok]. Qed.

(** The sequence between two timestamps is made of archives of the oplog
    that follow one another without a gap, from one that has the first timestamp
    to one that has the last. *)
Theorem sequence_sound archives since until p : SequenceBetweenTS archives since until = Ok p ->
  LessTS until since = false /\ linked p /\ Forall (fun a => a ∈ archives /\ isOplog a) p /\
  (exists a, head p = Some a /\ In_ a since = true) /\ (exists a, last p = Some a /\ In_ a until = true).
Proof.
  unfold SequenceBetweenTS. destruct (LessTS until since); [done|]. destruct (scanArchives archives until None ∅) as [[e|] m] eqn:E; [|done].
  intros Hw. destruct (scan_seqEnd _ _ _ _ _ _ E) as [?|(_ & He1 & He2 & He3)]; [done|].
  destruct (walkBack_sound (fun a => a ∈ archives /\ isOplog a) m since (length archives + 1) e [] p) as (H1 & H2 & H3 & H4).
  - intros ts a Ha. destruct (scan_map _ _ _ _ _ _ E ts a Ha) as [?|(? & ? & ?)]; [by rewrite lookup_empty in *|done].
  - done.
  - done.
  - constructor.
  - done.
  - split_and!; try done. exists e. split; [by rewrite H4|done].
Qed.

(** Two archives that follow one another. *)
Definition twoArchives : list Archive :=
  [mkArchive (mkTimestamp 1 1) (mkTimestamp 3 1) "lz4" "oplog"; mkArchive (mkTimestamp 3 1) (mkTimestamp 6 1) "lz4" "oplog"].

Lemma sequence_sound_witness : exists p,
  SequenceBetweenTS twoArchives (mkTimestamp 2 1) (mkTimestamp 5 1) = Ok p /\ linked p /\ length p = 2%nat.
Proof.
  assert (SequenceBetweenTS twoArchives (mkTimestamp 2 1) (mkTimestamp 5 1) = Ok twoArchives) as E by reflexivity.
  exists twoArchives. split; [reflexivity|]. split; [|reflexivity]. exact (proj1 (proj2 (sequence_sound _ _ _ _ E))).
Defined.

(** ** The oldest backup *)

Section Oldest.
Context {U : Type} `{EqDecision U}.
Notation Backup := (Backup U).
Notation fin b := (Unix (FinishLocalTime b)).

(** The latest finished come first. *)
Notation latestFirst := (StronglySorted (fun a b : Backup => fin b <= fin a)).

Lemma oldestLoop_ok l after : forall from b b', oldestLoop l after from b = Ok b' -> from = fin b - after -> 0 <= from ->
  (b' = b \/ b' ∈ l) /\ after <= fin b' /\ (forall x, x = b \/ x ∈ l -> latestFirst (b :: l) -> after <= fin x -> fin b' <= fin x).
Proof.
  induction l as [|c l IH]; intros from b b' E -> H0; cbn in E.
  - injection E as <-. split; [by left|]. split; [lia|]. intros x [->|Hx]; [lia|by apply elem_of_nil in Hx].
  - destruct (_ <? fin c - after) eqn:E1; [done|]. destruct (fin c - after <? 0) eqn:E2.
    + injection E as <-. split; [by left|]. split; [lia|]. intros x [->|Hx] Hs Hax; [lia|]. exfalso.
      apply StronglySorted_inv in Hs as [Hs _]. apply StronglySorted_inv in Hs as [_ Hs].
      apply elem_of_cons in Hx as [->|Hx]; [lia|]. rewrite Forall_forall in Hs. specialize (Hs x Hx). lia.
    + destruct (IH _ c b' E eq_refl ltac:(lia)) as (H1 & H2 & H3). split; [right; destruct H1 as [->|?]; [by left|by right]|]. split; [done|].
      intros x [->|Hx] Hs Hax.
      * apply StronglySorted_inv in Hs as [Hs Hb]. pose proof (H3 c (or_introl eq_refl) Hs ltac:(lia)). apply Forall_cons in Hb as [Hb _]. lia.
      * apply StronglySorted_inv in Hs as [Hs _]. apply H3; [|done|done]. by apply elem_of_cons in Hx as [->|?]; [left|right].
Qed.

(** Of backups in order, the oldest that finished at the time or after it. *)
Lemma OldestBackupAfterTime_ok backups after b : latestFirst backups -> OldestBackupAfterTime backups after = Ok b ->
  b ∈ backups /\ Unix after <= fin b /\ forall x, x ∈ backups -> Unix after <= fin x -> fin b <= fin x.
Proof.
  intros Hs. destruct backups as [|c l]; [done|]. cbn. destruct (_ <? 0) eqn:E0; [done|]. intros E.
  destruct (oldestLoop_ok l (Unix after) _ c b E eq_refl ltac:(lia)) as (H1 & H2 & H3).
  split; [destruct H1 as [->|?]; [by left|by right]|]. split; [done|]. intros x Hx Ha. apply H3; [by apply elem_of_cons in Hx|done|done].
Qed.

Lemma Unix_mono a b : a <= b -> Unix a <= Unix b.
Proof. intros Hle. by apply Z.div_le_mono. Qed.

Lemma FirstOverlapping_some arch backups (b : Backup) : b ∈ backups -> ArchInBackup arch b = true -> Forall (fun b => BackupName b <> "") backups ->
  FirstOverlappingBackupForArch arch backups <> emptyBackup.
Proof.
  induction backups as [|c l IH]; [by intros ?%elem_of_nil|]. intros Hb Ha [Hc Hl]%Forall_cons. cbn.
  destruct (ArchInBackup arch c) eqn:E; [by intros ->|]. apply elem_of_cons in Hb as [->|Hb]; [congruence|by apply IH].
Qed.
End Oldest.

(** ** Purging the oplog *)

Section Purging.
Context {sorter : SortSlice} {U : Type} `{EqDecision U}.
Context {Folder : Type} `{BackupFolder Folder} `{ObjectStore Folder} `{!ObjectDeleter Folder} `{!Json (Backup U)}.
Implicit Types folder oplogs backups : Folder.

Lemma LoadBackups_sorted backups loaded : LoadBackups (U := U) backups = Ok loaded ->
  StronglySorted (fun a b => Unix (FinishLocalTime b) <= Unix (FinishLocalTime a)) loaded.
Proof.
  unfold LoadBackups, DownloadBackups. destruct (ListBackups backups) as [[times g]|]; [|done]. cbn [mbind res_bind].
  destruct (_ =? 0)%nat; [intros [= <-]; constructor|]. destruct (loadAll backups _) as [l|]; [|done]. intros [= <-].
  eapply StronglySorted_weaken; [|apply (Slice_sorted _ _ (StrictWeak_key_desc FinishLocalTime))].
  unfold not_after. intros a b Hab. apply Unix_mono. cbn in Hab. lia.
Qed.

Lemma SelectPurging_elem archives (loaded : list (Backup U)) ts a : a ∈ SelectPurgingOplogArchives archives loaded (Some ts) ->
  Forall (fun b => BackupName b <> "") loaded -> LessTS ts (End_ a) = false /\ forall b, b ∈ loaded -> ArchInBackup a b = false.
Proof.
  unfold SelectPurgingOplogArchives. rewrite list_elem_of_In, List.filter_In, andb_true_iff, negb_true_iff, negb_involutive, bool_decide_eq_true.
  intros (_ & Hts & Ho) Hn. split; [done|]. intros b Hb. destruct (ArchInBackup a b) eqn:E; [|done].
  by apply (FirstOverlapping_some a loaded b) in Ho.
Qed.

Lemma Filename_elem archives a (l : list Archive) : Forall archiveOk archives -> a ∈ archives -> (forall x, x ∈ l -> x ∈ archives) ->
  Filename a ∈ Filename <$> l -> a ∈ l.
Proof.
  intros Hok Ha Hl (x & E & Hx)%list_elem_of_fmap. rewrite Forall_forall in Hok.
  by rewrite (Filename_inj a x (Hok a Ha) (Hok x (Hl x Hx)) E).
Qed.

(** C25: purging the oplog leaves the object of every archive of the listing but
    those that no backup needs: it overlaps no backup, and it ends no later than
    the start of the oldest backup that finished after the point in time to
    retain. With a dry run every object stays. *)
Theorem oplog_purge_keeps backups oplogs after dryRun oplogs' archives (loaded : list (Backup U)) a :
  HandleOplogPurge (U := U) backups oplogs (Some after) dryRun = Ok oplogs' ->
  ListOplogArchives oplogs = Ok archives -> LoadBackups backups = Ok loaded -> Forall (fun b => BackupName b <> "") loaded ->
  a ∈ archives ->
  BackupMeta.ReadObject oplogs' (Filename a) = BackupMeta.ReadObject oplogs (Filename a) \/
  (dryRun = false /\ (forall b, b ∈ loaded -> ArchInBackup a b = false) /\
   exists b, b ∈ loaded /\ LessTS (LastMajTS (Before (MongoMeta_ b))) (End_ a) = false /\
     Unix after <= Unix (FinishLocalTime b) /\
     forall x, x ∈ loaded -> Unix after <= Unix (FinishLocalTime x) -> Unix (FinishLocalTime b) <= Unix (FinishLocalTime x)).
Proof.
  intros E Hls Hl Hn Ha. unfold HandleOplogPurge in E. rewrite Hls in E. cbn [mbind res_bind] in E.
  destruct (length archives =? 0)%nat; [injection E as <-; by left|]. rewrite Hl in E. cbn [mbind res_bind] in E.
  destruct (length loaded =? 0)%nat; [done|]. destruct (OldestBackupAfterTime loaded after) as [b|err] eqn:Eb; [|done].
  cbn [liftLayout res_map_err mbind res_bind] in E. destruct dryRun; [injection E as <-; by left|].
  destruct (OldestBackupAfterTime_ok loaded after b (LoadBackups_sorted _ _ Hl) Eb) as (H1 & H2 & H3).
  unfold DeleteOplogArchives in E. set (purge := SelectPurgingOplogArchives _ _ _) in E.
  destruct (DeleteObjects oplogs (Filename <$> purge)) as [f|err] eqn:Ed; [|done]. injection E as <-.
  destruct (decide (Filename a ∈ Filename <$> purge)) as [Hp|Hp]; [right|left; eapply DeleteObjects_other; [exact Ed|exact Hp]].
  assert (Forall archiveOk archives) as Hok.
  { unfold ListOplogArchives in Hls. destruct (ListFolder oplogs) as [[objects subs]|]; [|done]. exact (archivesOf_ok _ _ Hls). }
  apply (Filename_elem archives) in Hp; [|done|done|].
  - destruct (SelectPurging_elem _ _ _ _ Hp Hn) as [Hts Hov]. split; [done|]. split; [done|]. by exists b.
  - unfold purge, SelectPurgingOplogArchives. intros x. rewrite !list_elem_of_In, List.filter_In. by intros [? _].
Qed.
End Purging.

(** ** Backups *)

Section Uploading.
Context {U : Type} `{EqDecision U}.
Context {Folder : Type} `{BackupFolder Folder} `{ObjectStore Folder} `{!Json (Backup U)}.
Variable compress : list byte -> res pgError (list byte).
Variable extension : string.
Implicit Types folder : Folder.

Lemma UploadBackup_ok answers (user : option U) waitErr folder stream name m folder' :
  UploadBackup compress extension answers user waitErr folder stream name m = (None, folder') ->
  exists m1 m2 folder1 content, Init (writesBefore answers) user (timeBefore answers) m = Ok m1 /\
    Finalize folder1 (writesAfter answers) (timeAfter answers) name m1 = Ok m2 /\
    Marshal (MetaInfo m2) = Ok content /\ PutObject folder1 (SentinelNameFromBackup name) content = Ok folder'.
Proof.
  unfold UploadBackup. destruct (Init _ user _ m) as [m1|] eqn:E1; [|done].
  destruct (PushStream compress extension folder stream name) as [f1|]; [|done].
  destruct (Finalize f1 _ _ name m1) as [m2|] eqn:E2; [|done]. destruct waitErr; [done|].
  destruct (Marshal (MetaInfo m2)) as [content|] eqn:Em; [|done]. cbn [mbind res_bind].
  destruct (PutObject f1 (SentinelNameFromBackup name) content) as [f2|] eqn:Ep; [|done]. intros [= <-]. by exists m1, m2, f1, content.
Qed.

Lemma Init_ok lastWrite (user : option U) now m m1 : Init lastWrite user now m = Ok m1 ->
  exists last maj, lastWrite = Ok (last, maj) /\ bmMongo (mMeta m1) = mkMongoMeta (mkNodeMeta last maj) (After (mMongo m)).
Proof. unfold Init. destruct lastWrite as [[last maj]|]; [|done]. intros [= <-]. by exists last, maj. Qed.

Lemma Finalize_ok folder lastWrite now name (m m' : MongoMetaConstructor (U := U)) : Finalize folder lastWrite now name m = Ok m' ->
  bmMongo (mMeta m') = bmMongo (mMeta m).
Proof. unfold Finalize. destruct (FolderSize folder name); [|done]. destruct lastWrite as [[last maj]|]; [|done]. by intros [= <-]. Qed.

(** An archive that starts after a backup which has no end is not in it. *)
Lemma ArchInBackup_noend arch (b : Backup U) : After (MongoMeta_ b) = zeroNode -> LessTS zeroTS (Start arch) = true ->
  LessTS (LastMajTS (Before (MongoMeta_ b))) (Start arch) = true -> LessTS (End_ arch) (Start arch) = false -> ArchInBackup arch b = false.
Proof.
  unfold ArchInBackup, TimestampInInterval. intros ->. cbn [LastMajTS zeroNode]. set (s := LastMajTS _). intros Hz Hs He.
  assert (LessTS s (End_ arch) = true /\ LessTS zeroTS (End_ arch) = true) as [Hse Hze] by (split; ts_lia).
  assert (forall a b, LessTS a b = true -> LessTS b a = false /\ a <> b /\ b <> a) as Hlt.
  { intros x y Hxy. split; [by apply LessTS_asym|]. by split; intros ->; rewrite LessTS_irrefl in Hxy. }
  destruct (Hlt _ _ Hz) as (Z1 & Z2 & Z3), (Hlt _ _ Hs) as (S1 & S2 & S3), (Hlt _ _ Hse) as (E1 & E2 & E3), (Hlt _ _ Hze) as (F1 & F2 & F3).
  by rewrite Z1, S1, F1, !andb_false_r, !bool_decide_eq_false_2.
Qed.

(** The sentinel of a backup has the timestamps of the database before it
    was made, but not those after it: they are zero, so the archives that start
    while it is made are not held to be in it when the oplog is purged. *)
Theorem backup_end_lost answers (user : option U) waitErr folder stream name permanent folder' :
  UploadBackup compress extension answers user waitErr folder stream name (NewBackupMongoMetaConstructor permanent) = (None, folder') ->
  exists content b last maj, BackupMeta.ReadObject folder' (SentinelNameFromBackup name) = Ok content /\ Unmarshal content = Ok b /\
    writesBefore answers = Ok (last, maj) /\ MongoMeta_ b = mkMongoMeta (mkNodeMeta last maj) zeroNode /\
    forall arch, LessTS zeroTS (Start arch) = true -> LessTS maj (Start arch) = true -> LessTS (End_ arch) (Start arch) = false ->
      ArchInBackup arch b = false.
Proof.
  intros E. destruct (UploadBackup_ok _ _ _ _ _ _ _ _ E) as (m1 & m2 & f1 & content & Hi & Hf & Hm & Hp).
  destruct (Init_ok _ _ _ _ _ Hi) as (last & maj & Hw & Hb). exists content, (MetaInfo m2), last, maj.
  assert (MongoMeta_ (MetaInfo m2) = mkMongoMeta (mkNodeMeta last maj) zeroNode) as Hmeta by (cbn; by rewrite (Finalize_ok _ _ _ _ _ _ Hf)).
  split; [by apply (PutObject_same _ _ _ _ Hp)|]. split; [by apply Unmarshal_Marshal|]. split; [done|]. split; [done|].
  intros arch Hz Hs He. apply ArchInBackup_noend; rewrite ?Hmeta; done.
Qed.
End Uploading.

(** ** Majority reads *)

Section Majority.
Variable lookupTS : list byte -> option Timestamp.

Lemma waitMajority_ok answers ts : forall m m' rest, waitMajority answers m ts = Some (Ok (m', rest)) ->
  LessTS m' ts = false /\ (m' = m \/ Ok (true, m') ∈ answers) /\ (forall x, x ∈ rest -> x ∈ answers).
Proof.
  induction answers as [|[[isMaster m1]|err] answers IH]; intros m m' rest; cbn [waitMajority]; destruct (LessTS m ts) eqn:E; try done;
    try (intros [= <- <-]; split; [done|]; by split; [left|]).
  destruct isMaster; [|done]. cbn [negb]. intros Hw. destruct (IH _ _ _ Hw) as (H1 & H2 & H3). split; [done|]. split.
  - right. destruct H2 as [->|?]; [by left|by right].
  - intros x Hx. right. by apply H3.
Qed.

(** C33: the records that are fetched are the first of those of the cursor, in
    order, and each was written by a majority, as a primary has answered, before
    it is sent. *)
Theorem majority_fetch docs curErr answers majTS :
  let ops := (majFetch lookupTS docs curErr answers majTS).1 in
  (opData <$> ops) `prefix_of` docs /\
  Forall (fun op => lookupTS (opData op) = Some (opTS op) /\
    exists m, (m = majTS \/ Ok (true, m) ∈ answers) /\ LessTS m (opTS op) = false) ops.
Proof.
  cbv zeta. revert answers majTS. induction docs as [|doc docs IH]; intros answers majTS; cbn [majFetch]; [by split; [apply prefix_nil|constructor]|].
  assert (forall A (P : A -> Prop), [] `prefix_of` (doc :: docs) /\ Forall P []) as Hnil by (split; [apply prefix_nil|constructor]).
  unfold OplogFromRaw. destruct (lookupTS doc) as [ts|] eqn:El; [|apply Hnil].
  destruct (waitMajority answers majTS ts) as [[[m rest]|err]|] eqn:Ew; cbn [opTS]; rewrite ?Ew; [|apply Hnil|apply Hnil].
  destruct (waitMajority_ok _ _ _ _ _ Ew) as (H1 & H2 & H3). specialize (IH rest m) as [Hp Hf].
  destruct (majFetch lookupTS docs curErr rest m) as [ops err]. cbn [fst] in *. split; [destruct Hp as [k ->]; by exists k|].
  constructor; [split; [done|by exists m]|]. eapply Forall_impl; [exact Hf|]. cbn. intros op (Hl & m' & Hm & Hle). split; [done|].
  exists m'. split; [|done]. destruct Hm as [->|Hm]; [done|]. right. by apply H3.
Qed.
End Majority.

(** ** Examples *)

(** One backup, as one byte in its sentinel. *)
Module PurgeMem.
Import OplogMem.

Definition sentinel (m : MongoMeta) : Backup unit := mkBackup "" 1000000000 2000000000 None m false 0.
Definition first : Backup unit := sentinel (mkMongoMeta (mkNodeMeta (mkTimestamp 5 1) (mkTimestamp 5 1)) zeroNode).

#[global] Program Instance backupJson : Json (Backup unit) := {|
  Marshal b := if decide (b = first) then Ok [Byte.x01] else Err (External "unsupported value");
  Unmarshal c := if decide (c = [Byte.x01]) then Ok first else Err (External "unexpected end of JSON input")
|}.
Next Obligation. intros b c. cbn. repeat case_decide; intros [= <-]; by subst. Qed.

#[global] Program Instance deleter : ObjectDeleter (gmap string (list byte)) := {|
  DeleteObjects f keys := Ok (foldr delete f keys)
|}.
Next Obligation.
  intros f keys f' name. cbn. intros [= <-] Hn. induction keys as [|k keys IH]; [done|]. cbn.
  apply not_elem_of_cons in Hn as [H1 H2]. rewrite lookup_delete_ne by done. by apply IH.
Qed.

Definition backups : gmap string (list byte) := {[ "base_backup_stop_sentinel.json" := [Byte.x01] ]}.
Definition arch (s e : Z) : Archive := mkArchive (mkTimestamp s 1) (mkTimestamp e 1) "lz4" "oplog".
Definition oplogs : gmap string (list byte) :=
  {[ Filename (arch 1 3) := [Byte.x00]; Filename (arch 3 5) := [Byte.x00]; Filename (arch 5 7) := [Byte.x00] ]}.
Definition answers : Answers := mkAnswers (Ok (mkTimestamp 5 1, mkTimestamp 5 1)) 1000000000 (Ok (mkTimestamp 7 1, mkTimestamp 7 1)) 2000000000.
End PurgeMem.

(** The archive that ends after the backup began stays. *)
Lemma oplog_purge_keeps_witness : exists oplogs' : gmap string (list byte),
  HandleOplogPurge (sorter := InsertionSort) (U := unit) PurgeMem.backups PurgeMem.oplogs (Some 0) false = Ok oplogs' /\
  BackupMeta.ReadObject oplogs' (Filename (PurgeMem.arch 5 7)) = Ok [Byte.x00].
Proof.
  destruct (HandleOplogPurge (sorter := InsertionSort) (U := unit) PurgeMem.backups PurgeMem.oplogs (Some 0) false) as [oplogs'|err] eqn:E.
  2: { exfalso. apply (f_equal (fun r => match r with Ok _ => true | Err _ => false end)) in E. vm_compute in E. discriminate. }
  exists oplogs'. split; [reflexivity|].
  destruct (ListOplogArchives PurgeMem.oplogs) as [archives|err] eqn:El; [|exfalso; vm_compute in El; discriminate].
  assert (archives = [PurgeMem.arch 3 5; PurgeMem.arch 5 7; PurgeMem.arch 1 3]) as Ha by (vm_compute in El; injection El as <-; reflexivity).
  destruct (LoadBackups (sorter := InsertionSort) (U := unit) PurgeMem.backups) as [loaded|err] eqn:Eb; [|exfalso; vm_compute in Eb; discriminate].
  assert (loaded = [mkBackup "base" 1000000000 2000000000 None (MongoMeta_ PurgeMem.first) false 0]) as Hb by (vm_compute in Eb; injection Eb as <-; reflexivity).
  destruct (oplog_purge_keeps (sorter := InsertionSort) PurgeMem.backups PurgeMem.oplogs 0 false oplogs' archives loaded (PurgeMem.arch 5 7) E El Eb) as [->|(_ & _ & b & Hin & Hle & _)].
  - subst. by constructor.
  - subst. right. left.
  - reflexivity.
  - exfalso. subst. apply list_elem_of_singleton in Hin as ->. vm_compute in Hle. discriminate.
Defined.

Lemma backup_end_lost_witness : exists folder' : gmap string (list byte),
  UploadBackup OplogMem.compress "lz4" PurgeMem.answers None None ∅ [] "base" (NewBackupMongoMetaConstructor false) = (None, folder') /\
  exists b : Backup unit, BackupMeta.ReadObject folder' "base_backup_stop_sentinel.json" = Ok [Byte.x01] /\ MongoMeta_ b = MongoMeta_ PurgeMem.first /\
    ArchInBackup (PurgeMem.arch 6 7) b = false.
Proof.
  destruct (UploadBackup OplogMem.compress "lz4" PurgeMem.answers None None (∅ : gmap string (list byte)) [] "base"
    (NewBackupMongoMetaConstructor false)) as [err folder'] eqn:E.
  assert (err = None) as ->.
  { apply (f_equal fst) in E. vm_compute in E. exact (eq_sym E). }
  exists folder'. split; [reflexivity|].
  destruct (backup_end_lost OplogMem.compress "lz4" PurgeMem.answers None None ∅ [] "base" false folder' E)
    as (content & b & last & maj & Hr & Hu & Hw & Hm & Harch).
  injection Hw as <- <-. exists b. assert (content = [Byte.x01]) as ->.
  { cbn in Hu. destruct (decide (content = [Byte.x01])) as [->|]; [reflexivity|discriminate]. }
  split; [exact Hr|]. split; [exact Hm|]. apply Harch; reflexivity.
Defined.
