(* ===== verification/MongoOplog.v ===== *)
(** * MongoDB: applying records of the oplog

    [src/internal/databases/mongo/oplog]: what is done to a record before it is
    given to the database, the indexes that are made for it, transactions, and
    the appliers that write what they are given. The documents ([bson]), the
    buffer of transactions ([mongo-tools-common/txn]) and the database are
    parameters. *)

From stdpp Require Import gmap strings list.
From S2P Require Import Prelude GoStrings Timeline.
From S2P Require Import GoDecimal.
From S2P Require Import MongoModels.
Open Scope Z_scope.

(** ** Documents *)

(** The values the code looks into; [BOther]: any other one. *)
Inductive bsonValue :=
| BString (s : string)
| BDoc (d : list (string * bsonValue))
| BArray (l : list bsonValue)
| BOther (raw : list byte).

Notation bsonD := (list (string * bsonValue)).

(** [mongo-tools-common/db.Oplog]: the fields the code uses, and the others. *)
Record dbOplog := mkDbOplog {
  Operation : string;
  Namespace : string;
  Object_ : bsonD;
  UI : option (list byte);
  others : bsonD
}.

Definition zeroOplog : dbOplog := mkDbOplog "" "" [] None [].

(** [client.IndexDocument]; [None] is a nil map. *)
Record IndexDocument := mkIndexDocument { Options_ : option (gmap string bsonValue); Key_ : bsonD }.

(** An error of the database: [mongo.CommandError] or another one. *)
Inductive dbError := CommandError (code : Z) | OtherError (e : pgError).

Inductive applierError :=
| TypeAssertionError (etype key : string) (value : bsonValue)
| OpHandleError (op : dbOplog) (err : applierError)
| DbFailed (err : dbError)
| LibraryFailed (what : string) (err : pgError)
| FilterFailed (err : applierError)
| NoIndexes (op : dbOplog)
| WrongFormat (format : string)
| Panic (what : string).

(** ** [util.go] *)

Section Oplog.
(** [bson.Marshal] and [bson.Unmarshal] of documents and of nested records. *)
Variable marshalD : bsonD -> res pgError (list byte).
Variable unmarshalD : list byte -> res pgError bsonD.
Variable marshalNested : list dbOplog -> res pgError (list byte).
Variable unmarshalNested : list byte -> res pgError (list dbOplog).

Definition isApplyOpsCmd (cmd : bsonD) : bool := existsb (fun v => bool_decide (v.1 = "applyOps")) cmd.

Definition unwrapNestedApplyOps (doc : bsonD) : res applierError (list dbOplog) :=
  bs ← res_map_err (LibraryFailed "remarshal nested applyOps") (marshalD doc);
  res_map_err (LibraryFailed "unwrap nested applyOps") (unmarshalNested bs).

Definition wrapNestedApplyOps (ops : list dbOplog) : res applierError bsonD :=
  raw ← res_map_err (LibraryFailed "rewrap nested applyOps op") (marshalNested ops);
  res_map_err (LibraryFailed "reunmarshal nested applyOps op") (unmarshalD raw).

(** The loop of [newFilteredApplyOps], over the records it is to fill. *)
Fixpoint filterAll (filter : dbOplog -> res applierError dbOplog) (filtered : list dbOplog) : res applierError (list dbOplog) :=
  match filtered with
  | [] => Ok []
  | filtered_i :: filtered =>
      filtered_i ← filter filtered_i;
      filtered ← filterAll filter filtered;
      Ok (filtered_i :: filtered)
  end.

Definition newFilteredApplyOps (filter : dbOplog -> res applierError dbOplog) (cmd : bsonD) : res applierError bsonD :=
  ops ← unwrapNestedApplyOps cmd;
  filtered ← filterAll filter (replicate (length ops) zeroOplog);
  wrapNestedApplyOps filtered.

(** The recursion of [filterUUIDs] is on the records that are made anew, which
    have no nested ones: two levels are enough. *)
Fixpoint filterUUIDsFuel (fuel : nat) (op : dbOplog) : res applierError dbOplog :=
  match fuel with
  | O => Err (Panic "fuel")
  | S fuel =>
      let op := mkDbOplog (Operation op) (Namespace op) (Object_ op) None (others op) in
      if bool_decide (Operation op = "c") && isApplyOpsCmd (Object_ op) then
        filtered ← newFilteredApplyOps (filterUUIDsFuel fuel) (Object_ op);
        Ok (mkDbOplog (Operation op) (Namespace op) filtered (UI op) (others op))
      else Ok op
  end.

Definition filterUUIDs (op : dbOplog) : res applierError dbOplog := filterUUIDsFuel 2 op.

(** ** [applier.go]: indexes *)

Fixpoint createLoop (object : bsonD) (collName : string) (indexKey : bsonD) (options : gmap string bsonValue)
    : res applierError (string * IndexDocument) :=
  match object with
  | [] => Ok (collName, mkIndexDocument (Some options) indexKey)
  | (key, value) :: object =>
      if bool_decide (key = "createIndexes") then
        match value with
        | BString collName => createLoop object collName indexKey options
        | _ => Err (TypeAssertionError "string" "createIndexes" value)
        end
      else if bool_decide (key = "key") then
        match value with
        | BDoc d => createLoop object collName d options
        | _ => Err (TypeAssertionError "bson.D" "key" value)
        end
      else createLoop object collName indexKey (<[key := value]> options)
  end.

Definition indexSpecsFromCreateIndexes (op : dbOplog) : res applierError (string * IndexDocument) :=
  createLoop (Object_ op) "" [] ∅.

Fixpoint commitName (object : bsonD) (collName : string) : res applierError string :=
  match object with
  | [] => Ok collName
  | (key, value) :: object =>
      if bool_decide (key = "commitIndexBuild") then
        match value with
        | BString collName => commitName object collName
        | _ => Err (TypeAssertionError "string" "commitIndexBuild" value)
        end
      else commitName object collName
  end.

(** The innermost loop: its index [i], not that of the index it is in, is the
    one of [indexSpecs] that is changed. [elemE] is the last element seen. *)
Fixpoint elementsLoop (elements : bsonD) (i : nat) (indexSpecs : list IndexDocument) (elemE : bsonValue)
    : res applierError (list IndexDocument * bsonValue) :=
  match elements with
  | [] => Ok (indexSpecs, elemE)
  | (key, value) :: elements =>
      match indexSpecs !! i with
      | None => Err (Panic "index out of range")
      | Some spec =>
          if bool_decide (key = "key") then
            match value with
            | BDoc d => elementsLoop elements (i + 1) (<[i := mkIndexDocument (Options_ spec) d]> indexSpecs) value
            | _ => Err (TypeAssertionError "bson.D" "key" value)
            end
          else match Options_ spec with
               | None => Err (Panic "assignment to entry in nil map")
               | Some options =>
                   elementsLoop elements (i + 1) (<[i := mkIndexDocument (Some (<[key := value]> options)) (Key_ spec)]> indexSpecs) value
               end
      end
  end.

Fixpoint indexesLoop (indexes : list bsonValue) (i : nat) (indexSpecs : list IndexDocument) (elemE : bsonValue)
    : res applierError (list IndexDocument) :=
  match indexes with
  | [] => Ok indexSpecs
  | index :: indexes =>
      let indexSpecs := alter (fun spec => mkIndexDocument (Some ∅) (Key_ spec)) i indexSpecs in
      match index with
      | BDoc elements => '(indexSpecs, elemE) ← elementsLoop elements 0 indexSpecs elemE; indexesLoop indexes (i + 1) indexSpecs elemE
      | _ => Err (TypeAssertionError "bson.D" ("indexes[" +s fmtDec (Z.of_nat i) +s "]") elemE)
      end
  end.

Fixpoint findIndexes (object : bsonD) : option bsonValue :=
  match object with
  | [] => None
  | (key, value) :: object => if bool_decide (key = "indexes") then Some value else findIndexes object
  end.

Definition indexSpecFromCommitIndexBuilds (op : dbOplog) : res applierError (string * list IndexDocument) :=
  collName ← commitName (Object_ op) "";
  match findIndexes (Object_ op) with
  | None => Err (NoIndexes op)
  | Some (BArray indexes) =>
      indexSpecs ← indexesLoop indexes 0 (replicate (length indexes) (mkIndexDocument None [])) (BArray indexes);
      Ok (collName, indexSpecs)
  | Some value => Err (TypeAssertionError "bson.A" "indexes" value)
  end.

(** ** [DBApplier] *)

(** [client.MongoDriver], with the state of the database, and the buffer of
    transactions. *)
Context {Db T M : Type}.
Variable ApplyOp : Db -> dbOplog -> option dbError * Db.
Variable CreateIndexes : Db -> string -> string -> list IndexDocument -> option dbError * Db.
Variable SplitNamespace : string -> string * string.
Variable unmarshalOplog : list byte -> res pgError dbOplog.
Variable NewMeta : dbOplog -> res pgError M.
Variables IsTxn IsAbort IsCommit : M -> bool.
Variable PurgeTxn : T -> M -> res pgError T.
Variable AddOp : T -> M -> dbOplog -> res pgError T.
Variable GetTxnStream : T -> M -> list dbOplog * option pgError.

Record DBApplier := mkDBApplier { txnBuffer : T; preserveUUID : bool; applyIgnoreErrorCodes : gmap string (list Z) }.

Definition shouldSkip (op ns : string) : bool := bool_decide (op = "n") || HasPrefix ns "config.".

Definition shouldIgnore (ap : DBApplier) (op : string) (err : dbError) : bool :=
  match err with
  | OtherError _ => false
  | CommandError code =>
      match applyIgnoreErrorCodes ap !! op with
      | None => false
      | Some ignoreErrorCodes => existsb (fun c => code =? c) ignoreErrorCodes
      end
  end.

Definition dbResult (r : option dbError * Db) : option applierError * Db := (DbFailed <$> r.1, r.2).

Definition handleNonTxnOp (ap : DBApplier) (op : dbOplog) (s : Db) : option applierError * Db :=
  match (if preserveUUID ap then Ok op else res_map_err FilterFailed (filterUUIDs op)) with
  | Err err => (Some err, s)
  | Ok op =>
      let db := match Operation op, Object_ op with
                | "c", [] => None
                | "c", (key, _) :: _ => Some key
                | _, _ => Some ""
                end in
      match db with
      | None => (Some (Panic "index out of range"), s)
      | Some key =>
          if bool_decide (key = "commitIndexBuild") then
            match indexSpecFromCommitIndexBuilds op with
            | Err err => (Some (OpHandleError op err), s)
            | Ok (collName, indexes) => dbResult (CreateIndexes s (SplitNamespace (Namespace op)).1 collName indexes)
            end
          else if bool_decide (key = "createIndexes") then
            match indexSpecsFromCreateIndexes op with
            | Err err => (Some (OpHandleError op err), s)
            | Ok (collName, indexes) => dbResult (CreateIndexes s (SplitNamespace (Namespace op)).1 collName [indexes])
            end
          else match ApplyOp s op with
               | (Some err, s) => if shouldIgnore ap (Operation op) err then (None, s) else (Some (OpHandleError op (DbFailed err)), s)
               | (None, s) => (None, s)
               end
      end
  end.

(** [applyTxn]: the records of the stream, then its error. *)
Fixpoint applyTxn (ap : DBApplier) (ops : list dbOplog) (err : option pgError) (s : Db) : option applierError * Db :=
  match ops with
  | [] => (LibraryFailed "" <$> err, s)
  | op :: ops =>
      match handleNonTxnOp ap op s with
      | (Some err, s) => (Some err, s)
      | (None, s) => applyTxn ap ops err s
      end
  end.

Definition withBuffer (ap : DBApplier) (b : T) : DBApplier := mkDBApplier b (preserveUUID ap) (applyIgnoreErrorCodes ap).

Definition handleTxnOp (ap : DBApplier) (meta : M) (op : dbOplog) (s : Db) : option applierError * DBApplier * Db :=
  match (if IsAbort meta then PurgeTxn (txnBuffer ap) meta else Ok (txnBuffer ap)) with
  | Err err => (Some (LibraryFailed "can not clean txn buffer after rollback cmd" err), ap, s)
  | Ok b =>
      let ap := withBuffer ap b in
      match AddOp (txnBuffer ap) meta op with
      | Err err => (Some (LibraryFailed "can not append command to txn buffer" err), ap, s)
      | Ok b =>
          let ap := withBuffer ap b in
          if negb (IsCommit meta) then (None, ap, s)
          else
            let '(ops, err) := GetTxnStream (txnBuffer ap) meta in
            match applyTxn ap ops err s with
            | (Some err, s) => (Some err, ap, s)
            | (None, s) =>
                match PurgeTxn (txnBuffer ap) meta with
                | Err err => (Some (LibraryFailed "txn buffer failed to purge" err), ap, s)
                | Ok b => (None, withBuffer ap b, s)
                end
            end
      end
  end.

Definition Apply (ap : DBApplier) (opr : Oplog) (s : Db) : option applierError * DBApplier * Db :=
  match unmarshalOplog (opData opr) with
  | Err err => (Some (LibraryFailed "can not unmarshal oplog entry" err), ap, s)
  | Ok op =>
      if shouldSkip (Operation op) (Namespace op) then (None, ap, s)
      else match NewMeta op with
           | Err err => (Some (LibraryFailed "can not extract op metadata" err), ap, s)
           | Ok meta =>
               if IsTxn meta then handleTxnOp ap meta op s
               else let '(err, s) := handleNonTxnOp ap op s in (err, ap, s)
           end
  end.

(** ** The appliers that write *)

(** [io.WriteCloser] *)
Context {W : Type}.
Variable Write : W -> list byte -> option pgError * W.
Variable CloseWriter : W -> option pgError * W.
Variable MarshalExtJSON : dbOplog -> res pgError (list byte).
Variable marshalOplog : dbOplog -> res pgError (list byte).

Definition jsonBegin : list byte := [Byte.x5b; Byte.x0a].
Definition jsonDelimiter : list byte := [Byte.x2c; Byte.x0a].
Definition jsonEnd : list byte := [Byte.x0a; Byte.x5d; Byte.x0a].

Record JSONApplier := mkJSONApplier { writer : W; started : bool }.

Definition NewJSONApplier (w : W) : JSONApplier := mkJSONApplier w false.

Definition JSONApply (ap : JSONApplier) (opr : Oplog) : option applierError * JSONApplier :=
  match unmarshalOplog (opData opr) with
  | Err err => (Some (LibraryFailed "can not unmarshal oplog entry" err), ap)
  | Ok op =>
      match MarshalExtJSON op with
      | Err err => (Some (LibraryFailed "can not convert to json" err), ap)
      | Ok jsonData =>
          match (if negb (started ap) then Write (writer ap) jsonBegin else Write (writer ap) jsonDelimiter) with
          | (Some err, w) => (Some (LibraryFailed (if started ap then "can not write delimiter" else "can not write begin mark") err), mkJSONApplier w (started ap))
          | (None, w) =>
              match Write w jsonData with
              | (Some err, w) => (Some (LibraryFailed "can not write json data" err), mkJSONApplier w true)
              | (None, w) => (None, mkJSONApplier w true)
              end
          end
      end
  end.

Definition JSONClose (ap : JSONApplier) : option applierError * W :=
  match (if started ap then Write (writer ap) jsonEnd else (None, writer ap)) with
  | (Some err, w) => (Some (LibraryFailed "can not write end mark" err), w)
  | (None, w) => let '(err, w) := CloseWriter w in (LibraryFailed "" <$> err, w)
  end.

Definition BSONApply (w : W) (opr : Oplog) : option applierError * W :=
  match unmarshalOplog (opData opr) with
  | Err err => (Some (LibraryFailed "can not unmarshal oplog entry" err), w)
  | Ok op =>
      match marshalOplog op with
      | Err err => (Some (LibraryFailed "can not marshal oplog entry" err), w)
      | Ok bsonBytes => let '(err, w) := Write w bsonBytes in (LibraryFailed "can not write bson data" <$> err, w)
      end
  end.

Definition BSONRawApply (w : W) (opr : Oplog) : option applierError * W :=
  let '(err, w) := Write w (opData opr) in (LibraryFailed "can not write raw bson data" <$> err, w).

(** [NewWriteApplier] *)
Inductive WriteApplier := JSON (ap : JSONApplier) | BSON (w : W) | BSONRaw (w : W).

Definition NewWriteApplier (format : string) (wc : W) : res applierError WriteApplier :=
  if bool_decide (format = "json") then Ok (JSON (NewJSONApplier wc))
  else if bool_decide (format = "bson") then Ok (BSON wc)
  else if bool_decide (format = "bson-raw") then Ok (BSONRaw wc)
  else Err (WrongFormat format).

(** [Applier]: [Apply] and [Close] of the one that was made. *)
Definition WriteApply (ap : WriteApplier) (opr : Oplog) : option applierError * WriteApplier :=
  match ap with
  | JSON ap => let '(err, ap) := JSONApply ap opr in (err, JSON ap)
  | BSON w => let '(err, w) := BSONApply w opr in (err, BSON w)
  | BSONRaw w => let '(err, w) := BSONRawApply w opr in (err, BSONRaw w)
  end.

Definition WriteClose (ap : WriteApplier) : option applierError * W :=
  match ap with
  | JSON ap => JSONClose ap
  | BSON w | BSONRaw w => let '(err, w) := CloseWriter w in (LibraryFailed "" <$> err, w)
  end.

(** ** Nested records *)

Lemma filterAll_zero fuel n : filterAll (filterUUIDsFuel (S fuel)) (replicate n zeroOplog) = Ok (replicate n zeroOplog).
Proof. induction n as [|n IH]; [done|]. cbn [replicate filterAll]. rewrite IH. done. Qed.

Lemma filterUUIDs_nested op ops doc : Operation op = "c" -> isApplyOpsCmd (Object_ op) = true ->
  unwrapNestedApplyOps (Object_ op) = Ok ops -> wrapNestedApplyOps (replicate (length ops) zeroOplog) = Ok doc ->
  filterUUIDs op = Ok (mkDbOplog "c" (Namespace op) doc None (others op)).
Proof.
  intros Hc Ha Hu Hw. unfold filterUUIDs. change 2%nat with (S 1). generalize (filterAll_zero 0 (length ops)).
  generalize 1%nat. intros n Hn. cbn [filterUUIDsFuel Operation Object_ Namespace UI others].
  rewrite Hc, Ha, bool_decide_eq_true_2 by done. cbn [andb]. unfold newFilteredApplyOps. rewrite Hu. cbn [mbind res_bind].
  rewrite Hn. cbn [mbind res_bind]. by rewrite Hw.
Qed.

(** C38: a command that applies nested records reaches the database with empty
    records in their place, whatever they are, unless UUIDs are preserved: the
    replay of the oplog does not preserve them. *)
Theorem nested_ops_lost (ap : DBApplier) op ops doc s : preserveUUID ap = false -> Operation op = "c" -> isApplyOpsCmd (Object_ op) = true ->
  unwrapNestedApplyOps (Object_ op) = Ok ops -> wrapNestedApplyOps (replicate (length ops) zeroOplog) = Ok doc ->
  head (fst <$> doc) = Some "applyOps" ->
  handleNonTxnOp ap op s =
  let sent := mkDbOplog "c" (Namespace op) doc None (others op) in
  match ApplyOp s sent with
  | (Some err, s') => if shouldIgnore ap "c" err then (None, s') else (Some (OpHandleError sent (DbFailed err)), s')
  | (None, s') => (None, s')
  end.
Proof.
  intros Hp Hc Ha Hu Hw Hd. unfold handleNonTxnOp. rewrite Hp, (filterUUIDs_nested op ops doc) by done. cbn [res_map_err Operation Object_ Namespace].
  destruct doc as [|[key v] doc]; [done|]. injection Hd as ->. done.
Qed.

(** ** Indexes *)

(** One index with more than one element: the second is written to an index
    that is not there. *)
Lemma commit_index_panics op collName k0 v0 e1 elements : commitName (Object_ op) "" = Ok collName ->
  findIndexes (Object_ op) = Some (BArray [BDoc ((k0, v0) :: e1 :: elements)]) -> k0 <> "key" ->
  indexSpecFromCommitIndexBuilds op = Err (Panic "index out of range").
Proof.
  intros Hn Hf Hk. unfold indexSpecFromCommitIndexBuilds. rewrite Hn. cbn [mbind res_bind]. rewrite Hf. cbn.
  rewrite bool_decide_eq_false_2 by done. cbn. by destruct e1.
Qed.

(** ** What is written *)

(** [GenericApplier] with one that writes. *)
Fixpoint WriteAll (ap : WriteApplier) (oprs : list Oplog) : option applierError * WriteApplier :=
  match oprs with
  | [] => (None, ap)
  | opr :: oprs => match WriteApply ap opr with (Some err, ap) => (Some err, ap) | (None, ap) => WriteAll ap oprs end
  end.

(** One document after another, as one JSON array. *)
Definition jsonArray (docs : list (list byte)) : list byte :=
  match docs with [] => [] | doc :: docs => jsonBegin ++ doc ++ mjoin ((fun d => jsonDelimiter ++ d) <$> docs) ++ jsonEnd end.

Context (content : W -> list byte).
Definition writes : Prop := (forall w c, exists w', Write w c = (None, w') /\ content w' = content w ++ c) /\ (forall w, CloseWriter w = (None, w)).
Definition hasJSON (opr : Oplog) (doc : list byte) : Prop := exists op, unmarshalOplog (opData opr) = Ok op /\ MarshalExtJSON op = Ok doc.

Lemma json_started oprs docs : writes -> Forall2 hasJSON oprs docs -> forall w, exists w',
  WriteAll (JSON (mkJSONApplier w true)) oprs = (None, JSON (mkJSONApplier w' true)) /\
  content w' = content w ++ mjoin ((fun d => jsonDelimiter ++ d) <$> docs).
Proof.
  intros [Hw Hc]. induction 1 as [|opr doc oprs docs (op & Hu & Hm) _ IH]; intros w; [exists w; by rewrite app_nil_r|].
  cbn [WriteAll WriteApply]. unfold JSONApply. rewrite Hu, Hm. cbn [started negb writer].
  destruct (Hw w jsonDelimiter) as (w1 & -> & H1), (Hw w1 doc) as (w2 & -> & H2). destruct (IH w2) as (w' & -> & H').
  exists w'. split; [done|]. rewrite H', H2, H1. change (mjoin ((fun d => jsonDelimiter ++ d) <$> doc :: docs)) with
    ((jsonDelimiter ++ doc) ++ mjoin ((fun d => jsonDelimiter ++ d) <$> docs)). by rewrite <- !app_assoc.
Qed.

(** What is written as JSON when every record is written is one array of
    the records in order, and nothing when there are none. *)
Theorem json_output oprs docs w : writes -> Forall2 hasJSON oprs docs -> exists ap ap' w',
  NewWriteApplier "json" w = Ok ap /\ WriteAll ap oprs = (None, ap') /\ WriteClose ap' = (None, w') /\
  content w' = content w ++ jsonArray docs.
Proof.
  intros [Hw Hc] H. eexists. destruct H as [|opr doc oprs docs (op & Hu & Hm) H].
  - eexists _, w. split; [reflexivity|]. split; [reflexivity|]. cbn. rewrite Hc. cbn. by rewrite app_nil_r.
  - destruct (Hw w jsonBegin) as (w1 & E1 & H1), (Hw w1 doc) as (w2 & E2 & H2).
    destruct (json_started oprs docs (conj Hw Hc) H w2) as (w3 & E3 & H3), (Hw w3 jsonEnd) as (w4 & E4 & H4).
    exists (JSON (mkJSONApplier w3 true)), w4. split; [reflexivity|]. split; [|split].
    + cbn [WriteAll WriteApply]. unfold JSONApply. rewrite Hu, Hm. cbn [started negb writer NewJSONApplier]. by rewrite E1, E2, E3.
    + unfold WriteClose, JSONClose. cbn [started writer]. by rewrite E4, Hc.
    + rewrite H4, H3, H2, H1. cbn [jsonArray]. by rewrite <- !app_assoc.
Qed.
End Oplog.

(** ** Examples *)

(** A command with one nested record, as one byte; a document is the number of
    its records, and the database keeps the commands it is given. *)
Module ApplyMem.
Definition nested : dbOplog := mkDbOplog "i" "db.users" [("_id", BString "1")] None [].
Definition command : dbOplog := mkDbOplog "c" "admin.$cmd" [("applyOps", BOther [Byte.x01])] (Some [Byte.x07]) [].
Definition marshalD (d : bsonD) : res pgError (list byte) := Ok [Byte.x01].
Definition unmarshalNested (c : list byte) : res pgError (list dbOplog) := Ok [nested].
Definition marshalNested (ops : list dbOplog) : res pgError (list byte) :=
  Ok (if decide ((Operation <$> ops) = [""]) then [Byte.x00] else [Byte.x01]).
Definition unmarshalD (c : list byte) : res pgError bsonD := Ok [("applyOps", BOther c)].
Definition ApplyOp (s : list dbOplog) (op : dbOplog) : option dbError * list dbOplog := (None, s ++ [op]).
Definition CreateIndexes (s : list dbOplog) (db coll : string) (l : list IndexDocument) : option dbError * list dbOplog := (None, s).
Definition SplitNamespace (ns : string) : string * string := (ns, "").
Definition ap : DBApplier (T := unit) := mkDBApplier tt false ∅.
End ApplyMem.

Lemma nested_ops_lost_witness :
  handleNonTxnOp ApplyMem.marshalD ApplyMem.unmarshalD ApplyMem.marshalNested ApplyMem.unmarshalNested ApplyMem.ApplyOp ApplyMem.CreateIndexes
    ApplyMem.SplitNamespace ApplyMem.ap ApplyMem.command [] =
  (None, [mkDbOplog "c" "admin.$cmd" [("applyOps", BOther [Byte.x00])] None []]).
Proof.
  exact (nested_ops_lost ApplyMem.marshalD ApplyMem.unmarshalD ApplyMem.marshalNested ApplyMem.unmarshalNested ApplyMem.ApplyOp ApplyMem.CreateIndexes
    ApplyMem.SplitNamespace ApplyMem.ap ApplyMem.command [ApplyMem.nested] [("applyOps", BOther [Byte.x00])] [] eq_refl eq_refl eq_refl eq_refl eq_refl eq_refl).
Defined.

Lemma json_output_witness : exists ap ap' w',
  NewWriteApplier "json" [] = Ok ap /\
  WriteAll (fun _ => Ok ApplyMem.nested) (fun w c => (None, w ++ c)) (fun _ => Ok [Byte.x31]) (fun _ => Ok []) ap
    [mkOplog zeroTS []; mkOplog zeroTS []] = (None, ap') /\
  WriteClose (fun w c => (None, w ++ c)) (fun w => (None, w)) ap' = (None, w') /\
  w' = [Byte.x5b; Byte.x0a; Byte.x31; Byte.x2c; Byte.x0a; Byte.x31; Byte.x0a; Byte.x5d; Byte.x0a].
Proof.
  apply (json_output (W := list byte) (fun _ => Ok ApplyMem.nested) (fun w c => (None, w ++ c)) (fun w => (None, w)) (fun _ => Ok [Byte.x31]) (fun _ => Ok [])
    id [mkOplog zeroTS []; mkOplog zeroTS []] [[Byte.x31]; [Byte.x31]] []).
  - split; [intros w c; exists (w ++ c); split; reflexivity|reflexivity].
  - repeat constructor; by exists ApplyMem.nested.
Defined.
