(* ===== verification/BlobIndex.v ===== *)
(** * SQL Server: the index of a blob

    [src/internal/databases/sqlserver/blob/blob.go]: a blob is a list of blocks,
    each kept in an object of the storage, under revisions that are uploaded and
    then committed. The blocks are shared between the lists and the cache of an
    index: they are cells of a heap, and what Go holds as a pointer is a position
    in it. The methods take the lock of the index, so each of them is one step.
    The cache of what is read ([GetCachedReader]), which the server does not use,
    is not modelled. *)

From stdpp Require Import gmap strings list.
From S2P Require Import Prelude GoStrings GoSort.
From S2P Require Import GoDecimal.
Open Scope Z_scope.

Definition IndexFileName : string := "__blob_index.json".

(** ** [xml.go]: the lists of a request and of an answer *)

Definition BlockLatest : string := "Latest".
Definition BlockCommitted : string := "Committed".
Definition BlockUncommitted : string := "Uncommitted".
Definition BlockAll : string := "All".

Record XBlockIn := mkXBlockIn { xID : string; Mode : string }.
Record XBlockOut := mkXBlockOut { xName : string; xSize : Z }.
Record XBlockListOut := mkXBlockListOut { CommittedBlocks : list XBlockOut; UncommittedBlocks : list XBlockOut }.

(** ** [blob.go] *)

Record Block := mkBlock {
  ID : string;
  Offset : Z;
  UploadedSize : Z;
  UploadedRev : Z;
  CommittedSize : Z;
  CommittedRev : Z
}.

#[export] Instance Block_eq_dec : EqDecision Block.
Proof. solve_decision. Defined.

Definition zeroBlock : Block := mkBlock "" 0 0 0 0 0.

Record Index := mkIndex {
  Size : Z;
  heap : list Block;
  Blocks : list nat;
  icache : gmap string nat;
  ocache : list nat;
  needSave : bool
}.

Record Section_ := mkSection { Path : string; sOffset : Z; Limit : Z; BlockSize : Z }.

Inductive blockError :=
| ErrNotUploaded (id : string)
| ErrNotCommitted (id : string)
| ErrMode (mode : string).

Definition NewIndex : Index := mkIndex 0 [] [] ∅ [] false.

(** What a pointer points to. *)
Definition at_ (h : list Block) (l : nat) : Block := default zeroBlock (h !! l).

(** The name of the object of a revision. *)
Definition objectName (id : string) (rev : Z) : string := id +s "." +s fmtDec rev.

Definition set_heap (h : list Block) (idx : Index) : Index :=
  mkIndex (Size idx) h (Blocks idx) (icache idx) (ocache idx) (needSave idx).

Section Index.
Context {sorter : SortSlice}.

Definition buildCache (idx : Index) : Index :=
  let ocache := List.filter (fun l => 0 <? CommittedRev (at_ (heap idx) l)) (Blocks idx) in
  let icache := foldl (fun m l => <[ID (at_ (heap idx) l) := l]> m) ∅ (Blocks idx) in
  mkIndex (Size idx) (heap idx) (Blocks idx) icache
    (Slice (fun i j => Offset (at_ (heap idx) i) <? Offset (at_ (heap idx) j)) ocache) (needSave idx).

(** [Load], of the size and the blocks that were decoded; [Save] encodes
    [saved]. *)
Definition loaded (size : Z) (blocks : list Block) : Index :=
  buildCache (mkIndex size blocks (seq 0 (length blocks)) ∅ [] false).

Definition saved (idx : Index) : Z * list Block := (Size idx, at_ (heap idx) <$> Blocks idx).

Definition SaveDelayed (idx : Index) : Index :=
  mkIndex (Size idx) (heap idx) (Blocks idx) (icache idx) (ocache idx) true.

Definition PutBlock (id : string) (size : Z) (idx : Index) : string * Index :=
  match icache idx !! id with
  | None =>
      let l := length (heap idx) in
      let block := mkBlock id 0 size 1 0 0 in
      (objectName id 1, mkIndex (Size idx) (heap idx ++ [block]) (Blocks idx ++ [l]) (<[id := l]> (icache idx)) (ocache idx) (needSave idx))
  | Some l =>
      let b := at_ (heap idx) l in
      let block := mkBlock (ID b) (Offset b) size (u64 (CommittedRev b + 1)) (CommittedSize b) (CommittedRev b) in
      (objectName (ID b) (UploadedRev block), set_heap (<[l := block]> (heap idx)) idx)
  end.

(** A block whose upload is committed. *)
Definition commit (b : Block) : Block := mkBlock (ID b) (Offset b) 0 0 (UploadedSize b) (UploadedRev b).

(** What [PutBlockList] does to one block of the list: the block, and the
    objects that are garbage. [ErrMode] is the panic of another mode. *)
Definition putMode (xb : XBlockIn) (b : Block) : blockError + (Block * list string) :=
  if bool_decide (Mode xb = BlockCommitted) then
    if CommittedRev b =? 0 then inl (ErrNotCommitted (xID xb))
    else if negb (UploadedRev b =? 0) then
      let b := mkBlock (ID b) (Offset b) 0 0 (CommittedSize b) (CommittedRev b) in
      inr (b, [objectName (xID xb) (UploadedRev b)])
    else inr (b, [])
  else if bool_decide (Mode xb = BlockUncommitted) then
    if UploadedRev b =? 0 then inl (ErrNotCommitted (xID xb))
    else inr (commit b, if negb (CommittedRev b =? 0) then [objectName (xID xb) (CommittedRev b)] else [])
  else if bool_decide (Mode xb = BlockLatest) then
    if negb (UploadedRev b =? 0) then
      inr (commit b, if negb (CommittedRev b =? 0) then [objectName (xID xb) (CommittedRev b)] else [])
    else inr (b, [])
  else inl (ErrMode (Mode xb)).

(** The loop of [PutBlockList]: an error leaves the blocks as they are then. *)
Fixpoint putLoop (xblocks : list XBlockIn) (cache : gmap string nat) (h : list Block) (newBlocks : list nat) (garbage : list string) (size : Z)
    : list Block * (blockError + (list nat * list string * Z)) :=
  match xblocks with
  | [] => (h, inr (newBlocks, garbage, size))
  | xb :: xblocks =>
      match cache !! xID xb with
      | None => (h, inl (ErrNotUploaded (xID xb)))
      | Some l =>
          let b := at_ h l in
          let b := mkBlock (ID b) size (UploadedSize b) (UploadedRev b) (CommittedSize b) (CommittedRev b) in
          let newBlocks := newBlocks ++ [l] in
          match putMode xb b with
          | inl err => (<[l := b]> h, inl err)
          | inr (b, names) => putLoop xblocks cache (<[l := b]> h) newBlocks (garbage ++ names) (u64 (size + CommittedSize b))
          end
      end
  end.

(** The objects of a block. *)
Definition objectsOf (b : Block) : list string :=
  (if negb (UploadedRev b =? 0) then [objectName (ID b) (UploadedRev b)] else []) ++
  (if negb (CommittedRev b =? 0) then [objectName (ID b) (CommittedRev b)] else []).

Definition PutBlockList (xblocklist : list XBlockIn) (idx : Index) : (blockError + list string) * Index :=
  match putLoop xblocklist (icache idx) (heap idx) [] [] 0 with
  | (h, inl err) => (inl err, set_heap h idx)
  | (h, inr (newBlocks, garbage, size)) =>
      let idx' := buildCache (mkIndex size h newBlocks (icache idx) (ocache idx) (needSave idx)) in
      let dropped := List.filter (fun l => bool_decide (icache idx' !! ID (at_ h l) = None)) (Blocks idx) in
      (inr (garbage ++ mjoin ((fun l => objectsOf (at_ h l)) <$> dropped)), idx')
  end.

Definition GetBlockList (ltype : string) (idx : Index) : XBlockListOut :=
  let h := heap idx in
  mkXBlockListOut
    (if bool_decide (ltype = BlockCommitted) || bool_decide (ltype = BlockAll) then
       (fun l => mkXBlockOut (ID (at_ h l)) (CommittedSize (at_ h l))) <$> ocache idx
     else [])
    (if bool_decide (ltype = BlockUncommitted) || bool_decide (ltype = BlockAll) then
       Slice (fun i j => String.ltb (xName i) (xName j))
         ((fun l => mkXBlockOut (ID (at_ h l)) (UploadedSize (at_ h l))) <$> List.filter (fun l => 0 <? UploadedRev (at_ h l)) (Blocks idx))
     else []).

(** The size of the index stays. *)
Definition Clear (idx : Index) : list string * Index :=
  (mjoin ((fun l => objectsOf (at_ (heap idx) l)) <$> Blocks idx),
   buildCache (mkIndex (Size idx) (heap idx) [] (icache idx) (ocache idx) (needSave idx))).

(** The binary search; the interval shrinks in each turn. *)
Fixpoint search (fuel : nat) (blocks : list Block) (rangeMin l r : Z) : Z :=
  match fuel with
  | O => l
  | S fuel =>
      if l <? r then
        let m := (r + l) / 2 in
        let block := at_ blocks (Z.to_nat m) in
        if u64 (Offset block + CommittedSize block - 1) <? rangeMin then search fuel blocks rangeMin (m + 1) r
        else if rangeMin <? Offset block then search fuel blocks rangeMin l (m - 1)
        else m
      else l
  end.

(** The scan of the next blocks. *)
Fixpoint scan (blocks : list Block) (rangeMin rangeMax : Z) : list Section_ :=
  match blocks with
  | [] => []
  | block :: blocks =>
      if rangeMax <? Offset block then []
      else
        let offset := if Offset block <? rangeMin then u64 (rangeMin - Offset block) else 0 in
        let limit := if rangeMax <? u64 (Offset block + CommittedSize block - 1) then u64 (rangeMax - Offset block + 1) else CommittedSize block in
        mkSection (objectName (ID block) (CommittedRev block)) offset (u64 (limit - offset)) (CommittedSize block) :: scan blocks rangeMin rangeMax
  end.

Definition GetSections (rangeMin rangeMax : Z) (idx : Index) : list Section_ :=
  let blocks := at_ (heap idx) <$> ocache idx in
  let l := search (length blocks) blocks rangeMin 0 (Z.of_nat (length blocks) - 1) in
  scan (drop (Z.to_nat l) blocks) rangeMin rangeMax.
End Index.
