(* ===== verification/BlobServer.v ===== *)
(** * SQL Server: the server of blobs

    [src/internal/databases/sqlserver/blob]: [server.go] with [util.go], and of
    [xml.go] the lists of blocks. A handler maps a request and the state of the
    server to a response and the new state; [None] is a panic, which ends the
    request. Requests are served one after the other, and a body is read to its
    end. The storage, [GetSubFolder]
    of its folders, the tokens of [encoding/xml], the clock and [uuid] are
    parameters; setting the server up, and the lock of its process, are not
    modelled. *)

From stdpp Require Import gmap strings list.
From S2P Require Import Prelude GoStrings GoPath GoSort Timeline BackupMeta.
From S2P Require Import GoDecimal.
From S2P Require Import BlobIndex.
Open Scope Z_scope.

(** ** Strings of ASCII letters *)

Definition code (c : Ascii.ascii) : Z := Z.of_nat (Ascii.nat_of_ascii c).
Definition ofCode (z : Z) : Ascii.ascii := Ascii.ascii_of_nat (Z.to_nat z).
Definition isUpper (c : Ascii.ascii) : bool := (65 <=? code c) && (code c <=? 90).
Definition isLower (c : Ascii.ascii) : bool := (97 <=? code c) && (code c <=? 122).
Definition isSpace (c : Ascii.ascii) : bool := (code c =? 32) || ((9 <=? code c) && (code c <=? 13)).

(** [strings.ToLower] *)
Fixpoint ToLower (s : string) : string :=
  match s with "" => "" | String c s => String (if isUpper c then ofCode (code c + 32) else c) (ToLower s) end.

(** [strings.Title]: the first letter of each word. *)
Fixpoint titleFrom (start : bool) (s : string) : string :=
  match s with
  | "" => ""
  | String c s => String (if start && isLower c then ofCode (code c - 32) else c) (titleFrom (isSpace c) s)
  end.
Definition Title (s : string) : string := titleFrom true s.

(** [strings.TrimSpace] *)
Fixpoint trimLeftSpace (s : string) : string :=
  match s with "" => "" | String c s' => if isSpace c then trimLeftSpace s' else s end.
Fixpoint trimRightSpace (s : string) : string :=
  match s with
  | "" => ""
  | String c s => match trimRightSpace s with "" => if isSpace c then "" else String c "" | s => String c s end
  end.
Definition TrimSpace (s : string) : string := trimRightSpace (trimLeftSpace s).

(** [strconv.Atoi] *)
Definition Atoi (s : string) : res NumError Z :=
  let '(neg, digits) := match s with
    | String c s' => if bool_decide (code c = 45) then (true, s') else if bool_decide (code c = 43) then (false, s') else (false, s)
    | "" => (false, s)
    end in
  match ParseUint digits 10 64 with
  | Err err => Err err
  | Ok n => if (if neg then 2 ^ 63 <? n else 2 ^ 63 <=? n) then Err ErrRange else Ok (if neg then - n else n)
  end.

(** A signed number of 64 bits. *)
Definition i64 (z : Z) : Z := if 2 ^ 63 <=? u64 z then u64 z - 2 ^ 64 else u64 z.

(** ** [xml.go] *)

(** [xml.Token] *)
Inductive token :=
| StartElement (name : string)
| EndElement (name : string)
| CharData (s : string)
| ProcInst
| Comment
| Directive.

Inductive xmlError := XmlEOF | UnexpectedTag (name : string) | UnexpectedClosing (name : string) | UnexpectedToken.

Definition BlockListTag : string := "BlockList".

(** [UnmarshalXML] of the list and of its blocks: outside of a block, or in the
    one that is being read. *)
Fixpoint UnmarshalXML (tokens : list token) (blocks : list XBlockIn) (cur : option XBlockIn) : res xmlError (list XBlockIn) :=
  match tokens with
  | [] => Err XmlEOF
  | t :: tokens =>
      match cur, t with
      | None, StartElement name =>
          if bool_decide (name = BlockLatest) || bool_decide (name = BlockCommitted) || bool_decide (name = BlockUncommitted)
          then UnmarshalXML tokens blocks (Some (mkXBlockIn "" name))
          else Err (UnexpectedTag name)
      | None, EndElement name => if bool_decide (name = BlockListTag) then Ok blocks else Err (UnexpectedClosing name)
      | Some b, CharData s => UnmarshalXML tokens blocks (Some (mkXBlockIn (TrimSpace s) (Mode b)))
      | Some b, EndElement name =>
          if bool_decide (name = Mode b) then UnmarshalXML tokens (blocks ++ [b]) None else Err (UnexpectedClosing name)
      | Some b, StartElement _ => Err UnexpectedToken
      | _, _ => UnmarshalXML tokens blocks cur
      end
  end.

(** [Decode] looks for the first element. *)
Fixpoint Decode (tokens : list token) : res xmlError (list XBlockIn) :=
  match tokens with
  | [] => Err XmlEOF
  | StartElement name :: tokens => if bool_decide (name = BlockListTag) then UnmarshalXML tokens [] None else Err (UnexpectedTag name)
  | _ :: tokens => Decode tokens
  end.

(** [MarshalXML] of the list and of a block. *)
Definition MarshalXMLBlock (b : XBlockIn) : list token := [StartElement (Mode b); CharData (xID b); EndElement (Mode b)].
Definition MarshalXML (blocks : list XBlockIn) : list token :=
  StartElement BlockListTag :: mjoin (MarshalXMLBlock <$> blocks) ++ [EndElement BlockListTag].

(** [utf16utf8]: the units, [utf16.Decode], and the encoding of its runes. *)
Fixpoint units (b : list byte) : list Z :=
  match b with
  | lo :: hi :: b => (b2z lo + 256 * b2z hi) :: units b
  | [_] => [0xFFFD]
  | [] => []
  end.

Fixpoint utf16_Decode (u : list Z) : list Z :=
  match u with
  | [] => []
  | r :: u =>
      if (r <? 0xD800) || (0xE000 <=? r) then r :: utf16_Decode u
      else match u with
           | r2 :: u' =>
               if (r <? 0xDC00) && (0xDC00 <=? r2) && (r2 <? 0xE000)
               then Z.lor (Z.shiftl (r - 0xD800) 10) (r2 - 0xDC00) + 0x10000 :: utf16_Decode u'
               else 0xFFFD :: utf16_Decode u
           | [] => [0xFFFD]
           end
  end.

Definition utf8_encode (r : Z) : list byte :=
  let tail6 n := z2b (0x80 + Z.land (Z.shiftr r n) 0x3F) in
  if r <? 0x80 then [z2b r]
  else if r <? 0x800 then [z2b (0xC0 + Z.shiftr r 6); tail6 0]
  else if r <? 0x10000 then [z2b (0xE0 + Z.shiftr r 12); tail6 6; tail6 0]
  else [z2b (0xF0 + Z.shiftr r 18); tail6 12; tail6 6; tail6 0].

Definition utf16utf8 (b : list byte) : list byte := mjoin (utf8_encode <$> utf16_Decode (units b)).

(** [xml.Marshal] of a list of blocks. *)
Definition xmlEscape (c : Ascii.ascii) : string :=
  let z := code c in
  if z =? 34 then "&#34;" else if z =? 39 then "&#39;" else if z =? 38 then "&amp;" else if z =? 60 then "&lt;" else if z =? 62 then "&gt;"
  else if z =? 9 then "&#x9;" else if z =? 10 then "&#xA;" else if z =? 13 then "&#xD;" else String c "".

Fixpoint escapeText (s : string) : string := match s with "" => "" | String c s => xmlEscape c +s escapeText s end.

Definition element (name content : string) : string := "<" +s name +s ">" +s content +s "</" +s name +s ">".

Definition xmlBlocks (l : list XBlockOut) : string :=
  foldr (fun b s => element "Block" (element "Name" (escapeText (xName b)) +s element "Size" (fmtDec (xSize b))) +s s) "" l.

Definition SerializeBlocklistXML (bl : XBlockListOut) : list byte :=
  String.list_byte_of_string (element BlockListTag
    (element "CommittedBlocks" (xmlBlocks (CommittedBlocks bl)) +s element "UncommittedBlocks" (xmlBlocks (UncommittedBlocks bl)))).

(** ** [util.go] *)

Inductive blobError := ErrNoLease | ErrNotFound | ErrBadRequest | BlobStorage (err : pgError) | BlobNumber (err : NumError) | BlobBlocks (err : blockError).

(** [blob.Lease]; the end in nanoseconds. *)
Record Lease := mkLease { leaseID : string; End : Z }.

(** [io.LimitReader] of a [SkipReader]: numbers of bytes are signed. *)
Definition readSection (content : list byte) (s : Section_) : list byte :=
  let offset := if 2 ^ 63 <=? sOffset s then 0 else sOffset s in
  let limit := if 2 ^ 63 <=? Limit s then 0 else Limit s in
  take (Z.to_nat limit) (drop (Z.to_nat offset) content).

(** ** Requests and responses *)

Record Request := mkRequest {
  Method : string;
  URLPath : string;
  formOk : bool;
  Form : string -> string;
  Header : string -> string;
  Body : list byte;
  (** The clock, and a new identifier. *)
  now : Z;
  newUUID : string
}.

Definition Headers : Type := gmap string string.
Record Response := mkResponse { Status : Z; rHeaders : Headers; Content : list byte }.

Definition StatusOK : Z := 200.
Definition StatusCreated : Z := 201.
Definition StatusPartialContent : Z := 206.
Definition StatusBadRequest : Z := 400.
Definition StatusNotFound : Z := 404.
Definition StatusMethodNotAllowed : Z := 405.
Definition StatusPreconditionFailed : Z := 412.
Definition StatusInternalServerError : Z := 500.

(** ** [server.go] *)

(** [DeleteObjects] of the storage, by full names: other objects are as they
    were, and without an error those of the names are gone. *)
Class ObjectRemover (Folder : Type) `{ObjectStore Folder} := {
  DeleteObjects : Folder -> list string -> option pgError * Folder;
  DeleteObjects_other f keys name : name ∉ keys -> ReadObject (snd (DeleteObjects f keys)) name = ReadObject f name;
  DeleteObjects_gone f keys name : fst (DeleteObjects f keys) = None -> name ∈ keys -> is_ok (ReadObject (snd (DeleteObjects f keys)) name) = false
}.

Section Server.
Context {sorter : SortSlice} {Folder : Type} `{ObjectRemover Folder} `{!Json (Z * list Block)}.
Variable GetSubFolder : string -> string -> string.
Variable rootPath : string.
Variable xmlTokens : list byte -> list token.

Record Server := mkServer { folder : Folder; indexes : gmap string Index; leases : gmap string Lease }.

Definition set_folder (f : Folder) (bs : Server) : Server := mkServer f (indexes bs) (leases bs).
Definition set_lease (p : string) (lease : Lease) (bs : Server) : Server := mkServer (folder bs) (indexes bs) (<[p := lease]> (leases bs)).

(** An index that the server knows is changed in its place; another one is
    changed for its request only. *)
Definition set_index (p : string) (idx : Index) (bs : Server) : Server :=
  match indexes bs !! p with
  | Some _ => mkServer (folder bs) (<[p := idx]> (indexes bs)) (leases bs)
  | None => bs
  end.

Definition answer (w : Headers) (status : Z) : option Response := Some (mkResponse status w []).

Definition returnError (w : Headers) (err : blobError) : option Response :=
  answer w match err with
           | ErrNoLease => StatusPreconditionFailed
           | ErrNotFound => StatusNotFound
           | ErrBadRequest => StatusBadRequest
           | _ => StatusInternalServerError
           end.

(** The path of the folder of a blob. *)
Definition getBlobFolder (path : string) : string := foldl GetSubFolder rootPath (splitOn slash path).

Definition Load (p : string) (bs : Server) : res blobError Index :=
  match ReadObject (folder bs) (p +s IndexFileName) with
  | Err (ObjectNotFoundError _) => Err ErrNotFound
  | Err err => Err (BlobStorage err)
  | Ok data =>
      match Unmarshal data with
      | Err err => Err (BlobStorage err)
      | Ok (size, blocks) => Ok (loaded size blocks)
      end
  end.

Definition Save (p : string) (idx : Index) (bs : Server) : option pgError * Server :=
  match (data ← Marshal (saved idx); PutObject (folder bs) (p +s IndexFileName) data) with
  | Err err => (Some err, bs)
  | Ok f => (None, set_folder f bs)
  end.

Definition loadBlobIndex (p : string) (bs : Server) : res blobError Index * Server :=
  match indexes bs !! p with
  | Some idx => (Ok idx, bs)
  | None =>
      match Load p bs with
      | Err err => (Err err, bs)
      | Ok idx => (Ok idx, mkServer (folder bs) (<[p := idx]> (indexes bs)) (leases bs))
      end
  end.

Definition deleteGarbage (p : string) (garbage : list string) (bs : Server) : Server :=
  match garbage with
  | [] => bs
  | _ => set_folder (snd (DeleteObjects (folder bs) ((fun g => p +s g) <$> garbage))) bs
  end.

Definition ParseBlocklistXML (data : list byte) : res xmlError (list XBlockIn) := Decode (xmlTokens (utf16utf8 data)).

(** *** Leases *)

Definition leaseDuration (req : Request) : res NumError Z :=
  Atoi (let s := Header req "X-Ms-Lease-Duration" in if bool_decide (s = "") then "31536000" else s).

Definition leaseEnd (duration : Z) (req : Request) : Z := now req + i64 (duration * 10 ^ 9).

Definition HandleAcquireLease (w : Headers) (req : Request) (bs : Server) : option Response * Server :=
  let proposed := Header req "X-Ms-Proposed-Lease-Id" in
  let id := if bool_decide (proposed = "") then newUUID req else proposed in
  match leaseDuration req with
  | Err _ => (answer w StatusBadRequest, bs)
  | Ok duration =>
      let p := getBlobFolder (URLPath req) in
      let '(lease, bs) :=
        match leases bs !! p with
        | Some lease => if End lease <? now req then let lease := mkLease id (leaseEnd duration req) in (lease, set_lease p lease bs) else (lease, bs)
        | None => let lease := mkLease id (leaseEnd duration req) in (lease, set_lease p lease bs)
        end in
      if bool_decide (leaseID lease = id) then (answer (<["X-Ms-Lease-Id" := id]> w) StatusCreated, bs)
      else (answer w StatusPreconditionFailed, bs)
  end.

(** What [Renew], [Change] and [Release] do when the lease is the one they name. *)
Definition withLease (w : Headers) (req : Request) (change : string -> Lease -> Server) (bs : Server) : option Response * Server :=
  let p := getBlobFolder (URLPath req) in
  match leases bs !! p with
  | None => (answer w StatusPreconditionFailed, bs)
  | Some lease =>
      if negb (bool_decide (leaseID lease = Header req "X-Ms-Lease-Id")) then (answer w StatusPreconditionFailed, bs)
      else (answer w StatusOK, change p lease)
  end.

Definition HandleRenewLease (w : Headers) (req : Request) (bs : Server) : option Response * Server :=
  if bool_decide (Header req "X-Ms-Lease-Id" = "") then (answer w StatusBadRequest, bs)
  else match leaseDuration req with
       | Err _ => (answer w StatusBadRequest, bs)
       | Ok duration => withLease w req (fun p lease => set_lease p (mkLease (leaseID lease) (leaseEnd duration req)) bs) bs
       end.

Definition HandleChangeLease (w : Headers) (req : Request) (bs : Server) : option Response * Server :=
  let newLeaseID := Header req "X-Ms-Proposed-Lease-Id" in
  if bool_decide (Header req "X-Ms-Lease-Id" = "") || bool_decide (newLeaseID = "") then (answer w StatusBadRequest, bs)
  else withLease w req (fun p lease => set_lease p (mkLease newLeaseID (End lease)) bs) bs.

Definition HandleReleaseLease (w : Headers) (req : Request) (bs : Server) : option Response * Server :=
  if bool_decide (Header req "X-Ms-Lease-Id" = "") then (answer w StatusBadRequest, bs)
  else withLease w req (fun p lease => mkServer (folder bs) (indexes bs) (delete p (leases bs))) bs.

Definition HandleLease (w : Headers) (req : Request) (bs : Server) : option Response * Server :=
  let leaseAction := Header req "X-Ms-Lease-Action" in
  if bool_decide (leaseAction = "Acquire") then HandleAcquireLease w req bs
  else if bool_decide (leaseAction = "Renew") then HandleRenewLease w req bs
  else if bool_decide (leaseAction = "Change") then HandleChangeLease w req bs
  else if bool_decide (leaseAction = "Release") then HandleReleaseLease w req bs
  else (answer w StatusBadRequest, bs).

(** Whether the request may go on. *)
Definition checkLease (req : Request) (p : string) (bs : Server) : bool :=
  match leases bs !! p with
  | None => true
  | Some lease => if now req <? End lease then bool_decide (leaseID lease = Header req "X-Ms-Lease-Id") else true
  end.

Definition setLeaseHeaders (w : Headers) (req : Request) (p : string) (bs : Server) : Headers :=
  match leases bs !! p with
  | None => <["X-Ms-Lease-State" := "Available"]> w
  | Some lease =>
      if now req <? End lease then <["X-Ms-Lease-State" := "Expired"]> w
      else
        let w := <["X-Ms-Lease-Duration" := "fixed"]> (<["X-Ms-Lease-State" := "Leased"]> w) in
        if bool_decide (Header req "X-Ms-Lease-Id" = leaseID lease) then <["X-Ms-Lease-Status" := "locked"]> w else w
  end.

(** *** Blocks *)

Definition HandleBlockPut (w : Headers) (req : Request) (bs : Server) : option Response * Server :=
  if negb (bool_decide (Form req "x-ms-copy-source:name" = "")) then (answer w StatusBadRequest, bs)
  else
    let p := getBlobFolder (URLPath req) in
    match loadBlobIndex p bs with
    | (Err err, bs) => (returnError w err, bs)
    | (Ok idx, bs) =>
        if negb (checkLease req p bs) then (returnError w ErrNoLease, bs)
        else
          let blockID := TrimSpace (Form req "blockid") in
          match ParseUint (Header req "Content-Length") 10 64 with
          | Err _ => (answer w StatusBadRequest, bs)
          | Ok blockSize =>
              let '(filename, idx) := PutBlock blockID blockSize idx in
              match PutObject (folder bs) (p +s filename) (Body req) with
              | Err err => (returnError w (BlobStorage err), set_index p idx bs)
              | Ok f => (answer w StatusCreated, set_index p (SaveDelayed idx) (set_folder f bs))
              end
          end
    end.

Definition HandleBlock (w : Headers) (req : Request) (bs : Server) : option Response * Server :=
  if bool_decide (Method req = "PUT") then HandleBlockPut w req bs else (answer w StatusMethodNotAllowed, bs).

Definition HandleBlockListPut (w : Headers) (req : Request) (bs : Server) : option Response * Server :=
  let p := getBlobFolder (URLPath req) in
  match loadBlobIndex p bs with
  | (Err err, bs) => (returnError w err, bs)
  | (Ok idx, bs) =>
      if negb (checkLease req p bs) then (returnError w ErrNoLease, bs)
      else match ParseBlocklistXML (Body req) with
           | Err _ => (answer w StatusBadRequest, bs)
           | Ok xblocklist =>
               match PutBlockList xblocklist idx with
               | (inl (ErrMode _), idx) => (None, set_index p idx bs)
               | (inl _, idx) => (answer w StatusBadRequest, set_index p idx bs)
               | (inr garbage, idx) =>
                   match Save p idx (set_index p idx bs) with
                   | (Some err, bs) => (returnError w (BlobStorage err), bs)
                   | (None, bs) => (answer w StatusCreated, deleteGarbage p garbage bs)
                   end
               end
           end
  end.

Definition HandleBlockListGet (w : Headers) (req : Request) (bs : Server) : option Response * Server :=
  let p := getBlobFolder (URLPath req) in
  match loadBlobIndex p bs with
  | (Err err, bs) => (returnError w err, bs)
  | (Ok idx, bs) =>
      let data := SerializeBlocklistXML (GetBlockList (Title (ToLower (Form req "blocklisttype"))) idx) in
      let w := <["Content-Type" := "application/xml; charset=utf-8"]> (<["Content-Length" := fmtDec (Z.of_nat (length data))]> w) in
      (Some (mkResponse StatusOK w data), bs)
  end.

Definition HandleBlockList (w : Headers) (req : Request) (bs : Server) : option Response * Server :=
  if bool_decide (Method req = "PUT") then HandleBlockListPut w req bs
  else if bool_decide (Method req = "GET") then HandleBlockListGet w req bs
  else (answer w StatusMethodNotAllowed, bs).

(** *** Blobs *)

Definition HandleBlobHead (w : Headers) (req : Request) (bs : Server) : option Response * Server :=
  let p := getBlobFolder (URLPath req) in
  match loadBlobIndex p bs with
  | (Err err, bs) => (returnError w err, bs)
  | (Ok idx, bs) => (answer (setLeaseHeaders (<["Content-Length" := fmtDec (Size idx)]> w) req p bs) StatusOK, bs)
  end.

(** The header of the range that is used. *)
Definition rangeHeader (req : Request) : string :=
  let s := Header req "X-Ms-Range" in if bool_decide (s = "") then Header req "Range" else s.

(** [None] is the panic of a header that is too short. *)
Definition parseBytesRange (req : Request) : option (res blobError (Z * Z)) :=
  let s := rangeHeader req in
  prefix ← slice s 0 6;
  Some (if negb (bool_decide (prefix = "bytes=")) then Err ErrBadRequest
        else match splitOn (Ascii.ascii_of_nat 45) (sdrop 6 s) with
             | [s0; s1] =>
                 match ParseUint s0 10 64, ParseUint s1 10 64 with
                 | Err err, _ => Err (BlobNumber err)
                 | _, Err err => Err (BlobNumber err)
                 | Ok rangeMin, Ok rangeMax => Ok (rangeMin, rangeMax)
                 end
             | _ => Err ErrBadRequest
             end).

(** The bytes of the sections, up to one that cannot be read. *)
Fixpoint readSections (p : string) (f : Folder) (sections : list Section_) : list byte :=
  match sections with
  | [] => []
  | s :: sections =>
      match ReadObject f (p +s Path s) with
      | Err _ => []
      | Ok content => readSection content s ++ readSections p f sections
      end
  end.

Definition HandleBlobGet (w : Headers) (req : Request) (bs : Server) : option Response * Server :=
  let p := getBlobFolder (URLPath req) in
  match loadBlobIndex p bs with
  | (Err err, bs) => (returnError w err, bs)
  | (Ok idx, bs) =>
      if negb (checkLease req p bs) then (returnError w ErrNoLease, bs)
      else if bool_decide (rangeHeader req = "") then
        let w := setLeaseHeaders (<["Content-Length" := fmtDec (Size idx)]> w) req p bs in
        (Some (mkResponse StatusOK w (readSections p (folder bs) (GetSections 0 (u64 (Size idx - 1)) idx))), bs)
      else
        match parseBytesRange req with
        | None => (None, bs)
        | Some (Err err) => (returnError w err, bs)
        | Some (Ok (rangeMin, rangeMax)) =>
            let w := <["Content-Range" := "bytes " +s fmtDec rangeMin +s "-" +s fmtDec rangeMax +s "/" +s fmtDec (Size idx)]>
                       (<["Content-Length" := fmtDec (u64 (rangeMax - rangeMin + 1))]> w) in
            let w := setLeaseHeaders w req p bs in
            (Some (mkResponse StatusPartialContent w (readSections p (folder bs) (GetSections rangeMin rangeMax idx))), bs)
        end
  end.

Definition HandleBlobPut (w : Headers) (req : Request) (bs : Server) : option Response * Server :=
  let p := getBlobFolder (URLPath req) in
  match (match loadBlobIndex p bs with (Err ErrNotFound, bs) => (Ok NewIndex, bs) | r => r end) with
  | (Err err, bs) => (returnError w err, bs)
  | (Ok idx, bs) =>
      if negb (checkLease req p bs) then (returnError w ErrNoLease, bs)
      else
        match ParseUint (Header req "Content-Length") 10 64 with
        | Err _ => (answer w StatusBadRequest, bs)
        | Ok blobSize =>
            let '(garbage, idx) := Clear idx in
            let '(err, idx, bs) :=
              if 0 <? blobSize then
                let '(name, idx) := PutBlock "data" blobSize idx in
                match PutObject (folder bs) (p +s name) (Body req) with
                | Err err => (Some (BlobStorage err), idx, bs)
                | Ok f =>
                    match PutBlockList [mkXBlockIn "data" BlockLatest] idx with
                    | (inl err, idx) => (Some (BlobBlocks err), idx, set_folder f bs)
                    | (inr _, idx) => (None, idx, set_folder f bs)
                    end
                end
              else (None, idx, bs) in
            let bs := set_index p idx bs in
            match err with
            | Some err => (returnError w err, bs)
            | None =>
                match Save p idx bs with
                | (Some err, bs) => (returnError w (BlobStorage err), bs)
                | (None, bs) => (answer w StatusCreated, deleteGarbage p garbage bs)
                end
            end
        end
  end.

Definition HandleBlobDelete (w : Headers) (req : Request) (bs : Server) : option Response * Server :=
  let p := getBlobFolder (URLPath req) in
  if negb (checkLease req p bs) then (returnError w ErrNoLease, bs)
  else
    let parts := splitOn slash (URLPath req) in
    let upperFolder := foldl GetSubFolder rootPath (take (length parts - 1) parts) in
    match DeleteObjects (folder bs) [upperFolder +s default "" (last parts)] with
    | (Some err, f) => (returnError w (BlobStorage err), set_folder f bs)
    | (None, f) => (answer w StatusCreated, mkServer f (delete p (indexes bs)) (leases bs))
    end.

Definition HandleBlob (w : Headers) (req : Request) (bs : Server) : option Response * Server :=
  if bool_decide (Method req = "HEAD") then HandleBlobHead w req bs
  else if bool_decide (Method req = "GET") then HandleBlobGet w req bs
  else if bool_decide (Method req = "PUT") then HandleBlobPut w req bs
  else if bool_decide (Method req = "DELETE") then HandleBlobDelete w req bs
  else (answer w StatusMethodNotAllowed, bs).

Definition defaultHeaders (req : Request) : Headers :=
  <["Accept-Ranges" := "bytes"]> (<["X-Ms-Request-Id" := Header req "X-Ms-Request-Id"]> (<["X-Ms-Blob-Type" := "BlockBlob"]>
    (<["X-Ms-Version" := "2014-02-14"]> (<["Content-Length" := "0"]> {["Content-Type" := "application/octet-stream"]})))).

Definition ServeHTTP2 (req : Request) (bs : Server) : option Response * Server :=
  let w := defaultHeaders req in
  if negb (formOk req) then (answer w StatusBadRequest, bs)
  else
    let comp := Form req "comp" in
    if bool_decide (comp = "lease") then HandleLease w req bs
    else if bool_decide (comp = "block") then HandleBlock w req bs
    else if bool_decide (comp = "blocklist") then HandleBlockList w req bs
    else if bool_decide (comp = "") then HandleBlob w req bs
    else (answer w StatusMethodNotAllowed, bs).

(** One turn of [saver], for the index of a blob. *)
Definition saver (p : string) (bs : Server) : Server :=
  match indexes bs !! p with
  | None => bs
  | Some idx =>
      let bs := set_index p (mkIndex (Size idx) (heap idx) (Blocks idx) (icache idx) (ocache idx) false) bs in
      if needSave idx then snd (Save p idx bs) else bs
  end.
End Server.
Arguments Server : clear implicits.
