(* ===== verification/BlobSpec.v ===== *)
(** * SQL Server: what a blob is

    The specification of a blob, and how an index with the objects of the storage
    represents one. A blob is the list of its committed blocks, and the blocks
    that were uploaded and are not committed; its bytes are those of the committed
    blocks. *)

From stdpp Require Import gmap strings list.
From S2P Require Import Prelude GoStrings GoSort.
From S2P Require Import WalArchive.
From S2P Require Import GoDecimal.
From S2P Require Import BlobIndex.
Open Scope Z_scope.

(** ** The specification *)

Record Blob := mkBlob { committed : list (string * list byte); pending : gmap string (list byte) }.

Definition emptyBlob : Blob := mkBlob [] ∅.
Definition bytesOf (l : list (string * list byte)) : list byte := mjoin (snd <$> l).
Definition content (b : Blob) : list byte := bytesOf (committed b).
Definition old (b : Blob) (id : string) : option (list byte) := (list_to_map (committed b) : gmap string (list byte)) !! id.

Definition uploadBlock (id : string) (c : list byte) (b : Blob) : Blob := mkBlob (committed b) (<[id := c]> (pending b)).

(** The bytes that an entry of a list of blocks means. *)
Definition resolve (b : Blob) (xb : XBlockIn) : option (list byte) :=
  if bool_decide (Mode xb = BlockCommitted) then old b (xID xb)
  else if bool_decide (Mode xb = BlockUncommitted) then pending b !! xID xb
  else if bool_decide (Mode xb = BlockLatest) then match pending b !! xID xb with Some c => Some c | None => old b (xID xb) end
  else None.

Definition entry (b : Blob) (xb : XBlockIn) : option (string * list byte) := c ← resolve b xb; Some (xID xb, c).

Definition commitBlocks (xs : list XBlockIn) (b : Blob) : option Blob :=
  cs ← mapM (entry b) xs; Some (mkBlob cs ∅).

Arguments bytesOf : simpl never.

Lemma bytesOf_cons id c l : bytesOf ((id, c) :: l) = c ++ bytesOf l.
Proof. done. Qed.

Lemma bytesOf_app l l' : bytesOf (l ++ l') = bytesOf l ++ bytesOf l'.
Proof. unfold bytesOf. by rewrite fmap_app, join_app. Qed.

(** ** Names of objects *)

Lemma objectName_inj id rev id' rev' : 0 <= rev -> 0 <= rev' -> objectName id rev = objectName id' rev' -> id = id' /\ rev = rev'.
Proof.
  assert (forall z, allIn notDot (fmtDec z) = true) as Hdec.
  { intros z. generalize (fmtDec_digits z). induction (fmtDec z) as [|c s IH]; [done|]. cbn. intros [Hc Hs]%andb_prop.
    rewrite IH by done. rewrite andb_true_r. unfold notDot. case_bool_decide as E; [by subst|done]. }
  intros H0 H1 E. apply dotted_inj in E as [-> E]; [|apply Hdec..]. split; [done|]. by apply fmtDec_inj in E.
Qed.

Lemma last_digit s c s' : allIn isDigit s' = true -> s' <> "" -> s +s s' <> c +s "n".
Proof.
  revert c. induction s as [|a s IH]; intros c Hd Hne.
  - destruct s' as [|d s']; [done|]. cbn. clear Hne. revert d c Hd.
    induction s' as [|d' s' IH]; intros d c Hd E; cbn in Hd; apply andb_prop in Hd as [Hd0 Hd].
    + destruct c as [|c0 [|c1 c]]; cbn in E; injection E as E; subst; done.
    + destruct c as [|c0 c]; cbn in E; [done|]. injection E as _ E. by apply (IH d' c).
  - destruct c as [|c0 c]; cbn; intros E.
    + injection E as _ E. destruct s; cbn in E; [by subst|done].
    + injection E as _ E. by apply (IH c) in E.
Qed.

Lemma objectName_index id rev : objectName id rev <> IndexFileName.
Proof.
  unfold objectName. rewrite <- app_assoc_s. change IndexFileName with ("__blob_index.jso" +s "n").
  apply last_digit; [apply fmtDec_digits|apply fmtDec_nonempty].
Qed.

(** ** The representation *)

(** The sizes a client uses: blocks of at most [2 ^ 40] bytes, lists of at most
    [2 ^ 20] blocks. Nothing overflows then. *)
Definition sized (c : list byte) : Prop := 0 < Z.of_nat (length c) <= 2 ^ 40.
Definition maxList : Z := 2 ^ 20.

Definition isCommitted (b : Block) : bool := 0 <? CommittedRev b.

Section Rep.
(** What the storage has under the names of the blob. *)
Variable get : string -> option (list byte).
(** No revision is above it. *)
Variable N : Z.

(** The bytes of a block. *)
Definition stored (blk : Block) (c : list byte) : Prop :=
  0 < CommittedRev blk <= N /\ CommittedSize blk = Z.of_nat (length c) /\ sized c /\ get (objectName (ID blk) (CommittedRev blk)) = Some c.

(** The blocks are one after the other. *)
Fixpoint placed (off : Z) (blks : list Block) (l : list (string * list byte)) : Prop :=
  match blks, l with
  | [], [] => True
  | blk :: blks, (id, c) :: l => ID blk = id /\ Offset blk = off /\ stored blk c /\ placed (off + Z.of_nat (length c)) blks l
  | _, _ => False
  end.

Definition uploaded (pend : gmap string (list byte)) (blk : Block) : Prop :=
  0 <= CommittedRev blk <= N /\
  ((UploadedRev blk = 0 /\ pend !! ID blk = None /\ 0 < CommittedRev blk) \/
   (UploadedRev blk = CommittedRev blk + 1 /\ exists c, pend !! ID blk = Some c /\ UploadedSize blk = Z.of_nat (length c) /\ sized c /\
      get (objectName (ID blk) (UploadedRev blk)) = Some c)).

Definition blocks (idx : Index) : list Block := at_ (heap idx) <$> Blocks idx.

Record Rep (idx : Index) (b : Blob) : Prop := {
  rep_ids : NoDup (ID <$> blocks idx);
  rep_bound : Forall (fun l => (l < length (heap idx))%nat) (Blocks idx);
  rep_icache : forall id l, icache idx !! id = Some l <-> l ∈ Blocks idx /\ ID (at_ (heap idx) l) = id;
  rep_ocache : ocache idx = List.filter (fun l => isCommitted (at_ (heap idx) l)) (Blocks idx);
  rep_uploaded : Forall (uploaded (pending b)) (blocks idx);
  rep_pending : forall id, is_Some (pending b !! id) -> id ∈ ID <$> blocks idx;
  rep_placed : placed 0 (List.filter isCommitted (blocks idx)) (committed b);
  rep_size : Size idx = Z.of_nat (length (content b));
  rep_count : Z.of_nat (length (committed b)) <= maxList
}.

Lemma placed_ids off blks l : placed off blks l -> ID <$> blks = fst <$> l.
Proof. revert off l. induction blks as [|blk blks IH]; intros off [|[id c] l]; cbn; [done..|]. intros (<- & _ & _ & H). by rewrite (IH _ _ H). Qed.

Lemma placed_stored off blks l blk : placed off blks l -> NoDup (fst <$> l) -> blk ∈ blks ->
  exists c, (list_to_map l : gmap string (list byte)) !! ID blk = Some c /\ stored blk c.
Proof.
  revert off l. induction blks as [|blk' blks IH]; intros off [|[id c] l]; cbn; [by intros _ _ ?%elem_of_nil|done|done|].
  intros (<- & _ & Hs & Hp) [Hnin Hnd]%NoDup_cons [->|Hin]%elem_of_cons.
  - exists c. by rewrite lookup_insert_eq.
  - destruct (IH _ _ Hp Hnd Hin) as (c' & Hl & Hs'). exists c'. split; [|done]. rewrite lookup_insert_ne; [done|].
    intros E. apply Hnin. rewrite E, <- (placed_ids _ _ _ Hp). by apply list_elem_of_fmap_2.
Qed.

Lemma placed_app off blks l blk id c : placed off blks l -> ID blk = id -> Offset blk = off + Z.of_nat (length (bytesOf l)) -> stored blk c ->
  placed off (blks ++ [blk]) (l ++ [(id, c)]).
Proof.
  revert off l. induction blks as [|blk' blks IH]; intros off [|[id' c'] l]; cbn; [|done|done|].
  - intros _ -> Ho Hs. change (bytesOf []) with (@nil byte) in Ho. cbn in Ho. split_and!; [done|lia|done|done].
  - intros (H1 & H2 & H3 & Hp) Hid Ho Hs. split_and!; [done..|]. apply IH; [done..| |done].
    rewrite Ho, bytesOf_cons, length_app. lia.
Qed.
End Rep.
