(* ===== verification/BlobRep.v ===== *)
(** * SQL Server: the operations of an index

    The cells of the heap, sorting a list that is sorted, and what [PutBlock] and
    [PutBlockList] do to the blob that the index represents: an upload is kept
    beside what is committed, and a list makes the blob that the specification
    has, or is an error where an entry has no bytes. Nothing that is still used
    is garbage. *)

From stdpp Require Import gmap strings list.
From S2P Require Import Prelude GoStrings GoSort.
From S2P Require Import GoDecimal.
From S2P Require Import BlobIndex BlobSpec.
Open Scope Z_scope.

(** ** Cells *)

Lemma at_insert h l blk l' : (l < length h)%nat -> at_ (<[l := blk]> h) l' = if decide (l' = l) then blk else at_ h l'.
Proof. intros Hl. unfold at_. case_decide as E; [subst; by rewrite list_lookup_insert_eq|by rewrite list_lookup_insert_ne by done]. Qed.

Lemma at_app h blk l : (l < length h)%nat -> at_ (h ++ [blk]) l = at_ h l.
Proof. intros Hl. unfold at_. by rewrite lookup_app_l. Qed.

Lemma at_app_new h blk : at_ (h ++ [blk]) (length h) = blk.
Proof. unfold at_. by rewrite lookup_app_r, Nat.sub_diag by lia. Qed.

Lemma at_seq h : at_ h <$> seq 0 (length h) = h.
Proof.
  apply list_eq. intros i. rewrite list_lookup_fmap. destruct (decide (i < length h)%nat) as [Hi|Hi].
  - rewrite lookup_seq_lt by done. cbn. unfold at_. by destruct (lookup_lt_is_Some_2 h i Hi) as [x ->].
  - rewrite lookup_seq_ge by lia. by rewrite lookup_ge_None_2 by lia.
Qed.

Lemma filter_fmap_at h (f : Block -> bool) ls : at_ h <$> List.filter (fun l => f (at_ h l)) ls = List.filter f (at_ h <$> ls).
Proof. induction ls as [|l ls IH]; [done|]. cbn. destruct (f (at_ h l)); [|done]. cbn. by rewrite IH. Qed.

Lemma filter_ext_on {A} (f g : A -> bool) l : (forall x, x ∈ l -> f x = g x) -> List.filter f l = List.filter g l.
Proof. intros Hf. apply List.filter_ext_in. intros x Hx. by apply Hf, list_elem_of_In. Qed.

Lemma Forall2_filter {A} (f : A -> bool) (P : A -> A -> Prop) l l' : (forall a a', P a a' -> f a = f a') ->
  Forall2 P l l' -> Forall2 P (List.filter f l) (List.filter f l').
Proof. intros Hf. induction 1 as [|a a' l l' Ha Hl IH]; [constructor|]. cbn. rewrite (Hf _ _ Ha). destruct (f a'); [by constructor|done]. Qed.

Lemma in_ids h (ls : list nat) l id : l ∈ ls -> ID (at_ h l) = id -> id ∈ ID <$> (at_ h <$> ls).
Proof. intros Hl <-. by apply list_elem_of_fmap_2, list_elem_of_fmap_2. Qed.

Lemma NoDup_ids_eq h ls l l' : NoDup (ID <$> (at_ h <$> ls)) -> l ∈ ls -> l' ∈ ls -> ID (at_ h l) = ID (at_ h l') -> l = l'.
Proof.
  induction ls as [|a ls IH]; [by intros _ ?%elem_of_nil|]. cbn. intros [Hn Hnd]%NoDup_cons Hl Hl' E.
  assert (forall x, x ∈ ls -> ID (at_ h x) <> ID (at_ h a)) as Hne.
  { intros x Hx Ex. apply Hn. rewrite <- Ex. apply list_elem_of_fmap. exists (at_ h x). split; [done|]. by apply list_elem_of_fmap_2. }
  apply elem_of_cons in Hl as [->|Hl], Hl' as [->|Hl']; [done|by destruct (Hne _ Hl')|by destruct (Hne _ Hl)|by apply IH].
Qed.

Lemma NoDup_ids_blocks (bs : list Block) x y : NoDup (ID <$> bs) -> x ∈ bs -> y ∈ bs -> ID x = ID y -> x = y.
Proof.
  intros Hnd [i Hi]%list_elem_of_lookup_1 [j Hj]%list_elem_of_lookup_1 E.
  assert (i = j) as ->; [|congruence]. apply (NoDup_lookup _ i j (ID x) Hnd); rewrite list_lookup_fmap, ?Hi, ?Hj; cbn; congruence.
Qed.

(** A sorted list is what sorting gives, when no two elements are equivalent. *)
Lemma Slice_id `{SortSlice} {A} (less : A -> A -> bool) l : StrictWeakOn (.∈ l) less ->
  StronglySorted (fun a b => less a b = true) l -> Slice less l = l.
Proof.
  intros Hw Hs. pose proof (Slice_sorted_on less l Hw) as Hss. pose proof (Slice_perm less l) as Hp.
  revert Hp Hss. generalize (Slice less l). induction Hs as [|a l Hs IH Ha]; intros l' Hp Hss; [by apply Permutation_nil_r in Hp|].
  destruct l' as [|a' l']; [by apply Permutation_nil_l in Hp|].
  inversion Hss as [|? ? Hss' Ha']; subst. rewrite Forall_forall in Ha, Ha'.
  assert (a' = a) as ->.
  { assert (a' ∈ a :: l) as [E|Hin]%elem_of_cons by (rewrite <- Hp; left); [done|].
    assert (a ∈ a' :: l') as [E|Hin']%elem_of_cons by (rewrite Hp; left); [done|].
    specialize (Ha _ Hin). specialize (Ha' _ Hin'). unfold not_after in Ha'. congruence. }
  f_equal. apply IH; [by eapply StrictWeakOn_weaken, Hw; intros; right| |done]. by apply (inj (cons a)).
Qed.

(** ** Uploads *)

Lemma placed_ext g g' M M' off blks blks' l :
  Forall2 (fun a a' => ID a = ID a' /\ Offset a = Offset a' /\ forall c, stored g M a c -> stored g' M' a' c) blks blks' ->
  placed g M off blks l -> placed g' M' off blks' l.
Proof.
  intros Hf. revert off l. induction Hf as [|a a' blks blks' (Hi & Ho & Hs) Hf IH]; intros off [|[i c0] l]; cbn; [done..|].
  intros (<- & <- & Hst & Hp). split_and!; [done..|by apply Hs|by apply IH].
Qed.

Section Upload.
Context (get get' : string -> option (list byte)) (N : Z) (id : string) (c : list byte) (rev : Z).
Hypothesis Hc : sized c.
Hypothesis Hrev : 0 < rev.
Hypothesis Hget : get' (objectName id rev) = Some c.
Hypothesis Hother : forall name, name <> objectName id rev -> get' name = get name.

(** What an upload does to a block. *)
Definition upd (a a' : Block) : Prop :=
  (ID a <> id /\ a' = a) \/
  (ID a = id /\ rev = CommittedRev a + 1 /\ a' = mkBlock id (Offset a) (Z.of_nat (length c)) rev (CommittedSize a) (CommittedRev a)).

Lemma upd_stored a a' x : upd a a' -> stored get N a x -> stored get' N a' x.
Proof.
  unfold stored. intros Hu (Hr & Hs & Hx & Hg). destruct Hu as [[Hne ->]|(<- & Hn & ->)]; cbn; (do 3 (split; [done|])).
  - rewrite Hother; [done|]. intros [E _]%objectName_inj; [done|lia|lia].
  - rewrite Hother; [done|]. intros [_ E]%objectName_inj; lia.
Qed.

Lemma upd_uploaded pend a a' : upd a a' -> uploaded get N pend a -> uploaded get' N (<[id := c]> pend) a'.
Proof.
  unfold uploaded. intros [[Hne ->]|(<- & Hn & ->)] [Hr Hu]; cbn; (split; [done|]).
  - destruct Hu as [(H1 & H2 & H3)|(H1 & x & H2 & H3 & H4 & H5)].
    + left. by rewrite lookup_insert_ne.
    + right. split; [done|]. exists x. rewrite lookup_insert_ne by done. split_and!; [done..|].
      rewrite Hother; [done|]. intros [E _]%objectName_inj; [done|lia|lia].
  - right. split; [done|]. exists c. by rewrite lookup_insert_eq.
Qed.

Lemma upd_same a a' : upd a a' -> ID a = ID a' /\ Offset a = Offset a' /\ isCommitted a = isCommitted a'.
Proof. clear Hget Hother. by intros [[_ ->]|(<- & _ & ->)]. Qed.

Lemma upd_ids bs bs' : Forall2 upd bs bs' -> ID <$> bs = ID <$> bs'.
Proof. induction 1 as [|a a' bs bs' Ha _ IH]; [done|]. cbn. by rewrite IH, (proj1 (upd_same _ _ Ha)). Qed.

Lemma upd_placed bs bs' l : Forall2 upd bs bs' ->
  placed get N 0 (List.filter isCommitted bs) l -> placed get' N 0 (List.filter isCommitted bs') l.
Proof.
  intros Hf. apply placed_ext. assert (Forall2 (fun a a' => upd a a') (List.filter isCommitted bs) (List.filter isCommitted bs')) as Hf'.
  { apply Forall2_filter; [|done]. intros a a' Hu. by destruct (upd_same _ _ Hu) as (_ & _ & ?). }
  eapply Forall2_impl; [exact Hf'|]. intros a a' Hu. destruct (upd_same _ _ Hu) as (? & ? & _). split_and!; [done..|].
  intros x. by apply upd_stored.
Qed.

Lemma upd_all_uploaded pend bs bs' : Forall2 upd bs bs' -> Forall (uploaded get N pend) bs -> Forall (uploaded get' N (<[id := c]> pend)) bs'.
Proof. induction 1 as [|a a' bs bs' Ha _ IH]; [constructor|]. intros [Hu Hus]%Forall_cons. constructor; [by eapply upd_uploaded|by apply IH]. Qed.

Lemma upd_refl bs : id ∉ ID <$> bs -> Forall2 upd bs bs.
Proof.
  induction bs as [|a bs IH]; [constructor|]. cbn. intros [Hne Hn]%not_elem_of_cons. constructor; [left; done|by apply IH].
Qed.

Lemma upd_cells h ls l : NoDup (ID <$> (at_ h <$> ls)) -> Forall (fun l => (l < length h)%nat) ls -> l ∈ ls -> ID (at_ h l) = id ->
  rev = CommittedRev (at_ h l) + 1 ->
  Forall2 upd (at_ h <$> ls)
    (at_ (<[l := mkBlock id (Offset (at_ h l)) (Z.of_nat (length c)) rev (CommittedSize (at_ h l)) (CommittedRev (at_ h l))]> h) <$> ls).
Proof.
  intros Hnd Hb Hl Hid Hr. apply Forall2_fmap, Forall_Forall2_diag, Forall_forall. intros l' Hl'. rewrite Forall_forall in Hb.
  rewrite at_insert by (by apply Hb). case_decide as E; [subst l'; by right|]. left. split; [|done].
  intros E'. apply E. eapply NoDup_ids_eq; [exact Hnd|done|done|]. by rewrite Hid.
Qed.
End Upload.

Section PutBlock.
Context (get get' : string -> option (list byte)) (N : Z) (idx : Index) (b : Blob) (id : string) (c : list byte).
Hypothesis Hrep : Rep get N idx b.
Hypothesis Hc : sized c.
Hypothesis HN : 0 <= N /\ N + 1 < 2 ^ 64.

Lemma icache_none : icache idx !! id = None -> id ∉ ID <$> blocks idx.
Proof.
  intros Hn (blk & -> & (l & -> & Hl)%list_elem_of_fmap)%list_elem_of_fmap.
  assert (icache idx !! ID (at_ (heap idx) l) = Some l) as E by (by apply (rep_icache _ _ _ _ Hrep)). congruence.
Qed.

Let name := fst (PutBlock id (Z.of_nat (length c)) idx).
Let idx' := snd (PutBlock id (Z.of_nat (length c)) idx).

Lemma PutBlock_eq l : icache idx !! id = Some l -> let b := at_ (heap idx) l in
  l ∈ Blocks idx /\ ID b = id /\ 0 < CommittedRev b + 1 /\
  PutBlock id (Z.of_nat (length c)) idx = (objectName id (CommittedRev b + 1),
    set_heap (<[l := mkBlock id (Offset b) (Z.of_nat (length c)) (CommittedRev b + 1) (CommittedSize b) (CommittedRev b)]> (heap idx)) idx).
Proof.
  intros E. cbv zeta. unfold PutBlock. rewrite E.
  apply (rep_icache _ _ _ _ Hrep) in E as [Hl Hid]. pose proof (rep_uploaded _ _ _ _ Hrep) as Hu. rewrite Forall_forall in Hu.
  destruct (Hu (at_ (heap idx) l)) as [Hr _]; [by apply list_elem_of_fmap_2|]. rewrite Hid. cbn [UploadedRev].
  unfold wrap. rewrite Z.mod_small by lia. split_and!; [done..|lia|done].
Qed.

Lemma PutBlock_name : exists rev, 0 < rev /\ name = objectName id rev.
Proof.
  unfold name. destruct (icache idx !! id) as [l|] eqn:E.
  - destruct (PutBlock_eq l E) as (_ & _ & Hr & ->). by eexists.
  - unfold PutBlock. rewrite E. by exists 1.
Qed.

Hypothesis Hget : get' name = Some c.
Hypothesis Hother : forall n, n <> name -> get' n = get n.

Lemma PutBlock_new : icache idx !! id = None -> Rep get' N idx' (uploadBlock id c b).
Proof.
  intros E. pose proof (icache_none E) as Hn. unfold idx', name, PutBlock in *. rewrite E in *. cbn [fst snd] in *.
  pose proof (upd_refl id c 1 _ Hn) as Hu. destruct Hrep as [Hids Hb Hi Ho Hup Hp Hpl Hs Hcount].
  assert (blocks (mkIndex (Size idx) (heap idx ++ [mkBlock id 0 (Z.of_nat (length c)) 1 0 0]) (Blocks idx ++ [length (heap idx)])
    (<[id := length (heap idx)]> (icache idx)) (ocache idx) (needSave idx)) = blocks idx ++ [mkBlock id 0 (Z.of_nat (length c)) 1 0 0]) as Eb.
  { unfold blocks. cbn. rewrite fmap_app. cbn. rewrite at_app_new. f_equal. apply list_fmap_ext. intros i l Hl.
    apply at_app. rewrite Forall_forall in Hb. by eapply Hb, list_elem_of_lookup_2. }
  assert (forall l, l ∈ Blocks idx -> (l < length (heap idx))%nat) as Hb' by (by apply Forall_forall).
  split; rewrite ?Eb; cbn [Size heap Blocks icache ocache needSave committed pending uploadBlock].
  - rewrite fmap_app. apply NoDup_app. split_and!; [done| |apply NoDup_singleton]. intros x Hx ->%list_elem_of_singleton. done.
  - apply Forall_app. rewrite length_app. cbn. split; [|constructor; [lia|done]]. eapply Forall_impl; [exact Hb|]. cbn. lia.
  - intros id' l. rewrite elem_of_app, list_elem_of_singleton. destruct (decide (id' = id)) as [->|Hne].
    + rewrite lookup_insert_eq. split; [intros [= <-]; rewrite at_app_new; auto|]. intros [[Hl| ->] Hid]; [|done].
      rewrite at_app in Hid by auto. destruct Hn. by apply (in_ids _ _ l).
    + rewrite lookup_insert_ne, Hi by done. split; [intros [Hl Hid]; rewrite at_app by auto; auto|].
      intros [[Hl| ->] Hid]; [rewrite at_app in Hid by auto; auto|]. rewrite at_app_new in Hid. by cbn in Hid.
  - rewrite List.filter_app. cbn. rewrite at_app_new. cbn. rewrite app_nil_r, Ho. apply filter_ext_on.
    intros l Hl. by rewrite at_app by auto.
  - apply Forall_app. split; [by eapply (upd_all_uploaded get get' N id c 1); try done; lia|]. constructor; [|done].
    split; cbn; [lia|]. right. split; [done|]. exists c. by rewrite lookup_insert_eq.
  - intros id' Hs'. rewrite fmap_app, elem_of_app. destruct (decide (id' = id)) as [->|Hne]; [right; cbn; set_solver|].
    left. apply Hp. by rewrite lookup_insert_ne in Hs'.
  - rewrite List.filter_app. cbn. rewrite app_nil_r. by eapply (upd_placed get get' N id c 1).
  - done.
  - done.
Qed.

Lemma PutBlock_known l : icache idx !! id = Some l -> Rep get' N idx' (uploadBlock id c b).
Proof.
  intros E. destruct (PutBlock_eq l E) as (Hl & Hid & Hr0 & Eq). unfold idx', name in *. rewrite Eq in *. cbn [fst snd] in *. clear Eq.
  destruct Hrep as [Hids Hb Hi Ho Hup Hp Hpl Hs Hcount].
  pose proof (upd_cells id c _ _ _ l Hids Hb Hl Hid eq_refl) as Hu.
  set (h := <[l := _]> (heap idx)) in *. set (rev := CommittedRev (at_ (heap idx) l) + 1) in *.
  assert (forall l', l' ∈ Blocks idx -> ID (at_ h l') = ID (at_ (heap idx) l') /\ isCommitted (at_ h l') = isCommitted (at_ (heap idx) l')) as Hsame.
  { intros l' Hl'. unfold h. rewrite at_insert by (by eapply Forall_forall in Hb). case_decide; [subst|]; done. }
  split; cbn [set_heap Size heap Blocks icache ocache needSave committed pending uploadBlock]; unfold blocks; cbn [set_heap heap Blocks].
  - by rewrite <- (upd_ids _ _ _ _ _ Hu).
  - unfold h. by rewrite length_insert.
  - intros id' l'. rewrite Hi. split; intros [Hl' <-]; (split; [done|]); by destruct (Hsame _ Hl').
  - rewrite Ho. apply filter_ext_on. intros l' Hl'. symmetry. by apply Hsame.
  - eapply upd_all_uploaded; [exact Hc|exact Hr0|exact Hget|exact Hother|exact Hu|done].
  - intros id' Hs'. rewrite <- (upd_ids _ _ _ _ _ Hu). destruct (decide (id' = id)) as [->|Hne].
    + by apply (in_ids _ _ l).
    + apply Hp. by rewrite lookup_insert_ne in Hs'.
  - by eapply (upd_placed get get' N id c rev).
  - done.
  - done.
Qed.

(** An upload is kept beside what is committed. *)
Lemma PutBlock_ok : Rep get' N idx' (uploadBlock id c b).
Proof. destruct (icache idx !! id) as [l|] eqn:E; [by eapply PutBlock_known|by apply PutBlock_new]. Qed.
End PutBlock.

(** ** A list of blocks is committed *)

Lemma NoDup_ids_filter f (bs : list Block) : NoDup (ID <$> bs) -> NoDup (ID <$> List.filter f bs).
Proof.
  induction bs as [|a bs IH]; [done|]. rewrite fmap_cons. intros [Hn Hnd]%NoDup_cons. cbn [List.filter].
  destruct (f a); [|by apply IH]. rewrite fmap_cons. apply NoDup_cons. split; [|by apply IH].
  intros (x & E & [_ Hx]%elem_of_filter_b)%list_elem_of_fmap. apply Hn. rewrite E. by apply list_elem_of_fmap_2.
Qed.

(** ** The caches *)

Lemma icache_build h (ls : list nat) : NoDup (ID <$> (at_ h <$> ls)) -> forall (m : gmap string nat) id l,
  foldl (fun m l => <[ID (at_ h l) := l]> m) m ls !! id = Some l <->
  (l ∈ ls /\ ID (at_ h l) = id) \/ (id ∉ ID <$> (at_ h <$> ls) /\ m !! id = Some l).
Proof.
  induction ls as [|a ls IH]; intros Hnd m id l.
  - cbn. split; [right; split; [apply not_elem_of_nil|done]|]. intros [[?%elem_of_nil _]|[_ ?]]; done.
  - rewrite !fmap_cons in *. apply NoDup_cons in Hnd as [Hn Hnd]. cbn [foldl]. rewrite IH by done. rewrite elem_of_cons, not_elem_of_cons.
    destruct (decide (id = ID (at_ h a))) as [->|Hne].
    + rewrite lookup_insert_eq. split; [intros [[Hl E]|[_ [= <-]]]; auto|]. intros [[[->|Hl] E]|[[? _] _]]; [auto|auto|done].
    + rewrite lookup_insert_ne by done. split; [intros [[Hl E]|[? ?]]; auto|]. intros [[[->|Hl] E]|[[_ ?] ?]]; [by destruct Hne|auto|auto].
Qed.

Lemma placed_sorted g M h (ls : list nat) : forall off l, placed g M off (at_ h <$> ls) l ->
  StronglySorted (fun i j => (Offset (at_ h i) <? Offset (at_ h j)) = true) ls /\ Forall (fun i => off <= Offset (at_ h i)) ls.
Proof.
  induction ls as [|a ls IH]; intros off [|[id c] l]; [repeat constructor|done|done|]. rewrite fmap_cons. cbn [placed].
  intros (_ & Ho & (_ & _ & Hsz & _) & [Hs Hb]%IH). unfold sized in Hsz. split.
  - constructor; [done|]. eapply Forall_impl; [exact Hb|]. cbn. intros i Hi. apply Z.ltb_lt. lia.
  - constructor; [lia|]. eapply Forall_impl; [exact Hb|]. cbn. lia.
Qed.

Lemma placed_revs g M off blks l : placed g M off blks l -> Forall (fun blk => 0 < CommittedRev blk <= M) blks.
Proof.
  revert off l. induction blks as [|blk blks IH]; intros off [|[id c] l]; [constructor|done|done|]. cbn [placed].
  intros (_ & _ & (Hr & _) & Hp). constructor; [done|by eapply IH].
Qed.

Lemma filter_all {A} (f : A -> bool) l : Forall (fun x => f x = true) l -> List.filter f l = l.
Proof. induction 1 as [|x l Hx _ IH]; [done|]. cbn. by rewrite Hx, IH. Qed.

(** The caches are right after they are built. *)
Lemma Rep_build {sorter : SortSlice} g M size h ls ic oc ns b :
  NoDup (ID <$> (at_ h <$> ls)) -> Forall (fun l => (l < length h)%nat) ls -> Forall (uploaded g M (pending b)) (at_ h <$> ls) ->
  (forall id, is_Some (pending b !! id) -> id ∈ ID <$> (at_ h <$> ls)) -> placed g M 0 (List.filter isCommitted (at_ h <$> ls)) (committed b) ->
  size = Z.of_nat (length (content b)) -> Z.of_nat (length (committed b)) <= maxList ->
  Rep g M (buildCache (mkIndex size h ls ic oc ns)) b.
Proof.
  intros Hnd Hb Hup Hp Hpl Hs Hc. unfold buildCache. cbn [heap Blocks Size needSave]. split; unfold blocks; cbn [heap Blocks icache ocache Size]; try done.
  - intros id l. rewrite icache_build by done. rewrite lookup_empty. naive_solver.
  - rewrite <- filter_fmap_at in Hpl. apply placed_sorted in Hpl as [Hsorted _]. apply Slice_id; [|exact Hsorted].
    apply StrictWeak_on. split; intros; lia.
Qed.

Section Commit.
Context {sorter : SortSlice} (get : string -> option (list byte)) (N : Z) (b : Blob).

(** What an index knows of a block. *)
Definition known (blk : Block) : Prop :=
  uploaded get N (pending b) blk /\
  (if isCommitted blk then exists c, old b (ID blk) = Some c /\ stored get N blk c else old b (ID blk) = None).

Lemma rep_known idx : Rep get N idx b -> Forall known (blocks idx).
Proof.
  intros [Hids _ _ _ Hup _ Hpl _ _]. apply Forall_forall. intros blk Hblk. split; [by eapply Forall_forall in Hup|].
  assert (NoDup (ID <$> List.filter isCommitted (blocks idx))) as Hnd by by apply NoDup_ids_filter.
  rewrite (placed_ids _ _ _ _ _ Hpl) in Hnd. destruct (isCommitted blk) eqn:Ec.
  - apply (placed_stored _ _ _ _ _ _ Hpl Hnd). by apply elem_of_filter_b.
  - unfold old. apply not_elem_of_list_to_map. rewrite <- (placed_ids _ _ _ _ _ Hpl).
    intros (x & Ex & [Hc Hx]%elem_of_filter_b)%list_elem_of_fmap.
    assert (blk = x) as -> by (by eapply NoDup_ids_blocks). congruence.
Qed.

Lemma rep_unknown idx id : Rep get N idx b -> id ∉ ID <$> blocks idx -> pending b !! id = None /\ old b id = None.
Proof.
  intros [_ _ _ _ _ Hp Hpl _ _] Hn. split.
  - destruct (pending b !! id) eqn:E; [|done]. destruct Hn. apply Hp. by rewrite E.
  - unfold old. apply not_elem_of_list_to_map. rewrite <- (placed_ids _ _ _ _ _ Hpl).
    intros (x & -> & [_ Hx]%elem_of_filter_b)%list_elem_of_fmap. apply Hn. by apply list_elem_of_fmap_2.
Qed.

(** One entry of the list. *)
Lemma putMode_ok xb blk : known blk -> ID blk = xID xb ->
  match putMode xb blk with
  | inl _ => resolve b xb = None
  | inr (blk', names) => exists c, resolve b xb = Some c /\ ID blk' = ID blk /\ Offset blk' = Offset blk /\ UploadedRev blk' = 0 /\
      stored get (N + 1) blk' c /\ Forall (fun g => exists r, 0 <= r /\ r <> CommittedRev blk' /\ g = objectName (xID xb) r) names
  end.
Proof.
  intros [[Hr Hu] Hc] Hid. unfold putMode, resolve. unfold isCommitted in Hc. rewrite <- Hid.
  assert (forall c, stored get N blk c -> stored get (N + 1) blk c) as Hmono by (intros c [? ?]; split; [lia|done]).
  assert (UploadedRev blk <> 0 -> exists c, pending b !! ID blk = Some c /\ stored get (N + 1) (commit blk) c) as Hcommit.
  { intros Hne. destruct Hu as [(? & _)|(E & c & Hp & Hs & Hsz & Hg)]; [done|]. exists c. split; [done|].
    unfold stored, commit. cbn. split; [lia|done]. }
  assert (forall c, stored get (N + 1) (commit blk) c -> UploadedRev blk <> 0 ->
    Forall (fun g => exists r, 0 <= r /\ r <> CommittedRev (commit blk) /\ g = objectName (ID blk) r)
      (if negb (CommittedRev blk =? 0) then [objectName (ID blk) (CommittedRev blk)] else [])) as Hgarb.
  { intros c _ Hne. destruct (CommittedRev blk =? 0) eqn:E; [constructor|]. repeat constructor. exists (CommittedRev blk). cbn.
    split; [lia|]. split; [lia|done]. }
  case_bool_decide as E1; [|case_bool_decide as E2; [|case_bool_decide as E3; [|done]]].
  - destruct (CommittedRev blk =? 0) eqn:E; [by rewrite (proj2 (Z.ltb_ge _ _)) in Hc by lia|].
    rewrite (proj2 (Z.ltb_lt _ _)) in Hc by lia. destruct Hc as (c & Hc & Hs).
    destruct (UploadedRev blk =? 0) eqn:Eu; cbn [negb]; exists c; do 3 (split; [done|]).
    + split; [lia|]. split; [by apply Hmono|constructor].
    + split; [done|]. split; [by apply (Hmono c)|]. repeat constructor. exists 0. cbn. split; [lia|]. split; [lia|done].
  - destruct (UploadedRev blk =? 0) eqn:Eu.
    + destruct Hu as [(_ & Hp & _)|(E & _)]; [done|lia].
    + destruct Hcommit as (c & Hp & Hs); [lia|]. exists c. do 5 (split; [done|]). eapply Hgarb; [done|lia].
  - destruct (UploadedRev blk =? 0) eqn:Eu; cbn [negb].
    + destruct Hu as [(_ & Hp & Hpos)|(E & _)]; [|lia]. rewrite Hp. rewrite (proj2 (Z.ltb_lt _ _)) in Hc by lia. destruct Hc as (c & Hc & Hs).
      exists c. do 3 (split; [done|]). split; [lia|]. split; [by apply Hmono|constructor].
    + destruct Hcommit as (c & Hp & Hs); [lia|]. rewrite Hp. exists c. do 5 (split; [done|]). eapply Hgarb; [done|lia].
Qed.

(** ** The loop *)

Variable idx : Index.
Hypothesis Hrep : Rep get N idx b.

(** The name of an object that a block of the list does not use. *)
Definition replaced (h : list Block) (nb : list nat) (g : string) : Prop :=
  exists id r, g = objectName id r /\ 0 <= r /\ id ∈ ID <$> (at_ h <$> nb) /\
    forall l, l ∈ nb -> ID (at_ h l) = id -> CommittedRev (at_ h l) <> r.

(** The state of the loop: the blocks so far, with the bytes of [cs], and the
    blocks of the entries to come as they were. *)
Record Loop (xs : list XBlockIn) (h : list Block) (nb : list nat) (garbage : list string) (size : Z) (cs : list (string * list byte)) : Prop := {
  loop_length : length h = length (heap idx);
  loop_in : Forall (.∈ Blocks idx) nb;
  loop_id : forall l, l ∈ Blocks idx -> ID (at_ h l) = ID (at_ (heap idx) l);
  loop_nodup : NoDup ((ID <$> (at_ h <$> nb)) ++ (xID <$> xs));
  loop_kept : forall l, l ∈ Blocks idx -> ID (at_ h l) ∉ ID <$> (at_ h <$> nb) -> at_ h l = at_ (heap idx) l;
  loop_committed : Forall (fun blk => UploadedRev blk = 0) (at_ h <$> nb);
  loop_placed : placed get (N + 1) 0 (at_ h <$> nb) cs;
  loop_size : size = Z.of_nat (length (bytesOf cs));
  loop_garbage : Forall (replaced h nb) garbage;
  loop_count : Z.of_nat (length cs + length xs) <= maxList
}.

Lemma placed_bound M off blks l : placed get M off blks l -> Z.of_nat (length (bytesOf l)) <= 2 ^ 40 * Z.of_nat (length l).
Proof.
  revert off l. induction blks as [|blk blks IH]; intros off [|[id c] l]; cbn [placed]; [by cbn|done|done|].
  intros (_ & _ & (_ & _ & Hsz & _) & Hp%IH). rewrite bytesOf_cons, length_app. cbn [length]. unfold sized in Hsz. lia.
Qed.

Lemma loop_start xs : NoDup (xID <$> xs) -> Z.of_nat (length xs) <= maxList -> Loop xs (heap idx) [] [] 0 [].
Proof. intros Hnd Hc. split; try done; constructor. Qed.

Lemma replaced_step h nb l blk id garbage names : (l < length h)%nat -> ID blk = id -> id ∉ ID <$> (at_ h <$> nb) ->
  at_ (<[l := blk]> h) <$> (nb ++ [l]) = (at_ h <$> nb) ++ [blk] -> Forall (replaced h nb) garbage ->
  Forall (fun g => exists r, 0 <= r /\ r <> CommittedRev blk /\ g = objectName id r) names ->
  Forall (replaced (<[l := blk]> h) (nb ++ [l])) (garbage ++ names).
Proof.
  intros Hlt Hb Hn Eb Hg Hnames. apply Forall_app. split.
  - eapply Forall_impl; [exact Hg|]. intros g (id' & r & -> & Hr & Hi & Hrev). exists id', r. rewrite Eb, fmap_app. split; [done|]. split; [done|].
    split; [apply elem_of_app; by left|]. intros l' Hl' E. rewrite at_insert in E |- * by done. case_decide as El.
    + rewrite <- E, Hb in Hi. done.
    + apply elem_of_app in Hl' as [?|?%list_elem_of_singleton]; [by apply Hrev|done].
  - eapply Forall_impl; [exact Hnames|]. intros g (r & Hr & Hrev & ->). exists id, r. rewrite Eb, fmap_app. split; [done|]. split; [done|].
    split; [apply elem_of_app; right; cbn; rewrite Hb; by left|]. intros l' Hl' E. rewrite at_insert in E |- * by done. case_decide as El; [done|].
    apply elem_of_app in Hl' as [Hl'|?%list_elem_of_singleton]; [|done]. destruct Hn. by apply (in_ids _ _ l').
Qed.

(** An entry moves its block to the end. *)
Lemma loop_step xb xs h nb garbage size cs l blk names c : Loop (xb :: xs) h nb garbage size cs -> icache idx !! xID xb = Some l ->
  ID blk = xID xb -> Offset blk = size -> UploadedRev blk = 0 -> stored get (N + 1) blk c ->
  Forall (fun g => exists r, 0 <= r /\ r <> CommittedRev blk /\ g = objectName (xID xb) r) names ->
  Loop xs (<[l := blk]> h) (nb ++ [l]) (garbage ++ names) (u64 (size + CommittedSize blk)) (cs ++ [(xID xb, c)]).
Proof.
  intros [Hlen Hin Hid Hnd Hkept Hcom Hpl Hsize Hg Hcount] [Hl Hlid]%(rep_icache _ _ _ _ Hrep) Hb Hoff Hup Hst Hnames.
  assert (l < length h)%nat as Hlt by (rewrite Hlen; exact (proj1 (Forall_forall _ _) (rep_bound _ _ _ _ Hrep) l Hl)).
  assert (xID xb ∉ ID <$> (at_ h <$> nb)) as Hxb by (intros Hi; apply NoDup_app in Hnd as (_ & Hd & _); by eapply Hd; [|left]).
  assert (forall l', l' ∈ nb -> l' <> l) as Hne.
  { intros l' Hl' ->. apply Hxb. apply (in_ids _ _ l); [done|]. by rewrite Hid. }
  assert (at_ (<[l := blk]> h) <$> nb = at_ h <$> nb) as Enb.
  { apply list_fmap_ext. intros i l' Hl'%list_elem_of_lookup_2. rewrite at_insert by done. by rewrite decide_False by auto. }
  assert (at_ (<[l := blk]> h) <$> (nb ++ [l]) = (at_ h <$> nb) ++ [blk]) as Eb.
  { rewrite fmap_app, Enb. cbn. rewrite at_insert by done. by rewrite decide_True. }
  assert (Z.of_nat (length (bytesOf cs)) + Z.of_nat (length c) < 2 ^ 64) as Hbound.
  { pose proof (placed_bound _ _ _ _ Hpl). destruct Hst as (_ & _ & Hsz & _). unfold sized, maxList in *. cbn in Hcount. lia. }
  split; rewrite ?Eb.
  - by rewrite length_insert.
  - apply Forall_app. split; [done|]. by constructor.
  - intros l' Hl'. rewrite at_insert by done. case_decide; [subst l'; by rewrite Hb|by apply Hid].
  - rewrite fmap_app. cbn. by rewrite Hb, <- app_assoc.
  - intros l' Hl'. rewrite fmap_app, not_elem_of_app, at_insert by done. case_decide as E; [subst l'|by intros [? _]; apply Hkept].
    intros [_ Hn]. cbn in Hn. set_solver.
  - apply Forall_app. split; [done|]. by constructor.
  - apply placed_app; [done|done| |done]. by rewrite Hoff, Hsize.
  - destruct Hst as (_ & Hs & _ & _). rewrite bytesOf_app, bytesOf_cons, !length_app, Hs, Hsize. unfold wrap. rewrite Z.mod_small by lia.
    change (bytesOf []) with (@nil byte). cbn. lia.
  - by eapply replaced_step.
  - rewrite length_app. cbn in *. lia.
Qed.

Definition commits (r : list Block * (blockError + (list nat * list string * Z))) (cs : list (string * list byte)) (rest : option (list (string * list byte))) : Prop :=
  match r with
  | (_, inl _) => rest = None
  | (h, inr (nb, garbage, size)) => exists cs', rest = Some cs' /\ Loop [] h nb garbage size (cs ++ cs')
  end.

Lemma putLoop_ok xs : forall h nb garbage size cs, Loop xs h nb garbage size cs ->
  commits (putLoop xs (icache idx) h nb garbage size) cs (mapM (entry b) xs).
Proof.
  induction xs as [|xb xs IH]; intros h nb garbage size cs HL; cbn [putLoop mapM].
  - exists []. by rewrite app_nil_r.
  - destruct (icache idx !! xID xb) as [l|] eqn:El.
    + destruct (proj1 (rep_icache _ _ _ _ Hrep _ _) El) as [Hl Hid].
      assert (known (at_ (heap idx) l)) as Hk by (eapply Forall_forall; [by eapply rep_known|by apply list_elem_of_fmap_2]).
      assert (at_ h l = at_ (heap idx) l) as ->.
      { apply (loop_kept _ _ _ _ _ _ HL _ Hl). intros Hi. rewrite (loop_id _ _ _ _ _ _ HL l Hl), Hid in Hi.
        pose proof (loop_nodup _ _ _ _ _ _ HL) as (_ & Hd & _)%NoDup_app. by eapply Hd; [|left]. }
      set (blk := at_ (heap idx) l) in *.
      pose proof (putMode_ok xb (mkBlock (ID blk) size (UploadedSize blk) (UploadedRev blk) (CommittedSize blk) (CommittedRev blk)) Hk Hid) as Hm.
      destruct (putMode xb _) as [err|[blk' names]]; cbn [commits].
      * assert (entry b xb = None) as -> by (unfold entry; by rewrite Hm). done.
      * destruct Hm as (c & Hr & Hi & Ho & Hu & Hst & Hg). assert (entry b xb = Some (xID xb, c)) as -> by (unfold entry; by rewrite Hr). cbn [mbind option_bind].
        assert (Loop xs (<[l := blk']> h) (nb ++ [l]) (garbage ++ names) (u64 (size + CommittedSize blk')) (cs ++ [(xID xb, c)])) as HL'.
        { eapply loop_step; [exact HL|done|by rewrite Hi|done..]. }
        specialize (IH _ _ _ _ _ HL'). unfold commits in *. destruct (putLoop _ _ _ _ _ _) as [h' [err|[[nb' g'] size']]].
        -- by rewrite IH.
        -- destruct IH as (cs' & E & HL''). exists ((xID xb, c) :: cs'). rewrite E. split; [done|]. by rewrite <- app_assoc in HL''.
    + cbn [commits]. destruct (rep_unknown _ _ Hrep (icache_none _ _ _ _ _ Hrep El)) as [Hp Ho].
      assert (entry b xb = None) as ->; [|done]. unfold entry, resolve. rewrite Hp, Ho. repeat case_bool_decide; done.
Qed.

(** ** The list *)

(** No block has its bytes in the object. *)
Definition unused (idx' : Index) (g : string) : Prop :=
  exists id r, g = objectName id r /\ 0 <= r /\ forall blk, blk ∈ blocks idx' -> ID blk = id -> CommittedRev blk <> r.

Lemma objectsOf_names blk : known blk -> Forall (fun g => exists r, 0 <= r /\ g = objectName (ID blk) r) (objectsOf blk).
Proof.
  intros [[Hr Hu] _]. unfold objectsOf. apply Forall_app. split.
  - destruct (UploadedRev blk =? 0) eqn:E; [constructor|]. repeat constructor. exists (UploadedRev blk). split; [|done].
    destruct Hu as [[? _]|[? _]]; lia.
  - destruct (CommittedRev blk =? 0) eqn:E; [constructor|]. repeat constructor. exists (CommittedRev blk). split; [lia|done].
Qed.

Lemma PutBlockList_ok xs : NoDup (xID <$> xs) -> Z.of_nat (length xs) <= maxList ->
  match PutBlockList xs idx with
  | (inl _, _) => commitBlocks xs b = None
  | (inr garbage, idx') => exists b', commitBlocks xs b = Some b' /\ Rep get (N + 1) idx' b' /\ Forall (unused idx') garbage
  end.
Proof.
  intros Hnd Hc. pose proof (putLoop_ok _ _ _ _ _ _ (loop_start xs Hnd Hc)) as Hl. unfold PutBlockList, commitBlocks.
  destruct (putLoop _ _ _ _ _ _) as [h [err|[[nb garbage] size]]]; cbn [commits] in Hl; [by rewrite Hl|].
  destruct Hl as (cs & -> & [Hlen Hin Hid Hnd' Hkept Hcom Hpl Hsize Hg Hcount]). rewrite app_nil_l in *. rewrite app_nil_r in Hnd'. cbn [mbind option_bind].
  set (idx' := buildCache _). exists (mkBlob cs ∅). split; [done|].
  pose proof (placed_revs _ _ _ _ _ Hpl) as Hrevs.
  assert (Rep get (N + 1) idx' (mkBlob cs ∅)) as Hrep'.
  { apply Rep_build; cbn [committed pending]; try done.
    - eapply Forall_impl; [exact Hin|]. cbn. intros l Hl. rewrite Hlen. by apply (proj1 (Forall_forall _ _) (rep_bound _ _ _ _ Hrep)).
    - apply Forall_forall. intros blk Hblk. rewrite Forall_forall in Hrevs, Hcom. specialize (Hrevs _ Hblk). cbn in Hrevs.
      split; [lia|]. left. split; [by apply Hcom|]. split; [done|lia].
    - intros id [? ?]. done.
    - rewrite filter_all; [done|]. eapply Forall_impl; [exact Hrevs|]. cbn. intros blk Hr. apply Z.ltb_lt. lia.
    - cbn in Hcount. lia. }
  split; [done|]. apply Forall_app. split.
  - eapply Forall_impl; [exact Hg|]. cbn. intros g (id & r & -> & Hr & _ & Hrev). exists id, r. do 2 (split; [done|]).
    intros blk (l & -> & Hl)%list_elem_of_fmap. by apply Hrev.
  - apply Forall_forall. intros g (gs & Hg' & (l & -> & [Hn Hl]%elem_of_filter_b)%list_elem_of_fmap)%list_elem_of_join.
    apply bool_decide_eq_true in Hn. pose proof (icache_none _ _ _ _ _ Hrep' Hn) as Hfresh.
    assert (at_ h l = at_ (heap idx) l) as El by by apply Hkept. rewrite El in *.
    assert (known (at_ (heap idx) l)) as Hk by (eapply Forall_forall; [by eapply rep_known|by apply list_elem_of_fmap_2]).
    pose proof (proj1 (Forall_forall _ _) (objectsOf_names _ Hk) _ Hg') as (r & Hr & ->). exists (ID (at_ (heap idx) l)), r.
    do 2 (split; [done|]). intros blk Hblk E. destruct Hfresh. rewrite <- E. by apply list_elem_of_fmap_2.
Qed.
End Commit.
