(* ===== verification/BlobSteps.v ===== *)
(** * SQL Server: the requests of a blob

    Reading a range: [GetSections] finds the block of the first byte by binary
    search and goes on from there, and the sections it gives, read one after the
    other, are the bytes of the range. An index that is saved and loaded
    represents the same blob. Then what a request does to the blob that the server
    has at a path: the index it knows, or the one that is saved, represents it. *)

From stdpp Require Import gmap strings list.
From S2P Require Import Prelude GoStrings GoPath GoSort Timeline BackupMeta.
From S2P Require Import GoDecimal.
From S2P Require Import BlobIndex BlobServer BlobSpec BlobRep.
Open Scope Z_scope.

(** ** Reading *)

Section Read.
Variable get : string -> option (list byte).
Variable N : Z.

(** The sections, of the objects that [get] has. *)
Fixpoint readAll (sections : list Section_) : list byte :=
  match sections with
  | [] => []
  | s :: sections => match get (Path s) with None => [] | Some c => readSection c s ++ readAll sections end
  end.

(** Where a block starts. *)
Definition start (l : list (string * list byte)) (i : nat) : Z := Z.of_nat (length (bytesOf (take i l))).

Lemma start_0 l : start l 0 = 0.
Proof. done. Qed.

Lemma start_S l i id c : l !! i = Some (id, c) -> start l (S i) = start l i + Z.of_nat (length c).
Proof.
  intros Hl. unfold start. rewrite (take_S_r _ _ _ Hl), bytesOf_app, bytesOf_cons, !length_app. change (bytesOf []) with (@nil byte). cbn. lia.
Qed.

Lemma start_mono l i j : (i <= j)%nat -> start l i <= start l j.
Proof.
  intros Hij. unfold start. rewrite <- (take_drop i (take j l)), bytesOf_app, length_app, take_take, Nat.min_l by done. lia.
Qed.

Lemma start_total l i : start l i <= Z.of_nat (length (bytesOf l)).
Proof. unfold start. pose proof (f_equal bytesOf (take_drop i l)) as E. rewrite bytesOf_app in E. rewrite <- E, length_app. lia. Qed.

Lemma start_find l : forall a, 0 <= a < Z.of_nat (length (bytesOf l)) ->
  exists t id c, l !! t = Some (id, c) /\ start l t <= a < start l t + Z.of_nat (length c).
Proof.
  induction l as [|[id c] l IH]; intros a Ha; [change (bytesOf []) with (@nil byte) in Ha; cbn in Ha; lia|]. rewrite bytesOf_cons, length_app in Ha.
  destruct (decide (a < Z.of_nat (length c))) as [Hc|Hc]; [exists 0%nat, id, c; split; [done|]; rewrite start_0; lia|].
  destruct (IH (a - Z.of_nat (length c))) as (t & id' & c' & Hl & Ht); [lia|]. exists (S t), id', c'. split; [done|].
  unfold start in *. cbn [take]. rewrite bytesOf_cons, length_app. lia.
Qed.

Lemma placed_at off blks l i id c : placed get N off blks l -> l !! i = Some (id, c) ->
  exists blk, blks !! i = Some blk /\ Offset blk = off + start l i /\ CommittedSize blk = Z.of_nat (length c) /\ 0 < Z.of_nat (length c).
Proof.
  revert off l i. induction blks as [|blk blks IH]; intros off [|[id' c'] l] i; cbn [placed]; [done..|].
  intros (_ & Ho & (_ & Hs & Hsz & _) & Hp) Hl. destruct i as [|i]; cbn in Hl.
  - injection Hl as -> ->. exists blk. rewrite start_0. unfold sized in *. split_and!; [done|lia|done|lia].
  - destruct (IH _ _ _ Hp Hl) as (blk' & Hb & Ho' & Hs' & Hpos). exists blk'. split_and!; [done| |done|done].
    unfold start in *. cbn [take]. rewrite bytesOf_cons, length_app. lia.
Qed.

Lemma placed_length off blks l : placed get N off blks l -> length blks = length l.
Proof. intros Hp. rewrite <- (length_fmap ID), (placed_ids _ _ _ _ _ Hp). apply length_fmap. Qed.

Lemma placed_drop t : forall off blks l, placed get N off blks l -> placed get N (off + start l t) (drop t blks) (drop t l).
Proof.
  induction t as [|t IH]; intros off blks l Hp; [by rewrite start_0, Z.add_0_r|].
  destruct blks as [|blk blks], l as [|[id c] l]; cbn [placed] in Hp; [done..|]. destruct Hp as (_ & _ & _ & Hp%IH). cbn [drop].
  replace (off + start ((id, c) :: l) (S t)) with (off + Z.of_nat (length c) + start l t); [done|].
  unfold start. cbn [take]. rewrite bytesOf_cons, length_app. lia.
Qed.

Lemma u64_small z : 0 <= z < 2 ^ 64 -> u64 z = z.
Proof. apply Z.mod_small. Qed.

(** The search finds the block of the byte. *)
Lemma search_ok blks l a t id c : placed get N 0 blks l -> Z.of_nat (length (bytesOf l)) < 2 ^ 63 ->
  l !! t = Some (id, c) -> start l t <= a < start l t + Z.of_nat (length c) ->
  forall fuel lo hi, 0 <= lo -> hi < Z.of_nat (length l) -> lo <= Z.of_nat t <= hi -> hi - lo <= Z.of_nat fuel ->
  search fuel blks a lo hi = Z.of_nat t.
Proof.
  intros Hp Hsize Ht Ha fuel. induction fuel as [|fuel IH]; intros lo hi Hlo Hhi Hr Hf; cbn [search]; [lia|].
  destruct (lo <? hi) eqn:E; [|lia]. apply Z.ltb_lt in E.
  pose proof (Z.div_mod (hi + lo) 2 ltac:(lia)). pose proof (Z.mod_pos_bound (hi + lo) 2 ltac:(lia)).
  set (m := (hi + lo) / 2) in *. destruct (lookup_lt_is_Some_2 l (Z.to_nat m)) as [[id' c'] Hm]; [lia|].
  destruct (placed_at _ _ _ _ _ _ Hp Hm) as (blk & Hb & Ho & Hs & Hpos). assert (at_ blks (Z.to_nat m) = blk) as -> by (unfold at_; by rewrite Hb).
  rewrite Ho, Hs. pose proof (start_S _ _ _ _ Hm) as HS. pose proof (start_S _ _ _ _ Ht) as HSt. pose proof (start_total l (S (Z.to_nat m))) as Htot.
  assert (0 <= start l (Z.to_nat m)) by (unfold start; lia). rewrite u64_small by lia.
  destruct (_ <? a) eqn:E1; [|destruct (a <? _) eqn:E2].
  - apply IH; try lia. apply Z.ltb_lt in E1. destruct (decide (Z.of_nat t <= m)) as [Hle|]; [|lia].
    pose proof (start_mono l (S t) (S (Z.to_nat m)) ltac:(lia)). lia.
  - apply IH; try lia. apply Z.ltb_lt in E2. destruct (decide (m <= Z.of_nat t)) as [Hle|]; [|lia].
    pose proof (start_mono l (Z.to_nat m) t ltac:(lia)). lia.
  - destruct (Z.lt_trichotomy (Z.of_nat t) m) as [Hlt|[|Hlt]]; [|done|].
    + pose proof (start_mono l (S t) (Z.to_nat m) ltac:(lia)). lia.
    + pose proof (start_mono l (S (Z.to_nat m)) t ltac:(lia)). lia.
Qed.

Lemma take_ge_min {A} n (l : list A) : take n l = take (n `min` length l) l.
Proof. destruct (decide (n <= length l)%nat); [by rewrite Nat.min_l|]. rewrite Nat.min_r by lia. by rewrite !take_ge by lia. Qed.

Lemma drop_take_app {A} (k n : nat) (x y : list A) : (k <= length x)%nat -> (k <= n)%nat ->
  drop k (take n (x ++ y)) = take (n - k) (drop k x) ++ take (n - length x) y.
Proof.
  intros Hk Hn. rewrite take_app, drop_app, length_take. replace (k - n `min` length x)%nat with 0%nat by lia.
  rewrite drop_0, (take_drop_commute x (n - k) k). by replace (k + (n - k))%nat with n by lia.
Qed.

Lemma scan_reads blks : forall off l a r, placed get N off blks l -> 0 <= off -> off + Z.of_nat (length (bytesOf l)) < 2 ^ 63 -> 0 <= a <= r ->
  match l with [] => True | (_, c) :: _ => a < off + Z.of_nat (length c) end ->
  readAll (scan blks a r) = drop (Z.to_nat (a - off)) (take (Z.to_nat (r + 1 - off)) (bytesOf l)).
Proof.
  induction blks as [|blk blks IH]; intros off [|[id c] l] a r; cbn [placed]; [|done|done|].
  - intros _ _ _ _ _. change (bytesOf []) with (@nil byte). by rewrite take_nil, drop_nil.
  - intros (Hid & Ho & (_ & Hs & Hsz & Hg) & Hp) Hoff Hb Har Ha. rewrite bytesOf_cons, length_app in Hb. unfold sized in Hsz.
    cbn [scan]. rewrite Ho, Hs. destruct (r <? off) eqn:Er.
    { apply Z.ltb_lt in Er. replace (Z.to_nat (r + 1 - off)) with 0%nat by lia. by rewrite take_0, drop_nil. }
    apply Z.ltb_ge in Er. rewrite (u64_small (off + Z.of_nat (length c) - 1)) by lia.
    assert ((if off <? a then u64 (a - off) else 0) = Z.max 0 (a - off)) as ->.
    { destruct (off <? a) eqn:E; [rewrite u64_small by lia|]; lia. }
    assert ((if r <? off + Z.of_nat (length c) - 1 then u64 (r - off + 1) else Z.of_nat (length c)) = Z.min (Z.of_nat (length c)) (r - off + 1)) as ->.
    { destruct (r <? _) eqn:E; [rewrite u64_small by lia|]; lia. }
    rewrite u64_small by lia. cbn [readAll Path]. rewrite Hg. unfold readSection. cbn [sOffset Limit].
    rewrite !(proj2 (Z.leb_gt _ _)) by lia.
    rewrite (IH _ _ a r Hp); [|lia|lia|lia|destruct l as [|[id' c'] l']; lia || done].
    rewrite bytesOf_cons, drop_take_app by lia. f_equal.
    + rewrite take_ge_min with (n := (Z.to_nat (r + 1 - off) - Z.to_nat (a - off))%nat). f_equal; [|f_equal]; rewrite ?length_drop; lia.
    + replace (Z.to_nat (a - (off + Z.of_nat (length c)))) with 0%nat by lia. rewrite drop_0. f_equal. lia.
Qed.

Lemma rep_total idx b : Rep get N idx b -> Z.of_nat (length (content b)) <= 2 ^ 60.
Proof. intros Hrep. pose proof (placed_bound _ _ _ _ _ (rep_placed _ _ _ _ Hrep)). pose proof (rep_count _ _ _ _ Hrep). unfold content, maxList in *. lia. Qed.

(** A range that starts in the blob. *)
Lemma GetSections_ok idx b a r : Rep get N idx b -> 0 <= a <= r -> a < Z.of_nat (length (content b)) ->
  readAll (GetSections a r idx) = drop (Z.to_nat a) (take (Z.to_nat (r + 1)) (content b)).
Proof.
  intros Hrep Har Ha. pose proof (rep_total _ _ Hrep) as Htot. pose proof (rep_placed _ _ _ _ Hrep) as Hp. unfold content in *.
  unfold GetSections. rewrite (rep_ocache _ _ _ _ Hrep), filter_fmap_at. fold (blocks idx). set (blks := List.filter isCommitted (blocks idx)) in *.
  set (l := committed b) in *. destruct (start_find l a) as (t & id & c & Ht & Hst); [lia|].
  pose proof (lookup_lt_Some _ _ _ Ht). pose proof (placed_length _ _ _ Hp) as Hlen.
  rewrite (search_ok blks l a t id c Hp) by (done || lia). rewrite Nat2Z.id. pose proof (start_total l t).
  pose proof (placed_drop t _ _ _ Hp) as Hd. rewrite Z.add_0_l in Hd. pose proof (f_equal bytesOf (take_drop t l)) as E. rewrite bytesOf_app in E.
  assert (length (bytesOf l) = length (bytesOf (take t l)) + length (bytesOf (drop t l)))%nat as El by (by rewrite <- E, length_app).
  unfold start in *. rewrite (scan_reads _ _ _ a r Hd); [|lia|lia|done|rewrite (drop_S _ _ _ Ht); lia].
  rewrite <- E, take_app, drop_app, length_take.
  rewrite (drop_ge (take _ (bytesOf (take t l)))) by (rewrite length_take; lia). cbn. f_equal; [lia|]. f_equal. lia.
Qed.

(** The whole blob, also when it is empty. *)
Lemma GetSections_all idx b : Rep get N idx b -> readAll (GetSections 0 (u64 (Size idx - 1)) idx) = content b.
Proof.
  intros Hrep. pose proof (rep_total _ _ Hrep) as Htot. rewrite (rep_size _ _ _ _ Hrep).
  destruct (decide (0 < Z.of_nat (length (content b)))) as [Hpos|Hz].
  - rewrite u64_small by lia. rewrite (GetSections_ok _ _ _ _ Hrep) by lia. rewrite drop_0, take_ge; [done|lia].
  - assert (content b = []) as -> by (apply nil_length_inv; lia). pose proof (rep_placed _ _ _ _ Hrep) as Hp.
    assert (committed b = []) as El.
    { destruct (committed b) as [|[id c] l] eqn:E; [done|].
      destruct (placed_at _ _ _ 0%nat id c Hp eq_refl) as (_ & _ & _ & _ & Hc). unfold content in Hz. rewrite E, bytesOf_cons, length_app in Hz. lia. }
    unfold GetSections. rewrite (rep_ocache _ _ _ _ Hrep), filter_fmap_at. fold (blocks idx). rewrite El in Hp.
    destruct (List.filter isCommitted (blocks idx)); [done|by destruct Hp].
Qed.

(** *** A last block that claims to be at the start *)

Lemma placed_last blks : forall off l id c, placed get N off blks (l ++ [(id, c)]) ->
  exists blks1 blk, blks = blks1 ++ [blk] /\ placed get N off blks1 l /\ ID blk = id /\ stored get N blk c.
Proof.
  induction blks as [|blk blks IH]; intros off [|[id' c'] l] id c; cbn [app placed]; [done|done| |].
  - intros (<- & _ & Hs & Hp). exists [], blk. destruct blks; done.
  - intros (Hid & Ho & Hs & Hp). destruct (IH _ _ _ _ Hp) as (blks1 & blk1 & -> & Hp1 & Hid1 & Hs1). by exists (blk :: blks1), blk1.
Qed.

(** The search for the first byte does not look at it. *)
Lemma search_first blks l blk fuel : placed get N 0 blks l -> forall hi, hi <= Z.of_nat (length blks) -> Offset blk = 0 ->
  search fuel (blks ++ [blk]) 0 0 hi = 0.
Proof.
  intros Hp. pose proof (placed_length _ _ _ Hp) as Hlen. induction fuel as [|fuel IH]; intros hi Hhi Hblk; cbn [search]; [done|].
  destruct (0 <? hi) eqn:E; [|done]. apply Z.ltb_lt in E. rewrite Z.add_0_r.
  pose proof (Z.div_mod hi 2 ltac:(lia)). pose proof (Z.mod_pos_bound hi 2 ltac:(lia)). set (m := hi / 2) in *.
  destruct (lookup_lt_is_Some_2 l (Z.to_nat m)) as [[id c] Hm]; [lia|]. destruct (placed_at _ _ _ _ _ _ Hp Hm) as (blk' & Hb & Ho & _ & _).
  assert (at_ (blks ++ [blk]) (Z.to_nat m) = blk') as -> by (unfold at_; by rewrite lookup_app_l, Hb by lia).
  rewrite (proj2 (Z.ltb_ge _ _)) by (apply Z.mod_pos; lia). rewrite Ho, Z.add_0_l. destruct (0 <? start l (Z.to_nat m)) eqn:Es.
  - apply IH; [lia|done].
  - apply Z.ltb_ge in Es. destruct (decide (m = 0)) as [|Hne]; [done|]. exfalso.
    destruct (lookup_lt_is_Some_2 l 0) as [[id0 c0] Hl0]; [lia|]. destruct (placed_at _ _ _ _ _ _ Hp Hl0) as (_ & _ & _ & _ & Hpos).
    pose proof (start_S _ _ _ _ Hl0). rewrite start_0 in *. pose proof (start_mono l 1 (Z.to_nat m) ltac:(lia)). lia.
Qed.

(** The blocks before it are read whole. *)
Lemma scan_before blks : forall off l r tail, placed get N off blks l -> 0 <= off -> off + Z.of_nat (length (bytesOf l)) <= r -> r < 2 ^ 63 ->
  readAll (scan (blks ++ tail) 0 r) = bytesOf l ++ readAll (scan tail 0 r).
Proof.
  induction blks as [|blk blks IH]; intros off [|[id c] l] r tail; cbn [placed app]; [done|done|done|].
  intros (_ & Ho & (_ & Hs & Hsz & Hg) & Hp) Hoff Hr Hb. rewrite bytesOf_cons in Hr |- *. rewrite length_app in Hr. unfold sized in Hsz.
  cbn [scan]. rewrite Ho, Hs, !(proj2 (Z.ltb_ge _ _)) by lia. rewrite (u64_small (off + _ - 1)) by lia. rewrite (proj2 (Z.ltb_ge r _)) by lia.
  rewrite u64_small by lia. cbn [readAll Path]. rewrite Hg. unfold readSection. cbn [sOffset Limit]. rewrite !(proj2 (Z.leb_gt _ _)) by lia.
  rewrite Z.sub_0_r, Nat2Z.id, drop_0, take_ge, <- app_assoc by done. f_equal. by apply (IH _ _ _ _ Hp); lia.
Qed.

Lemma scan_last blk c r : Offset blk = 0 -> CommittedSize blk = Z.of_nat (length c) -> sized c -> get (objectName (ID blk) (CommittedRev blk)) = Some c ->
  0 <= r < 2 ^ 63 - 1 -> readAll (scan [blk] 0 r) = take (Z.to_nat (r + 1)) c.
Proof.
  unfold sized. intros Ho Hs Hsz Hg Hr. cbn [scan]. rewrite Ho, Hs, !(proj2 (Z.ltb_ge _ _)) by lia. rewrite (u64_small (0 + _ - 1)) by lia.
  cbn [readAll Path]. rewrite Hg, app_nil_r. unfold readSection. cbn [sOffset Limit]. rewrite (proj2 (Z.leb_gt (2 ^ 63) 0)) by lia. rewrite drop_0, Z.sub_0_r.
  destruct (r <? 0 + Z.of_nat (length c) - 1) eqn:E.
  - rewrite (u64_small (r - 0 + 1)), u64_small, (proj2 (Z.leb_gt _ _)) by lia. f_equal. lia.
  - rewrite u64_small, (proj2 (Z.leb_gt _ _)) by lia. rewrite !take_ge by lia. done.
Qed.

(** What is saved and loaded represents the same blob. *)
Lemma loaded_saved {sorter : SortSlice} idx b : Rep get N idx b -> Rep get N (loaded (fst (saved idx)) (snd (saved idx))) b.
Proof.
  intros [Hids Hb Hi Ho Hup Hp Hpl Hs Hc]. unfold loaded, saved. cbn [fst snd]. fold (blocks idx).
  apply Rep_build; rewrite ?at_seq; try done. apply Forall_forall. intros l Hl%elem_of_seq. lia.
Qed.

Lemma Rep_new {sorter : SortSlice} : Rep get N NewIndex emptyBlob.
Proof.
  split; try done; [apply NoDup_nil_2| |].
  - intros id l. cbn. rewrite lookup_empty. split; [done|]. by intros [?%elem_of_nil _].
  - cbn. intros id [? E]. by rewrite lookup_empty in E.
Qed.
End Read.

(** ** The modes of a list *)

Definition modeOk (xb : XBlockIn) : Prop := Mode xb = BlockLatest \/ Mode xb = BlockCommitted \/ Mode xb = BlockUncommitted.

Lemma UnmarshalXML_modes tokens : forall xs cur ys, Forall modeOk xs -> (forall x, cur = Some x -> modeOk x) ->
  UnmarshalXML tokens xs cur = Ok ys -> Forall modeOk ys.
Proof.
  induction tokens as [|t tokens IH]; intros xs cur ys Hxs Hcur; cbn [UnmarshalXML]; [done|].
  destruct cur as [x|], t as [name|name|s| | |]; try done; try (by apply IH).
  - case_bool_decide; [|done]. apply IH; [|done]. apply Forall_app. split; [done|]. constructor; [by apply Hcur|done].
  - apply IH; [done|]. intros y [= <-]. by apply (Hcur x).
  - destruct (_ || _) eqn:E; [|done]. apply IH; [done|]. intros y [= <-]. unfold modeOk. cbn.
    apply orb_prop in E as [E|E%bool_decide_eq_true]; [|auto]. apply orb_prop in E as [E%bool_decide_eq_true|E%bool_decide_eq_true]; auto.
  - case_bool_decide; [|done]. by intros [= <-].
Qed.

Lemma Decode_modes tokens xs : Decode tokens = Ok xs -> Forall modeOk xs.
Proof.
  induction tokens as [|t tokens IH]; cbn [Decode]; [done|]. destruct t; try done. case_bool_decide; [|done].
  apply UnmarshalXML_modes; [constructor|done].
Qed.

(** A list that was written is read back. *)
Lemma Decode_MarshalXML blocks : Forall (fun b => modeOk b /\ TrimSpace (xID b) = xID b) blocks -> Decode (MarshalXML blocks) = Ok blocks.
Proof.
  intros Hb. unfold MarshalXML. cbn [Decode]. rewrite bool_decide_true by done.
  assert (forall acc, UnmarshalXML (mjoin (MarshalXMLBlock <$> blocks) ++ [EndElement BlockListTag]) acc None = Ok (acc ++ blocks)) as H; [|by rewrite H].
  induction Hb as [|[id mode] blocks [Hm Ht] Hb IH]; intros acc; [cbn; by rewrite app_nil_r|].
  cbn [xID Mode fmap list_fmap mjoin list_join MarshalXMLBlock app UnmarshalXML] in *.
  assert (bool_decide (mode = BlockLatest) || bool_decide (mode = BlockCommitted) || bool_decide (mode = BlockUncommitted) = true) as ->.
  { unfold modeOk in Hm. cbn in Hm. destruct Hm as [->|[->| ->]]; done. }
  cbn [xID Mode]. rewrite bool_decide_true by done. cbn. rewrite Ht. rewrite IH. by rewrite <- app_assoc.
Qed.

Lemma putLoop_modes xs : forall cache h nb garbage size m, Forall modeOk xs -> snd (putLoop xs cache h nb garbage size) <> inl (ErrMode m).
Proof.
  induction xs as [|xb xs IH]; intros cache h nb garbage size m Hxs; cbn [putLoop]; [done|]. apply Forall_cons in Hxs as [Hm Hxs].
  destruct (cache !! xID xb) as [l|]; [|done].
  destruct (putMode xb _) as [err|[b names]] eqn:E; [|by apply IH]. cbn. intros [= ->]. unfold putMode in E.
  case_bool_decide; [repeat case_match; done|]. case_bool_decide; [repeat case_match; done|]. case_bool_decide; [repeat case_match; done|].
  destruct Hm as [?|[?|?]]; done.
Qed.

(** ** Changes of the storage *)

Lemma Rep_ext get get' N idx b : Rep get N idx b ->
  (forall blk, blk ∈ blocks idx -> get' (objectName (ID blk) (CommittedRev blk)) = get (objectName (ID blk) (CommittedRev blk))) ->
  (forall blk, blk ∈ blocks idx -> is_Some (pending b !! ID blk) -> get' (objectName (ID blk) (UploadedRev blk)) = get (objectName (ID blk) (UploadedRev blk))) ->
  Rep get' N idx b.
Proof.
  intros [Hids Hb Hi Ho Hup Hp Hpl Hs Hc] H1 H2. split; try done.
  - rewrite Forall_forall in Hup |- *. intros blk Hblk. destruct (Hup _ Hblk) as [Hr Hu]. split; [done|].
    destruct Hu as [Hu|(E & c & Hc' & Hsz & Hsd & Hg)]; [by left|]. right. split; [done|]. exists c. rewrite (H2 _ Hblk) by (by rewrite Hc'). done.
  - eapply placed_ext; [|exact Hpl]. apply Forall_Forall2_diag, Forall_forall. intros blk [_ Hblk]%elem_of_filter_b. split; [done|]. split; [done|].
    intros c (H3 & H4 & H5 & H6). unfold stored. by rewrite (H1 _ Hblk).
Qed.

Lemma Rep_flag get N idx b flag : Rep get N idx b -> Rep get N (mkIndex (Size idx) (heap idx) (Blocks idx) (icache idx) (ocache idx) flag) b.
Proof. by intros []. Qed.

Section Steps.
Context {sorter : SortSlice} {Folder : Type} `{ObjectRemover Folder} `{!Json (Z * list Block)}.
Variable GetSubFolder : string -> string -> string.
Variable rootPath : string.
Variable xmlTokens : list byte -> list token.
Notation ServeHTTP2 := (ServeHTTP2 GetSubFolder rootPath xmlTokens).
Notation getBlobFolder := (getBlobFolder GetSubFolder rootPath).

(** What the storage has under the names of a blob. *)
Definition objects (p : string) (f : Folder) (name : string) : option (list byte) :=
  match ReadObject f (p +s name) with Ok c => Some c | Err _ => None end.

(** The index is in the storage. *)
Definition indexSaved (p : string) (f : Folder) (idx : Index) : Prop :=
  exists data, ReadObject f (p +s IndexFileName) = Ok data /\ Unmarshal data = Ok (saved idx).

(** The server has the blob [b] at [p]; no revision is above [N]. What is not in
    the saved index is saved later. *)
Definition Has (p : string) (N : Z) (bs : Server Folder) (b : Blob) : Prop :=
  exists M idx, 0 <= M <= N /\ fst (loadBlobIndex p bs) = Ok idx /\ Rep (objects p (folder bs)) M idx b /\
    (needSave idx = true \/ indexSaved p (folder bs) idx).

Lemma loadBlobIndex_ok p (bs : Server Folder) idx : fst (loadBlobIndex p bs) = Ok idx ->
  exists bs', loadBlobIndex p bs = (Ok idx, bs') /\ folder bs' = folder bs /\ leases bs' = leases bs /\ indexes bs' !! p = Some idx.
Proof.
  unfold loadBlobIndex. destruct (indexes bs !! p) as [i|] eqn:E; cbn.
  - intros [= ->]. by exists bs.
  - destruct (Load p bs) as [i|]; cbn; [|done]. intros [= ->]. eexists. split; [done|]. cbn. by rewrite lookup_insert_eq.
Qed.

Lemma objects_put p f name data f' : PutObject f (p +s name) data = Ok f' ->
  objects p f' name = Some data /\ forall name', name' <> name -> objects p f' name' = objects p f name'.
Proof.
  intros Hp. unfold objects. rewrite (PutObject_same _ _ _ _ Hp). split; [done|]. intros name' Hne.
  rewrite (PutObject_other _ _ _ _ _ Hp); [done|]. by intros ?%(inj _).
Qed.

Lemma Rep_put_index p f data f' N idx b : PutObject f (p +s IndexFileName) data = Ok f' ->
  Rep (objects p f) N idx b -> Rep (objects p f') N idx b.
Proof. intros Hp Hrep. eapply Rep_ext; [exact Hrep|..]; intros; apply (objects_put _ _ _ _ _ Hp), objectName_index. Qed.

(** [Save] *)
Lemma Save_ok p idx (bs bs' : Server Folder) N b : Save p idx bs = (None, bs') -> Rep (objects p (folder bs)) N idx b ->
  indexes bs' = indexes bs /\ leases bs' = leases bs /\ Rep (objects p (folder bs')) N idx b /\ indexSaved p (folder bs') idx.
Proof.
  unfold Save. destruct (Marshal (saved idx)) as [data|] eqn:Em; cbn; [|done]. destruct (PutObject _ _ _) as [f|] eqn:Ep; [|done].
  intros [= <-] Hrep. cbn. split_and!; [done|done|by eapply Rep_put_index|]. exists data. split; [by apply (PutObject_same _ _ _ _ Ep)|].
  by apply Unmarshal_Marshal.
Qed.

(** [deleteGarbage] removes nothing that is used. *)
Lemma deleteGarbage_ok p garbage (bs : Server Folder) N idx xs b0 b : commitBlocks xs b0 = Some b -> Forall (unused idx) garbage ->
  Rep (objects p (folder bs)) N idx b -> indexSaved p (folder bs) idx ->
  indexes (deleteGarbage p garbage bs) = indexes bs /\ leases (deleteGarbage p garbage bs) = leases bs /\
  Rep (objects p (folder (deleteGarbage p garbage bs))) N idx b /\ indexSaved p (folder (deleteGarbage p garbage bs)) idx.
Proof.
  intros Hb Hg Hrep Hs. unfold deleteGarbage. destruct garbage as [|g0 garbage]; [done|]. set (gs := g0 :: garbage) in *. cbn [set_folder indexes leases folder].
  assert (forall name, name ∉ gs -> ReadObject (snd (DeleteObjects (folder bs) ((fun g => p +s g) <$> gs))) (p +s name) = ReadObject (folder bs) (p +s name)) as Hother.
  { intros name Hn. apply DeleteObjects_other. by intros (g & ->%(inj _) & Hin)%list_elem_of_fmap. }
  rewrite Forall_forall in Hg. split; [done|]. split; [done|]. split.
  - eapply Rep_ext; [exact Hrep|..]; intros blk Hblk.
    + unfold objects. rewrite Hother; [done|]. intros (id & r & E & Hr & Hu)%Hg.
      pose proof (proj1 (Forall_forall _ _) (rep_uploaded _ _ _ _ Hrep) _ Hblk) as [Hc _]. apply objectName_inj in E as [Hid <-]; [|lia|done].
      by destruct (Hu _ Hblk Hid).
    + unfold commitBlocks in Hb. destruct (mapM _ _); [|done]. injection Hb as <-. by intros [? ?].
  - destruct Hs as (data & Hd & Hu). exists data. split; [|done]. rewrite Hother; [done|]. intros (id & r & E & _)%Hg. by apply (objectName_index id r).
Qed.

(** *** The operations of a client *)

Inductive op := Upload (id : string) (c : list byte) | Commit (xs : list XBlockIn).

Definition apply_op (o : op) (b : Blob) : option Blob :=
  match o with Upload id c => Some (uploadBlock id c b) | Commit xs => commitBlocks xs b end.

Definition isUpload (id : string) (c : list byte) (req : Request) : Prop :=
  Form req "comp" = "block" /\ Form req "x-ms-copy-source:name" = "" /\ TrimSpace (Form req "blockid") = id /\
  ParseUint (Header req "Content-Length") 10 64 = Ok (Z.of_nat (length c)) /\ Body req = c /\ sized c.

Definition isCommit (xs : list XBlockIn) (req : Request) : Prop :=
  Form req "comp" = "blocklist" /\ ParseBlocklistXML xmlTokens (Body req) = Ok xs /\ NoDup (xID <$> xs) /\ Z.of_nat (length xs) <= maxList.

(** The request asks for the operation. *)
Definition isOp (path : string) (o : op) (req : Request) : Prop :=
  URLPath req = path /\ formOk req = true /\ Method req = "PUT" /\
  match o with Upload id c => isUpload id c req | Commit xs => isCommit xs req end.

(** The client has the lease, if there is one. *)
Definition hasLease (p : string) (ls : gmap string Lease) (req : Request) : Prop :=
  forall lease, ls !! p = Some lease -> leaseID lease = Header req "X-Ms-Lease-Id".

Lemma hasLease_check p (bs : Server Folder) req : hasLease p (leases bs) req -> checkLease req p bs = true.
Proof. intros Hl. unfold checkLease. destruct (leases bs !! p) as [lease|] eqn:E; [|done]. rewrite (Hl _ E), bool_decide_true by done. by case_match. Qed.

(** An answer says what became of the operation. *)
Definition done_as (p : string) (N : Z) (o : op) (b : Blob) (r : Response) (bs' : Server Folder) : Prop :=
  (Status r = StatusCreated /\ exists b', apply_op o b = Some b' /\ Has p (N + 1) bs' b') \/
  (Status r = StatusBadRequest /\ apply_op o b = None) \/ Status r = StatusInternalServerError.

Lemma upload_step path id c req (bs : Server Folder) b N : isOp path (Upload id c) req -> hasLease (getBlobFolder path) (leases bs) req ->
  0 <= N -> N + 1 < 2 ^ 64 -> Has (getBlobFolder path) N bs b ->
  exists r bs', ServeHTTP2 req bs = (Some r, bs') /\ leases bs' = leases bs /\ done_as (getBlobFolder path) N (Upload id c) b r bs'.
Proof.
  intros (Hpath & Hform & Hput & Hcomp & Hcopy & Hid & Hlen & Hbody & Hsz) Hlease HN0 HN (M & idx & HM & Hload & Hrep & Hsave).
  destruct (loadBlobIndex_ok _ _ _ Hload) as (bs0 & El & Ef & Els & Ei).
  unfold BlobServer.ServeHTTP2, HandleBlock. rewrite Hform, Hcomp, Hput. cbn [negb]. rewrite !bool_decide_false, bool_decide_true, bool_decide_true by done.
  unfold HandleBlockPut. rewrite Hcopy, Hpath, bool_decide_true, El by done. cbn [negb].
  rewrite hasLease_check by (by rewrite Els). cbn [negb]. rewrite Hlen, Hid, Hbody.
  destruct (PutBlock id (Z.of_nat (length c)) idx) as [filename idx'] eqn:Eb. rewrite Ef.
  destruct (PutObject _ _ _) as [f|err] eqn:Ep.
  - do 2 eexists. split; [done|]. unfold set_index. cbn [set_folder indexes]. rewrite Ei. cbn [leases]. split; [done|]. left. split; [done|].
    exists (uploadBlock id c b). split; [done|]. exists M, (SaveDelayed idx'). split; [lia|]. split; [unfold loadBlobIndex; cbn; by rewrite lookup_insert_eq|].
    split; [|by left]. cbn [folder]. destruct (objects_put _ _ _ _ _ Ep) as [Hsame Hother].
    pose proof (PutBlock_ok _ (objects (getBlobFolder path) f) M idx b id c Hrep Hsz ltac:(lia)) as Hok. rewrite Eb in Hok. cbn [fst snd] in Hok.
    by apply Rep_flag, Hok.
  - do 2 eexists. split; [done|]. unfold set_index. rewrite Ei. cbn. split; [done|]. by right; right.
Qed.

Lemma PutBlockList_modes xs idx m : Forall modeOk xs -> fst (PutBlockList xs idx) <> inl (ErrMode m).
Proof.
  intros Hxs. unfold PutBlockList. pose proof (putLoop_modes xs (icache idx) (heap idx) [] [] 0 m Hxs) as Hm.
  destruct (putLoop _ _ _ _ _ _) as [h [err|[[nb g] size]]]; cbn in *; [|done]. intros [= ->]. done.
Qed.

Lemma commit_step path xs req (bs : Server Folder) b N : isOp path (Commit xs) req -> hasLease (getBlobFolder path) (leases bs) req ->
  0 <= N -> Has (getBlobFolder path) N bs b ->
  exists r bs', ServeHTTP2 req bs = (Some r, bs') /\ leases bs' = leases bs /\ done_as (getBlobFolder path) N (Commit xs) b r bs'.
Proof.
  intros (Hpath & Hform & Hput & Hcomp & Hdec & Hnd & Hcount) Hlease HN0 (M & idx & HM & Hload & Hrep & _).
  destruct (loadBlobIndex_ok _ _ _ Hload) as (bs0 & El & Ef & Els & Ei). set (p := getBlobFolder path) in *.
  unfold BlobServer.ServeHTTP2, HandleBlockList. rewrite Hform, Hcomp, Hput. cbn [negb]. rewrite !bool_decide_false, bool_decide_true, bool_decide_true by done.
  unfold HandleBlockListPut. rewrite Hpath. fold p. rewrite El, hasLease_check by (by rewrite Els). cbn [negb]. rewrite Hdec.
  pose proof (PutBlockList_ok _ _ _ _ Hrep xs Hnd Hcount) as Hl. pose proof (PutBlockList_modes xs idx) as Hmodes.
  destruct (PutBlockList xs idx) as [[err|garbage] idx'].
  { assert (forall m, err <> ErrMode m) as Hm by (intros m ->; apply (Hmodes m); [by eapply Decode_modes|done]).
    destruct err as [? |? |m]; [| |by destruct (Hm m)]; do 2 eexists; (split; [done|]); unfold set_index; rewrite Ei; cbn; (split; [done|]); by right; left. }
  destruct Hl as (b' & Hb & Hrep' & Hg). assert (set_index p idx' bs0 = mkServer (folder bs0) (<[p := idx']> (indexes bs0)) (leases bs0)) as -> by (unfold set_index; by rewrite Ei).
  destruct (Save p idx' _) as [[err|] bs1] eqn:Es.
  { do 2 eexists. split; [done|]. unfold Save in Es. repeat case_match; simplify_eq; cbn; (split; [done|]); by right; right. }
  rewrite <- Ef in Hrep'. destruct (Save_ok _ _ _ _ _ _ Es Hrep') as (Ei1 & Els1 & Hrep1 & Hs1). cbn in Ei1, Els1.
  destruct (deleteGarbage_ok _ _ _ _ _ _ _ _ Hb Hg Hrep1 Hs1) as (Ei2 & Els2 & Hrep2 & Hs2).
  do 2 eexists. split; [done|]. split; [by rewrite Els2, Els1|]. left. split; [done|]. exists b'. split; [done|]. exists (M + 1), idx'. split; [lia|].
  split; [unfold loadBlobIndex; rewrite Ei2, Ei1; by rewrite lookup_insert_eq|]. split; [done|by right].
Qed.

(** *** Reading *)

Lemma readSections_all p f sections : readSections p f sections = readAll (objects p f) sections.
Proof. induction sections as [|s sections IH]; [done|]. cbn. unfold objects at 1. by destruct (ReadObject f _); rewrite ?IH. Qed.

Definition isGet (path : string) (req : Request) : Prop :=
  URLPath req = path /\ formOk req = true /\ Method req = "GET" /\ Form req "comp" = "".

Definition isRange (a r : Z) (req : Request) : Prop :=
  rangeHeader req = "bytes=" +s fmtDec a +s "-" +s fmtDec r.

Lemma get_all path req (bs : Server Folder) b N : isGet path req -> rangeHeader req = "" -> hasLease (getBlobFolder path) (leases bs) req ->
  Has (getBlobFolder path) N bs b ->
  exists r, fst (ServeHTTP2 req bs) = Some r /\ Status r = StatusOK /\ Content r = content b.
Proof.
  intros (Hpath & Hform & Hget & Hcomp) Hrange Hlease (M & idx & HM & Hload & Hrep & _).
  destruct (loadBlobIndex_ok _ _ _ Hload) as (bs0 & El & Ef & Els & Ei).
  unfold BlobServer.ServeHTTP2, HandleBlob. rewrite Hform, Hcomp, Hget. cbn [negb]. rewrite !bool_decide_false, bool_decide_true, bool_decide_false, bool_decide_true by done.
  unfold HandleBlobGet. rewrite Hpath, El, hasLease_check by (by rewrite Els). cbn [negb]. rewrite Hrange, bool_decide_true by done.
  eexists. split; [done|]. split; [done|]. cbn [Content]. rewrite readSections_all, Ef. by apply GetSections_all with M.
Qed.

Lemma splitOn_digits s : allIn isDigit s = true -> splitOn (Ascii.ascii_of_nat 45) s = [s].
Proof.
  induction s as [|c s IH]; [done|]. cbn [allIn splitOn]. intros [Hc Hs]%andb_prop. rewrite IH by done.
  by rewrite bool_decide_false by (intros ->; vm_compute in Hc; discriminate).
Qed.

Lemma parse_range a r req : in_width 64 a -> in_width 64 r -> isRange a r req -> parseBytesRange req = Some (Ok (a, r)).
Proof.
  intros Ha Hr Hrange. unfold parseBytesRange. unfold isRange in Hrange. rewrite Hrange. cbv zeta.
  assert (slice ("bytes=" +s fmtDec a +s "-" +s fmtDec r) 0 6 = Some "bytes=") as -> by done. cbn [mbind option_bind].
  change (sdrop 6 ("bytes=" +s fmtDec a +s "-" +s fmtDec r)) with (fmtDec a +s String (Ascii.ascii_of_nat 45) (fmtDec r)).
  rewrite bool_decide_true by done. cbn [negb]. rewrite splitOn_app, !splitOn_digits by apply fmtDec_digits. cbn [app].
  by rewrite !ParseUint_fmtDec.
Qed.

Lemma get_range path req (bs : Server Folder) b N a r : isGet path req -> isRange a r req -> hasLease (getBlobFolder path) (leases bs) req ->
  Has (getBlobFolder path) N bs b -> 0 <= a <= r -> r < 2 ^ 64 -> a < Z.of_nat (length (content b)) ->
  exists resp, fst (ServeHTTP2 req bs) = Some resp /\ Status resp = StatusPartialContent /\
    Content resp = drop (Z.to_nat a) (take (Z.to_nat (r + 1)) (content b)).
Proof.
  intros (Hpath & Hform & Hget & Hcomp) Hrange Hlease (M & idx & HM & Hload & Hrep & _) Har Hr Ha.
  destruct (loadBlobIndex_ok _ _ _ Hload) as (bs0 & El & Ef & Els & Ei).
  unfold BlobServer.ServeHTTP2, HandleBlob. rewrite Hform, Hcomp, Hget. cbn [negb]. rewrite !bool_decide_false, bool_decide_true, bool_decide_false, bool_decide_true by done.
  unfold HandleBlobGet. rewrite Hpath, El, hasLease_check by (by rewrite Els). cbn [negb].
  rewrite (parse_range a r) by (unfold in_width; done || lia). rewrite bool_decide_false by (unfold isRange in Hrange; by rewrite Hrange).
  eexists. split; [done|]. split; [done|]. cbn [Content]. rewrite readSections_all, Ef. by apply GetSections_ok with M.
Qed.

(** *** A restart *)

(** A new process has the storage only. *)
Definition restart (bs : Server Folder) : Server Folder := mkServer (folder bs) ∅ ∅.

Lemma load_saved p (bs : Server Folder) idx : indexSaved p (folder bs) idx -> indexes bs !! p = None ->
  fst (loadBlobIndex p bs) = Ok (loaded (fst (saved idx)) (snd (saved idx))).
Proof. intros (data & Hd & Hu) Hi. unfold loadBlobIndex, Load. by rewrite Hi, Hd, Hu. Qed.

Lemma saved_loaded size blks : saved (loaded size blks) = (size, blks).
Proof. unfold saved, loaded, buildCache. cbn. by rewrite at_seq. Qed.

(** A blob that the server does not know is the saved one. *)
Lemma Has_saved p M N idx (bs : Server Folder) b : 0 <= M <= N -> indexes bs !! p = None ->
  Rep (objects p (folder bs)) M idx b -> indexSaved p (folder bs) idx -> Has p N bs b.
Proof.
  intros HM Hi Hrep Hs. exists M, (loaded (fst (saved idx)) (snd (saved idx))). split; [done|]. split; [by apply load_saved|].
  split; [by apply loaded_saved|]. right. destruct Hs as (data & Hd & Hu). exists data. split; [done|].
  rewrite Hu, saved_loaded. by destruct (saved idx).
Qed.

(** When the save of [saver] succeeds, a new process has the blob. *)
Lemma saver_restart p (bs : Server Folder) b N : Has p N bs b ->
  (forall idx, indexes bs !! p = Some idx -> needSave idx = true -> fst (Save p idx bs) = None) ->
  Has p N (restart (saver p bs)) b.
Proof.
  intros (M & idx & HM & Hload & Hrep & Hs) Hok.
  assert (exists idx', Rep (objects p (folder (saver p bs))) M idx' b /\ indexSaved p (folder (saver p bs)) idx') as (idx' & Hrep' & Hs').
  { unfold saver. destruct (indexes bs !! p) as [i|] eqn:Ei.
    - unfold loadBlobIndex in Hload. rewrite Ei in Hload. injection Hload as ->. specialize (Hok _ eq_refl). unfold set_index. rewrite Ei.
      set (idx1 := mkIndex _ _ _ _ _ false). destruct (needSave idx) eqn:En.
      + specialize (Hok eq_refl). unfold Save in *. cbn [folder] in *. change (saved idx1) with (saved idx).
        destruct (data ← Marshal (saved idx); PutObject (folder bs) (p +s IndexFileName) data) as [f|err] eqn:E; [|done]. cbn [snd set_folder folder].
        destruct (Marshal (saved idx)) as [data|] eqn:Em; [|done]. cbn in E. exists idx. split; [by eapply Rep_put_index|].
        exists data. split; [by apply (PutObject_same _ _ _ _ E)|by apply Unmarshal_Marshal].
      + destruct Hs as [?|Hs]; [congruence|]. exists idx. done.
    - unfold loadBlobIndex in Hload. rewrite Ei in Hload. destruct (Load p bs) as [i|] eqn:El; [|done]. injection Hload as ->.
      exists idx. split; [done|]. destruct Hs as [Hs|Hs]; [|done]. unfold Load in El. repeat case_match; simplify_eq. }
  by apply (Has_saved p M N idx').
Qed.

(** *** A new blob *)

Definition isPutBlob (path : string) (size : Z) (req : Request) : Prop :=
  URLPath req = path /\ formOk req = true /\ Method req = "PUT" /\ Form req "comp" = "" /\
  ParseUint (Header req "Content-Length") 10 64 = Ok size.

Lemma loadBlobIndex_err p (bs : Server Folder) err : fst (loadBlobIndex p bs) = Err err ->
  loadBlobIndex p bs = (Err err, bs) /\ indexes bs !! p = None.
Proof. unfold loadBlobIndex. destruct (indexes bs !! p); [done|]. destruct (Load p bs); cbn; [done|]. by intros [= ->]. Qed.

Lemma create_blob path req (bs : Server Folder) r bs' : isPutBlob path 0 req -> hasLease (getBlobFolder path) (leases bs) req ->
  fst (loadBlobIndex (getBlobFolder path) bs) = Err ErrNotFound -> ServeHTTP2 req bs = (Some r, bs') -> Status r = StatusCreated ->
  leases bs' = leases bs /\ Has (getBlobFolder path) 0 bs' emptyBlob.
Proof.
  intros (Hpath & Hform & Hput & Hcomp & Hlen) Hlease [El Ei]%loadBlobIndex_err. set (p := getBlobFolder path) in *.
  unfold BlobServer.ServeHTTP2, HandleBlob. rewrite Hform, Hcomp, Hput. cbn [negb].
  rewrite !bool_decide_false, bool_decide_true, !bool_decide_false, bool_decide_true by done.
  unfold HandleBlobPut. rewrite Hpath. fold p. rewrite El, hasLease_check by done. cbn [negb]. rewrite Hlen. cbn [Clear NewIndex Z.ltb Z.compare].
  set (idx := snd (Clear NewIndex)). assert (Rep (objects p (folder bs)) 0 idx emptyBlob) as Hrep.
  { apply Rep_build; try done; try constructor. cbn. intros id [? E]. by rewrite lookup_empty in E. }
  change (buildCache _) with idx. unfold set_index. rewrite Ei. destruct (Save p idx bs) as [[err|] bs1] eqn:Es; intros [= <- <-] Hst; [done|].
  destruct (Save_ok _ _ _ _ _ _ Es Hrep) as (Ei1 & Els & Hrep1 & Hs). cbn [deleteGarbage]. split; [done|].
  eapply (Has_saved p 0 0 idx); [lia|by rewrite Ei1|done|done].
Qed.
End Steps.
