(* ===== verification/BlobTheorems.v ===== *)
(** * SQL Server: theorems on the server of blobs

    The requests of one client on one blob do what the specification says, a
    restart keeps it, and a lease keeps other clients off; a blob that is put
    twice is lost, and a list of blocks that is refused changes the blob. *)

From stdpp Require Import gmap strings list countable.
From S2P Require Import Prelude GoStrings GoPath GoSort Timeline BackupMeta.
From S2P Require Import WalMetadata.
From S2P Require Import GoDecimal.
From S2P Require Import BlobIndex BlobServer BlobSpec BlobRep BlobSteps.
Open Scope Z_scope.

(** The blob after some operations. *)
Fixpoint runOps (ops : list op) (b : Blob) : option Blob :=
  match ops with [] => Some b | o :: ops => b' ← apply_op o b; runOps ops b' end.

Section Theorems.
Context {sorter : SortSlice} {Folder : Type} `{ObjectRemover Folder} `{!Json (Z * list Block)}.
Variable GetSubFolder : string -> string -> string.
Variable rootPath : string.
Variable xmlTokens : list byte -> list token.
Notation ServeHTTP2 := (ServeHTTP2 GetSubFolder rootPath xmlTokens).
Notation getBlobFolder := (getBlobFolder GetSubFolder rootPath).

(** Requests one after the other. *)
Fixpoint serveAll (reqs : list Request) (bs : Server Folder) : list (option Response) * Server Folder :=
  match reqs with
  | [] => ([], bs)
  | req :: reqs =>
      let '(r, bs) := ServeHTTP2 req bs in
      let '(rs, bs) := serveAll reqs bs in
      (r :: rs, bs)
  end.

Definition isCreated (r : option Response) : Prop := Status <$> r = Some StatusCreated.

Lemma op_step path o req (bs : Server Folder) b N : isOp xmlTokens path o req -> hasLease (getBlobFolder path) (leases bs) req ->
  0 <= N -> N + 1 < 2 ^ 64 -> Has (getBlobFolder path) N bs b ->
  exists r bs', ServeHTTP2 req bs = (Some r, bs') /\ leases bs' = leases bs /\ done_as (getBlobFolder path) N o b r bs'.
Proof. intros. destruct o; [by eapply upload_step|by eapply commit_step]. Qed.

Lemma run_ok path ops reqs : Forall2 (isOp xmlTokens path) ops reqs -> forall (bs : Server Folder) b N,
  Forall (hasLease (getBlobFolder path) (leases bs)) reqs -> 0 <= N -> N + Z.of_nat (length ops) < 2 ^ 64 ->
  Has (getBlobFolder path) N bs b -> Forall isCreated (fst (serveAll reqs bs)) ->
  exists b' M, runOps ops b = Some b' /\ Has (getBlobFolder path) M (snd (serveAll reqs bs)) b' /\ leases (snd (serveAll reqs bs)) = leases bs.
Proof.
  induction 1 as [|o req ops reqs Ho _ IH]; intros bs b N Hl HN0 HN Hhas Hc; [by exists b, N|].
  apply Forall_cons in Hl as [Hl Hls]. cbn [length] in HN.
  destruct (op_step _ _ _ _ _ _ Ho Hl HN0 ltac:(lia) Hhas) as (r & bs1 & Es & Els & Hdone). cbn [serveAll runOps] in *. rewrite Es in *.
  rewrite <- Els in Hls. destruct (serveAll reqs bs1) as [rs bs2] eqn:Er. cbn [fst snd] in *. apply Forall_cons in Hc as [Hr Hc].
  destruct Hdone as [[_ (b' & Hb & Hhas')]|[[Hs _]|Hs]]; [|unfold isCreated in Hr; cbn in Hr; rewrite Hs in Hr; discriminate..].
  rewrite Hb. cbn. specialize (IH bs1 b' (N + 1) Hls ltac:(lia) ltac:(lia) Hhas'). rewrite Er in IH. cbn [fst snd] in IH.
  destruct (IH Hc) as (b2 & M & Hrun & Hh & Hle). exists b2, M. by rewrite Hle, Els.
Qed.

(** *** A list that is refused *)

Section Refused.
Variables (N : Z) (idx : Index) (b : Blob) (g : string -> option (list byte)).
Variables (l : list (string * list byte)) (id : string) (c c' : list byte) (lz : nat).
Hypothesis Hrep : Rep g N idx b.
Hypothesis Hcommitted : committed b = l ++ [(id, c)].
Hypothesis Hpending : pending b !! id = Some c'.
Hypothesis Hlz : icache idx !! id = Some lz.

(** The block of [id], as the loop leaves it. *)
Let blk : Block := at_ (heap idx) lz.
Let moved : Block := commit (mkBlock (ID blk) 0 (UploadedSize blk) (UploadedRev blk) (CommittedSize blk) (CommittedRev blk)).
Let h : list Block := <[lz := moved]> (heap idx).





End Refused.


(** A client makes a blob and works on it; everything is answered with 201. *)
Section Client.
Variables (path : string) (bs : Server Folder) (create : Request) (ops : list op) (reqs : list Request).
Hypothesis Hnew : fst (loadBlobIndex (getBlobFolder path) bs) = Err ErrNotFound.
Hypothesis Hcreate : isPutBlob path 0 create.
Hypothesis Hops : Forall2 (isOp xmlTokens path) ops reqs.
Hypothesis Hlease : Forall (hasLease (getBlobFolder path) (leases bs)) (create :: reqs).
Hypothesis Hcount : Z.of_nat (length ops) < 2 ^ 64.
Hypothesis Hok : Forall isCreated (fst (serveAll (create :: reqs) bs)).
Let bs' := snd (serveAll (create :: reqs) bs).

Lemma client_ok : exists b M, runOps ops emptyBlob = Some b /\ Has (getBlobFolder path) M bs' b /\ leases bs' = leases bs.
Proof.
  unfold bs'. apply Forall_cons in Hlease as [Hl Hls]. cbn [serveAll] in *. destruct (ServeHTTP2 create bs) as [r bs1] eqn:E.
  destruct (serveAll reqs bs1) as [rs bs2] eqn:Er. cbn [fst snd] in *. apply Forall_cons in Hok as [Hr Hrs]. unfold isCreated in Hr.
  destruct r as [r|]; [|done]. injection Hr as Hr. destruct (create_blob _ _ _ _ _ _ _ _ Hcreate Hl Hnew E Hr) as [Els Hhas].
  rewrite <- Els in Hls. destruct (run_ok _ _ _ Hops bs1 emptyBlob 0 Hls ltac:(lia) ltac:(lia) Hhas) as (b & M & Hrun & Hh & Hle); [by rewrite Er|].
  rewrite Er in *. cbn [snd] in *. exists b, M. by rewrite Hle, Els.
Qed.

(** C13: the server of blobs refines the specification of a blob. A blob is
    created, and then blocks are uploaded and lists of blocks are committed, each
    request answered with 201. Then the operations have a result in the
    specification, a request for the blob gives its bytes, and a request for a
    range that starts in it gives the bytes of the range: the binary search of
    the sections, the revisions of the objects and the deletion of garbage do not
    show. *)
Theorem blob_server_refines : exists b, runOps ops emptyBlob = Some b /\
  (forall req, isGet path req -> rangeHeader req = "" -> hasLease (getBlobFolder path) (leases bs) req ->
    exists r, fst (ServeHTTP2 req bs') = Some r /\ Status r = StatusOK /\ Content r = content b) /\
  (forall req x y, isGet path req -> isRange x y req -> hasLease (getBlobFolder path) (leases bs) req ->
    0 <= x <= y -> y < 2 ^ 64 -> x < Z.of_nat (length (content b)) ->
    exists r, fst (ServeHTTP2 req bs') = Some r /\ Status r = StatusPartialContent /\
      Content r = drop (Z.to_nat x) (take (Z.to_nat (y + 1)) (content b))).
Proof.
  destruct client_ok as (b & M & Hrun & Hhas & Hls). exists b. split; [done|]. rewrite <- Hls. split.
  - intros. by eapply get_all.
  - intros. by eapply get_range.
Qed.

(** C23: a restart loses nothing. After the same requests the background saver
    runs, and what it has to save is saved; a new process, which has only the
    storage and reads the index from it, answers a request for the blob with the
    bytes of the specification. *)
Theorem blob_survives_restart :
  (forall idx, indexes bs' !! getBlobFolder path = Some idx -> needSave idx = true -> fst (Save (getBlobFolder path) idx bs') = None) ->
  exists b, runOps ops emptyBlob = Some b /\
    forall req, isGet path req -> rangeHeader req = "" ->
      exists r, fst (ServeHTTP2 req (restart (saver (getBlobFolder path) bs'))) = Some r /\ Status r = StatusOK /\ Content r = content b.
Proof.
  intros Hsave. destruct client_ok as (b & M & Hrun & Hhas & Hls). exists b. split; [done|]. intros req Hget Hrange.
  eapply get_all; [done|done| |by apply saver_restart]. intros lease. cbn. by rewrite lookup_empty.
Qed.

End Client.

(** *** A blob that is put *)

Definition dataBlock (n : Z) : Block := mkBlock "data" 0 0 0 n 1.

(** What [HandleBlobPut] makes of an index. *)
Definition dataIndex (n : Z) (idx : Index) : Prop :=
  Size idx = n /\ blocks idx = [dataBlock n] /\ at_ (heap idx) <$> ocache idx = [dataBlock n].

Lemma Slice_nil {A} (less : A -> A -> bool) : Slice less [] = [].
Proof. apply Permutation_nil_r, Slice_perm. Qed.

Lemma Slice_one {A} (less : A -> A -> bool) x : Slice less [x] = [x].
Proof. apply Permutation_singleton_r, Slice_perm. Qed.

Lemma buildCache_one idx l b : at_ (heap idx) l = b -> Blocks idx = [l] -> 0 < CommittedRev b ->
  buildCache idx = mkIndex (Size idx) (heap idx) [l] {[ID b := l]} [l] (needSave idx).
Proof.
  intros <- Hb Hr. unfold buildCache. rewrite Hb. cbn [List.filter foldl]. rewrite (proj2 (Z.ltb_lt _ _)) by done. by rewrite Slice_one.
Qed.

Lemma data_put idx n : 0 < n < 2 ^ 64 -> exists idx2 idx3, PutBlock "data" n (snd (Clear idx)) = ("data.1", idx2) /\
  PutBlockList [mkXBlockIn "data" BlockLatest] idx2 = (inr [], idx3) /\ dataIndex n idx3.
Proof.
  intros Hn. unfold Clear, buildCache. cbn [snd heap Blocks Size needSave List.filter foldl]. rewrite Slice_nil.
  unfold PutBlock. cbn [icache heap Blocks Size ocache needSave app]. rewrite lookup_empty. do 2 eexists. split; [done|].
  unfold PutBlockList. cbn [putLoop icache heap Blocks xID Mode]. rewrite lookup_insert_eq, at_app_new. cbn [app].
  unfold putMode. cbn [Mode UploadedRev CommittedRev commit negb Z.eqb]. rewrite !bool_decide_false, bool_decide_true by done. cbn [app].
  unfold commit. cbn [CommittedSize ID Offset UploadedSize UploadedRev]. rewrite Z.add_0_l, u64_small by lia.
  set (l := length (heap idx)). set (h := <[l := _]> (heap idx ++ _)).
  assert (at_ h l = dataBlock n) as El by (unfold h; rewrite at_insert by (rewrite length_app; unfold l; cbn; lia); by rewrite decide_True).
  rewrite (buildCache_one (mkIndex _ _ _ _ _ _) l _ El) by done. cbn [icache Blocks List.filter]. rewrite El, bool_decide_false by (cbn; by rewrite lookup_insert_eq).
  split; [done|]. split; [done|]. by rewrite <- El.
Qed.

Lemma saved_data n idx : dataIndex n idx -> saved idx = (n, [dataBlock n]).
Proof. intros (Hs & Hb & _). unfold saved. fold (blocks idx). by rewrite Hs, Hb. Qed.

(** [HandleBlobPut], of a blob that has the index [idx] or none. *)
Lemma put_step path n req (bs bs0 : Server Folder) idx r bs' : isPutBlob path n req -> 0 < n < 2 ^ 64 -> hasLease (getBlobFolder path) (leases bs) req ->
  (match loadBlobIndex (getBlobFolder path) bs with (Err ErrNotFound, bs0) => (Ok NewIndex, bs0) | r => r end) = (Ok idx, bs0) ->
  folder bs0 = folder bs -> leases bs0 = leases bs -> ServeHTTP2 req bs = (Some r, bs') -> Status r = StatusCreated ->
  exists bs1 idx3, bs' = deleteGarbage (getBlobFolder path) (fst (Clear idx)) bs1 /\ leases bs1 = leases bs /\ dataIndex n idx3 /\
    indexSaved (getBlobFolder path) (folder bs1) idx3 /\
    indexes bs1 = match indexes bs0 !! getBlobFolder path with Some _ => <[getBlobFolder path := idx3]> (indexes bs0) | None => indexes bs0 end.
Proof.
  intros (Hpath & Hform & Hput & Hcomp & Hlen) Hn Hlease Eload Ef Els. set (p := getBlobFolder path) in *.
  unfold BlobServer.ServeHTTP2, HandleBlob. rewrite Hform, Hcomp, Hput. cbn [negb].
  rewrite !bool_decide_false, bool_decide_true, !bool_decide_false, bool_decide_true by done.
  unfold HandleBlobPut. rewrite Hpath. fold p. rewrite Eload, hasLease_check by (by rewrite Els). cbn [negb]. rewrite Hlen.
  destruct (data_put idx n Hn) as (idx2 & idx3 & E2 & E3 & Hd). destruct (Clear idx) as [garbage idx1]. cbn [fst snd] in *.
  rewrite (proj2 (Z.ltb_lt _ _)), E2 by lia. destruct (PutObject _ _ _) as [f|err]; [|intros [= <- <-]; done]. rewrite E3.
  destruct (Save p idx3 _) as [[err|] bs1] eqn:Es; intros [= <- <-] Hst; [done|]. exists bs1, idx3. split; [done|].
  unfold Save in Es. destruct (Marshal (saved idx3)) as [data|] eqn:Em; cbn in Es; [|done]. destruct (PutObject _ _ data) as [f'|] eqn:Ep; [|done].
  injection Es as <-. cbn [set_folder folder indexes leases]. unfold set_index. cbn [set_folder indexes].
  split; [by destruct (indexes bs0 !! p)|]. split; [done|]. split; [|by destruct (indexes bs0 !! p)].
  exists data. split; [by apply (PutObject_same _ _ _ _ Ep)|by apply Unmarshal_Marshal].
Qed.

Lemma dataIndex_clear n idx : dataIndex n idx -> fst (Clear idx) = ["data.1"].
Proof.
  intros (_ & Hb & _). unfold Clear. cbn [fst]. rewrite (list_fmap_compose (at_ (heap idx)) objectsOf). fold (blocks idx). by rewrite Hb.
Qed.

Lemma dataIndex_loaded n : dataIndex n (loaded n [dataBlock n]).
Proof. unfold loaded. rewrite (buildCache_one _ 0%nat (dataBlock n)) by done. by split_and!. Qed.

(** A request for the blob, when the object of its data is gone. *)
Lemma get_data path req (bs : Server Folder) n idx : isGet path req -> rangeHeader req = "" -> hasLease (getBlobFolder path) (leases bs) req ->
  indexes bs !! getBlobFolder path = Some idx -> dataIndex n idx -> is_ok (ReadObject (folder bs) (getBlobFolder path +s "data.1")) = false ->
  exists r, fst (ServeHTTP2 req bs) = Some r /\ Status r = StatusOK /\ Content r = [].
Proof.
  intros (Hpath & Hform & Hget & Hcomp) Hrange Hlease Hi (Hs & _ & Ho) Hgone. set (p := getBlobFolder path) in *.
  unfold BlobServer.ServeHTTP2, HandleBlob. rewrite Hform, Hcomp, Hget. cbn [negb]. rewrite !bool_decide_false, bool_decide_true, bool_decide_false, bool_decide_true by done.
  unfold HandleBlobGet. rewrite Hpath. fold p. assert (loadBlobIndex p bs = (Ok idx, bs)) as -> by (unfold loadBlobIndex; by rewrite Hi).
  rewrite hasLease_check by done. cbn [negb]. rewrite Hrange, bool_decide_true by done.
  eexists. split; [done|]. split; [done|]. cbn [Content]. unfold GetSections. rewrite Ho. cbn [length search Z.of_nat]. change (Z.to_nat _) with 0%nat. rewrite drop_0.
  cbn [scan Offset dataBlock]. case_match; [done|]. cbn [readSections Path ID CommittedRev].
  change (objectName (ID (dataBlock n)) (CommittedRev (dataBlock n))) with "data.1". revert Hgone. by destruct (ReadObject (folder bs) (p +s "data.1")).
Qed.

(** C30: a blob that is put twice is lost. A new blob is put with its bytes, and
    then put again: both requests are answered with 201, and a request for the
    blob is answered with 200 and no bytes. The second [HandleBlobPut] takes the
    object of the first for garbage, writes the new bytes under the same name,
    since the index that was cleared starts with revision 1 again, and then
    deletes the garbage. *)
Theorem put_blob_lost path (bs : Server Folder) put1 put2 get n1 n2 :
  fst (loadBlobIndex (getBlobFolder path) bs) = Err ErrNotFound ->
  (forall f keys, fst (DeleteObjects f keys) = None) ->
  isPutBlob path n1 put1 -> 0 < n1 < 2 ^ 64 -> isPutBlob path n2 put2 -> 0 < n2 < 2 ^ 64 -> isGet path get -> rangeHeader get = "" ->
  Forall (hasLease (getBlobFolder path) (leases bs)) [put1; put2; get] ->
  Forall isCreated (fst (serveAll [put1; put2] bs)) ->
  exists r, fst (ServeHTTP2 get (snd (serveAll [put1; put2] bs))) = Some r /\ Status r = StatusOK /\ Content r = [].
Proof.
  intros [El Ei]%loadBlobIndex_err Hdel H1 Hn1 H2 Hn2 Hget Hrange Hl Hc. apply Forall_cons in Hl as [Hl1 Hl]. apply Forall_cons in Hl as [Hl2 Hl].
  apply Forall_cons in Hl as [Hl3 _]. set (p := getBlobFolder path) in *. cbn [serveAll] in *.
  destruct (ServeHTTP2 put1 bs) as [r1 bs1] eqn:E1. destruct (ServeHTTP2 put2 bs1) as [r2 bs2] eqn:E2. cbn [fst snd] in *.
  apply Forall_cons in Hc as [Hc1 Hc]. apply Forall_cons in Hc as [Hc2 _]. unfold isCreated in *.
  destruct r1 as [r1|]; [|done]. destruct r2 as [r2|]; [|done]. injection Hc1 as Hc1. injection Hc2 as Hc2.
  destruct (put_step path n1 put1 bs bs NewIndex r1 bs1 H1 Hn1 Hl1) as (bs1' & idx1 & -> & Els1 & Hd1 & Hs1 & Ei1); [by fold p; rewrite El|done..|].
  fold p in Hs1, Ei1, E2. cbn [Clear NewIndex fst deleteGarbage] in *. rewrite Ei in Ei1.
  pose proof (load_saved p bs1' idx1 Hs1 ltac:(by rewrite Ei1)) as Hload. rewrite (saved_data _ _ Hd1) in Hload. cbn [fst snd] in Hload.
  destruct (loadBlobIndex_ok _ _ _ Hload) as (bs0 & El2 & Ef2 & Els2 & Ei2).
  destruct (put_step path n2 put2 bs1' bs0 (loaded n1 [dataBlock n1]) r2 bs2 H2 Hn2) as (bs2' & idx2 & -> & Els & Hd & _ & Ei3);
    [by rewrite Els1|by fold p; rewrite El2|done..|]. fold p in Ei3 |- *. rewrite Ei2 in Ei3. rewrite (dataIndex_clear n1) by apply dataIndex_loaded.
  apply (get_data path get _ n2 idx2); try done; cbn [deleteGarbage set_folder leases indexes folder].
  - by rewrite Els, Els1.
  - fold p. by rewrite Ei3, lookup_insert_eq.
  - apply DeleteObjects_gone; [done|]. by left.
Qed.

(** *** Leases *)

Definition unchanged (bs bs' : Server Folder) : Prop := folder bs' = folder bs /\ leases bs' = leases bs.

Lemma loadBlobIndex_unchanged p (bs : Server Folder) : unchanged bs (snd (loadBlobIndex p bs)).
Proof. unfold loadBlobIndex. destruct (indexes bs !! p); [done|]. by destruct (Load p bs). Qed.

Section Leased.
Variables (req : Request) (bs : Server Folder) (lease : Lease).
Hypothesis Hlease : leases bs !! getBlobFolder (URLPath req) = Some lease.
Hypothesis Hnow : now req < End lease.
Hypothesis Hid : Header req "X-Ms-Lease-Id" <> leaseID lease.

Lemma leased_check bs' : unchanged bs bs' -> checkLease req (getBlobFolder (URLPath req)) bs' = false.
Proof.
  intros [_ E]. unfold checkLease. rewrite E, Hlease, (proj2 (Z.ltb_lt _ _)) by done. by rewrite bool_decide_false by congruence.
Qed.

Lemma leased_withLease w change : unchanged bs (snd (withLease GetSubFolder rootPath w req change bs)).
Proof. unfold withLease. rewrite Hlease, bool_decide_false by congruence. done. Qed.

Lemma leased_HandleLease w : unchanged bs (snd (HandleLease GetSubFolder rootPath w req bs)).
Proof.
  unfold HandleLease. case_bool_decide; [|case_bool_decide; [|case_bool_decide; [|case_bool_decide; [|done]]]].
  - unfold HandleAcquireLease. destruct (leaseDuration req); [|done]. rewrite Hlease, (proj2 (Z.ltb_ge _ _)) by lia. by case_bool_decide.
  - unfold HandleRenewLease. case_bool_decide; [done|]. destruct (leaseDuration req); [|done]. apply leased_withLease.
  - unfold HandleChangeLease. destruct (_ || _); [done|]. apply leased_withLease.
  - unfold HandleReleaseLease. case_bool_decide; [done|]. apply leased_withLease.
Qed.

Lemma leased_block w : unchanged bs (snd (HandleBlock GetSubFolder rootPath w req bs)) /\ unchanged bs (snd (HandleBlockList GetSubFolder rootPath xmlTokens w req bs)).
Proof.
  pose proof (loadBlobIndex_unchanged (getBlobFolder (URLPath req)) bs) as Hu.
  unfold HandleBlock, HandleBlockPut, HandleBlockList, HandleBlockListPut, HandleBlockListGet.
  destruct (loadBlobIndex _ bs) as [[idx|err] bs0]; cbn [snd] in Hu; [rewrite leased_check by done; cbn [negb]|]; split; repeat case_bool_decide; done.
Qed.

Lemma leased_blob w : unchanged bs (snd (HandleBlob GetSubFolder rootPath w req bs)).
Proof.
  pose proof (loadBlobIndex_unchanged (getBlobFolder (URLPath req)) bs) as Hu.
  unfold HandleBlob, HandleBlobHead, HandleBlobGet, HandleBlobPut, HandleBlobDelete. rewrite (leased_check bs) by done.
  destruct (loadBlobIndex _ bs) as [[idx|[]] bs0]; cbn [snd] in Hu; rewrite ?leased_check by done; cbn [negb]; repeat case_bool_decide; done.
Qed.

(** C28: a lease protects the blob. While a lease of the blob is in force, no
    request on the blob that does not carry its identifier changes the storage or
    the lease, whatever it asks for. *)
Theorem lease_protects : folder (snd (ServeHTTP2 req bs)) = folder bs /\ leases (snd (ServeHTTP2 req bs)) = leases bs.
Proof.
  unfold BlobServer.ServeHTTP2. destruct (formOk req); [|done]. cbn [negb].
  case_bool_decide; [apply leased_HandleLease|]. case_bool_decide; [apply leased_block|]. case_bool_decide; [apply leased_block|].
  case_bool_decide; [apply leased_blob|done].
Qed.
End Leased.
End Theorems.

(** ** Examples *)

(** The storage is a map from names, and an index is the bits of its number. *)
Module BlobMem.
#[global] Existing Instance MetaMem.gmapStore.
#[global] Existing Instance InsertionSort.

#[global] Program Instance remover : ObjectRemover (gmap string (list byte)) := {|
  DeleteObjects f keys := (None, foldr delete f keys)
|}.
Next Obligation.
  intros f keys name. cbn. intros Hn. induction keys as [|k keys IH]; [done|]. cbn.
  apply not_elem_of_cons in Hn as [H1 H2]. rewrite lookup_delete_ne by done. by apply IH.
Qed.
Next Obligation.
  intros f keys name _. cbn. induction keys as [|k keys IH]; [by intros ?%elem_of_nil|]. cbn.
  destruct (decide (k = name)) as [->|Hne]; [by rewrite lookup_delete_eq|].
  intros [?|Hin]%elem_of_cons; [by subst|]. rewrite lookup_delete_ne by done. by apply IH.
Qed.

#[global] Program Instance Block_countable : Countable Block :=
  inj_countable' (fun b => (ID b, Offset b, UploadedSize b, UploadedRev b, CommittedSize b, CommittedRev b))
    (fun t => let '(a, b, c, d, e, f) := t in mkBlock a b c d e f) _.
Next Obligation. by intros []. Qed.

Fixpoint bits (p : positive) : list byte :=
  match p with xH => [] | xO p => Byte.x00 :: bits p | xI p => Byte.x01 :: bits p end.
Fixpoint unbits (l : list byte) : positive :=
  match l with [] => xH | c :: l => if Byte.eqb c Byte.x00 then xO (unbits l) else xI (unbits l) end.

#[global] Program Instance indexJson : Json (Z * list Block) := {|
  Marshal x := Ok (bits (encode x));
  Unmarshal c := match decode (unbits c) with Some x => Ok x | None => Err (External "unexpected end of JSON input") end
|}.
Next Obligation.
  intros x c. cbn. intros [= <-]. assert (forall p, unbits (bits p) = p) as -> by (induction p; cbn; congruence).
  by rewrite decode_encode.
Qed.

Definition sub (f name : string) : string := f +s name +s "/".

(** A body, as two bytes for each of its letters, names a list of blocks. *)
Definition bodyOf (s : string) : list byte := mjoin ((fun c => [c; Byte.x00]) <$> String.list_byte_of_string s).
Definition blocksAB : list XBlockIn := [mkXBlockIn "A" BlockLatest; mkXBlockIn "B" BlockUncommitted].
Definition blocksBX : list XBlockIn := [mkXBlockIn "B" BlockLatest; mkXBlockIn "X" BlockLatest].
Definition tokens (b : list byte) : list token :=
  if bool_decide (b = String.list_byte_of_string "ab") then MarshalXML blocksAB
  else if bool_decide (b = String.list_byte_of_string "bx") then MarshalXML blocksBX else [].

Definition request (method comp blockid range : string) (body : list byte) : Request :=
  mkRequest method "db" true
    (fun k => if bool_decide (k = "comp") then comp else if bool_decide (k = "blockid") then blockid else "")
    (fun k => if bool_decide (k = "Content-Length") then fmtDec (Z.of_nat (length body)) else if bool_decide (k = "Range") then range else "")
    body 0 "".
Definition bytes (s : string) : list byte := String.list_byte_of_string s.
Definition put (s : string) : Request := request "PUT" "" "" "" (bytes s).
Definition block (id s : string) : Request := request "PUT" "block" id "" (bytes s).
Definition blocklist (s : string) : Request := request "PUT" "blocklist" "" "" (bodyOf s).
Definition get : Request := request "GET" "" "" "" [].
Definition range (x y : Z) : Request := request "GET" "" "" ("bytes=" +s fmtDec x +s "-" +s fmtDec y) [].

Definition empty : Server (gmap string (list byte)) := mkServer ∅ ∅ ∅.
Definition run (reqs : list Request) := serveAll sub "" tokens reqs empty.
Definition status (rs : list (option Response)) : list (option Z) := (fun r : option Response => Status <$> r) <$> rs.
Definition body (rs : list (option Response)) : list byte := default [] (Content <$> mjoin (last rs)).

Definition ops : list op := [Upload "A" (bytes "ab"); Upload "B" (bytes "cd"); Commit blocksAB].
Definition reqs : list Request := [block "A" "ab"; block "B" "cd"; blocklist "ab"].
End BlobMem.


Lemma memory_ok : Forall2 (isOp BlobMem.tokens "db") BlobMem.ops BlobMem.reqs.
Proof.
  assert (forall s, s = "ab" \/ s = "cd" -> sized (BlobMem.bytes s)) as Hs by (intros s [->| ->]; unfold sized; cbn; lia).
  unfold BlobMem.ops, BlobMem.reqs. constructor; [|constructor; [|constructor; [|constructor]]]; unfold isOp, isUpload, isCommit.
  - do 3 (split; [done|]). do 3 (split; [done|]). split; [by vm_compute|]. split; [done|auto].
  - do 3 (split; [done|]). do 3 (split; [done|]). split; [by vm_compute|]. split; [done|auto].
  - do 3 (split; [done|]). split; [done|]. split; [by vm_compute|]. split; [by apply (bool_decide_unpack _); vm_compute|done].
Qed.

Lemma memory_lease req : hasLease (getBlobFolder BlobMem.sub "" "db") (leases BlobMem.empty) req.
Proof. intros lease. cbn. by rewrite lookup_empty. Qed.

Lemma memory_leases reqs : Forall (hasLease (getBlobFolder BlobMem.sub "" "db") (leases BlobMem.empty)) reqs.
Proof. apply Forall_forall. intros req _. apply memory_lease. Qed.

(** The second and the third byte of a blob of two blocks. *)
Lemma blob_server_refines_witness : exists b, runOps BlobMem.ops emptyBlob = Some b /\ content b = BlobMem.bytes "abcd" /\
  exists r, fst (ServeHTTP2 BlobMem.sub "" BlobMem.tokens (BlobMem.range 1 2) (snd (BlobMem.run (BlobMem.put "" :: BlobMem.reqs)))) = Some r /\
    Content r = BlobMem.bytes "bc".
Proof.
  destruct (blob_server_refines BlobMem.sub "" BlobMem.tokens "db" BlobMem.empty (BlobMem.put "") BlobMem.ops BlobMem.reqs) as (b & Hrun & _ & Hr).
  - by vm_compute.
  - done.
  - apply memory_ok.
  - apply memory_leases.
  - done.
  - repeat constructor; by vm_compute.
  - exists b. split; [done|]. assert (content b = BlobMem.bytes "abcd") as Hb by (vm_compute in Hrun; by injection Hrun as <-).
    split; [done|]. rewrite Hb in Hr. destruct (Hr (BlobMem.range 1 2) 1 2) as (r & E & _ & Hc); [done|done|apply memory_lease|lia|lia|by cbn|].
    exists r. exact (conj E Hc).
Defined.

Lemma blob_survives_restart_witness : exists r,
  fst (ServeHTTP2 BlobMem.sub "" BlobMem.tokens BlobMem.get
    (restart (saver "db/" (snd (BlobMem.run (BlobMem.put "" :: BlobMem.reqs ++ [BlobMem.block "A" "xyz"])))))) = Some r /\
  Content r = BlobMem.bytes "abcd".
Proof.
  destruct (blob_survives_restart BlobMem.sub "" BlobMem.tokens "db" BlobMem.empty (BlobMem.put "")
    (BlobMem.ops ++ [Upload "A" (BlobMem.bytes "xyz")]) (BlobMem.reqs ++ [BlobMem.block "A" "xyz"])) as (b & Hrun & Hr).
  - by vm_compute.
  - done.
  - apply Forall2_app; [apply memory_ok|]. constructor; [|constructor]. do 6 (split; [done|]). done.
  - apply memory_leases.
  - done.
  - repeat constructor; by vm_compute.
  - done.
  - destruct (Hr BlobMem.get) as (r & E & _ & Hc); [done..|]. exists r. split; [exact E|]. rewrite Hc. vm_compute in Hrun. by injection Hrun as <-.
Defined.

Lemma put_blob_lost_witness : exists r,
  fst (ServeHTTP2 BlobMem.sub "" BlobMem.tokens BlobMem.get (snd (BlobMem.run [BlobMem.put "ab"; BlobMem.put "cde"]))) = Some r /\ Content r = [].
Proof.
  destruct (put_blob_lost BlobMem.sub "" BlobMem.tokens "db" BlobMem.empty (BlobMem.put "ab") (BlobMem.put "cde") BlobMem.get 2 3) as (r & E & _ & Hc); [by vm_compute|done|done|done|done|done|done|done| | |].
  - apply memory_leases.
  - repeat constructor; by vm_compute.
  - exists r. exact (conj E Hc).
Defined.

(** Another client deletes the blob. *)
Lemma lease_protects_witness :
  let bs := mkServer (∅ : gmap string (list byte)) ∅ {[ "db/" := mkLease "one" 100 ]} in
  folder (snd (ServeHTTP2 BlobMem.sub "" BlobMem.tokens (BlobMem.request "DELETE" "" "" "" []) bs)) = ∅.
Proof.
  intros bs. destruct (lease_protects BlobMem.sub "" BlobMem.tokens (BlobMem.request "DELETE" "" "" "" []) bs (mkLease "one" 100)) as [E _];
    [by vm_compute|done|done|exact E].
Defined.

